(* ===== verification/_CoqProject ===== *)
-Q . S2P
Prelude.v
Decimal.v
Status.v
StdMap.v
Path.v
Object.v
Bytes.v
FileSet.v
MDSKVSBucket.v
MDSKVS.v
S3Endpoint.v
ParseGRPC.v
Rpc.v
MetadataServer.v
MetadataService.v
LocalFile.v
MMAPFile.v
ConcurrentMap.v
GedsNames.v
FileHandle.v
Node.v
Handles.v
HandleIO.v
GEDS.v
GEDSCreate.v
GEDSObjects.v
GEDSStatus.v
GEDSRelocate.v
GEDSCache.v
CachedRead.v
Spill.v
Regex.v
Endian.v
TcpDataTransport.v
TcpConnection.v
ConcurrentQueue.v
TcpClient.v
FileTransferService.v
FileTransferThreads.v
RemoteRead.v
GEDSCopy.v
TransferServer.v
TcpFraming.v
TcpReceive.v
TcpTransport.v
TcpRequests.v
TcpRpc.v
TcpEndpoints.v
GEDSConfig.v
Statistics.v
HttpSession.v
AbstractHandle.v
S3Init.v
Commands.v
JavaFile.v
JavaGEDS.v
GEDSOverwrite.v
Startup.v
Demo.v
GEDSRace.v
GEDSThreads.v
GEDSSpill.v
PythonBinding.v
Locks.v
Utilities.v
GEDSOpenRace.v
Benchmarks.v
BenchmarkRead.v
BenchmarkIO.v
