(* ===== verification/Prelude.v ===== *)
(** * GEDS: a verification library for the Generic Ephemeral Data Store

    GEDS stores objects, named by a bucket and a key, in the memory and on the
    disks of the processes that use them and spills them to S3-compatible object
    stores. A metadata server knows where each object is; every process embeds
    the library, which keeps the files it created locally, fetches others from
    the process or the object store that has them, and moves files it no longer
    needs to the object store. This library models the C++ sources under
    src/src/: the metadata server (metadataservice/, utility/MDSKVS.cpp), the data
    model and its wire format (protos/, common/), the S3 client (s3/), the file
    layer, the transfer of files between processes, the message transport and the
    settings (libgeds/), the statistics (statistics/), the command line client
    (geds_cmd/) and the bindings for Java (java/) and Python (python/), and proves
    what makes each of them correct.

    ** How the parts interact

    A program calls [GEDS] (create, open, list, copy, delete). [GEDS] keeps a
    concurrent map from paths to shared file handles. A new object is a handle
    on a local file; [seal] announces it through the metadata client to the
    metadata server. Opening an object that is not local looks it up and makes
    a handle for its location: another process ([geds://host:port]) or an
    object store ([s3://bucket/key]), the latter read directly or through a
    cache of blocks, which are local objects themselves; the handle is wrapped
    so that it can be replaced when the object moves. A monitoring thread
    relocates closed local files when too much local storage is used. Bytes in
    another process are read through a file transfer service, which keeps
    connections to the server of that process and sends it textual requests;
    beside it there is a transport of binary messages, which no other part uses
    yet. Every process can show its statistics over HTTP. Java programs use the
    library through native functions, and a command line program sends single
    requests to the metadata server.

    ** Files

    - Prelude.v: strings as byte lists, outcomes of calls that throw or abort,
      64-bit arithmetic, string searches, list lemmas, automation.
    - Decimal.v, StdMap.v, Bytes.v: [std::to_string], [std::map]/[std::set] as
      sorted sequences, and positional reads and writes of byte arrays.
    - Status.v, Object.v, FileSet.v, Rpc.v, ParseGRPC.v: status values and their RPC
      encoding (protos/Status.h), the data model (protos/Object.h and others),
      sets of file statuses under the comparison of common/GEDSFileStatus.h, the
      messages of protos/geds.proto, and peer addresses (protos/ParseGRPC.cpp).
    - Path.v, MDSKVSBucket.v, MDSKVS.v: prefix search (utility/Path.h), a bucket
      and the store (utility/MDSKVSBucket.cpp, MDSKVS.cpp), with buckets and
      containers as addresses in a heap, since pointers outlive the locks.
    - S3Endpoint.v: s3/S3Endpoint.cpp over the AWS client as an interface.
    - MetadataServer.v, MetadataService.v: the handlers of
      metadataservice/GRPCServer.cpp with ObjectStoreHandler.cpp and S3Helper.cpp,
      and the client libgeds/MetadataService.cpp with its cache. The generated
      stub between them is the class [MDStub]; [MDService] says that it reaches
      a store, and the server is an instance of both.
    - LocalFile.v, MMAPFile.v: the two kinds of local files, over system calls
      that can be short, be interrupted or fail ([Kernel], [MmapKernel]).
      AbstractHandle.v: the handle template of GEDSAbstractFileHandle.h over an
      interface for the file class ([StorageFile], with its promises
      [StorageLaws]), which both kinds implement.
    - ConcurrentMap.v: utility/ConcurrentMap.h and ConcurrentSet.h; an execution
      is a sequence of operations, since each holds the lock throughout. Locks.v
      proves that this is so: the operations access by access, and the locks of
      RWConcurrentObjectAdaptor.h, over an interface [Guarded] that maps, sets,
      queues and the log implement.
    - GedsNames.v: names, paths and local file names (GEDS.cpp).
    - FileHandle.v: [GEDSFile] with the open counts of handles, and the copying
      loops of GEDSFileHandle.cpp over any source and destination ([FileIO]).
    - Node.v: the members of the class [GEDS] and all they reach as one record
      [Node]; file handles live in a heap, names of local files refer to
      inodes. Computations are functions on it that return, terminate the
      process ([Crash]) or exceed the bound on loops ([NoFuel]).
    - Handles.v, HandleIO.v, GEDS.v: the file handle classes (local, S3, remote,
      cached, relocatable) and every operation of GEDS.cpp. Destructors run where
      the C++ reference counts reach zero ([drop_ref]).
    - GEDSCreate.v, GEDSObjects.v, GEDSRelocate.v, GEDSCache.v: theorems about
      GEDS.v, proved against the interfaces [MDService], [KernelFair], [S3Store].
    - GEDSStatus.v, GEDSCopy.v, GEDSOverwrite.v: theorems about status and
      directories, about copying and renaming from any source of bytes (a record
      [source] with local and remote objects as instances), and about creating
      over an existing object.
    - GEDSRace.v, GEDSOpenRace.v: the steps of creating and of opening an object, and
      threads that create or open the same object at the same time.
    - Startup.v: the names of temporary files and directories (Filesystem.cpp), the
      factory, the constructor and the destructor of GEDS, and who holds it.
    - CachedRead.v: reads through the block cache, with the download of missing
      blocks.
    - Spill.v, GEDSSpill.v: what the storage monitor selects and the waiting for
      relocation tasks; what a process and its stores are after the monitor has
      relocated what it selected. GEDSThreads.v: the monitoring and publication
      threads, how [stop] ends them, and the overloads of GEDS.h.
    - Regex.v, Endian.v: the part of [std::regex] that requests are parsed with,
      as a backtracking match with captures, and integers in memory.
    - TcpDataTransport.v, TcpConnection.v, TcpClient.v: the text of requests and
      the layout of responses, the serving side of a connection on a [Node], and
      the reading side over a network of hosts that cuts, delays and breaks.
    - ConcurrentQueue.v, FileTransferService.v, FileTransferThreads.v,
      TransferServer.v: the queue of idle connections, the service that keeps it, the
      threads that read through one service, step by step, and the server with its
      ports (Server.cpp, TcpServer.cpp).
    - RemoteRead.v: the file layer of one process and the server of another,
      joined through the interface [TransferHosts].
    - TcpFraming.v, TcpReceive.v, TcpTransport.v: the messages and the sending and
      receiving state machines of TcpTransport.cpp, and its peers, endpoints,
      requests, event handlers and the threads that connect and accept, step by step.
      TcpRequests.v, TcpRpc.v, TcpEndpoints.v: what
      becomes of requests, a request with its reply between two processes, and
      the bound on connections.
    - GEDSConfig.v, Statistics.v, HttpSession.v: settings, statistics and the HTTP
      endpoint that shows them. S3Init.v: the threads that start the AWS SDK.
      Utilities.v: log lines, time stamps and the host name (utility/).
    - Commands.v, Demo.v: the programs geds_cmd/main.cpp, geds/main.cpp and
      metadataservice/main.cpp on parsed flags.
    - Benchmarks.v, BenchmarkRead.v, BenchmarkIO.v: the programs of benchmarks/ that
      create numbered objects, that read them, and that measure reads. What can be
      read is an interface (a record [session]) with the objects of the process and
      those of other processes as instances.
    - JavaFile.v, JavaGEDS.v: the native functions of the Java binding and the Java
      classes that call them (GEDSFile.java, GEDS.java, GEDSConfig.java), with
      Java exceptions, arrays and buffers, and native objects by address.
      PythonBinding.v: every function that python/wrapper.cpp registers, over the
      buffer protocol.

    ** Theorems

    - Metadata: a bucket and the store refine finite maps, with all statuses and
      messages, for any sequence of operations; listings are exact; delayed
      updates and concurrent forced creations keep the store well-formed; the
      client with its cache answers like the store, for delimiters below 128; registering an object store
      publishes its objects. Operations under the locks are linearizable.
    - Bytes: reads and writes of local and mapped files and of S3 objects return
      or store exactly the requested range despite short and interrupted calls;
      mapped files are accessed outside their mapping only through writes from streams,
      and exactly those that can are named; a handle over either
      kind of file is an array of bytes with counters; S3 listings and
      prefix deletions are complete across pages and batches.
    - Objects: what was created, written and sealed is announced and read back;
      relocation keeps the bytes and announces the new place, and an open file
      follows its object there; the storage monitor brings local storage below
      its target without losing an object; threads that open one object share its
      handle; stopping ends the threads; cached reads agree with the remote object;
      listings, status and deletions are exact; a copy has the bytes of its source
      and is announced, a rename moves the object and nothing else; names and local paths do not clash, with
      one exception that is stated; open counts are exact.
    - Transfers: parsing a request inverts writing it; a read from another process
      returns the range of its file whatever the network does; connections are
      never shared and only an exception loses one; messages survive every fragmentation on both sides; a request
      over the transport fulfils exactly its promise; requests are conserved
      whatever arrives; the endpoints of a peer are bounded, by more than the number of
      I/O threads.
    - A configuration is a table of typed settings; histograms are exact; the
      AWS SDK is started once before anyone uses it.
    - Programs: the command line client performs the requested operation, with the key
      as location;
      the program geds serves what it says and prints what another process has; a
      Java program sees an array of bytes, with end of file and refusals, and
      what it seals is what everyone finds; so does a Python program, for buffers
      without strides. Any number of objects that executors create in turns are all
      announced and read back, and tasks that read ranges of them read every byte of
      a prefix once.
    - Where the code does not do what it seems to intend, a theorem states what
      it does: creating, copying to or renaming to an existing object destroys its
      local data, overwriting one makes the new object lose its bytes when it is
      relocated, as when two threads create it at once, Python processes share local files and
      strided Python buffers are accessed outside their items, a started service is never
      destroyed, a failed start is final, prefix deletion searches handles without
      the bucket, [download] and [relocate] can wait for ever, the benchmarks serve zeros and
      leave out remainders, and others.

    ** Bounds

    Loops over system calls, requests or rounds take [fuel]; theorems state how
    much is enough (one step per byte or per request when every call makes
    progress, plus the interruptions the kernel has left) and then give the
    result itself. Handles are nested at most five deep ([DEPTH]: a wrapper, a
    cached handle, the wrapper of a block and its handle). Integers of type
    [size_t] wrap at 2^64 ([u64]) where the code adds or subtracts them.

    The loops that receive messages take a number of rounds besides: one more
    than there are bytes is enough for what has arrived; where the code never
    ends (sendfile on a shortened file, the end of the stream in the data of a
    reply) the theorem is that no fuel is enough.

    ** Not modelled

    Calls of the log and timers inside operations, and the separate Go server. Libraries and the system appear as interfaces or as arguments: gRPC stubs, the AWS client and
    SDK, system calls, the results of connecting and binding, the parser of HTTP,
    parsed flags, the Java native interface. Threads appear as sequences of atomic
    steps (buckets, the store, concurrent maps, queues, relocation tasks, reads through
    a file transfer service, connecting, accepting and the events of the transport, the
    start of the SDK, stopping, creating and opening an object); the other operations of [GEDS] run one at a time. Local files of a process are [LocalFile]s, as GEDSLocalFileHandle.h
    chooses.

    ** Plan

    What is left is threads in one [GEDS] that seal, relocate and delete the
    same objects at once: GEDSRace.v and GEDSOpenRace.v cut creating and opening
    into their steps, the other operations would follow the same way. *)

From Stdlib Require Import Ascii ZArith Lia.
From stdpp Require Import base gmap sets list strings numbers sorting.

(** ** Notations *)

(** A C++ [std::string] is a sequence of bytes. *)
Abbreviation str := (list ascii).
Coercion String.list_ascii_of_string : string >-> list.

Declare Scope geds_scope.
Delimit Scope geds_scope with geds.

(** ** Outcomes of calls that can throw or abort *)

Inductive exn :=
| out_of_range
| invalid_argument
| runtime_error (what : str).

(** [Ret v]: the call returned. [Throw e]: a C++ exception left the call.
    [Abort]: the process was terminated, as absl does when the value of a
    [StatusOr] that holds an error is accessed. *)
Inductive outcome (A : Type) :=
| Ret (a : A)
| Throw (e : exn)
| Abort.
Arguments Ret {A} a.
Arguments Throw {A} e.
Arguments Abort {A}.

Definition obind {A B} (m : outcome A) (k : A -> outcome B) : outcome B :=
  match m with
  | Ret a => k a
  | Throw e => Throw e
  | Abort => Abort
  end.

Notation "'let!' x ':=' m 'in' k" := (obind m (fun x => k))
  (at level 200, x pattern, m at level 100, k at level 200,
   right associativity) : geds_scope.

Open Scope geds_scope.

#[global] Instance exn_eq_dec : EqDecision exn.
Proof. solve_decision. Defined.
#[global] Instance outcome_eq_dec {A} `{EqDecision A} : EqDecision (outcome A).
Proof. solve_decision. Defined.

(** Closes a decidable goal by evaluation. *)
Ltac by_decision :=
  match goal with |- ?P => apply (bool_decide_unpack P); vm_compute; exact I end.

(** ** Machine integers *)

Definition two64 : Z := 2 ^ 64.
Definition SIZE_MAX : Z := two64 - 1.
Definition INT64_MAX : Z := 2 ^ 63 - 1.
Definition SSIZE_MAX : Z := 2 ^ 63 - 1.

(** [size_t] and [uint64_t] arithmetic is modulo 2^64. *)
Definition u64 (z : Z) : Z := (z mod two64)%Z.
Definition u32 (z : Z) : Z := (z mod 2 ^ 32)%Z.
Definition u16 (z : Z) : Z := (z mod 2 ^ 16)%Z.

(** Conversion of an integer to [int64_t] (two's complement). *)
Definition i64 (z : Z) : Z :=
  let r := u64 z in if (r <? 2 ^ 63)%Z then r else (r - two64)%Z.

Definition is_u64 (z : Z) : Prop := (0 <= z < two64)%Z.

Create HintDb geds.

Lemma u64_small z : is_u64 z -> u64 z = z.
Proof. unfold u64, is_u64. intros. now apply Z.mod_small. Qed.

Lemma u64_range z : is_u64 (u64 z).
Proof. unfold u64, is_u64, two64. apply Z.mod_pos_bound. lia. Qed.

Lemma u64_idem z : u64 (u64 z) = u64 z.
Proof. apply u64_small, u64_range. Qed.

Lemma u64_add_l a b : u64 (u64 a + b) = u64 (a + b).
Proof. unfold u64. now rewrite Zplus_mod_idemp_l. Qed.

#[export] Hint Resolve u64_range : geds.
#[export] Hint Rewrite u64_idem u64_add_l : geds.

(** ** Strings: ordering *)

(** [std::string::operator<] compares bytes as [unsigned char]. *)
Fixpoint str_ltb (a b : str) : bool :=
  match a, b with
  | _, [] => false
  | [], _ :: _ => true
  | x :: a', y :: b' =>
      if (N_of_ascii x <? N_of_ascii y)%N then true
      else if (N_of_ascii y <? N_of_ascii x)%N then false
      else str_ltb a' b'
  end.

Lemma N_of_ascii_inj x y : N_of_ascii x = N_of_ascii y -> x = y.
Proof.
  intros H. rewrite <- (ascii_N_embedding x), <- (ascii_N_embedding y).
  now rewrite H.
Qed.

Ltac ascii_cases :=
  repeat match goal with
  | |- context [(N_of_ascii ?x <? N_of_ascii ?y)%N] =>
      destruct (N.ltb_spec (N_of_ascii x) (N_of_ascii y))
  | H : context [(N_of_ascii ?x <? N_of_ascii ?y)%N] |- _ =>
      destruct (N.ltb_spec (N_of_ascii x) (N_of_ascii y))
  end.

Lemma str_ltb_irrefl a : str_ltb a a = false.
Proof. induction a as [|x a IH]; simpl; [done|]. ascii_cases; [lia|done]. Qed.

Lemma str_ltb_trans a b c :
  str_ltb a b = true -> str_ltb b c = true -> str_ltb a c = true.
Proof.
  revert b c. induction a as [|x a IH]; intros [|y b] [|z c]; simpl; try done.
  ascii_cases; try done; try lia. eauto.
Qed.

Lemma str_ltb_total a b : str_ltb a b = false -> str_ltb b a = false -> a = b.
Proof.
  revert b. induction a as [|x a IH]; intros [|y b]; simpl; try done.
  ascii_cases; try done; try lia. intros H1 H2.
  f_equal; [apply N_of_ascii_inj; lia | eauto].
Qed.

(** Keys of ordered containers: a strict total order given by its [<]. *)
Class StrictTotal (K : Type) := {
  ltb : K -> K -> bool;
  ltb_irrefl k : ltb k k = false;
  ltb_trans a b c : ltb a b = true -> ltb b c = true -> ltb a c = true;
  ltb_total a b : ltb a b = false -> ltb b a = false -> a = b
}.

#[export] Instance str_strict_total : StrictTotal str := {|
  ltb := str_ltb;
  ltb_irrefl := str_ltb_irrefl;
  ltb_trans := str_ltb_trans;
  ltb_total := str_ltb_total
|}.

#[export, refine] Instance Z_strict_total : StrictTotal Z := {| ltb := Z.ltb |}.
Proof. all: intros; lia. Defined.

Lemma ltb_asym `{StrictTotal K} a b : ltb a b = true -> ltb b a = false.
Proof.
  intros Hab. destruct (ltb b a) eqn:Hba; [|done].
  pose proof (ltb_trans _ _ _ Hab Hba) as Haa. rewrite ltb_irrefl in Haa. done.
Qed.

Lemma ltb_ne `{StrictTotal K} a b : ltb a b = true -> a <> b.
Proof. intros Hab ->. rewrite ltb_irrefl in Hab. done. Qed.

Lemma le_lt_trans `{StrictTotal K} a b c :
  ltb b a = false -> ltb b c = true -> ltb a c = true.
Proof.
  intros Hba Hbc. destruct (ltb a b) eqn:Hab; [by apply (ltb_trans a b c)|].
  by rewrite (ltb_total a b).
Qed.

Lemma lt_le_trans `{StrictTotal K} a b c :
  ltb a b = true -> ltb c b = false -> ltb a c = true.
Proof.
  intros Hab Hcb. destruct (ltb b c) eqn:Hbc; [by apply (ltb_trans a b c)|].
  by rewrite (ltb_total c b).
Qed.

(** Truncating to the first [n] bytes is monotone. *)
Lemma str_ltb_take n a b : str_ltb a b = true -> str_ltb (take n b) (take n a) = false.
Proof.
  revert n b. induction a as [|x a IH]; intros [|n] [|y b]; simpl; try done.
  ascii_cases; try done; try lia. auto.
Qed.

(** ** Strings: searching and slicing *)

(** [s.find(c, pos)]; [None] is [std::string::npos]. *)
Fixpoint find_char (c : ascii) (s : str) : option nat :=
  match s with
  | [] => None
  | x :: s' => if bool_decide (x = c) then Some 0%nat else S <$> find_char c s'
  end.

Definition find_from (c : ascii) (pos : nat) (s : str) : option nat :=
  (fun i => (pos + i)%nat) <$> find_char c (drop pos s).

(** [s.rfind(c)] *)
Definition rfind_char (c : ascii) (s : str) : option nat :=
  (fun i => (length s - 1 - i)%nat) <$> find_char c (rev s).

(** [s.starts_with(p)], also [s.compare(0, p.size(), p) == 0]. *)
Definition starts_with (p s : str) : bool := bool_decide (take (length p) s = p).

Definition ends_with (p s : str) : bool :=
  bool_decide (length p <= length s)%nat &&
  bool_decide (drop (length s - length p) s = p).

(** [s.find(p) != npos] *)
Fixpoint contains (p s : str) : bool :=
  starts_with p s ||
  match s with
  | [] => false
  | _ :: s' => contains p s'
  end.

(** [s.substr(pos, n)] throws [std::out_of_range] when [pos > s.size()]. *)
Definition substr (s : str) (pos : nat) (n : option nat) : outcome str :=
  if (length s <? pos)%nat then Throw out_of_range
  else Ret (match n with Some n => take n (drop pos s) | None => drop pos s end).

Lemma find_char_Some c s i :
  find_char c s = Some i <-> s !! i = Some c /\ c ∉ take i s.
Proof.
  revert i. induction s as [|x s IH]; intros i; simpl.
  - rewrite lookup_nil. naive_solver.
  - case_bool_decide as Hx.
    + subst. split.
      * intros [= <-]. simpl. split; [done|set_solver].
      * intros [Hl Hn]. destruct i as [|i]; [done|]. simpl in Hn. set_solver.
    + rewrite fmap_Some. split.
      * intros (j & Hj & ->). apply IH in Hj as [Hl Hn]. simpl. set_solver.
      * intros [Hl Hn]. destruct i as [|i]; simpl in *; [congruence|].
        exists i. split; [|done]. apply IH. set_solver.
Qed.

Lemma find_char_None c s : find_char c s = None <-> c ∉ s.
Proof.
  induction s as [|x s IH]; simpl; [set_solver|].
  case_bool_decide; [set_solver|]. rewrite fmap_None. set_solver.
Qed.

(** Splitting at the first occurrence of a character. *)
Lemma find_char_split c s i :
  find_char c s = Some i -> s = take i s ++ c :: drop (S i) s.
Proof. intros [H _]%find_char_Some. symmetry. by apply take_drop_middle. Qed.

Lemma find_char_app_notin c a b :
  c ∉ a -> find_char c (a ++ b) = (fun i => (length a + i)%nat) <$> find_char c b.
Proof.
  induction a as [|x a IH]; intros Hn; simpl.
  - by destruct (find_char c b).
  - case_bool_decide; [set_solver|].
    rewrite IH by set_solver. by destruct (find_char c b).
Qed.

Lemma find_char_app_cons c a b :
  c ∉ a -> find_char c (a ++ c :: b) = Some (length a).
Proof.
  intros Hn. rewrite find_char_app_notin by done. simpl.
  rewrite bool_decide_true by done. simpl. f_equal. lia.
Qed.

Lemma starts_with_app p s : starts_with p (p ++ s) = true.
Proof. unfold starts_with. apply bool_decide_eq_true. by rewrite take_app_length. Qed.

Lemma starts_with_prefix p s : starts_with p s = true <-> p `prefix_of` s.
Proof.
  unfold starts_with. rewrite bool_decide_eq_true. split.
  - intros H. exists (drop (length p) s). rewrite <- H at 1. by rewrite take_drop.
  - intros [k ->]. by rewrite take_app_length.
Qed.

Lemma ends_with_suffix p s : ends_with p s = true <-> p `suffix_of` s.
Proof.
  unfold ends_with. rewrite andb_true_iff, !bool_decide_eq_true. split.
  - intros [_ H]. exists (take (length s - length p) s).
    rewrite <- H at 2. by rewrite take_drop.
  - intros [k ->]. rewrite length_app. split; [lia|].
    replace (length k + length p - length p)%nat with (length k) by lia.
    by rewrite drop_app_length.
Qed.
