(* ===== verification/Decimal.v ===== *)
(** * Decimal text: [std::to_string] and [std::stoull]

    The printer and the parser of the unsigned integers that appear in the
    text protocols, the metrics and the local file names, and their round
    trip. *)

From Stdlib Require Import Ascii ZArith Lia.
From stdpp Require Import base sets list strings numbers.
From S2P Require Import Prelude.

Open Scope Z_scope.

(** ** Printing *)

Definition digit_char (d : Z) : ascii := ascii_of_N (48 + Z.to_N d).
Definition is_digit (c : ascii) : bool :=
  (48 <=? N_of_ascii c)%N && (N_of_ascii c <=? 57)%N.
Definition digit_value (c : ascii) : Z := Z.of_N (N_of_ascii c) - 48.

(** The decimal digits of [n >= 0], most significant first. [fuel] bounds the
    number of digits; [to_string] passes one more than the bit length. *)
Fixpoint print_dec (fuel : nat) (n : Z) : str :=
  match fuel with
  | O => []
  | S fuel =>
      if n <? 10 then [digit_char n]
      else print_dec fuel (n / 10) ++ [digit_char (n mod 10)]
  end.

Definition dec_fuel (n : Z) : nat := S (Z.to_nat (Z.log2 n)).

(** [std::to_string] and [ostream << size_t] of an unsigned value. *)
Definition to_string (n : Z) : str := print_dec (dec_fuel n) n.

(** [std::to_string] of a signed value. *)
Definition to_string_signed (n : Z) : str :=
  if n <? 0 then "-"%char :: to_string (- n) else to_string n.

(** ** Parsing *)

Definition parse_dec_from (acc : Z) (s : str) : Z :=
  fold_left (fun a c => a * 10 + digit_value c) s acc.
Definition parse_dec (s : str) : Z := parse_dec_from 0 s.

Definition is_space (c : ascii) : bool :=
  (N_of_ascii c =? 32)%N || ((9 <=? N_of_ascii c)%N && (N_of_ascii c <=? 13)%N).

Fixpoint take_while (p : ascii -> bool) (s : str) : str :=
  match s with
  | [] => []
  | c :: s' => if p c then c :: take_while p s' else []
  end.

Fixpoint drop_while (p : ascii -> bool) (s : str) : str :=
  match s with
  | [] => []
  | c :: s' => if p c then drop_while p s' else s
  end.

(** [std::stoull(s)]: skips white space, accepts a sign, converts the longest
    run of digits; throws when there is no digit or the value does not fit. *)
Definition stoull (s : str) : outcome Z :=
  let s1 := drop_while is_space s in
  let '(neg, s2) :=
    match s1 with
    | "-"%char :: r => (true, r)
    | "+"%char :: r => (false, r)
    | _ => (false, s1)
    end in
  let ds := take_while is_digit s2 in
  match ds with
  | [] => Throw invalid_argument
  | _ :: _ =>
      let v := parse_dec ds in
      if SIZE_MAX <? v then Throw out_of_range
      else Ret (if neg : bool then u64 (- v) else v)
  end.

(** ** Lemmas *)

Lemma digit_char_digit d : 0 <= d < 10 -> is_digit (digit_char d) = true.
Proof.
  intros Hd. unfold is_digit, digit_char.
  rewrite N_ascii_embedding by lia.
  apply andb_true_intro. rewrite !N.leb_le. lia.
Qed.

Lemma digit_value_char d : 0 <= d < 10 -> digit_value (digit_char d) = d.
Proof.
  intros Hd. unfold digit_value, digit_char.
  rewrite N_ascii_embedding by lia. lia.
Qed.

#[export] Hint Resolve digit_char_digit : geds.

Lemma print_dec_digits fuel n : 0 <= n -> Forall is_digit (print_dec fuel n).
Proof.
  revert n. induction fuel as [|fuel IH]; intros n Hn; simpl; [constructor|].
  destruct (Z.ltb_spec n 10).
  - repeat constructor. apply Is_true_true, digit_char_digit. lia.
  - apply Forall_app. split; [apply IH; apply Z.div_pos; lia|].
    repeat constructor. apply Is_true_true, digit_char_digit.
    apply Z.mod_pos_bound. lia.
Qed.

Lemma to_string_digits n : 0 <= n -> Forall is_digit (to_string n).
Proof. apply print_dec_digits. Qed.

Lemma print_dec_nonempty fuel n : print_dec (S fuel) n <> [].
Proof.
  simpl. destruct (n <? 10); [done|].
  intros [_ H]%app_eq_nil. done.
Qed.

Lemma to_string_nonempty n : to_string n <> [].
Proof. apply print_dec_nonempty. Qed.

Lemma parse_dec_app a b acc :
  parse_dec_from acc (a ++ b) = parse_dec_from (parse_dec_from acc a) b.
Proof. unfold parse_dec_from. apply fold_left_app. Qed.

Lemma dec_fuel_step n : 10 <= n -> (dec_fuel (n / 10) < dec_fuel n)%nat.
Proof.
  intros Hn. unfold dec_fuel.
  assert (0 < n / 10) by (apply Z.div_str_pos; lia).
  assert (n / 10 <= n / 2) as Hle by (apply Z.div_le_compat_l; lia).
  apply Z.log2_le_mono in Hle. rewrite <- Z.div2_div in Hle.
  assert (Z.log2 (Z.div2 n) = Z.pred (Z.log2 n)) as Hd.
  { rewrite Z.div2_spec, Z.log2_shiftr by lia. pose proof (Z.log2_le_mono 2 n).
    change (Z.log2 2) with 1 in *. lia. }
  pose proof (Z.log2_nonneg (n / 10)). lia.
Qed.

Lemma parse_print_dec fuel n :
  0 <= n -> (dec_fuel n <= fuel)%nat -> parse_dec (print_dec fuel n) = n.
Proof.
  revert n. induction fuel as [|fuel IH]; intros n Hn Hf.
  { unfold dec_fuel in Hf. lia. }
  simpl. destruct (Z.ltb_spec n 10).
  - unfold parse_dec, parse_dec_from. simpl. rewrite digit_value_char; lia.
  - unfold parse_dec. rewrite parse_dec_app.
    fold (parse_dec (print_dec fuel (n / 10))). rewrite IH.
    + unfold parse_dec_from. simpl.
      rewrite digit_value_char by (apply Z.mod_pos_bound; lia).
      pose proof (Z.div_mod n 10). lia.
    + apply Z.div_pos; lia.
    + pose proof (dec_fuel_step n). lia.
Qed.

(** Printing then parsing gives the number back. *)
Lemma parse_to_string n : 0 <= n -> parse_dec (to_string n) = n.
Proof. intros. by apply parse_print_dec. Qed.

Lemma to_string_inj a b : 0 <= a -> 0 <= b -> to_string a = to_string b -> a = b.
Proof.
  intros Ha Hb H. rewrite <- (parse_to_string a), <- (parse_to_string b) by done.
  by rewrite H.
Qed.

Lemma take_while_all (p : ascii -> bool) s : Forall p s -> take_while p s = s.
Proof.
  induction 1 as [|c s Hc Hs IH]; simpl; [done|].
  apply Is_true_true in Hc. by rewrite Hc, IH.
Qed.

Lemma take_while_app (p : ascii -> bool) s c r :
  Forall p s -> p c = false -> take_while p (s ++ c :: r) = s.
Proof.
  intros Hs Hc. induction Hs as [|d s Hd Hs IH]; simpl; [by rewrite Hc|].
  apply Is_true_true in Hd. by rewrite Hd, IH.
Qed.

Lemma drop_while_app (p : ascii -> bool) s c r :
  Forall p s -> p c = false -> drop_while p (s ++ c :: r) = c :: r.
Proof.
  intros Hs Hc. induction Hs as [|d s Hd Hs IH]; simpl; [by rewrite Hc|].
  apply Is_true_true in Hd. by rewrite Hd.
Qed.

Lemma take_while_Forall (p : ascii -> bool) s : Forall p (take_while p s).
Proof.
  induction s as [|c s IH]; simpl; [constructor|].
  destruct (p c) eqn:E; constructor; [by rewrite E|done].
Qed.

Lemma take_drop_while p s : take_while p s ++ drop_while p s = s.
Proof. induction s as [|c s IH]; simpl; [done|]. destruct (p c); simpl; congruence. Qed.

Lemma digit_not_space c : is_digit c = true -> is_space c = false.
Proof.
  unfold is_digit, is_space. rewrite andb_true_iff, !N.leb_le. intros [H1 H2].
  apply orb_false_intro; [apply N.eqb_neq; lia|].
  apply andb_false_intro2. apply N.leb_gt. lia.
Qed.

Lemma digit_not_sign c :
  is_digit c = true -> c <> "-"%char /\ c <> "+"%char.
Proof. intros H. split; intros ->; discriminate H. Qed.

(** On a non-empty run of digits [stoull] is [parse_dec] with a range check. *)
Lemma stoull_digits s :
  Forall is_digit s -> s <> [] ->
  stoull s = if SIZE_MAX <? parse_dec s then Throw out_of_range else Ret (parse_dec s).
Proof.
  intros Hs Hne. destruct s as [|c s]; [done|].
  pose proof (Forall_inv Hs) as Hc%Is_true_true.
  pose proof (digit_not_sign c Hc) as [H1 H2]. unfold stoull.
  replace (drop_while is_space (c :: s)) with (c :: s)
    by (simpl; by rewrite (digit_not_space c Hc)).
  assert ((match c :: s with
     | "-"%char :: r => (true, r) | "+"%char :: r => (false, r)
     | _ => (false, c :: s) end) = (false, c :: s)) as ->.
  { destruct c as [[] [] [] [] [] [] [] []]; done. }
  rewrite take_while_all by done. done.
Qed.

Lemma stoull_to_string n : is_u64 n -> stoull (to_string n) = Ret n.
Proof.
  intros Hn. unfold is_u64 in Hn.
  rewrite stoull_digits by (auto using to_string_nonempty; apply to_string_digits; lia).
  rewrite parse_to_string by lia. unfold SIZE_MAX.
  destruct (Z.ltb_spec (two64 - 1) n); [lia|done].
Qed.
