(* ===== verification/Status.v ===== *)
(** * Status values

    [absl::Status] and [absl::StatusOr], and the conversion to and from the
    [StatusResponse] message of the RPC protocol (src/src/protos/Status.h,
    Status.cpp and status.proto). *)

From Stdlib Require Import Ascii ZArith Lia.
From stdpp Require Import base sets list strings numbers.
From S2P Require Import Prelude.

Open Scope Z_scope.

(** ** Codes *)

Inductive StatusCode :=
| kOk | kCancelled | kUnknown | kInvalidArgument | kDeadlineExceeded | kNotFound
| kAlreadyExists | kPermissionDenied | kResourceExhausted | kFailedPrecondition
| kAborted | kOutOfRange | kUnimplemented | kInternal | kUnavailable | kDataLoss
| kUnauthenticated.

#[global] Instance StatusCode_eq_dec : EqDecision StatusCode.
Proof. solve_decision. Defined.

(** The names of the protobuf enum [geds.rpc.StatusCode]. *)
Inductive RpcStatusCode :=
| OK | CANCELLED | UNKNOWN | INVALID_ARGUMENT | DEADLINE_EXCEEDED | NOT_FOUND
| ALREADY_EXISTS | PERMISSION_DENIED | RESOURCE_EXHAUSTED | FAILED_PRECONDITION
| ABORTED | OUT_OF_RANGE | UNIMPLEMENTED | INTERNAL | UNAVAILABLE | DATA_LOSS
| UNAUTHENTICATED.

Definition code_int (c : StatusCode) : Z :=
  match c with
  | kOk => 0 | kCancelled => 1 | kUnknown => 2 | kInvalidArgument => 3
  | kDeadlineExceeded => 4 | kNotFound => 5 | kAlreadyExists => 6
  | kPermissionDenied => 7 | kResourceExhausted => 8 | kFailedPrecondition => 9
  | kAborted => 10 | kOutOfRange => 11 | kUnimplemented => 12 | kInternal => 13
  | kUnavailable => 14 | kDataLoss => 15 | kUnauthenticated => 16
  end.

Definition rpc_int (c : RpcStatusCode) : Z :=
  match c with
  | OK => 0 | CANCELLED => 1 | UNKNOWN => 2 | INVALID_ARGUMENT => 3
  | DEADLINE_EXCEEDED => 4 | NOT_FOUND => 5 | ALREADY_EXISTS => 6
  | PERMISSION_DENIED => 7 | RESOURCE_EXHAUSTED => 8 | FAILED_PRECONDITION => 9
  | ABORTED => 10 | OUT_OF_RANGE => 11 | UNIMPLEMENTED => 12 | INTERNAL => 13
  | UNAVAILABLE => 14 | DATA_LOSS => 15 | UNAUTHENTICATED => 16
  end.

(** The pairs the [static_assert]s of Status.cpp relate. *)
Definition asserted_pairs : list (StatusCode * RpcStatusCode) :=
  [(kOk, OK); (kCancelled, CANCELLED); (kUnknown, UNKNOWN);
   (kInvalidArgument, INVALID_ARGUMENT); (kDeadlineExceeded, DEADLINE_EXCEEDED);
   (kNotFound, NOT_FOUND); (kAlreadyExists, ALREADY_EXISTS);
   (kPermissionDenied, PERMISSION_DENIED); (kResourceExhausted, RESOURCE_EXHAUSTED);
   (kFailedPrecondition, FAILED_PRECONDITION); (kAborted, ABORTED);
   (kOutOfRange, OUT_OF_RANGE); (kUnimplemented, UNIMPLEMENTED);
   (kInternal, INTERNAL); (kUnavailable, UNAVAILABLE); (kDataLoss, DATA_LOSS);
   (kUnauthenticated, UNAUTHENTICATED)].

(** absl maps an integer that is not a code to [kUnknown]. *)
Definition code_of_int (n : Z) : StatusCode :=
  match n with
  | 0 => kOk | 1 => kCancelled | 2 => kUnknown | 3 => kInvalidArgument
  | 4 => kDeadlineExceeded | 5 => kNotFound | 6 => kAlreadyExists
  | 7 => kPermissionDenied | 8 => kResourceExhausted | 9 => kFailedPrecondition
  | 10 => kAborted | 11 => kOutOfRange | 12 => kUnimplemented | 13 => kInternal
  | 14 => kUnavailable | 15 => kDataLoss | 16 => kUnauthenticated
  | _ => kUnknown
  end.

(** ** [absl::Status] *)

Record Status := mkStatus { raw_code : Z; message : str }.

#[global] Instance Status_eq_dec : EqDecision Status.
Proof. solve_decision. Defined.

Definition ok (s : Status) : bool := raw_code s =? 0.
Definition code (s : Status) : StatusCode := code_of_int (raw_code s).
Definition OkStatus : Status := mkStatus 0 [].

(** [absl::Status(code, message)]: an OK status carries no message. *)
Definition make_status (c : Z) (msg : str) : Status :=
  if c =? 0 then OkStatus else mkStatus c msg.

Definition error (c : StatusCode) (msg : str) : Status := make_status (code_int c) msg.
Definition UnknownError := error kUnknown.
Definition InvalidArgumentError := error kInvalidArgument.
Definition NotFoundError := error kNotFound.
Definition AlreadyExistsError := error kAlreadyExists.
Definition PermissionDeniedError := error kPermissionDenied.
Definition FailedPreconditionError := error kFailedPrecondition.
Definition AbortedError := error kAborted.
Definition InternalError := error kInternal.
Definition UnavailableError := error kUnavailable.

Definition code_is (c : StatusCode) (s : Status) : bool := bool_decide (code s = c).

(** ** [absl::StatusOr] *)

Inductive StatusOr (A : Type) :=
| Value (a : A)
| Error (s : Status).
Arguments Value {A} a.
Arguments Error {A} s.

#[global] Instance StatusOr_eq_dec {A} `{EqDecision A} : EqDecision (StatusOr A).
Proof. solve_decision. Defined.

(** Building a [StatusOr] from an OK status is documented to store an internal
    error instead. *)
Definition from_status {A} (s : Status) : StatusOr A :=
  if ok s
  then Error (InternalError "An OK status is not a valid constructor argument to StatusOr<T>")
  else Error s.

Definition is_ok {A} (r : StatusOr A) : bool :=
  match r with Value _ => true | Error _ => false end.

Definition status_of {A} (r : StatusOr A) : Status :=
  match r with Value _ => OkStatus | Error s => s end.

(** [r.value_or(d)] *)
Definition value_or {A} (d : A) (r : StatusOr A) : A :=
  match r with Value a => a | Error _ => d end.

(** [*r] / [r->]: absl aborts the process when [r] holds an error. *)
Definition deref {A} (r : StatusOr A) : outcome A :=
  match r with Value a => Ret a | Error _ => Abort end.

(** [if (!x.ok()) return x.status(); ...] *)
Definition sbind {A B} (r : StatusOr A) (k : A -> StatusOr B) : StatusOr B :=
  match r with Value a => k a | Error s => Error s end.

(** ** The RPC message and its conversions *)

Record StatusResponse := mkStatusResponse { sr_code : Z; sr_message : option str }.

Definition empty_response : StatusResponse := mkStatusResponse 0 None.

(** [convertStatus(geds::rpc::StatusCode)] and its inverse are casts. *)
Definition convertStatus_code (c : Z) : Z := c.

Definition convertStatus (r : StatusResponse) : Status :=
  let c := convertStatus_code (sr_code r) in
  if c =? code_int kOk then OkStatus
  else make_status c (default [] (sr_message r)).

(** [convertStatus(StatusResponse *, const absl::Status &)] *)
Definition convertStatus_to (r : StatusResponse) (s : Status) : StatusResponse :=
  let r := mkStatusResponse (convertStatus_code (code_int (code s))) (sr_message r) in
  if negb (ok s) then mkStatusResponse (sr_code r) (Some (message s)) else r.

(** ** Lemmas *)

Lemma code_of_int_int c : code_of_int (code_int c) = c.
Proof. by destruct c. Qed.

Lemma code_int_zero c : code_int c = 0 <-> c = kOk.
Proof. destruct c; simpl; split; (lia || done). Qed.

Lemma error_raw c msg : c <> kOk -> error c msg = mkStatus (code_int c) msg.
Proof.
  intros Hc. unfold error, make_status.
  destruct (Z.eqb_spec (code_int c) 0) as [E|]; [|done].
  by apply code_int_zero in E.
Qed.

Lemma ok_error c msg : c <> kOk -> ok (error c msg) = false.
Proof.
  intros Hc. rewrite error_raw by done. unfold ok; simpl.
  apply Z.eqb_neq. intros E. by apply code_int_zero in E.
Qed.

Lemma code_error c msg : code (error c msg) = c.
Proof.
  unfold error, make_status, code. destruct (Z.eqb_spec (code_int c) 0) as [E|E].
  - apply code_int_zero in E. by subst.
  - apply code_of_int_int.
Qed.

Lemma from_status_not_ok {A} (s : Status) : is_ok (from_status (A := A) s) = false.
Proof. unfold from_status. by destruct (ok s). Qed.

(** A code that absl knows is not [kOk] exactly when the status is an error;
    an unknown code is an error too. *)
Lemma ok_code s : ok s = true <-> code s = kOk.
Proof.
  unfold ok, code. rewrite Z.eqb_eq. split; [by intros ->|].
  destruct (raw_code s) as [|p|p]; simpl; [done| |done].
  do 5 (destruct p; try done).
Qed.

#[export] Hint Rewrite code_error : geds.

(** The [static_assert]s hold, for every code of the two enumerations. *)
Lemma asserted_pairs_agree :
  Forall (fun p => code_int (fst p) = rpc_int (snd p)) asserted_pairs /\
  (forall c, c ∈ map fst asserted_pairs).
Proof.
  split; [repeat constructor|].
  intros []; unfold asserted_pairs; simpl; set_solver.
Qed.

(** ** Property *)

(** A status survives the trip through the RPC message: the code is the
    one absl reports for it, and an error keeps its message, whatever the raw
    code was. *)
Theorem status_rpc_roundtrip s :
  let s' := convertStatus (convertStatus_to empty_response s) in
  code s' = code s /\ ok s' = ok s /\ (ok s = false -> message s' = message s).
Proof.
  unfold convertStatus, convertStatus_to, convertStatus_code, make_status.
  destruct (ok s) eqn:Hok; simpl.
  - apply ok_code in Hok. by rewrite Hok.
  - destruct (Z.eqb_spec (code_int (code s)) 0) as [E|E]; simpl.
    + apply code_int_zero, ok_code in E. congruence.
    + split_and!; [apply code_of_int_int| |done].
      by apply Z.eqb_neq.
Qed.
