(* ===== verification/StdMap.v ===== *)
(** * Ordered containers: [std::map] and [std::set]

    A [std::map<K, V>] is the in-order sequence of its entries. The functions
    below are the searches the C++ operations perform on that sequence, written
    with the comparison only; [sorted] is the representation invariant. An
    iterator is a position in the sequence and [end()] is its length. *)

From Stdlib Require Import Ascii ZArith Lia.
From stdpp Require Import base gmap sets list strings numbers.
From S2P Require Import Prelude.

(** ** Operations *)

Section ops.
Context {K V : Type} `{StrictTotal K}.

Definition smap := list (K * V).

Fixpoint lower_bound (k : K) (m : smap) : nat :=
  match m with
  | [] => 0
  | (x, _) :: m' => if ltb x k then S (lower_bound k m') else 0
  end.

(** [find]: the lower bound, unless its key is greater. *)
Fixpoint mfind (k : K) (m : smap) : option V :=
  match m with
  | [] => None
  | (x, v) :: m' =>
      if ltb x k then mfind k m' else if ltb k x then None else Some v
  end.

(** [m[k] = v] *)
Fixpoint massign (k : K) (v : V) (m : smap) : smap :=
  match m with
  | [] => [(k, v)]
  | (x, w) :: m' =>
      if ltb x k then (x, w) :: massign k v m'
      else if ltb k x then (k, v) :: (x, w) :: m'
      else (x, v) :: m'
  end.

(** [m.insert({k, v})]: keeps an existing entry. *)
Definition minsert (k : K) (v : V) (m : smap) : smap * bool :=
  match mfind k m with
  | Some _ => (m, false)
  | None => (massign k v m, true)
  end.

(** [m.erase(m.find(k))] *)
Fixpoint merase (k : K) (m : smap) : smap :=
  match m with
  | [] => []
  | (x, w) :: m' =>
      if ltb x k then (x, w) :: merase k m'
      else if ltb k x then (x, w) :: m'
      else m'
  end.

(** [m.equal_range(probe)] for a transparent comparison: the first entry that
    is not less than the probe, and the first one that is greater. *)
Fixpoint first_pos (p : K -> bool) (m : smap) : nat :=
  match m with
  | [] => 0
  | (x, _) :: m' => if p x then 0 else S (first_pos p m')
  end.

Definition equal_range (key_lt_probe probe_lt_key : K -> bool) (m : smap) : nat * nat :=
  (first_pos (fun x => negb (key_lt_probe x)) m, first_pos probe_lt_key m).

(** [m.erase(first, last)] *)
Definition erase_range (first last : nat) (m : smap) : smap :=
  take first m ++ drop last m.

(** The entries visited by [for (it = first; it != last; it++)]. *)
Definition range (first last : nat) (m : smap) : smap :=
  drop first (take last m).

Definition keys (m : smap) : list K := map fst m.
End ops.
Arguments smap K V : clear implicits.

(** ** Representation invariant *)

(** Every key is smaller than all the keys that follow it. *)
Fixpoint sorted_keys `{StrictTotal K} (l : list K) : Prop :=
  match l with
  | [] => True
  | x :: l' => Forall (fun y => ltb x y = true) l' /\ sorted_keys l'
  end.

Definition sorted `{StrictTotal K} {V} (m : smap K V) : Prop := sorted_keys (keys m).

Section theory.
Context {K V : Type} `{StrictTotal K}.
Implicit Types (m : smap K V) (k : K) (v : V).

Lemma sorted_nil : sorted (V := V) [].
Proof. done. Qed.

Lemma sorted_cons k v m :
  sorted ((k, v) :: m) <-> Forall (fun y => ltb k y = true) (keys m) /\ sorted m.
Proof. done. Qed.

Lemma elem_of_keys k m : k ∈ keys m <-> exists v, (k, v) ∈ m.
Proof.
  unfold keys. rewrite list_elem_of_In, in_map_iff. split.
  - intros ([k' v] & <- & Hin). exists v. by apply list_elem_of_In.
  - intros [v Hin]. exists (k, v). split; [done|]. by apply list_elem_of_In.
Qed.

Lemma Forall_elem {A} (P : A -> Prop) (l : list A) x : Forall P l -> x ∈ l -> P x.
Proof. rewrite Forall_forall, list_elem_of_In. auto. Qed.

Lemma Forall_intro {A} (P : A -> Prop) (l : list A) : (forall x, x ∈ l -> P x) -> Forall P l.
Proof. intros Hl. apply Forall_forall. intros x. rewrite <- list_elem_of_In. auto. Qed.

Lemma mfind_above k m : Forall (fun y => ltb k y = true) (keys m) -> mfind k m = None.
Proof.
  destruct m as [|[x w] m]; [done|]. simpl. intros Hx%Forall_inv. simpl in Hx.
  rewrite Hx. by rewrite (ltb_asym _ _ Hx).
Qed.

Lemma Forall_ltb_trans a b (l : list K) :
  ltb a b = true -> Forall (fun y => ltb b y = true) l -> Forall (fun y => ltb a y = true) l.
Proof. intros Hab. apply Forall_impl. intros y. by apply ltb_trans. Qed.

(** [mfind] is membership. *)
Lemma mfind_Some k v m : sorted m -> mfind k m = Some v <-> (k, v) ∈ m.
Proof.
  induction m as [|[x w] m IH]; intros Hs; simpl; [set_solver|].
  apply sorted_cons in Hs as [Hx Hs]. specialize (IH Hs).
  rewrite elem_of_cons.
  assert (Hin : forall v', (k, v') ∈ m -> ltb x k = true).
  { intros v' Hv. apply (Forall_elem _ _ _ Hx), elem_of_keys. eauto. }
  destruct (ltb x k) eqn:Exk.
  - rewrite IH. split; [auto|]. intros [[= -> ->]|Hk]; [|done].
    by rewrite ltb_irrefl in Exk.
  - destruct (ltb k x) eqn:Ekx.
    + split; [done|]. intros [[= -> ->]|Hk].
      * by rewrite ltb_irrefl in Ekx.
      * apply Hin in Hk. congruence.
    + assert (k = x) as -> by (by apply ltb_total).
      split; [intros [= ->]; auto|]. intros [[= ->]|Hk]; [done|].
      apply Hin in Hk. congruence.
Qed.

Lemma mfind_keys k m : sorted m -> is_Some (mfind k m) <-> k ∈ keys m.
Proof.
  intros Hs. rewrite elem_of_keys. unfold is_Some. by setoid_rewrite mfind_Some.
Qed.

Lemma keys_massign k v m y : y ∈ keys (massign k v m) -> y = k \/ y ∈ keys m.
Proof.
  induction m as [|[x w] m IH]; simpl; [set_solver|].
  repeat case_match; simpl; set_solver.
Qed.

Lemma massign_above k v m x :
  ltb x k = true -> Forall (fun y => ltb x y = true) (keys m) ->
  Forall (fun y => ltb x y = true) (keys (massign k v m)).
Proof.
  intros Hxk Hm. apply Forall_intro. intros y [->|Hy]%keys_massign; [done|].
  exact (Forall_elem _ _ _ Hm Hy).
Qed.

Lemma massign_sorted k v m : sorted m -> sorted (massign k v m).
Proof.
  induction m as [|[x w] m IH]; intros Hs; simpl; [done|].
  apply sorted_cons in Hs as [Hx Hs].
  destruct (ltb x k) eqn:Exk.
  - apply sorted_cons. split; [by apply massign_above|auto].
  - destruct (ltb k x) eqn:Ekx.
    + apply sorted_cons. split; [|by apply sorted_cons].
      constructor; [done|]. by apply (Forall_ltb_trans k x).
    + by apply sorted_cons.
Qed.

Lemma mfind_massign_eq k v m : mfind k (massign k v m) = Some v.
Proof.
  induction m as [|[x w] m IH]; simpl; [by rewrite ltb_irrefl|].
  destruct (ltb x k) eqn:Exk; simpl; [by rewrite Exk|].
  destruct (ltb k x) eqn:Ekx; simpl; [by rewrite ltb_irrefl|].
  by rewrite Exk, Ekx.
Qed.

Lemma mfind_massign_ne k k' v m :
  k <> k' -> mfind k' (massign k v m) = mfind k' m.
Proof.
  intros Hne. induction m as [|[x w] m IH]; simpl.
  - destruct (ltb k k') eqn:E1; [done|]. destruct (ltb k' k) eqn:E2; [done|].
    by destruct Hne; apply ltb_total.
  - destruct (ltb x k) eqn:Exk; simpl; [by rewrite IH|].
    destruct (ltb k x) eqn:Ekx; simpl.
    + destruct (ltb k k') eqn:Ekk; [done|]. destruct (ltb k' k) eqn:Ek'k.
      * rewrite (ltb_asym k' x); [|by apply ltb_trans with k].
        by rewrite (ltb_trans _ _ _ Ek'k Ekx).
      * by destruct Hne; apply ltb_total.
    + assert (x = k) as -> by (by apply ltb_total).
      destruct (ltb k k') eqn:E1; [done|]. destruct (ltb k' k) eqn:E2; [done|].
      by destruct Hne; apply ltb_total.
Qed.

Lemma mfind_massign `{EqK : !EqDecision K} k k' v m :
  mfind k' (massign k v m) = if decide (k = k') then Some v else mfind k' m.
Proof.
  case_decide; [subst; apply mfind_massign_eq|by apply mfind_massign_ne].
Qed.

Lemma keys_merase k m y : y ∈ keys (merase k m) -> y ∈ keys m.
Proof.
  induction m as [|[x w] m IH]; simpl; [done|].
  repeat case_match; simpl; set_solver.
Qed.

Lemma merase_sorted k m : sorted m -> sorted (merase k m).
Proof.
  induction m as [|[x w] m IH]; intros Hs; simpl; [done|].
  apply sorted_cons in Hs as [Hx Hs].
  destruct (ltb x k); [|destruct (ltb k x); [by apply sorted_cons|done]].
  apply sorted_cons. split; [|auto].
  apply Forall_intro. intros y Hy%keys_merase. exact (Forall_elem _ _ _ Hx Hy).
Qed.

Lemma mfind_merase_eq k m : sorted m -> mfind k (merase k m) = None.
Proof.
  induction m as [|[x w] m IH]; intros Hs; simpl; [done|].
  apply sorted_cons in Hs as [Hx Hs].
  destruct (ltb x k) eqn:Exk; simpl; [rewrite Exk; auto|].
  destruct (ltb k x) eqn:Ekx; simpl; [by rewrite Exk, Ekx|].
  assert (x = k) as -> by (by apply ltb_total). by apply mfind_above.
Qed.

Lemma mfind_merase_ne k k' m : sorted m -> k <> k' -> mfind k' (merase k m) = mfind k' m.
Proof.
  intros Hs Hne. induction m as [|[x w] m IH]; simpl; [done|].
  apply sorted_cons in Hs as [Hx Hs].
  destruct (ltb x k) eqn:Exk; simpl; [by rewrite IH|].
  destruct (ltb k x) eqn:Ekx; simpl; [done|].
  assert (x = k) as -> by (by apply ltb_total).
  destruct (ltb k k') eqn:E1; [done|]. destruct (ltb k' k) eqn:E2.
  - apply mfind_above. by apply (Forall_ltb_trans k' k).
  - by destruct Hne; apply ltb_total.
Qed.

Lemma mfind_merase `{EqK : !EqDecision K} k k' m :
  sorted m -> mfind k' (merase k m) = if decide (k = k') then None else mfind k' m.
Proof.
  intros Hs. case_decide; [subst; by apply mfind_merase_eq|by apply mfind_merase_ne].
Qed.

(** Two sorted sequences with the same entries are equal. *)
Lemma sorted_ext m1 m2 :
  sorted m1 -> sorted m2 -> (forall k, mfind k m1 = mfind k m2) -> m1 = m2.
Proof.
  revert m2. induction m1 as [|[x1 w1] m1 IH]; intros [|[x2 w2] m2] Hs1 Hs2 Hf; [done| | |].
  - specialize (Hf x2). simpl in Hf. by rewrite ltb_irrefl in Hf.
  - specialize (Hf x1). simpl in Hf. by rewrite ltb_irrefl in Hf.
  - apply sorted_cons in Hs1 as [H1 Hs1], Hs2 as [H2 Hs2].
    pose proof (Hf x1) as Ha. pose proof (Hf x2) as Hb. simpl in Ha, Hb.
    rewrite !ltb_irrefl in *.
    destruct (ltb x1 x2) eqn:E12.
    { rewrite (ltb_asym _ _ E12) in Ha. done. }
    destruct (ltb x2 x1) eqn:E21; [done|].
    assert (x1 = x2) as -> by (by apply ltb_total).
    injection Ha as ->. f_equal. apply IH; [done..|].
    intros k. specialize (Hf k). simpl in Hf.
    destruct (ltb x2 k) eqn:Ek; [done|].
    rewrite !mfind_above; [done|..].
    all: destruct (ltb k x2) eqn:Ek2;
      [ by apply (Forall_ltb_trans k x2)
      | assert (k = x2) as -> by (by apply ltb_total); done ].
Qed.

(** *** Ranges *)

Lemma sorted_app m1 m2 :
  sorted (m1 ++ m2) <->
  sorted m1 /\ sorted m2 /\
  Forall (fun x => Forall (fun y => ltb x y = true) (keys m2)) (keys m1).
Proof.
  induction m1 as [|[x w] m1 IH]; simpl.
  - unfold sorted. simpl. naive_solver.
  - rewrite !sorted_cons. unfold keys in *. rewrite map_app.
    rewrite Forall_app, IH, Forall_cons_iff. naive_solver.
Qed.

Lemma sorted_filter (p : K * V -> bool) m : sorted m -> sorted (List.filter p m).
Proof.
  induction m as [|[x w] m IH]; intros Hs; simpl; [done|].
  apply sorted_cons in Hs as [Hx Hs]. destruct (p (x, w)); [|auto].
  apply sorted_cons. split; [|auto]. apply Forall_intro.
  intros y [v Hy]%elem_of_keys. apply (Forall_elem _ _ _ Hx), elem_of_keys.
  exists v. rewrite list_elem_of_In in *. by apply filter_In in Hy as [Hy _].
Qed.

(** A probe splits the sequence: first the keys below it, then the ones
    equivalent to it, then the ones above. *)
Definition partitioned (lo hi : K -> bool) m : Prop :=
  forall a b, ltb a b = true -> a ∈ keys m -> b ∈ keys m ->
    (lo b = true -> lo a = true) /\ (hi a = true -> hi b = true).

Lemma partitioned_tail lo hi x w m :
  partitioned lo hi ((x, w) :: m) -> partitioned lo hi m.
Proof. intros Hp a b Hab Ha Hb. apply Hp; [done|simpl; set_solver..]. Qed.

Lemma filter_none (p : K * V -> bool) m :
  Forall (fun e => p e = false) m -> List.filter p m = [].
Proof. induction 1 as [|e m He _ IH]; simpl; [done|]. by rewrite He. Qed.

Lemma filter_all (p : K * V -> bool) m :
  Forall (fun e => p e = true) m -> List.filter p m = m.
Proof. induction 1 as [|e m He _ IH]; simpl; [done|]. by rewrite He, IH. Qed.

(** The three segments a probe delimits. *)
Lemma equal_range_split lo hi m :
  sorted m -> partitioned lo hi m -> (forall x, lo x = true -> hi x = false) ->
  exists a b c, m = a ++ b ++ c /\
    Forall (fun e => lo (fst e) = true) a /\
    Forall (fun e => lo (fst e) = false /\ hi (fst e) = false) b /\
    Forall (fun e => hi (fst e) = true) c /\
    equal_range lo hi m = (length a, length a + length b)%nat.
Proof.
  intros Hs Hp Hex. unfold equal_range.
  induction m as [|[x w] m IH]; simpl; [by exists [], [], []|].
  apply sorted_cons in Hs as [Hx Hs].
  assert (forall e, e ∈ m -> ltb x (fst e) = true /\ fst e ∈ keys m) as Hin.
  { intros [y v] Hy. assert (y ∈ keys m) as Hk by (apply elem_of_keys; eauto).
    split; [exact (Forall_elem _ _ _ Hx Hk)|done]. }
  destruct IH as (a & b & c & -> & Ha & Hb & Hc & [= E1 E2]);
    [done|by eapply partitioned_tail|].
  destruct (lo x) eqn:Elo; simpl.
  { exists ((x, w) :: a), b, c. rewrite (Hex x Elo), E1, E2. split_and!; auto. }
  destruct (hi x) eqn:Ehi.
  { exists [], [], ((x, w) :: a ++ b ++ c). split_and!; auto.
    constructor; [done|]. apply Forall_intro. intros e He.
    destruct (Hin e He) as [Hlt Hk]. apply (Hp x (fst e) Hlt); simpl; set_solver. }
  destruct a as [|e a]; simpl in *.
  { exists [], ((x, w) :: b), c. rewrite E2. split_and!; auto. }
  exfalso. apply Forall_inv in Ha. destruct (Hin e) as [Hlt Hk]; [set_solver|].
  assert (lo x = true); [|congruence].
  apply (Hp x (fst e) Hlt); simpl; set_solver.
Qed.

Lemma equal_range_spec lo hi m first last :
  sorted m -> partitioned lo hi m -> (forall x, lo x = true -> hi x = false) ->
  equal_range lo hi m = (first, last) ->
  range first last m =
    List.filter (fun e => negb (lo (fst e)) && negb (hi (fst e))) m /\
  erase_range first last m =
    List.filter (fun e => lo (fst e) || hi (fst e)) m /\
  (first = length m <-> Forall (fun e => lo (fst e) = true) m).
Proof.
  intros Hs Hp Hex Her.
  destruct (equal_range_split lo hi m Hs Hp Hex) as (a & b & c & -> & Ha & Hb & Hc & E).
  rewrite E in Her. injection Her as <- <-.
  assert (Hc' : Forall (fun e => lo (fst e) = false) c).
  { eapply Forall_impl; [|exact Hc]. simpl. intros e He.
    destruct (lo (fst e)) eqn:El; [|done]. rewrite (Hex _ El) in He. done. }
  assert (Ha' : Forall (fun e => hi (fst e) = false) a).
  { eapply Forall_impl; [|exact Ha]. simpl. auto. }
  split_and!.
  - unfold range. rewrite app_assoc, <- length_app, take_app_length, drop_app_length.
    rewrite !filter_app, (filter_none _ a), (filter_all _ b), (filter_none _ c);
      [by rewrite app_nil_r|eapply Forall_impl; [|exact Hc]
      |eapply Forall_impl; [|exact Hb]|eapply Forall_impl; [|exact Ha]];
      simpl; intros e He; [by rewrite He, andb_false_r|by destruct He as [H1 H2]; rewrite H1, H2|by rewrite He].
  - unfold erase_range. rewrite take_app_length, (app_assoc a b c), <- length_app, drop_app_length.
    rewrite !filter_app, (filter_all _ a), (filter_none _ b), (filter_all _ c);
      [by rewrite ?app_nil_r, ?app_nil_l|eapply Forall_impl; [|exact Hc]
      |eapply Forall_impl; [|exact Hb]|eapply Forall_impl; [|exact Ha]];
      simpl; intros e He; [by rewrite He, orb_true_r|by destruct He as [H1 H2]; rewrite H1, H2|by rewrite He].
  - rewrite !length_app. split.
    + intros El. destruct b; [|simpl in El; lia]. destruct c; [|simpl in El; lia].
      by rewrite !app_nil_r.
    + rewrite !Forall_app. intros (_ & Hb2 & Hc2).
      destruct b as [|e b]; [|apply Forall_inv in Hb, Hb2; naive_solver congruence].
      destruct c as [|e c]; [simpl; lia|].
      apply Forall_inv in Hc', Hc2. congruence.
Qed.

Lemma mfind_filter (p : K * V -> bool) k m :
  sorted m ->
  mfind k (List.filter p m) =
    match mfind k m with Some v => if p (k, v) then Some v else None | None => None end.
Proof.
  intros Hs. pose proof (sorted_filter p m Hs) as Hsf.
  destruct (mfind k (List.filter p m)) as [v|] eqn:E.
  - apply mfind_Some in E; [|done]. rewrite list_elem_of_In in E.
    apply filter_In in E as [Hin Hp]. rewrite <- list_elem_of_In in Hin.
    apply mfind_Some in Hin; [|done]. by rewrite Hin, Hp.
  - destruct (mfind k m) as [v|] eqn:Em; [|done]. destruct (p (k, v)) eqn:Ep; [|done].
    apply mfind_Some in Em; [|done]. exfalso.
    assert ((k, v) ∈ List.filter p m) as Hin.
    { rewrite list_elem_of_In in *. by apply filter_In. }
    apply mfind_Some in Hin; [|done]. congruence.
Qed.
End theory.

(** ** [std::set] *)

(** [std::set<T, Less>::emplace] as libstdc++ computes it, on the in-order
    sequence: descend with [less(x, e)] to the first element greater than [x],
    then compare the predecessor with [x]. The descent visits that position
    whenever [less(x, _)] changes from false to true at most once along the
    sequence, which [upward] states. *)
Section sets.
Context {T : Type} (less : T -> T -> bool).

Fixpoint upper_pos (x : T) (l : list T) : nat :=
  match l with
  | [] => 0
  | e :: l' => if less x e then 0 else S (upper_pos x l')
  end.

Definition insert_at (i : nat) (x : T) (l : list T) : list T := take i l ++ x :: drop i l.

Definition set_emplace (x : T) (l : list T) : list T :=
  match upper_pos x l with
  | O => insert_at 0 x l
  | S p =>
      match l !! p with
      | Some e => if less e x then insert_at (S p) x l else l
      | None => l
      end
  end.

Definition set_of_list (xs : list T) : list T := fold_left (fun s x => set_emplace x s) xs [].

Fixpoint upward (x : T) (l : list T) : bool :=
  match l with
  | [] => true
  | e :: l' => if less x e then forallb (less x) l' else upward x l'
  end.
End sets.

(** For a strict total order the result is the sorted set of the elements. *)
Section set_theory.
Context {K : Type} `{StrictTotal K}.
Implicit Types (x : K) (l : list K).

Lemma upper_pos_above x l : Forall (fun y => ltb x y = true) l -> upper_pos ltb x l = 0%nat.
Proof. destruct l as [|e l]; [done|]. simpl. intros ->%Forall_inv. done. Qed.

Lemma upper_pos_lookup x l : (upper_pos ltb x l <= length l)%nat.
Proof. induction l as [|e l IH]; simpl; [done|]. destruct (ltb x e); lia. Qed.

Lemma set_emplace_cons x e l :
  sorted_keys (e :: l) ->
  set_emplace ltb x (e :: l) =
    if ltb x e then x :: e :: l
    else if ltb e x then e :: set_emplace ltb x l else e :: l.
Proof.
  intros [He Hl]. unfold set_emplace. simpl. destruct (ltb x e) eqn:Exe; [done|]. simpl.
  destruct (ltb e x) eqn:Eex.
  - destruct (upper_pos ltb x l) as [|p] eqn:Ep; simpl; [by rewrite Eex|].
    destruct (l !! p) as [y|] eqn:Ey; simpl; [by destruct (ltb y x)|done].
  - assert (e = x) as -> by (by apply ltb_total).
    rewrite upper_pos_above by done. simpl. by rewrite ltb_irrefl.
Qed.

Lemma elem_of_set_emplace x y l :
  sorted_keys l -> y ∈ set_emplace ltb x l <-> y = x \/ y ∈ l.
Proof.
  induction l as [|e l IH]; intros Hs; [unfold set_emplace; simpl; set_solver|].
  rewrite set_emplace_cons by done. destruct Hs as [He Hl].
  destruct (ltb x e) eqn:Exe; [set_solver|]. destruct (ltb e x) eqn:Eex.
  - rewrite !elem_of_cons, IH by done. set_solver.
  - assert (e = x) as -> by (by apply ltb_total). set_solver.
Qed.

Lemma set_emplace_sorted x l : sorted_keys l -> sorted_keys (set_emplace ltb x l).
Proof.
  induction l as [|e l IH]; intros Hs; [unfold set_emplace; simpl; auto|].
  rewrite set_emplace_cons by done. pose proof Hs as [He Hl].
  destruct (ltb x e) eqn:Exe.
  - split; [|done]. constructor; [done|]. by apply (Forall_ltb_trans x e).
  - destruct (ltb e x) eqn:Eex; [|done]. split; [|auto].
    apply Forall_intro. intros y [->|Hy]%elem_of_set_emplace; [done| |done].
    exact (Forall_elem _ _ _ He Hy).
Qed.

Lemma set_of_list_from xs s :
  sorted_keys s ->
  let r := fold_left (fun s x => set_emplace ltb x s) xs s in
  sorted_keys r /\ (forall y, y ∈ r <-> y ∈ s \/ y ∈ xs).
Proof.
  revert s. induction xs as [|x xs IH]; intros s Hs; simpl; [set_solver|].
  destruct (IH (set_emplace ltb x s)) as [H1 H2]; [by apply set_emplace_sorted|].
  split; [done|]. intros y. rewrite H2, elem_of_set_emplace by done. set_solver.
Qed.

Lemma set_of_list_sorted xs : sorted_keys (set_of_list ltb xs).
Proof. apply (set_of_list_from xs []). done. Qed.

Lemma elem_of_set_of_list xs y : y ∈ set_of_list ltb xs <-> y ∈ xs.
Proof.
  unfold set_of_list. rewrite (proj2 (set_of_list_from xs [] I)). set_solver.
Qed.

(** A strict total order always splits a sorted sequence. *)
Lemma upward_sorted x l : sorted_keys l -> upward ltb x l = true.
Proof.
  induction l as [|e l IH]; intros Hs; simpl; [done|]. destruct Hs as [He Hl].
  destruct (ltb x e) eqn:E; [|auto]. apply forallb_forall. intros y Hy.
  apply (ltb_trans _ e); [done|]. apply (Forall_elem _ _ _ He). by apply list_elem_of_In.
Qed.
End set_theory.

#[export] Hint Resolve sorted_nil massign_sorted merase_sorted sorted_filter
  set_of_list_sorted set_emplace_sorted : geds.
