(* ===== verification/Path.v ===== *)
(** * Prefix search over path-keyed maps

    The transparent comparisons of [utility::Path] and
    [utility::PathPrefixProbe] (src/src/utility/Path.h, Path.cpp) and the
    [prefixSearch] they make possible on a [std::map] keyed by paths. *)

From Stdlib Require Import Ascii ZArith Lia.
From stdpp Require Import base gmap sets list strings numbers.
From S2P Require Import Prelude StdMap.

Record Path := mkPath { name : str }.

#[global] Instance Path_eq_dec : EqDecision Path.
Proof. solve_decision. Defined.

(** [Path::operator<(const Path &)] *)
Definition path_lt (p q : Path) : bool := str_ltb (name p) (name q).

#[export, refine] Instance Path_strict_total : StrictTotal Path := {| ltb := path_lt |}.
Proof.
  - intros. apply str_ltb_irrefl.
  - intros ???. apply str_ltb_trans.
  - intros [a] [b] H1 H2. f_equal. by apply str_ltb_total.
Defined.

Record PathPrefixProbe := mkProbe { prefix : str }.

(** [Path::operator<(const PathPrefixProbe &)]: only the first
    [prefix.size()] bytes of the name take part. *)
Definition path_lt_probe (probe : PathPrefixProbe) (p : Path) : bool :=
  str_ltb (take (length (prefix probe)) (name p)) (prefix probe).

(** [PathPrefixProbe::operator<(const Path &)] *)
Definition probe_lt_path (probe : PathPrefixProbe) (p : Path) : bool :=
  str_ltb (prefix probe) (take (length (prefix probe)) (name p)).

(** [utility::prefixSearch] *)
Definition prefixSearch {V} (m : smap Path V) (pre : str) : nat * nat :=
  let probe := mkProbe pre in
  equal_range (path_lt_probe probe) (probe_lt_path probe) m.

(** The paths that start with a prefix. *)
Definition has_prefix (pre : str) (p : Path) : bool := starts_with pre (name p).

(** ** The probe splits every sorted sequence *)

Lemma probe_partitioned {V} probe (m : smap Path V) :
  partitioned (path_lt_probe probe) (probe_lt_path probe) m.
Proof.
  intros a b Hab _ _. unfold path_lt_probe, probe_lt_path. simpl in Hab.
  pose proof (str_ltb_take (length (prefix probe)) _ _ Hab) as Hle. split.
  - intros Hb. exact (@le_lt_trans str str_strict_total _ _ _ Hle Hb).
  - intros Ha. exact (@lt_le_trans str str_strict_total _ _ _ Ha Hle).
Qed.

Lemma probe_exclusive probe p :
  path_lt_probe probe p = true -> probe_lt_path probe p = false.
Proof. apply (@ltb_asym str str_strict_total). Qed.

Lemma probe_equivalent pre p :
  negb (path_lt_probe (mkProbe pre) p) && negb (probe_lt_path (mkProbe pre) p)
  = has_prefix pre p.
Proof.
  unfold path_lt_probe, probe_lt_path, has_prefix, starts_with. simpl.
  case_bool_decide as E.
  - by rewrite E, str_ltb_irrefl.
  - destruct (str_ltb (take _ _) pre) eqn:E1; [done|].
    destruct (str_ltb pre (take _ _)) eqn:E2; [done|].
    by destruct E; apply str_ltb_total.
Qed.

(** What [prefixSearch] delimits. *)
Lemma prefixSearch_spec {V} (m : smap Path V) pre first last :
  sorted m -> prefixSearch m pre = (first, last) ->
  range first last m = List.filter (fun e => has_prefix pre (fst e)) m /\
  erase_range first last m = List.filter (fun e => negb (has_prefix pre (fst e))) m /\
  (first = length m <-> Forall (fun e => path_lt_probe (mkProbe pre) (fst e) = true) m).
Proof.
  intros Hs Hps.
  destruct (equal_range_spec _ _ m first last Hs (probe_partitioned (mkProbe pre) m)
              (probe_exclusive (mkProbe pre)) Hps) as (Hr & He & Hl).
  split_and!; [..|done].
  - rewrite Hr. apply filter_ext. intros [p v]. simpl. apply probe_equivalent.
  - rewrite He. apply filter_ext. intros [p v]. simpl.
    rewrite <- probe_equivalent, negb_andb, !negb_involutive. done.
Qed.
