(* ===== verification/Object.v ===== *)
(** * The data model

    The plain structures shared by the metadata server, the client and the file
    layer: src/src/protos/Object.h, ObjectStoreConfig.h, PubSub.h and geds.proto,
    src/src/common/GEDSFileStatus.h and DirectoryMarker.cpp. *)

From Stdlib Require Import Ascii ZArith Lia.
From stdpp Require Import base gmap sets list strings numbers.
From S2P Require Import Prelude StdMap.

Open Scope Z_scope.

(** ** [geds::Object] *)

Record ObjectInfo := mkInfo {
  location : str;
  osize : Z;            (** [uint64_t size] *)
  sealedOffset : Z;
  metadata : option str
}.

Record ObjectID := mkID { bucket : str; key : str }.

Record Object := mkObject { id : ObjectID; info : ObjectInfo }.

#[global] Instance ObjectInfo_eq_dec : EqDecision ObjectInfo.
Proof. solve_decision. Defined.
#[global] Instance ObjectID_eq_dec : EqDecision ObjectID.
Proof. solve_decision. Defined.
#[global] Instance Object_eq_dec : EqDecision Object.
Proof. solve_decision. Defined.

(** ** [geds::ObjectStoreConfig] *)

Record ObjectStoreConfig := mkConfig {
  cfg_bucket : str;
  cfg_endpointURL : str;
  cfg_accessKey : str;
  cfg_secretKey : str
}.

#[global] Instance ObjectStoreConfig_eq_dec : EqDecision ObjectStoreConfig.
Proof. solve_decision. Defined.

(** ** Publish/subscribe events *)

Inductive SubscriptionType := NO_SUBSCRIPTION | BUCKET | OBJECT | PREFIX.
Inductive PublicationType := NO_PUBLICATION | CREATE_OBJECT | UPDATE_OBJECT | DELETE_OBJECT.

Record SubscriptionEvent := mkSubscription {
  subscriber_id : str;
  sub_bucket : str;
  sub_key : str;
  subscriptionType : SubscriptionType
}.

(** ** [geds::Default_DirectoryMarker] *)

Definition Default_DirectoryMarker : str := "_$folder$".
Definition Default_GEDSFolderDelimiter : ascii := "/"%char.

(** The [char] 0, which switches delimiter filtering off. *)
Definition NUL : ascii := ascii_of_N 0.

(** ** [GEDSFileStatus] *)

Record GEDSFileStatus := mkFileStatus {
  fs_key : str;
  fs_size : Z;
  fs_isDirectory : bool
}.

#[global] Instance GEDSFileStatus_eq_dec : EqDecision GEDSFileStatus.
Proof. solve_decision. Defined.

(** [operator<]: [isDirectory > other.isDirectory] holds for a directory
    against a file. *)
Definition file_status_lt (a b : GEDSFileStatus) : bool :=
  if fs_isDirectory a && negb (fs_isDirectory b) then true
  else str_ltb (fs_key a) (fs_key b).

Definition file_status_eqb (a b : GEDSFileStatus) : bool :=
  bool_decide (fs_key a = fs_key b) && Bool.eqb (fs_isDirectory a) (fs_isDirectory b).
