(* ===== verification/Bytes.v ===== *)
(** * Byte arrays

    The contents of files, objects and buffers: slices, resizing and positional
    overwriting, with the lemmas the components that move bytes share. *)

From Stdlib Require Import Ascii ZArith Lia.
From stdpp Require Import base sets list strings numbers.
From S2P Require Import Prelude.

Open Scope Z_scope.
Open Scope list_scope.

Definition len (c : str) : Z := Z.of_nat (length c).

(** The bytes [a .. a + n), as far as they exist. *)
Definition slice (a n : Z) (c : str) : str := take (Z.to_nat n) (drop (Z.to_nat a) c).

Definition zero_byte : ascii := ascii_of_N 0.
Definition zeros (n : Z) : str := replicate (Z.to_nat n) zero_byte.

(** Cut to [n] bytes or extend with zero bytes. *)
Definition resize (n : Z) (d : str) : str := take (Z.to_nat n) d ++ zeros (n - len d).

(** Overwriting at a position; a gap is filled with zero bytes, as a write past
    the end of a file does. *)
Definition write_at (pos : Z) (bytes d : str) : str :=
  resize pos d ++ bytes ++ drop (Z.to_nat (pos + len bytes)) d.

(** ** Slices *)

Lemma len_nonneg c : 0 <= len c.
Proof. unfold len. lia. Qed.

Lemma len_app a b : len (a ++ b) = len a + len b.
Proof. unfold len. rewrite length_app. lia. Qed.

Lemma len_0 c : len c = 0 -> c = [].
Proof. unfold len. destruct c; simpl; [done|lia]. Qed.

Lemma slice_extend a n m c :
  0 <= a -> 0 <= n -> 0 <= m -> slice a n c ++ slice (a + n) m c = slice a (n + m) c.
Proof.
  intros. unfold slice. rewrite !Z2Nat.inj_add, <- drop_drop by lia.
  set (d := drop (Z.to_nat a) c). rewrite <- (take_drop (Z.to_nat n) (take (_ + _) d)).
  rewrite take_take, Nat.min_l by lia. f_equal. rewrite take_drop_commute. done.
Qed.

Lemma slice_length a n c : 0 <= a -> 0 <= n -> a + n <= len c -> len (slice a n c) = n.
Proof. intros. unfold slice, len in *. rewrite length_take, length_drop. lia. Qed.

Lemma len_slice a n c : 0 <= a -> 0 <= n -> len (slice a n c) = Z.max 0 (Z.min n (len c - a)).
Proof. intros. unfold len, slice. rewrite length_take, length_drop. lia. Qed.

Lemma slice_length_le a n c : 0 <= a -> 0 <= n -> len (slice a n c) <= n.
Proof. intros. unfold slice, len in *. rewrite length_take. lia. Qed.

Lemma slice_of_slice a n o m c :
  0 <= a -> 0 <= o -> 0 <= m -> 0 <= n -> slice o m (slice a n c) = slice (a + o) (Z.min m (Z.max 0 (n - o))) c.
Proof.
  intros. unfold slice. rewrite skipn_firstn_comm, drop_drop, take_take.
  rewrite <- Z2Nat.inj_add by lia. f_equal. lia.
Qed.

Lemma slice_clip a n c : 0 <= a <= len c -> 0 <= n -> slice a n c = slice a (Z.min n (len c - a)) c.
Proof.
  intros. unfold slice, len in *. destruct (Z.le_gt_cases n (Z.of_nat (length c) - a)).
  - by rewrite Z.min_l.
  - rewrite Z.min_r by lia. rewrite !take_ge; [done|rewrite length_drop; lia..].
Qed.

Lemma slice_past a n c : len c <= a -> slice a n c = [].
Proof. intros. unfold slice, len in *. rewrite drop_ge by lia. apply take_nil. Qed.

Lemma take_slice k a n c : 0 <= k <= n -> take (Z.to_nat k) (slice a n c) = slice a k c.
Proof. intros. unfold slice. rewrite take_take. f_equal. lia. Qed.

Lemma slice_0 a c : slice a 0 c = [].
Proof. unfold slice. by rewrite take_0. Qed.

Lemma slice_all c : slice 0 (len c) c = c.
Proof. unfold slice, len. rewrite drop_0. apply take_ge. lia. Qed.

Lemma slice_split a c : 0 <= a -> slice 0 a c ++ drop (Z.to_nat a) c = c.
Proof. intros. unfold slice. rewrite drop_0. apply take_drop. Qed.

(** ** Writing *)

Lemma lookup_zeros n i : (i < Z.to_nat n)%nat -> zeros n !! i = Some zero_byte.
Proof. intros. unfold zeros. by apply lookup_replicate_2. Qed.

Lemma len_zeros n : 0 <= n -> len (zeros n) = n.
Proof. intros. unfold len, zeros. rewrite length_replicate. lia. Qed.

Lemma len_resize n d : 0 <= n -> len (resize n d) = n.
Proof.
  intros. unfold resize, len, zeros. rewrite length_app, length_take, length_replicate. lia.
Qed.

Lemma lookup_resize n d i :
  0 <= n ->
  resize n d !! i =
    if decide (i < Z.to_nat n)%nat
    then Some (default zero_byte (d !! i)) else None.
Proof.
  intros Hn. case_decide as Hi.
  - unfold resize. destruct (decide (i < length d)%nat) as [Hd|Hd].
    + rewrite lookup_app_l by (rewrite length_take; lia). rewrite lookup_take_lt by done.
      destruct (lookup_lt_is_Some_2 d i Hd) as [x ->]. done.
    + rewrite lookup_app_r by (rewrite length_take; lia). rewrite length_take.
      rewrite (lookup_ge_None_2 d) by lia. simpl. apply lookup_zeros. unfold len. lia.
  - apply lookup_ge_None_2. pose proof (len_resize n d Hn). unfold len in *. lia.
Qed.

Lemma len_write_at pos b d : 0 <= pos -> len (write_at pos b d) = Z.max (len d) (pos + len b).
Proof.
  intros. unfold write_at. rewrite !len_app, len_resize by done.
  unfold len. rewrite length_drop. lia.
Qed.

Lemma lookup_write_at pos b d i :
  0 <= pos ->
  write_at pos b d !! i =
    if decide (i < Z.to_nat pos)%nat then Some (default zero_byte (d !! i))
    else if decide (i < Z.to_nat (pos + len b))%nat then b !! (i - Z.to_nat pos)%nat
    else d !! i.
Proof.
  intros Hp. unfold write_at. pose proof (len_resize pos d Hp) as Hl. unfold len in Hl.
  case_decide as H1.
  { rewrite lookup_app_l by lia. rewrite lookup_resize by done. by rewrite decide_True. }
  rewrite lookup_app_r by lia. case_decide as H2; unfold len in *.
  - rewrite lookup_app_l by lia. f_equal. lia.
  - rewrite lookup_app_r by lia. rewrite lookup_drop. f_equal. lia.
Qed.

(** Two adjacent writes are one. *)
Lemma write_at_extend pos a b d :
  0 <= pos -> write_at (pos + len a) b (write_at pos a d) = write_at pos (a ++ b) d.
Proof.
  intros Hp. pose proof (len_nonneg a). pose proof (len_nonneg b). apply list_eq. intros i.
  rewrite !lookup_write_at by lia. rewrite len_app.
  repeat case_decide; try lia; try done.
  - rewrite lookup_app_l; [|unfold len in *; lia].
    destruct (lookup_lt_is_Some_2 a (i - Z.to_nat pos)) as [x ->]; [unfold len in *; lia|done].
  - rewrite lookup_app_r by (unfold len in *; lia). f_equal. unfold len in *. lia.
Qed.

Lemma write_at_nil pos d : 0 <= pos <= len d -> write_at pos [] d = d.
Proof.
  intros. unfold write_at, resize, zeros, len in *. simpl.
  replace (Z.to_nat (pos - Z.of_nat (length d))) with 0%nat by lia. simpl.
  rewrite app_nil_r, Z.add_0_r. apply take_drop.
Qed.

Lemma lookup_slice a n c i :
  0 <= a -> slice a n c !! i = if decide (i < Z.to_nat n)%nat then c !! (Z.to_nat a + i)%nat else None.
Proof.
  intros. unfold slice. case_decide.
  - rewrite lookup_take_lt by done. apply lookup_drop.
  - apply lookup_take_ge. lia.
Qed.

(** Reading back what was written. *)
Lemma slice_write_at pos b d : 0 <= pos -> slice pos (len b) (write_at pos b d) = b.
Proof.
  intros Hp. apply list_eq. intros i. rewrite lookup_slice, lookup_write_at by done.
  unfold len in *. repeat case_decide; try lia.
  - f_equal. lia.
  - symmetry. apply lookup_ge_None_2. lia.
Qed.

(** Bytes outside the written range stay. *)
Lemma slice_write_at_outside pos b d a n :
  0 <= pos -> 0 <= a -> 0 <= n -> (a + n <= pos /\ a + n <= len d) \/ pos + len b <= a ->
  slice a n (write_at pos b d) = slice a n d.
Proof.
  intros Hp Ha Hn Hout. pose proof (len_nonneg b). apply list_eq. intros i.
  rewrite !lookup_slice, lookup_write_at by done.
  repeat case_decide; try lia; try done.
  destruct (lookup_lt_is_Some_2 d (Z.to_nat a + i)) as [x ->]; [unfold len in *; lia|done].
Qed.

Lemma write_at_empty b : write_at 0 b [] = b.
Proof.
  unfold write_at, resize. rewrite drop_nil, take_nil, !app_nil_r. reflexivity.
Qed.
