(* ===== verification/FileSet.v ===== *)
(** * Sets of file statuses

    Directory listings are collected in a [std::set<GEDSFileStatus>]. The
    comparison of src/src/common/GEDSFileStatus.h is not a strict weak order
    (a directory is less than every file, and a file is less than the
    directories with a greater key), so what the set holds depends on the order
    of the insertions. This file determines the result for the order the
    listings use: the files first, then the directories. *)

From Stdlib Require Import Ascii ZArith Lia.
From stdpp Require Import base gmap sets list strings numbers.
From S2P Require Import Prelude StdMap Object.

(** ** Emplacing, whatever the comparison *)

Section emplace.
Context {T : Type} (less : T -> T -> bool).

Lemma set_emplace_cases x l :
  set_emplace less x l = l \/ exists i, set_emplace less x l = insert_at i x l.
Proof.
  unfold set_emplace. destruct (upper_pos less x l) as [|p]; [right; by exists 0%nat|].
  destruct (l !! p) as [e|]; [|by left]. destruct (less e x); [right; by exists (S p)|by left].
Qed.

Lemma elem_of_insert_at i x y (l : list T) : y ∈ insert_at i x l <-> y = x \/ y ∈ l.
Proof.
  unfold insert_at. rewrite <- (take_drop i l) at 3. set_solver.
Qed.

Lemma set_emplace_subset x y l : y ∈ set_emplace less x l -> y = x \/ y ∈ l.
Proof.
  destruct (set_emplace_cases x l) as [->|[i ->]]; [auto|]. by rewrite elem_of_insert_at.
Qed.

Lemma set_emplace_keeps x y l : y ∈ l -> y ∈ set_emplace less x l.
Proof.
  destruct (set_emplace_cases x l) as [->|[i ->]]; [auto|]. rewrite elem_of_insert_at. auto.
Qed.

(** A comparison that is the comparison of a key on the elements at hand. *)
Lemma set_emplace_map `{StrictTotal K} (f : T -> K) x l :
  Forall (fun e => less x e = ltb (f x) (f e) /\ less e x = ltb (f e) (f x)) l ->
  map f (set_emplace less x l) = set_emplace ltb (f x) (map f l).
Proof.
  intros Hl. unfold set_emplace.
  assert (Hu : upper_pos less x l = upper_pos ltb (f x) (map f l)).
  { induction Hl as [|e l [He _] Hl IH]; simpl; [done|]. by rewrite He, IH. }
  rewrite <- Hu. unfold insert_at. destruct (upper_pos less x l) as [|p]; [done|].
  change (map f l !! p) with ((f <$> l) !! p). rewrite list_lookup_fmap.
  destruct (l !! p) as [e|] eqn:Ee; simpl; [|done].
  assert (less e x = ltb (f e) (f x)) as ->.
  { apply (Forall_elem _ _ e Hl). by eapply list_elem_of_lookup_2. }
  destruct (ltb (f e) (f x)); [|done].
  rewrite map_app. simpl. by rewrite firstn_map, skipn_map.
Qed.

(** An element that is less than all of a suffix is placed before it. *)
Lemma set_emplace_app x l1 l2 :
  Forall (fun e => less x e = true) l2 ->
  set_emplace less x (l1 ++ l2) = set_emplace less x l1 ++ l2.
Proof.
  intros H2.
  assert (Hu : upper_pos less x (l1 ++ l2) = upper_pos less x l1).
  { induction l1 as [|e l1 IH]; simpl; [|by rewrite IH].
    destruct l2 as [|e l2]; [done|]. simpl. by rewrite (Forall_inv H2). }
  assert (Hle : (upper_pos less x l1 <= length l1)%nat).
  { clear. induction l1 as [|e l1 IH]; simpl; [done|]. destruct (less x e); lia. }
  unfold set_emplace. rewrite Hu. unfold insert_at.
  destruct (upper_pos less x l1) as [|p]; [done|].
  rewrite lookup_app_l by lia. destruct (l1 !! p) as [e|]; [|done].
  destruct (less e x); [|done].
  rewrite take_app_le, drop_app_le by lia. by rewrite <- app_assoc.
Qed.
End emplace.

(** ** Listings *)

Definition is_file (f : GEDSFileStatus) : Prop := fs_isDirectory f = false.
Definition is_dir (f : GEDSFileStatus) : Prop := fs_isDirectory f = true.

(** Directories before files, each in ascending order of their keys. *)
Definition listing_order (l : list GEDSFileStatus) : Prop :=
  exists ds fs, l = ds ++ fs /\ Forall is_dir ds /\ Forall is_file fs /\
    sorted_keys (map fs_key ds) /\ sorted_keys (map fs_key fs).

(** [l] represents the collected statuses: nothing is invented, and every key
    and kind is present. *)
Definition represents (l xs : list GEDSFileStatus) : Prop :=
  (forall f, f ∈ l -> f ∈ xs) /\
  (forall x, x ∈ xs -> exists f, f ∈ l /\ file_status_eqb f x = true).

Lemma file_status_eqb_spec a b :
  file_status_eqb a b = true <-> fs_key a = fs_key b /\ fs_isDirectory a = fs_isDirectory b.
Proof.
  unfold file_status_eqb. rewrite andb_true_iff, bool_decide_eq_true, Bool.eqb_true_iff. done.
Qed.

Lemma file_status_lt_kind a b :
  fs_isDirectory a = fs_isDirectory b -> file_status_lt a b = str_ltb (fs_key a) (fs_key b).
Proof. unfold file_status_lt. intros ->. by destruct (fs_isDirectory b). Qed.

(** Emplacing into a set of statuses of the same kind. *)
Lemma emplace_same_kind x l :
  Forall (fun e => fs_isDirectory e = fs_isDirectory x) l -> sorted_keys (map fs_key l) ->
  let l' := set_emplace file_status_lt x l in
  sorted_keys (map fs_key l') /\ Forall (fun e => fs_isDirectory e = fs_isDirectory x) l' /\
  represents l' (x :: l).
Proof.
  intros Hk Hs l'.
  assert (Hm : map fs_key l' = set_emplace ltb (fs_key x) (map fs_key l)).
  { apply set_emplace_map. eapply Forall_impl; [|exact Hk]. simpl. intros e He.
    rewrite !file_status_lt_kind by done. done. }
  assert (Hf : Forall (fun e => fs_isDirectory e = fs_isDirectory x) l').
  { apply Forall_intro. intros y [->|Hy]%set_emplace_subset; [done|]. exact (Forall_elem _ _ _ Hk Hy). }
  split_and!; [rewrite Hm; by apply set_emplace_sorted|done|]. split.
  - intros f Hin%set_emplace_subset. set_solver.
  - intros y Hy. apply elem_of_cons in Hy as [->|Hy].
    + assert (fs_key x ∈ map fs_key l') as Hin.
      { rewrite Hm. apply elem_of_set_emplace; [done|]. by left. }
      apply list_elem_of_In, in_map_iff in Hin as (f & Hfk & Hin). apply list_elem_of_In in Hin.
      exists f. split; [done|]. apply file_status_eqb_spec. split; [done|]. exact (Forall_elem _ _ _ Hf Hin).
    + exists y. split; [by apply set_emplace_keeps|]. by apply file_status_eqb_spec.
Qed.

Lemma represents_refl l : represents l l.
Proof. split; [auto|]. intros x Hx. exists x. split; [done|]. by apply file_status_eqb_spec. Qed.

(** Replacing a part of the collected statuses by its representation. *)
Lemma represents_app l1 l2 xs1 xs2 :
  represents l1 xs1 -> represents l2 xs2 -> represents (l1 ++ l2) (xs1 ++ xs2).
Proof.
  intros [H1 H2] [H3 H4]. split.
  - intros f. rewrite !elem_of_app. naive_solver.
  - intros x. rewrite elem_of_app. intros [Hx|Hx].
    + destruct (H2 x Hx) as (f & ? & ?). exists f. rewrite elem_of_app. auto.
    + destruct (H4 x Hx) as (f & ? & ?). exists f. rewrite elem_of_app. auto.
Qed.

Lemma represents_trans l m xs : represents l m -> represents m xs -> represents l xs.
Proof.
  intros [H1 H2] [H3 H4]. split; [auto|]. intros x Hx.
  destruct (H4 x Hx) as (f & Hf & E). destruct (H2 f Hf) as (g & Hg & E').
  exists g. split; [done|]. rewrite file_status_eqb_spec in *. intuition congruence.
Qed.

Lemma represents_equiv l xs ys :
  (forall x, x ∈ xs <-> x ∈ ys) -> represents l xs -> represents l ys.
Proof. intros E [H1 H2]. split; intros x; rewrite <- E; auto. Qed.

(** Folding [emplace] over statuses of one kind. *)
Lemma emplace_all_same_kind b xs l :
  Forall (fun e => fs_isDirectory e = b) xs -> Forall (fun e => fs_isDirectory e = b) l ->
  sorted_keys (map fs_key l) ->
  let r := fold_left (fun s x => set_emplace file_status_lt x s) xs l in
  sorted_keys (map fs_key r) /\ Forall (fun e => fs_isDirectory e = b) r /\
  represents r (l ++ xs).
Proof.
  intros Hxs. revert l. induction Hxs as [|x xs Hx Hxs IH]; intros l Hl Hs; simpl.
  { rewrite app_nil_r. split_and!; [done..|apply represents_refl]. }
  destruct (emplace_same_kind x l) as (H1 & H2 & H3); [by rewrite Hx|done|].
  rewrite Hx in H2. destruct (IH _ H2 H1) as (H4 & H5 & H6). split_and!; [done..|].
  eapply represents_trans; [exact H6|].
  eapply represents_equiv; [|apply represents_app; [exact H3|apply (represents_refl xs)]].
  intros y. set_solver.
Qed.

(** Directories go before the files that are already present. *)
Lemma emplace_dirs_app xs ds fs :
  Forall is_dir xs -> Forall is_file fs ->
  fold_left (fun s x => set_emplace file_status_lt x s) xs (ds ++ fs) =
  fold_left (fun s x => set_emplace file_status_lt x s) xs ds ++ fs.
Proof.
  intros Hxs Hfs. revert ds. induction Hxs as [|x xs Hx Hxs IH]; intros ds; simpl; [done|].
  rewrite set_emplace_app; [apply IH|]. eapply Forall_impl; [|exact Hfs].
  intros e He. unfold file_status_lt. by rewrite Hx, He.
Qed.

(** The set after the files and then the directories have been emplaced. *)
Lemma emplace_files_dirs files dirs :
  Forall is_file files -> Forall is_dir dirs ->
  let r := fold_left (fun s x => set_emplace file_status_lt x s) dirs
             (fold_left (fun s x => set_emplace file_status_lt x s) files []) in
  listing_order r /\ represents r (files ++ dirs).
Proof.
  intros Hf Hd. cbv zeta.
  destruct (emplace_all_same_kind false files [] Hf (Forall_nil _) I) as (F1 & F2 & F3).
  set (fs := fold_left _ files []) in *.
  pose proof (emplace_dirs_app dirs [] fs Hd F2) as E. simpl in E. rewrite E.
  destruct (emplace_all_same_kind true dirs [] Hd (Forall_nil _) I) as (D1 & D2 & D3).
  set (ds := fold_left _ dirs []) in *. split.
  - exists ds, fs. done.
  - eapply represents_equiv; [|apply represents_app; [exact D3|exact F3]].
    intros x. set_solver.
Qed.
