(* ===== verification/MDSKVSBucket.v ===== *)
(** * One bucket of the metadata store

    [MDSKVSBucket] (src/src/utility/MDSKVSBucket.h, MDSKVSBucket.cpp): a map
    from paths to shared containers. A container is an address in the bucket's
    store, since [updateObject] writes through a pointer it obtained earlier. *)

From Stdlib Require Import Ascii ZArith Lia.
From stdpp Require Import base gmap sets list strings numbers.
From S2P Require Import Prelude Status StdMap Path Object.

(** ** State and operations *)

Record MDSKVSBucket := mkBucket {
  b_name : str;
  b_map : smap Path nat;                (** [std::map<Path, shared_ptr<Container>>] *)
  b_store : gmap nat ObjectInfo;        (** the containers *)
  b_next : nat                          (** the next free address *)
}.

(** [MDSKVSBucket(name)] *)
Definition newBucket (nm : str) : MDSKVSBucket := mkBucket nm [] ∅ 0.

Definition getObject (k : str) (b : MDSKVSBucket) : StatusOr nat :=
  match mfind (mkPath k) (b_map b) with
  | None => Error (NotFoundError ("Key " ++ k ++ " does not exist."))
  | Some c => Value c
  end.

(** [container->obj] *)
Definition read_container (b : MDSKVSBucket) (c : nat) : ObjectInfo :=
  default (mkInfo [] 0 0 None) (b_store b !! c).

(** [container->obj = info] *)
Definition write_container (c : nat) (i : ObjectInfo) (b : MDSKVSBucket) : MDSKVSBucket :=
  mkBucket (b_name b) (b_map b) (<[c := i]> (b_store b)) (b_next b).

Definition bucket_createObject (o : Object) (b : MDSKVSBucket) : MDSKVSBucket * Status :=
  let c := b_next b in
  (mkBucket (b_name b) (massign (mkPath (key (id o))) c (b_map b))
     (<[c := info o]> (b_store b)) (S c), OkStatus).

Definition bucket_updateObject (o : Object) (b : MDSKVSBucket) : MDSKVSBucket * Status :=
  match getObject (key (id o)) b with
  | Error s => (b, s)
  | Value c => (write_container c (info o) b, OkStatus)
  end.

Definition bucket_deleteObject (k : str) (b : MDSKVSBucket) : MDSKVSBucket * Status :=
  match mfind (mkPath k) (b_map b) with
  | None => (b, NotFoundError ("Key " ++ k ++ " does not exist."))
  | Some _ => (mkBucket (b_name b) (merase (mkPath k) (b_map b)) (b_store b) (b_next b), OkStatus)
  end.

Definition bucket_deleteObjectPrefix (pre : str) (b : MDSKVSBucket) : MDSKVSBucket * Status :=
  let '(prefixStart, prefixEnd) := prefixSearch (b_map b) pre in
  if (prefixStart =? length (b_map b))%nat
  then (b, NotFoundError ("No objects starting with " ++ pre ++ " found."))
  else (mkBucket (b_name b) (erase_range prefixStart prefixEnd (b_map b)) (b_store b) (b_next b),
        OkStatus).

Definition bucket_lookup (k : str) (b : MDSKVSBucket) : StatusOr Object :=
  match getObject k b with
  | Error s => Error s
  | Value c => Value (mkObject (mkID (b_name b) k) (read_container b c))
  end.

(** One iteration of the loop of [listObjects]. *)
Definition list_entry (b : MDSKVSBucket) (prefixLength : nat) (delimiter : ascii)
    (acc : list Object * list str) (e : Path * nat) : list Object * list str :=
  let '(result, commonPrefixes) := acc in
  let path := name (fst e) in
  match (if bool_decide (delimiter <> NUL) then find_from delimiter prefixLength path else None) with
  | Some loc => (result, set_emplace ltb (take (loc + 1) path) commonPrefixes)
  | None => (result ++ [mkObject (mkID (b_name b) path) (read_container b (snd e))], commonPrefixes)
  end.

Definition bucket_listObjects (keyPrefix : str) (delimiter : ascii) (b : MDSKVSBucket) :
    StatusOr (list Object * list str) :=
  let prefixLength := length keyPrefix in
  let '(prefixStart, prefixEnd) := prefixSearch (b_map b) keyPrefix in
  Value (fold_left (list_entry b prefixLength delimiter)
           (range prefixStart prefixEnd (b_map b)) ([], [])).

(** [forall(action)]: the calls made, in order. *)
Definition bucket_forall (b : MDSKVSBucket) : list (Path * ObjectInfo) :=
  map (fun e => (fst e, read_container b (snd e))) (b_map b).

(** ** Invariant *)

Record wf (b : MDSKVSBucket) : Prop := {
  wf_sorted : sorted (b_map b);
  (** every entry points to a live container *)
  wf_live : forall p c, mfind p (b_map b) = Some c -> is_Some (b_store b !! c);
  (** no container is shared by two keys *)
  wf_inj : forall p q c, mfind p (b_map b) = Some c -> mfind q (b_map b) = Some c -> p = q;
  wf_fresh : forall c, is_Some (b_store b !! c) -> (c < b_next b)%nat
}.

(** What a client observes: the contents by key. *)
Definition view (b : MDSKVSBucket) (k : str) : option ObjectInfo :=
  mfind (mkPath k) (b_map b) ≫= fun c => b_store b !! c.

#[export] Hint Resolve wf_sorted : geds.

Lemma newBucket_wf nm : wf (newBucket nm).
Proof. split; simpl; [done|done|done|]. intros c [x Hx]. by rewrite lookup_empty in Hx. Qed.

Lemma wf_lt b p c : wf b -> mfind p (b_map b) = Some c -> (c < b_next b)%nat.
Proof. intros Hw Hf. eapply wf_fresh; [done|]. by eapply wf_live. Qed.

Lemma view_mfind b k : wf b -> view b k = None <-> mfind (mkPath k) (b_map b) = None.
Proof.
  intros Hw. unfold view. destruct (mfind _ _) as [c|] eqn:E; simpl; [|done].
  destruct (wf_live b Hw _ _ E) as [i Hi]. rewrite Hi. done.
Qed.

Lemma view_read b k c :
  wf b -> mfind (mkPath k) (b_map b) = Some c -> view b k = Some (read_container b c).
Proof.
  intros Hw Hc. unfold view, read_container. rewrite Hc. simpl.
  destruct (wf_live b Hw _ _ Hc) as [i Hi]. by rewrite Hi.
Qed.

Lemma mkPath_ne a b : a <> b -> mkPath a <> mkPath b.
Proof. congruence. Qed.

Lemma createObject_wf o b : wf b -> wf (fst (bucket_createObject o b)).
Proof.
  intros Hw. pose proof (wf_lt b) as Hlt. split; simpl.
  - apply massign_sorted, wf_sorted, Hw.
  - intros p c. rewrite (mfind_massign (K := Path)). case_decide.
    + intros [= <-]. rewrite lookup_insert_eq. eauto.
    + intros Hc. rewrite lookup_insert_ne; [by eapply wf_live|].
      specialize (Hlt p c Hw Hc). lia.
  - intros p q c. rewrite !(mfind_massign (K := Path)). do 2 case_decide; subst; try done.
    + intros [= <-] Hq. specialize (Hlt q _ Hw Hq). lia.
    + intros Hp [= <-]. specialize (Hlt p _ Hw Hp). lia.
    + apply wf_inj, Hw.
  - intros c [i Hi]. destruct (decide (c = b_next b)) as [->|]; [lia|].
    rewrite lookup_insert_ne in Hi by done.
    assert (c < b_next b)%nat by (eapply wf_fresh; eauto). lia.
Qed.

Lemma createObject_view o b k :
  wf b ->
  view (fst (bucket_createObject o b)) k =
    if decide (key (id o) = k) then Some (info o) else view b k.
Proof.
  intros Hw. unfold view. simpl. rewrite (mfind_massign (K := Path)). do 2 case_decide; simplify_eq.
  - simpl. by rewrite lookup_insert_eq.
  - destruct (mfind (mkPath k) (b_map b)) as [c|] eqn:Hc; simpl; [|done].
    pose proof (wf_lt b _ _ Hw Hc). rewrite lookup_insert_ne by lia. done.
Qed.

Lemma write_container_wf c i b :
  wf b -> is_Some (b_store b !! c) -> wf (write_container c i b).
Proof.
  intros Hw Hc. split; simpl; try apply Hw.
  - intros p d Hd. destruct (decide (c = d)) as [->|].
    + rewrite lookup_insert_eq. eauto.
    + rewrite lookup_insert_ne by done. by eapply wf_live.
  - intros d [x Hx]. destruct (decide (c = d)) as [->|]; [by eapply wf_fresh|].
    rewrite lookup_insert_ne in Hx by done. eapply wf_fresh; eauto.
Qed.

(** A write through a container pointer changes exactly the key that still
    maps to it, if any. *)
Lemma write_container_view c i b k :
  wf b ->
  view (write_container c i b) k =
    match mfind (mkPath k) (b_map b) with
    | Some d => if decide (c = d) then Some i else view b k
    | None => None
    end.
Proof.
  intros Hw. unfold view. simpl. destruct (mfind (mkPath k) (b_map b)) as [d|]; simpl; [|done].
  case_decide; [subst; by rewrite lookup_insert_eq|by rewrite lookup_insert_ne].
Qed.

Lemma erase_wf b m :
  wf b -> sorted m ->
  (forall p c, mfind p m = Some c -> mfind p (b_map b) = Some c) ->
  wf (mkBucket (b_name b) m (b_store b) (b_next b)).
Proof.
  intros Hw Hs Hsub. split; simpl; [done| | |apply Hw].
  - intros p c Hc%Hsub. by eapply wf_live.
  - intros p q c Hp%Hsub Hq%Hsub. by eapply (wf_inj b).
Qed.

Lemma deleteObject_wf k b : wf b -> wf (fst (bucket_deleteObject k b)).
Proof.
  intros Hw. unfold bucket_deleteObject. destruct (mfind _ _) as [c|]; [|done]. simpl.
  apply erase_wf; [done|apply merase_sorted, wf_sorted, Hw|].
  intros p d. rewrite (mfind_merase (K := Path)) by apply wf_sorted, Hw. by case_decide.
Qed.

Lemma deleteObject_view k b k' :
  wf b ->
  view (fst (bucket_deleteObject k b)) k' = if decide (k = k') then None else view b k'.
Proof.
  intros Hw. unfold bucket_deleteObject. destruct (mfind (mkPath k) (b_map b)) as [c|] eqn:E.
  - unfold view. simpl. rewrite (mfind_merase (K := Path)) by apply wf_sorted, Hw.
    do 2 case_decide; simplify_eq; done.
  - simpl. case_decide; [subst; by apply view_mfind|done].
Qed.

(** The part of [deleteObjectPrefix] that does not depend on its early return. *)
Lemma deleteObjectPrefix_shape pre b :
  wf b ->
  let b' := fst (bucket_deleteObjectPrefix pre b) in
  b_name b' = b_name b /\ b_store b' = b_store b /\ b_next b' = b_next b /\
  b_map b' = List.filter (fun e => negb (has_prefix pre (fst e))) (b_map b).
Proof.
  intros Hw. unfold bucket_deleteObjectPrefix.
  destruct (prefixSearch (b_map b) pre) as [first last] eqn:E.
  destruct (prefixSearch_spec _ _ _ _ (wf_sorted b Hw) E) as (_ & He & Hl).
  destruct (Nat.eqb_spec first (length (b_map b))) as [Heq|]; simpl.
  - split_and!; [done..|]. symmetry. apply filter_all. apply Hl in Heq.
    eapply Forall_impl; [|exact Heq]. simpl. intros [p c] Hp. simpl in *.
    rewrite <- probe_equivalent, Hp. done.
  - by rewrite He.
Qed.

Lemma deleteObjectPrefix_wf pre b : wf b -> wf (fst (bucket_deleteObjectPrefix pre b)).
Proof.
  intros Hw. destruct (deleteObjectPrefix_shape pre b Hw) as (Hn & Hst & Hx & Hm).
  destruct (fst (bucket_deleteObjectPrefix pre b)) as [n m st nx]; simpl in *; subst.
  apply erase_wf; [done|by apply sorted_filter, wf_sorted|].
  intros p c. rewrite mfind_filter by apply wf_sorted, Hw.
  destruct (mfind p (b_map b)) as [d|]; [|done]. by destruct (negb _).
Qed.

Lemma deleteObjectPrefix_view pre b k :
  wf b ->
  view (fst (bucket_deleteObjectPrefix pre b)) k =
    if starts_with pre k then None else view b k.
Proof.
  intros Hw. destruct (deleteObjectPrefix_shape pre b Hw) as (Hn & Hst & Hx & Hm).
  unfold view. rewrite Hm, Hst, mfind_filter by apply wf_sorted, Hw. simpl.
  unfold has_prefix. simpl.
  destruct (mfind (mkPath k) (b_map b)) as [c|]; simpl; by destruct (starts_with pre k).
Qed.

Lemma updateObject_wf o b : wf b -> wf (fst (bucket_updateObject o b)).
Proof.
  intros Hw. unfold bucket_updateObject, getObject.
  destruct (mfind _ _) as [c|] eqn:E; [|done]. simpl.
  apply write_container_wf; [done|]. by eapply wf_live.
Qed.

Lemma updateObject_view o b k :
  wf b ->
  view (fst (bucket_updateObject o b)) k =
    if decide (key (id o) = k /\ is_Some (view b (key (id o)))) then Some (info o) else view b k.
Proof.
  intros Hw. unfold bucket_updateObject, getObject.
  destruct (mfind (mkPath (key (id o))) (b_map b)) as [c|] eqn:E; simpl.
  - rewrite write_container_view by done.
    pose proof (view_read b _ _ Hw E) as Hv.
    destruct (mfind (mkPath k) (b_map b)) as [d|] eqn:Ek.
    + destruct (decide (c = d)) as [->|Hne].
      * assert (mkPath (key (id o)) = mkPath k) as Hk by (by eapply wf_inj).
        injection Hk as Hk. rewrite decide_True; [done|]. rewrite Hv. eauto.
      * rewrite decide_False; [done|]. intros [<- _]. congruence.
    + rewrite decide_False by (intros [<- _]; congruence).
      symmetry. by apply view_mfind.
  - rewrite decide_False; [done|]. apply view_mfind in E; [|done].
    rewrite E. intros [_ [x Hx]]. done.
Qed.

(** ** The abstract bucket *)

(** A bucket promises to be a finite map from keys to object infos. *)
Module BucketSpec.
Inductive op :=
| Create (o : Object)
| Update (o : Object)
| Delete (k : str)
| DeletePrefix (pre : str).

Definition apply (s : gmap str ObjectInfo) (a : op) : gmap str ObjectInfo :=
  match a with
  | Create o => <[key (id o) := info o]> s
  | Update o => match s !! key (id o) with
                | Some _ => <[key (id o) := info o]> s
                | None => s
                end
  | Delete k => delete k s
  | DeletePrefix pre => filter (fun e => starts_with pre (fst e) = false) s
  end.

Definition run (ops : list op) : gmap str ObjectInfo := fold_left apply ops ∅.
End BucketSpec.

Definition bucket_apply (b : MDSKVSBucket) (a : BucketSpec.op) : MDSKVSBucket :=
  match a with
  | BucketSpec.Create o => fst (bucket_createObject o b)
  | BucketSpec.Update o => fst (bucket_updateObject o b)
  | BucketSpec.Delete k => fst (bucket_deleteObject k b)
  | BucketSpec.DeletePrefix pre => fst (bucket_deleteObjectPrefix pre b)
  end.

(** The abstraction relation. *)
Definition abs (b : MDSKVSBucket) (s : gmap str ObjectInfo) : Prop :=
  wf b /\ forall k, view b k = s !! k.

Lemma bucket_apply_name b a : b_name (bucket_apply b a) = b_name b.
Proof.
  destruct a as [o|o|k|pre]; simpl; [done|..].
  - unfold bucket_updateObject. by destruct (getObject _ _).
  - unfold bucket_deleteObject. by destruct (mfind _ _).
  - unfold bucket_deleteObjectPrefix. destruct (prefixSearch _ _). by destruct (_ =? _)%nat.
Qed.

Lemma bucket_apply_abs b s a : abs b s -> abs (bucket_apply b a) (BucketSpec.apply s a).
Proof.
  intros [Hw Hv]. destruct a as [o|o|k|pre]; cbn [bucket_apply BucketSpec.apply].
  - split; [by apply createObject_wf|]. intros k.
    rewrite createObject_view, lookup_insert, Hv by done. done.
  - split; [by apply updateObject_wf|]. intros k.
    rewrite updateObject_view, !Hv by done.
    destruct (s !! key (id o)) eqn:E; case_decide as Hd.
    + destruct Hd as [<- _]. by rewrite lookup_insert_eq.
    + rewrite lookup_insert_ne; [done|]. intros Heq. apply Hd. eauto.
    + by destruct Hd as [_ [x Hx]].
    + done.
  - split; [by apply deleteObject_wf|]. intros k'.
    rewrite deleteObject_view, lookup_delete, Hv by done. done.
  - split; [by apply deleteObjectPrefix_wf|]. intros k.
    rewrite deleteObjectPrefix_view, Hv, map_lookup_filter by done.
    destruct (s !! k) as [i|]; simpl; [|by destruct (starts_with pre k)].
    case_guard as Hg; simpl in *; destruct (starts_with pre k); done.
Qed.

Lemma bucket_run_abs b s ops :
  abs b s -> abs (fold_left bucket_apply ops b) (fold_left BucketSpec.apply ops s).
Proof.
  revert b s. induction ops as [|a ops IH]; intros b s Habs; simpl; [done|].
  apply IH. by apply bucket_apply_abs.
Qed.

Lemma bucket_run_name b ops : b_name (fold_left bucket_apply ops b) = b_name b.
Proof.
  revert b. induction ops as [|a ops IH]; intros b; simpl; [done|].
  by rewrite IH, bucket_apply_name.
Qed.

Lemma newBucket_abs nm : abs (newBucket nm) ∅.
Proof. split; [apply newBucket_wf|]. intros k. by rewrite lookup_empty. Qed.

(** [lookup] in terms of the view. *)
Lemma bucket_lookup_view k b :
  wf b ->
  bucket_lookup k b =
    match view b k with
    | Some i => Value (mkObject (mkID (b_name b) k) i)
    | None => Error (NotFoundError ("Key " ++ k ++ " does not exist."))
    end.
Proof.
  intros Hw. unfold bucket_lookup, getObject.
  destruct (mfind (mkPath k) (b_map b)) as [c|] eqn:E.
  - by rewrite (view_read b k c).
  - by rewrite (proj2 (view_mfind b k Hw) E).
Qed.

(** ** Listing *)

(** The common prefix an entry contributes, if its key contains the delimiter
    after the prefix. *)
Definition common_prefix (delimiter : ascii) (prefixLength : nat) (path : str) : option str :=
  if bool_decide (delimiter = NUL) then None
  else (fun loc => take (loc + 1) path) <$> find_from delimiter prefixLength path.

Lemma list_entry_eq b n d acc e :
  list_entry b n d acc e =
    match common_prefix d n (name (fst e)) with
    | Some p => (fst acc, set_emplace ltb p (snd acc))
    | None => (fst acc ++ [mkObject (mkID (b_name b) (name (fst e))) (read_container b (snd e))], snd acc)
    end.
Proof.
  destruct acc as [r c]. unfold list_entry, common_prefix. simpl.
  do 2 case_bool_decide; try done. by destruct (find_from _ _ _).
Qed.

Definition listed (d : ascii) (n : nat) (e : Path * nat) : bool :=
  bool_decide (common_prefix d n (name (fst e)) = None).

Definition as_object (b : MDSKVSBucket) (e : Path * nat) : Object :=
  mkObject (mkID (b_name b) (name (fst e))) (read_container b (snd e)).

Lemma list_fold b n d es r c :
  sorted_keys c ->
  let res := fold_left (list_entry b n d) es (r, c) in
  fst res = r ++ map (as_object b) (List.filter (listed d n) es) /\
  sorted_keys (snd res) /\
  (forall p, p ∈ snd res <->
     p ∈ c \/ exists e, e ∈ es /\ common_prefix d n (name (fst e)) = Some p).
Proof.
  revert r c. induction es as [|e es IH]; intros r c Hc; cbn [fold_left].
  { simpl. rewrite app_nil_r. set_solver. }
  rewrite list_entry_eq. simpl. unfold listed at 1.
  destruct (common_prefix d n (name (fst e))) as [p|] eqn:E.
  - rewrite bool_decide_false by done.
    destruct (IH r (set_emplace ltb p c)) as (H1 & H2 & H3); [by apply set_emplace_sorted|].
    split_and!; [done..|]. intros q. rewrite H3, elem_of_set_emplace by done.
    set_unfold. naive_solver.
  - rewrite bool_decide_true by done.
    destruct (IH (r ++ [as_object b e]) c) as (H1 & H2 & H3); [done|].
    change (mkObject _ _) with (as_object b e).
    split_and!; [rewrite H1, <- app_assoc; done|done|].
    intros q. rewrite H3. set_unfold. naive_solver.
Qed.

Lemma sorted_keys_name (l : list Path) : sorted_keys l -> sorted_keys (map name l).
Proof.
  induction l as [|p l IH]; simpl; [done|]. intros [Hp Hl]. split; [|auto].
  rewrite Forall_map. exact Hp.
Qed.

Lemma listObjects_entry b pre p c :
  wf b ->
  (p, c) ∈ List.filter (fun e => has_prefix pre (fst e)) (b_map b) <->
  starts_with pre (name p) = true /\ mfind p (b_map b) = Some c.
Proof.
  intros Hw. rewrite mfind_Some by apply wf_sorted, Hw.
  rewrite !list_elem_of_In, filter_In. unfold has_prefix. simpl. tauto.
Qed.

(** The common prefix of a key that starts with the search prefix ends at the
    first delimiter after it. *)
Lemma common_prefix_app d pre rest :
  common_prefix d (length pre) (pre ++ rest) =
    if bool_decide (d = NUL) then None
    else (fun i => pre ++ take (i + 1) rest) <$> find_char d rest.
Proof.
  unfold common_prefix, find_from. case_bool_decide; [done|].
  rewrite drop_app_length. destruct (find_char d rest) as [i|]; simpl; [|done].
  f_equal. rewrite take_app. f_equal; [apply take_ge; lia|f_equal; lia].
Qed.

Lemma common_prefix_None d pre rest :
  common_prefix d (length pre) (pre ++ rest) = None <-> d = NUL \/ d ∉ rest.
Proof.
  rewrite common_prefix_app. case_bool_decide; [naive_solver|].
  rewrite fmap_None, find_char_None. naive_solver.
Qed.

Lemma common_prefix_Some d pre rest p :
  common_prefix d (length pre) (pre ++ rest) = Some p <->
  d <> NUL /\ exists r1 r2, rest = r1 ++ d :: r2 /\ d ∉ r1 /\ p = pre ++ r1 ++ [d].
Proof.
  rewrite common_prefix_app. case_bool_decide as Hd; [naive_solver|].
  rewrite fmap_Some. split.
  - intros (i & Hi & ->). split; [done|]. exists (take i rest), (drop (S i) rest).
    split_and!; [by apply find_char_split|by apply find_char_Some in Hi as []|].
    rewrite Nat.add_1_r. f_equal. apply take_S_r. by apply find_char_Some in Hi as [].
  - intros [_ (r1 & r2 & -> & Hn & ->)]. exists (length r1).
    split; [by apply find_char_app_cons|]. f_equal.
    rewrite take_app_add. done.
Qed.

(** ** Interleavings *)

(** [updateObject] takes the bucket lock to find the container, releases it,
    and then writes the container under the container's own lock. [bucket_step]
    interleaves any number of updates at that grain with the operations that
    hold the bucket lock throughout. *)
Record bconf := mkConf {
  bc_bucket : MDSKVSBucket;
  bc_pending : list (nat * Object)      (** updates between lookup and write *)
}.

Inductive bucket_step : bconf -> bconf -> Prop :=
| step_atomic b pend a :
    (forall o, a <> BucketSpec.Update o) ->
    bucket_step (mkConf b pend) (mkConf (bucket_apply b a) pend)
| step_update_find b pend o c :
    getObject (key (id o)) b = Value c ->
    bucket_step (mkConf b pend) (mkConf b ((c, o) :: pend))
| step_update_write b pend1 pend2 c o :
    bucket_step (mkConf b (pend1 ++ (c, o) :: pend2))
                (mkConf (write_container c (info o) b) (pend1 ++ pend2)).

(** A pending update holds a live container, and only the key it was found
    under can still refer to it. *)
Definition pending_ok (b : MDSKVSBucket) (p : nat * Object) : Prop :=
  is_Some (b_store b !! fst p) /\
  forall q, mfind q (b_map b) = Some (fst p) -> q = mkPath (key (id (snd p))).

Definition conf_wf (g : bconf) : Prop :=
  wf (bc_bucket g) /\ Forall (pending_ok (bc_bucket g)) (bc_pending g).

Lemma bucket_apply_store b a c :
  is_Some (b_store b !! c) -> is_Some (b_store (bucket_apply b a) !! c).
Proof.
  destruct a as [o|o|k|pre]; simpl.
  - intros [x Hx]. destruct (decide (b_next b = c)) as [->|].
    + rewrite lookup_insert_eq. eauto.
    + rewrite lookup_insert_ne; eauto.
  - unfold bucket_updateObject. destruct (getObject _ _) as [d|]; [|done]. simpl.
    intros [x Hx]. destruct (decide (d = c)) as [->|].
    + rewrite lookup_insert_eq. eauto.
    + rewrite lookup_insert_ne; eauto.
  - unfold bucket_deleteObject. by destruct (mfind _ _).
  - unfold bucket_deleteObjectPrefix. destruct (prefixSearch _ _). by destruct (_ =? _)%nat.
Qed.

Lemma bucket_apply_wf b a : wf b -> wf (bucket_apply b a).
Proof.
  destruct a; cbn [bucket_apply];
    eauto using createObject_wf, updateObject_wf, deleteObject_wf, deleteObjectPrefix_wf.
Qed.

(** No operation makes another key refer to an existing container. *)
Lemma bucket_apply_map b a q c :
  wf b -> (c < b_next b)%nat ->
  mfind q (b_map (bucket_apply b a)) = Some c -> mfind q (b_map b) = Some c.
Proof.
  intros Hw Hc. destruct a as [o|o|k|pre]; cbn [bucket_apply].
  - simpl. rewrite (mfind_massign (K := Path)). case_decide; [|done]. intros [= <-]. lia.
  - unfold bucket_updateObject. by destruct (getObject _ _).
  - unfold bucket_deleteObject. destruct (mfind (mkPath k) _); [|done]. simpl.
    rewrite (mfind_merase (K := Path)) by apply wf_sorted, Hw. by case_decide.
  - destruct (deleteObjectPrefix_shape pre b Hw) as (_ & _ & _ & ->).
    rewrite mfind_filter by apply wf_sorted, Hw.
    destruct (mfind q (b_map b)); [|done]. by destruct (negb _).
Qed.

Lemma pending_ok_apply b a p : wf b -> pending_ok b p -> pending_ok (bucket_apply b a) p.
Proof.
  intros Hw [Hl Hq]. split; [by apply bucket_apply_store|].
  intros q Hf. apply Hq. eapply bucket_apply_map; eauto using wf_fresh.
Qed.

Lemma pending_ok_write b c i p : pending_ok b p -> pending_ok (write_container c i b) p.
Proof.
  intros [Hl Hq]. split; [|done]. simpl. destruct (decide (c = fst p)) as [->|].
  - rewrite lookup_insert_eq. eauto.
  - by rewrite lookup_insert_ne.
Qed.

Lemma bucket_step_wf g g' : bucket_step g g' -> conf_wf g -> conf_wf g'.
Proof.
  intros Hst [Hw Hp]. destruct Hst as [b pend a Ha|b pend o c Hc|b pend1 pend2 c o]; simpl in *.
  - split; simpl; [by apply bucket_apply_wf|].
    eapply Forall_impl; [|exact Hp]. intros ?. by apply pending_ok_apply.
  - split; [done|]. constructor; [|done]. unfold getObject in Hc.
    destruct (mfind _ _) eqn:E; [|done]. injection Hc as ->. split; simpl.
    + by eapply wf_live.
    + intros q Hq. by eapply wf_inj.
  - apply Forall_app in Hp as [Hp1 Hp2]. apply Forall_cons_iff in Hp2 as [[Hc _] Hp2].
    split; simpl; [by apply write_container_wf|].
    apply Forall_app. split; (eapply Forall_impl; [|eassumption]);
      intros ?; apply pending_ok_write.
Qed.

Lemma bucket_steps_wf g g' : rtc bucket_step g g' -> conf_wf g -> conf_wf g'.
Proof. induction 1; eauto using bucket_step_wf. Qed.

(** When the early return of [deleteObjectPrefix] is taken. *)
Lemma prefixStart_end pre b first last :
  wf b -> prefixSearch (b_map b) pre = (first, last) ->
  first = length (b_map b) <->
  forall k, is_Some (view b k) -> str_ltb (take (length pre) k) pre = true.
Proof.
  intros Hw E. destruct (prefixSearch_spec _ _ _ _ (wf_sorted b Hw) E) as (_ & _ & ->). split.
  - intros Hf k Hk. destruct (mfind (mkPath k) (b_map b)) as [c|] eqn:Hc.
    + apply mfind_Some in Hc; [|apply wf_sorted, Hw]. exact (Forall_elem _ _ _ Hf Hc).
    + apply view_mfind in Hc; [|done]. rewrite Hc in Hk. by destruct Hk.
  - intros Hf. apply Forall_intro. intros [[k] c] Hin. simpl. apply Hf.
    apply mfind_Some in Hin; [|apply wf_sorted, Hw].
    exists (read_container b c). exact (view_read b k c Hw Hin).
Qed.

(** The listing of the keys of [f] below a prefix: the objects without a
    delimiter after the prefix, and the common prefixes of the others. *)
Definition listing_of (nm : str) (f : str -> option ObjectInfo) (pre : str) (d : ascii)
    (objs : list Object) (cps : list str) : Prop :=
  (forall o, o ∈ objs <->
     bucket (id o) = nm /\ f (key (id o)) = Some (info o) /\
     exists rest, key (id o) = pre ++ rest /\ (d = NUL \/ d ∉ rest)) /\
  sorted_keys (map (fun o => key (id o)) objs) /\
  (forall p, p ∈ cps <->
     d <> NUL /\ exists r1 r2, is_Some (f (pre ++ r1 ++ d :: r2)) /\
       d ∉ r1 /\ p = pre ++ r1 ++ [d]) /\
  sorted_keys cps.

Lemma bucket_listObjects_spec pre d b objs cps :
  wf b -> bucket_listObjects pre d b = Value (objs, cps) ->
  listing_of (b_name b) (view b) pre d objs cps.
Proof.
  intros Hw. unfold bucket_listObjects.
  destruct (prefixSearch (b_map b) pre) as [first last] eqn:E.
  destruct (prefixSearch_spec _ _ _ _ (wf_sorted b Hw) E) as (-> & _ & _).
  set (es := List.filter _ (b_map b)).
  destruct (list_fold b (length pre) d es [] [] I) as (H1 & H2 & H3).
  intros [= Hres]. rewrite Hres in *. simpl in *. subst objs. split_and!; [| | |done].
  - intros o. rewrite list_elem_of_In, in_map_iff. split.
    + intros ([p c] & <- & Hin). apply filter_In in Hin as [Hin Hl].
      rewrite <- list_elem_of_In in Hin. apply listObjects_entry in Hin as [Hp Hc]; [|done].
      apply starts_with_prefix in Hp as [rest Hrest]. unfold listed in Hl.
      apply bool_decide_eq_true in Hl. simpl in *. rewrite Hrest in Hl.
      apply common_prefix_None in Hl. destruct p as [nm]; simpl in *.
      split_and!; [done|by apply view_read|eauto].
    + intros (Hb & Hv & rest & Hk & Hd). unfold view in Hv.
      destruct (mfind (mkPath (key (id o))) (b_map b)) as [c|] eqn:Hc; [|done]. simpl in Hv.
      exists (mkPath (key (id o)), c). split.
      { unfold as_object, read_container. simpl. rewrite Hv. simpl. rewrite <- Hb.
        by destruct o as [[] ?]. }
      apply filter_In. split.
      * rewrite <- list_elem_of_In. apply listObjects_entry; [done|]. simpl. split; [|done].
        apply starts_with_prefix. by exists rest.
      * unfold listed. simpl. apply bool_decide_eq_true. rewrite Hk. by apply common_prefix_None.
  - rewrite map_map. simpl. rewrite <- (map_map fst name). apply sorted_keys_name.
    apply (sorted_filter _ es). apply sorted_filter, wf_sorted, Hw.
  - intros p. rewrite H3. split.
    + intros [Hn|([q c] & Hin & Hcp)]; [set_solver|].
      apply listObjects_entry in Hin as [Hp Hc]; [|done]. simpl in *.
      apply starts_with_prefix in Hp as [rest Hrest]. rewrite Hrest in Hcp.
      apply common_prefix_Some in Hcp as (Hd & r1 & r2 & -> & Hn & ->).
      split; [done|]. exists r1, r2. split_and!; [|done..]. destruct q as [nm]; simpl in *.
      subst nm. rewrite (view_read b _ c Hw Hc). eauto.
    + intros (Hd & r1 & r2 & [i Hi] & Hn & ->). right. unfold view in Hi.
      destruct (mfind _ (b_map b)) as [c|] eqn:Hc; [|done].
      exists (mkPath (pre ++ r1 ++ d :: r2), c). split.
      * apply listObjects_entry; [done|]. simpl. split; [apply starts_with_app|done].
      * simpl. apply common_prefix_Some. split; [done|]. by exists r1, r2.
Qed.

Lemma bucket_listObjects_total pre d b :
  exists objs cps, bucket_listObjects pre d b = Value (objs, cps).
Proof.
  unfold bucket_listObjects. destruct (prefixSearch _ _) as [first last].
  destruct (fold_left _ _ _) as [objs cps]. by exists objs, cps.
Qed.

(** Every key of [f] sorts before the prefix. *)
Definition all_before (f : str -> option ObjectInfo) (pre : str) : Prop :=
  forall k, is_Some (f k) -> str_ltb (take (length pre) k) pre = true.

Lemma all_before_no_match f pre k :
  all_before f pre -> starts_with pre k = true -> f k = None.
Proof.
  intros Hf Hp. destruct (f k) eqn:E; [|done]. exfalso.
  assert (str_ltb (take (length pre) k) pre = true) as Hlt by (apply Hf; eauto).
  apply bool_decide_eq_true in Hp. rewrite Hp, str_ltb_irrefl in Hlt. done.
Qed.

(** The status [deleteObjectPrefix] returns. *)
Definition prefix_status (f : str -> option ObjectInfo) (pre : str) (s : Status) : Prop :=
  (s = OkStatus /\ ~ all_before f pre) \/
  (s = NotFoundError ("No objects starting with " ++ pre ++ " found.") /\ all_before f pre).

Lemma bucket_deleteObjectPrefix_status pre b :
  wf b -> prefix_status (view b) pre (snd (bucket_deleteObjectPrefix pre b)).
Proof.
  intros Hw. unfold bucket_deleteObjectPrefix.
  destruct (prefixSearch (b_map b) pre) as [first last] eqn:E.
  pose proof (prefixStart_end pre b first last Hw E) as Hall.
  destruct (Nat.eqb_spec first (length (b_map b))) as [Heq|Hne]; simpl.
  - right. split; [done|]. exact (proj1 Hall Heq).
  - left. split; [done|]. intros Hf. exact (Hne (proj2 Hall Hf)).
Qed.

(** ** Properties *)

(** A bucket implements a finite map. After any sequence of creations,
    updates, deletions and prefix deletions starting from a new bucket, the
    representation invariant holds and every lookup returns what the abstract
    map holds, a missing key giving NotFound. *)
Theorem bucket_refines_map nm ops :
  let b := fold_left bucket_apply ops (newBucket nm) in
  wf b /\
  forall k, bucket_lookup k b =
    match BucketSpec.run ops !! k with
    | Some i => Value (mkObject (mkID nm k) i)
    | None => Error (NotFoundError ("Key " ++ k ++ " does not exist."))
    end.
Proof.
  destruct (bucket_run_abs _ _ ops (newBucket_abs nm)) as [Hw Hv].
  split; [done|]. intros k. by rewrite bucket_lookup_view, Hv, bucket_run_name.
Qed.

(** C16: [listObjects] returns exactly the objects whose key starts with the
    prefix and has no delimiter after it, in ascending key order, and exactly
    the common prefixes of the others, ascending and each ending with the
    delimiter. The delimiter 0 lists every object with the prefix. *)
Theorem bucket_listObjects_exact pre d b :
  wf b ->
  exists objs cps, bucket_listObjects pre d b = Value (objs, cps) /\
  (forall o, o ∈ objs <->
     bucket (id o) = b_name b /\ view b (key (id o)) = Some (info o) /\
     exists rest, key (id o) = pre ++ rest /\ (d = NUL \/ d ∉ rest)) /\
  sorted_keys (map (fun o => key (id o)) objs) /\
  (forall p, p ∈ cps <->
     d <> NUL /\ exists r1 r2, is_Some (view b (pre ++ r1 ++ d :: r2)) /\
       d ∉ r1 /\ p = pre ++ r1 ++ [d]) /\
  sorted_keys cps.
Proof.
  intros Hw. destruct (bucket_listObjects_total pre d b) as (objs & cps & E).
  exists objs, cps. split; [done|]. by apply bucket_listObjects_spec.
Qed.

(** [deleteObjectPrefix] removes exactly the keys that start with the
    prefix. It reports OK whenever there was such a key, and NotFound only when
    every key of the bucket sorts before the prefix. *)
Theorem bucket_deleteObjectPrefix_exact pre b :
  wf b ->
  let '(b', s) := bucket_deleteObjectPrefix pre b in
  wf b' /\
  (forall k, view b' k = if starts_with pre k then None else view b k) /\
  ((exists k, starts_with pre k = true /\ is_Some (view b k)) -> s = OkStatus) /\
  (s = OkStatus \/ s = NotFoundError ("No objects starting with " ++ pre ++ " found.")) /\
  (ok s = false <->
     forall k, is_Some (view b k) -> str_ltb (take (length pre) k) pre = true).
Proof.
  intros Hw. pose proof (deleteObjectPrefix_wf pre b Hw) as H1.
  pose proof (fun k => deleteObjectPrefix_view pre b k Hw) as H2.
  pose proof (bucket_deleteObjectPrefix_status pre b Hw) as H3.
  destruct (bucket_deleteObjectPrefix pre b) as [b' s]. simpl in *.
  destruct H3 as [[-> Hn]|[-> Ha]]; split_and!; auto; try done.
  intros (k & Hp & [i Hi]). rewrite (all_before_no_match _ _ _ Ha Hp) in Hi. done.
Qed.

(** Updates that interleave with other operations are harmless. Along
    any interleaving the invariant is preserved, and the delayed write of an
    update either has the effect of an atomic update at that moment, when
    the container it found is still the one stored under the key, or leaves
    every key as it was, when the entry was replaced or deleted meanwhile. *)
Theorem bucket_interleaved_updates g g' :
  rtc bucket_step g g' -> conf_wf g ->
  conf_wf g' /\
  forall pend1 pend2 c o, bc_pending g' = pend1 ++ (c, o) :: pend2 ->
    let b := bc_bucket g' in
    forall k, view (write_container c (info o) b) k =
      if decide (mfind (mkPath (key (id o))) (b_map b) = Some c)
      then view (bucket_apply b (BucketSpec.Update o)) k else view b k.
Proof.
  intros Hst Hg. destruct (bucket_steps_wf _ _ Hst Hg) as [Hw Hp].
  split; [done|]. intros pend1 pend2 c o Hpend. cbv zeta. intros k.
  rewrite Hpend, Forall_app, Forall_cons_iff in Hp. destruct Hp as (_ & [_ Hq] & _). simpl in Hq.
  case_decide as Hd.
  - cbn [bucket_apply]. unfold bucket_updateObject, getObject. by rewrite Hd.
  - rewrite write_container_view by done. unfold view at 2.
    destruct (mfind (mkPath k) _) as [d|] eqn:Hk; simpl; [|done].
    case_decide; [subst d|unfold view; by rewrite Hk].
    pose proof (Hq _ Hk) as E. injection E as ->. done.
Qed.

(** ** Witnesses *)

Definition sample_info (n : Z) : ObjectInfo := mkInfo "geds://host:4381" n n None.

Definition sample_bucket : MDSKVSBucket :=
  fold_left bucket_apply
    (map (fun k : str => BucketSpec.Create (mkObject (mkID "b" k) (sample_info 1)))
       ["a/1" : str; "a/2" : str; "a/c/3" : str; "z" : str]) (newBucket "b").

Lemma sample_bucket_wf : wf sample_bucket.
Proof. apply (bucket_run_abs _ _ _ (newBucket_abs "b")). Qed.

Lemma bucket_listObjects_exact_witness :
  (exists objs, bucket_listObjects "a/" "/" sample_bucket = Value (objs, ["a/c/" : str]) /\
     map (fun o => key (id o)) objs = ["a/1" : str; "a/2" : str]) /\
  exists objs cps, bucket_listObjects "a/" "/" sample_bucket = Value (objs, cps) /\
    sorted_keys cps.
Proof.
  split; [eexists; split; vm_compute; reflexivity|].
  destruct (bucket_listObjects_exact "a/" "/" sample_bucket sample_bucket_wf)
    as (objs & cps & E & _ & _ & _ & H).
  exists objs, cps. split; [exact E|exact H].
Defined.

(** No key starts with ["b/"], but ["z"] sorts after it: the status is OK. *)
Lemma bucket_deleteObjectPrefix_exact_witness :
  snd (bucket_deleteObjectPrefix "b/" sample_bucket) = OkStatus /\
  wf (fst (bucket_deleteObjectPrefix "a/" sample_bucket)).
Proof.
  split; [vm_compute; reflexivity|].
  pose proof (bucket_deleteObjectPrefix_exact "a/" sample_bucket sample_bucket_wf) as H.
  destruct (bucket_deleteObjectPrefix "a/" sample_bucket) as [b' s]. exact (proj1 H).
Defined.

(** An update of ["z"] is overtaken by a deletion. *)
Definition overtaken : bconf :=
  mkConf (bucket_apply sample_bucket (BucketSpec.Delete "z"))
    [(3%nat, mkObject (mkID "b" "z") (sample_info 7))].

Lemma overtaken_reachable : rtc bucket_step (mkConf sample_bucket []) overtaken.
Proof.
  eapply rtc_l; [apply (step_update_find _ _ (mkObject (mkID "b" "z") (sample_info 7)) 3);
                 vm_compute; reflexivity|].
  eapply rtc_l; [apply (step_atomic _ _ (BucketSpec.Delete "z")); congruence|]. apply rtc_refl.
Qed.

Lemma bucket_interleaved_updates_witness :
  view (write_container 3 (sample_info 7) (bc_bucket overtaken)) "z" = None /\
  conf_wf overtaken.
Proof.
  split; [vm_compute; reflexivity|].
  exact (proj1 (bucket_interleaved_updates _ _ overtaken_reachable
                  (conj sample_bucket_wf (Forall_nil _)))).
Defined.
