(* ===== verification/MDSKVS.v ===== *)
(** * The metadata store

    [MDSKVS] (src/src/utility/MDSKVS.h, MDSKVS.cpp): a map from bucket names to
    shared buckets. A bucket is an address in a heap, since an operation on a
    bucket runs after the store's lock has been released. *)

From Stdlib Require Import Ascii ZArith Lia.
From stdpp Require Import base gmap sets list strings numbers.
From S2P Require Import Prelude Status StdMap Path Object MDSKVSBucket.

Open Scope list_scope.

(** ** State and operations *)

Record MDSKVS := mkKVS {
  kvs_map : smap str nat;               (** [std::map<std::string, shared_ptr<MDSKVSBucket>>] *)
  kvs_heap : gmap nat MDSKVSBucket;     (** the buckets *)
  kvs_next : nat
}.

Definition emptyKVS : MDSKVS := mkKVS [] ∅ 0.

Definition getBucket (nm : str) (k : MDSKVS) : StatusOr nat :=
  match mfind nm (kvs_map k) with
  | None => Error (NotFoundError ("Bucket " ++ nm ++ " does not exist."))
  | Some h => Value h
  end.

Definition createBucket (nm : str) (k : MDSKVS) : MDSKVS * Status :=
  match mfind nm (kvs_map k) with
  | Some _ => (k, AlreadyExistsError ("Bucket " ++ nm ++ " already exists."))
  | None => (mkKVS (massign nm (kvs_next k) (kvs_map k))
               (<[kvs_next k := newBucket nm]> (kvs_heap k)) (S (kvs_next k)), OkStatus)
  end.

(** [MDSKVS()]: creates the default bucket when the build defines one. *)
Definition newKVS (default_bucket : option str) : MDSKVS :=
  match default_bucket with
  | Some nm => fst (createBucket nm emptyKVS)
  | None => emptyKVS
  end.

Definition deleteBucket (nm : str) (k : MDSKVS) : MDSKVS * Status :=
  match mfind nm (kvs_map k) with
  | None => (k, NotFoundError ("Bucket " ++ nm ++ " does not exist."))
  | Some _ => (mkKVS (merase nm (kvs_map k)) (kvs_heap k) (kvs_next k), OkStatus)
  end.

Definition listBuckets (k : MDSKVS) : StatusOr (list str) := Value (keys (kvs_map k)).

Definition bucketStatus (nm : str) (k : MDSKVS) : Status :=
  match mfind nm (kvs_map k) with
  | Some _ => OkStatus
  | None => NotFoundError ("Bucket " ++ nm ++ " does not exist.")
  end.

(** [bucket->...] through a shared pointer. *)
Definition bucket_at (h : nat) (k : MDSKVS) : MDSKVSBucket :=
  default (newBucket []) (kvs_heap k !! h).

Definition on_bucket (h : nat) (f : MDSKVSBucket -> MDSKVSBucket * Status) (k : MDSKVS) :
    MDSKVS * Status :=
  let '(b, s) := f (bucket_at h k) in
  (mkKVS (kvs_map k) (<[h := b]> (kvs_heap k)) (kvs_next k), s).

Definition kvs_createObject (o : Object) (forceCreateBucket : bool) (k : MDSKVS) :
    MDSKVS * Status :=
  match getBucket (bucket (id o)) k with
  | Value h => on_bucket h (bucket_createObject o) k
  | Error s =>
      if negb forceCreateBucket then (k, s) else
      let '(k, s) := createBucket (bucket (id o)) k in
      if negb (ok s) then (k, s) else
      match getBucket (bucket (id o)) k with
      | Error s => (k, s)
      | Value h => on_bucket h (bucket_createObject o) k
      end
  end.

Definition kvs_updateObject (o : Object) (k : MDSKVS) : MDSKVS * Status :=
  match getBucket (bucket (id o)) k with
  | Error s => (k, s)
  | Value h => on_bucket h (bucket_updateObject o) k
  end.

Definition kvs_deleteObject (nm ky : str) (k : MDSKVS) : MDSKVS * Status :=
  match getBucket nm k with
  | Error s => (k, s)
  | Value h => on_bucket h (bucket_deleteObject ky) k
  end.

Definition kvs_deleteObjectPrefix (nm pre : str) (k : MDSKVS) : MDSKVS * Status :=
  match getBucket nm k with
  | Error s => (k, s)
  | Value h => on_bucket h (bucket_deleteObjectPrefix pre) k
  end.

Definition kvs_lookup (nm ky : str) (k : MDSKVS) : StatusOr Object :=
  match getBucket nm k with
  | Error s => Error s
  | Value h => bucket_lookup ky (bucket_at h k)
  end.

Definition kvs_listObjects (nm pre : str) (delimiter : ascii) (k : MDSKVS) :
    StatusOr (list Object * list str) :=
  match getBucket nm k with
  | Error s => Error s
  | Value h => bucket_listObjects pre delimiter (bucket_at h k)
  end.

(** ** Invariant and abstraction *)

Record kvs_wf (k : MDSKVS) : Prop := {
  kwf_sorted : sorted (kvs_map k);
  (** a name refers to a live, well-formed bucket of that name *)
  kwf_live : forall nm h, mfind nm (kvs_map k) = Some h ->
    exists b, kvs_heap k !! h = Some b /\ wf b /\ b_name b = nm;
  kwf_fresh : forall h, is_Some (kvs_heap k !! h) -> (h < kvs_next k)%nat
}.

(** The contents: buckets by name, objects by key. *)
Definition kvs_view (k : MDSKVS) (nm : str) : option (str -> option ObjectInfo) :=
  (fun h => view (bucket_at h k)) <$> mfind nm (kvs_map k).

#[export] Hint Resolve kwf_sorted : geds.

Lemma kwf_bucket_at k nm h :
  kvs_wf k -> mfind nm (kvs_map k) = Some h ->
  kvs_heap k !! h = Some (bucket_at h k) /\ wf (bucket_at h k) /\ b_name (bucket_at h k) = nm.
Proof.
  intros Hw Hf. destruct (kwf_live k Hw _ _ Hf) as (b & Hb & Hwb & Hn).
  unfold bucket_at. by rewrite Hb.
Qed.

Lemma kwf_inj k n1 n2 h :
  kvs_wf k -> mfind n1 (kvs_map k) = Some h -> mfind n2 (kvs_map k) = Some h -> n1 = n2.
Proof.
  intros Hw H1 H2. destruct (kwf_bucket_at _ _ _ Hw H1) as (_ & _ & <-).
  by destruct (kwf_bucket_at _ _ _ Hw H2) as (_ & _ & <-).
Qed.

(** ** The abstract store *)

Module KvsSpec.
Abbreviation state := (gmap str (gmap str ObjectInfo)).

Inductive op :=
| CreateBucket (nm : str)
| DeleteBucket (nm : str)
| ListBuckets
| BucketStatus (nm : str)
| CreateObject (o : Object) (force : bool)
| UpdateObject (o : Object)
| DeleteObject (i : ObjectID)
| DeleteObjectPrefix (i : ObjectID)
| Lookup (i : ObjectID)
| ListObjects (i : ObjectID) (d : ascii).

Inductive res :=
| RStatus (s : Status)
| RBuckets (r : StatusOr (list str))
| RObject (r : StatusOr Object)
| RListing (r : StatusOr (list Object * list str)).

#[global] Instance res_eq_dec : EqDecision res.
Proof. solve_decision. Defined.

Definition no_bucket (nm : str) : Status := NotFoundError ("Bucket " ++ nm ++ " does not exist.").
Definition no_key (k : str) : Status := NotFoundError ("Key " ++ k ++ " does not exist.").

(** One operation on the abstract store and the result it may give. *)
Definition step (s : state) (a : op) (s' : state) (r : res) : Prop :=
  match a with
  | CreateBucket nm =>
      match s !! nm with
      | Some _ => s' = s /\ r = RStatus (AlreadyExistsError ("Bucket " ++ nm ++ " already exists."))
      | None => s' = <[nm := ∅]> s /\ r = RStatus OkStatus
      end
  | DeleteBucket nm =>
      s' = delete nm s /\ r = RStatus (if decide (is_Some (s !! nm)) then OkStatus else no_bucket nm)
  | ListBuckets =>
      s' = s /\ exists l, r = RBuckets (Value l) /\ sorted_keys l /\ (forall nm, nm ∈ l <-> nm ∈ dom s)
  | BucketStatus nm =>
      s' = s /\ r = RStatus (if decide (is_Some (s !! nm)) then OkStatus else no_bucket nm)
  | CreateObject o force =>
      match s !! bucket (id o), force with
      | None, false => s' = s /\ r = RStatus (no_bucket (bucket (id o)))
      | m, _ => s' = <[bucket (id o) := <[key (id o) := info o]> (default ∅ m)]> s /\
                r = RStatus OkStatus
      end
  | UpdateObject o =>
      match s !! bucket (id o) with
      | None => s' = s /\ r = RStatus (no_bucket (bucket (id o)))
      | Some m =>
          match m !! key (id o) with
          | None => s' = s /\ r = RStatus (no_key (key (id o)))
          | Some _ => s' = <[bucket (id o) := <[key (id o) := info o]> m]> s /\ r = RStatus OkStatus
          end
      end
  | DeleteObject i =>
      match s !! bucket i with
      | None => s' = s /\ r = RStatus (no_bucket (bucket i))
      | Some m => s' = <[bucket i := delete (key i) m]> s /\
          r = RStatus (if decide (is_Some (m !! key i)) then OkStatus else no_key (key i))
      end
  | DeleteObjectPrefix i =>
      match s !! bucket i with
      | None => s' = s /\ r = RStatus (no_bucket (bucket i))
      | Some m => s' = <[bucket i := filter (fun e => starts_with (key i) (fst e) = false) m]> s /\
          exists st, r = RStatus st /\ prefix_status (fun k => m !! k) (key i) st
      end
  | Lookup i =>
      s' = s /\
      r = RObject (match s !! bucket i with
                   | None => Error (no_bucket (bucket i))
                   | Some m => match m !! key i with
                               | None => Error (no_key (key i))
                               | Some x => Value (mkObject i x)
                               end
                   end)
  | ListObjects i d =>
      s' = s /\
      match s !! bucket i with
      | None => r = RListing (Error (no_bucket (bucket i)))
      | Some m => exists objs cps, r = RListing (Value (objs, cps)) /\
          listing_of (bucket i) (fun k => m !! k) (key i) d objs cps
      end
  end.

Inductive steps : state -> list (op * res) -> state -> Prop :=
| steps_nil s : steps s [] s
| steps_cons s s' s'' a r t : step s a s' r -> steps s' t s'' -> steps s ((a, r) :: t) s''.
End KvsSpec.

Import KvsSpec (op, res, RStatus, RBuckets, RObject, RListing).

(** The operations of [MDSKVS] under one signature. *)
Definition kvs_exec (k : MDSKVS) (a : op) : MDSKVS * res :=
  match a with
  | KvsSpec.CreateBucket nm => let '(k, s) := createBucket nm k in (k, RStatus s)
  | KvsSpec.DeleteBucket nm => let '(k, s) := deleteBucket nm k in (k, RStatus s)
  | KvsSpec.ListBuckets => (k, RBuckets (listBuckets k))
  | KvsSpec.BucketStatus nm => (k, RStatus (bucketStatus nm k))
  | KvsSpec.CreateObject o f => let '(k, s) := kvs_createObject o f k in (k, RStatus s)
  | KvsSpec.UpdateObject o => let '(k, s) := kvs_updateObject o k in (k, RStatus s)
  | KvsSpec.DeleteObject i => let '(k, s) := kvs_deleteObject (bucket i) (key i) k in (k, RStatus s)
  | KvsSpec.DeleteObjectPrefix i =>
      let '(k, s) := kvs_deleteObjectPrefix (bucket i) (key i) k in (k, RStatus s)
  | KvsSpec.Lookup i => (k, RObject (kvs_lookup (bucket i) (key i) k))
  | KvsSpec.ListObjects i d => (k, RListing (kvs_listObjects (bucket i) (key i) d k))
  end.

Fixpoint kvs_run (k : MDSKVS) (ops : list op) : MDSKVS * list (op * res) :=
  match ops with
  | [] => (k, [])
  | a :: ops => let '(k, r) := kvs_exec k a in
                let '(k, t) := kvs_run k ops in (k, (a, r) :: t)
  end.

Record kvs_abs (k : MDSKVS) (s : KvsSpec.state) : Prop := {
  ka_wf : kvs_wf k;
  ka_map : forall nm,
    match mfind nm (kvs_map k), s !! nm with
    | Some h, Some m => forall ky, view (bucket_at h k) ky = m !! ky
    | None, None => True
    | _, _ => False
    end
}.

(** ** Refinement *)

Lemma kvs_abs_Some k s nm h :
  kvs_abs k s -> mfind nm (kvs_map k) = Some h ->
  exists m, s !! nm = Some m /\ abs (bucket_at h k) m /\ b_name (bucket_at h k) = nm.
Proof.
  intros [Hw Hm] Hf. specialize (Hm nm). rewrite Hf in Hm.
  destruct (s !! nm) as [m|]; [|done]. exists m.
  destruct (kwf_bucket_at _ _ _ Hw Hf) as (_ & Hb & Hn). done.
Qed.

Lemma kvs_abs_None k s nm : kvs_abs k s -> mfind nm (kvs_map k) = None -> s !! nm = None.
Proof.
  intros [Hw Hm] Hf. specialize (Hm nm). rewrite Hf in Hm. by destruct (s !! nm).
Qed.

(** Case analysis on the bucket an operation addresses. *)
Ltac bucket_cases Habs nm h m E :=
  let Hm := fresh "Hm" in let Hb := fresh "Hb" in let Hn := fresh "Hn" in
  unfold getBucket; destruct (mfind nm (kvs_map _)) as [h|] eqn:E;
  [ destruct (kvs_abs_Some _ _ _ _ Habs E) as (m & Hm & Hb & Hn); rewrite ?Hm
  | rewrite ?(kvs_abs_None _ _ _ Habs E) ].

(** Replacing the bucket a name refers to. *)
Lemma on_bucket_abs k s nm h m' f :
  kvs_abs k s -> mfind nm (kvs_map k) = Some h ->
  abs (fst (f (bucket_at h k))) m' -> b_name (fst (f (bucket_at h k))) = nm ->
  kvs_abs (fst (on_bucket h f k)) (<[nm := m']> s).
Proof.
  intros [Hw Hm] Hf Ha Hn. unfold on_bucket.
  destruct (f (bucket_at h k)) as [b' st]. simpl in *.
  assert (Hat : forall n, bucket_at n (mkKVS (kvs_map k) (<[h:=b']> (kvs_heap k)) (kvs_next k)) =
                if decide (h = n) then b' else bucket_at n k).
  { intros n. unfold bucket_at. simpl. rewrite lookup_insert. by case_decide. }
  split; [split|]; simpl.
  - apply Hw.
  - intros nm' h' Hf'. rewrite lookup_insert. case_decide as Hd; [subst h'|by apply Hw].
    assert (nm' = nm) as -> by (by eapply kwf_inj). exists b'. by destruct Ha.
  - intros h' Hs. destruct (decide (h = h')) as [<-|Hd].
    + destruct (kwf_bucket_at k nm h Hw Hf) as [Hb _]. eapply kwf_fresh; eauto.
    + rewrite lookup_insert_ne in Hs by done. by eapply kwf_fresh.
  - intros nm'. specialize (Hm nm'). destruct (decide (nm = nm')) as [<-|Hd].
    + rewrite Hf, lookup_insert_eq. intros ky. rewrite Hat, decide_True by done. apply Ha.
    + rewrite lookup_insert_ne by done.
      destruct (mfind nm' (kvs_map k)) as [h'|] eqn:Hf'; [|done].
      rewrite Hat, decide_False; [done|]. intros <-. apply Hd. by eapply kwf_inj.
Qed.

Lemma on_bucket_snd h f k : snd (on_bucket h f k) = snd (f (bucket_at h k)).
Proof. unfold on_bucket. by destruct (f _). Qed.

Lemma on_bucket_eq h f k : on_bucket h f k = (fst (on_bucket h f k), snd (f (bucket_at h k))).
Proof. rewrite <- on_bucket_snd. by destruct (on_bucket h f k). Qed.

(** An operation that is one of the bucket's own mutators. *)
Lemma on_bucket_apply k s nm h m a f :
  kvs_abs k s -> mfind nm (kvs_map k) = Some h -> s !! nm = Some m ->
  (forall b, fst (f b) = bucket_apply b a) ->
  kvs_abs (fst (on_bucket h f k)) (<[nm := BucketSpec.apply m a]> s).
Proof.
  intros Habs Hf Hm Hfa. destruct (kvs_abs_Some _ _ _ _ Habs Hf) as (m' & Hm' & Hb & Hn).
  rewrite Hm in Hm'. injection Hm' as <-.
  eapply on_bucket_abs; [done|done|..]; rewrite Hfa.
  - by apply bucket_apply_abs.
  - by rewrite bucket_apply_name.
Qed.

Lemma createBucket_abs k s nm :
  kvs_abs k s -> mfind nm (kvs_map k) = None ->
  kvs_abs (fst (createBucket nm k)) (<[nm := ∅]> s).
Proof.
  intros [Hw Hm] Hf. unfold createBucket. rewrite Hf. simpl.
  set (k' := mkKVS _ _ _).
  assert (Hold : forall n h, mfind n (kvs_map k) = Some h -> h <> kvs_next k).
  { intros n h Hn ->. destruct (kwf_bucket_at k _ _ Hw Hn) as [Hb _].
    assert (kvs_next k < kvs_next k)%nat by (eapply kwf_fresh; eauto). lia. }
  split; [split|]; simpl.
  - apply massign_sorted, Hw.
  - intros n h. rewrite (mfind_massign (K := str)). case_decide as Hd.
    + intros [= <-]. rewrite lookup_insert_eq. exists (newBucket nm). split_and!; [done| |by subst].
      apply newBucket_wf.
    + intros Hn. rewrite lookup_insert_ne by (apply not_eq_sym; by eapply Hold). by apply Hw.
  - intros h. rewrite lookup_insert. case_decide as Hd; [lia|]. intros Hs.
    assert (h < kvs_next k)%nat by (by eapply kwf_fresh). lia.
  - intros n. rewrite (mfind_massign (K := str)), lookup_insert. case_decide as Hd.
    + intros ky. unfold bucket_at. simpl. rewrite lookup_insert_eq. simpl. by rewrite lookup_empty.
    + specialize (Hm n). destruct (mfind n (kvs_map k)) as [h|] eqn:Hn; [|done].
      unfold bucket_at, k'. simpl. rewrite lookup_insert_ne by (apply not_eq_sym; by eapply Hold).
      done.
Qed.

Lemma createBucket_find k nm :
  mfind nm (kvs_map k) = None -> mfind nm (kvs_map (fst (createBucket nm k))) = Some (kvs_next k).
Proof. intros Hf. unfold createBucket. rewrite Hf. simpl. apply mfind_massign_eq. Qed.

Lemma deleteBucket_abs k s nm :
  kvs_abs k s -> kvs_abs (fst (deleteBucket nm k)) (delete nm s).
Proof.
  intros Habs. pose proof Habs as [Hw Hm]. unfold deleteBucket.
  destruct (mfind nm (kvs_map k)) as [h|] eqn:Hf; simpl.
  2: { rewrite delete_id; [done|]. by eapply kvs_abs_None. }
  assert (Hk : forall n, mfind n (merase nm (kvs_map k)) =
                         if decide (nm = n) then None else mfind n (kvs_map k)).
  { intros n. apply mfind_merase, Hw. }
  split; [split|]; simpl; [apply merase_sorted, Hw| |apply Hw|].
  - intros n h'. rewrite Hk. case_decide; [done|]. apply Hw.
  - intros n. rewrite Hk, lookup_delete. case_decide; [done|]. exact (Hm n).
Qed.

Lemma getBucket_status k s nm :
  kvs_abs k s ->
  bucketStatus nm k = if decide (is_Some (s !! nm)) then OkStatus else KvsSpec.no_bucket nm.
Proof.
  intros Habs. unfold bucketStatus. bucket_cases Habs nm h m E.
  - by rewrite decide_True by eauto.
  - rewrite decide_False; [done|]. intros []. done.
Qed.

Lemma listBuckets_spec k s :
  kvs_abs k s ->
  sorted_keys (keys (kvs_map k)) /\ forall nm, nm ∈ keys (kvs_map k) <-> nm ∈ dom s.
Proof.
  intros [Hw Hm]. split; [apply Hw|]. intros nm. rewrite <- mfind_keys by apply Hw.
  rewrite elem_of_dom. specialize (Hm nm). unfold is_Some.
  destruct (mfind nm (kvs_map k)), (s !! nm); naive_solver.
Qed.

(** Each operation simulates the abstract one. *)
Lemma sim_CreateObject k s o f :
  kvs_abs k s ->
  exists s', KvsSpec.step s (KvsSpec.CreateObject o f) s' (snd (kvs_exec k (KvsSpec.CreateObject o f)))
             /\ kvs_abs (fst (kvs_exec k (KvsSpec.CreateObject o f))) s'.
Proof.
  intros Habs. unfold kvs_exec, kvs_createObject, KvsSpec.step.
  bucket_cases Habs (bucket (id o)) h m E.
  - rewrite on_bucket_eq. eexists. split; [done|]. simpl.
    exact (on_bucket_apply _ _ _ _ _ (BucketSpec.Create o) (bucket_createObject o) Habs E Hm
             (fun _ => eq_refl)).
  - destruct f; simpl; [|by eexists].
    pose proof (createBucket_abs _ _ _ Habs E) as Habs'.
    pose proof (createBucket_find _ _ E) as E'.
    assert (snd (createBucket (bucket (id o)) k) = OkStatus) as Hok
      by (unfold createBucket; by rewrite E).
    destruct (createBucket (bucket (id o)) k) as [k' st]. simpl in *. subst st. simpl.
    rewrite E'. rewrite on_bucket_eq. eexists. split; [done|]. simpl.
    pose proof (on_bucket_apply _ _ _ _ _ (BucketSpec.Create o) (bucket_createObject o) Habs' E'
                  (lookup_insert_eq _ _ _) (fun _ => eq_refl)) as Hr.
    by rewrite insert_insert_eq in Hr.
Qed.

Lemma sim_UpdateObject k s o :
  kvs_abs k s ->
  exists s', KvsSpec.step s (KvsSpec.UpdateObject o) s' (snd (kvs_exec k (KvsSpec.UpdateObject o)))
             /\ kvs_abs (fst (kvs_exec k (KvsSpec.UpdateObject o))) s'.
Proof.
  intros Habs. unfold kvs_exec, kvs_updateObject, KvsSpec.step.
  bucket_cases Habs (bucket (id o)) h m E; [|by eexists].
  pose proof (on_bucket_apply _ _ _ _ _ (BucketSpec.Update o) (bucket_updateObject o) Habs E Hm
                (fun _ => eq_refl)) as Hr.
  rewrite on_bucket_eq. simpl in *. destruct Hb as [Hwb Hv].
  assert (Hst : snd (bucket_updateObject o (bucket_at h k)) =
                match m !! key (id o) with Some _ => OkStatus | None => KvsSpec.no_key (key (id o)) end).
  { rewrite <- Hv. unfold bucket_updateObject, getObject.
    destruct (mfind (mkPath (key (id o))) _) as [c|] eqn:Ec.
    - by rewrite (view_read _ _ c Hwb Ec).
    - by rewrite (proj2 (view_mfind _ _ Hwb) Ec). }
  rewrite Hst. destruct (m !! key (id o)) eqn:Ek.
  - by eexists.
  - exists s. split; [done|]. by rewrite insert_id in Hr.
Qed.

Lemma sim_DeleteObject k s i :
  kvs_abs k s ->
  exists s', KvsSpec.step s (KvsSpec.DeleteObject i) s' (snd (kvs_exec k (KvsSpec.DeleteObject i)))
             /\ kvs_abs (fst (kvs_exec k (KvsSpec.DeleteObject i))) s'.
Proof.
  intros Habs. unfold kvs_exec, kvs_deleteObject, KvsSpec.step.
  bucket_cases Habs (bucket i) h m E; [|by eexists].
  pose proof (on_bucket_apply _ _ _ _ _ (BucketSpec.Delete (key i)) (bucket_deleteObject (key i))
                Habs E Hm (fun _ => eq_refl)) as Hr.
  rewrite on_bucket_eq. simpl in *. destruct Hb as [Hwb Hv]. eexists. split; [|exact Hr].
  split; [done|]. f_equal. rewrite <- Hv. unfold bucket_deleteObject.
  destruct (mfind (mkPath (key i)) _) as [c|] eqn:Ec.
  - rewrite (view_read _ _ c Hwb Ec). by rewrite decide_True by eauto.
  - rewrite (proj2 (view_mfind _ _ Hwb) Ec). rewrite decide_False; [done|]. by intros [].
Qed.

Lemma prefix_status_ext f g pre st :
  (forall k, f k = g k) -> prefix_status f pre st -> prefix_status g pre st.
Proof. intros E. unfold prefix_status, all_before. by setoid_rewrite E. Qed.

Lemma listing_of_ext nm f g pre d objs cps :
  (forall k, f k = g k) -> listing_of nm f pre d objs cps -> listing_of nm g pre d objs cps.
Proof. intros E. unfold listing_of. by setoid_rewrite E. Qed.

Lemma sim_DeleteObjectPrefix k s i :
  kvs_abs k s ->
  exists s', KvsSpec.step s (KvsSpec.DeleteObjectPrefix i) s'
               (snd (kvs_exec k (KvsSpec.DeleteObjectPrefix i)))
             /\ kvs_abs (fst (kvs_exec k (KvsSpec.DeleteObjectPrefix i))) s'.
Proof.
  intros Habs. unfold kvs_exec, kvs_deleteObjectPrefix, KvsSpec.step.
  bucket_cases Habs (bucket i) h m E; [|by eexists].
  pose proof (on_bucket_apply _ _ _ _ _ (BucketSpec.DeletePrefix (key i))
                (bucket_deleteObjectPrefix (key i)) Habs E Hm (fun _ => eq_refl)) as Hr.
  rewrite on_bucket_eq. simpl in *. destruct Hb as [Hwb Hv]. eexists. split; [|exact Hr].
  split; [done|]. eexists. split; [done|].
  eapply prefix_status_ext; [exact Hv|]. by apply bucket_deleteObjectPrefix_status.
Qed.

Lemma kvs_exec_sim k s a :
  kvs_abs k s ->
  exists s', KvsSpec.step s a s' (snd (kvs_exec k a)) /\ kvs_abs (fst (kvs_exec k a)) s'.
Proof.
  intros Habs.
  destruct a as [nm|nm| |nm|o f|o|i|i|i|i d];
    [| | | |by apply sim_CreateObject|by apply sim_UpdateObject|by apply sim_DeleteObject
     |by apply sim_DeleteObjectPrefix| |]; unfold kvs_exec, KvsSpec.step.
  - destruct (mfind nm (kvs_map k)) as [h|] eqn:E.
    + destruct (kvs_abs_Some _ _ _ _ Habs E) as (m & -> & _). unfold createBucket.
      rewrite E. by eexists.
    + pose proof (createBucket_abs _ _ _ Habs E) as Ha. rewrite (kvs_abs_None _ _ _ Habs E).
      unfold createBucket in *. rewrite E in *. by eexists.
  - exists (delete nm s). pose proof (deleteBucket_abs k s nm Habs) as Ha.
    pose proof (getBucket_status k s nm Habs) as Hs. unfold bucketStatus in Hs.
    unfold deleteBucket in *. destruct (mfind nm (kvs_map k)); simpl in *; by rewrite <- Hs.
  - exists s. split; [|done]. split; [done|]. destruct (listBuckets_spec k s Habs). by eexists.
  - exists s. simpl. by rewrite (getBucket_status k s nm Habs).
  - exists s. split; [|done]. split; [done|]. simpl. f_equal. unfold kvs_lookup.
    bucket_cases Habs (bucket i) h m E; [|done]. destruct Hb as [Hwb Hv].
    rewrite bucket_lookup_view, Hv, Hn by done. destruct (m !! key i); [|done]. by destruct i.
  - exists s. split; [|done]. split; [done|]. simpl. unfold kvs_listObjects.
    bucket_cases Habs (bucket i) h m E; [|done]. destruct Hb as [Hwb Hv].
    destruct (bucket_listObjects_total (key i) d (bucket_at h k)) as (objs & cps & El).
    exists objs, cps. rewrite El. split; [done|]. rewrite <- Hn.
    eapply listing_of_ext; [exact Hv|]. by apply bucket_listObjects_spec.
Qed.

Lemma kvs_run_sim k s ops :
  kvs_abs k s -> exists s', KvsSpec.steps s (snd (kvs_run k ops)) s' /\ kvs_abs (fst (kvs_run k ops)) s'.
Proof.
  revert k s. induction ops as [|a ops IH]; intros k s Habs; simpl.
  { exists s. split; [constructor|done]. }
  destruct (kvs_exec_sim k s a Habs) as (s1 & Hstep & Habs1).
  destruct (kvs_exec k a) as [k1 r]. simpl in *.
  destruct (IH k1 s1 Habs1) as (s2 & Hsteps & Habs2).
  destruct (kvs_run k1 ops) as [k2 t]. simpl in *.
  exists s2. split; [|done]. by econstructor.
Qed.

Lemma emptyKVS_abs : kvs_abs emptyKVS ∅.
Proof.
  split; [split|]; simpl; [done..| |done]. intros h [x Hx]. by rewrite lookup_empty in Hx.
Qed.

Lemma newKVS_abs db :
  kvs_abs (newKVS db) (match db with Some nm => {[nm := ∅]} | None => ∅ end).
Proof.
  destruct db as [nm|]; [|apply emptyKVS_abs].
  exact (createBucket_abs _ _ nm emptyKVS_abs eq_refl).
Qed.

(** ** Concurrent forced creation *)

(** [createObject] takes the store's lock separately for each of its calls to
    [getBucket] and [createBucket], and the bucket's lock for the insertion. A
    call with [forceCreateBucket] is at one of these points: *)
Inductive cpc :=
| CGet                  (** before the first [getBucket] *)
| CCreate               (** the bucket was missing: before [createBucket] *)
| CGet2                 (** before the second [getBucket] *)
| CInsert (h : nat)     (** before the insertion into the bucket *)
| CDone (s : Status).

(** What a call does next, under one lock. *)
Definition cnext (o : Object) (pc : cpc) (k : MDSKVS) : MDSKVS * cpc :=
  match pc with
  | CGet => match getBucket (bucket (id o)) k with
            | Value h => (k, CInsert h)
            | Error _ => (k, CCreate)
            end
  | CCreate => let '(k, s) := createBucket (bucket (id o)) k in
               (k, if ok s then CGet2 else CDone s)
  | CGet2 => match getBucket (bucket (id o)) k with
             | Value h => (k, CInsert h)
             | Error s => (k, CDone s)
             end
  | CInsert h => let '(k, s) := on_bucket h (bucket_createObject o) k in (k, CDone s)
  | CDone s => (k, CDone s)
  end.

Record kconf := mkKConf { kc_kvs : MDSKVS; kc_calls : list (Object * cpc) }.

(** The calls interleave with each other and with bucket creation and deletion. *)
Inductive kvs_step : kconf -> kconf -> Prop :=
| kstep_call k calls i o pc :
    calls !! i = Some (o, pc) ->
    kvs_step (mkKConf k calls)
      (mkKConf (fst (cnext o pc k)) (<[i := (o, snd (cnext o pc k))]> calls))
| kstep_createBucket k calls nm :
    kvs_step (mkKConf k calls) (mkKConf (fst (createBucket nm k)) calls)
| kstep_deleteBucket k calls nm :
    kvs_step (mkKConf k calls) (mkKConf (fst (deleteBucket nm k)) calls).

(** A call between [getBucket] and the insertion holds a live bucket of its
    name; a finished one has one of three results. *)
Definition call_ok (k : MDSKVS) (c : Object * cpc) : Prop :=
  let nm := bucket (id (fst c)) in
  match snd c with
  | CInsert h => exists b, kvs_heap k !! h = Some b /\ wf b /\ b_name b = nm
  | CDone s => s = OkStatus \/ s = AlreadyExistsError ("Bucket " ++ nm ++ " already exists.") \/
               s = KvsSpec.no_bucket nm
  | _ => True
  end.

Definition kconf_wf (g : kconf) : Prop :=
  kvs_wf (kc_kvs g) /\ Forall (call_ok (kc_kvs g)) (kc_calls g).

(** The buckets a change of the store keeps: every live one, under its name. *)
Definition heap_le (k k' : MDSKVS) : Prop :=
  forall h b, kvs_heap k !! h = Some b -> wf b ->
    exists b', kvs_heap k' !! h = Some b' /\ wf b' /\ b_name b' = b_name b.

Lemma heap_le_refl k : heap_le k k.
Proof. intros h b. eauto. Qed.

Lemma call_ok_mono k k' c : heap_le k k' -> call_ok k c -> call_ok k' c.
Proof.
  intros Hle. unfold call_ok. destruct (snd c); try done.
  intros (b & Hb & Hwb & Hn). destruct (Hle _ _ Hb Hwb) as (b' & ? & ? & ?).
  exists b'. split_and!; congruence.
Qed.

Lemma createBucket_step nm k :
  kvs_wf k -> kvs_wf (fst (createBucket nm k)) /\ heap_le k (fst (createBucket nm k)).
Proof.
  intros Hw. unfold createBucket. destruct (mfind nm (kvs_map k)) eqn:E; simpl.
  { split; [done|apply heap_le_refl]. }
  assert (Hfr : forall h, is_Some (kvs_heap k !! h) -> h <> kvs_next k).
  { intros h Hs ->. apply (kwf_fresh k Hw) in Hs. lia. }
  split; [split|]; simpl.
  - apply massign_sorted, Hw.
  - intros n h. rewrite (mfind_massign (K := str)). case_decide as Hd.
    + intros [= <-]. rewrite lookup_insert_eq. eexists. split_and!; [done|apply newBucket_wf|by subst].
    + intros Hn. destruct (kwf_live k Hw _ _ Hn) as (b & Hb & ?).
      rewrite lookup_insert_ne; [eauto|]. apply not_eq_sym, Hfr. eauto.
  - intros h. rewrite lookup_insert. case_decide; [lia|].
    intros Hs%(kwf_fresh k Hw). lia.
  - intros h b Hb Hwb. simpl. rewrite lookup_insert_ne; [eauto|]. apply not_eq_sym, Hfr. eauto.
Qed.

Lemma deleteBucket_step nm k :
  kvs_wf k -> kvs_wf (fst (deleteBucket nm k)) /\ heap_le k (fst (deleteBucket nm k)).
Proof.
  intros Hw. unfold deleteBucket.
  destruct (mfind nm (kvs_map k)) as [h0|]; simpl; (split; [|intros h b; eauto]); [|done].
  split; simpl; [apply merase_sorted, Hw| |apply Hw].
  intros n h. rewrite (mfind_merase (K := str)) by apply Hw. case_decide; [done|]. apply Hw.
Qed.

Lemma insert_step o h b k :
  kvs_wf k -> kvs_heap k !! h = Some b -> wf b ->
  let k' := fst (on_bucket h (bucket_createObject o) k) in kvs_wf k' /\ heap_le k k'.
Proof.
  intros Hw Hb Hwb. assert (bucket_at h k = b) as Hat by (unfold bucket_at; by rewrite Hb).
  pose proof (createObject_wf o b Hwb) as Hwc.
  unfold on_bucket. rewrite Hat. destruct (bucket_createObject o b) as [b' st] eqn:Ec.
  assert (b_name b' = b_name b) as Hnm by (by injection Ec as <- _).
  simpl in *. split; [split|]; simpl; [apply Hw| | |].
  - intros n h' Hn. destruct (kwf_live k Hw _ _ Hn) as (b2 & Hb2 & Hw2 & Hn2).
    rewrite lookup_insert. case_decide; [subst h'; exists b'; split_and!; congruence|eauto].
  - intros h'. rewrite lookup_insert. case_decide; [|apply Hw].
    subst. intros _. apply (kwf_fresh k Hw). eauto.
  - intros h' b2 Hb2 Hw2. simpl. rewrite lookup_insert.
    case_decide; [subst h'; exists b'; split_and!; congruence|eauto].
Qed.

Lemma cnext_step o pc k :
  kvs_wf k -> call_ok k (o, pc) ->
  let '(k', pc') := cnext o pc k in kvs_wf k' /\ heap_le k k' /\ call_ok k' (o, pc').
Proof.
  intros Hw Hc. destruct pc as [| | |h|s]; simpl.
  - unfold getBucket. destruct (mfind _ _) as [h|] eqn:E;
      (split_and!; [done|apply heap_le_refl|]); [|done]. simpl. by apply Hw.
  - destruct (createBucket_step (bucket (id o)) k Hw) as [H1 H2].
    unfold createBucket in *. destruct (mfind _ _) eqn:E; simpl in *; split_and!; auto.
    unfold call_ok; simpl; auto.
  - unfold getBucket. destruct (mfind _ _) as [h|] eqn:E;
      (split_and!; [done|apply heap_le_refl|]); unfold call_ok; simpl; [|auto]. by apply Hw.
  - destruct Hc as (b & Hb & Hwb & Hn). pose proof (insert_step o h b k Hw Hb Hwb) as Hi.
    rewrite on_bucket_eq in *. simpl in *. split_and!; [apply Hi..|]. unfold call_ok; simpl; auto.
  - split_and!; [done|apply heap_le_refl|done].
Qed.

Lemma kvs_step_wf g g' : kvs_step g g' -> kconf_wf g -> kconf_wf g'.
Proof.
  intros Hst [Hw Hc]. destruct Hst as [k calls i o pc Hi|k calls nm|k calls nm]; simpl in *.
  - assert (call_ok k (o, pc)) as Hci.
    { apply (Forall_elem _ _ _ Hc). by eapply list_elem_of_lookup_2. }
    pose proof (cnext_step o pc k Hw Hci) as Hn.
    destruct (cnext o pc k) as [k' pc']. destruct Hn as (Hw' & Hle & Hc').
    split; simpl; [done|]. apply Forall_intro. intros c Hin.
    apply list_elem_of_lookup_1 in Hin as [j Hj].
    destruct (decide (i = j)) as [<-|Hne].
    + rewrite list_lookup_insert_eq in Hj by (by eapply lookup_lt_Some). by injection Hj as <-.
    + rewrite list_lookup_insert_ne in Hj by done. eapply call_ok_mono; [done|].
      apply (Forall_elem _ _ _ Hc). by eapply list_elem_of_lookup_2.
  - destruct (createBucket_step nm k Hw) as [H1 H2]. split; simpl; [done|].
    eapply Forall_impl; [|exact Hc]. intros c. by apply call_ok_mono.
  - destruct (deleteBucket_step nm k Hw) as [H1 H2]. split; simpl; [done|].
    eapply Forall_impl; [|exact Hc]. intros c. by apply call_ok_mono.
Qed.

Lemma kvs_steps_wf g g' : rtc kvs_step g g' -> kconf_wf g -> kconf_wf g'.
Proof. induction 1; eauto using kvs_step_wf. Qed.

(** A call that runs alone, to its end. *)
Fixpoint calone (n : nat) (o : Object) (pc : cpc) (k : MDSKVS) : MDSKVS * cpc :=
  match n with
  | O => (k, pc)
  | S n => let '(k, pc) := cnext o pc k in calone n o pc k
  end.

(** ** Properties *)

(** C2: the metadata store implements a map from bucket names to maps from
    keys to object information. For any sequence of the ten operations, started
    on a new store, the results, statuses and error messages included, are those
    of the abstract store, and the final states correspond. *)
Theorem kvs_refines_spec db ops :
  exists s', KvsSpec.steps (match db with Some nm => {[nm := ∅]} | None => ∅ end)
               (snd (kvs_run (newKVS db) ops)) s' /\
             kvs_abs (fst (kvs_run (newKVS db) ops)) s'.
Proof. apply kvs_run_sim, newKVS_abs. Qed.

(** Calls of [createObject] with [forceCreateBucket] that interleave at
    the grain of the locks, with each other and with creation and deletion of
    buckets, keep the store well-formed, and a finished call has stored its
    object (OK) or lost a race: AlreadyExists when another call created the
    bucket first, NotFound when it was deleted again. Alone, a call takes at
    most four such steps and does what the sequential operation does. *)
Theorem kvs_forced_create_interleaved k objs g :
  kvs_wf k ->
  rtc kvs_step (mkKConf k (map (fun o => (o, CGet)) objs)) g ->
  kvs_wf (kc_kvs g) /\
  (forall o s, (o, CDone s) ∈ kc_calls g ->
     s = OkStatus \/
     s = AlreadyExistsError ("Bucket " ++ bucket (id o) ++ " already exists.") \/
     s = NotFoundError ("Bucket " ++ bucket (id o) ++ " does not exist.")) /\
  (forall o, calone 4 o CGet k =
     (fst (kvs_createObject o true k), CDone (snd (kvs_createObject o true k)))).
Proof.
  intros Hw Hst.
  destruct (kvs_steps_wf _ _ Hst) as [H1 H2].
  { split; [done|]. simpl. apply Forall_map, Forall_intro. done. }
  split_and!; [done|intros o s Hin; exact (Forall_elem _ _ _ H2 Hin)|].
  intros o. unfold kvs_createObject. cbn [calone cnext].
  destruct (getBucket (bucket (id o)) k) as [h|s] eqn:E; cbn [cnext negb].
  - by rewrite on_bucket_eq.
  - destruct (createBucket (bucket (id o)) k) as [k' st]. destruct (ok st); cbn [cnext negb]; [|done].
    destruct (getBucket (bucket (id o)) k') as [h|]; cbn [cnext]; [|done]. by rewrite on_bucket_eq.
Qed.

(** Two calls race for the bucket [b]: the second one fails and its object is
    not stored. *)
Definition race_o1 : Object := mkObject (mkID "b" "x") (mkInfo "h:1" 1 1 None).
Definition race_o2 : Object := mkObject (mkID "b" "y") (mkInfo "h:2" 2 2 None).

Definition race_end : kconf :=
  let k1 := fst (createBucket "b" emptyKVS) in
  mkKConf (fst (on_bucket 0 (bucket_createObject race_o1) k1))
    [(race_o1, CDone OkStatus); (race_o2, CDone (AlreadyExistsError "Bucket b already exists."))].

Lemma kvs_race_steps :
  rtc kvs_step (mkKConf emptyKVS (map (fun o => (o, CGet)) [race_o1; race_o2])) race_end /\
  kvs_lookup "b" "y" (kc_kvs race_end) = Error (NotFoundError "Key y does not exist.").
Proof.
  split; [|vm_compute; reflexivity].
  eapply rtc_l; [apply (kstep_call _ _ 0 race_o1 CGet); reflexivity|].
  eapply rtc_l; [apply (kstep_call _ _ 1 race_o2 CGet); reflexivity|].
  eapply rtc_l; [apply (kstep_call _ _ 0 race_o1 CCreate); reflexivity|].
  eapply rtc_l; [apply (kstep_call _ _ 1 race_o2 CCreate); reflexivity|].
  eapply rtc_l; [apply (kstep_call _ _ 0 race_o1 CGet2); reflexivity|].
  eapply rtc_l; [apply (kstep_call _ _ 0 race_o1 (CInsert 0)); reflexivity|].
  apply rtc_refl.
Qed.

Lemma kvs_forced_create_interleaved_witness :
  kvs_wf (kc_kvs race_end) /\
  snd (default (race_o1, CGet) (kc_calls race_end !! 1%nat)) =
    CDone (AlreadyExistsError "Bucket b already exists.") /\
  kvs_lookup "b" "y" (kc_kvs race_end) = Error (NotFoundError "Key y does not exist.").
Proof.
  split.
  - exact (proj1 (kvs_forced_create_interleaved emptyKVS [race_o1; race_o2] race_end
                    (ka_wf _ _ emptyKVS_abs) (proj1 kvs_race_steps))).
  - split; [reflexivity|exact (proj2 kvs_race_steps)].
Defined.
