(* ===== verification/S3Endpoint.v ===== *)
(** * The S3 endpoint

    [geds::s3::Endpoint] (src/src/s3/S3Endpoint.h, S3Endpoint.cpp). The AWS
    client is not part of the repository: it is the class [S3Client], over the
    state [W] of the service, and what the theorems rely on of S3's documented
    behaviour is the class [S3Service]. *)

From Stdlib Require Import Ascii ZArith Lia.
From stdpp Require Import base gmap sets list strings numbers.
From S2P Require Import Prelude Bytes Decimal Status StdMap Object FileSet.

Open Scope Z_scope.
Open Scope list_scope.

(** ** The client library *)

Inductive S3Errors := NO_SUCH_KEY | ACCESS_DENIED | OTHER_S3_ERROR.

Record S3Error := mkS3Error {
  GetErrorType : S3Errors;
  GetResponseCode : Z;
  GetExceptionName : str;
  GetMessage : str
}.

Inductive s3_outcome (A : Type) :=
| Success (a : A)
| Failure (e : S3Error).
Arguments Success {A} a.
Arguments Failure {A} e.

Record ListObjectsV2Request := mkListRequest {
  lr_bucket : str;
  lr_prefix : str;
  lr_delimiter : option str;
  lr_token : option str;
  lr_maxKeys : option Z
}.

Record ListObjectsV2Result := mkListResult {
  GetContents : list (str * Z);             (** key and size *)
  GetCommonPrefixes : list str;
  GetNextContinuationToken : str
}.

Record GetObjectRequest := mkGetRequest {
  gr_bucket : str;
  gr_key : str;
  gr_range : option str
}.

Record GetObjectResult := mkGetResult { GetBody : str; GetContentLength : Z }.

(** [PutObject] may throw. *)
Inductive put_outcome :=
| PutReturned (r : s3_outcome unit)
| PutThrew (what : str)             (** a [std::exception] *)
| PutThrewUnknown.

Class S3Client (W : Type) := {
  ListObjectsV2 : ListObjectsV2Request -> W -> s3_outcome ListObjectsV2Result;
  HeadObject : str -> str -> W -> s3_outcome Z;
  GetObject : GetObjectRequest -> W -> s3_outcome GetObjectResult;
  DeleteObject : str -> str -> W -> W * s3_outcome unit;
  DeleteObjects : str -> list str -> W -> W * s3_outcome unit;
  (** bucket, key, body, content length *)
  PutObject : str -> str -> str -> option Z -> W -> W * put_outcome
}.

(** ** URLs *)

Definition HTTP : str := "http://".

Definition urlIsHttps (url : str) : bool :=
  if ((length HTTP <=? length url)%nat && starts_with HTTP url) then false else true.

Definition stripHttp (url : str) : str :=
  if ((length HTTP <=? length url)%nat && starts_with HTTP url) then drop (length HTTP) url
  else
    let HTTPS : str := "http://" in
    if ((length HTTPS <=? length url)%nat && starts_with HTTPS url) then drop (length HTTPS) url
    else url.

(** ** The endpoint *)

Record Endpoint := mkEndpoint {
  endpointUrl : str;
  accessKey : str;
  secretKey : str;
  endpointOverride : str;
  scheme_https : bool
}.

Definition newEndpoint (url ak sk : str) : Endpoint :=
  mkEndpoint url ak sk (stripHttp url) (urlIsHttps url).

Definition NOT_FOUND : Z := 404.
Definition UNAUTHORIZED : Z := 401.

Definition convertS3Error (e : S3Error) (action ky : str) : Status :=
  let noKey := match GetErrorType e with NO_SUCH_KEY => true | _ => false end in
  let denied := match GetErrorType e with ACCESS_DENIED => true | _ => false end in
  if noKey || (GetResponseCode e =? NOT_FOUND)
  then NotFoundError ("Unable to " ++ action ++ ": the " ++ ky ++ " does not exist!")
  else if (GetResponseCode e =? UNAUTHORIZED) || denied
  then PermissionDeniedError (GetMessage e)
  else UnknownError ("Unable to " ++ action ++ ": " ++ ky ++ ": " ++ GetMessage e).

Section endpoint.
Context {W : Type} `{S3Client W}.

(** The service and the endpoint's two statistics counters. *)
Record s3_state := mkS3State {
  s3_world : W;
  totalRequestsSent : Z;
  numBytesReadCount : Z
}.

Definition count_request (s : s3_state) : s3_state :=
  mkS3State (s3_world s) (u64 (totalRequestsSent s + 1)) (numBytesReadCount s).

Definition count_bytes (n : Z) (s : s3_state) : s3_state :=
  mkS3State (s3_world s) (totalRequestsSent s) (u64 (numBytesReadCount s + n)).

Definition with_world (w : W) (s : s3_state) : s3_state :=
  mkS3State w (totalRequestsSent s) (numBytesReadCount s).

Definition list_request_of (b prefix : str) (delimiter : ascii) (token : option str) :
    ListObjectsV2Request :=
  mkListRequest b prefix (if bool_decide (delimiter = NUL) then None else Some [delimiter])
    token None.

(** The two loops that add one page to the result. *)
Definition emplace_objects (delimiter : ascii) (objects : list (str * Z))
    (result : list GEDSFileStatus) : list GEDSFileStatus :=
  let folderString := delimiter :: Default_DirectoryMarker in
  fold_left
    (fun result obj =>
       let key := fst obj in
       if bool_decide (delimiter <> NUL) && ends_with folderString key then result
       else set_emplace file_status_lt (mkFileStatus key (u64 (snd obj)) false) result)
    objects result.

Definition emplace_prefixes (prefixes : list str) (result : list GEDSFileStatus) :
    list GEDSFileStatus :=
  fold_left (fun result p => set_emplace file_status_lt (mkFileStatus p 0 true) result)
    prefixes result.

(** [list(bucket, prefix, delimiter, result, continuationToken)]. The recursion
    follows the continuation tokens the service returns; [None] means that
    [fuel] pages were not enough. *)
Fixpoint list_into (fuel : nat) (b prefix : str) (delimiter : ascii)
    (result : list GEDSFileStatus) (continuationToken : option str) (s : s3_state) :
    option (s3_state * list GEDSFileStatus * Status) :=
  match fuel with
  | O => None
  | S fuel =>
      let s := count_request s in
      match ListObjectsV2 (list_request_of b prefix delimiter continuationToken) (s3_world s) with
      | Failure error => Some (s, result, convertS3Error error "list" prefix)
      | Success s3result =>
          let newToken := GetNextContinuationToken s3result in
          let finish s result :=
            Some (s, emplace_prefixes (GetCommonPrefixes s3result)
                       (emplace_objects delimiter (GetContents s3result) result), OkStatus) in
          if bool_decide (newToken <> [])
          then match list_into fuel b prefix delimiter result (Some newToken) s with
               | None => None
               | Some (s, result, subRequest) =>
                   if negb (ok subRequest) then Some (s, result, subRequest)
                   else finish s result
               end
          else finish s result
      end
  end.

(** [list(bucket, prefix, delimiter, continuationToken)] *)
Definition list_delim (fuel : nat) (b prefix : str) (delimiter : ascii)
    (continuationToken : option str) (s : s3_state) :
    option (s3_state * StatusOr (list GEDSFileStatus)) :=
  match list_into fuel b prefix delimiter [] continuationToken s with
  | None => None
  | Some (s, result, status) =>
      Some (s, if negb (ok status) then Error status else Value result)
  end.

(** [list(bucket, prefix)] *)
Definition s3_list (fuel : nat) (b prefix : str) (s : s3_state) :=
  list_delim fuel b prefix NUL None s.

Definition listAsFolder (fuel : nat) (b prefix : str) (s : s3_state) :=
  list_delim fuel b prefix "/" None s.

Definition s3_fileStatus (b ky : str) (s : s3_state) : s3_state * StatusOr GEDSFileStatus :=
  let s := count_request s in
  match HeadObject b ky (s3_world s) with
  | Failure error => (s, Error (convertS3Error error "file status" ky))
  | Success len => (s, Value (mkFileStatus ky (u64 len) false))
  end.

Definition s3_folderStatus (b ky : str) (delimiter : ascii) (s : s3_state) :
    s3_state * StatusOr GEDSFileStatus :=
  let s := count_request s in
  match ListObjectsV2 (mkListRequest b ky None None (Some 1)) (s3_world s) with
  | Failure error => (s, Error (convertS3Error error "folder status" ky))
  | Success result =>
      if bool_decide (GetContents result <> []) || bool_decide (GetCommonPrefixes result <> [])
         || bool_decide (ky = [delimiter])
      then (s, Value (mkFileStatus ky 0 true))
      else (s, Error (NotFoundError ("Folder " ++ ky ++ " not found.")))
  end.

Definition s3_deleteObject (b ky : str) (s : s3_state) : s3_state * Status :=
  let s := count_request s in
  let '(w, r) := DeleteObject b ky (s3_world s) in
  let s := with_world w s in
  match r with
  | Failure error => (s, convertS3Error error "delete object" ky)
  | Success _ => (s, OkStatus)
  end.

(** The loop of [deletePrefix]: batches of at most 1000 keys from [startPos] on. *)
Fixpoint delete_batches (fuel : nat) (b prefix : str) (files : list GEDSFileStatus)
    (startPos : nat) (s : s3_state) : option (s3_state * Status) :=
  match fuel with
  | O => None
  | S fuel =>
      if (startPos <? length files)%nat then
        let endPos := Nat.min (startPos + 1000) (length files) in
        let objects := map fs_key (drop startPos (take endPos files)) in
        let s := count_request s in
        let '(w, r) := DeleteObjects b objects (s3_world s) in
        let s := with_world w s in
        match r with
        | Failure error => Some (s, convertS3Error error "delete prefix" prefix)
        | Success _ => delete_batches fuel b prefix files endPos s
        end
      else Some (s, OkStatus)
  end.

Definition s3_deletePrefix (fuel : nat) (b prefix : str) (s : s3_state) :
    option (s3_state * Status) :=
  match s3_list fuel b prefix s with
  | None => None
  | Some (s, Error st) => Some (s, st)
  | Some (s, Value files) => delete_batches (S (length files)) b prefix files 0 s
  end.

(** [putObject(bucket, key, stream, length)]; exceptions are caught. *)
Definition s3_putObject (b ky body : str) (len : option Z) (s : s3_state) :
    s3_state * Status :=
  let s := count_request s in
  let '(w, r) := PutObject b ky body len (s3_world s) in
  let s := with_world w s in
  match r with
  | PutReturned (Success _) => (s, OkStatus)
  | PutReturned (Failure error) => (s, convertS3Error error "put" ky)
  | PutThrew e => (s, UnknownError ("Caught exception using put: " ++ b ++ "/" ++ ky ++ ": " ++ e))
  | PutThrewUnknown => (s, UnknownError ("Caught exception using an unknown error for put: " ++ b ++ "/" ++ ky))
  end.

(** [putObject(bucket, key, bytes, length)] *)
Definition s3_putObject_bytes (b ky bytes : str) (s : s3_state) : s3_state * Status :=
  s3_putObject b ky bytes None s.

(** The value of the [Range] header. *)
Definition range_header (position len : option Z) : option str :=
  match position, len with
  | None, None => None
  | _, _ =>
      let startPos := default 0 position in
      let endPos := u64 (startPos + default 0 len - 1) in
      Some ("bytes=" ++ (if position then to_string startPos else []) ++ "-" ++
            (if len then to_string endPos else []))
  end.

(** The part of [read] after a successful request: the byte count, and the
    bytes copied to the output stream. *)
Definition read_success (len : option Z) (result : GetObjectResult) (s : s3_state) :
    s3_state * StatusOr (Z * str) :=
  let count := u64 (GetContentLength result) in
  let count := match len with Some l => Z.min l count | None => count end in
  (count_bytes count s, Value (count, take (Z.to_nat count) (GetBody result))).

(** [read(..., retry = true)] *)
Definition s3_read_retry (b ky : str) (position len : option Z) (s : s3_state) :
    s3_state * StatusOr (Z * str) :=
  if bool_decide (len = Some 0) then (s, Value (0, [])) else
  let s := count_request s in
  match GetObject (mkGetRequest b ky (range_header position len)) (s3_world s) with
  | Failure error => (s, Error (convertS3Error error "readBytes" ky))
  | Success result => read_success len result s
  end.

(** [read(..., retry = false)]: the count and the bytes written to the stream. *)
Definition s3_read (b ky : str) (position len : option Z) (s : s3_state) :
    s3_state * StatusOr (Z * str) :=
  if bool_decide (len = Some 0) then (s, Value (0, [])) else
  let s := count_request s in
  match GetObject (mkGetRequest b ky (range_header position len)) (s3_world s) with
  | Success result => read_success len result s
  | Failure error =>
      if bool_decide (GetExceptionName error = "InvalidRange") then
        let '(s, fileInfo) := s3_fileStatus b ky s in
        match fileInfo with
        | Error st => (s, Error st)
        | Value fi =>
            if match position with Some p => fs_size fi <=? p | None => false end
            then (s, Value (0, []))
            else
              match len with
              | Some l =>
                  let pos := default 0 position in
                  let newCount := u64 (Z.min (u64 (pos + l)) (fs_size fi) - pos) in
                  if newCount =? 0 then (s, Value (0, []))
                  else s3_read_retry b ky position (Some newCount) s
              | None => (s, Error (InternalError ("Unable to read " ++ b ++ "/" ++ ky ++ ":" ++
                                                  GetMessage error)))
              end
        end
      else (s, Error (convertS3Error error "readBytes" ky))
  end.

Definition CHUNK : Z := 1024 * 1024 * 1024.

(** The loop of [readBytes]: [count] bytes are in [bytes] already. *)
Fixpoint readBytes_loop (fuel : nat) (b ky : str) (position len count : Z) (bytes : str)
    (s : s3_state) : option (s3_state * StatusOr (Z * str)) :=
  match fuel with
  | O => None
  | S fuel =>
      if count <? len then
        let request := Z.min CHUNK (len - count) in
        match s3_read b ky (Some (u64 (position + count))) (Some request) s with
        | (s, Error st) => Some (s, Error st)
        | (s, Value (n, data)) =>
            if n =? 0 then Some (s, Value (count, bytes))
            else readBytes_loop fuel b ky position len (u64 (count + n)) (bytes ++ data) s
        end
      else Some (s, Value (count, bytes))
  end.

Definition s3_readBytes (fuel : nat) (b ky : str) (position len : Z) (s : s3_state) :
    option (s3_state * StatusOr (Z * str)) :=
  readBytes_loop fuel b ky position len 0 [] s.
End endpoint.
Arguments s3_state W : clear implicits.

(** ** Documented behaviour of the service *)

Definition range_of (a b : Z) : str := "bytes=" ++ to_string a ++ "-" ++ to_string b.

(** A reliable S3 service: listings are returned in pages chained by
    continuation tokens, a byte range is clipped to the object and refused with
    InvalidRange when it starts past the end, and a batch of at most 1000 keys
    is deleted as a whole. *)
Class S3Service (W : Type) `{S3Client W} := {
  contents : W -> str -> str -> option str;
  pages : W -> str -> str -> list (list (str * Z));
  token : nat -> str;
  token_ne i : token i <> [];
  pages_ne w b p : pages w b p <> [];
  pages_at w b p i pg :
    pages w b p !! i = Some pg ->
    ListObjectsV2 (mkListRequest b p None (if (i =? 0)%nat then None else Some (token i)) None) w =
    Success (mkListResult pg []
               (if (S i <? length (pages w b p))%nat then token (S i) else []));
  pages_contents w b p ky n :
    (ky, n) ∈ concat (pages w b p) <->
    starts_with p ky = true /\ exists c, contents w b ky = Some c /\ n = len c;
  object_size w b ky c : contents w b ky = Some c -> len c < 2 ^ 63;
  head_object w b ky c : contents w b ky = Some c -> HeadObject b ky w = Success (len c);
  get_range w b ky c p q :
    contents w b ky = Some c -> 0 <= p <= q -> p < len c ->
    GetObject (mkGetRequest b ky (Some (range_of p q))) w =
    Success (mkGetResult (slice p (q + 1 - p) c) (Z.min (q + 1) (len c) - p));
  get_range_past w b ky c p q :
    contents w b ky = Some c -> len c <= p <= q ->
    exists e, GetObject (mkGetRequest b ky (Some (range_of p q))) w = Failure e /\
      GetExceptionName e = "InvalidRange";
  delete_objects w b ks :
    (length ks <= 1000)%nat ->
    exists w', DeleteObjects b ks w = (w', Success tt) /\
      forall b' k, contents w' b' k =
        if decide (b' = b /\ k ∈ ks) then None else contents w b' k
}.

(** ** Listing *)

Section theory.
Context {W : Type} `{S3Service W}.
Implicit Types (s : s3_state W).

Definition status_of_entry (e : str * Z) : GEDSFileStatus := mkFileStatus (fst e) (u64 (snd e)) false.

Lemma emplace_objects_NUL objs r :
  emplace_objects NUL objs r =
  fold_left (fun acc x => set_emplace file_status_lt x acc) (map status_of_entry objs) r.
Proof.
  unfold emplace_objects. revert r. induction objs as [|o objs IH]; intros r; simpl; [done|].
  apply IH.
Qed.

Definition files_listed (xs : list (str * Z)) (r : list GEDSFileStatus) : Prop :=
  sorted_keys (map fs_key r) /\ Forall is_file r /\ represents r (map status_of_entry xs).

Lemma files_listed_emplace pg xs r :
  files_listed xs r -> files_listed (pg ++ xs) (emplace_objects NUL pg r).
Proof.
  intros (H1 & H2 & H3). rewrite emplace_objects_NUL.
  destruct (emplace_all_same_kind false (map status_of_entry pg) r) as (R1 & R2 & R3); [|done..|].
  { apply Forall_map, Forall_intro. done. }
  split_and!; [done..|]. eapply represents_trans; [exact R3|].
  eapply represents_equiv; [|apply represents_app; [exact H3|apply (represents_refl (map status_of_entry pg))]].
  intros x. rewrite map_app. set_solver.
Qed.

Lemma request_NUL b p tok : list_request_of b p NUL tok = mkListRequest b p None tok None.
Proof. done. Qed.

(** From page [i] on, the recursion terminates and collects the pages. *)
Lemma list_into_pages b p fuel i s :
  (i < length (pages (s3_world s) b p))%nat ->
  (length (pages (s3_world s) b p) - i <= fuel)%nat ->
  exists s' r,
    list_into fuel b p NUL [] (if (i =? 0)%nat then None else Some (token i)) s =
      Some (s', r, OkStatus) /\
    s3_world s' = s3_world s /\ files_listed (concat (drop i (pages (s3_world s) b p))) r.
Proof.
  revert i s. induction fuel as [|fuel IH]; intros i s Hi Hfuel; [lia|].
  destruct (lookup_lt_is_Some_2 _ _ Hi) as [pg Hpg].
  cbn [list_into]. rewrite request_NUL. cbn [count_request s3_world].
  rewrite (pages_at _ _ _ _ _ Hpg). cbn [GetNextContinuationToken GetCommonPrefixes GetContents].
  assert (Hdrop : concat (drop i (pages (s3_world s) b p)) =
                  pg ++ concat (drop (S i) (pages (s3_world s) b p))).
  { by rewrite (drop_S _ _ _ Hpg). }
  rewrite Hdrop. destruct (Nat.ltb_spec (S i) (length (pages (s3_world s) b p))) as [Hlt|Hge].
  - rewrite bool_decide_true by apply token_ne.
    destruct (IH (S i) (count_request s)) as (s' & r & El & Hw & Hr); [simpl; lia..|].
    simpl in El, Hw, Hr. rewrite El. simpl. eexists s', _. split_and!; [done..|]. by apply files_listed_emplace.
  - rewrite bool_decide_false by (intros Hn; by apply Hn).
    eexists _, _. split_and!; [done..|]. apply files_listed_emplace.
    rewrite drop_ge by lia. simpl. split_and!; [done..|apply represents_refl].
Qed.

Lemma s3_list_files b p fuel s :
  (length (pages (s3_world s) b p) <= fuel)%nat ->
  exists s' r, s3_list fuel b p s = Some (s', Value r) /\ s3_world s' = s3_world s /\
    files_listed (concat (pages (s3_world s) b p)) r.
Proof.
  intros Hf. destruct (pages (s3_world s) b p) as [|pg pgs] eqn:E.
  { by destruct (pages_ne (s3_world s) b p). }
  destruct (list_into_pages b p fuel 0 s) as (s' & r & El & Hw & Hr); [rewrite E; simpl in *; lia..|].
  simpl in El, Hr. exists s', r. unfold s3_list, list_delim. rewrite El. rewrite E in Hr. done.
Qed.

Lemma files_listed_contents b p w r :
  files_listed (concat (pages w b p)) r ->
  forall f, f ∈ r <->
    exists ky c, starts_with p ky = true /\ contents w b ky = Some c /\ f = mkFileStatus ky (len c) false.
Proof.
  intros (_ & Hk & Hr1 & Hr2).
  assert (Hxs : forall f, f ∈ map status_of_entry (concat (pages w b p)) <->
    exists ky c, starts_with p ky = true /\ contents w b ky = Some c /\ f = mkFileStatus ky (len c) false).
  { intros f. rewrite list_elem_of_In, in_map_iff. split.
    - intros ([ky n] & <- & Hin). apply list_elem_of_In, pages_contents in Hin as (Hp & c & Hc & ->).
      exists ky, c. split_and!; [done..|]. unfold status_of_entry. simpl. rewrite u64_small; [done|].
      apply object_size in Hc. unfold is_u64, two64, len in *. lia.
    - intros (ky & c & Hp & Hc & ->). exists (ky, len c). split.
      + unfold status_of_entry. simpl. rewrite u64_small; [done|].
        apply object_size in Hc. unfold is_u64, two64, len in *. lia.
      + apply list_elem_of_In, pages_contents. eauto. }
  intros f. rewrite <- Hxs. split; [apply Hr1|]. intros Hf.
  destruct (Hr2 f Hf) as (g & Hg & E). apply file_status_eqb_spec in E as [E _].
  assert (g = f) as <-; [|done]. pose proof (proj1 (Hxs g) (Hr1 g Hg)) as (k1 & c1 & _ & H1 & ->).
  apply Hxs in Hf as (k2 & c2 & _ & H2 & ->). simpl in E. congruence.
Qed.

(** ** Deleting *)

Lemma delete_batches_spec b p files fuel start s :
  (length files - start < fuel)%nat -> (start <= length files)%nat ->
  exists s', delete_batches fuel b p files start s = Some (s', OkStatus) /\
    forall b' k, contents (s3_world s') b' k =
      if decide (b' = b /\ k ∈ map fs_key (drop start files)) then None
      else contents (s3_world s) b' k.
Proof.
  revert start s. induction fuel as [|fuel IH]; intros start s Hf Hs; [lia|].
  cbn [delete_batches]. destruct (Nat.ltb_spec start (length files)) as [Hlt|Hge].
  - set (e := Nat.min (start + 1000) (length files)).
    destruct (delete_objects (s3_world s) b (map fs_key (drop start (take e files))))
      as (w' & Hd & Hc).
    { rewrite length_map, length_drop, length_take. lia. }
    cbn [count_request s3_world]. rewrite Hd.
    destruct (IH e (with_world w' (count_request s))) as (s' & -> & Hc'); [lia..|].
    exists s'. split; [done|]. intros b' k. rewrite Hc'. simpl. rewrite Hc.
    assert (Hsplit : drop start files = drop start (take e files) ++ drop e files).
    { rewrite <- (take_drop e files) at 1. rewrite drop_app_le; [done|].
      rewrite length_take. lia. }
    rewrite Hsplit, map_app. repeat case_decide; set_solver.
  - eexists. split; [done|]. intros b' k. rewrite drop_ge by done.
    rewrite decide_False; [done|]. intros [_ Hn]. simpl in Hn. set_solver.
Qed.

(** ** Reading *)

Lemma range_header_range pos n :
  0 <= pos -> 0 < n -> pos + n < two64 ->
  range_header (Some pos) (Some n) = Some (range_of pos (pos + n - 1)).
Proof.
  intros. unfold range_header, range_of. simpl. by rewrite u64_small by (unfold is_u64; lia).
Qed.

(** One [read]: the requested range clipped to the object. *)
Lemma s3_read_range b ky c pos n s :
  contents (s3_world s) b ky = Some c -> 0 <= pos -> 0 < n -> pos + n < two64 ->
  exists s', s3_read b ky (Some pos) (Some n) s =
    (s', Value (Z.max 0 (Z.min n (len c - pos)), slice pos n c)) /\ s3_world s' = s3_world s.
Proof.
  intros Hc Hpos Hn Hmax. pose proof (object_size _ _ _ _ Hc) as Hsz.
  unfold s3_read. rewrite bool_decide_false by (intros [=]; lia).
  rewrite range_header_range by done. cbn [count_request s3_world].
  destruct (Z.lt_ge_cases pos (len c)) as [Hlt|Hge].
  - rewrite (get_range _ _ _ c) by (done || lia). unfold read_success. simpl.
    replace (pos + n - 1 + 1 - pos) with n by lia.
    replace (Z.min (pos + n - 1 + 1) (len c) - pos) with (Z.min n (len c - pos)) by lia.
    rewrite u64_small by (unfold is_u64; lia).
    replace (Z.min n (Z.min n (len c - pos))) with (Z.min n (len c - pos)) by lia.
    rewrite take_slice, <- slice_clip by lia.
    replace (Z.max 0 (Z.min n (len c - pos))) with (Z.min n (len c - pos)) by lia.
    eexists. split; done.
  - destruct (get_range_past _ _ _ c pos (pos + n - 1) Hc) as (e & -> & He); [lia|].
    rewrite bool_decide_true by done. unfold s3_fileStatus. simpl.
    rewrite (head_object _ _ _ c) by done. cbn [fs_size].
    rewrite u64_small by (unfold is_u64, len in *; lia).
    destruct (Z.leb_spec (len c) pos) as [_|]; [|lia].
    replace (Z.max 0 (Z.min n (len c - pos))) with 0 by lia.
    assert (slice pos n c = []) as -> by
      (unfold slice, len in *; rewrite drop_ge by lia; by rewrite take_nil).
    eexists. split; done.
Qed.

Definition chunks_left (n : Z) : nat := Z.to_nat (n / CHUNK) + 2.

Lemma readBytes_loop_spec b ky c position n fuel count s :
  contents (s3_world s) b ky = Some c -> 0 <= position -> position + n < two64 ->
  0 <= count <= n -> position + count <= Z.max position (len c) ->
  (1 <= fuel)%nat -> (count < n -> position + count < len c -> (chunks_left (n - count) <= fuel)%nat) ->
  exists s', readBytes_loop fuel b ky position n count (slice position count c) s =
    Some (s', Value (Z.max 0 (Z.min n (len c - position)), slice position n c)) /\
    s3_world s' = s3_world s.
Proof.
  revert count s. induction fuel as [|fuel IH]; intros count s Hc Hpos Hmax Hcnt Hle H1 Hf; [lia|].
  cbn [readBytes_loop]. destruct (Z.ltb_spec count n) as [Hlt|Hge].
  2: { exists s. split; [|done]. assert (count = n) as -> by lia.
       by replace (Z.max 0 (Z.min n (len c - position))) with n by lia. }
  rewrite (u64_small (position + count)) by (unfold is_u64; lia).
  set (req := Z.min CHUNK (n - count)).
  assert (0 < req) by (unfold req, CHUNK; lia).
  destruct (s3_read_range b ky c (position + count) req s Hc) as (s1 & -> & Hw1); [unfold req; lia..|].
  destruct (Z.eqb_spec (Z.max 0 (Z.min req (len c - (position + count)))) 0) as [Hz|Hnz].
  { exists s1. split; [|done]. assert (len c <= position + count) by lia.
    replace (Z.max 0 (Z.min n (len c - position))) with count by lia.
    assert (slice position n c = slice position count c) as ->; [|done].
    destruct (Z.le_gt_cases position (len c)).
    - rewrite (slice_clip position n) by lia. f_equal. lia.
    - unfold slice, len in *. rewrite !drop_ge by lia. by rewrite !take_nil. }
  assert (Hk : Z.max 0 (Z.min req (len c - (position + count))) = Z.min req (len c - (position + count)))
    by lia.
  rewrite Hk. set (k := Z.min req (len c - (position + count))).
  rewrite u64_small by (unfold is_u64, k, req; lia).
  rewrite (slice_clip (position + count) req) by lia. fold k.
  rewrite slice_extend by lia.
  destruct (IH (count + k) s1) as (s' & -> & Hw'); [by rewrite Hw1|lia|lia|unfold k, req; lia|lia| | |].
  - assert (chunks_left (n - count) <= S fuel)%nat by (apply Hf; lia). unfold chunks_left in *. lia.
  - intros Hlt2 Hpos2. assert (chunks_left (n - count) <= S fuel)%nat by (apply Hf; lia).
    assert (k = CHUNK) as -> by (unfold k, req in *; lia).
    unfold chunks_left in *.
    replace (n - (count + CHUNK)) with (n - count + (-1) * CHUNK) by lia.
    rewrite Z.div_add by (unfold CHUNK; lia).
    assert (1 <= (n - count) / CHUNK) by (apply Z.div_le_lower_bound; unfold CHUNK in *; lia). lia.
  - exists s'. split; [done|]. congruence.
Qed.
End theory.

(** ** A service in memory *)

(** An S3 service that satisfies the laws, with pages of two keys. *)
Module MemS3.
Abbreviation world := (gmap (str * str) str).

Definition get (w : world) (b ky : str) : option str :=
  match w !! (b, ky) with
  | Some c => if len c <? 2 ^ 63 then Some c else None
  | None => None
  end.

Definition matching (w : world) (b p : str) : list (str * Z) :=
  omap (fun e : str * str * str =>
          let '(b', ky, _) := e in
          match get w b' ky with
          | Some c => if bool_decide (b' = b) && starts_with p ky then Some (ky, len c) else None
          | None => None
          end) (map_to_list w).

Fixpoint chunk (l : list (str * Z)) : list (list (str * Z)) :=
  match l with
  | x :: y :: l' => [x; y] :: chunk l'
  | _ => [l]
  end.

Definition page_index (t : option str) : nat :=
  match t with Some t => Z.to_nat (parse_dec t) | None => 0 end.

Definition list_page (r : ListObjectsV2Request) (w : world) : s3_outcome ListObjectsV2Result :=
  let pgs := chunk (matching w (lr_bucket r) (lr_prefix r)) in
  let i := page_index (lr_token r) in
  match pgs !! i with
  | None => Failure (mkS3Error OTHER_S3_ERROR 400 "InvalidArgument" "bad token")
  | Some pg => Success (mkListResult pg []
                 (if (S i <? length pgs)%nat then to_string (Z.of_nat (S i)) else []))
  end.

Definition not_found : S3Error := mkS3Error NO_SUCH_KEY 404 "NoSuchKey" "no such key".

(** ["bytes=a-b"] *)
Definition parse_range (r : str) : Z * Z :=
  let r := drop 6 r in
  match find_char "-" r with
  | Some i => (parse_dec (take i r), parse_dec (drop (S i) r))
  | None => (0, 0)
  end.

Definition get_object (r : GetObjectRequest) (w : world) : s3_outcome GetObjectResult :=
  match get w (gr_bucket r) (gr_key r) with
  | None => Failure not_found
  | Some c =>
      match gr_range r with
      | None => Success (mkGetResult c (len c))
      | Some rg =>
          let '(p, q) := parse_range rg in
          if p <? len c
          then Success (mkGetResult (slice p (q + 1 - p) c) (Z.min (q + 1) (len c) - p))
          else Failure (mkS3Error OTHER_S3_ERROR 416 "InvalidRange" "range not satisfiable")
      end
  end.

#[global] Instance client : S3Client world := {|
  ListObjectsV2 := list_page;
  HeadObject b ky w := match get w b ky with Some c => Success (len c) | None => Failure not_found end;
  GetObject := get_object;
  DeleteObject b ky w := (delete (b, ky) w, Success tt);
  DeleteObjects b ks w := (fold_left (fun w ky => delete (b, ky) w) ks w, Success tt);
  PutObject b ky body _ w := (<[(b, ky) := body]> w, PutReturned (Success tt))
|}.

Lemma elem_of_chunk x l : x ∈ concat (chunk l) <-> x ∈ l.
Proof.
  revert x. induction l as [l IH] using (induction_ltof1 _ (@length _)); unfold ltof in IH.
  intros x. destruct l as [|a [|b l]]; [set_solver..|].
  cbn [chunk concat]. rewrite elem_of_app, IH by (simpl; lia). set_solver.
Qed.

Lemma elem_of_matching w b p ky n :
  (ky, n) ∈ matching w b p <->
  starts_with p ky = true /\ exists c, get w b ky = Some c /\ n = len c.
Proof.
  unfold matching. rewrite list_elem_of_omap. split.
  - intros ([[b' ky'] c'] & _ & Hf). destruct (get w b' ky') as [c|] eqn:E; [|done].
    case_bool_decide; [|done]. destruct (starts_with p ky') eqn:Ep; [|done].
    simpl in Hf. injection Hf as <- <-. subst. eauto.
  - intros (Hp & c & Hg & ->). pose proof Hg as Hg'. unfold get in Hg'.
    destruct (w !! (b, ky)) as [c'|] eqn:E; [|done]. exists (b, ky, c').
    split; [by apply elem_of_map_to_list|]. rewrite Hg, bool_decide_true by done. by rewrite Hp.
Qed.

Lemma digits_no_dash n : 0 <= n -> "-"%char ∉ to_string n.
Proof.
  intros Hn Hin. pose proof (to_string_digits n Hn) as Hd.
  pose proof (Forall_elem _ _ _ Hd Hin) as Hx. done.
Qed.

Lemma parse_range_of p q : 0 <= p -> 0 <= q -> parse_range (range_of p q) = (p, q).
Proof.
  intros Hp Hq. unfold parse_range.
  assert (drop 6 (range_of p q) = to_string p ++ "-"%char :: to_string q) as -> by done.
  rewrite find_char_app_cons by (by apply digits_no_dash).
  rewrite take_app_length. rewrite drop_app_ge by lia.
  replace (S (length (to_string p)) - length (to_string p))%nat with 1%nat by lia.
  rewrite skipn_cons, drop_0, !parse_to_string by done. done.
Qed.

Lemma get_deletes w b ks b' ky :
  get (fold_left (fun w ky => delete (b, ky) w) ks w) b' ky =
  if decide (b' = b /\ ky ∈ ks) then None else get w b' ky.
Proof.
  revert w. induction ks as [|k ks IH]; intros w; simpl.
  - rewrite decide_False; [done|set_solver].
  - rewrite IH. unfold get. rewrite lookup_delete. repeat case_decide; simplify_eq; try done; set_solver.
Qed.

#[global, refine] Instance service : S3Service world := {|
  contents := get;
  pages w b p := chunk (matching w b p);
  token i := to_string (Z.of_nat i)
|}.
Proof.
  - intros i. apply to_string_nonempty.
  - intros w b p. by destruct (matching w b p) as [|x [|y l]].
  - intros w b p i pg Hi. simpl. unfold list_page. simpl.
    assert (page_index (if (i =? 0)%nat then None else Some (to_string (Z.of_nat i))) = i) as ->.
    { destruct (Nat.eqb_spec i 0) as [->|]; [done|]. simpl. rewrite parse_to_string by lia. lia. }
    by rewrite Hi.
  - intros. rewrite elem_of_chunk. apply elem_of_matching.
  - intros w b ky c. unfold get. destruct (w !! (b, ky)) as [c'|]; [|done].
    destruct (Z.ltb_spec (len c') (2 ^ 63)); [|done]. by intros [= <-].
  - intros w b ky c Hc. simpl. by rewrite Hc.
  - intros w b ky c p q Hc Hpq Hp. simpl. unfold get_object. simpl.
    rewrite Hc, parse_range_of by lia. by rewrite (proj2 (Z.ltb_lt _ _) Hp).
  - intros w b ky c p q Hc Hpq. simpl. unfold get_object. simpl.
    rewrite Hc, parse_range_of by (unfold len in *; lia).
    rewrite (proj2 (Z.ltb_ge _ _)) by lia. by eexists.
  - intros w b ks Hl. eexists. split; [done|]. intros b' k. apply get_deletes.
Defined.
End MemS3.

(** ** Properties *)

(** Listing an endpoint follows the continuation tokens to the end and
    returns exactly the objects whose key starts with the prefix, each once,
    with its size, in ascending key order. As much fuel as there are pages is
    enough, so the recursion terminates. *)
Theorem s3_list_exact (W : Type) `{S3Service W} b p fuel (s : s3_state W) :
  (length (pages (s3_world s) b p) <= fuel)%nat ->
  exists s' r, s3_list fuel b p s = Some (s', Value r) /\ s3_world s' = s3_world s /\
    sorted_keys (map fs_key r) /\
    forall f, f ∈ r <-> exists ky c, starts_with p ky = true /\
      contents (s3_world s) b ky = Some c /\ f = mkFileStatus ky (len c) false.
Proof.
  intros Hf. destruct (s3_list_files b p fuel s Hf) as (s' & r & E & Hw & Hr).
  exists s', r. split_and!; [done..|apply Hr|by apply files_listed_contents].
Qed.

Definition mem_world : MemS3.world :=
  <[("b" : str, "d/x" : str) := "0123456789" : str]> (<[("b" : str, "d/y" : str) := "ab" : str]>
    (<[("b" : str, "d/z" : str) := [] : str]> (<[("b" : str, "e" : str) := "q" : str]> ∅))).

Definition mem_state : s3_state MemS3.world := mkS3State mem_world 0 0.

Lemma s3_list_exact_witness :
  snd <$> s3_list 2 "b" "d/" mem_state =
     Some (Value [mkFileStatus "d/x" 10 false; mkFileStatus "d/y" 2 false;
                  mkFileStatus "d/z" 0 false]) /\
  exists s' r, s3_list 2 "b" "d/" mem_state = Some (s', Value r) /\ sorted_keys (map fs_key r).
Proof.
  split; [vm_compute; reflexivity|].
  destruct (s3_list_exact MemS3.world "b" "d/" 2 mem_state) as (s' & r & E & _ & Hs & _).
  - vm_compute. repeat constructor.
  - exists s', r. split; [exact E|exact Hs].
Defined.

(** Deleting a prefix removes exactly the objects whose key starts with
    it, however many batches of 1000 keys that takes, and reports OK. *)
Theorem s3_deletePrefix_exact (W : Type) `{S3Service W} b p fuel (s : s3_state W) :
  (length (pages (s3_world s) b p) <= fuel)%nat ->
  exists s', s3_deletePrefix fuel b p s = Some (s', OkStatus) /\
    forall b' ky, contents (s3_world s') b' ky =
      if bool_decide (b' = b) && starts_with p ky then None else contents (s3_world s) b' ky.
Proof.
  intros Hf. destruct (s3_list_files b p fuel s Hf) as (s1 & r & E & Hw & Hr).
  pose proof (files_listed_contents b p _ r Hr) as Hc.
  unfold s3_deletePrefix. rewrite E.
  destruct (delete_batches_spec b p r (S (length r)) 0 s1) as (s' & -> & Hd); [lia..|].
  exists s'. split; [done|]. intros b' ky. rewrite Hd, Hw. rewrite drop_0.
  assert (Hin : ky ∈ map fs_key r <->
            starts_with p ky = true /\ is_Some (contents (s3_world s) b ky)).
  { rewrite list_elem_of_In, in_map_iff. split.
    - intros (f & <- & Hf'). apply list_elem_of_In, Hc in Hf' as (k & c & ? & ? & ->). simpl. eauto.
    - intros (Hp & c & Hcc). exists (mkFileStatus ky (len c) false). split; [done|].
      apply list_elem_of_In, Hc. eauto. }
  case_decide as Hdec; case_bool_decide as Hb; subst; simpl.
  - destruct Hdec as [_ Hk]. apply Hin in Hk as [-> _]. done.
  - naive_solver.
  - destruct (starts_with p ky) eqn:Ep; [|done].
    destruct (contents (s3_world s) b ky) eqn:Ec; [|done]. exfalso. apply Hdec. split; [done|].
    apply Hin. eauto.
  - done.
Qed.

Lemma s3_deletePrefix_exact_witness :
  exists s', s3_deletePrefix 2 "b" "d/" mem_state = Some (s', OkStatus) /\
    contents (s3_world s') "b" "d/y" = None /\
    contents (s3_world s') "b" "e" = Some ("q" : str).
Proof.
  destruct (s3_deletePrefix_exact MemS3.world "b" "d/" 2 mem_state) as (s' & E & Hc).
  - vm_compute. repeat constructor.
  - exists s'. split; [exact E|]. rewrite !Hc. split; vm_compute; reflexivity.
Defined.

(** [readBytes] returns the requested range clipped to the object, in
    requests of at most 1 GiB: the count is the number of bytes available from
    the position on, at most the requested length, and the bytes are those of
    the object. Two more iterations than full chunks are enough. *)
Theorem s3_readBytes_exact (W : Type) `{S3Service W} b ky c position n fuel (s : s3_state W) :
  contents (s3_world s) b ky = Some c ->
  0 <= position -> 0 <= n -> position + n < two64 ->
  (Z.to_nat (n / CHUNK) + 2 <= fuel)%nat ->
  exists s', s3_readBytes fuel b ky position n s =
    Some (s', Value (Z.max 0 (Z.min n (len c - position)),
                     take (Z.to_nat n) (drop (Z.to_nat position) c))).
Proof.
  intros Hc Hp Hn Hmax Hf.
  destruct (readBytes_loop_spec b ky c position n fuel 0 s) as (s' & E & _); try done; try lia.
  { unfold chunks_left. rewrite Z.sub_0_r. done. }
  exists s'. exact E.
Qed.

Lemma s3_readBytes_exact_witness :
  exists s', s3_readBytes 2 "b" "d/x" 7 100 mem_state = Some (s', Value (3, "789" : str)).
Proof.
  destruct (s3_readBytes_exact MemS3.world "b" "d/x" "0123456789" 7 100 2 mem_state) as (s' & E).
  - vm_compute. reflexivity.
  - lia.
  - lia.
  - vm_compute. reflexivity.
  - vm_compute. repeat constructor.
  - exists s'. exact E.
Defined.
