(* ===== verification/ParseGRPC.v ===== *)
(** * Peer addresses

    [geds::GetAddressFromGRPCPeer] (src/src/protos/ParseGRPC.cpp) extracts the
    address from the peer string gRPC reports, [ipv4:address[:port]] or
    [ipv6:[address][:port]]. *)

From Stdlib Require Import Ascii ZArith Lia.
From stdpp Require Import base sets list strings numbers.
From S2P Require Import Prelude Status.

Definition ipv4Prefix : str := "ipv4:".
Definition ipv6Prefix : str := "ipv6:".

Definition GetAddressFromGRPCPeer (peerInfo : str) : outcome (StatusOr str) :=
  match find_char "," peerInfo with
  | Some _ => Ret (Error (UnknownError ("Peer information " ++ peerInfo ++
                                        " contains multiple IP addresses!")))
  | None =>
      let! view := substr peerInfo (length ipv4Prefix) None in
      if starts_with ipv4Prefix peerInfo then
        let pos := find_char ":" view in
        if bool_decide (pos = Some 0%nat)
        then Ret (Error (UnknownError ("Unable to parse ip from peer " ++ peerInfo ++
                                       " (unexpected length)")))
        else let! r := substr view 0 pos in Ret (Value r)
      else if starts_with ipv6Prefix peerInfo then
        let pos := find_char "]" view in
        if bool_decide (pos = Some 0%nat)
        then Ret (Error (UnknownError ("Invalid IPv6 peer " ++ peerInfo)))
        else let! r := substr view 0 (S <$> pos) in Ret (Value r)
      else Ret (Error (UnknownError ("Unable to parse peer " ++ peerInfo ++
                                     " (unknown GRPC peer format)")))
  end.

(** ** Lemmas *)

Lemma substr_0 s n : substr s 0 n = Ret (match n with Some n => take n s | None => s end).
Proof. unfold substr. simpl. by rewrite drop_0. Qed.

Lemma substr_prefix (p s : str) : substr (p ++ s) (length p) None = Ret s.
Proof.
  unfold substr. rewrite length_app. destruct (Nat.ltb_spec (length p + length s) (length p)); [lia|].
  by rewrite drop_app_length.
Qed.

Lemma peer_shape (p s : str) : p = ipv4Prefix \/ p = ipv6Prefix ->
  ","%char ∉ s -> find_char "," (p ++ s) = None /\ substr (p ++ s) (length ipv4Prefix) None = Ret s.
Proof.
  intros Hp Hs. split.
  - apply find_char_None. rewrite elem_of_app. intros [Hin|Hin]; [|done].
    revert Hin. destruct Hp as [->| ->]; by_decision.
  - destruct Hp as [->| ->]; [exact (substr_prefix ipv4Prefix s)|exact (substr_prefix ipv6Prefix s)].
Qed.

(** ** Property *)

(** The address of a peer is what precedes the port. An IPv4 peer gives
    its address, an IPv6 peer its address in brackets; a string that names
    several peers is an error; and a string shorter than the prefix makes the
    function throw [std::out_of_range], whatever it contains. *)
Theorem peer_address addr port :
  ","%char ∉ addr -> ","%char ∉ port -> addr <> [] ->
  (":"%char ∉ addr ->
     GetAddressFromGRPCPeer ("ipv4:" ++ addr) = Ret (Value addr) /\
     GetAddressFromGRPCPeer ("ipv4:" ++ addr ++ ":" ++ port) = Ret (Value addr)) /\
  ("]"%char ∉ addr ->
     GetAddressFromGRPCPeer ("ipv6:[" ++ addr ++ "]") = Ret (Value ("[" ++ addr ++ "]")) /\
     GetAddressFromGRPCPeer ("ipv6:[" ++ addr ++ "]:" ++ port) = Ret (Value ("[" ++ addr ++ "]"))) /\
  (forall s, (length s < 5)%nat -> ","%char ∉ s -> GetAddressFromGRPCPeer s = Throw out_of_range).
Proof.
  intros Ha Hp Hne.
  assert (H4 : forall s, ","%char ∉ s -> find_char ":" s <> Some 0%nat ->
    GetAddressFromGRPCPeer (ipv4Prefix ++ s) =
      Ret (Value (match find_char ":" s with Some i => take i s | None => s end))).
  { intros s Hs Hpos. destruct (peer_shape ipv4Prefix s) as [E1 E2]; [auto..|].
    unfold GetAddressFromGRPCPeer. rewrite E1, E2. cbn [obind]. rewrite starts_with_app.
    rewrite bool_decide_false by done. by rewrite substr_0. }
  assert (H6 : forall s, ","%char ∉ s -> find_char "]" s <> Some 0%nat ->
    GetAddressFromGRPCPeer (ipv6Prefix ++ s) =
      Ret (Value (match find_char "]" s with Some i => take (S i) s | None => s end))).
  { intros s Hs Hpos. destruct (peer_shape ipv6Prefix s) as [E1 E2]; [auto..|].
    unfold GetAddressFromGRPCPeer. rewrite E1, E2. cbn [obind].
    replace (starts_with ipv4Prefix (ipv6Prefix ++ s)) with false by done.
    rewrite starts_with_app. rewrite bool_decide_false by done. rewrite substr_0.
    by destruct (find_char "]" s). }
  split_and!.
  - intros Hc. assert (Hn : find_char ":" addr = None) by (by apply find_char_None). split.
    + etransitivity; [apply (H4 addr); [done|by rewrite Hn]|]. by rewrite Hn.
    + assert (E : find_char ":" (addr ++ ":" ++ port) = Some (length addr))
        by (by apply find_char_app_cons).
      etransitivity; [apply (H4 (addr ++ ":" ++ port))|by rewrite E, take_app_length].
      * simpl. set_solver.
      * rewrite E. destruct addr; [done|]. simpl. congruence.
  - intros Hc.
    assert (E : forall r, find_char "]" ("[" ++ addr ++ "]" ++ r) = Some (S (length addr))).
    { intros r. apply (find_char_app_cons "]" ("[" ++ addr)). simpl. set_solver. }
    assert (T : forall r, take (S (S (length addr))) ("[" ++ addr ++ "]" ++ r) = "[" ++ addr ++ "]").
    { intros r. simpl. f_equal. rewrite <- (Nat.add_1_r (length addr)), take_app_add. done. }
    split.
    + pose proof (H6 ("[" ++ addr ++ "]" ++ [])) as H6a. rewrite E, T, app_nil_r in H6a.
      apply H6a; [simpl; set_solver|congruence].
    + pose proof (H6 ("[" ++ addr ++ "]" ++ ":" ++ port)) as H6a. rewrite E, T in H6a.
      apply H6a; [simpl; set_solver|congruence].
  - intros s Hl Hs. unfold GetAddressFromGRPCPeer.
    rewrite (proj2 (find_char_None _ _) Hs). unfold substr.
    destruct (Nat.ltb_spec (length s) (length ipv4Prefix)) as [|Hge]; [done|]. simpl in Hge. lia.
Qed.

Lemma peer_address_witness :
  GetAddressFromGRPCPeer "ipv4:10.0.0.1:4381" = Ret (Value ("10.0.0.1" : str)) /\
  GetAddressFromGRPCPeer "unix" = Throw out_of_range.
Proof.
  destruct (peer_address "10.0.0.1" "4381") as (H4 & _ & Hs);
    [by_decision|by_decision|discriminate|].
  split.
  - apply (fun H => proj2 (H4 H)). by_decision.
  - apply Hs; [by_decision|by_decision].
Defined.
