(* ===== verification/Rpc.v ===== *)
(** * RPC messages

    The messages of src/src/protos/geds.proto that the metadata server and its
    client exchange, and the copies between them and the plain structures
    (in src/src/metadataservice/GRPCServer.cpp and
    src/src/libgeds/MetadataService.cpp). An absent [optional] field is [None];
    any other field of a fresh message has its default value. *)

From Stdlib Require Import Ascii ZArith Lia.
From stdpp Require Import base sets list strings numbers.
From S2P Require Import Prelude Status Object.

Open Scope Z_scope.

Record RpcObjectID := mkRpcID { rid_bucket : str; rid_key : str }.

Record RpcObjectInfo := mkRpcInfo {
  ri_location : str;
  ri_size : Z;
  ri_sealedOffset : Z;
  ri_metadata : option str
}.

Record RpcObject := mkRpcObject { ro_id : RpcObjectID; ro_info : RpcObjectInfo }.

Definition default_RpcObject : RpcObject := mkRpcObject (mkRpcID [] []) (mkRpcInfo [] 0 0 None).

Record RpcObjectStoreConfig := mkRpcConfig {
  rc_bucket : str;
  rc_endpointUrl : str;
  rc_accessKey : str;
  rc_secretKey : str
}.

Record ConnectionInformation := mkConnectionInformation {
  remoteAddress : str;
  ci_error : option StatusResponse
}.

Record BucketListResponse := mkBucketListResponse {
  bl_results : list str;
  bl_error : option StatusResponse
}.

Record ObjectListRequest := mkObjectListRequest {
  lq_prefix : RpcObjectID;
  lq_delimiter : option Z             (** [optional int32] *)
}.

Record ObjectListResponse := mkObjectListResponse {
  ol_results : list RpcObject;
  ol_commonPrefixes : list str;
  ol_error : option StatusResponse
}.

Record ObjectResponse := mkObjectResponse {
  or_result : RpcObject;
  or_error : option StatusResponse
}.

(** [MetadataServiceImpl::convert] *)
Definition convert_id (r : RpcObjectID) : ObjectID := mkID (rid_bucket r) (rid_key r).

Definition convert_object (r : RpcObject) : Object :=
  mkObject (convert_id (ro_id r))
    (mkInfo (ri_location (ro_info r)) (ri_size (ro_info r)) (ri_sealedOffset (ro_info r))
       (match ri_metadata (ro_info r) with Some m => Some m | None => None end)).

(** The [set_...] calls that fill a fresh [rpc::Object]. *)
Definition fill_object (o : Object) : RpcObject :=
  let object := default_RpcObject in
  let object := mkRpcObject (mkRpcID (bucket (id o)) (key (id o))) (ro_info object) in
  let objectInfo := mkRpcInfo (location (info o)) (osize (info o)) (sealedOffset (info o))
                      (ri_metadata (ro_info object)) in
  mkRpcObject (ro_id object)
    (match metadata (info o) with
     | Some m => mkRpcInfo (ri_location objectInfo) (ri_size objectInfo)
                   (ri_sealedOffset objectInfo) (Some m)
     | None => objectInfo
     end).

Definition convert_config (r : RpcObjectStoreConfig) : ObjectStoreConfig :=
  mkConfig (rc_bucket r) (rc_endpointUrl r) (rc_accessKey r) (rc_secretKey r).

Definition fill_config (c : ObjectStoreConfig) : RpcObjectStoreConfig :=
  mkRpcConfig (cfg_bucket c) (cfg_endpointURL c) (cfg_accessKey c) (cfg_secretKey c).

Lemma convert_fill_object o : convert_object (fill_object o) = o.
Proof. destruct o as [[b k] [l n s [m|]]]; done. Qed.

Lemma map_convert_fill os : map convert_object (map fill_object os) = os.
Proof. rewrite map_map. rewrite <- (map_id os) at 2. apply map_ext, convert_fill_object. Qed.

(** [(char)] of an [int32], and a [char] widened to [int32]. *)
Definition char_of_int32 (z : Z) : ascii := ascii_of_N (Z.to_N (z mod 256)).

(** [char] is signed. *)
Definition int_of_char (c : ascii) : Z :=
  let n := Z.of_N (N_of_ascii c) in if n <? 128 then n else n - 256.

Lemma char_int32_roundtrip c : char_of_int32 (int_of_char c) = c.
Proof. destruct c as [[] [] [] [] [] [] [] []]; reflexivity. Qed.

(** A status made by an absl error function travels unchanged. *)
Lemma convertStatus_error c msg :
  convertStatus (convertStatus_to empty_response (error c msg)) = error c msg.
Proof.
  unfold convertStatus, convertStatus_to, convertStatus_code. rewrite code_error.
  destruct (decide (c = kOk)) as [->|Hc]; [done|].
  rewrite ok_error by done. cbn [negb sr_code sr_message default].
  destruct (Z.eqb_spec (code_int c) (code_int kOk)) as [E|E].
  - by apply (code_int_zero c) in E.
  - rewrite error_raw by done. simpl. unfold make_status.
    destruct (Z.eqb_spec (code_int c) 0) as [E'|]; [by destruct E|done].
Qed.

Lemma convertStatus_OkStatus : convertStatus (convertStatus_to empty_response OkStatus) = OkStatus.
Proof. done. Qed.

#[export] Hint Rewrite convertStatus_error convertStatus_OkStatus convert_fill_object
  map_convert_fill : geds.
