(* ===== verification/MetadataServer.v ===== *)
(** * The metadata server

    [ObjectStoreHandler], [PopulateKVS] and the request handlers of
    [MetadataServiceImpl] (src/src/metadataservice/ObjectStoreHandler.cpp,
    S3Helper.cpp, GRPCServer.cpp). A handler takes the request and the server
    state and gives the new state and the response; gRPC itself is outside. *)

From Stdlib Require Import Ascii ZArith Lia.
From stdpp Require Import base gmap sets list strings numbers.
From S2P Require Import Prelude Status StdMap Path Object MDSKVSBucket MDSKVS FileSet.
From S2P Require Import Bytes S3Endpoint ParseGRPC Rpc.

Open Scope Z_scope.
Open Scope list_scope.

(** ** [ObjectStoreHandler] *)

Definition ObjectStoreHandler := smap str ObjectStoreConfig.

Definition insertConfig (c : ObjectStoreConfig) (h : ObjectStoreHandler) :
    ObjectStoreHandler * Status :=
  let key := cfg_bucket c in
  let '(h, success) := minsert key c h in
  if negb success
  then (h, AlreadyExistsError ("ObjectStore config for bucket already exists: '" ++ key ++ "'."))
  else (h, OkStatus).

Definition listConfigs (h : ObjectStoreHandler) : list ObjectStoreConfig := map snd h.

(** ** The server *)

Record Server := mkServer { srv_kvs : MDSKVS; srv_stores : ObjectStoreHandler }.

Definition newServer (default_bucket : option str) : Server := mkServer (newKVS default_bucket) [].

Definition with_kvs (k : MDSKVS) (s : Server) : Server := mkServer k (srv_stores s).

(** The status of a handler that answers with a [StatusResponse]. *)
Definition respond (s : Status) : StatusResponse := convertStatus_to empty_response s.

Definition GetConnectionInformation (peer : str) (s : Server) :
    outcome (Server * ConnectionInformation) :=
  let! result := GetAddressFromGRPCPeer peer in
  Ret (s, match result with
          | Value a => mkConnectionInformation a None
          | Error st => mkConnectionInformation [] (Some (respond st))
          end).

Definition ListObjectStores (s : Server) : Server * list RpcObjectStoreConfig :=
  (s, map fill_config (listConfigs (srv_stores s))).

Definition CreateBucket (b : str) (s : Server) : Server * StatusResponse :=
  let '(k, r) := createBucket b (srv_kvs s) in (with_kvs k s, respond r).

Definition DeleteBucket (b : str) (s : Server) : Server * StatusResponse :=
  let '(k, r) := deleteBucket b (srv_kvs s) in (with_kvs k s, respond r).

Definition ListBuckets (s : Server) : Server * BucketListResponse :=
  (s, match listBuckets (srv_kvs s) with
      | Value r => mkBucketListResponse r None
      | Error st => mkBucketListResponse [] (Some (respond st))
      end).

Definition LookupBucket (b : str) (s : Server) : Server * StatusResponse :=
  (s, respond (bucketStatus b (srv_kvs s))).

Definition Create (r : RpcObject) (s : Server) : Server * StatusResponse :=
  let '(k, st) := kvs_createObject (convert_object r) false (srv_kvs s) in (with_kvs k s, respond st).

Definition Update (r : RpcObject) (s : Server) : Server * StatusResponse :=
  let '(k, st) := kvs_updateObject (convert_object r) (srv_kvs s) in (with_kvs k s, respond st).

Definition Delete (r : RpcObjectID) (s : Server) : Server * StatusResponse :=
  let i := convert_id r in
  let '(k, st) := kvs_deleteObject (bucket i) (key i) (srv_kvs s) in (with_kvs k s, respond st).

Definition DeletePrefix (r : RpcObjectID) (s : Server) : Server * StatusResponse :=
  let i := convert_id r in
  let '(k, st) := kvs_deleteObjectPrefix (bucket i) (key i) (srv_kvs s) in (with_kvs k s, respond st).

Definition Lookup (r : RpcObjectID) (s : Server) : Server * ObjectResponse :=
  let i := convert_id r in
  (s, match kvs_lookup (bucket i) (key i) (srv_kvs s) with
      | Value o => mkObjectResponse (fill_object o) None
      | Error st => mkObjectResponse default_RpcObject (Some (respond st))
      end).

Definition List (r : ObjectListRequest) (s : Server) : Server * ObjectListResponse :=
  let delimiter := match lq_delimiter r with Some d => char_of_int32 d | None => NUL end in
  let i := convert_id (lq_prefix r) in
  (s, match kvs_listObjects (bucket i) (key i) delimiter (srv_kvs s) with
      | Value (objs, prefixes) => mkObjectListResponse (map fill_object objs) prefixes None
      | Error st => mkObjectListResponse [] [] (Some (respond st))
      end).

(** ** Registering an object store *)

Section register.
Context {W : Type} `{S3Client W}.

(** The service an endpoint reaches. *)
Context (reach : Endpoint -> s3_state W).

(** One iteration of the loop of [PopulateKVS], on the bucket it holds. *)
Definition populate_entry (c : ObjectStoreConfig) (h : nat) (k : MDSKVS) (f : GEDSFileStatus) :
    MDSKVS :=
  if fs_isDirectory f then k else
  let slash := match fs_key f with x :: _ => bool_decide (x = "/"%char) | [] => false end in
  let objInfo := mkInfo ("s3://" ++ cfg_bucket c ++ (if slash then [] else "/") ++ fs_key f)
                   (fs_size f) (fs_size f) None in
  fst (on_bucket h (bucket_createObject (mkObject (mkID (cfg_bucket c) (fs_key f)) objInfo)) k).

Definition PopulateKVS (fuel : nat) (c : ObjectStoreConfig) (k : MDSKVS) : option (MDSKVS * Status) :=
  let '(k, status) := createBucket (cfg_bucket c) k in
  if negb (ok status) && negb (code_is kAlreadyExists status) then Some (k, status) else
  match getBucket (cfg_bucket c) k with
  | Error st => Some (k, st)
  | Value h =>
      let s3Endpoint := newEndpoint (cfg_endpointURL c) (cfg_accessKey c) (cfg_secretKey c) in
      match s3_list fuel (cfg_bucket c) [] (reach s3Endpoint) with
      | None => None
      | Some (_, Error st) => Some (k, st)
      | Some (_, Value files) => Some (fold_left (populate_entry c h) files k, OkStatus)
      end
  end.

Definition RegisterObjectStore (fuel : nat) (r : RpcObjectStoreConfig) (s : Server) :
    option (Server * StatusResponse) :=
  let config := convert_config r in
  let '(h, status) := insertConfig config (srv_stores s) in
  let s := mkServer (srv_kvs s) h in
  if ok status then
    match PopulateKVS fuel config (srv_kvs s) with
    | None => None
    | Some (k, status) => Some (with_kvs k s, respond status)
    end
  else Some (s, respond status).
End register.

(** ** Populating *)

(** What is stored for an S3 object. *)
Definition s3_info (b ky : str) (n : Z) : ObjectInfo :=
  let slash := match ky with x :: _ => bool_decide (x = "/"%char) | [] => false end in
  mkInfo ("s3://" ++ b ++ (if slash then [] else "/") ++ ky) n n None.

Lemma on_bucket_map h f k : kvs_map (fst (on_bucket h f k)) = kvs_map k.
Proof. unfold on_bucket. by destruct (f _). Qed.

Lemma populate_fold c h files k s m :
  kvs_abs k s -> mfind (cfg_bucket c) (kvs_map k) = Some h -> s !! cfg_bucket c = Some m ->
  Forall is_file files ->
  exists m', kvs_abs (fold_left (populate_entry c h) files k) (<[cfg_bucket c := m']> s) /\
    (forall ky, ky ∉ map fs_key files -> m' !! ky = m !! ky) /\
    (sorted_keys (map fs_key files) -> forall f, f ∈ files ->
       m' !! fs_key f = Some (s3_info (cfg_bucket c) (fs_key f) (fs_size f))).
Proof.
  intros Habs Hf Hm Hfs. revert k s m Habs Hf Hm.
  induction Hfs as [|f files Hfile Hfs IH]; intros k s m Habs Hf Hm; simpl.
  { exists m. rewrite insert_id by done. split_and!; [done..|]. set_solver. }
  set (o := mkObject (mkID (cfg_bucket c) (fs_key f)) (s3_info (cfg_bucket c) (fs_key f) (fs_size f))).
  assert (populate_entry c h k f = fst (on_bucket h (bucket_createObject o) k)) as ->.
  { unfold populate_entry. by rewrite Hfile. }
  pose proof (on_bucket_apply _ _ _ _ _ (BucketSpec.Create o) (bucket_createObject o) Habs Hf Hm
                (fun _ => eq_refl)) as Habs1.
  destruct (IH _ _ (BucketSpec.apply m (BucketSpec.Create o)) Habs1) as (m' & Ha & Hold & Hnew).
  { by rewrite on_bucket_map. }
  { by rewrite lookup_insert_eq. }
  rewrite insert_insert_eq in Ha. exists m'. split_and!; [done|..].
  - intros ky Hky. rewrite Hold by set_solver. simpl. rewrite lookup_insert_ne; [done|]. set_solver.
  - intros [Hlt Hs] g Hg. apply elem_of_cons in Hg as [->|Hg]; [|auto].
    rewrite Hold; [simpl; by rewrite lookup_insert_eq|].
    intros Hin. pose proof (Forall_elem _ _ _ Hlt Hin) as Hx. simpl in Hx.
    by rewrite str_ltb_irrefl in Hx.
Qed.

(** The bucket [PopulateKVS] works on. *)
Lemma populate_bucket k s b :
  kvs_abs k s ->
  let k' := fst (createBucket b k) in
  kvs_abs k' (<[b := default ∅ (s !! b)]> s) /\
  (exists h, getBucket b k' = Value h /\ mfind b (kvs_map k') = Some h) /\
  ok (snd (createBucket b k)) || code_is kAlreadyExists (snd (createBucket b k)) = true.
Proof.
  intros Habs. destruct (mfind b (kvs_map k)) as [h|] eqn:E.
  - assert (createBucket b k = (k, AlreadyExistsError ("Bucket " ++ b ++ " already exists."))) as ->.
    { unfold createBucket. by rewrite E. }
    destruct (kvs_abs_Some _ _ _ _ Habs E) as (m & Hm & _). rewrite Hm. simpl.
    rewrite insert_id by done. split_and!; [done| |done]. exists h. unfold getBucket. by rewrite E.
  - pose proof (createBucket_abs _ _ _ Habs E) as Ha. pose proof (createBucket_find _ _ E) as Hf.
    rewrite (kvs_abs_None _ _ _ Habs E). cbn [default]. split_and!; [done| |].
    + eexists. unfold getBucket. by rewrite Hf.
    + unfold createBucket. by rewrite E.
Qed.

Section populate.
Context {W : Type} `{S3Service W} (reach : Endpoint -> s3_state W).

Lemma PopulateKVS_spec fuel c k s :
  kvs_abs k s ->
  let w := s3_world (reach (newEndpoint (cfg_endpointURL c) (cfg_accessKey c) (cfg_secretKey c))) in
  let b := cfg_bucket c in
  (length (pages w b []) <= fuel)%nat ->
  exists k' m', PopulateKVS reach fuel c k = Some (k', OkStatus) /\
    kvs_abs k' (<[b := m']> s) /\
    forall ky, m' !! ky =
      match contents w b ky with
      | Some content => Some (s3_info b ky (len content))
      | None => default ∅ (s !! b) !! ky
      end.
Proof.
  intros Habs w b Hfuel. unfold PopulateKVS. fold b.
  destruct (populate_bucket k s b Habs) as (Ha & (h & Hg & Hh) & Hst).
  destruct (createBucket b k) as [k1 st]. simpl in *.
  assert (negb (ok st) && negb (code_is kAlreadyExists st) = false) as ->.
  { rewrite <- negb_orb. by rewrite Hst. }
  rewrite Hg. destruct (s3_list_files b [] fuel
    (reach (newEndpoint (cfg_endpointURL c) (cfg_accessKey c) (cfg_secretKey c))) Hfuel)
    as (s' & files & -> & _ & Hl).
  pose proof (files_listed_contents _ _ _ _ Hl) as Hc. destruct Hl as (Hsort & Hfiles & _).
  destruct (populate_fold c h files k1 _ (default ∅ (s !! b)) Ha Hh) as (m' & Ha' & Hold & Hnew);
    [by rewrite lookup_insert_eq|done|].
  fold b in Ha', Hnew. rewrite insert_insert_eq in Ha'. eexists _, m'. split_and!; [done..|].
  intros ky. fold w in Hc. destruct (contents w b ky) as [content|] eqn:E.
  - apply (Hnew Hsort (mkFileStatus ky (len content) false)). apply Hc. eauto.
  - apply Hold. intros Hin. apply list_elem_of_In, in_map_iff in Hin as (f & <- & Hin).
    apply list_elem_of_In, Hc in Hin as (k' & c' & _ & Hk & ->). simpl in E. congruence.
Qed.
End populate.

(** ** Properties *)

(** C20: registering an object store for a bucket that has none publishes
    the store's objects: every object of the S3 bucket is listed under its key
    with location [s3://bucket/key] and its size, keys that are only in GEDS keep
    their entries, and no other bucket changes. The call returns OK. *)
Theorem register_populates (W : Type) `{S3Service W} (reach : Endpoint -> s3_state W) fuel r srv s :
  kvs_abs (srv_kvs srv) s ->
  mfind (rc_bucket r) (srv_stores srv) = None ->
  let w := s3_world (reach (newEndpoint (rc_endpointUrl r) (rc_accessKey r) (rc_secretKey r))) in
  let b := rc_bucket r in
  (length (pages w b []) <= fuel)%nat ->
  exists srv' resp m', RegisterObjectStore reach fuel r srv = Some (srv', resp) /\
    convertStatus resp = OkStatus /\
    kvs_abs (srv_kvs srv') (<[b := m']> s) /\
    forall ky, m' !! ky =
      match contents w b ky with
      | Some content => Some (s3_info b ky (len content))
      | None => default ∅ (s !! b) !! ky
      end.
Proof.
  intros Habs Hnew w b Hfuel. unfold RegisterObjectStore, insertConfig, minsert. simpl.
  rewrite Hnew. simpl.
  destruct (PopulateKVS_spec reach fuel (convert_config r) (srv_kvs srv) s Habs Hfuel)
    as (k' & m' & -> & Ha & Hm).
  by eexists _, _, m'.
Qed.

(** A store can be registered once per bucket. After a registration, even
    one that failed to list the S3 bucket and published nothing, every further
    registration for the bucket returns AlreadyExists and changes nothing, so a
    failed registration cannot be repeated. *)
Theorem register_again_refused (W : Type) `{S3Client W} reach reach' fuel fuel' r r' srv srv1 resp :
  RegisterObjectStore (W := W) reach fuel r srv = Some (srv1, resp) ->
  rc_bucket r' = rc_bucket r ->
  RegisterObjectStore (W := W) reach' fuel' r' srv1 =
    Some (srv1, respond (AlreadyExistsError
      ("ObjectStore config for bucket already exists: '" ++ rc_bucket r ++ "'."))).
Proof.
  intros H1 Hb.
  assert (Hfind : is_Some (mfind (rc_bucket r) (srv_stores srv1))).
  { revert H1. unfold RegisterObjectStore, insertConfig, minsert. simpl.
    destruct (mfind (rc_bucket r) (srv_stores srv)) as [c|] eqn:E; simpl.
    - intros [= <- _]. simpl. eauto.
    - destruct (PopulateKVS _ _ _ _) as [[k st]|]; [|done]. intros [= <- _]. simpl.
      rewrite mfind_massign_eq. eauto. }
  destruct Hfind as [c Hc].
  unfold RegisterObjectStore, insertConfig, minsert. simpl. rewrite Hb, Hc. simpl. by destruct srv1.
Qed.

(** ** Witnesses *)

Definition sample_config : RpcObjectStoreConfig := mkRpcConfig "b" "http://s3" "ak" "sk".
Definition sample_reach (_ : Endpoint) : s3_state MemS3.world := mem_state.

Lemma register_populates_witness :
  exists srv' resp m', RegisterObjectStore sample_reach 3 sample_config (newServer None) =
      Some (srv', resp) /\
    convertStatus resp = OkStatus /\
    kvs_abs (srv_kvs srv') {["b" : str := m']} /\
    m' !! ("d/y" : str) = Some (mkInfo "s3://b/d/y" 2 2 None).
Proof.
  destruct (register_populates MemS3.world sample_reach 3 sample_config (newServer None) ∅)
    as (srv' & resp & m' & E & Hok & Ha & Hm).
  - exact emptyKVS_abs.
  - reflexivity.
  - vm_compute. repeat constructor.
  - exists srv', resp, m'. split; [exact E|]. split; [exact Hok|]. split; [exact Ha|].
    rewrite Hm. vm_compute. reflexivity.
Defined.

(** The first registration fails: one page of fuel is needed, and the world
    below refuses to list. *)
Definition refusing : S3Client unit := {|
  ListObjectsV2 _ _ := Failure (mkS3Error ACCESS_DENIED 403 "AccessDenied" "denied");
  HeadObject _ _ _ := Failure MemS3.not_found;
  GetObject _ _ := Failure MemS3.not_found;
  DeleteObject _ _ w := (w, Failure MemS3.not_found);
  DeleteObjects _ _ w := (w, Failure MemS3.not_found);
  PutObject _ _ _ _ w := (w, PutThrewUnknown)
|}.

Lemma register_again_refused_witness :
  exists srv1 resp,
    @RegisterObjectStore unit refusing (fun _ => mkS3State tt 0 0) 1 sample_config (newServer None) =
      Some (srv1, resp) /\
    convertStatus resp = PermissionDeniedError "denied" /\
    @RegisterObjectStore unit refusing (fun _ => mkS3State tt 0 0) 1 sample_config srv1 =
      Some (srv1, respond (AlreadyExistsError "ObjectStore config for bucket already exists: 'b'.")).
Proof.
  eexists _, _. split; [vm_compute; reflexivity|]. split; [vm_compute; reflexivity|].
  exact (@register_again_refused unit refusing (fun _ => mkS3State tt 0 0)
           (fun _ => mkS3State tt 0 0) 1 1 sample_config sample_config (newServer None) _ _
           eq_refl eq_refl).
Defined.
