(* ===== verification/MetadataService.v ===== *)
(** * The metadata client

    [geds::MetadataService] (src/src/libgeds/MetadataService.h,
    MetadataService.cpp): the RPC client with its cache, itself an [MDSKVS]. The
    generated gRPC stub is the class [MDStub], over the state [S] of whatever it
    is connected to; [MDService] states that it reaches a metadata store, and
    the server of MetadataServer.v is an instance of both. *)

From Stdlib Require Import Ascii ZArith Lia.
From stdpp Require Import base gmap sets list strings numbers.
From S2P Require Import Prelude Decimal Status StdMap Path Object MDSKVSBucket MDSKVS FileSet.
From S2P Require Import Bytes S3Endpoint ParseGRPC Rpc MetadataServer.

Open Scope Z_scope.
Open Scope list_scope.

(** ** The stub *)

(** The [grpc::Status] of a call: when it is not OK the response is not
    filled in. *)
Inductive rpc (R : Type) :=
| RpcOk (r : R)
| RpcFail (error_message : str) (error_code : Z).
Arguments RpcOk {R} r.
Arguments RpcFail {R} error_message error_code.

(** The subscription request, and the rounds of a subscription stream: the
    publications read and how the stream finished. *)
Record RpcSubscription := mkRpcSubscription {
  rs_subscriberID : str;
  rs_bucketID : str;
  rs_key : str;
  rs_type : SubscriptionType
}.

Record stream_round := mkRound {
  rd_publications : list (PublicationType * RpcObject);
  rd_finish : rpc unit
}.

Class MDStub (S : Type) := {
  stub_GetConnectionInformation : S -> S * rpc ConnectionInformation;
  stub_RegisterObjectStore : RpcObjectStoreConfig -> S -> S * rpc StatusResponse;
  stub_ListObjectStores : S -> S * rpc (list RpcObjectStoreConfig);
  stub_CreateBucket : str -> S -> S * rpc StatusResponse;
  stub_DeleteBucket : str -> S -> S * rpc StatusResponse;
  stub_ListBuckets : S -> S * rpc BucketListResponse;
  stub_LookupBucket : str -> S -> S * rpc StatusResponse;
  stub_Create : RpcObject -> S -> S * rpc StatusResponse;
  stub_Update : RpcObject -> S -> S * rpc StatusResponse;
  stub_Delete : RpcObjectID -> S -> S * rpc StatusResponse;
  stub_DeletePrefix : RpcObjectID -> S -> S * rpc StatusResponse;
  stub_Lookup : RpcObjectID -> S -> S * rpc ObjectResponse;
  stub_List : ObjectListRequest -> S -> S * rpc ObjectListResponse;
  stub_Subscribe : RpcSubscription -> S -> S * rpc StatusResponse;
  stub_Unsubscribe : RpcSubscription -> S -> S * rpc StatusResponse
}.

(** ** State *)

Inductive ConnectionState := Disconnected | Connected | UnknownState.

Record MetadataService := mkService {
  ms_connectionState : ConnectionState;
  ms_mdsCache : MDSKVS;
  ms_channel : bool;                  (** [_channel != nullptr] *)
  ms_uuid : str;
  ms_serverAddress : str
}.

Definition newMetadataService (uuid address : str) (default_bucket : option str) :
    MetadataService :=
  mkService Disconnected (newKVS default_bucket) false uuid address.

Definition with_cache (k : MDSKVS) (c : MetadataService) : MetadataService :=
  mkService (ms_connectionState c) k (ms_channel c) (ms_uuid c) (ms_serverAddress c).

Definition is_connected (c : MetadataService) : bool :=
  match ms_connectionState c with Connected => true | _ => false end.

Definition not_connected : Status := FailedPreconditionError "Not connected.".

(** ** Connecting *)

(** What opening the channel gives. *)
Inductive channel_outcome := ChannelReady | ChannelTimeout | ChannelThrew (what : str).

(** [assertions]: whether the build checks [assert]. *)
Definition connect (assertions : bool) (ch : channel_outcome) (c : MetadataService) :
    outcome (MetadataService * Status) :=
  match ms_connectionState c with
  | Disconnected =>
      if assertions && ms_channel c then Abort else
      let opened st := mkService st (ms_mdsCache c) true (ms_uuid c) (ms_serverAddress c) in
      match ch with
      | ChannelThrew w =>
          Ret (c, UnavailableError ("Could not open channel with " ++ ms_serverAddress c ++
                                    ". Reason" ++ w))
      | ChannelTimeout =>
          Ret (opened Disconnected,
               UnavailableError ("Could not connect to " ++ ms_serverAddress c ++ "."))
      | ChannelReady => Ret (opened Connected, OkStatus)
      end
  | _ => Ret (c, UnknownError "Cannot reinitialize service.")
  end.

Definition disconnect (c : MetadataService) : MetadataService * Status :=
  if negb (is_connected c) then (c, UnknownError "The service is in the wrong state.")
  else (mkService Disconnected (ms_mdsCache c) false (ms_uuid c) (ms_serverAddress c), OkStatus).

(** ** Requests *)

Definition printGRPCError (error_message : str) (error_code : Z) : str :=
  match error_message with
  | [] => "Code: " ++ to_string_signed error_code
  | _ => error_message ++ " code: " ++ to_string_signed error_code
  end.

Section client.
Context {S : Type} `{MDStub S}.
Implicit Types (c : MetadataService) (s : S).

(** A call whose response is a [StatusResponse]. *)
Definition status_call (call : S -> S * rpc StatusResponse) (failed : str -> Z -> Status) s :
    S * Status :=
  match call s with
  | (s, RpcFail msg cd) => (s, failed msg cd)
  | (s, RpcOk response) => (s, convertStatus response)
  end.

Definition unavailable (what msg : str) (_ : Z) : Status := UnavailableError (what ++ msg).
Definition unavailable_code (what msg : str) (cd : Z) : Status :=
  UnavailableError (what ++ printGRPCError msg cd).

Definition registerObjectStoreConfig (mapping : ObjectStoreConfig) c s : MetadataService * S * Status :=
  if negb (is_connected c) then (c, s, not_connected) else
  let '(s, st) := status_call (stub_RegisterObjectStore (fill_config mapping))
                    (unavailable "Unable to execute RegisterObjectStore: ") s in
  (c, s, st).

Definition listObjectStoreConfigs c s : MetadataService * S * StatusOr (list ObjectStoreConfig) :=
  if negb (is_connected c) then (c, s, Error not_connected) else
  match stub_ListObjectStores s with
  | (s, RpcFail msg _) => (c, s, Error (UnavailableError ("Unable to execute ListObjectStores: " ++ msg)))
  | (s, RpcOk mappings) => (c, s, Value (map convert_config mappings))
  end.

Definition getConnectionInformation c s : MetadataService * S * StatusOr str :=
  if negb (is_connected c) then (c, s, Error not_connected) else
  match stub_GetConnectionInformation s with
  | (s, RpcFail msg _) =>
      (c, s, Error (UnavailableError ("Unable to execute GetConnectionInformation: " ++ msg)))
  | (s, RpcOk response) =>
      (c, s, match ci_error response with
             | Some e => from_status (convertStatus e)
             | None => Value (remoteAddress response)
             end)
  end.

Definition client_createBucket (b : str) c s : MetadataService * S * Status :=
  if negb (is_connected c) then (c, s, not_connected) else
  let '(s, st) := status_call (stub_CreateBucket b)
                    (unavailable "Unable to execute CreateBucket command: ") s in
  (c, s, st).

Definition client_deleteBucket (b : str) c s : MetadataService * S * Status :=
  if negb (is_connected c) then (c, s, not_connected) else
  let '(s, st) := status_call (stub_DeleteBucket b)
                    (unavailable "Unable to execute DeleteBucket command: ") s in
  (c, s, st).

Definition client_listBuckets c s : MetadataService * S * StatusOr (list str) :=
  if negb (is_connected c) then (c, s, Error not_connected) else
  match stub_ListBuckets s with
  | (s, RpcFail msg _) =>
      (c, s, Error (UnavailableError ("Unable to execute ListBuckets command: " ++ msg)))
  | (s, RpcOk response) =>
      (c, s, match bl_error response with
             | Some e => from_status (convertStatus e)
             | None => Value (bl_results response)
             end)
  end.

Definition lookupBucket (b : str) c s : MetadataService * S * Status :=
  if negb (is_connected c) then (c, s, not_connected) else
  match stub_LookupBucket b s with
  | (s, RpcFail msg _) =>
      (c, s, UnavailableError ("Unable to execute LookupBucket command: " ++ msg))
  | (s, RpcOk response) =>
      let st := convertStatus response in
      (if negb (ok st) then with_cache (fst (deleteBucket b (ms_mdsCache c))) c else c, s, st)
  end.

Definition client_createObject (o : Object) c s : MetadataService * S * Status :=
  if negb (is_connected c) then (c, s, not_connected) else
  let '(s, st) := status_call (stub_Create (fill_object o))
                    (unavailable "Unable to execute Create command: ") s in
  (c, s, st).

Definition client_updateObject (o : Object) c s : MetadataService * S * Status :=
  if negb (is_connected c) then (c, s, not_connected) else
  let c := with_cache (fst (kvs_updateObject o (ms_mdsCache c))) c in
  let '(s, st) := status_call (stub_Update (fill_object o))
                    (unavailable_code "Unable to execute Update command: ") s in
  (c, s, st).

Definition client_deleteObject (b ky : str) c s : MetadataService * S * Status :=
  if negb (is_connected c) then (c, s, not_connected) else
  let c := with_cache (fst (kvs_deleteObject b ky (ms_mdsCache c))) c in
  let '(s, st) := status_call (stub_Delete (mkRpcID b ky))
                    (unavailable_code "Unable to execute Delete command: ") s in
  (c, s, st).

Definition client_deleteObjectPrefix (b ky : str) c s : MetadataService * S * Status :=
  if negb (is_connected c) then (c, s, not_connected) else
  let c := with_cache (fst (kvs_deleteObjectPrefix b ky (ms_mdsCache c))) c in
  let '(s, st) := status_call (stub_DeletePrefix (mkRpcID b ky))
                    (unavailable_code "Unable to execute Delete command: ") s in
  (c, s, st).

(** The part of [lookup] that asks the server. *)
Definition lookup_remote (b ky : str) c s : MetadataService * S * StatusOr Object :=
  match stub_Lookup (mkRpcID b ky) s with
  | (s, RpcFail msg cd) =>
      (c, s, Error (UnavailableError ("Unable to execute Lookup command: " ++ printGRPCError msg cd)))
  | (s, RpcOk response) =>
      match or_error response with
      | Some e => (c, s, from_status (convertStatus e))
      | None =>
          let result := convert_object (or_result response) in
          (with_cache (fst (kvs_createObject result true (ms_mdsCache c))) c, s, Value result)
      end
  end.

Definition client_lookup (b ky : str) (invalidate : bool) c s : MetadataService * S * StatusOr Object :=
  if negb (is_connected c) then (c, s, Error not_connected) else
  if negb invalidate then
    match kvs_lookup b ky (ms_mdsCache c) with
    | Value o => (c, s, Value o)
    | Error _ => lookup_remote b ky c s
    end
  else lookup_remote b ky c s.

(** [listPrefix(bucket, keyPrefix, delimiter)]; the comparison [delimiter > 0]
    is on a signed [char]. *)
Definition listPrefix (b keyPrefix : str) (delimiter : ascii) c s :
    MetadataService * S * StatusOr (list Object * list str) :=
  if negb (is_connected c) then (c, s, Error not_connected) else
  let request := mkObjectListRequest (mkRpcID b keyPrefix)
                   (if 0 <? int_of_char delimiter then Some (int_of_char delimiter) else None) in
  match stub_List request s with
  | (s, RpcFail msg cd) =>
      (c, s, Error (UnavailableError ("Unable to execute List command: " ++ printGRPCError msg cd)))
  | (s, RpcOk response) =>
      match ol_error response with
      | Some e => (c, s, from_status (convertStatus e))
      | None =>
          let objects := map convert_object (ol_results response) in
          let cache := fold_left (fun k o => fst (kvs_createObject o true k)) objects (ms_mdsCache c) in
          (with_cache cache c, s, Value (objects, ol_commonPrefixes response))
      end
  end.

(** [listPrefix(bucket, keyPrefix)] *)
Definition listPrefix_all (b keyPrefix : str) c s : MetadataService * S * StatusOr (list Object) :=
  match listPrefix b keyPrefix NUL c s with
  | (c, s, Value r) => (c, s, Value (fst r))
  | (c, s, Error st) => (c, s, from_status st)
  end.

Definition listPrefixFromCache (b keyPrefix : str) (delimiter : ascii) c s :
    MetadataService * S * StatusOr (list Object * list str) :=
  match kvs_listObjects b keyPrefix delimiter (ms_mdsCache c) with
  | Value r => (c, s, Value r)
  | Error _ => listPrefix b keyPrefix delimiter c s
  end.

Definition listFolder (b keyPrefix : str) c s := listPrefix b keyPrefix Default_GEDSFolderDelimiter c s.

Definition subscription (e : SubscriptionEvent) c : RpcSubscription :=
  mkRpcSubscription (ms_uuid c) (sub_bucket e) (sub_key e) (subscriptionType e).

Definition subscribe (e : SubscriptionEvent) c s : MetadataService * S * Status :=
  if negb (is_connected c) then (c, s, not_connected) else
  let '(s, st) := status_call (stub_Subscribe (subscription e c))
                    (unavailable "Unable to execute CreateBucket command: ") s in
  (c, s, st).

Definition unsubscribe (e : SubscriptionEvent) c s : MetadataService * S * Status :=
  if negb (is_connected c) then (c, s, not_connected) else
  let '(s, st) := status_call (stub_Unsubscribe (subscription e c))
                    (unavailable "Unable to unsubscribe: ") s in
  (c, s, st).
End client.

(** One publication of the subscription stream, applied to the cache. *)
Definition apply_publication (k : MDSKVS) (p : PublicationType * RpcObject) : MDSKVS :=
  let obj := convert_object (snd p) in
  match fst p with
  | CREATE_OBJECT => fst (kvs_createObject obj true k)
  | UPDATE_OBJECT => fst (kvs_updateObject obj k)
  | DELETE_OBJECT => fst (kvs_deleteObject (bucket (id obj)) (key (id obj)) k)
  | NO_PUBLICATION => k
  end.

(** [subscribeStream]: reads the stream to its end, and starts over when it
    finished without error. [None]: still waiting after the given rounds. *)
Fixpoint subscribeStream (rounds : list stream_round) (c : MetadataService) :
    MetadataService * option Status :=
  if negb (is_connected c) then (c, Some not_connected) else
  match rounds with
  | [] => (c, None)
  | r :: rounds =>
      let c := with_cache (fold_left apply_publication (rd_publications r) (ms_mdsCache c)) c in
      match rd_finish r with
      | RpcFail msg _ => (c, Some (InternalError msg))
      | RpcOk _ => subscribeStream rounds c
      end
  end.

(** ** What the stub promises *)

(** A status call that performs the abstract operation [a]. *)
Definition status_law {S} (R : S -> KvsSpec.state -> Prop) (call : S -> S * rpc StatusResponse)
    (a : KvsSpec.op) : Prop :=
  forall s m, R s m -> exists s' m' r, call s = (s', RpcOk r) /\
    KvsSpec.step m a m' (KvsSpec.RStatus (convertStatus r)) /\ R s' m'.

(** The stub reaches a metadata store over a reliable connection. *)
Class MDService (S : Type) `{MDStub S} := {
  svc_abs : S -> KvsSpec.state -> Prop;
  svc_CreateBucket b : status_law svc_abs (stub_CreateBucket b) (KvsSpec.CreateBucket b);
  svc_DeleteBucket b : status_law svc_abs (stub_DeleteBucket b) (KvsSpec.DeleteBucket b);
  svc_LookupBucket b : status_law svc_abs (stub_LookupBucket b) (KvsSpec.BucketStatus b);
  svc_Create o : status_law svc_abs (stub_Create (fill_object o)) (KvsSpec.CreateObject o false);
  svc_Update o : status_law svc_abs (stub_Update (fill_object o)) (KvsSpec.UpdateObject o);
  svc_Delete b ky :
    status_law svc_abs (stub_Delete (mkRpcID b ky)) (KvsSpec.DeleteObject (mkID b ky));
  svc_DeletePrefix b ky :
    status_law svc_abs (stub_DeletePrefix (mkRpcID b ky)) (KvsSpec.DeleteObjectPrefix (mkID b ky));
  svc_Lookup b ky s m :
    svc_abs s m -> exists s' r, stub_Lookup (mkRpcID b ky) s = (s', RpcOk r) /\ svc_abs s' m /\
      KvsSpec.step m (KvsSpec.Lookup (mkID b ky)) m
        (KvsSpec.RObject (match or_error r with
                          | Some e => from_status (convertStatus e)
                          | None => Value (convert_object (or_result r))
                          end));
  svc_List b ky d s m :
    svc_abs s m ->
    exists s' r, stub_List (mkObjectListRequest (mkRpcID b ky) d) s = (s', RpcOk r) /\ svc_abs s' m /\
      KvsSpec.step m
        (KvsSpec.ListObjects (mkID b ky) (match d with Some d => char_of_int32 d | None => NUL end)) m
        (KvsSpec.RListing (match ol_error r with
                           | Some e => from_status (convertStatus e)
                           | None => Value (map convert_object (ol_results r), ol_commonPrefixes r)
                           end));
  svc_ListBuckets s m :
    svc_abs s m -> exists s' r, stub_ListBuckets s = (s', RpcOk r) /\ svc_abs s' m /\
      KvsSpec.step m KvsSpec.ListBuckets m
        (KvsSpec.RBuckets (match bl_error r with
                           | Some e => from_status (convertStatus e)
                           | None => Value (bl_results r)
                           end))
}.

(** *** The server keeps the promise *)

(** gRPC reports an exception that leaves a handler as an UNKNOWN error. The
    generated base class answers UNIMPLEMENTED for the calls the server does
    not override. *)
Section server_stub.
Context {W : Type} `{S3Client W} (reach : Endpoint -> s3_state W) (fuel : nat) (peer : str).

Definition answer {R} (p : Server * R) : Server * rpc R := (fst p, RpcOk (snd p)).

#[local] Instance server_stub : MDStub Server := {|
  stub_GetConnectionInformation s :=
    match GetConnectionInformation peer s with
    | Ret p => answer p
    | _ => (s, RpcFail "Unexpected error in RPC handling" 2)
    end;
  stub_RegisterObjectStore r s :=
    match RegisterObjectStore reach fuel r s with
    | Some p => answer p
    | None => (s, RpcFail "Deadline Exceeded" 4)
    end;
  stub_ListObjectStores s := answer (ListObjectStores s);
  stub_CreateBucket b s := answer (CreateBucket b s);
  stub_DeleteBucket b s := answer (DeleteBucket b s);
  stub_ListBuckets s := answer (ListBuckets s);
  stub_LookupBucket b s := answer (LookupBucket b s);
  stub_Create r s := answer (Create r s);
  stub_Update r s := answer (Update r s);
  stub_Delete r s := answer (Delete r s);
  stub_DeletePrefix r s := answer (DeletePrefix r s);
  stub_Lookup r s := answer (Lookup r s);
  stub_List r s := answer (List r s);
  stub_Subscribe _ s := (s, RpcFail [] 12);
  stub_Unsubscribe _ s := (s, RpcFail [] 12)
|}.

Definition server_abs (s : Server) (m : KvsSpec.state) : Prop := kvs_abs (srv_kvs s) m.

(** The statuses the store returns survive the response message. *)
Definition faithful (st : Status) : Prop := convertStatus (respond st) = st.

Lemma faithful_error c msg : faithful (error c msg).
Proof. apply convertStatus_error. Qed.

Lemma faithful_ok : faithful OkStatus.
Proof. done. Qed.

Lemma step_faithful m a m' st : KvsSpec.step m a m' (KvsSpec.RStatus st) -> faithful st.
Proof.
  destruct a; simpl; unfold KvsSpec.no_bucket, KvsSpec.no_key, prefix_status;
    intros Hs; repeat case_match; destruct_and?; destruct_or?; simplify_eq;
    naive_solver eauto using faithful_error, faithful_ok.
Qed.

(** A handler that runs the store's operation [a] and answers its status. *)
Lemma handler_law (h : Server -> Server * StatusResponse) a :
  (forall s, exists st, snd (kvs_exec (srv_kvs s) a) = KvsSpec.RStatus st /\
     srv_kvs (fst (h s)) = fst (kvs_exec (srv_kvs s) a) /\ snd (h s) = respond st) ->
  status_law server_abs (fun s => answer (h s)) a.
Proof.
  intros Hh s m Ha. destruct (kvs_exec_sim (srv_kvs s) m a Ha) as (m' & Hst & Ha').
  destruct (Hh s) as (st & Hr & Hk & Hresp). rewrite Hr in Hst.
  exists (fst (h s)), m', (respond st). unfold answer. rewrite Hresp.
  rewrite (step_faithful _ _ _ _ Hst). split_and!; [done..|]. unfold server_abs. by rewrite Hk.
Qed.

Lemma respond_error {A} st : ok st = false -> faithful st ->
  from_status (A := A) (convertStatus (respond st)) = Error st.
Proof. intros Hok Hf. rewrite Hf. unfold from_status. by rewrite Hok. Qed.

#[local, refine] Instance server_service : MDService Server := {| svc_abs := server_abs |}.
Proof.
  all: try (intros; apply handler_law; intros s; simpl;
    unfold CreateBucket, DeleteBucket, LookupBucket, Create, Update, Delete, DeletePrefix;
    rewrite ?convert_fill_object; simpl;
    match goal with
    | |- context [let '(_, _) := ?e in _] => destruct e as [k st]; by exists st
    | |- _ => eexists; done
    end).
  - intros b ky s m Ha. eexists _, _. split; [done|]. split; [done|]. simpl.
    destruct (kvs_exec_sim (srv_kvs s) m (KvsSpec.Lookup (mkID b ky)) Ha) as (m' & [-> Hr] & _).
    split; [done|]. simpl in Hr. injection Hr as Hr. rewrite <- Hr.
    destruct (kvs_lookup b ky (srv_kvs s)) as [o|st] eqn:E; simpl.
    + by rewrite convert_fill_object.
    + f_equal. destruct (m !! b) as [mb|]; [destruct (mb !! ky); [done|]|]; injection Hr as ->;
        apply respond_error; (done || apply faithful_error).
  - intros b ky d s m Ha. eexists _, _. split; [done|]. split; [done|].
    set (dd := match d with Some d => char_of_int32 d | None => NUL end).
    destruct (kvs_exec_sim (srv_kvs s) m (KvsSpec.ListObjects (mkID b ky) dd) Ha) as (m' & [-> Hr] & _).
    split; [done|]. simpl in *. fold dd.
    destruct (m !! b) as [mb|].
    + destruct Hr as (objs & cps & Hr & Hl). injection Hr as Hr. rewrite Hr. simpl.
      exists objs, cps. by rewrite map_convert_fill.
    + injection Hr as Hr. rewrite Hr. simpl. done.
  - intros s m Ha. eexists _, _. split; [done|]. split; [done|].
    destruct (kvs_exec_sim (srv_kvs s) m KvsSpec.ListBuckets Ha) as (m' & [-> Hr] & _).
    split; [done|]. exact Hr.
Defined.
End server_stub.

(** ** The cache *)

Definition entry (m : KvsSpec.state) (b ky : str) : option ObjectInfo := m !! b ≫= fun mb => mb !! ky.

(** Everything cached is what the store holds. *)
Definition coherent (c : MetadataService) (m : KvsSpec.state) : Prop :=
  exists cm, kvs_abs (ms_mdsCache c) cm /\
    forall b ky i, entry cm b ky = Some i -> entry m b ky = Some i.

Lemma entry_insert m b mb b' ky :
  entry (<[b := mb]> m) b' ky = if decide (b = b') then mb !! ky else entry m b' ky.
Proof. unfold entry. rewrite lookup_insert. by case_decide. Qed.

Lemma entry_delete m b b' ky :
  entry (delete b m) b' ky = if decide (b = b') then None else entry m b' ky.
Proof. unfold entry. rewrite lookup_delete. by case_decide. Qed.

Lemma entry_default m b ky : default ∅ (m !! b) !! ky = entry m b ky.
Proof. unfold entry. by destruct (m !! b). Qed.

(** The effect of each abstract operation on the entries. *)
Lemma step_entry m a m' r b ky :
  KvsSpec.step m a m' r ->
  entry m' b ky =
    match a with
    | KvsSpec.DeleteBucket nm => if decide (nm = b) then None else entry m b ky
    | KvsSpec.CreateObject o f =>
        if decide (r = KvsSpec.RStatus OkStatus /\ id o = mkID b ky) then Some (info o)
        else entry m b ky
    | KvsSpec.UpdateObject o =>
        if decide (is_Some (entry m b ky) /\ id o = mkID b ky) then Some (info o) else entry m b ky
    | KvsSpec.DeleteObject i => if decide (i = mkID b ky) then None else entry m b ky
    | KvsSpec.DeleteObjectPrefix i =>
        if decide (bucket i = b /\ starts_with (key i) ky = true) then None else entry m b ky
    | _ => entry m b ky
    end.
Proof.
  destruct a as [nm|nm| |nm|o f|o|i|i|i|i d]; simpl.
  - destruct (m !! nm) eqn:E; intros [-> _]; [done|]. rewrite entry_insert. case_decide; [|done].
    subst. unfold entry. by rewrite E.
  - intros [-> _]. apply entry_delete.
  - by intros [-> _].
  - by intros [-> _].
  - destruct o as [[ob ok'] oi]; simpl. 
    assert (Hins : forall mm, m' = <[ob := <[ok' := oi]> (default ∅ mm)]> m -> mm = m !! ob ->
      entry m' b ky = if decide (mkID ob ok' = mkID b ky) then Some oi else entry m b ky).
    { intros mm -> ->. rewrite entry_insert. case_decide as Hb; [subst b|].
      - rewrite lookup_insert, entry_default. repeat case_decide; simplify_eq; done.
      - rewrite decide_False by congruence. done. }
    destruct (m !! ob) as [mb|] eqn:E; [|destruct f]; intros [Hm ->].
    + rewrite (Hins (Some mb)) by done. repeat case_decide; naive_solver.
    + rewrite (Hins None) by done. repeat case_decide; naive_solver.
    + subst m'. rewrite decide_False; [done|]. by intros [? _].
  - destruct o as [[ob ok'] oi]; simpl. destruct (m !! ob) as [mb|] eqn:E.
    + destruct (mb !! ok') as [x|] eqn:Ex; intros [-> _].
      * rewrite entry_insert. case_decide as Hb; [subst b|].
        -- rewrite lookup_insert. unfold entry. rewrite E. simpl.
           case_decide as Hk; [subst ok'; rewrite decide_True by eauto; done|].
           rewrite decide_False; [done|]. naive_solver.
        -- rewrite decide_False; [done|]. naive_solver.
      * rewrite decide_False; [done|]. intros [[y Hy] [= -> ->]]. unfold entry in Hy.
        rewrite E in Hy. simpl in Hy. congruence.
    + intros [-> _]. rewrite decide_False; [done|]. intros [[y Hy] [= -> ->]].
      unfold entry in Hy. by rewrite E in Hy.
  - destruct i as [ib ik]; simpl. destruct (m !! ib) as [mb|] eqn:E; intros [-> _].
    + rewrite entry_insert. case_decide as Hb; [subst b|].
      * rewrite lookup_delete. unfold entry. rewrite E. simpl. repeat case_decide; naive_solver.
      * rewrite decide_False; [done|]. congruence.
    + case_decide as Hd; [|done]. injection Hd as -> ->. unfold entry. by rewrite E.
  - destruct i as [ib ik]; simpl. destruct (m !! ib) as [mb|] eqn:E; intros [-> _].
    + rewrite entry_insert. case_decide as Hb; [subst b|].
      * rewrite map_lookup_filter. unfold entry. rewrite E. simpl.
        destruct (mb !! ky) as [x|]; simpl; [|by case_decide].
        case_guard as Hg; simpl in *; case_decide as Hd; try done; [destruct Hd; congruence|].
        exfalso. apply Hd. split; [done|]. by destruct (starts_with ik ky).
      * rewrite decide_False; [done|]. naive_solver.
    + case_decide as Hd; [|done]. destruct Hd as [-> _]. unfold entry. by rewrite E.
  - by intros [-> _].
  - by intros [-> _].
Qed.

Lemma kvs_lookup_entry k cm b ky :
  kvs_abs k cm ->
  match kvs_lookup b ky k with
  | Value o => exists i, entry cm b ky = Some i /\ o = mkObject (mkID b ky) i
  | Error _ => entry cm b ky = None
  end.
Proof.
  intros Ha. destruct (kvs_exec_sim k cm (KvsSpec.Lookup (mkID b ky)) Ha) as (m' & [_ Hr] & _).
  simpl in Hr. injection Hr as ->. unfold entry.
  destruct (cm !! b) as [mb|]; simpl; [|done]. destruct (mb !! ky) eqn:E; simpl; eauto.
Qed.

(** Running an operation on the cache. *)
Lemma cache_exec c cm a m' r :
  kvs_abs (ms_mdsCache c) cm -> kvs_exec (ms_mdsCache c) a = (m', r) ->
  exists cm', KvsSpec.step cm a cm' r /\ kvs_abs (ms_mdsCache (with_cache m' c)) cm'.
Proof.
  intros Ha E. destruct (kvs_exec_sim _ _ a Ha) as (cm' & Hs & Ha').
  rewrite E in Hs, Ha'. by exists cm'.
Qed.

Lemma coherent_put c m o :
  coherent c m -> entry m (bucket (id o)) (key (id o)) = Some (info o) ->
  coherent (with_cache (fst (kvs_createObject o true (ms_mdsCache c))) c) m.
Proof.
  intros (cm & Ha & Hc) He.
  destruct (cache_exec c cm (KvsSpec.CreateObject o true) _ _ Ha (surjective_pairing _)) as (cm' & Hs & Ha').
  exists cm'. split.
  - revert Ha'. simpl. by destruct (kvs_createObject o true (ms_mdsCache c)).
  - intros b ky i. rewrite (step_entry _ _ _ _ b ky Hs).
    case_decide as Hd; [|apply Hc]. intros [= <-]. destruct Hd as [_ Hid]. by rewrite Hid in He.
Qed.

Lemma coherent_put_all os c m :
  coherent c m -> Forall (fun o => entry m (bucket (id o)) (key (id o)) = Some (info o)) os ->
  coherent (with_cache (fold_left (fun k o => fst (kvs_createObject o true k)) os (ms_mdsCache c)) c) m.
Proof.
  intros Hc Hos. revert c Hc. induction Hos as [|o os Ho Hos IH]; intros c Hc; simpl.
  - by destruct c.
  - apply (coherent_put c m o Hc) in Ho. exact (IH _ Ho).
Qed.

Section refinement.
Context {S : Type} `{MDService S}.
Implicit Types (c : MetadataService) (s : S) (m : KvsSpec.state).

(** The requests of the client under one signature; the flag is the
    [invalidate] argument of [lookup]. *)
Definition client_exec (a : KvsSpec.op) (invalidate : bool) c s : MetadataService * S * KvsSpec.res :=
  match a with
  | KvsSpec.CreateBucket b =>
      let '(c, s, r) := client_createBucket b c s in (c, s, KvsSpec.RStatus r)
  | KvsSpec.DeleteBucket b =>
      let '(c, s, r) := client_deleteBucket b c s in (c, s, KvsSpec.RStatus r)
  | KvsSpec.ListBuckets => let '(c, s, r) := client_listBuckets c s in (c, s, KvsSpec.RBuckets r)
  | KvsSpec.BucketStatus b => let '(c, s, r) := lookupBucket b c s in (c, s, KvsSpec.RStatus r)
  | KvsSpec.CreateObject o _ =>
      let '(c, s, r) := client_createObject o c s in (c, s, KvsSpec.RStatus r)
  | KvsSpec.UpdateObject o =>
      let '(c, s, r) := client_updateObject o c s in (c, s, KvsSpec.RStatus r)
  | KvsSpec.DeleteObject i =>
      let '(c, s, r) := client_deleteObject (bucket i) (key i) c s in (c, s, KvsSpec.RStatus r)
  | KvsSpec.DeleteObjectPrefix i =>
      let '(c, s, r) := client_deleteObjectPrefix (bucket i) (key i) c s in (c, s, KvsSpec.RStatus r)
  | KvsSpec.Lookup i =>
      let '(c, s, r) := client_lookup (bucket i) (key i) invalidate c s in (c, s, KvsSpec.RObject r)
  | KvsSpec.ListObjects i d =>
      let '(c, s, r) := listPrefix (bucket i) (key i) d c s in (c, s, KvsSpec.RListing r)
  end.

(** The request that reaches the server: it never creates a bucket implicitly,
    and a delimiter above 127, a negative [char], is not sent. *)
Definition sent_request (a : KvsSpec.op) : KvsSpec.op :=
  match a with
  | KvsSpec.CreateObject o _ => KvsSpec.CreateObject o false
  | KvsSpec.ListObjects i d => KvsSpec.ListObjects i (if 0 <? int_of_char d then d else NUL)
  | a => a
  end.

(** Requests the client can make ([createObject] has no flag for creating the
    bucket) whose delimiter, if any, is a character below 128. *)
Definition plain_request (a : KvsSpec.op) : Prop :=
  match a with
  | KvsSpec.CreateObject _ f => f = false
  | KvsSpec.ListObjects _ d => 0 <= int_of_char d
  | _ => True
  end.

Lemma int_of_char_0 d : int_of_char d = 0 -> d = NUL.
Proof. intros Hd. by rewrite <- (char_int32_roundtrip d), Hd. Qed.

Lemma plain_sent a : plain_request a -> sent_request a = a.
Proof.
  destruct a as [b|b| |b|o f|o|i|i|i|i d]; cbn [plain_request sent_request]; [done..| | | | | |]; try done; [by intros ->|].
  intros Hd. destruct (Z.ltb_spec 0 (int_of_char d)); [done|]. by rewrite (int_of_char_0 d) by lia.
Qed.

(** Requests that do not overwrite something the cache still holds. *)
Definition cache_safe c (a : KvsSpec.op) : Prop :=
  match a with
  | KvsSpec.CreateObject o _ =>
      is_ok (kvs_lookup (bucket (id o)) (key (id o)) (ms_mdsCache c)) = false
  | KvsSpec.DeleteBucket b => forall ky, is_ok (kvs_lookup b ky (ms_mdsCache c)) = false
  | _ => True
  end.

Lemma status_call_law call failed a s m :
  status_law svc_abs call a -> svc_abs s m ->
  exists s' m' st, status_call call failed s = (s', st) /\
    KvsSpec.step m a m' (KvsSpec.RStatus st) /\ svc_abs s' m'.
Proof.
  intros Hl Ha. destruct (Hl s m Ha) as (s' & m' & r & E & Hs & Ha').
  exists s', m', (convertStatus r). unfold status_call. by rewrite E.
Qed.

Lemma with_cache_connected k c : is_connected (with_cache k c) = is_connected c.
Proof. done. Qed.

(** A status request without effect on the cache. *)
Lemma coherent_keep c m m' a r :
  coherent c m -> KvsSpec.step m a m' r ->
  (forall b ky i, entry m b ky = Some i -> is_ok (kvs_lookup b ky (ms_mdsCache c)) = true ->
     entry m' b ky = Some i) ->
  coherent c m'.
Proof.
  intros (cm & Ha & Hc) Hs Hk. exists cm. split; [done|]. intros b ky i He.
  apply (Hk b ky i (Hc _ _ _ He)). pose proof (kvs_lookup_entry _ _ b ky Ha) as Hl.
  destruct (kvs_lookup b ky (ms_mdsCache c)); [done|]. congruence.
Qed.

(** A status request that performs the same operation on the cache first. *)
Lemma coherent_both c m m' a r :
  coherent c m -> KvsSpec.step m a m' r ->
  match a with
  | KvsSpec.UpdateObject _ | KvsSpec.DeleteObject _ | KvsSpec.DeleteObjectPrefix _ => True
  | _ => False
  end ->
  coherent (with_cache (fst (kvs_exec (ms_mdsCache c) a)) c) m'.
Proof.
  intros (cm & Ha & Hc) Hs Hkind.
  destruct (cache_exec c cm a _ _ Ha (surjective_pairing _)) as (cm' & Hs' & Ha').
  exists cm'. split; [done|]. intros b ky i He.
  rewrite (step_entry _ _ _ _ b ky Hs') in He. rewrite (step_entry _ _ _ _ b ky Hs).
  destruct a; try done.
  - case_decide as Hd.
    + destruct Hd as [[x Hx] Hid]. rewrite decide_True; [done|]. split; [|done].
      exists x. by apply Hc.
    + rewrite decide_False; [by apply Hc|]. intros [_ Hid]. apply Hd. split; [|done]. by exists i.
  - case_decide; [done|]. by apply Hc.
  - case_decide; [done|]. by apply Hc.
Qed.

(** The three requests that also go to the cache. *)
Lemma both_sim c s m a call failed :
  status_law svc_abs call a -> svc_abs s m -> coherent c m ->
  match a with
  | KvsSpec.UpdateObject _ | KvsSpec.DeleteObject _ | KvsSpec.DeleteObjectPrefix _ => True
  | _ => False
  end ->
  exists s' st m', status_call call failed s = (s', st) /\
    KvsSpec.step m a m' (KvsSpec.RStatus st) /\ svc_abs s' m' /\
    coherent (with_cache (fst (kvs_exec (ms_mdsCache c) a)) c) m'.
Proof.
  intros Hl Ha Hc Hk. destruct (status_call_law call failed a s m Hl Ha) as (s' & m' & st & E & Hs & Ha').
  exists s', st, m'. split_and!; [done..|]. by eapply coherent_both.
Qed.

(** Looking up remotely. *)
Lemma lookup_remote_sim b ky c s m :
  svc_abs s m -> coherent c m ->
  exists c' s' r, lookup_remote b ky c s = (c', s', r) /\ svc_abs s' m /\ coherent c' m /\
    is_connected c' = is_connected c /\
    KvsSpec.step m (KvsSpec.Lookup (mkID b ky)) m (KvsSpec.RObject r).
Proof.
  intros Ha Hc. destruct (svc_Lookup b ky s m Ha) as (s' & r & E & Ha' & Hs).
  unfold lookup_remote. rewrite E. destruct (or_error r) as [e|].
  - by eexists _, _, _.
  - eexists _, _, _. split_and!; [done|done| |done|done].
    apply coherent_put; [done|]. revert Hs. generalize (convert_object (or_result r)).
    intros o [_ Hr]. injection Hr as Hr. unfold entry. destruct (m !! b) as [mb|] eqn:Eb; [|done].
    destruct (mb !! ky) as [i|] eqn:Ek; [|done]. injection Hr as ->. simpl. rewrite Eb. simpl. done.
Qed.

Lemma client_lookup_sim i inv c s m :
  svc_abs s m -> coherent c m -> is_connected c = true ->
  exists c' s' r, client_lookup (bucket i) (key i) inv c s = (c', s', r) /\ svc_abs s' m /\
    coherent c' m /\ is_connected c' = true /\
    KvsSpec.step m (KvsSpec.Lookup i) m (KvsSpec.RObject r).
Proof.
  intros Ha Hc Hconn. unfold client_lookup. rewrite Hconn. cbn [negb].
  destruct (lookup_remote_sim (bucket i) (key i) c s m Ha Hc)
    as (c' & s' & r & E & Ha' & Hc' & Hn & Hs).
  destruct i as [b ky]; simpl in *. rewrite E.
  assert (Hrem : exists c'' s'' r'', (c', s', r) = (c'', s'', r'') /\ svc_abs s'' m /\
    coherent c'' m /\ is_connected c'' = true /\
    m = m /\ KvsSpec.RObject r'' =
      KvsSpec.RObject (match m !! b with
                   | None => Error (KvsSpec.no_bucket b)
                   | Some m0 => match m0 !! ky with
                               | None => Error (KvsSpec.no_key ky)
                               | Some x => Value (mkObject (mkID b ky) x)
                               end
                   end)).
  { eexists _, _, _. split_and!; [done..|congruence|done|apply Hs]. }
  destruct inv; cbn [negb]; [done|].
  destruct (kvs_lookup b ky (ms_mdsCache c)) as [o|] eqn:El; [|done].
  eexists _, _, _. split_and!; [done..|]. f_equal.
  destruct Hc as (cm & Hk & Hcm). pose proof (kvs_lookup_entry _ _ b ky Hk) as Hl. rewrite El in Hl.
  destruct Hl as (x & Hx & ->). apply Hcm in Hx. unfold entry in Hx.
  destruct (m !! b) as [mb|]; [|done]. simpl in Hx. by rewrite Hx.
Qed.

Lemma listPrefix_sim i d c s m :
  svc_abs s m -> coherent c m -> is_connected c = true ->
  exists c' s' r, listPrefix (bucket i) (key i) d c s = (c', s', r) /\ svc_abs s' m /\
    coherent c' m /\ is_connected c' = true /\
    KvsSpec.step m (sent_request (KvsSpec.ListObjects i d)) m (KvsSpec.RListing r).
Proof.
  intros Ha Hc Hconn. unfold listPrefix. rewrite Hconn. cbn [negb].
  set (dd := if 0 <? int_of_char d then Some (int_of_char d) else None).
  destruct (svc_List (bucket i) (key i) dd s m Ha) as (s' & r & -> & Ha' & Hs).
  assert (Hdd : match dd with Some d => char_of_int32 d | None => NUL end =
                if 0 <? int_of_char d then d else NUL).
  { unfold dd. destruct (0 <? int_of_char d); [apply char_int32_roundtrip|done]. }
  rewrite Hdd in Hs. destruct i as [b ky]. simpl in *. destruct (ol_error r) as [e|].
  - by eexists _, _, _.
  - eexists _, _, _. split_and!; [done|done| |done|done|apply Hs].
    apply coherent_put_all; [done|]. revert Hs. generalize (map convert_object (ol_results r)).
    intros os [_ Hs]. unfold entry.
    destruct (m !! b) as [mb|] eqn:Eb; [|done].
    destruct Hs as (objs & cps & Hr & (Hin & _)). injection Hr as -> _.
    apply Forall_intro. intros o Ho. apply Hin in Ho as (-> & Hv & _). by rewrite Eb.
Qed.

Lemma client_exec_sim a inv c s m :
  svc_abs s m -> coherent c m -> is_connected c = true -> cache_safe c a ->
  exists c' s' m' r, client_exec a inv c s = (c', s', r) /\
    KvsSpec.step m (sent_request a) m' r /\ svc_abs s' m' /\ coherent c' m' /\ is_connected c' = true.
Proof.
  intros Ha Hc Hconn Hsafe.
  destruct a as [b|b| |b|o f|o|i|i|i|i d]; cbn [client_exec sent_request].
  - unfold client_createBucket. rewrite Hconn. cbn [negb].
    destruct (status_call_law _ (unavailable "Unable to execute CreateBucket command: ") _ s m
                (svc_CreateBucket b) Ha) as (s' & m' & st & -> & Hs & Ha').
    eexists _, _, m', _. split_and!; [done..| |done].
    eapply coherent_keep; [done..|]. intros b' ky i He _. by rewrite (step_entry _ _ _ _ b' ky Hs).
  - unfold client_deleteBucket. rewrite Hconn. cbn [negb].
    destruct (status_call_law _ (unavailable "Unable to execute DeleteBucket command: ") _ s m
                (svc_DeleteBucket b) Ha) as (s' & m' & st & -> & Hs & Ha').
    eexists _, _, m', _. split_and!; [done..| |done].
    eapply coherent_keep; [done..|]. intros b' ky i He Hl. rewrite (step_entry _ _ _ _ b' ky Hs).
    case_decide; [|done]. subst b'. by rewrite (Hsafe ky) in Hl.
  - unfold client_listBuckets. rewrite Hconn. cbn [negb].
    destruct (svc_ListBuckets s m Ha) as (s' & r & -> & Ha' & Hs). by eexists _, _, m, _.
  - unfold lookupBucket. rewrite Hconn. cbn [negb].
    destruct (svc_LookupBucket b s m Ha) as (s' & m' & r & -> & [-> Hs] & Ha').
    eexists _, _, m, _. split; [reflexivity|]. split; [done|]. split; [done|].
    split; [|by destruct (negb (ok (convertStatus r)))].
    destruct (negb (ok (convertStatus r))); [|done]. destruct Hc as (cm & Hk & Hcm).
    exists (delete b cm). split; [by apply deleteBucket_abs|]. intros b' ky i.
    rewrite entry_delete. destruct (decide (b = b')); [done|]. apply Hcm.
  - unfold client_createObject. rewrite Hconn. cbn [negb].
    destruct (status_call_law _ (unavailable "Unable to execute Create command: ") _ s m
                (svc_Create o) Ha) as (s' & m' & st & -> & Hs & Ha').
    eexists _, _, m', _. split_and!; [done..| |done].
    eapply coherent_keep; [done..|]. intros b' ky i He Hl. rewrite (step_entry _ _ _ _ b' ky Hs).
    rewrite decide_False; [done|]. intros [_ Hid]. simpl in Hsafe. rewrite Hid in Hsafe. simpl in Hsafe.
    congruence.
  - unfold client_updateObject. rewrite Hconn. cbn [negb].
    destruct (both_sim c s m _ _ (unavailable_code "Unable to execute Update command: ")
                (svc_Update o) Ha Hc I) as (s' & st & m' & -> & Hs & Ha' & Hc').
    eexists _, _, m', _. split_and!; [done..| |done]. revert Hc'. simpl. by destruct (kvs_updateObject _ _).
  - unfold client_deleteObject. rewrite Hconn. cbn [negb]. destruct i as [b ky]; cbn [bucket key].
    destruct (both_sim c s m _ _ (unavailable_code "Unable to execute Delete command: ")
                (svc_Delete b ky) Ha Hc I) as (s' & st & m' & -> & Hs & Ha' & Hc').
    eexists _, _, m', _. split_and!; [done..| |done]. revert Hc'. simpl. by destruct (kvs_deleteObject _ _ _).
  - unfold client_deleteObjectPrefix. rewrite Hconn. cbn [negb]. destruct i as [b ky]; cbn [bucket key].
    destruct (both_sim c s m _ _ (unavailable_code "Unable to execute Delete command: ")
                (svc_DeletePrefix b ky) Ha Hc I) as (s' & st & m' & -> & Hs & Ha' & Hc').
    eexists _, _, m', _. split_and!; [done..| |done]. revert Hc'. simpl.
    by destruct (kvs_deleteObjectPrefix _ _ _).
  - destruct (client_lookup_sim i inv c s m Ha Hc Hconn) as (c' & s' & r & -> & Ha' & Hc' & Hn & Hs).
    by eexists _, _, m, _.
  - destruct (listPrefix_sim i d c s m Ha Hc Hconn) as (c' & s' & r & -> & Ha' & Hc' & Hn & Hs).
    by eexists _, _, m, _.
Qed.
End refinement.

(** A sequence of requests, each with the [invalidate] flag of a lookup, and the
    results. *)
Fixpoint client_run {S} `{MDStub S} (reqs : list (KvsSpec.op * bool)) (c : MetadataService) (s : S) :
    MetadataService * S * list (KvsSpec.op * KvsSpec.res) :=
  match reqs with
  | [] => (c, s, [])
  | (a, inv) :: reqs =>
      let '(c, s, r) := client_exec a inv c s in
      let '(c, s, t) := client_run reqs c s in (c, s, (a, r) :: t)
  end.

Fixpoint safe_run {S} `{MDStub S} (reqs : list (KvsSpec.op * bool)) (c : MetadataService) (s : S) : Prop :=
  match reqs with
  | [] => True
  | (a, inv) :: reqs =>
      cache_safe c a /\ let '(c, s, _) := client_exec a inv c s in safe_run reqs c s
  end.

Lemma client_run_sim (S : Type) `{MDService S} reqs c (s : S) m :
  svc_abs s m -> coherent c m -> is_connected c = true -> safe_run reqs c s ->
  Forall (fun req => plain_request (fst req)) reqs ->
  exists m', let '(c', s', trace) := client_run reqs c s in
    KvsSpec.steps m trace m' /\ svc_abs s' m' /\ coherent c' m'.
Proof.
  intros Ha Hc Hconn Hsafe Hplain. revert c s m Ha Hc Hconn Hsafe.
  induction Hplain as [|[a inv] reqs Hp _ IH]; intros c s m Ha Hc Hconn Hsafe; simpl.
  { exists m. split_and!; [constructor|done..]. }
  destruct Hsafe as [Hsa Hsafe].
  destruct (client_exec_sim a inv c s m Ha Hc Hconn Hsa)
    as (c1 & s1 & m1 & r & E & Hs & Ha1 & Hc1 & Hconn1).
  cbn [fst] in Hp. rewrite (plain_sent a Hp) in Hs.
  rewrite E in *. destruct (IH c1 s1 m1 Ha1 Hc1 Hconn1 Hsafe) as (m' & Hrun).
  destruct (client_run reqs c1 s1) as [[c2 s2] t]. exists m'.
  destruct Hrun as (H1 & H2 & H3). split_and!; [by econstructor|done..].
Qed.

Lemma client_run_requests {S} `{MDStub S} reqs c (s : S) : (snd (client_run reqs c s)).*1 = reqs.*1.
Proof.
  revert c s. induction reqs as [|[a inv] reqs IH]; intros c s; [done|]. cbn [client_run].
  destruct (client_exec a inv c s) as [[c1 s1] r]. specialize (IH c1 s1).
  destruct (client_run reqs c1 s1) as [[c2 s2] t]. cbn [snd] in *. cbn. by f_equal.
Qed.

(** A negative delimiter is not sent. *)
Lemma listPrefix_negative {S} `{MDStub S} b ky d c (s : S) :
  int_of_char d < 0 -> listPrefix b ky d c s = listPrefix b ky NUL c s.
Proof. intros Hd. unfold listPrefix. rewrite (proj2 (Z.ltb_ge 0 (int_of_char d))) by lia. done. Qed.

(** ** Properties *)

(** C3: a client with its cache behaves like the store itself. For any
    sequence of requests over a reliable connection to a metadata store that no
    one else modifies, in which the client neither re-creates an object nor
    deletes a bucket it has cached and lists with delimiters below 128 only, every
    result, whether it comes from the cache or from the server, is the result of
    the abstract store, and the cache stays coherent with it. With a delimiter above 127
    it is not: the delimiter is not sent, and the client returns the listing
    without a delimiter. *)
Theorem client_refines_store (S : Type) `{MDService S} reqs c (s : S) m :
  svc_abs s m -> coherent c m -> is_connected c = true -> safe_run reqs c s ->
  Forall (fun req => plain_request (fst req)) reqs ->
  (exists m', let '(c', s', trace) := client_run reqs c s in
    trace.*1 = reqs.*1 /\ KvsSpec.steps m trace m' /\ svc_abs s' m' /\ coherent c' m') /\
  (forall i d inv, int_of_char d < 0 ->
     exists c' s' r, client_exec (KvsSpec.ListObjects i d) inv c s = (c', s', r) /\
       KvsSpec.step m (KvsSpec.ListObjects i NUL) m r /\ svc_abs s' m /\ coherent c' m).
Proof.
  intros Ha Hc Hconn Hsafe Hp. split.
  - destruct (client_run_sim S reqs c s m Ha Hc Hconn Hsafe Hp) as (m' & Hr). exists m'.
    pose proof (client_run_requests reqs c s) as Hq. destruct (client_run reqs c s) as [[c' s'] trace].
    split; [exact Hq|exact Hr].
  - intros i d inv Hd. cbn [client_exec]. rewrite listPrefix_negative by done.
    destruct (listPrefix_sim i NUL c s m Ha Hc Hconn) as (c' & s' & r & -> & Ha' & Hc' & _ & Hs).
    by exists c', s', (KvsSpec.RListing r).
Qed.

(** Creating an object again does not touch the cache. When the client has
    an object cached and creates it anew, the server stores the new object and
    answers OK, but the next lookup still returns the old one; only a lookup
    that invalidates the cache returns the new one. *)
Theorem client_create_leaves_stale (S : Type) `{MDService S} c (s : S) m o old :
  svc_abs s m -> coherent c m -> is_connected c = true ->
  kvs_lookup (bucket (id o)) (key (id o)) (ms_mdsCache c) = Value old ->
  exists c' s' m', client_createObject o c s = (c', s', OkStatus) /\ svc_abs s' m' /\
    entry m' (bucket (id o)) (key (id o)) = Some (info o) /\
    client_lookup (bucket (id o)) (key (id o)) false c' s' = (c', s', Value old) /\
    exists c'' s'', client_lookup (bucket (id o)) (key (id o)) true c' s' = (c'', s'', Value o).
Proof.
  intros Ha Hc Hconn Hold. unfold client_createObject. rewrite Hconn. cbn [negb].
  destruct (status_call_law _ (unavailable "Unable to execute Create command: ") _ s m
              (svc_Create o) Ha) as (s' & m' & st & -> & Hs & Ha').
  assert (st = OkStatus) as ->.
  { destruct Hc as (cm & Hk & Hcm). pose proof (kvs_lookup_entry _ _ (bucket (id o)) (key (id o)) Hk) as Hl.
    rewrite Hold in Hl. destruct Hl as (i & Hi & _). apply Hcm in Hi. unfold entry in Hi.
    simpl in Hs. destruct (m !! bucket (id o)); [|done]. destruct Hs as [_ Hs]. by injection Hs. }
  assert (He : entry m' (bucket (id o)) (key (id o)) = Some (info o)).
  { rewrite (step_entry _ _ _ _ _ _ Hs). rewrite decide_True; [done|]. split; [done|]. by destruct (id o). }
  exists c, s', m'. split_and!; [done..| |].
  - unfold client_lookup. rewrite Hconn. cbn [negb]. by rewrite Hold.
  - unfold client_lookup. rewrite Hconn. cbn [negb]. unfold lookup_remote.
    destruct (svc_Lookup (bucket (id o)) (key (id o)) s' m' Ha') as (s2 & r & -> & _ & [_ Hr]).
    simpl in Hr. injection Hr as Hr. unfold entry in He.
    destruct (m' !! bucket (id o)) as [mb|]; [|done]. simpl in He. rewrite He in Hr.
    destruct (or_error r) as [e|].
    + exfalso. pose proof (from_status_not_ok (A := Object) (convertStatus e)) as Hn. by rewrite Hr in Hn.
    + eexists _, _. f_equal. rewrite Hr. by destruct o as [[] ?].
Qed.

(** The subscription loop applies the publications in the order they
    arrive, over all rounds up to the first that ends with an error, and it
    never returns OK: it ends only because it is not connected or because a
    stream failed. *)
Theorem subscribeStream_never_ok rounds c c' res :
  subscribeStream rounds c = (c', res) ->
  (forall st, res = Some st -> ok st = false) /\
  (res = None -> Forall (fun r => match rd_finish r with RpcOk _ => True | _ => False end) rounds) /\
  (is_connected c = true ->
   exists n, (n <= length rounds)%nat /\
     ms_mdsCache c' = fold_left apply_publication
                        (concat (map rd_publications (take n rounds))) (ms_mdsCache c)).
Proof.
  revert c. induction rounds as [|r rounds IH]; intros c; simpl.
  - destruct (is_connected c) eqn:Hc; simpl; intros [= <- <-].
    + split_and!; [done|constructor|]. intros _. by exists 0%nat.
    + split_and!; [|done|done]. by intros st [= <-].
  - destruct (is_connected c) eqn:Hc; simpl.
    2: { intros [= <- <-]. split_and!; [by intros st [= <-]|done|done]. }
    destruct (rd_finish r) as [u|msg cd] eqn:Ef.
    + intros E. apply IH in E as (H1 & H2 & H3). split_and!; [done| |].
      * intros Hn. constructor; [by rewrite Ef|auto].
      * intros _. destruct (H3 Hc) as (n & Hn & ->). exists (S n). split; [lia|].
        simpl. by rewrite fold_left_app.
    + intros [= <- <-]. split_and!; [by intros st [= <-]|done|].
      intros _. exists 1%nat. split; [lia|]. simpl. by rewrite app_nil_r.
Qed.

(** ** Witnesses *)

Definition the_stub : MDStub Server := server_stub sample_reach 3 "ipv4:10.0.0.1:1".
Definition the_service : @MDService Server the_stub := server_service sample_reach 3 "ipv4:10.0.0.1:1".

Definition connected_client : MetadataService := mkService Connected emptyKVS true "uuid" "host:4381".

Definition demo_object (n : Z) : Object := mkObject (mkID "b" "k") (mkInfo "geds://h:1" n n None).

Definition demo_requests : list (KvsSpec.op * bool) :=
  [(KvsSpec.CreateBucket "b", false); (KvsSpec.CreateObject (demo_object 1) false, false);
   (KvsSpec.Lookup (mkID "b" "k"), false); (KvsSpec.UpdateObject (demo_object 2), false);
   (KvsSpec.Lookup (mkID "b" "k"), false); (KvsSpec.ListObjects (mkID "b" "") "/", false);
   (KvsSpec.DeleteObject (mkID "b" "k"), false); (KvsSpec.Lookup (mkID "b" "k"), false)].

Lemma empty_coherent u a m : coherent (mkService Connected emptyKVS true u a) m.
Proof.
  exists ∅. split; [apply emptyKVS_abs|]. intros b ky i. unfold entry. by rewrite lookup_empty.
Qed.

Lemma demo_safe : @safe_run Server the_stub demo_requests connected_client (newServer None).
Proof. vm_compute. repeat split. Qed.

Lemma demo_plain : Forall (fun req => plain_request (fst req)) demo_requests.
Proof. vm_compute. repeat constructor; discriminate. Qed.

Lemma client_refines_store_witness :
  exists m', let '(c', s', trace) :=
      @client_run Server the_stub demo_requests connected_client (newServer None) in
    trace.*1 = demo_requests.*1 /\ KvsSpec.steps ∅ trace m' /\ coherent c' m'.
Proof.
  destruct (@client_refines_store Server the_stub the_service demo_requests connected_client
              (newServer None) ∅ emptyKVS_abs (empty_coherent _ _ _) eq_refl demo_safe demo_plain) as [(m' & Hr) _].
  exists m'. destruct (@client_run Server the_stub demo_requests connected_client (newServer None))
    as [[c' s'] trace]. destruct Hr as (Hq & Hs & _ & Hc). split; [exact Hq|]. split; [exact Hs|exact Hc].
Defined.

(** The client after [CreateBucket], [CreateObject] and [Lookup]. *)
Definition stale_start : MetadataService * Server :=
  fst (@client_run Server the_stub (take 3 demo_requests) connected_client (newServer None)).

Lemma stale_start_ok :
  exists m, @svc_abs Server the_stub the_service (snd stale_start) m /\ coherent (fst stale_start) m.
Proof.
  destruct (@client_run_sim Server the_stub the_service (take 3 demo_requests) connected_client
              (newServer None) ∅ emptyKVS_abs (empty_coherent _ _ _) eq_refl) as (m' & Hr).
  { vm_compute. repeat split. }
  { vm_compute. repeat constructor; discriminate. }
  exists m'. unfold stale_start.
  destruct (@client_run Server the_stub (take 3 demo_requests) connected_client (newServer None))
    as [[c' s'] trace]. exact (proj2 Hr).
Qed.

Lemma client_create_leaves_stale_witness :
  exists c' s', @client_createObject Server the_stub (demo_object 5) (fst stale_start) (snd stale_start)
      = (c', s', OkStatus) /\
    @client_lookup Server the_stub "b" "k" false c' s' = (c', s', Value (demo_object 1)).
Proof.
  destruct stale_start_ok as (m & Ha & Hc).
  destruct (@client_create_leaves_stale Server the_stub the_service (fst stale_start) (snd stale_start)
              m (demo_object 5) (demo_object 1) Ha Hc eq_refl) as (c' & s' & m' & E & _ & _ & El & _).
  - vm_compute. reflexivity.
  - exists c', s'. split; [exact E|exact El].
Defined.

Definition demo_rounds : list stream_round :=
  [mkRound [(CREATE_OBJECT, fill_object (demo_object 1))] (RpcOk tt);
   mkRound [(DELETE_OBJECT, fill_object (demo_object 1))] (RpcFail "gone" 14)].

Lemma subscribeStream_never_ok_witness :
  snd (subscribeStream demo_rounds connected_client) = Some (InternalError "gone") /\
  ok (InternalError "gone") = false.
Proof.
  split; [vm_compute; reflexivity|].
  exact (proj1 (subscribeStream_never_ok demo_rounds connected_client _ _ eq_refl) _ eq_refl).
Defined.
