(* ===== verification/LocalFile.v ===== *)
(** * Local files

    [geds::filesystem::LocalFile] (src/src/libgeds/LocalFile.h, LocalFile.cpp):
    positional reads and writes that loop over interrupted and partial system
    calls, with a cached size. The class [Kernel] decides how far each system
    call gets; [KernelFair] states what POSIX promises. *)

From Stdlib Require Import Ascii ZArith Lia.
From stdpp Require Import base sets list strings numbers.
From S2P Require Import Prelude Bytes Decimal Status StdMap.

Open Scope Z_scope.
Open Scope list_scope.

(** ** The kernel *)

Definition EINTR : Z := 4.

(** The result of a system call: a count, or -1 with [errno]. *)
Inductive sys_result := Sys (n : Z) | SysError (errno : Z).

(** [transfer max]: what a read or write of at most [max] bytes returns.
    [call]: the result of a call that transfers nothing. *)
Class Kernel (K : Type) := {
  transfer : Z -> K -> K * sys_result;
  call : K -> K * sys_result;
  strerror : Z -> str
}.

(** A call fails only by being interrupted, finitely often, and otherwise
    transfers at least one byte if it can. *)
Class KernelFair (K : Type) `{Kernel K} := {
  interrupts : K -> nat;
  transfer_fair max k :
    0 <= max ->
    match transfer max k with
    | (k', Sys n) => n <= max /\ (0 < max -> 0 < n) /\ 0 <= n /\ (interrupts k' <= interrupts k)%nat
    | (k', SysError e) => e = EINTR /\ (interrupts k' < interrupts k)%nat
    end;
  call_fair k :
    match call k with
    | (k', Sys n) => n = 0 /\ (interrupts k' <= interrupts k)%nat
    | (k', SysError e) => e = EINTR /\ (interrupts k' < interrupts k)%nat
    end
}.

(** ** State *)

Record LocalFile := mkLocalFile {
  lf_path : str;
  lf_fd : Z;
  lf_size : Z;            (** [std::atomic<size_t> _size] *)
  lf_data : str           (** the bytes of the file *)
}.

Definition with_size (n : Z) (f : LocalFile) : LocalFile :=
  mkLocalFile (lf_path f) (lf_fd f) n (lf_data f).
Definition with_data (d : str) (f : LocalFile) : LocalFile :=
  mkLocalFile (lf_path f) (lf_fd f) (lf_size f) d.

Section ops.
Context {K : Type} `{Kernel K}.

(** [pread64], [pwrite64] and [ftruncate64] on the file. *)
Definition pread64 (f : LocalFile) (count offset : Z) (k : K) : K * sys_result * str :=
  let max := Z.min count (Z.max 0 (len (lf_data f) - offset)) in
  match transfer max k with
  | (k, Sys n) => (k, Sys n, slice offset n (lf_data f))
  | (k, SysError e) => (k, SysError e, [])
  end.

Definition pwrite64 (f : LocalFile) (bytes : str) (offset : Z) (k : K) : LocalFile * K * sys_result :=
  match transfer (len bytes) k with
  | (k, Sys n) => (with_data (write_at offset (take (Z.to_nat n) bytes) (lf_data f)) f, k, Sys n)
  | (k, SysError e) => (f, k, SysError e)
  end.

Definition ftruncate64 (f : LocalFile) (n : Z) (k : K) : LocalFile * K * sys_result :=
  match call k with
  | (k, Sys r) => (with_data (resize n (lf_data f)) f, k, Sys r)
  | (k, SysError e) => (f, k, SysError e)
  end.

Definition file_not_open (f : LocalFile) : Status :=
  UnavailableError ("The file at " ++ lf_path f ++ " is not open!").

(** [LocalFile(path, overwrite)]: [existing] is what the path holds. *)
Definition openLocalFile (path : str) (overwrite : bool) (existing : option str) (k : K) :
    K * outcome LocalFile :=
  match call k with
  | (k, SysError e) =>
      (k, Throw (runtime_error ("Unable to open " ++ path ++ ". Reason: " ++ strerror e)))
  | (k, Sys fd) =>
      let data := if overwrite then [] else default [] existing in
      match call k with
      | (k, SysError e) =>
          (k, Throw (runtime_error ("Fstat on " ++ path ++ " reported: " ++ strerror e)))
      | (k, Sys _) => (k, Ret (mkLocalFile path fd (len data) data))
      end
  end.

Fixpoint lf_fsync (fuel : nat) (f : LocalFile) (k : K) : option (K * Status) :=
  if lf_fd f <? 0 then Some (k, file_not_open f) else
  match fuel with
  | O => None
  | S fuel =>
      match call k with
      | (k, SysError e) =>
          if e =? EINTR then lf_fsync fuel f k
          else Some (k, UnknownError ("Unable to fsync " ++ lf_path f ++ ": " ++ strerror e))
      | (k, Sys _) => Some (k, OkStatus)
      end
  end.

Definition lf_fileSize (f : LocalFile) : StatusOr Z :=
  if lf_fd f <? 0 then Error (file_not_open f) else Value (lf_size f).

Definition lf_rawFd (f : LocalFile) : StatusOr Z :=
  if lf_fd f <? 0 then Error (file_not_open f) else Value (lf_fd f).

Definition lf_rawPtr (f : LocalFile) : StatusOr Z :=
  Error (UnavailableError "RawPtr is not supported for LocalFile.").

(** The two nested loops of [readBytes]; [fuel] bounds the system calls. *)
Fixpoint read_loop (fuel : nat) (f : LocalFile) (position length offset : Z) (bytes : str) (k : K) :
    option (K * StatusOr (Z * str)) :=
  if offset <? length then
    match fuel with
    | O => None
    | S fuel =>
        let count := length - offset in
        let count := if SSIZE_MAX <? count then SSIZE_MAX else count in
        match pread64 f count (position + offset) k with
        | (k, SysError e, _) =>
            if e =? EINTR then read_loop fuel f position length offset bytes k
            else Some (k, Error (UnknownError ("Error reading " ++ lf_path f ++ ": " ++ strerror e)))
        | (k, Sys numBytes, data) =>
            let offset := u64 (offset + numBytes) in
            if numBytes =? 0 then Some (k, Value (offset, bytes))
            else read_loop fuel f position length offset (bytes ++ data) k
        end
    end
  else Some (k, Value (offset, bytes)).

Definition lf_readBytes (fuel : nat) (f : LocalFile) (position length : Z) (k : K) :
    option (K * StatusOr (Z * str)) :=
  if INT64_MAX <=? position then
    Some (k, Error (FailedPreconditionError ("Stream positions > " ++ to_string INT64_MAX ++
                                             " are not supported!")))
  else if length =? 0 then Some (k, Value (0, []))
  else if lf_size f <? position then Some (k, Value (0, []))
  else
    let length := Z.min length (u64 (lf_size f - position)) in
    if length =? 0 then Some (k, Value (0, []))
    else read_loop fuel f position length 0 [] k.

Definition lf_truncate (f : LocalFile) (targetSize : Z) (k : K) : LocalFile * K * Status :=
  if lf_fd f <? 0 then (f, k, file_not_open f) else
  let f := with_size targetSize f in
  match ftruncate64 f targetSize k with
  | (f, k, SysError e) =>
      (f, k, UnknownError ("Unable to ftruncate file " ++ lf_path f ++ ": " ++ strerror e))
  | (f, k, Sys _) => (f, k, OkStatus)
  end.

(** The loops of [writeBytes]. *)
Fixpoint write_loop (fuel : nat) (f : LocalFile) (bytes : str) (position length offset : Z) (k : K) :
    option (LocalFile * K * StatusOr Z) :=
  if offset <? length then
    match fuel with
    | O => None
    | S fuel =>
        let count := length - offset in
        let count := if SSIZE_MAX <? count then SSIZE_MAX else count in
        match pwrite64 f (slice offset count bytes) (position + offset) k with
        | (f, k, SysError e) =>
            if e =? EINTR then write_loop fuel f bytes position length offset k
            else Some (f, k, Error (UnknownError ("Error writing " ++ lf_path f ++ ": " ++ strerror e)))
        | (f, k, Sys numBytes) =>
            if numBytes =? 0
            then Some (f, k, Error (UnknownError ("Write on " ++ lf_path f ++ " returned an EOF.")))
            else write_loop fuel f bytes position length (u64 (offset + numBytes)) k
        end
    end
  else Some (f, k, Value offset).

Definition lf_writeBytes (fuel : nat) (f : LocalFile) (bytes : str) (position length : Z) (k : K) :
    option (LocalFile * K * Status) :=
  if INT64_MAX <? position then
    Some (f, k, FailedPreconditionError ("Stream positions > " ++ to_string position ++
                                         " are not yet supported."))
  else if length =? 0 then Some (f, k, OkStatus)
  else
    match write_loop fuel f bytes position length 0 k with
    | None => None
    | Some (f, k, Error st) => Some (f, k, st)
    | Some (f, k, Value offset) =>
        let newSize := u64 (position + offset) in
        Some (if lf_size f <? newSize then with_size newSize f else f, k, OkStatus)
    end.

(** A [std::istream]: the bytes that become available between two reads.
    [readsome] returns what is available, at most [n] bytes, and never waits. *)
Definition readsome (n : Z) (st : list str) : list str * str :=
  match st with
  | [] => ([], [])
  | c :: st => if n <? len c then (drop (Z.to_nat n) c :: st, take (Z.to_nat n) c) else (st, c)
  end.

(** The loop of [write(stream, position, length)]; [n] bytes are written. *)
Fixpoint stream_loop (rounds fuel : nat) (f : LocalFile) (st : list str) (position length n : Z) (k : K) :
    option (LocalFile * K * list str * StatusOr Z) :=
  match rounds with
  | O => None
  | S rounds =>
      let maxRead := Z.min (Z.min 4096 (u64 (length - n))) INT64_MAX in
      let '(st, buffer) := readsome maxRead st in
      let count := len buffer in
      match lf_writeBytes fuel f buffer (u64 (position + n)) count k with
      | None => None
      | Some (f, k, status) =>
          if negb (ok status) then Some (f, k, st, Error status)
          else
            let n := u64 (n + count) in
            if count =? 0 then Some (f, k, st, Value n)
            else stream_loop rounds fuel f st position length n k
      end
  end.

Definition lf_write (rounds fuel : nat) (f : LocalFile) (st : list str) (position : Z)
    (lengthOpt : option Z) (k : K) : option (LocalFile * K * list str * StatusOr Z) :=
  stream_loop rounds fuel f st position (default INT64_MAX lengthOpt) 0 k.
End ops.

(** ** Invariant *)

(** An open file whose cached size is the size of the file. *)
Record lf_wf (f : LocalFile) : Prop := {
  lf_open : 0 <= lf_fd f;
  lf_sized : lf_size f = len (lf_data f);
  lf_small : len (lf_data f) < INT64_MAX
}.

Section theory.
Context {K : Type} `{KernelFair K}.
Implicit Types (f : LocalFile) (k : K).

Lemma clamp_count n : 0 < n -> 0 < (if SSIZE_MAX <? n then SSIZE_MAX else n) <= n.
Proof. unfold SSIZE_MAX. destruct (Z.ltb_spec (2 ^ 63 - 1) n); lia. Qed.

Lemma read_loop_spec fuel f position length offset k :
  0 <= position -> 0 <= offset <= length -> position + length <= len (lf_data f) ->
  len (lf_data f) < two64 ->
  (interrupts k + Z.to_nat (length - offset) <= fuel)%nat ->
  exists k', read_loop fuel f position length offset (slice position offset (lf_data f)) k =
    Some (k', Value (length, slice position length (lf_data f))) /\
    (interrupts k' <= interrupts k)%nat.
Proof.
  revert offset k. induction fuel as [|fuel IH]; intros offset k Hp Ho Hl Hs Hf;
    cbn [read_loop]; destruct (Z.ltb_spec offset length) as [Hlt|Hge];
    try (assert (offset = length) as -> by lia; by exists k); [lia|].
  destruct (clamp_count (length - offset)) as [Hc1 Hc2]; [lia|].
  set (count := if SSIZE_MAX <? length - offset then SSIZE_MAX else length - offset) in *.
  unfold pread64.
  set (max := Z.min count (Z.max 0 (len (lf_data f) - (position + offset)))).
  assert (max = count) as -> by (unfold max; lia).
  pose proof (transfer_fair count k ltac:(lia)) as Hfair.
  destruct (transfer count k) as [k1 [n|e]].
  - destruct Hfair as (H1 & H2 & H3 & H4). specialize (H2 ltac:(lia)).
    rewrite (u64_small (offset + n)) by (unfold is_u64; lia).
    destruct (Z.eqb_spec n 0); [lia|]. rewrite slice_extend by lia.
    destruct (IH (offset + n) k1) as (k2 & -> & ?); [lia..|]. exists k2. split; [done|lia].
  - destruct Hfair as [-> Hi]. rewrite Z.eqb_refl.
    destruct (IH offset k1) as (k2 & -> & ?); [lia..|]. exists k2. split; [done|lia].
Qed.

(** The data after [offset] bytes have been written. *)
Definition written (position offset : Z) (bytes d d' : str) : Prop :=
  (offset = 0 /\ d' = d) \/ (0 < offset /\ d' = write_at position (slice 0 offset bytes) d).

Lemma written_step position offset n bytes d d' :
  0 <= position -> 0 <= offset -> 0 < n -> offset + n <= len bytes ->
  written position offset bytes d d' ->
  written position (offset + n) bytes d (write_at (position + offset) (slice offset n bytes) d').
Proof.
  intros Hp Ho Hn Hl [[-> ->]|[Hpos ->]]; right; (split; [lia|]).
  - rewrite !Z.add_0_r. done.
  - rewrite <- (slice_length 0 offset bytes) at 1 by lia. rewrite write_at_extend by done.
    f_equal. apply (slice_extend 0 offset n bytes); lia.
Qed.

Lemma write_loop_spec fuel f bytes position offset d k :
  0 <= position -> 0 <= offset <= len bytes -> len bytes < two64 ->
  written position offset bytes d (lf_data f) ->
  (interrupts k + Z.to_nat (len bytes - offset) <= fuel)%nat ->
  exists f' k', write_loop fuel f bytes position (len bytes) offset k =
      Some (f', k', Value (len bytes)) /\
    lf_path f' = lf_path f /\ lf_fd f' = lf_fd f /\ lf_size f' = lf_size f /\
    written position (len bytes) bytes d (lf_data f') /\ (interrupts k' <= interrupts k)%nat.
Proof.
  revert offset f k. induction fuel as [|fuel IH]; intros offset f k Hp Ho Hs Hw Hf;
    cbn [write_loop]; destruct (Z.ltb_spec offset (len bytes)) as [Hlt|Hge];
    try (assert (offset = len bytes) as -> by lia; by exists f, k); [lia|].
  destruct (clamp_count (len bytes - offset)) as [Hc1 Hc2]; [lia|].
  set (count := if SSIZE_MAX <? len bytes - offset then SSIZE_MAX else len bytes - offset) in *.
  unfold pwrite64. rewrite slice_length by lia.
  pose proof (transfer_fair count k ltac:(lia)) as Hfair.
  destruct (transfer count k) as [k1 [n|e]].
  - destruct Hfair as (H1 & H2 & H3 & H4). specialize (H2 ltac:(lia)).
    destruct (Z.eqb_spec n 0); [lia|].
    rewrite (u64_small (offset + n)) by (unfold is_u64; lia). rewrite take_slice by lia.
    destruct (IH (offset + n) (with_data (write_at (position + offset) (slice offset n bytes) (lf_data f)) f) k1)
      as (f' & k2 & -> & ? & ? & ? & ? & ?); [lia..| |lia|].
    { simpl. by apply written_step; try lia. }
    exists f', k2. simpl in *. split_and!; try done; lia.
  - destruct Hfair as [-> Hi]. rewrite Z.eqb_refl.
    destruct (IH offset f k1) as (f' & k2 & -> & ? & ? & ? & ? & ?); [try done; lia..|].
    exists f', k2. split_and!; try done; lia.
Qed.

(** What the two operations do on a well-formed file. *)
Lemma lf_readBytes_spec fuel f position length k :
  lf_wf f -> 0 <= position < INT64_MAX -> 0 <= length ->
  (interrupts k + Z.to_nat (Z.min length (len (lf_data f))) <= fuel)%nat ->
  exists k', lf_readBytes fuel f position length k =
    Some (k', Value (Z.max 0 (Z.min length (len (lf_data f) - position)),
                     slice position length (lf_data f))) /\
    (interrupts k' <= interrupts k)%nat.
Proof.
  intros [Ho Hsz Hsm] Hp Hl Hf. unfold lf_readBytes, INT64_MAX in *. pose proof (len_nonneg (lf_data f)).
  destruct (Z.leb_spec (2 ^ 63 - 1) position); [lia|].
  destruct (Z.eqb_spec length 0) as [->|Hlen].
  { rewrite slice_0. exists k. split; [|done]. by replace (Z.max 0 _) with 0 by lia. }
  rewrite Hsz. destruct (Z.ltb_spec (len (lf_data f)) position).
  { rewrite slice_past by lia. exists k. split; [|done]. by replace (Z.max 0 _) with 0 by lia. }
  rewrite u64_small by (unfold is_u64, two64; lia).
  destruct (Z.eqb_spec (Z.min length (len (lf_data f) - position)) 0) as [E|E].
  { rewrite (slice_clip position length), E, slice_0 by lia. exists k. split; [|done].
    by replace (Z.max 0 0) with 0 by lia. }
  destruct (read_loop_spec fuel f position (Z.min length (len (lf_data f) - position)) 0 k)
    as (k' & Er & Hk); [unfold two64; lia..|].
  rewrite slice_0 in Er. rewrite Er, <- slice_clip by lia.
  exists k'. split; [|done]. by replace (Z.max 0 _) with (Z.min length (len (lf_data f) - position)) by lia.
Qed.

Lemma lf_writeBytes_spec fuel f bytes position k :
  lf_wf f -> 0 <= position -> position + len bytes < INT64_MAX ->
  (interrupts k + List.length bytes <= fuel)%nat ->
  exists f' k', lf_writeBytes fuel f bytes position (len bytes) k = Some (f', k', OkStatus) /\
    lf_wf f' /\ lf_path f' = lf_path f /\ lf_fd f' = lf_fd f /\
    lf_data f' = (if decide (bytes = []) then lf_data f else write_at position bytes (lf_data f)) /\
    (interrupts k' <= interrupts k)%nat.
Proof.
  intros [Ho Hsz Hsm] Hp Hmax Hf. unfold lf_writeBytes, INT64_MAX in *. pose proof (len_nonneg bytes).
  destruct (Z.ltb_spec (2 ^ 63 - 1) position); [lia|].
  destruct (Z.eqb_spec (len bytes) 0) as [E|E].
  { apply len_0 in E. subst. rewrite decide_True by done. by exists f, k. }
  rewrite decide_False by (by intros ->).
  destruct (write_loop_spec fuel f bytes position 0 (lf_data f) k)
    as (f' & k' & -> & Hpa & Hfd & Hsi & H4 & H5); [unfold two64, len in *; try lia..|].
  { by left. }
  destruct H4 as [[? _]|[_ H4]]; [lia|]. rewrite slice_all in H4.
  rewrite (u64_small (position + len bytes)) by (unfold is_u64, two64; lia).
  eexists _, k'. split; [done|]. pose proof (len_write_at position bytes (lf_data f) Hp) as Hlw.
  rewrite <- H4 in Hlw.
  destruct (Z.ltb_spec (lf_size f') (position + len bytes)); simpl; split_and!; try done; try lia;
    split; simpl; unfold INT64_MAX; try lia.
Qed.

Lemma lf_truncate_spec f n k :
  lf_wf f -> 0 <= n < INT64_MAX -> interrupts k = 0%nat ->
  exists f' k', lf_truncate f n k = (f', k', OkStatus) /\ lf_wf f' /\
    lf_data f' = resize n (lf_data f).
Proof.
  intros [Ho Hsz Hsm] Hn Hi. unfold lf_truncate, ftruncate64.
  destruct (Z.ltb_spec (lf_fd f) 0); [lia|].
  pose proof (call_fair k) as Hc. destruct (call k) as [k1 [r|e]].
  - eexists _, _. split; [done|]. split; [|done]. split; simpl; [done| |]; rewrite len_resize by lia; lia.
  - lia.
Qed.
End theory.

(** ** Writing from a stream *)

(** What a stream yields before it has nothing available. *)
Fixpoint available (st : list str) : str :=
  match st with
  | [] :: _ | [] => []
  | c :: st => c ++ available st
  end.

Lemma readsome_spec n st st' buf :
  0 <= n -> readsome n st = (st', buf) ->
  len buf <= n /\ (buf <> [] -> available st = buf ++ available st') /\
  (buf = [] -> n = 0 \/ available st = []).
Proof.
  intros Hn. destruct st as [|c st]; simpl.
  { intros [= <- <-]. unfold len. simpl. split_and!; [lia|done|auto]. }
  destruct (Z.ltb_spec n (len c)) as [Hlt|Hge]; intros [= <- <-].
  - split_and!.
    + unfold len in *. rewrite length_take. lia.
    + intros _. destruct c as [|x c]; [unfold len in Hlt; simpl in Hlt; lia|].
      transitivity ((x :: c) ++ available st); [done|].
      rewrite <- (take_drop (Z.to_nat n) (x :: c)) at 1. rewrite <- app_assoc. f_equal.
      destruct (drop (Z.to_nat n) (x :: c)) eqn:E; [|done].
      apply (f_equal length) in E. rewrite length_drop in E. unfold len in *. simpl in *. lia.
    + intros E. left. apply (f_equal length) in E. rewrite length_take in E. unfold len in *. simpl in E. lia.
  - split_and!; [done| |].
    + intros Hne. by destruct c.
    + intros ->. by right.
Qed.

Section stream.
Context {K : Type} `{KernelFair K}.
Implicit Types (f : LocalFile) (k : K).

Lemma stream_loop_spec rounds fuel f st position length n total d k :
  lf_wf f -> 0 <= position -> 0 <= n <= length -> length <= INT64_MAX ->
  position + len total < INT64_MAX -> n <= len total ->
  available st = drop (Z.to_nat n) total -> written position n total d (lf_data f) ->
  (Z.to_nat (len total - n) < rounds)%nat -> (interrupts k + Z.to_nat 4096 <= fuel)%nat ->
  exists f' k' st', stream_loop rounds fuel f st position length n k =
      Some (f', k', st', Value (Z.min length (len total))) /\
    lf_wf f' /\ written position (Z.min length (len total)) total d (lf_data f') /\
    (interrupts k' <= interrupts k)%nat.
Proof.
  revert f st n k. induction rounds as [|rounds IH];
    intros f st n k Hw Hp Hn Hlen Hmax Htot Hav Hwr Hr Hf; [lia|].
  cbn [stream_loop]. unfold INT64_MAX in *. rewrite (u64_small (length - n)) by (unfold is_u64, two64; lia).
  set (maxRead := Z.min (Z.min 4096 (length - n)) (2 ^ 63 - 1)).
  destruct (readsome maxRead st) as [st1 buf] eqn:Er.
  destruct (readsome_spec maxRead st st1 buf ltac:(unfold maxRead; lia) Er) as (Hbl & Hbn & Hbe).
  assert (Hbt : buf <> [] -> n + len buf <= len total /\ slice n (len buf) total = buf /\
                available st1 = drop (Z.to_nat (n + len buf)) total).
  { intros Hne. specialize (Hbn Hne). rewrite Hav in Hbn. pose proof (len_nonneg buf). split_and!.
    - apply (f_equal List.length) in Hbn. rewrite length_app, length_drop in Hbn. unfold len in *. lia.
    - unfold slice. rewrite Hbn. unfold len. rewrite Nat2Z.id. by rewrite take_app_length.
    - rewrite Z2Nat.inj_add, <- drop_drop, Hbn by lia. unfold len. rewrite Nat2Z.id. by rewrite drop_app_length. }
  destruct (decide (buf = [])) as [->|Hne].
  - destruct (lf_writeBytes_spec fuel f [] (u64 (position + n)) k Hw) as (f' & k' & -> & Hw' & _ & _ & Hd & Hi).
    { apply u64_range. } { rewrite u64_small by (unfold is_u64, two64; lia). unfold len, INT64_MAX. simpl. lia. }
    { simpl. lia. }
    cbn [ok OkStatus negb raw_code Z.eqb len List.length Z.of_nat]. rewrite Z.add_0_r.
    rewrite (u64_small n) by (unfold is_u64, two64; lia). rewrite decide_True in Hd by done.
    assert (Z.min length (len total) = n) as ->.
    { destruct (Hbe eq_refl) as [Hz|Hz]; [unfold maxRead in Hz; lia|].
      rewrite Hz in Hav. symmetry in Hav. apply (f_equal List.length) in Hav. rewrite length_drop in Hav.
      unfold len in *. simpl in Hav. lia. }
    eexists _, _, _. split_and!; [done|done| |done]. by rewrite Hd.
  - destruct (Hbt Hne) as (Hle & Hsl & Hav1). pose proof (len_nonneg buf).
    assert (0 < len buf) by (destruct buf; [done|unfold len; simpl; lia]).
    rewrite (u64_small (position + n)) by (unfold is_u64, two64; lia).
    destruct (lf_writeBytes_spec fuel f buf (position + n) k Hw) as (f' & k' & -> & Hw' & _ & _ & Hd & Hi);
      [lia|unfold INT64_MAX; lia|unfold len, maxRead in *; lia|].
    cbn [ok OkStatus negb raw_code Z.eqb]. rewrite (u64_small (n + len buf)) by (unfold is_u64, two64; lia).
    destruct (Z.eqb_spec (len buf) 0); [lia|]. rewrite decide_False in Hd by done.
    assert (n + len buf <= length) by (unfold maxRead in Hbl; lia).
    assert (Hws := written_step position n (len buf) total d (lf_data f)). rewrite Hsl in Hws.
    destruct (IH f' st1 (n + len buf) k') as (f2 & k2 & st2 & E2 & Hw2 & Hr2 & Hi2); try done; try lia.
    { rewrite Hd. apply Hws; try done; lia. }
    exists f2, k2, st2. split_and!; [done..|lia].
Qed.
End stream.

(** ** Properties *)

(** A read returns what the file holds. Whatever interruptions and short
    reads the kernel produces, [readBytes] on a well-formed file returns the
    requested range clipped to the file, and nothing past its end. One system
    call per byte and per interruption is enough. *)
Theorem lf_readBytes_exact (K : Type) `{KernelFair K} fuel f position length (k : K) :
  lf_wf f -> 0 <= position < INT64_MAX -> 0 <= length ->
  (interrupts k + Z.to_nat (Z.min length (len (lf_data f))) <= fuel)%nat ->
  exists k', lf_readBytes fuel f position length k =
    Some (k', Value (Z.max 0 (Z.min length (len (lf_data f) - position)),
                     slice position length (lf_data f))).
Proof.
  intros Hw Hp Hl Hf. destruct (lf_readBytes_spec fuel f position length k Hw Hp Hl Hf) as (k' & E & _).
  by exists k'.
Qed.

(** A write is complete. [writeBytes] stores all the bytes at the position
    despite interruptions and short writes, fills a gap before the position with
    zero bytes, leaves every other byte and keeps the cached size equal to the
    size of the file; reading the range back gives the bytes. *)
Theorem lf_write_then_read (K : Type) `{KernelFair K} fuel f bytes position (k : K) :
  lf_wf f -> 0 <= position -> position + len bytes < INT64_MAX -> bytes <> [] ->
  (interrupts k + List.length bytes <= fuel)%nat ->
  exists f' k' k'', lf_writeBytes fuel f bytes position (len bytes) k = Some (f', k', OkStatus) /\
    lf_wf f' /\ lf_size f' = Z.max (lf_size f) (position + len bytes) /\
    lf_readBytes fuel f' position (len bytes) k' = Some (k'', Value (len bytes, bytes)) /\
    forall a n, 0 <= a -> 0 <= n -> (a + n <= position /\ a + n <= lf_size f) \/ position + len bytes <= a ->
      slice a n (lf_data f') = slice a n (lf_data f).
Proof.
  intros Hw Hp Hmax Hne Hf. pose proof (len_nonneg bytes).
  destruct (lf_writeBytes_spec fuel f bytes position k Hw Hp Hmax Hf)
    as (f' & k' & E & Hw' & _ & _ & Hd & Hi).
  rewrite decide_False in Hd by done.
  assert (Hlen : len (lf_data f') = Z.max (len (lf_data f)) (position + len bytes))
    by (by rewrite Hd, len_write_at).
  assert (0 < len bytes) by (destruct bytes; [done|unfold len; simpl; lia]).
  destruct (lf_readBytes_spec fuel f' position (len bytes) k' Hw') as (k'' & Er & _); [lia..| |].
  { unfold len in *. lia. }
  exists f', k', k''. split_and!; [done..| | |].
  - rewrite (lf_sized f' Hw'), (lf_sized f Hw). done.
  - rewrite Er. replace (Z.max 0 (Z.min (len bytes) _)) with (len bytes) by lia.
    by rewrite Hd, slice_write_at.
  - intros a n Ha Hn Hout. rewrite Hd. apply slice_write_at_outside; try done.
    by rewrite <- (lf_sized f Hw).
Qed.

(** Writing a stream stores, from the position on, everything the stream
    has available, up to the optional length, in blocks of at most 4096 bytes,
    and returns the number of bytes stored. *)
Theorem lf_write_stream (K : Type) `{KernelFair K} rounds fuel f st position lengthOpt (k : K) :
  lf_wf f -> 0 <= position -> position + len (available st) < INT64_MAX ->
  match lengthOpt with Some n => 0 <= n <= INT64_MAX | None => True end ->
  (List.length (available st) < rounds)%nat -> (interrupts k + Z.to_nat 4096 <= fuel)%nat ->
  let n := Z.min (default INT64_MAX lengthOpt) (len (available st)) in
  exists f' k' st', lf_write rounds fuel f st position lengthOpt k = Some (f', k', st', Value n) /\
    lf_wf f' /\
    lf_data f' = if n =? 0 then lf_data f
                 else write_at position (slice 0 n (available st)) (lf_data f).
Proof.
  intros Hw Hp Hmax Hlen Hr Hf n. pose proof (len_nonneg (available st)).
  assert (0 <= default INT64_MAX lengthOpt <= INT64_MAX).
  { destruct lengthOpt; simpl; [done|unfold INT64_MAX; lia]. }
  destruct (stream_loop_spec rounds fuel f st position (default INT64_MAX lengthOpt) 0 (available st)
              (lf_data f) k) as (f' & k' & st' & E & Hw' & Hwr & _); try done; try lia.
  - by left.
  - rewrite Z.sub_0_r. unfold len. lia.
  - exists f', k', st'. split_and!; [done..|]. fold n in Hwr.
    destruct Hwr as [[-> ->]|[Hpos ->]]; [done|]. by rewrite (proj2 (Z.eqb_neq _ _)) by lia.
Qed.

(** A truncation sets the size of the file, cutting it or filling it with
    zero bytes. When [ftruncate] fails the file keeps its bytes, but the cached
    size has already been changed to the target. *)
Theorem lf_truncate_result (K : Type) `{Kernel K} f n (k : K) :
  lf_wf f -> 0 <= n < INT64_MAX ->
  match call k with
  | (k', Sys _) => exists f', lf_truncate f n k = (f', k', OkStatus) /\ lf_wf f' /\
      lf_data f' = resize n (lf_data f)
  | (k', SysError e) => exists f' st, lf_truncate f n k = (f', k', st) /\ ok st = false /\
      lf_data f' = lf_data f /\ lf_size f' = n
  end.
Proof.
  intros [Ho Hsz Hsm] Hn. unfold lf_truncate, ftruncate64.
  destruct (Z.ltb_spec (lf_fd f) 0); [lia|]. destruct (call k) as [k1 [r|e]].
  - eexists. split; [done|]. split; [|done]. split; simpl; [done| |]; rewrite len_resize by lia; lia.
  - by eexists _, _.
Qed.

(** ** Witnesses *)

(** A kernel that interrupts the first [k] calls and then moves two bytes at a time. *)
#[global] Instance slow_kernel : Kernel nat := {|
  transfer max k := match k with
                    | S k => (k, SysError EINTR)
                    | O => (0%nat, Sys (Z.min max 2))
                    end;
  call k := match k with S k => (k, SysError EINTR) | O => (0%nat, Sys 0) end;
  strerror _ := "error"
|}.

#[global, refine] Instance slow_fair : KernelFair nat := {| interrupts k := k |}.
Proof.
  - intros max [|k] Hm; simpl; [|split; [done|lia]]. split_and!; lia.
  - intros [|k]; simpl; [done|]. split; [done|lia].
Defined.

Definition sample_file : LocalFile := mkLocalFile "/tmp/f" 5 10 "0123456789".

Lemma sample_file_wf : lf_wf sample_file.
Proof. split; vm_compute; done. Qed.

Lemma lf_readBytes_exact_witness :
  exists k', lf_readBytes 12 sample_file 7 100 2%nat = Some (k', Value (3, "789" : str)).
Proof.
  destruct (lf_readBytes_exact nat 12 sample_file 7 100 2%nat sample_file_wf) as (k' & E);
    [unfold INT64_MAX; lia|lia|vm_compute; repeat constructor|].
  exists k'. exact E.
Defined.

Lemma lf_write_then_read_witness :
  exists f' k' k'', lf_writeBytes 9 sample_file "abcde" 12 5 2%nat = Some (f', k', OkStatus) /\
    lf_readBytes 9 f' 12 5 k' = Some (k'', Value (5, "abcde" : str)) /\ lf_size f' = 17.
Proof.
  destruct (lf_write_then_read nat 9 sample_file "abcde" 12 2%nat sample_file_wf)
    as (f' & k' & k'' & E & _ & Hs & Er & _);
    [lia|vm_compute; reflexivity|discriminate|vm_compute; repeat constructor|].
  exists f', k', k''. split; [exact E|]. split; [exact Er|exact Hs].
Defined.

Lemma lf_write_stream_witness :
  exists f' k' st', lf_write 9 4100 sample_file ["ab" : str; "cdef" : str; [] ; "gh" : str] 10 (Some 5) 1%nat =
      Some (f', k', st', Value 5) /\ lf_data f' = ("0123456789abcde" : str).
Proof.
  destruct (lf_write_stream nat 9 4100 sample_file ["ab" : str; "cdef" : str; [] ; "gh" : str] 10 (Some 5) 1%nat
              sample_file_wf) as (f' & k' & st' & E & _ & Hd);
    [lia|vm_compute; reflexivity|unfold INT64_MAX; lia|vm_compute; repeat constructor|simpl; lia|].
  exists f', k', st'. split; [exact E|rewrite Hd; vm_compute; reflexivity].
Defined.

Lemma lf_truncate_result_witness :
  (exists f', lf_truncate sample_file 3 0%nat = (f', 0%nat, OkStatus) /\ lf_data f' = ("012" : str)) /\
  exists f' st, lf_truncate sample_file 3 1%nat = (f', 0%nat, st) /\ ok st = false /\
    lf_data f' = ("0123456789" : str) /\ lf_size f' = 3.
Proof.
  split.
  - destruct (lf_truncate_result nat sample_file 3 0%nat sample_file_wf) as (f' & E & _ & Hd);
      [unfold INT64_MAX; lia|]. exists f'. split; [exact E|exact Hd].
  - assert (Hb : 0 <= 3 < INT64_MAX) by (unfold INT64_MAX; lia).
    exact (lf_truncate_result nat sample_file 3 1%nat sample_file_wf Hb).
Defined.
