(* ===== verification/MMAPFile.v ===== *)
(** * Memory-mapped files

    [geds::filesystem::MMAPFile] (src/src/libgeds/MMAPFile.h, MMAPFile.cpp). The
    file's bytes, its logical size and the extent of the mapping are separate;
    an access outside the mapping is a crash ([Abort]). The class [MmapKernel]
    decides which system calls succeed. *)

From Stdlib Require Import Ascii ZArith Lia.
From stdpp Require Import base sets list strings numbers.
From S2P Require Import Prelude Bytes Decimal Status StdMap LocalFile.

Open Scope Z_scope.
Open Scope list_scope.

(** [posix_fallocate64] returns an error number and leaves [errno] alone. *)
Class MmapKernel (K : Type) := {
  mk_errno : K -> Z;
  mk_fallocate : Z -> Z -> K -> K * Z;       (** offset, length; the return value *)
  mk_mmap : Z -> K -> K * bool;              (** length; [false] is [MAP_FAILED] *)
  mk_mremap : Z -> Z -> K -> K * bool;
  mk_fsync : K -> K * Z;
  mk_strerror : Z -> str;
  MMAP_pageSize : Z
}.

(** Documented behaviour used below: pages have a positive size below 2^62, and
    mapping nothing is refused (EINVAL). *)
Class MmapLaws (K : Type) `{MmapKernel K} := {
  pageSize_pos : 0 < MMAP_pageSize <= 2 ^ 30;
  mmap_zero k : snd (mk_mmap 0 k) = false
}.

(** A system call is interrupted only finitely often: [errno] is EINTR after a
    failed one at most [mm_interrupts] times. (What happens when [errno] keeps that value
    from an earlier call is [increaseMmap_never].) *)
Class MmapFair (K : Type) `{MmapKernel K} := {
  mm_interrupts : K -> nat;
  fallocate_fair o n k :
    let '(k', e) := mk_fallocate o n k in
    if negb (e =? 0) && (mk_errno k' =? EINTR) then (mm_interrupts k' < mm_interrupts k)%nat
    else (mm_interrupts k' <= mm_interrupts k)%nat;
  fsync_fair k :
    let '(k', e) := mk_fsync k in
    if negb (e =? 0) && (mk_errno k' =? EINTR) then (mm_interrupts k' < mm_interrupts k)%nat
    else (mm_interrupts k' <= mm_interrupts k)%nat;
  mmap_fair n k : (mm_interrupts (fst (mk_mmap n k)) <= mm_interrupts k)%nat;
  mremap_fair o n k : (mm_interrupts (fst (mk_mremap o n k)) <= mm_interrupts k)%nat
}.

Record MMAPFile := mkMMAPFile {
  mm_path : str;
  mm_fd : Z;
  mm_size : Z;
  mm_mmapSize : Z;
  mm_mmapPtr : bool;          (** [_mmapPtr != nullptr] *)
  mm_data : str               (** the bytes of the file, as allocated *)
}.

Section ops.
Context {K : Type} `{MmapKernel K}.
Implicit Types (f : MMAPFile) (k : K).

(** [MMAPFile(path, overwrite)]: the size starts at 0 in both cases. *)
Definition openMMAPFile (path : str) (overwrite : bool) (existing : option str) (fd : Z) (errno : Z) :
    outcome MMAPFile :=
  if fd <? 0
  then Throw (runtime_error ("Unable to open " ++ path ++ ". Reason: " ++ mk_strerror errno))
  else Ret (mkMMAPFile path fd 0 0 false (if overwrite then [] else default [] existing)).

Definition mm_set_size (n : Z) f : MMAPFile :=
  mkMMAPFile (mm_path f) (mm_fd f) n (mm_mmapSize f) (mm_mmapPtr f) (mm_data f).
Definition mm_set_map (n : Z) (p : bool) f : MMAPFile :=
  mkMMAPFile (mm_path f) (mm_fd f) (mm_size f) n p (mm_data f).
Definition mm_set_data (d : str) f : MMAPFile :=
  mkMMAPFile (mm_path f) (mm_fd f) (mm_size f) (mm_mmapSize f) (mm_mmapPtr f) d.

Definition mm_not_open f : Status := UnavailableError ("The file at " ++ mm_path f ++ " is not open!").

(** The number of bytes of whole pages that hold [n] bytes. *)
Definition page_round (n : Z) : Z :=
  let nPages := n / MMAP_pageSize + (if 0 <? n mod MMAP_pageSize then 1 else 0) in
  u64 (nPages * MMAP_pageSize).

(** [do { e = posix_fallocate64(...) } while (e != 0 && errno == EINTR)] *)
Fixpoint fallocate_loop (fuel : nat) (offset n : Z) k : option (K * Z) :=
  match fuel with
  | O => None
  | S fuel =>
      let '(k, e) := mk_fallocate offset n k in
      if negb (e =? 0) && (mk_errno k =? EINTR) then fallocate_loop fuel offset n k else Some (k, e)
  end.

Definition increaseMmap (fuel : nat) (requestSize : Z) f k : option (MMAPFile * K * Status) :=
  if mm_fd f <? 0 then Some (f, k, mm_not_open f) else
  if mm_mmapSize f <? requestSize then
    let newSize := page_round requestSize in
    match fallocate_loop fuel (mm_mmapSize f) (u64 (newSize - mm_mmapSize f)) k with
    | None => None
    | Some (k, e) =>
        if negb (e =? 0)
        then Some (f, k, UnknownError ("Unable to extend file: " ++ mm_path f ++ ". Reason: " ++
                                       mk_strerror (mk_errno k)))
        else
          let f := if len (mm_data f) <? newSize then mm_set_data (resize newSize (mm_data f)) f else f in
          if negb (mm_mmapPtr f) then
            let '(k, success) := mk_mmap newSize k in
            if negb success
            then Some (f, k, UnknownError ("Failed to map file " ++ mm_path f ++
                               " with requested size " ++ to_string requestSize ++ "."))
            else Some (mm_set_map newSize true f, k, OkStatus)
          else
            let '(k, success) := mk_mremap (mm_mmapSize f) newSize k in
            if negb success
            then Some (f, k, UnknownError ("mremap for file " ++ mm_path f ++ " failed. Reason: " ++
                                           mk_strerror (mk_errno k)))
            else Some (mm_set_map newSize true f, k, OkStatus)
    end
  else Some (f, k, OkStatus).

Definition mm_release f : MMAPFile := if mm_mmapPtr f then mm_set_map 0 false f else f.

Definition mm_notifyUnused f : MMAPFile := mm_release f.

Definition mm_reopen f k : MMAPFile * K * Status :=
  if negb (mm_mmapPtr f) then
    let mmapSize := page_round (mm_size f) in
    let '(k, success) := mk_mmap mmapSize k in
    if negb success
    then (f, k, UnknownError ("Failed to map file " ++ mm_path f ++ " with requested size " ++
                              to_string (mm_size f) ++ "."))
    else (mm_set_map mmapSize true f, k, OkStatus)
  else (f, k, OkStatus).

(** [memcpy] from and to the mapping. *)
Definition mem_read (position n : Z) f : outcome str :=
  if mm_mmapPtr f && (position + n <=? mm_mmapSize f) && (position + n <=? len (mm_data f))
  then Ret (slice position n (mm_data f)) else Abort.

Definition mem_write (position : Z) (bytes : str) f : outcome MMAPFile :=
  if mm_mmapPtr f && (position + len bytes <=? mm_mmapSize f) &&
     (position + len bytes <=? len (mm_data f))
  then Ret (mm_set_data (write_at position bytes (mm_data f)) f) else Abort.

Definition mm_readBytes f (position length : Z) k : MMAPFile * K * outcome (StatusOr (Z * str)) :=
  if SSIZE_MAX <? length then
    (f, k, Ret (Error (FailedPreconditionError ("Lengths > " ++ to_string SSIZE_MAX ++
                                                " are not supported!"))))
  else if SSIZE_MAX <=? position then
    (f, k, Ret (Error (FailedPreconditionError ("Stream positions > " ++ to_string SSIZE_MAX ++
                                                " are not supported!"))))
  else if length =? 0 then (f, k, Ret (Value (0, [])))
  else
    let '(f, k, status) := mm_reopen f k in
    if negb (ok status) then (f, k, Ret (Error status)) else
    if mm_size f <=? position then (f, k, Ret (Value (0, []))) else
    let length := Z.min length (mm_size f - position) in
    if length =? 0 then (f, k, Ret (Value (0, []))) else
    let n := Z.min (mm_size f) (u64 (position + length)) - position in
    (f, k, let! data := mem_read position n f in Ret (Value (n, data))).

(** [rawPtr()]: the mapping, made again when it was released. *)
Definition mm_rawPtr f k : MMAPFile * K * Status := mm_reopen f k.

Definition mm_rawFd f : StatusOr Z := if mm_fd f <? 0 then Error (mm_not_open f) else Value (mm_fd f).

Definition mm_truncate (fuel : nat) f (targetSize : Z) k : option (MMAPFile * K * Status) :=
  if mm_size f <? targetSize then
    match increaseMmap fuel targetSize f k with
    | None => None
    | Some (f, k, status) =>
        if negb (ok status) then Some (f, k, status) else Some (mm_set_size targetSize f, k, OkStatus)
    end
  else Some (mm_set_size targetSize f, k, OkStatus).

Definition mm_writeBytes (fuel : nat) f (bytes : str) (position : Z) k :
    option (K * outcome (MMAPFile * Status)) :=
  if len bytes =? 0 then Some (k, Ret (f, OkStatus)) else
  let newSize := u64 (position + len bytes) in
  match (if mm_size f <? newSize then increaseMmap fuel newSize f k else Some (f, k, OkStatus)) with
  | None => None
  | Some (f, k, status) =>
      if negb (ok status) then Some (k, Ret (f, status)) else
      if negb (mm_mmapPtr f) then Some (k, Ret (f, InternalError "The file is not mmapped!")) else
      Some (k, let! f := mem_write position bytes f in
               Ret (if mm_size f <? newSize then mm_set_size newSize f else f, OkStatus))
  end.

Fixpoint mm_fsync (fuel : nat) f k : option (K * Status) :=
  if mm_fd f <? 0 then Some (k, mm_not_open f) else
  match fuel with
  | O => None
  | S fuel =>
      let '(k, e) := mk_fsync k in
      if negb (e =? 0) && (mk_errno k =? EINTR) then mm_fsync fuel f k
      else if negb (e =? 0)
      then Some (k, UnknownError ("Unable to fsync " ++ mm_path f ++ ": " ++ mk_strerror (mk_errno k)))
      else Some (k, OkStatus)
  end.

(** The characters [std::istream_iterator<char>] yields: it skips white space. *)
Definition skip_space (st : str) : str := List.filter (fun c => negb (is_space c)) st.

(** The length [write] counts, or is given. *)
Definition stream_length (stream : str) (lengthArg : option Z) : Z :=
  match lengthArg with Some n => n | None => len (skip_space stream) end.

(** [write(stream, position, length)]: all characters are copied, whatever the
    length. *)
Definition mm_write (fuel : nat) f (stream : str) (position : Z) (lengthArg : option Z) k :
    option (K * outcome (MMAPFile * StatusOr Z)) :=
  let length := stream_length stream lengthArg in
  if length =? 0 then Some (k, Ret (f, from_status OkStatus)) else
  let newSize := u64 (position + length) in
  match increaseMmap fuel newSize f k with
  | None => None
  | Some (f, k, status) =>
      if negb (ok status) then Some (k, Ret (f, Error status)) else
      if negb (mm_mmapPtr f) then Some (k, Ret (f, Error (InternalError "The file is not mmapped!"))) else
      Some (k, let! f := mem_write position (skip_space stream) f in
               Ret (if mm_size f <? newSize then mm_set_size newSize f else f, Value length))
  end.
End ops.

(** ** Invariant *)

Section theory.
Context {K : Type} `{MmapLaws K}.
Implicit Types (f : MMAPFile) (k : K).

Record mm_wf f : Prop := {
  mw_open : 0 <= mm_fd f;
  mw_size : 0 <= mm_size f < 2 ^ 62;
  mw_alloc : page_round (mm_size f) <= len (mm_data f);
  (** the mapping covers the file's size and lies within the file *)
  mw_map : mm_mmapPtr f = true -> mm_size f <= mm_mmapSize f <= len (mm_data f);
  mw_unmap : mm_mmapPtr f = false -> mm_mmapSize f = 0;
  mw_pages : mm_mmapSize f mod MMAP_pageSize = 0
}.

Lemma page_pos : 0 < MMAP_pageSize.
Proof. pose proof pageSize_pos. lia. Qed.

Lemma page_div n :
  n = MMAP_pageSize * (n / MMAP_pageSize) + n mod MMAP_pageSize /\
  0 <= n mod MMAP_pageSize < MMAP_pageSize.
Proof.
  pose proof page_pos as Hp. split; [apply Z.div_mod; lia|by apply Z.mod_pos_bound].
Qed.

Lemma page_round_eq n :
  0 <= n < 2 ^ 62 ->
  page_round n = (n / MMAP_pageSize + (if 0 <? n mod MMAP_pageSize then 1 else 0)) * MMAP_pageSize.
Proof.
  intros Hn. pose proof pageSize_pos. unfold page_round. apply u64_small. unfold is_u64, two64.
  pose proof (page_div n) as [Hdm Hmb].
  pose proof (Z.mod_le n _ ltac:(lia) page_pos).
  rewrite Z.mul_add_distr_r, (Z.mul_comm (n / _)). destruct (0 <? n mod MMAP_pageSize); lia.
Qed.

Lemma page_round_bounds n : 0 <= n < 2 ^ 62 -> n <= page_round n < n + MMAP_pageSize.
Proof.
  intros Hn. pose proof pageSize_pos. rewrite page_round_eq by done.
  pose proof (page_div n) as [Hdm Hmb].
  rewrite Z.mul_add_distr_r, (Z.mul_comm (n / _)).
  destruct (Z.ltb_spec 0 (n mod MMAP_pageSize)); lia.
Qed.

Lemma page_round_mono n m : 0 <= n <= m -> m < 2 ^ 62 -> page_round n <= page_round m.
Proof.
  intros Hn Hm. pose proof pageSize_pos. rewrite !page_round_eq by lia.
  pose proof (Z.div_le_mono n m _ page_pos ltac:(lia)).
  apply Z.mul_le_mono_nonneg_r; [lia|].
  destruct (Z.eq_dec (n / MMAP_pageSize) (m / MMAP_pageSize)) as [E|E].
  - rewrite E. pose proof (page_div n) as [Hd1 ?]. pose proof (page_div m) as [Hd2 ?].
    rewrite E in Hd1.
    destruct (Z.ltb_spec 0 (n mod MMAP_pageSize)), (Z.ltb_spec 0 (m mod MMAP_pageSize)); lia.
  - repeat case_match; lia.
Qed.

Lemma page_round_mod n : 0 <= n < 2 ^ 62 -> page_round n mod MMAP_pageSize = 0.
Proof. intros. rewrite page_round_eq by done. apply Z.mod_mul. pose proof page_pos. lia. Qed.

Lemma page_round_le n m :
  0 <= n < 2 ^ 62 -> n <= m -> m mod MMAP_pageSize = 0 -> page_round n <= m.
Proof.
  intros Hn Hnm Hm. rewrite page_round_eq by done.
  pose proof (page_div n) as [Hd1 Hb1]. pose proof (page_div m) as [Hd2 _]. rewrite Hm, Z.add_0_r in Hd2.
  rewrite Hd2 at 1. rewrite (Z.mul_comm MMAP_pageSize). apply Z.mul_le_mono_nonneg_r; [pose proof page_pos; lia|].
  pose proof (Z.div_le_mono n m _ page_pos Hnm).
  destruct (Z.ltb_spec 0 (n mod MMAP_pageSize)); [|lia].
  destruct (Z.eq_dec (n / MMAP_pageSize) (m / MMAP_pageSize)) as [E|]; [|lia].
  rewrite E in Hd1. lia.
Qed.

(** [d'] has the bytes of [d], possibly followed by zero bytes. *)
Definition extends (d d' : str) : Prop := d' = d \/ exists n, len d <= n /\ d' = resize n d.

Lemma extends_len d d' : extends d d' -> len d <= len d'.
Proof.
  intros [->|(n & Hn & ->)]; [lia|]. pose proof (len_nonneg d). rewrite len_resize; lia.
Qed.

(** Growing the mapping to at least the size, whatever the kernel answers. *)
Lemma increaseMmap_grow fuel n f k f' k' st :
  mm_wf f -> 0 < n < 2 ^ 62 -> mm_mmapPtr f = true \/ mm_size f <= page_round n ->
  increaseMmap fuel n f k = Some (f', k', st) ->
  mm_wf f' /\ mm_size f' = mm_size f /\ extends (mm_data f) (mm_data f') /\
  (ok st = true -> n <= mm_mmapSize f' /\ mm_mmapPtr f' = true).
Proof.
  intros Hw Hn Hc. pose proof (mw_size f Hw) as Hs. pose proof (page_round_bounds n ltac:(lia)) as Hpr.
  unfold increaseMmap.
  destruct (Z.ltb_spec (mm_fd f) 0) as [Hfd|_]; [pose proof (mw_open f Hw); lia|].
  destruct (Z.ltb_spec (mm_mmapSize f) n) as [Hlt|Hge].
  2: { intros [= <- <- <-]. split_and!; [done..|by left|]. intros _. split; [done|].
       destruct (mm_mmapPtr f) eqn:Ep; [done|]. rewrite (mw_unmap f Hw Ep) in Hge. lia. }
  assert (Hsr : mm_size f <= page_round n).
  { destruct Hc as [Hp|Hc]; [|done]. pose proof (mw_map f Hw Hp). lia. }
  destruct (fallocate_loop _ _ _ _) as [[k1 e]|]; [|done].
  destruct (Z.eqb_spec e 0); cbn [negb].
  2: { intros [= <- <- <-]. split_and!; [done..|by left|done]. }
  set (g := if len (mm_data f) <? page_round n then _ else f).
  assert (Hg : mm_wf g /\ mm_size g = mm_size f /\ extends (mm_data f) (mm_data g) /\
               page_round n <= len (mm_data g)).
  { unfold g. pose proof (len_nonneg (mm_data f)).
    destruct (Z.ltb_spec (len (mm_data f)) (page_round n)) as [Hl|Hl];
      [|split_and!; try done; by left].
    simpl. rewrite len_resize by lia. split_and!; try done; try lia.
    - destruct Hw as [? ? ? Hm Hu ?]. split; simpl; try done; rewrite ?len_resize by lia; try lia.
      intros Hp. specialize (Hm Hp). lia.
    - right. exists (page_round n). split; [lia|done]. }
  clearbody g. destruct Hg as (Hwg & Hsz & Hext & Hal).
  assert (Hmap : mm_wf (mm_set_map (page_round n) true g)).
  { pose proof (page_round_mod n ltac:(lia)). destruct Hwg. split; simpl; try done; lia. }
  destruct (mm_mmapPtr g); cbn [negb];
    [destruct (mk_mremap _ _ _) as [k2 []]|destruct (mk_mmap _ _) as [k2 []]]; cbn [negb];
    intros [= <- <- <-]; split_and!; try done; intros; simpl; split; (done || lia).
Qed.

(** Growing the mapping beyond the size. *)
Lemma increaseMmap_safe fuel n f k f' k' st :
  mm_wf f -> mm_size f < n < 2 ^ 62 -> increaseMmap fuel n f k = Some (f', k', st) ->
  mm_wf f' /\ mm_size f' = mm_size f /\ extends (mm_data f) (mm_data f') /\
  (ok st = true -> n <= mm_mmapSize f' /\ mm_mmapPtr f' = true).
Proof.
  intros Hw Hn. pose proof (mw_size f Hw). pose proof (page_round_bounds n ltac:(lia)).
  apply increaseMmap_grow; [done|lia|right; lia].
Qed.

(** The mapping never shrinks. *)
Lemma increaseMmap_size fuel n f k f' k' st :
  increaseMmap fuel n f k = Some (f', k', st) -> n <= mm_mmapSize f' -> mm_mmapSize f <= mm_mmapSize f'.
Proof.
  intros E Hn. destruct (Z.ltb_spec (mm_mmapSize f) n) as [|Hge]; [lia|]. revert E. unfold increaseMmap.
  destruct (mm_fd f <? 0); [intros [= <- <- <-]; lia|]. rewrite (proj2 (Z.ltb_ge _ _) Hge). intros [= <- <- <-]. lia.
Qed.

Lemma mem_write_safe position bytes f :
  0 <= position -> mm_mmapPtr f = true -> mm_wf f -> position + len bytes <= mm_mmapSize f ->
  exists f', mem_write position bytes f = Ret f' /\
    f' = mm_set_data (write_at position bytes (mm_data f)) f /\
    len (mm_data f') = len (mm_data f).
Proof.
  intros Hp Hptr Hw Hb. pose proof (mw_map f Hw Hptr). unfold mem_write. rewrite Hptr. simpl.
  rewrite !(proj2 (Z.leb_le _ _)) by lia. eexists. split_and!; [done..|]. simpl.
  rewrite len_write_at by done. lia.
Qed.

(** A size that grows within the mapping keeps the invariant. *)
Lemma set_size_wf f n d :
  mm_wf f -> mm_mmapPtr f = true -> 0 <= n < 2 ^ 62 -> n <= mm_mmapSize f ->
  len d = len (mm_data f) -> mm_wf (mm_set_size n (mm_set_data d f)).
Proof.
  intros [? ? ? Hm Hu Hpg] Hp ???. specialize (Hm Hp).
  pose proof (page_round_le n (mm_mmapSize f)). split; simpl; try done; lia.
Qed.

Lemma set_data_wf f d : mm_wf f -> len d = len (mm_data f) -> mm_wf (mm_set_data d f).
Proof. intros [? ? ? Hm Hu Hpg] E. split; simpl; rewrite ?E; done. Qed.

(** Writing is memory safe. *)
Lemma mm_writeBytes_safe fuel f bytes position k k' o :
  mm_wf f -> 0 <= position -> position + len bytes < 2 ^ 62 ->
  mm_writeBytes fuel f bytes position k = Some (k', o) ->
  exists f' st, o = Ret (f', st) /\ mm_wf f' /\
    (ok st = true -> bytes <> [] ->
       mm_size f' = Z.max (mm_size f) (position + len bytes) /\
       exists d, extends (mm_data f) d /\ mm_data f' = write_at position bytes d) /\
    (ok st = false -> mm_size f' = mm_size f /\ extends (mm_data f) (mm_data f')).
Proof.
  intros Hw Hp Hmax. unfold mm_writeBytes. pose proof (len_nonneg bytes). pose proof (mw_size f Hw).
  destruct (Z.eqb_spec (len bytes) 0) as [E|E].
  { intros [= <- <-]. exists f, OkStatus. apply len_0 in E. split_and!; try done. }
  rewrite (u64_small (position + len bytes)) by (unfold is_u64, two64; lia).
  destruct (Z.ltb_spec (mm_size f) (position + len bytes)) as [Hlt|Hge].
  - destruct (increaseMmap _ _ _ _) as [[[g k1] st]|] eqn:Ei; [|done].
    destruct (increaseMmap_safe _ _ _ _ _ _ _ Hw (conj Hlt Hmax) Ei) as (Hwg & Hs & Hext & Hok).
    destruct (ok st) eqn:Est; cbn [negb].
    2: { intros [= <- <-]. exists g, st. split_and!; try done; congruence. }
    destruct (Hok eq_refl) as [Hms Hptr]. rewrite Hptr. cbn [negb]. intros [= <- <-].
    destruct (mem_write_safe position bytes g Hp Hptr Hwg Hms) as (g' & -> & -> & Hl). simpl in Hl.
    cbn [obind]. simpl mm_size. rewrite Hs, (proj2 (Z.ltb_lt _ _) Hlt).
    eexists _, OkStatus. split_and!; [done| | |done].
    + apply set_size_wf; try done; lia.
    + intros _ _. simpl. split; [lia|]. eauto.
  - cbn [ok]. destruct (mm_mmapPtr f) eqn:Hptr; simpl.
    2: { intros [= <- <-]. eexists f, _. split_and!; try done. intros _. split; [done|by left]. }
    intros [= <- <-]. pose proof (mw_map f Hw Hptr).
    destruct (mem_write_safe position bytes f Hp Hptr Hw) as (g' & -> & -> & Hl); [lia|]. simpl in Hl.
    cbn [obind]. simpl mm_size. rewrite (proj2 (Z.ltb_ge _ _) Hge).
    eexists _, OkStatus. split_and!; [done|by apply set_data_wf| |done].
    intros _ _. simpl. split; [lia|]. exists (mm_data f). split; [by left|done].
Qed.

Lemma mm_reopen_safe f k f' k' st :
  mm_wf f -> mm_reopen f k = (f', k', st) ->
  mm_wf f' /\ mm_size f' = mm_size f /\ mm_data f' = mm_data f /\
  (ok st = true -> mm_mmapPtr f' = true).
Proof.
  intros Hw. unfold mm_reopen. destruct (mm_mmapPtr f) eqn:Hp; cbn [negb].
  { by intros [= <- <- <-]. }
  destruct (mk_mmap _ k) as [k1 []]; cbn [negb]; intros [= <- <- <-]; [|done].
  split_and!; [|done..]. pose proof (page_round_bounds (mm_size f) (mw_size f Hw)).
  pose proof (page_round_mod (mm_size f) (mw_size f Hw)).
  destruct Hw. split; simpl; done || lia.
Qed.

#[local] Opaque to_string.

(** Reading is memory safe and returns the file's bytes. *)
Lemma mm_readBytes_safe f position length k f' k' o :
  mm_wf f -> 0 <= position -> 0 <= length -> mm_readBytes f position length k = (f', k', o) ->
  mm_wf f' /\ mm_size f' = mm_size f /\ mm_data f' = mm_data f /\
  exists r, o = Ret r /\
    forall n data, r = Value (n, data) ->
      n = Z.max 0 (Z.min length (mm_size f - position)) /\
      data = slice position n (mm_data f).
Proof.
  intros Hw Hp Hl. pose proof (mw_size f Hw) as Hs. unfold mm_readBytes.
  destruct (Z.ltb_spec SSIZE_MAX length); [intros [= <- <- <-]; split_and!; [assumption|reflexivity..|];
    eexists; split; [reflexivity|]; intros m d Hr; discriminate Hr|].
  destruct (Z.leb_spec SSIZE_MAX position); [intros [= <- <- <-]; split_and!; [assumption|reflexivity..|];
    eexists; split; [reflexivity|]; intros m d Hr; discriminate Hr|].
  destruct (Z.eqb_spec length 0) as [->|Hl0].
  { intros [= <- <- <-]. split_and!; try done. eexists. split; [done|]. intros m d [= <- <-].
    by rewrite slice_0; split; [lia|]. }
  destruct (mm_reopen f k) as [[g k1] st] eqn:Er.
  destruct (mm_reopen_safe _ _ _ _ _ Hw Er) as (Hwg & Hsg & Hdg & Hok).
  destruct (ok st); cbn [negb]; [|intros [= <- <- <-]; split_and!; try done; by eexists].
  rewrite Hsg. destruct (Z.leb_spec (mm_size f) position).
  { intros [= <- <- <-]. split_and!; try done. eexists. split; [done|]. intros m d [= <- <-].
    by rewrite slice_0; split; [lia|]. }
  destruct (Z.eqb_spec (Z.min length (mm_size f - position)) 0); [lia|].
  rewrite (u64_small (position + _)) by (unfold is_u64, two64; lia).
  replace (Z.min (mm_size f) _ - position) with (Z.min length (mm_size f - position)) by lia.
  intros [= <- <- <-]. split_and!; try done.
  unfold mem_read. rewrite (Hok eq_refl). pose proof (mw_map g Hwg (Hok eq_refl)). simpl.
  rewrite !(proj2 (Z.leb_le _ _)) by lia. simpl. eexists. split; [done|].
  intros n0 d [= <- <-]. rewrite Hdg. split; [lia|done].
Qed.

Lemma mm_truncate_safe fuel f n k f' k' st :
  mm_wf f -> 0 <= n < 2 ^ 62 -> mm_truncate fuel f n k = Some (f', k', st) ->
  mm_wf f' /\ mm_size f' = (if ok st then n else mm_size f) /\
  extends (mm_data f) (mm_data f').
Proof.
  intros Hw Hn. pose proof (mw_size f Hw). unfold mm_truncate.
  destruct (Z.ltb_spec (mm_size f) n) as [Hlt|Hge].
  - destruct (increaseMmap _ _ _ _) as [[[g k1] s1]|] eqn:Ei; [|done].
    destruct (increaseMmap_safe _ _ _ _ _ _ _ Hw (conj Hlt (proj2 Hn)) Ei) as (Hwg & Hs & Hext & Hok).
    destruct (ok s1) eqn:Es; cbn [negb]; intros [= <- <- <-]; [|by rewrite Es].
    destruct (Hok eq_refl) as [Hms Hptr]. split_and!; [|done..].
    apply (set_size_wf g n (mm_data g)); try done; lia.
  - intros [= <- <- <-]. split_and!; [|done|by left].
    pose proof (page_round_mono n (mm_size f) ltac:(lia) ltac:(lia)).
    destruct Hw as [? ? ? Hm Hu Hpg]. split; simpl; try done; try lia.
    intros Hp. specialize (Hm Hp). lia.
Qed.

(** A write from a stream stays inside the mapping and leaves it covering the
    file. *)
Definition mm_careful f (stream : str) (position : Z) (lengthArg : option Z) : bool :=
  let length := stream_length stream lengthArg in
  let pages := page_round (position + length) in
  (length =? 0) ||
  ((position + len (skip_space stream) <=? Z.max (mm_mmapSize f) pages) &&
   (mm_mmapPtr f || (mm_size f <=? pages))).

Lemma mm_write_safe fuel f stream position lengthArg k k' o :
  mm_wf f -> 0 <= position -> 0 <= stream_length stream lengthArg -> position + stream_length stream lengthArg < 2 ^ 62 ->
  mm_careful f stream position lengthArg = true -> mm_write fuel f stream position lengthArg k = Some (k', o) ->
  exists f' r, o = Ret (f', r) /\ mm_wf f'.
Proof.
  intros Hw Hp Hl Hmax. unfold mm_careful, mm_write. set (n := stream_length stream lengthArg) in *.
  destruct (Z.eqb_spec n 0); [intros _ [= <- <-]; by eexists _, _|]. cbn [orb].
  intros [Hcap Hc]%andb_true_iff. apply Z.leb_le in Hcap. rewrite u64_small by (unfold is_u64, two64; lia).
  assert (Hc' : mm_mmapPtr f = true \/ mm_size f <= page_round (position + n)).
  { apply orb_true_iff in Hc as [Hc|Hc]; [by left|right; by apply Z.leb_le]. }
  destruct (increaseMmap _ _ _ _) as [[[g k1] st]|] eqn:Ei; [|done].
  assert (Hr : 0 < position + n < 2 ^ 62) by lia.
  destruct (increaseMmap_grow _ _ _ _ _ _ _ Hw Hr Hc' Ei) as (Hwg & Hs & _ & Hok).
  destruct (ok st) eqn:Est; cbn [negb]; [|intros [= <- <-]; by eexists _, _].
  destruct (Hok eq_refl) as [Hms Hptr]. rewrite Hptr. cbn [negb]. intros [= <- <-].
  pose proof (increaseMmap_size _ _ _ _ _ _ _ Ei Hms) as Hsz. pose proof (mw_map g Hwg Hptr).
  pose proof (page_round_le (position + n) (mm_mmapSize g) ltac:(lia) Hms (mw_pages g Hwg)).
  destruct (mem_write_safe position (skip_space stream) g Hp Hptr Hwg) as (g' & -> & -> & Hd); [lia|].
  cbn [obind]. eexists _, _. split; [reflexivity|]. simpl in Hd |- *.
  destruct (Z.ltb_spec (mm_size g) (position + n)); [apply set_size_wf; try done; lia|by apply set_data_wf].
Qed.

Lemma mm_notifyUnused_safe f : mm_wf f -> mm_wf (mm_notifyUnused f).
Proof.
  intros Hw. unfold mm_notifyUnused, mm_release. destruct (mm_mmapPtr f); [|done].
  destruct Hw. split; simpl; done.
Qed.
End theory.

(** A kernel with enough memory and storage. *)
Class MmapGood (K : Type) `{MmapKernel K} := {
  good_fallocate o n k : snd (mk_fallocate o n k) = 0;
  good_mmap n k : 0 < n -> snd (mk_mmap n k) = true;
  good_mremap o n k : snd (mk_mremap o n k) = true
}.

Section good.
Context {K : Type} `{MmapLaws K} `{!MmapGood K}.
Implicit Types (f : MMAPFile) (k : K).

Lemma increaseMmap_good fuel n f k :
  mm_wf f -> 0 < n < 2 ^ 62 ->
  exists k', increaseMmap (S fuel) n f k =
    Some (if mm_mmapSize f <? n
          then mm_set_map (page_round n) true
                 (if len (mm_data f) <? page_round n then mm_set_data (resize (page_round n) (mm_data f)) f
                  else f)
          else f, k', OkStatus).
Proof.
  intros Hw Hn. unfold increaseMmap.
  assert (Hpos : 0 < page_round n) by (pose proof (page_round_bounds n); lia).
  destruct (Z.ltb_spec (mm_fd f) 0); [pose proof (mw_open f Hw); lia|].
  destruct (mm_mmapSize f <? n); [|by eexists].
  cbn [fallocate_loop].
  pose proof (good_fallocate (mm_mmapSize f) (u64 (page_round n - mm_mmapSize f)) k) as Hf.
  destruct (mk_fallocate _ _ _) as [k1 e]. simpl in Hf. subst e. cbn [negb andb Z.eqb].
  set (g := if len (mm_data f) <? page_round n then _ else f).
  destruct (mm_mmapPtr g); cbn [negb].
  - pose proof (good_mremap (mm_mmapSize g) (page_round n) k1) as Hm.
    destruct (mk_mremap _ _ _) as [k2 b]. simpl in Hm. subst b. by eexists.
  - pose proof (good_mmap (page_round n) k1 Hpos) as Hm.
    destruct (mk_mmap _ _) as [k2 b]. simpl in Hm. subst b. by eexists.
Qed.

(** With such a kernel a write succeeds, unless the file is unmapped and does
    not have to grow. *)
Lemma mm_writeBytes_good f bytes position k :
  mm_wf f -> 0 <= position -> position + len bytes < 2 ^ 62 -> bytes <> [] ->
  mm_mmapPtr f = true \/ mm_size f < position + len bytes ->
  exists k' f', mm_writeBytes 1 f bytes position k = Some (k', Ret (f', OkStatus)).
Proof.
  intros Hw Hp Hmax Hne Hcase. pose proof (len_nonneg bytes).
  assert (Hres : exists k' o, mm_writeBytes 1 f bytes position k = Some (k', o) /\
    (forall f' st, o = Ret (f', st) -> st = OkStatus)).
  { unfold mm_writeBytes. destruct (Z.eqb_spec (len bytes) 0) as [E|E]; [by apply len_0 in E|].
    rewrite (u64_small (position + len bytes)) by (unfold is_u64, two64; lia).
    destruct (Z.ltb_spec (mm_size f) (position + len bytes)) as [Hlt|Hge].
    - pose proof (mw_size f Hw).
      destruct (increaseMmap_good 0 (position + len bytes) f k Hw) as (k1 & Ei); [lia|].
      rewrite Ei. cbn [negb ok OkStatus].
      destruct (increaseMmap_safe _ _ _ _ _ _ _ Hw (conj Hlt Hmax) Ei) as (_ & _ & _ & Hok).
      destruct (Hok eq_refl) as [_ ->]. simpl. eexists _, _. split; [done|].
      destruct (mem_write _ _ _); simpl; congruence.
    - destruct Hcase as [->|]; [|lia]. simpl. eexists _, _. split; [done|].
      destruct (mem_write _ _ _); simpl; congruence. }
  destruct Hres as (k' & o & E & Ho).
  destruct (mm_writeBytes_safe _ _ _ _ _ _ _ Hw Hp Hmax E) as (f' & st & -> & _).
  exists k', f'. rewrite E. by rewrite (Ho _ _ eq_refl).
Qed.

(** A write that succeeds leaves the file mapped. *)
Lemma mm_writeBytes_maps fuel f bytes position k k' f' :
  bytes <> [] -> mm_writeBytes fuel f bytes position k = Some (k', Ret (f', OkStatus)) -> mm_mmapPtr f' = true.
Proof.
  intros Hne E. assert (0 < len bytes) by (destruct bytes; [done|unfold len; simpl; lia]).
  destruct (mm_mmapPtr f') eqn:Ep; [done|]. exfalso. revert E. unfold mm_writeBytes.
  destruct (Z.eqb_spec (len bytes) 0); [lia|].
  destruct (if mm_size f <? _ then _ else _) as [[[g kk] s]|]; [|done].
  destruct (ok s) eqn:Es; cbn [negb]; [|intros [= _ -> ->]; done].
  destruct (mm_mmapPtr g) eqn:Eg; cbn [negb]; [|done].
  unfold mem_write. rewrite Eg. destruct (_ && _); simpl; [|done]. intros [= _ <-].
  revert Ep. by destruct (_ <? _); simpl; rewrite Eg.
Qed.

Lemma mm_readBytes_mapped f position length k :
  mm_wf f -> mm_mmapPtr f = true -> 0 <= position < SSIZE_MAX -> 0 < length <= SSIZE_MAX ->
  snd (mm_readBytes f position length k) =
    Ret (Value (Z.max 0 (Z.min length (mm_size f - position)),
                slice position (Z.max 0 (Z.min length (mm_size f - position))) (mm_data f))).
Proof.
  intros Hw Hptr Hp Hl. destruct (mm_readBytes f position length k) as [[f' k'] o] eqn:E.
  assert (Hl' : 0 <= length) by lia.
  destruct (mm_readBytes_safe _ _ _ _ _ _ _ Hw (proj1 Hp) Hl' E) as (_ & _ & _ & r & -> & Hr).
  simpl. revert E. unfold mm_readBytes, mm_reopen. rewrite Hptr. cbn [negb].
  destruct (Z.ltb_spec SSIZE_MAX length); [lia|]. destruct (Z.leb_spec SSIZE_MAX position); [lia|].
  destruct (Z.eqb_spec length 0); [lia|]. cbn [ok OkStatus negb Z.eqb raw_code].
  destruct (Z.leb_spec (mm_size f) position); [intros [= <- <- <-]; destruct (Hr _ _ eq_refl) as [E1 E2];
    rewrite <- E1, <- E2; reflexivity|].
  destruct (Z.eqb_spec (Z.min length (mm_size f - position)) 0); [lia|].
  destruct (mem_read _ _ _) as [d|e|]; intros [= <- <- <-].
  destruct (Hr _ _ eq_refl) as [E1 E2];
    rewrite <- E1, <- E2; reflexivity.
Qed.
End good.

(** ** Sequences of operations *)

(** The operations; [rawFd] only returns a member. *)
Inductive mm_op :=
| MRead (position length : Z)
| MWrite (bytes : str) (position : Z)
| MStream (stream : str) (position : Z) (lengthArg : option Z)
| MTruncate (n : Z)
| MRawPtr
| MFsync
| MUnused.

Definition mm_op_bounded (a : mm_op) : Prop :=
  match a with
  | MRead p n => 0 <= p /\ 0 <= n
  | MWrite b p => 0 <= p /\ p + len b < 2 ^ 62
  | MStream s p n => 0 <= p /\ 0 <= stream_length s n /\ p + stream_length s n < 2 ^ 62
  | MTruncate n => 0 <= n < 2 ^ 62
  | MRawPtr | MFsync | MUnused => True
  end.

(** One operation; the inner [outcome] tells whether the process survives. *)
Definition mm_exec {K} `{MmapKernel K} (fuel : nat) (a : mm_op) (s : MMAPFile * K) :
    option (outcome (MMAPFile * K)) :=
  let '(f, k) := s in
  match a with
  | MRead p n => let '(f, k, o) := mm_readBytes f p n k in Some (let! _ := o in Ret (f, k))
  | MWrite b p => match mm_writeBytes fuel f b p k with
                  | Some (k, o) => Some (let! p := o in Ret (fst p, k))
                  | None => None
                  end
  | MStream s p n => match mm_write fuel f s p n k with
                     | Some (k, o) => Some (let! p := o in Ret (fst p, k))
                     | None => None
                     end
  | MTruncate n => match mm_truncate fuel f n k with
                   | Some (f, k, _) => Some (Ret (f, k))
                   | None => None
                   end
  | MRawPtr => let '(f, k, _) := mm_rawPtr f k in Some (Ret (f, k))
  | MFsync => match mm_fsync fuel f k with
              | Some (k, _) => Some (Ret (f, k))
              | None => None
              end
  | MUnused => Some (Ret (mm_notifyUnused f, k))
  end.

Fixpoint mm_run {K} `{MmapKernel K} (fuel : nat) (ops : list mm_op) (s : MMAPFile * K) :
    option (outcome (MMAPFile * K)) :=
  match ops with
  | [] => Some (Ret s)
  | a :: ops => match mm_exec fuel a s with
                | Some (Ret s) => mm_run fuel ops s
                | r => r
                end
  end.

(** Every write from a stream is careful where the run performs it. *)
Fixpoint mm_careful_run {K} `{MmapKernel K} (fuel : nat) (ops : list mm_op) (s : MMAPFile * K) : bool :=
  match ops with
  | [] => true
  | a :: ops =>
      match a with MStream str p n => mm_careful (fst s) str p n | _ => true end &&
      match mm_exec fuel a s with
      | Some (Ret s) => mm_careful_run fuel ops s
      | _ => true
      end
  end.

Section runs.
#[local] Opaque to_string.
Context {K : Type} `{MmapLaws K} `{!MmapFair K}.
Implicit Types (f : MMAPFile) (k : K).

(** Loops over interrupted calls end. *)
Lemma fallocate_loop_returns fuel o n k :
  (mm_interrupts k < fuel)%nat ->
  exists k' e, fallocate_loop fuel o n k = Some (k', e) /\ (mm_interrupts k' <= mm_interrupts k)%nat.
Proof.
  revert k. induction fuel as [|fuel IH]; intros k Hf; [lia|]. cbn [fallocate_loop].
  pose proof (fallocate_fair o n k) as Hk. destruct (mk_fallocate o n k) as [k1 e].
  destruct (negb (e =? 0) && _); [|by eexists _, _].
  destruct (IH k1) as (k' & e' & -> & Hle); [lia|]. eexists _, _. split; [done|lia].
Qed.

Lemma increaseMmap_returns fuel n f k :
  (mm_interrupts k < fuel)%nat ->
  exists f' k' st, increaseMmap fuel n f k = Some (f', k', st) /\ (mm_interrupts k' <= mm_interrupts k)%nat.
Proof.
  intros Hf. unfold increaseMmap. destruct (mm_fd f <? 0); [by eexists _, _, _|].
  destruct (mm_mmapSize f <? n); [|by eexists _, _, _]. cbv zeta.
  destruct (fallocate_loop_returns fuel (mm_mmapSize f) (u64 (page_round n - mm_mmapSize f)) k Hf) as (k1 & e & -> & Hle).
  destruct (negb (e =? 0)); [by eexists _, _, _|]. set (g := if len (mm_data f) <? page_round n then _ else f).
  destruct (negb (mm_mmapPtr g)).
  - pose proof (mmap_fair (page_round n) k1) as Hm. destruct (mk_mmap _ _) as [k2 b]. cbn [fst] in Hm.
    destruct (negb b); (eexists _, _, _; split; [done|lia]).
  - pose proof (mremap_fair (mm_mmapSize g) (page_round n) k1) as Hm. destruct (mk_mremap _ _ _) as [k2 b].
    cbn [fst] in Hm. destruct (negb b); (eexists _, _, _; split; [done|lia]).
Qed.

Lemma mm_fsync_returns fuel f k :
  (mm_interrupts k < fuel)%nat ->
  exists k' st, mm_fsync fuel f k = Some (k', st) /\ (mm_interrupts k' <= mm_interrupts k)%nat.
Proof.
  revert k. induction fuel as [|fuel IH]; intros k Hf; [lia|]. cbn [mm_fsync].
  destruct (mm_fd f <? 0); [by eexists _, _|]. pose proof (fsync_fair k) as Hk. destruct (mk_fsync k) as [k1 e].
  destruct (negb (e =? 0) && _).
  - destruct (IH k1) as (k' & st & -> & Hle); [lia|]. eexists _, _. split; [done|lia].
  - destruct (negb (e =? 0)); (eexists _, _; split; [done|lia]).
Qed.

Lemma mm_reopen_interrupts f k : (mm_interrupts (snd (fst (mm_reopen f k))) <= mm_interrupts k)%nat.
Proof.
  unfold mm_reopen. destruct (negb (mm_mmapPtr f)); [|done]. pose proof (mmap_fair (page_round (mm_size f)) k) as Hm.
  destruct (mk_mmap _ _) as [k1 b]. by destruct (negb b).
Qed.

Lemma mm_readBytes_interrupts f p n k f' k' o :
  mm_readBytes f p n k = (f', k', o) -> (mm_interrupts k' <= mm_interrupts k)%nat.
Proof.
  unfold mm_readBytes. destruct (_ <? n); [by intros [= <- <- <-]|]. destruct (_ <=? p); [by intros [= <- <- <-]|].
  destruct (n =? 0); [by intros [= <- <- <-]|]. pose proof (mm_reopen_interrupts f k) as Hr.
  destruct (mm_reopen f k) as [[g k1] st]. cbn [fst snd] in Hr. destruct (negb (ok st)); [by intros [= <- <- <-]|].
  destruct (_ <=? p); [by intros [= <- <- <-]|]. cbv zeta. destruct (_ =? 0); by intros [= <- <- <-].
Qed.

Lemma mm_exec_returns fuel a f k :
  (mm_interrupts k < fuel)%nat ->
  exists r, mm_exec fuel a (f, k) = Some r /\
    (forall f' k', r = Ret (f', k') -> (mm_interrupts k' <= mm_interrupts k)%nat).
Proof.
  intros Hf. destruct a as [p n|b p|s p n|n| | |]; cbn [mm_exec].
  - destruct (mm_readBytes f p n k) as [[g k1] o] eqn:E. apply mm_readBytes_interrupts in E.
    eexists. split; [done|]. intros f' k'. destruct o; [|done..]. by intros [= <- <-].
  - unfold mm_writeBytes. destruct (len b =? 0); [eexists; split; [done|]; by intros f' k' [= <- <-]|]. cbv zeta.
    assert (exists g k1 st, (if mm_size f <? u64 (p + len b) then increaseMmap fuel (u64 (p + len b)) f k else Some (f, k, OkStatus))
      = Some (g, k1, st) /\ (mm_interrupts k1 <= mm_interrupts k)%nat) as (g & k1 & st & -> & Hle).
    { destruct (_ <? _); [by apply increaseMmap_returns|by eexists _, _, _]. }
    destruct (negb (ok st)); [|destruct (negb (mm_mmapPtr g))]; (eexists; split; [done|]); intros f' k';
      [by intros [= <- <-]..|]. destruct (mem_write _ _ _); [|done..]. cbn [obind fst]. by intros [= _ <-].
  - unfold mm_write. destruct (stream_length s n =? 0); [eexists; split; [done|]; by intros f' k' [= <- <-]|]. cbv zeta.
    destruct (increaseMmap_returns fuel (u64 (p + stream_length s n)) f k Hf) as (g & k1 & st & -> & Hle).
    destruct (negb (ok st)); [|destruct (negb (mm_mmapPtr g))]; (eexists; split; [done|]); intros f' k';
      [by intros [= <- <-]..|]. destruct (mem_write _ _ _); [|done..]. cbn [obind fst]. by intros [= _ <-].
  - unfold mm_truncate. destruct (mm_size f <? n); [|eexists; split; [done|]; by intros f' k' [= <- <-]].
    destruct (increaseMmap_returns fuel n f k Hf) as (g & k1 & st & -> & Hle).
    destruct (negb (ok st)); (eexists; split; [done|]); by intros f' k' [= <- <-].
  - pose proof (mm_reopen_interrupts f k) as Hr. unfold mm_rawPtr. destruct (mm_reopen f k) as [[g k1] st].
    eexists. split; [done|]. by intros f' k' [= <- <-].
  - destruct (mm_fsync_returns fuel f k Hf) as (k1 & st & -> & Hle). eexists. split; [done|]. by intros f' k' [= <- <-].
  - eexists. split; [done|]. by intros f' k' [= <- <-].
Qed.

(** Every run is over or has ended the process. *)
Lemma mm_run_returns fuel ops f k : (mm_interrupts k < fuel)%nat -> exists r, mm_run fuel ops (f, k) = Some r.
Proof.
  revert f k. induction ops as [|a ops IH]; intros f k Hf; [by eexists|]. cbn [mm_run].
  destruct (mm_exec_returns fuel a f k Hf) as ([[f' k']|e|] & -> & Hle); [|by eexists..].
  apply IH. specialize (Hle _ _ eq_refl). lia.
Qed.

Lemma mm_exec_safe fuel a f k r :
  mm_wf f -> mm_op_bounded a -> match a with MStream str p n => mm_careful f str p n = true | _ => True end ->
  mm_exec fuel a (f, k) = Some r -> exists f' k', r = Ret (f', k') /\ mm_wf f'.
Proof.
  intros Hw Hb Hc. destruct a as [p n|b p|s p n|n| | |]; cbn [mm_exec mm_op_bounded] in *.
  - destruct (mm_readBytes f p n k) as [[f' k'] o] eqn:E.
    destruct (mm_readBytes_safe _ _ _ _ _ _ _ Hw (proj1 Hb) (proj2 Hb) E) as (Hw' & _ & _ & x & -> & _).
    intros [= <-]. by eexists _, _.
  - destruct (mm_writeBytes fuel f b p k) as [[k' o]|] eqn:E; [|done].
    destruct (mm_writeBytes_safe _ _ _ _ _ _ _ Hw (proj1 Hb) (proj2 Hb) E) as (f' & st & -> & Hw' & _).
    intros [= <-]. by eexists _, _.
  - destruct (mm_write fuel f s p n k) as [[k' o]|] eqn:E; [|done]. destruct Hb as (Hp & Hl & Hmax).
    destruct (mm_write_safe _ _ _ _ _ _ _ _ Hw Hp Hl Hmax Hc E) as (f' & st & -> & Hw').
    intros [= <-]. by eexists _, _.
  - destruct (mm_truncate fuel f n k) as [[[f' k'] st]|] eqn:E; [|done].
    destruct (mm_truncate_safe _ _ _ _ _ _ _ Hw Hb E) as (Hw' & _). intros [= <-]. by eexists _, _.
  - unfold mm_rawPtr. destruct (mm_reopen f k) as [[f' k'] st] eqn:E. destruct (mm_reopen_safe _ _ _ _ _ Hw E) as (Hw' & _).
    intros [= <-]. by eexists _, _.
  - destruct (mm_fsync fuel f k) as [[k' st]|]; [|done]. intros [= <-]. by eexists _, _.
  - intros [= <-]. eexists _, _. split; [done|]. by apply mm_notifyUnused_safe.
Qed.

Lemma mm_run_safe fuel ops f k r :
  mm_wf f -> Forall mm_op_bounded ops -> mm_careful_run fuel ops (f, k) = true -> mm_run fuel ops (f, k) = Some r ->
  exists f' k', r = Ret (f', k') /\ mm_wf f'.
Proof.
  intros Hw Hops. revert f k Hw. induction Hops as [|a ops Ha Hops IH]; intros f k Hw; cbn [mm_run mm_careful_run fst].
  { intros _ [= <-]. by eexists _, _. }
  intros [Hc Hcs]%andb_true_iff. destruct (mm_exec fuel a (f, k)) as [o|] eqn:E; [|done].
  destruct (mm_exec_safe fuel a f k o Hw Ha ltac:(by destruct a) E) as (f' & k' & -> & Hw'). by apply IH.
Qed.

(** Reading a whole file that is larger than its mapping. *)
Lemma mm_readBytes_beyond f k :
  mm_mmapPtr f = true -> 0 < mm_size f < 2 ^ 62 -> mm_mmapSize f < mm_size f ->
  mm_readBytes f 0 (mm_size f) k = (f, k, Abort).
Proof.
  intros Hptr Hs Hm. unfold mm_readBytes, mm_reopen. rewrite Hptr. cbn [negb]. change (ok OkStatus) with true. cbn [negb].
  destruct (Z.ltb_spec SSIZE_MAX (mm_size f)); [unfold SSIZE_MAX in *; lia|].
  destruct (Z.leb_spec SSIZE_MAX 0); [unfold SSIZE_MAX in *; lia|].
  destruct (Z.eqb_spec (mm_size f) 0); [lia|]. destruct (Z.leb_spec (mm_size f) 0); [lia|]. cbv zeta.
  rewrite Z.sub_0_r, Z.min_id, Z.add_0_l. destruct (Z.eqb_spec (mm_size f) 0); [lia|].
  rewrite u64_small by (unfold is_u64, two64; lia). rewrite Z.min_id, Z.sub_0_r. unfold mem_read. rewrite Hptr.
  by rewrite (proj2 (Z.leb_gt (0 + mm_size f) _)) by lia.
Qed.

(** A write from a stream that is not careful ends the process, or the next read
    of the whole file does. *)
Lemma mm_careless `{!MmapGood K} fuel f stream position n k :
  mm_wf f -> mm_op_bounded (MStream stream position n) -> mm_careful f stream position n = false ->
  mm_run (S fuel) [MStream stream position n; MRead 0 (mm_size f)] (f, k) = Some Abort.
Proof.
  intros Hw (Hp & Hl & Hmax) Hc. unfold mm_careful in Hc. cbn [mm_run mm_exec]. unfold mm_write. cbv zeta.
  set (l := stream_length stream n) in *. destruct (Z.eqb_spec l 0); [done|]. cbn [orb] in Hc.
  rewrite u64_small by (unfold is_u64, two64; lia). set (b := skip_space stream) in *.
  destruct (increaseMmap_good fuel (position + l) f k Hw ltac:(lia)) as (k' & ->).
  set (g := if mm_mmapSize f <? _ then _ else f).
  pose proof (page_round_bounds (position + l) ltac:(lia)) as Hpr. pose proof (mw_size f Hw) as Hs.
  assert (Hg : mm_mmapPtr g = true /\ mm_size g = mm_size f /\ mm_mmapSize g = Z.max (mm_mmapSize f) (page_round (position + l))).
  { unfold g. destruct (Z.ltb_spec (mm_mmapSize f) (position + l)) as [|Hge].
    - destruct (_ <? _); cbn [mm_set_map mm_set_data mm_mmapPtr mm_size mm_mmapSize]; split_and!; try done; lia.
    - pose proof (page_round_le (position + l) (mm_mmapSize f) ltac:(lia) Hge (mw_pages f Hw)). split_and!; [|done|lia].
      destruct (mm_mmapPtr f) eqn:Ep; [done|]. pose proof (mw_unmap f Hw Ep). lia. }
  clearbody g. destruct Hg as (Hptr & Hsg & Hms). change (ok OkStatus) with true. cbn [negb]. rewrite Hptr. cbn [negb].
  unfold mem_write. rewrite Hptr, Hms. cbn [andb]. fold b.
  destruct (Z.leb_spec (position + len b) (Z.max (mm_mmapSize f) (page_round (position + l)))); cbn [andb] in *; [|done].
  apply orb_false_iff in Hc as [Hu Hlt]. apply Z.leb_gt in Hlt. rewrite (mw_unmap f Hw Hu) in Hms.
  destruct (position + len b <=? len (mm_data g)); [|done]. cbn [obind fst mm_size mm_set_data]. rewrite Hsg.
  rewrite (proj2 (Z.ltb_ge (mm_size f) (position + l))) by lia.
  rewrite <- Hsg. cbn [mm_exec].
  set (g' := mm_set_data _ g). change (mm_size g) with (mm_size g').
  rewrite (mm_readBytes_beyond g' k'); [done|exact Hptr| |]; unfold g'; cbn [mm_set_data mm_size mm_mmapSize]; lia.
Qed.

(** [posix_fallocate] does not set [errno]. If it keeps failing while [errno] is
    EINTR from an earlier call, the mapping never grows and the call never returns. *)
Lemma increaseMmap_never fuel n f k :
  mm_wf f -> mm_mmapSize f < n ->
  (forall o l k', mk_errno k' = EINTR -> snd (mk_fallocate o l k') <> 0 /\ mk_errno (fst (mk_fallocate o l k')) = EINTR) ->
  mk_errno k = EINTR -> increaseMmap fuel n f k = None.
Proof.
  intros Hw Hn Hf He. unfold increaseMmap. pose proof (mw_open f Hw). rewrite (proj2 (Z.ltb_ge _ 0)) by lia.
  rewrite (proj2 (Z.ltb_lt _ _) Hn). cbv zeta. generalize (mm_mmapSize f), (u64 (page_round n - mm_mmapSize f)).
  intros o l. enough (fallocate_loop fuel o l k = None) as -> by done. revert k He.
  induction fuel as [|fuel IH]; intros k He; [done|]. cbn [fallocate_loop]. destruct (Hf o l k He) as [Hne He'].
  destruct (mk_fallocate o l k) as [k1 e]. cbn [fst snd] in *. rewrite He', (proj2 (Z.eqb_neq e 0) Hne). cbn [negb andb].
  rewrite Z.eqb_refl. by apply IH.
Qed.
End runs.

(** ** Properties *)


(** Reading back what was written. On a file that is mapped or has to grow,
    and with a kernel that has enough memory, [writeBytes] succeeds, extends the
    size to cover the bytes, and a read of the range returns them. *)
Theorem mm_read_after_write (K : Type) `{MmapLaws K} `{!MmapGood K} f bytes position (k k2 : K) :
  mm_wf f -> 0 <= position -> position + len bytes < 2 ^ 62 -> bytes <> [] ->
  mm_mmapPtr f = true \/ mm_size f < position + len bytes ->
  exists k' f', mm_writeBytes 1 f bytes position k = Some (k', Ret (f', OkStatus)) /\
    mm_wf f' /\ mm_size f' = Z.max (mm_size f) (position + len bytes) /\
    snd (mm_readBytes f' position (len bytes) k2) = Ret (Value (len bytes, bytes)).
Proof.
  intros Hw Hp Hmax Hne Hc. pose proof (len_nonneg bytes).
  assert (0 < len bytes) by (destruct bytes; [done|unfold len; simpl; lia]).
  destruct (mm_writeBytes_good f bytes position k Hw Hp Hmax Hne Hc) as (k' & f' & E).
  destruct (mm_writeBytes_safe _ _ _ _ _ _ _ Hw Hp Hmax E) as (g & st & [= <- <-] & Hw' & Hok & _).
  destruct (Hok eq_refl Hne) as [Hs (d & _ & Hd)].
  exists k', f'. split_and!; [done..|].
  assert (Hptr : mm_mmapPtr f' = true) by (by apply (mm_writeBytes_maps 1 f bytes position k k')).
  rewrite mm_readBytes_mapped by (done || (unfold SSIZE_MAX; lia)).
  replace (Z.max 0 (Z.min (len bytes) (mm_size f' - position))) with (len bytes) by lia.
  rewrite Hd. by rewrite slice_write_at.
Qed.

(** A file that is not mapped. Reading an empty file that was never
    mapped is an error, not an end of file; and after [notifyUnused] a write
    that does not extend the file is refused with an internal error, although
    a read maps the file again. *)
Theorem mm_unmapped_errors (K : Type) `{MmapLaws K} f (k : K) :
  mm_wf f -> mm_mmapPtr f = false ->
  (mm_size f = 0 -> forall position length, 0 <= position < SSIZE_MAX -> 0 < length <= SSIZE_MAX ->
     snd (mm_readBytes f position length k) =
       Ret (Error (UnknownError ("Failed to map file " ++ mm_path f ++ " with requested size " ++
                                 to_string 0 ++ ".")))) /\
  (forall bytes position, bytes <> [] -> 0 <= position -> position + len bytes <= mm_size f ->
     mm_writeBytes 1 f bytes position k =
       Some (k, Ret (f, InternalError "The file is not mmapped!"))).
Proof.
  intros Hw Hptr. split.
  - intros Hs p n Hp Hn. unfold mm_readBytes, mm_reopen. rewrite Hptr. cbn [negb].
    destruct (Z.ltb_spec SSIZE_MAX n); [lia|]. destruct (Z.leb_spec SSIZE_MAX p); [lia|].
    destruct (Z.eqb_spec n 0); [lia|]. rewrite Hs.
    assert (page_round 0 = 0) as -> by (by rewrite page_round_eq, Z.div_0_l, Z.mod_0_l by (pose proof page_pos; lia)).
    pose proof (mmap_zero k) as Hz. destruct (mk_mmap 0 k) as [k1 b]. simpl in Hz. by subst b.
  - intros bytes p Hne Hp Hle. unfold mm_writeBytes. pose proof (len_nonneg bytes).
    destruct (Z.eqb_spec (len bytes) 0) as [E|E]; [by apply len_0 in E|].
    pose proof (mw_size f Hw). rewrite (u64_small (p + len bytes)) by (unfold is_u64, two64; lia).
    rewrite (proj2 (Z.ltb_ge _ _) Hle). simpl. by rewrite Hptr.
Qed.

(** Writing from a stream into a file that [notifyUnused] has unmapped
    maps only the pages written. A following read of the whole file then
    accesses memory outside the mapping. *)
Theorem mm_stream_write_breaks_mapping (K : Type) `{MmapLaws K} `{!MmapGood K} f stream (k k2 : K) :
  mm_wf f -> mm_mmapPtr f = false -> skip_space stream <> [] -> len (skip_space stream) < 2 ^ 62 ->
  page_round (len (skip_space stream)) < mm_size f ->
  exists k' f', mm_write 1 f stream 0 None k = Some (k', Ret (f', Value (len (skip_space stream)))) /\
    snd (mm_readBytes f' 0 (mm_size f) k2) = Abort.
Proof.
  intros Hw Hptr Hne Hb Hlt. unfold mm_write, stream_length. set (b := skip_space stream) in *.
  assert (0 < len b) by (destruct b; [done|unfold len; simpl; lia]).
  pose proof (mw_size f Hw). pose proof (mw_alloc f Hw). pose proof (mw_unmap f Hw Hptr) as Hms.
  pose proof (page_round_bounds (len b) ltac:(lia)).
  pose proof (page_round_bounds (mm_size f) (mw_size f Hw)).
  destruct (Z.eqb_spec (len b) 0); [lia|]. rewrite (u64_small (0 + len b)) by (unfold is_u64, two64; lia).
  rewrite Z.add_0_l. destruct (increaseMmap_good 0 (len b) f k Hw) as (k' & ->); [lia|].
  rewrite Hms, (proj2 (Z.ltb_lt 0 (len b))) by lia.
  rewrite (proj2 (Z.ltb_ge (len (mm_data f)) _)) by lia. cbn [ok OkStatus negb raw_code Z.eqb].
  unfold mem_write. cbn [mm_set_map mm_mmapPtr mm_mmapSize mm_data negb andb].
  rewrite !(proj2 (Z.leb_le _ _)) by lia. cbn [andb obind mm_set_data mm_size].
  rewrite (proj2 (Z.ltb_ge (mm_size f) _)) by lia. eexists _, _. split; [done|].
  unfold mm_readBytes, mm_reopen, mm_set_data, mm_set_map.
  cbn [mm_mmapPtr negb ok OkStatus raw_code Z.eqb mm_size].
  destruct (Z.ltb_spec SSIZE_MAX (mm_size f)); [unfold SSIZE_MAX in *; lia|].
  destruct (Z.leb_spec SSIZE_MAX 0); [unfold SSIZE_MAX in *; lia|].
  destruct (Z.eqb_spec (mm_size f) 0); [lia|]. destruct (Z.leb_spec (mm_size f) 0); [lia|].
  rewrite Z.sub_0_r, Z.min_id, Z.add_0_l.
  destruct (Z.eqb_spec (mm_size f) 0); [lia|]. rewrite u64_small by (unfold is_u64, two64; lia).
  rewrite Z.min_id, Z.sub_0_r. unfold mem_read. cbn [mm_mmapPtr mm_mmapSize].
  rewrite (proj2 (Z.leb_gt _ _)) by lia. done.
Qed.

(** ** Witnesses *)

(** A kernel with pages of four bytes. *)
#[global] Instance small_kernel : MmapKernel unit := {|
  mk_errno _ := 0;
  mk_fallocate _ _ k := (k, 0);
  mk_mmap n k := (k, 0 <? n);
  mk_mremap _ _ k := (k, true);
  mk_fsync k := (k, 0);
  mk_strerror _ := "";
  MMAP_pageSize := 4
|}.

#[global] Instance small_laws : MmapLaws unit.
Proof. split; [simpl; lia|done]. Qed.

#[global] Instance small_good : MmapGood unit.
Proof. split; simpl; try done. intros n _ Hn. by apply Z.ltb_lt. Qed.

Definition new_mmap : MMAPFile := mkMMAPFile "/tmp/f" 3 0 0 false [].

Lemma new_mmap_wf : mm_wf new_mmap.
Proof. split; simpl; try done; lia. Qed.

#[global] Instance small_fair : MmapFair unit.
Proof. refine {| mm_interrupts _ := 0%nat |}; intros; simpl; lia. Defined.

(** Ten bytes, unmapped. *)
Definition unused_mmap : MMAPFile := mkMMAPFile "/tmp/f" 3 10 0 false "0123456789__".

Lemma unused_mmap_wf : mm_wf unused_mmap.
Proof. split; simpl; try done; unfold page_round, len; simpl; try lia. Qed.

Definition demo_ops : list mm_op :=
  [MWrite "hello world" 0; MStream "a b" 3 None; MUnused; MRead 3 100; MTruncate 2; MFsync; MStream "xyz" 1 None; MRead 0 9].


Lemma mm_read_after_write_witness :
  exists k' f', mm_writeBytes 1 new_mmap "hello" 7 tt = Some (k', Ret (f', OkStatus)) /\
    snd (mm_readBytes f' 7 5 tt) = Ret (Value (5, "hello" : str)).
Proof.
  destruct (mm_read_after_write unit new_mmap "hello" 7 tt tt new_mmap_wf
              ltac:(lia) ltac:(vm_compute; reflexivity) ltac:(discriminate) ltac:(right; vm_compute; reflexivity))
    as (k' & f' & E & _ & _ & Hr).
  exists k', f'. split; [exact E|exact Hr].
Defined.

Lemma mm_unmapped_errors_witness :
  snd (mm_readBytes new_mmap 0 1 tt) =
    Ret (Error (UnknownError "Failed to map file /tmp/f with requested size 0.")).
Proof.
  apply (proj1 (mm_unmapped_errors unit new_mmap tt new_mmap_wf eq_refl) eq_refl 0 1);
    unfold SSIZE_MAX; lia.
Defined.

Lemma mm_stream_write_breaks_mapping_witness :
  exists k' f', mm_write 1 unused_mmap "ab" 0 None tt = Some (k', Ret (f', Value 2)) /\
    snd (mm_readBytes f' 0 10 tt) = Abort.
Proof.
  exact (mm_stream_write_breaks_mapping unit unused_mmap "ab" tt tt unused_mmap_wf eq_refl
           ltac:(discriminate) ltac:(vm_compute; reflexivity) ltac:(vm_compute; reflexivity)).
Defined.
