(* ===== verification/ConcurrentMap.v ===== *)
(** * Concurrent containers

    [utility::ConcurrentMap] and [utility::ConcurrentSet]
    (src/src/utility/ConcurrentMap.h, ConcurrentSet.h). Every operation holds the
    object's lock from its first to its last access, so concurrent calls take
    effect one after the other: an execution is a sequence of the operations
    below, which act on the ordered [std::map] inside. *)

From Stdlib Require Import Ascii ZArith Lia.
From stdpp Require Import base gmap sets list strings numbers.
From S2P Require Import Prelude StdMap Path.

(** ** Probes *)

(** A type that can be compared with the keys, as the transparent comparison
    [std::less<>] requires, and whose comparisons agree with their order. *)
Class Probe (K P : Type) `{StrictTotal K} := {
  key_lt_probe : P -> K -> bool;
  probe_lt_key : P -> K -> bool;
  probe_splits V p (m : smap K V) : partitioned (key_lt_probe p) (probe_lt_key p) m;
  probe_excl p k : key_lt_probe p k = true -> probe_lt_key p k = false
}.

(** The keys a probe is equivalent to. *)
Definition hits {K P} `{Probe K P} (p : P) (k : K) : bool :=
  negb (key_lt_probe p k) && negb (probe_lt_key p k).

#[export] Instance path_probe : Probe Path PathPrefixProbe := {|
  key_lt_probe := path_lt_probe;
  probe_lt_key := probe_lt_path;
  probe_splits V p m := probe_partitioned p m;
  probe_excl := probe_exclusive
|}.

(** ** [ConcurrentMap] *)

Section cmap.
Context {K V : Type} `{StrictTotal K}.
Implicit Types (m : smap K V) (k : K) (v : V).

Definition cm_get k m : option V := mfind k m.

Definition insertOrExists k v m : smap K V * V :=
  match mfind k m with
  | Some w => (m, w)
  | None => (massign k v m, v)
  end.

Definition insertOrReplace k v m : smap K V := massign k v m.

Definition cm_remove k m : smap K V * bool :=
  match mfind k m with
  | None => (m, false)
  | Some _ => (merase k m, true)
  end.

Definition cm_size m : nat := length m.

Definition cm_clear m : smap K V := [].

Definition getAndRemove k m : smap K V * option V :=
  match mfind k m with
  | None => (m, None)
  | Some v => (merase k m, Some v)
  end.

Definition cm_exists k m : bool := match mfind k m with Some _ => true | None => false end.

Definition removeRange {P} `{!Probe K P} (p : P) m : smap K V :=
  let '(probeStart, probeEnd) := equal_range (key_lt_probe p) (probe_lt_key p) m in
  if (probeStart =? length m)%nat then m else erase_range probeStart probeEnd m.

(** [remove(selector)]: walks the map and erases what the selector accepts. *)
Fixpoint cm_removeSelected (selector : K -> V -> bool) m : smap K V :=
  match m with
  | [] => []
  | (k, v) :: m' =>
      if selector k v then cm_removeSelected selector m'
      else (k, v) :: cm_removeSelected selector m'
  end.

Definition removeIf k (selector : V -> bool) m : smap K V * bool :=
  match mfind k m with
  | None => (m, false)
  | Some v => if selector v then (merase k m, true) else (m, false)
  end.

(** [forall(action)]: the action, on some state, for every value in key order. *)
Definition cm_forall {A} (action : V -> A -> A) m (a : A) : A :=
  fold_left (fun a e => action (snd e) a) m a.
End cmap.

(** ** [ConcurrentSet] *)

Section cset.
Context {K : Type} `{StrictTotal K}.

Fixpoint cs_exists (k : K) (s : list K) : bool :=
  match s with
  | [] => false
  | x :: s => if ltb x k then cs_exists k s else negb (ltb k x)
  end.

Definition cs_insert (k : K) (s : list K) : list K := set_emplace ltb k s.

Fixpoint cs_remove (k : K) (s : list K) : list K :=
  match s with
  | [] => []
  | x :: s => if ltb x k then x :: cs_remove k s else if ltb k x then x :: s else s
  end.
End cset.

(** ** Specification *)

Section spec.
Context {K V P : Type} `{Probe K P} `{!EqDecision K}.

Inductive cm_op :=
| Get (k : K)
| InsertOrExists (k : K) (v : V)
| InsertOrReplace (k : K) (v : V)
| Remove (k : K)
| Size
| Clear
| GetAndRemove (k : K)
| Exists (k : K)
| RemoveRange (p : P)
| RemoveSelected (selector : K -> V -> bool)
| RemoveIf (k : K) (selector : V -> bool)
| Values.

Inductive cm_res :=
| RNone
| RBool (b : bool)
| ROption (v : option V)
| RValue (v : V)
| RSize (n : nat)
| RValues (vs : list V).

Definition cm_exec (o : cm_op) (m : smap K V) : smap K V * cm_res :=
  match o with
  | Get k => (m, ROption (cm_get k m))
  | InsertOrExists k v => let '(m, w) := insertOrExists k v m in (m, RValue w)
  | InsertOrReplace k v => (insertOrReplace k v m, RNone)
  | Remove k => let '(m, b) := cm_remove k m in (m, RBool b)
  | Size => (m, RSize (cm_size m))
  | Clear => (cm_clear m, RNone)
  | GetAndRemove k => let '(m, v) := getAndRemove k m in (m, ROption v)
  | Exists k => (m, RBool (cm_exists k m))
  | RemoveRange p => (removeRange p m, RNone)
  | RemoveSelected f => (cm_removeSelected f m, RNone)
  | RemoveIf k f => let '(m, b) := removeIf k f m in (m, RBool b)
  | Values => (m, RValues (cm_forall (fun v l => l ++ [v]) m []))
  end.

(** What the operations promise, on a finite map from keys to values given by
    its lookup function. *)
Definition is_entry (f : K -> option V) (e : K * V) : Prop := f (fst e) = Some (snd e).

Definition upd (f : K -> option V) (k : K) (v : option V) : K -> option V :=
  fun x => if decide (x = k) then v else f x.

(** The entries of [f] in ascending key order. *)
Definition enumerates (l : list (K * V)) (f : K -> option V) : Prop :=
  sorted_keys (map fst l) /\ forall e, e ∈ l <-> is_entry f e.

Definition cm_spec (f : K -> option V) (o : cm_op) : (K -> option V) * (cm_res -> Prop) :=
  match o with
  | Get k => (f, eq (ROption (f k)))
  | InsertOrExists k v =>
      match f k with
      | Some w => (f, eq (RValue w))
      | None => (upd f k (Some v), eq (RValue v))
      end
  | InsertOrReplace k v => (upd f k (Some v), eq RNone)
  | Remove k => (upd f k None, eq (RBool (match f k with Some _ => true | None => false end)))
  | Size => (f, fun r => exists l, enumerates l f /\ r = RSize (length l))
  | Clear => (fun _ => None, eq RNone)
  | GetAndRemove k => (upd f k None, eq (ROption (f k)))
  | Exists k => (f, eq (RBool (match f k with Some _ => true | None => false end)))
  | RemoveRange p => (fun k => if hits p k then None else f k, eq RNone)
  | RemoveSelected s =>
      (fun k => match f k with Some v => if s k v then None else Some v | None => None end, eq RNone)
  | RemoveIf k s =>
      match f k with
      | Some v => if s v then (upd f k None, eq (RBool true)) else (f, eq (RBool false))
      | None => (f, eq (RBool false))
      end
  | Values => (f, fun r => exists l, enumerates l f /\ r = RValues (map snd l))
  end.

Fixpoint cm_run (os : list cm_op) (m : smap K V) : smap K V * list cm_res :=
  match os with
  | [] => (m, [])
  | o :: os =>
      let '(m, r) := cm_exec o m in
      let '(m, rs) := cm_run os m in
      (m, r :: rs)
  end.

(** The results [rs] are what the specification allows, and [g] is the map
    after the last operation. *)
Fixpoint cm_allowed (f : K -> option V) (os : list cm_op) (rs : list cm_res)
    (g : K -> option V) : Prop :=
  match os, rs with
  | [], [] => forall k, f k = g k
  | o :: os, r :: rs => snd (cm_spec f o) r /\ cm_allowed (fst (cm_spec f o)) os rs g
  | _, _ => False
  end.

(** ** Refinement *)

Definition cm_abs (m : smap K V) (f : K -> option V) : Prop :=
  sorted m /\ forall k, mfind k m = f k.

Lemma cm_abs_enumerates m f : cm_abs m f -> enumerates m f.
Proof.
  intros [Hs Hf]. split; [exact Hs|]. intros [k v]. unfold is_entry. simpl.
  rewrite <- Hf. symmetry. by apply mfind_Some.
Qed.

Lemma cm_abs_assign m f k v : cm_abs m f -> cm_abs (massign k v m) (upd f k (Some v)).
Proof.
  intros [Hs Hf]. split; [by apply massign_sorted|]. intros x. rewrite mfind_massign by done.
  unfold upd. repeat case_decide; congruence.
Qed.

Lemma cm_abs_erase m f k : cm_abs m f -> cm_abs (merase k m) (upd f k None).
Proof.
  intros [Hs Hf]. split; [by apply merase_sorted|]. intros x. rewrite mfind_merase by done.
  unfold upd. repeat case_decide; congruence.
Qed.

Lemma cm_abs_absent m f k : cm_abs m f -> f k = None -> cm_abs m (upd f k None).
Proof.
  intros [Hs Hf] E. split; [done|]. intros x. unfold upd. case_decide; [congruence|done].
Qed.

Lemma removeSelected_filter s (m : smap K V) :
  cm_removeSelected s m = List.filter (fun e => negb (s (fst e) (snd e))) m.
Proof. induction m as [|[k v] m IH]; [done|]. simpl. rewrite IH. by destruct (s k v). Qed.

(** [removeRange] erases exactly the keys equivalent to the probe. *)
Lemma removeRange_filter p (m : smap K V) :
  sorted m -> removeRange p m = List.filter (fun e => negb (hits p (fst e))) m.
Proof.
  intros Hs. unfold removeRange.
  destruct (equal_range (key_lt_probe p) (probe_lt_key p) m) as [first last] eqn:E.
  destruct (equal_range_spec _ _ m first last Hs (probe_splits V p m) (probe_excl p) E) as (_ & He & Hl).
  assert (Hf : erase_range first last m = List.filter (fun e => negb (hits p (fst e))) m).
  { rewrite He. apply filter_ext. intros [k v]. unfold hits. simpl.
    by rewrite negb_andb, !negb_involutive. }
  destruct (Nat.eqb_spec first (length m)) as [El|]; [|done].
  symmetry. apply filter_all. eapply Forall_impl; [|apply Hl, El]. simpl.
  intros e He2. unfold hits. by rewrite He2.
Qed.

Lemma cm_forall_values (m : smap K V) l :
  cm_forall (fun v l => l ++ [v]) m l = l ++ map snd m.
Proof.
  unfold cm_forall. revert l. induction m as [|[k v] m IH]; intros l; simpl; [by rewrite app_nil_r|].
  rewrite IH, <- app_assoc. done.
Qed.

Lemma cm_exec_sim o m f :
  cm_abs m f ->
  snd (cm_spec f o) (snd (cm_exec o m)) /\ cm_abs (fst (cm_exec o m)) (fst (cm_spec f o)).
Proof.
  intros Habs. pose proof Habs as [Hs Hf].
  destruct o as [k|k v|k v|k| | |k|k|p|s|k s|]; cbn [cm_exec cm_spec];
    unfold cm_get, insertOrExists, insertOrReplace, cm_remove, cm_size, cm_clear, getAndRemove,
      cm_exists, removeIf; rewrite ?Hf; try destruct (f k) as [w|] eqn:E; simpl;
    try (split; [done|]);
    auto using cm_abs_assign, cm_abs_erase, cm_abs_absent.
  - split; [|done]. exists m. split; [by apply cm_abs_enumerates|done].
  - by split.
  - rewrite removeRange_filter by done. split; [by apply sorted_filter|]. intros k.
    rewrite mfind_filter, Hf by done. simpl. destruct (f k), (hits p k); done.
  - rewrite removeSelected_filter. split; [by apply sorted_filter|]. intros k.
    rewrite mfind_filter, Hf by done. simpl. destruct (f k) as [w|]; [|done]. by destruct (s k w).
  - destruct (s w); simpl; auto using cm_abs_erase.
  - split; [|done]. exists m. split; [by apply cm_abs_enumerates|]. by rewrite cm_forall_values.
Qed.

Lemma cm_run_sim os m f :
  cm_abs m f ->
  exists g, cm_allowed f os (snd (cm_run os m)) g /\ cm_abs (fst (cm_run os m)) g.
Proof.
  revert m f. induction os as [|o os IH]; intros m f Habs; simpl; [by exists f|].
  destruct (cm_exec_sim o m f Habs) as [Hr Ha]. destruct (cm_exec o m) as [m' r].
  cbn [fst snd] in Hr, Ha. destruct (IH _ _ Ha) as (g & Hg & Hm). exists g.
  revert Hg Hm. destruct (cm_run os m') as [m'' rs]. intros Hg Hm.
  exact (conj (conj Hr Hg) Hm).
Qed.
End spec.
Arguments cm_op K V P : clear implicits.

(** ** Sets *)

Section cset_theory.
Context {K : Type} `{StrictTotal K}.

Lemma cs_exists_spec k (s : list K) : sorted_keys s -> cs_exists k s = true <-> k ∈ s.
Proof.
  induction s as [|x s IH]; intros Hs; simpl; [set_solver|]. destruct Hs as [Hx Hs].
  rewrite elem_of_cons. destruct (ltb x k) eqn:E.
  - rewrite IH by done. split; [auto|]. intros [->|]; [by rewrite ltb_irrefl in E|done].
  - rewrite negb_true_iff. split.
    + intros E2. left. by apply ltb_total.
    + intros [->|Hin]; [apply ltb_irrefl|]. rewrite (Forall_elem _ _ _ Hx Hin) in E. done.
Qed.

Lemma cs_insert_spec k (s : list K) :
  sorted_keys s -> sorted_keys (cs_insert k s) /\ forall y, y ∈ cs_insert k s <-> y = k \/ y ∈ s.
Proof.
  intros Hs. split; [by apply set_emplace_sorted|]. intros y. by apply elem_of_set_emplace.
Qed.
End cset_theory.

(** ** Property *)

(** C30: a concurrent map is a map. Whatever operations threads perform, in
    whatever order the lock admits them, each result is the one a map from keys
    to values gives, [removeRange] removes exactly the keys equivalent to the
    probe, and the entries stay in ascending key order without duplicates. *)
Theorem cmap_refines_map (K V P : Type) `{Probe K P} `{!EqDecision K} (os : list (cm_op K V P)) :
  let '(m, rs) := cm_run os [] in
  sorted m /\
  exists g, cm_allowed (fun _ => None) os rs g /\ forall k, cm_get k m = g k.
Proof.
  destruct (cm_run_sim os [] (fun _ => None)) as (g & Hg & Hs & Hm); [done|].
  destruct (cm_run os []) as [m rs]. split; [done|]. by exists g.
Qed.

Definition demo_ops : list (cm_op Path Z PathPrefixProbe) :=
  [InsertOrExists (mkPath "b/x") 1%Z; InsertOrExists (mkPath "b/x") 2%Z;
   InsertOrReplace (mkPath "b/y") 3%Z; InsertOrExists (mkPath "c/x") 4%Z; Values;
   RemoveRange (mkProbe "b/"); Size; RemoveIf (mkPath "c/x") (Z.eqb 5); Exists (mkPath "c/x");
   GetAndRemove (mkPath "c/x"); Remove (mkPath "c/x")].

Lemma cmap_refines_map_witness :
  snd (cm_run demo_ops []) =
    [RValue 1%Z; RValue 1%Z; RNone; RValue 4%Z; RValues [1%Z; 3%Z; 4%Z]; RNone; RSize 1; RBool false;
     RBool true; ROption (Some 4%Z); RBool false] /\
  exists g, cm_allowed (fun _ => None) demo_ops (snd (cm_run demo_ops [])) g.
Proof.
  split; [reflexivity|].
  pose proof (cmap_refines_map Path Z PathPrefixProbe demo_ops) as H.
  destruct (cm_run demo_ops []) as [m rs]. destruct H as (_ & g & Hg & _). by exists g.
Defined.
