(* ===== verification/GedsNames.v ===== *)
(** * Names and local paths

    The checks on bucket and key names, the splitting of object names and the
    naming of local files (src/src/libgeds/GEDS.cpp, GEDS.h: [isValidBucketName],
    [isValidKeyName], [isValid], [parseObjectName], [getPath], [getLocalPath],
    [computeHostUri]). *)

From Stdlib Require Import Ascii ZArith Lia.
From stdpp Require Import base gmap sets list strings numbers.
From S2P Require Import Prelude Decimal Status StdMap Path ConcurrentMap.

Open Scope Z_scope.
Open Scope list_scope.

(** ** Regular expressions *)

(** The part of [std::regex] the name check uses: a sequence of character
    classes, each matching one character or one or more. *)
Inductive rx := One (c : ascii -> bool) | Plus (c : ascii -> bool).

(** [std::regex_match]: the whole string matches. *)
Fixpoint regex_match (rs : list rx) : str -> bool :=
  match rs with
  | [] => fun s => bool_decide (s = [])
  | One c :: rs => fun s => match s with [] => false | x :: s => c x && regex_match rs s end
  | Plus c :: rs =>
      fix plus s := match s with [] => false | x :: s => c x && (regex_match rs s || plus s) end
  end.

(** [a-z\d] and [a-z\d\.\-] *)
Definition alnum (c : ascii) : bool :=
  ((97 <=? N_of_ascii c) && (N_of_ascii c <=? 122))%N || is_digit c.
Definition name_char (c : ascii) : bool :=
  alnum c || bool_decide (c = "."%char) || bool_decide (c = "-"%char).

(** ** Names *)

Definition bucket_regex : list rx := [One alnum; Plus name_char; One alnum].

Definition isValidBucketName (bucket : str) : Status :=
  if regex_match bucket_regex bucket then
    if (4 <=? length bucket)%nat && bool_decide (take 4 bucket = "xn--")
    then FailedPreconditionError "Invalid bucket name."
    else OkStatus
  else FailedPreconditionError "Invalid bucket name.".

Definition dquote : str := [ascii_of_N 34].

Definition isValidKeyName (key : str) : Status :=
  if (length key =? 0)%nat then FailedPreconditionError "Zero-length keys are not allowed."
  else if bool_decide (list.last key = Some "/"%char) then
    FailedPreconditionError ("Keys are not allowed to end with " ++ dquote ++ "/" ++ dquote ++ ".")
  else if (2 <=? length key)%nat && bool_decide (take 1 key = "./") then
    FailedPreconditionError ("Keys are not allowed to start with " ++ dquote ++ "./" ++ dquote ++ ".")
  else if (3 <=? length key)%nat && bool_decide (take 3 key = "../") then
    FailedPreconditionError ("Keys are not allowed to start with " ++ dquote ++ "../" ++ dquote ++ ".")
  else if contains "/../" key then
    FailedPreconditionError ("Keys are not allowed to contain " ++ dquote ++ "/../" ++ dquote)
  else OkStatus.

Definition isValid (bucket key : str) : Status :=
  let result := isValidBucketName bucket in
  if negb (ok result) then result else
  let result := isValidKeyName key in
  if negb (ok result) then result else OkStatus.

Definition parseObjectName (objectName : str) : StatusOr (str * str) :=
  match find_char "/" objectName with
  | None => Error (InvalidArgumentError ("cannot create file: " ++ objectName ++ " invalid format!"))
  | Some separator => Value (take separator objectName, drop (S separator) objectName)
  end.

(** The key of an object in the map of file handles. *)
Definition getPath (bucket key : str) : Path := mkPath (bucket ++ "/" ++ key).

Definition computeHostUri (hostname : str) (port : Z) : str :=
  "geds://" ++ hostname ++ ":" ++ to_string port.

(** ** Local paths *)

(** [_fileNameCounter] and [_fileNames] *)
Record FileNames := mkFileNames { fileNameCounter : Z; fileNames : smap str Z }.

Definition newFileNames : FileNames := mkFileNames 0 [].

Definition getLocalPath (pathPrefix bucket key : str) (s : FileNames) : FileNames * str :=
  let postfix := bucket ++ "/" ++ key in
  match cm_get postfix (fileNames s) with
  | Some n => (s, pathPrefix ++ "/" ++ bucket ++ "/" ++ to_string n)
  | None =>
      let value := fileNameCounter s in
      let '(names, n2) := insertOrExists key value (fileNames s) in
      (mkFileNames (u64 (value + 1)) names, pathPrefix ++ "/" ++ bucket ++ "/" ++ to_string n2)
  end.

(** ** Lemmas: names *)

Lemma regex_match_plus_one c d s :
  regex_match [Plus c; One d] s = true <->
  exists m x, s = m ++ [x] /\ m <> [] /\ Forall c m /\ d x = true.
Proof.
  induction s as [|x s IH]; [simpl; split; [done|]; intros ([|y m] & z & E & ?); done|].
  change (regex_match [Plus c; One d] (x :: s))
    with (c x && (regex_match [One d] s || regex_match [Plus c; One d] s)).
  rewrite andb_true_iff, orb_true_iff, IH. clear IH. split.
  - intros [Hx [Hs|(m & y & -> & Hm & Hf & Hy)]].
    + destruct s as [|y [|]]; simpl in Hs; [done| |by rewrite andb_false_r in Hs].
      exists [x], y. rewrite andb_true_r in Hs. split_and!; [done..| |done].
      constructor; [by apply Is_true_true|done].
    + exists (x :: m), y. split_and!; [done..| |done]. constructor; [by apply Is_true_true|done].
  - intros ([|z m] & y & E & Hne & Hf & Hy); [done|]. simplify_eq/=.
    apply Forall_cons_iff in Hf as [Hz Hf]. split; [by apply Is_true_true|].
    destruct m as [|w m]; [left; simpl; by rewrite Hy|right; exists (w :: m), y; done].
Qed.

(** The characterisation of the pattern. *)
Lemma bucket_regex_spec s :
  regex_match bucket_regex s = true <->
  (3 <= length s)%nat /\ Forall name_char s /\
  (exists x, list.head s = Some x /\ alnum x = true) /\ (exists x, list.last s = Some x /\ alnum x = true).
Proof.
  assert (Ha : forall x, alnum x = true -> name_char x).
  { intros x Hx. unfold name_char. by rewrite Hx. }
  unfold bucket_regex. destruct s as [|a s]; [simpl; split; [done|]; intros (? & _); lia|].
  change (regex_match _ (a :: s)) with (alnum a && regex_match [Plus name_char; One alnum] s).
  rewrite andb_true_iff, regex_match_plus_one. split.
  - intros (Hx & m & y & -> & Hm & Hf & Hy). split_and!.
    + destruct m; [done|]. simpl. rewrite length_app. simpl. lia.
    + constructor; [by apply Ha|]. rewrite Forall_app. split; [done|]. constructor; [by apply Ha|done].
    + by exists a.
    + exists y. split; [|done]. by rewrite app_comm_cons, last_snoc.
  - intros (Hl & Hf & (x & Hx & Hax) & (y & Hy & Hay)). simplify_eq/=. split; [done|].
    apply Forall_cons_iff in Hf as [_ Hf].
    destruct s as [|z s _] using rev_ind; [simpl in Hl; lia|].
    rewrite app_comm_cons, last_snoc in Hy. simplify_eq. exists s, y.
    rewrite Forall_app in Hf. split_and!; [done| |apply Hf|done].
    intros ->. simpl in Hl. lia.
Qed.

Lemma take_full n (p s : str) : length p = n -> take n s = p -> (n <= length s)%nat.
Proof. intros <- E. apply (f_equal length) in E. rewrite length_take in E. lia. Qed.

Lemma name_char_no_slash s : Forall name_char s -> "/"%char ∉ s.
Proof. intros Hf Hin. pose proof (Forall_elem _ _ _ Hf Hin) as H. by vm_compute in H. Qed.

Lemma valid_bucket_no_slash b : ok (isValidBucketName b) = true -> "/"%char ∉ b.
Proof.
  unfold isValidBucketName. destruct (regex_match bucket_regex b) eqn:E; [|done].
  apply bucket_regex_spec in E as (_ & Hf & _). intros _. by apply name_char_no_slash.
Qed.

Lemma parse_app b k : "/"%char ∉ b -> parseObjectName (b ++ "/" ++ k) = Value (b, k).
Proof.
  intros Hb. unfold parseObjectName. change ("/" ++ k) with ("/"%char :: k).
  rewrite find_char_app_cons by done. rewrite take_app_length.
  change (S (length b)) with (1 + length b)%nat. rewrite Nat.add_comm, <- drop_drop.
  by rewrite drop_app_length.
Qed.

(** ** Properties: names *)

(** The bucket names that are accepted are exactly those of at least three
    characters out of lower-case letters, digits, dots and hyphens that begin
    and end with a letter or digit and do not start with [xn--]. The keys that
    are accepted are exactly the non-empty ones that do not end with a slash,
    do not start with [../] and do not contain [/../]; keys that start with a
    slash or with [./] are accepted. *)
Theorem valid_names bucket key :
  (ok (isValidBucketName bucket) = true <->
     (3 <= length bucket)%nat /\ Forall name_char bucket /\
     (exists x, list.head bucket = Some x /\ alnum x = true) /\
     (exists x, list.last bucket = Some x /\ alnum x = true) /\
     starts_with "xn--" bucket = false) /\
  (ok (isValidKeyName key) = true <->
     key <> [] /\ list.last key <> Some "/"%char /\ starts_with "../" key = false /\
     contains "/../" key = false) /\
  (ok (isValid bucket key) = ok (isValidBucketName bucket) && ok (isValidKeyName key)).
Proof.
  split_and!.
  - unfold isValidBucketName, starts_with. change (length "xn--") with 4%nat.
    rewrite (bool_decide_eq_false (take 4 bucket = "xn--")).
    destruct (regex_match bucket_regex bucket) eqn:E.
    + apply bucket_regex_spec in E as (H1 & H2 & H3 & H4). case_bool_decide as Hx.
      * assert (4 <= length bucket)%nat.
        { by apply (take_full 4 "xn--"). }
        rewrite (proj2 (Nat.leb_le 4 _)) by done. naive_solver.
      * rewrite andb_false_r. naive_solver.
    + split; [done|]. intros (H1 & H2 & H3 & H4 & _).
      rewrite (proj2 (bucket_regex_spec bucket)) in E by done. done.
  - unfold isValidKeyName, starts_with. change (length "../") with 3%nat.
    rewrite (bool_decide_eq_false (take 3 key = "../")).
    destruct key as [|x key]; [simpl; naive_solver|]. cbn [length Nat.eqb].
    case_bool_decide as Hl; [simpl; naive_solver|].
    rewrite (bool_decide_false (take 1 (x :: key) = "./")) by (by simpl; intros [= ? ?]).
    rewrite andb_false_r. case_bool_decide as H3.
    + assert (3 <= S (length key))%nat as Hk.
      { by apply (take_full 3 "../" (x :: key)). }
      rewrite (proj2 (Nat.leb_le 3 _)) by done. split; [done|].
      intros (_ & _ & Hn & _). by destruct Hn.
    + rewrite andb_false_r. destruct (contains "/../" (x :: key)).
      * split; [done|]. by intros (_ & _ & _ & ?).
      * split; [|done]. by intros _.
  - unfold isValid. destruct (ok (isValidBucketName bucket)) eqn:E1; simpl; [|done].
    destruct (ok (isValidKeyName key)) eqn:E2; done.
Qed.

(** An object name determines bucket and key. Splitting undoes joining for
    every valid bucket, a name that splits is the join of its parts, and two
    objects in valid buckets share a path, the key under which their file handle
    is registered, only if they are the same object. *)
Theorem object_names_unambiguous b k b' k' name :
  ok (isValidBucketName b) = true -> ok (isValidBucketName b') = true ->
  parseObjectName (b ++ "/" ++ k) = Value (b, k) /\
  (parseObjectName name = Value (b, k) -> name = b ++ "/" ++ k) /\
  (getPath b k = getPath b' k' -> b = b' /\ k = k').
Proof.
  intros Hb%valid_bucket_no_slash Hb'%valid_bucket_no_slash. split_and!.
  - by apply parse_app.
  - unfold parseObjectName. destruct (find_char "/" name) as [i|] eqn:E; [|done].
    intros [= <- <-]. by apply find_char_split in E.
  - intros E%(f_equal Path.name). change (b ++ "/" ++ k = b' ++ "/" ++ k') in E. pose proof (parse_app b k Hb) as H1.
    pose proof (parse_app b' k' Hb') as H2. rewrite E, H2 in H1.
    by injection H1 as <- <-.
Qed.

Lemma object_names_unambiguous_witness :
  parseObjectName "bucket/dir/key" = Value ("bucket" : str, "dir/key" : str) /\
  parseObjectName ("bucket" ++ "/" ++ "k") = Value ("bucket" : str, "k" : str).
Proof.
  split; [reflexivity|].
  apply (object_names_unambiguous "bucket" "k" "other" "k" []); reflexivity.
Defined.

(** ** Lemmas: local paths *)

Fixpoint local_paths (pathPrefix : str) (reqs : list (str * str)) (s : FileNames) :
    FileNames * list str :=
  match reqs with
  | [] => (s, [])
  | (b, k) :: reqs =>
      let '(s, p) := getLocalPath pathPrefix b k s in
      let '(s, ps) := local_paths pathPrefix reqs s in
      (s, p :: ps)
  end.

(** The numbers in use are below the counter, and no two names share one. *)
Record names_wf (s : FileNames) : Prop := {
  nw_sorted : sorted (fileNames s);
  nw_counter : 0 <= fileNameCounter s;
  nw_below q n : mfind q (fileNames s) = Some n -> 0 <= n < fileNameCounter s;
  nw_inj q q' n : mfind q (fileNames s) = Some n -> mfind q' (fileNames s) = Some n -> q = q'
}.

Definition names_le (s s' : FileNames) : Prop :=
  forall q n, mfind q (fileNames s) = Some n -> mfind q (fileNames s') = Some n.

(** The path of an object ends in the number of a name that is the key or the
    bucket joined with the key. *)
Definition named (pathPrefix b k p : str) (s : FileNames) : Prop :=
  exists q n, mfind q (fileNames s) = Some n /\ (q = k \/ q = b ++ "/" ++ k) /\
    p = pathPrefix ++ "/" ++ b ++ "/" ++ to_string n.

Lemma named_le prefix b k p s s' : names_le s s' -> named prefix b k p s -> named prefix b k p s'.
Proof. intros Hle (q & n & Hq & ?). exists q, n. auto. Qed.

Lemma getLocalPath_spec prefix b k s :
  names_wf s -> fileNameCounter s + 1 < two64 ->
  let '(s', p) := getLocalPath prefix b k s in
  names_wf s' /\ names_le s s' /\ fileNameCounter s' <= fileNameCounter s + 1 /\
  named prefix b k p s'.
Proof.
  intros [Hs H0 Hb Hi] Hc. unfold getLocalPath, cm_get, insertOrExists.
  destruct (mfind (b ++ "/" ++ k) (fileNames s)) as [n|] eqn:E.
  { split_and!; [by constructor|by intros ?|lia|]. exists (b ++ "/" ++ k), n. auto. }
  rewrite u64_small by (unfold is_u64; lia).
  destruct (mfind k (fileNames s)) as [n|] eqn:Ek.
  { split_and!; [|by intros ?|simpl; lia|exists k, n; auto]. constructor; simpl; [done|lia| |exact Hi].
    intros q m Hq. specialize (Hb q m Hq). lia. }
  split_and!; simpl; [| |lia|].
  - constructor; simpl; [by apply massign_sorted|lia|..].
    + intros q m. rewrite mfind_massign by done. case_decide; [intros [= <-]; lia|].
      intros Hq. specialize (Hb q m Hq). lia.
    + intros q q' m. rewrite !mfind_massign by done.
      repeat case_decide; subst; [done|..|by apply Hi].
      * intros [= <-] Hq. specialize (Hb _ _ Hq). lia.
      * intros Hq [= <-]. specialize (Hb _ _ Hq). lia.
  - intros q n Hq. simpl. rewrite mfind_massign by done. case_decide; [congruence|done].
  - exists k, (fileNameCounter s). simpl. split; [apply mfind_massign_eq|auto].
Qed.

Lemma local_paths_spec prefix reqs s :
  names_wf s -> fileNameCounter s + Z.of_nat (length reqs) < two64 ->
  let '(s', ps) := local_paths prefix reqs s in
  names_wf s' /\ names_le s s' /\
  forall i b k p, reqs !! i = Some (b, k) -> ps !! i = Some p -> named prefix b k p s'.
Proof.
  revert s. induction reqs as [|[b k] reqs IH]; intros s Hw Hc; simpl.
  { split_and!; [done|by intros ?|]. intros i b k p Hi. done. }
  simpl length in Hc. pose proof (getLocalPath_spec prefix b k s Hw) as H1.
  destruct (getLocalPath prefix b k s) as [s1 p1]. destruct H1 as (Hw1 & Hle1 & Hc1 & Hn1); [lia|].
  specialize (IH s1 Hw1). destruct (local_paths prefix reqs s1) as [s2 ps].
  destruct IH as (Hw2 & Hle2 & Hn2); [lia|]. split_and!; [done|by intros q n Hq; apply Hle2, Hle1|].
  intros [|i] b' k' p; simpl; [intros [= <- <-] [= <-]|apply Hn2]. by apply (named_le _ _ _ _ s1).
Qed.

Lemma newFileNames_wf : names_wf newFileNames.
Proof. constructor; simpl; done. Qed.

Lemma app_inj_prefix (a b c : str) : a ++ b = a ++ c -> b = c.
Proof. apply app_inv_head. Qed.

(** ** Properties: local paths *)

(** Local files do not overlap, with one exception. Whatever objects
    paths are requested for, and in whatever order, two requests in valid
    buckets get the same local path only if they are for the same bucket and
    the keys are the same or one is the other with [bucket/] in front. *)
Theorem local_paths_distinct prefix reqs i j b k b' k' p :
  Z.of_nat (length reqs) < two64 ->
  ok (isValidBucketName b) = true -> ok (isValidBucketName b') = true ->
  reqs !! i = Some (b, k) -> reqs !! j = Some (b', k') ->
  snd (local_paths prefix reqs newFileNames) !! i = Some p ->
  snd (local_paths prefix reqs newFileNames) !! j = Some p ->
  b = b' /\ (k = k' \/ k = b ++ "/" ++ k' \/ k' = b ++ "/" ++ k).
Proof.
  intros Hl Hb%valid_bucket_no_slash Hb'%valid_bucket_no_slash Hi Hj Hpi Hpj.
  pose proof (local_paths_spec prefix reqs _ newFileNames_wf) as H.
  destruct (local_paths prefix reqs newFileNames) as [s ps]. destruct H as ([_ _ Hbel Hinj] & _ & Hn); [simpl; lia|].
  destruct (Hn i b k p Hi Hpi) as (q & n & Hq & Eq & Ep).
  destruct (Hn j b' k' p Hj Hpj) as (q' & n' & Hq' & Eq' & Ep').
  rewrite Ep in Ep'. apply app_inj_prefix, app_inj_prefix in Ep'.
  pose proof (parse_app b (to_string n) Hb) as H1. rewrite Ep', parse_app in H1 by done.
  injection H1 as <- Hn'. apply to_string_inj in Hn'; [|by destruct (Hbel _ _ Hq'); lia..|by destruct (Hbel _ _ Hq); lia].
  subst n'. pose proof (Hinj _ _ _ Hq Hq') as <-. split; [done|].
  destruct Eq as [->| ->], Eq' as [E'|E']; auto.
  left. by apply app_inj_prefix, app_inj_prefix in E'.
Qed.

Lemma local_paths_distinct_witness :
  let ps := snd (local_paths "/tmp" [("abc" : str, "x" : str); ("abc" : str, "y" : str); ("abc" : str, "x" : str)]
                   newFileNames) in
  ps = ["/tmp/abc/0" : str; "/tmp/abc/1" : str; "/tmp/abc/0" : str] /\
  ("abc" : str) = "abc" /\
  (("x" : str) = "x" \/ ("x" : str) = "abc" ++ "/" ++ "x" \/ ("x" : str) = "abc" ++ "/" ++ "x").
Proof.
  split; [vm_compute; reflexivity|].
  apply (local_paths_distinct "/tmp" [("abc" : str, "x" : str); ("abc" : str, "y" : str); ("abc" : str, "x" : str)]
           0 2 "abc" "x" "abc" "x" "/tmp/abc/0"); vm_compute; reflexivity.
Defined.

(** The exception happens. The name of a local file is entered under the key
    but looked up under [bucket/key]: when the object [bucket/key] of a bucket
    gets its local path before the object [key] of the same bucket, both are
    given the same local file. *)
Theorem local_path_collision prefix b k :
  exists p, snd (local_paths prefix [(b, b ++ "/" ++ k); (b, k)] newFileNames) = [p; p].
Proof.
  cbn [local_paths]. unfold getLocalPath at 1, cm_get, insertOrExists. cbn [fileNames newFileNames mfind].
  unfold getLocalPath, cm_get. cbn [fileNames massign fileNameCounter mfind].
  rewrite ltb_irrefl. cbn [snd]. by eexists.
Qed.
