(* ===== verification/FileHandle.v ===== *)
(** * File handles and files

    What all file handles share (src/src/libgeds/GEDSFileHandle.h,
    GEDSFileHandle.cpp): the open count and the copying loops [download] and
    [downloadRange]; and [GEDSFile] (GEDSFile.h, GEDSFile.cpp), the value through
    which programs hold a handle, with its constructors, assignments and
    destructor, and its typed reads and writes. *)

From Stdlib Require Import Ascii ZArith Lia.
From stdpp Require Import base gmap sets list strings numbers.
From S2P Require Import Prelude Bytes Decimal Status StdMap LocalFile.

Open Scope Z_scope.
Open Scope list_scope.

(** ** Open counts *)

(** Handles and [GEDSFile] objects are named by numbers. [_openCount] of every
    handle, how often [notifyUnused] was called on it, and the [_fileHandle] of
    every live file; [None] is the null pointer of a file that was moved from. *)
Record Files := mkFiles {
  openCount : nat -> Z;
  unused : nat -> nat;
  handle_of : gmap nat (option nat)
}.

Definition upd_count (h : nat) (d : Z) (s : Files) : Files :=
  mkFiles (fun x => if decide (x = h) then openCount s x + d else openCount s x)
    (unused s) (handle_of s).

Definition set_handle (f : nat) (h : option nat) (s : Files) : Files :=
  mkFiles (openCount s) (unused s) (<[f := h]> (handle_of s)).

Definition increaseOpenCount (h : nat) (s : Files) : Files := upd_count h 1 s.

Definition decreaseOpenCount (h : nat) (s : Files) : Files :=
  let s := upd_count h (-1) s in
  if openCount s h =? 0
  then mkFiles (openCount s) (fun x => if decide (x = h) then S (unused s x) else unused s x)
         (handle_of s)
  else s.

(** [GEDSFile(geds, fileHandle)] *)
Definition gf_construct (f h : nat) (s : Files) : Files := increaseOpenCount h (set_handle f (Some h) s).

(** [GEDSFile(const GEDSFile &)]: a null handle would be dereferenced. *)
Definition gf_copy (f src : nat) (s : Files) : outcome Files :=
  match handle_of s !! src with
  | Some (Some h) => Ret (gf_construct f h s)
  | _ => Abort
  end.

(** [GEDSFile(GEDSFile &&)] *)
Definition gf_move (f src : nat) (s : Files) : outcome Files :=
  match handle_of s !! src with
  | Some h => Ret (set_handle src None (set_handle f h s))
  | None => Abort
  end.

(** [operator=(const GEDSFile &)] *)
Definition gf_copy_assign (dst src : nat) (s : Files) : outcome Files :=
  if decide (dst = src) then Ret s else
  match handle_of s !! src with
  | Some (Some h) => Ret (increaseOpenCount h (set_handle dst (Some h) s))
  | _ => Abort
  end.

(** [operator=(GEDSFile &&)] *)
Definition gf_move_assign (dst src : nat) (s : Files) : outcome Files :=
  if decide (dst = src) then Ret s else
  match handle_of s !! src with
  | Some h => Ret (set_handle src None (set_handle dst h s))
  | None => Abort
  end.

(** [~GEDSFile()] *)
Definition gf_destroy (f : nat) (s : Files) : Files :=
  let s' := mkFiles (openCount s) (unused s) (delete f (handle_of s)) in
  match handle_of s !! f with
  | Some (Some h) => decreaseOpenCount h s'
  | _ => s'
  end.

(** The life of the files of a program; a new file gets an unused name, and an
    assignment goes to a file that exists. *)
Inductive gf_op :=
| Construct (f h : nat)
| CopyConstruct (f src : nat)
| MoveConstruct (f src : nat)
| CopyAssign (dst src : nat)
| MoveAssign (dst src : nat)
| Destroy (f : nat).

Definition gf_exec (o : gf_op) (s : Files) : outcome Files :=
  match o with
  | Construct f h => if decide (handle_of s !! f = None) then Ret (gf_construct f h s) else Abort
  | CopyConstruct f src => if decide (handle_of s !! f = None) then gf_copy f src s else Abort
  | MoveConstruct f src => if decide (handle_of s !! f = None) then gf_move f src s else Abort
  | CopyAssign d src => if decide (handle_of s !! d = None) then Abort else gf_copy_assign d src s
  | MoveAssign d src => if decide (handle_of s !! d = None) then Abort else gf_move_assign d src s
  | Destroy f => if decide (handle_of s !! f = None) then Abort else Ret (gf_destroy f s)
  end.

Fixpoint gf_run (os : list gf_op) (s : Files) : outcome Files :=
  match os with
  | [] => Ret s
  | o :: os => let! s := gf_exec o s in gf_run os s
  end.

Definition newFiles : Files := mkFiles (fun _ => 0) (fun _ => 0%nat) ∅.

(** ** [download] and [downloadRange] *)

(** The source handle's [readBytes] and the destination's [writeBytes], on a
    common state. *)
Class FileIO (St : Type) := {
  src_read : Z -> Z -> St -> St * StatusOr (Z * str);
  dst_write : str -> Z -> St -> St * Status
}.

Section download.
Context {St : Type} `{FileIO St} (cacheBlockSize : Z).

(** The loop of [downloadRange]. *)
Fixpoint range_loop (fuel : nat) (srcPosition length destPosition count : Z) (s : St) :
    option (St * StatusOr Z) :=
  match fuel with
  | O => None
  | S fuel =>
      let '(s, rcount) := src_read (u64 (srcPosition + count))
                            (Z.min (u64 (length - count)) cacheBlockSize) s in
      match rcount with
      | Error st => Some (s, Error st)
      | Value (n, buffer) =>
          if n =? 0 then Some (s, Value count)
          else
            let '(s, writeStatus) := dst_write buffer (u64 (destPosition + count)) s in
            if negb (ok writeStatus) then Some (s, from_status writeStatus)
            else
              let count := u64 (count + n) in
              if count <? length
              then range_loop fuel srcPosition length destPosition count s
              else Some (s, Value count)
      end
  end.

(** [same]: whether the destination is this handle. *)
Definition downloadRange (fuel : nat) (same : bool) (srcPosition length destPosition : Z) (s : St) :
    option (St * StatusOr Z) :=
  if same then Some (s, Error (InvalidArgumentError "Source and target are the same!"))
  else range_loop fuel srcPosition length destPosition 0 s.

(** The loop of [download]; [totalSize] is what [size()] returned. *)
Fixpoint download_loop (rounds fuel : nat) (same : bool) (totalSize pos : Z) (s : St) :
    option (St * Status) :=
  match rounds with
  | O => None
  | S rounds =>
      let length := Z.min cacheBlockSize (u64 (totalSize - pos)) in
      match downloadRange fuel same pos length pos s with
      | None => None
      | Some (s, Error st) => Some (s, st)
      | Some (s, Value count) =>
          let pos := u64 (pos + count) in
          if pos <? totalSize then download_loop rounds fuel same totalSize pos s
          else Some (s, OkStatus)
      end
  end.

Definition download (rounds fuel : nat) (same : bool) (totalSize : StatusOr Z) (s : St) :
    option (St * Status) :=
  match totalSize with
  | Error st => Some (s, st)
  | Value totalSize => download_loop rounds fuel same totalSize 0 s
  end.

(** [GEDSFile::copyTo] *)
Definition copyTo (rounds fuel : nat) (same : bool) (totalSize : StatusOr Z) (s : St) :
    option (St * Status) :=
  match download rounds fuel same totalSize s with
  | None => None
  | Some (s, status) => if negb (ok status) then Some (s, status) else Some (s, OkStatus)
  end.
End download.

(** [roundToNearestMultiple] *)
Definition roundToNearestMultiple (number factor : Z) : Z :=
  u64 (u64 (number + factor - 1) / factor * factor).

(** ** Typed reads and writes *)

Section typed.
Context {St : Type} (readBytes : Z -> Z -> St -> St * StatusOr (Z * str)) (writeBytes : str -> Z -> Z -> St -> St * Status).
Context (sizeofT : Z).

(** [read(T *buffer, position, length)]: the number of elements and the bytes
    stored at the pointer. *)
Definition gf_read (position length : Z) (s : St) : St * StatusOr (Z * str) :=
  let lengthBytes := u64 (length * sizeofT) in
  let positionBytes := u64 (position * sizeofT) in
  match readBytes positionBytes lengthBytes s with
  | (s, Error st) => (s, Error st)
  | (s, Value (n, bytes)) => (s, Value (n / sizeofT, bytes))
  end.

(** [buffer.resize(n)] of a vector of [n] elements held as bytes. *)
Definition vec_resize (n : Z) (buffer : str) : str := resize (n * sizeofT) buffer.
Definition vec_size (buffer : str) : Z := len buffer / sizeofT.

(** [read(std::vector<T> &buffer, offset, position, length)] *)
Definition gf_read_vec (buffer : str) (offset position length : Z) (s : St) :
    St * str * StatusOr Z :=
  let requiredLength := u64 (offset + length) in
  let prevBufferSize := vec_size buffer in
  let buffer := if prevBufferSize <? requiredLength then vec_resize requiredLength buffer else buffer in
  match gf_read position length s with
  | (s, Error st) => (s, buffer, Error st)
  | (s, Value (readLength, bytes)) =>
      let buffer := write_at (offset * sizeofT) bytes buffer in
      let buffer := if prevBufferSize <? u64 (offset + readLength)
                    then vec_resize (u64 (offset + readLength)) buffer else buffer in
      (s, buffer, Value readLength)
  end.

(** [write(const T *buffer, position, length)]: [buffer] is what the pointer
    points to. *)
Definition gf_write (buffer : str) (position length : Z) (s : St) : St * Status :=
  let positionBytes := u64 (position * sizeofT) in
  let lengthBytes := u64 (length * sizeofT) in
  writeBytes buffer positionBytes lengthBytes s.

(** [write(const std::vector<T> &buffer, offset, position, length)] *)
Definition gf_write_vec (buffer : str) (offset position length : Z) (s : St) : St * Status :=
  if vec_size buffer <? offset then (s, FailedPreconditionError "Offset is bigger than buffer.")
  else if vec_size buffer <? u64 (offset + length) then (s, FailedPreconditionError "Invalid length!")
  else gf_write (drop (Z.to_nat (offset * sizeofT)) buffer) position length s.
End typed.

(** ** Counting *)

(** The number of live files that hold a handle. *)
Definition held (m : gmap nat (option nat)) (h : nat) : Z :=
  Z.of_nat (size (filter (fun e => snd e = Some h) m)).

Definition holds1 (x : option (option nat)) (h : nat) : Z :=
  if decide (x = Some (Some h)) then 1 else 0.

Lemma held_insert_new m f x h :
  m !! f = None -> held (<[f := x]> m) h = held m h + holds1 (Some x) h.
Proof.
  intros Hf. unfold held, holds1. case_decide as E.
  - simplify_eq. rewrite map_filter_insert_True by done.
    rewrite map_size_insert_None; [lia|]. apply map_lookup_filter_None. by left.
  - rewrite map_filter_insert_False by (simpl; congruence). rewrite delete_id by done. lia.
Qed.

Lemma held_delete m f h : held (delete f m) h = held m h - holds1 (m !! f) h.
Proof.
  destruct (m !! f) as [x|] eqn:Hf.
  - rewrite <- (insert_delete_id m f x Hf) at 2. rewrite held_insert_new by apply lookup_delete_eq. lia.
  - rewrite delete_id by done. unfold holds1. simpl. lia.
Qed.

Lemma held_insert m f x h :
  held (<[f := x]> m) h = held m h - holds1 (m !! f) h + holds1 (Some x) h.
Proof.
  rewrite <- insert_delete_eq. rewrite held_insert_new by apply lookup_delete_eq.
  rewrite held_delete. lia.
Qed.

(** An assignment over a file that holds another handle forgets to decrease
    that handle's count. *)
Definition leak_of (o : gf_op) (s : Files) (h : nat) : Z :=
  match o with
  | CopyAssign d src | MoveAssign d src =>
      if decide (d = src) then 0 else holds1 (handle_of s !! d) h
  | _ => 0
  end.

Fixpoint leaks (os : list gf_op) (s : Files) (h : nat) : Z :=
  match os with
  | [] => 0
  | o :: os =>
      match gf_exec o s with
      | Ret s' => leak_of o s h + leaks os s' h
      | _ => 0
      end
  end.

Lemma leak_of_nonneg o s h : 0 <= leak_of o s h.
Proof. unfold leak_of, holds1. destruct o; repeat case_decide; lia. Qed.

Lemma leaks_nonneg os s h : 0 <= leaks os s h.
Proof.
  revert s. induction os as [|o os IH]; intros s; simpl; [lia|].
  destruct (gf_exec o s); [|lia..]. pose proof (leak_of_nonneg o s h). specialize (IH a). lia.
Qed.

Lemma openCount_decrease h s x :
  openCount (decreaseOpenCount h s) x = openCount s x - (if decide (x = h) then 1 else 0) /\
  handle_of (decreaseOpenCount h s) = handle_of s.
Proof.
  unfold decreaseOpenCount. destruct (openCount (upd_count h (-1) s) h =? 0); simpl;
    (split; [|done]); case_decide; lia.
Qed.

Ltac counts :=
  unfold gf_construct, increaseOpenCount, upd_count, set_handle in *; simpl in *;
  rewrite ?held_insert, ?held_delete;
  repeat match goal with
    | H : _ !! ?f = _ |- context [_ !! ?f] => rewrite H
    end; unfold holds1; simpl.

Lemma gf_exec_count o s s' h :
  gf_exec o s = Ret s' ->
  openCount s' h - held (handle_of s') h = openCount s h - held (handle_of s) h + leak_of o s h.
Proof.
  destruct o as [f g|f src|f src|d src|d src|f]; cbn [gf_exec leak_of]; intros E.
  - case_decide as Hf; [|done]. simplify_eq. counts. repeat case_decide; simplify_eq; lia.
  - case_decide as Hf; [|done]. unfold gf_copy in E.
    destruct (handle_of s !! src) as [[g|]|] eqn:Hs; simplify_eq. counts.
    repeat case_decide; simplify_eq; lia.
  - case_decide as Hf; [|done]. unfold gf_move in E.
    destruct (handle_of s !! src) as [g|] eqn:Hs; simplify_eq.
    assert (f <> src) by congruence. counts. rewrite lookup_insert_ne, Hs by done.
    repeat case_decide; simplify_eq; lia.
  - case_decide as Hd; [done|]. unfold gf_copy_assign in E. case_decide as Ed; [simplify_eq; lia|].
    destruct (handle_of s !! src) as [[g|]|] eqn:Hs; simplify_eq. counts.
    repeat case_decide; simplify_eq; lia.
  - case_decide as Hd; [done|]. unfold gf_move_assign in E. case_decide as Ed; [simplify_eq; lia|].
    destruct (handle_of s !! src) as [g|] eqn:Hs; simplify_eq. counts.
    rewrite lookup_insert_ne, Hs by done. repeat case_decide; simplify_eq; lia.
  - case_decide as Hf; [done|]. simplify_eq. unfold gf_destroy.
    destruct (handle_of s !! f) as [[g|]|] eqn:Hs; [|counts; repeat case_decide; simplify_eq; lia|done].
    set (s0 := mkFiles _ _ _). destruct (openCount_decrease g s0 h) as [-> ->]. subst s0.
    counts. repeat case_decide; simplify_eq; lia.
Qed.

Lemma gf_run_count os s s' h :
  gf_run os s = Ret s' ->
  openCount s' h - held (handle_of s') h = openCount s h - held (handle_of s) h + leaks os s h.
Proof.
  revert s. induction os as [|o os IH]; intros s; simpl; [intros [= <-]; lia|].
  destruct (gf_exec o s) as [s1| |] eqn:E; simpl; [|done..]. intros Hr.
  pose proof (gf_exec_count o s s1 h E). specialize (IH s1 Hr). lia.
Qed.

(** ** Property: open counts *)

(** C28: the open count of a handle. After any sequence of constructions, copies,
    moves, assignments and destructions of files, a handle's count is the
    number of live files that hold it plus the number of assignments that
    overwrote a file holding it: without such assignments the count is exact,
    and with one it never returns to zero. *)
Theorem openCount_exact os s h :
  gf_run os newFiles = Ret s ->
  openCount s h = held (handle_of s) h + leaks os newFiles h /\ 0 <= leaks os newFiles h.
Proof.
  intros Hr. pose proof (gf_run_count os newFiles s h Hr) as E. split; [|apply leaks_nonneg].
  simpl in E. change (held ∅ h) with 0 in E. lia.
Qed.

Definition demo_life : list gf_op :=
  [Construct 0 7; CopyConstruct 1 0; Construct 2 9; MoveConstruct 3 1; CopyAssign 2 0; Destroy 1;
   Destroy 2; Destroy 3; Destroy 0].

Lemma openCount_exact_witness :
  leaks demo_life newFiles 7%nat = 0 /\ leaks demo_life newFiles 9%nat = 1 /\
  exists s, gf_run demo_life newFiles = Ret s /\
    openCount s 9%nat = held (handle_of s) 9%nat + leaks demo_life newFiles 9%nat /\
    0 <= leaks demo_life newFiles 9%nat.
Proof.
  split; [reflexivity|]. split; [reflexivity|].
  destruct (gf_run demo_life newFiles) as [s| |] eqn:E; [|by vm_compute in E..].
  exists s. split; [done|]. apply (openCount_exact demo_life s 9). exact E.
Defined.

(** ** What a source and a destination promise *)

(** The source holds the bytes [io_src] and a read returns a part of them from
    the position on, at least one byte unless none was asked for or left; a
    write of no more bytes than the source has stores all of them. *)
Class FileIOLaws (St : Type) `{FileIO St} := {
  io_inv : St -> Prop;
  io_src : St -> str;
  io_dst : St -> str;
  io_small s : io_inv s -> len (io_src s) < INT64_MAX;
  src_read_law pos n s :
    io_inv s -> 0 <= pos < INT64_MAX -> is_u64 n ->
    exists s' m, src_read pos n s = (s', Value (m, slice pos m (io_src s))) /\
      io_inv s' /\ io_src s' = io_src s /\ io_dst s' = io_dst s /\
      0 <= m <= n /\ m <= Z.max 0 (len (io_src s) - pos) /\
      (0 < n -> pos < len (io_src s) -> 0 < m);
  dst_write_law bytes pos s :
    io_inv s -> 0 <= pos -> 0 < len bytes <= len (io_src s) -> pos + len bytes < INT64_MAX ->
    exists s' st, dst_write bytes pos s = (s', st) /\ ok st = true /\
      io_inv s' /\ io_src s' = io_src s /\ io_dst s' = write_at pos bytes (io_dst s)
}.

Section download_theory.
Context {St : Type} `{FileIOLaws St} (bs : Z).
Hypothesis bs_pos : 0 < bs < two64.
Implicit Types s : St.

(** What [length] asks for, as far as the source goes. *)
Definition avail (c : str) (pos length : Z) : Z := Z.min length (Z.max 0 (len c - pos)).

Lemma range_loop_spec fuel sp length dp count c d s :
  io_inv s -> io_src s = c -> io_dst s = write_at dp (slice sp count c) d ->
  0 <= sp -> sp + length < INT64_MAX -> 0 <= dp -> dp + length < INT64_MAX ->
  0 <= count <= avail c sp length -> (0 < length -> count < length) ->
  match range_loop bs fuel sp length dp count s with
  | None => Z.of_nat fuel <= length - count
  | Some (s', r) =>
      r = Value (avail c sp length) /\ io_inv s' /\ io_src s' = c /\
      io_dst s' = write_at dp (slice sp (avail c sp length) c) d
  end.
Proof.
  revert count s. induction fuel as [|fuel IH];
    intros count s Hi Hc Hd Hsp Hsl Hdp Hdl Hcnt Hlt; cbn [range_loop]; unfold avail in *; [lia|].
  assert (0 <= length) by lia. unfold INT64_MAX in *.
  rewrite !u64_small by (unfold is_u64, two64; lia).
  assert (Hn : is_u64 (Z.min (length - count) bs)) by (unfold is_u64, two64 in *; lia).
  assert (Hp : 0 <= sp + count < INT64_MAX) by (unfold INT64_MAX; lia).
  destruct (src_read_law (sp + count) _ s Hi Hp Hn)
    as (s1 & m & -> & Hi1 & Hs1 & Hd1 & Hm & Hm2 & Hm3).
  rewrite Hc in *. destruct (Z.eqb_spec m 0) as [->|Hm0].
  { assert (E : count = Z.min length (Z.max 0 (len c - sp))) by lia. rewrite <- E.
    split_and!; [done..|]. by rewrite Hd1. }
  assert (Hsl2 : len (slice (sp + count) m c) = m) by (apply slice_length; lia).
  destruct (dst_write_law (slice (sp + count) m c) (dp + count) s1 Hi1) as (s2 & st & -> & Hok & Hi2 & Hs2 & Hd2);
    [lia|rewrite Hs1, Hsl2; lia|rewrite Hsl2; unfold INT64_MAX; lia|].
  rewrite Hok. cbn [negb]. rewrite (u64_small (count + m)) by (unfold is_u64, two64; lia).
  assert (Hdst : io_dst s2 = write_at dp (slice sp (count + m) c) d).
  { rewrite Hd2, Hd1, Hd, <- (slice_extend sp count m) by lia.
    rewrite <- (write_at_extend dp (slice sp count c)) by lia.
    by rewrite (slice_length sp count c) by lia. }
  destruct (Z.ltb_spec (count + m) length).
  - assert (Hs2c : io_src s2 = c) by congruence.
    specialize (IH (count + m) s2 Hi2 Hs2c Hdst ltac:(lia) ltac:(lia) ltac:(lia) ltac:(lia) ltac:(lia) ltac:(lia)).
    destruct (range_loop bs fuel sp length dp (count + m) s2) as [[s' r]|]; [done|lia].
  - assert (E : count + m = Z.min length (Z.max 0 (len c - sp))) by lia. rewrite <- E.
    split_and!; [done..| |done]. congruence.
Qed.

Lemma downloadRange_spec fuel sp length dp s :
  io_inv s -> 0 <= sp -> sp + length < INT64_MAX -> 0 <= dp <= len (io_dst s) ->
  dp + length < INT64_MAX -> 0 <= length ->
  match downloadRange bs fuel false sp length dp s with
  | None => Z.of_nat fuel <= length
  | Some (s', r) =>
      r = Value (avail (io_src s) sp length) /\ io_inv s' /\ io_src s' = io_src s /\
      io_dst s' = write_at dp (slice sp (avail (io_src s) sp length) (io_src s)) (io_dst s)
  end.
Proof.
  intros Hi Hsp Hsl Hdp Hdl Hl. unfold downloadRange.
  pose proof (range_loop_spec fuel sp length dp 0 (io_src s) (io_dst s) s) as H1.
  rewrite slice_0, write_at_nil in H1 by lia.
  specialize (H1 Hi eq_refl eq_refl Hsp Hsl ltac:(lia) Hdl ltac:(unfold avail; lia) ltac:(lia)).
  destruct (range_loop bs fuel sp length dp 0 s) as [[s' r]|]; [done|lia].
Qed.

Lemma download_loop_spec rounds fuel total pos c d s :
  io_inv s -> io_src s = c -> io_dst s = write_at 0 (slice 0 pos c) d ->
  total = len c -> 0 <= pos <= total -> (pos < total \/ pos = 0) ->
  bs < Z.of_nat fuel -> total - pos < bs * Z.of_nat rounds ->
  exists s', download_loop bs rounds fuel false total pos s = Some (s', OkStatus) /\
    io_inv s' /\ io_src s' = c /\ io_dst s' = write_at 0 c d.
Proof.
  revert pos s. induction rounds as [|rounds IH];
    intros pos s Hi Hc Hd Ht Hp Hp2 Hf Hr; [lia|]. cbn [download_loop].
  pose proof (io_small s Hi) as Hsm. rewrite Hc in Hsm.
  rewrite u64_small by (unfold is_u64, two64, INT64_MAX in *; lia).
  assert (Hlen : len (io_dst s) = Z.max (len d) (0 + len (slice 0 pos c))) by (rewrite Hd; apply len_write_at; lia).
  rewrite slice_length in Hlen by lia.
  pose proof (downloadRange_spec fuel pos (Z.min bs (total - pos)) pos s Hi) as H1.
  specialize (H1 ltac:(lia) ltac:(lia) ltac:(lia) ltac:(lia) ltac:(lia)).
  destruct (downloadRange bs fuel false pos (Z.min bs (total - pos)) pos s) as [[s1 r]|]; [|lia].
  destruct H1 as (-> & Hi1 & Hc1 & Hd1). rewrite Hc in *.
  assert (Ha : avail c pos (Z.min bs (total - pos)) = Z.min bs (total - pos)) by (unfold avail; lia).
  rewrite Ha in *. set (n := Z.min bs (total - pos)) in *.
  rewrite u64_small by (unfold is_u64, two64, INT64_MAX in *; lia).
  assert (Hdst : io_dst s1 = write_at 0 (slice 0 (pos + n) c) d).
  { rewrite Hd1, Hd. change (slice pos n c) with (slice (0 + pos) n c). rewrite <- (slice_extend 0 pos n) by lia.
    rewrite <- (write_at_extend 0 (slice 0 pos c)) by lia. by rewrite (slice_length 0 pos c) by lia. }
  destruct (Z.ltb_spec (pos + n) total).
  - apply IH; auto; lia.
  - assert (E : pos + n = len c) by lia. rewrite E, slice_all in Hdst. by exists s1.
Qed.

(** A source shorter than announced. *)
Lemma download_loop_stalls rounds fuel total pos c s :
  io_inv s -> io_src s = c -> 0 <= pos <= len c -> len c < total -> total < INT64_MAX ->
  pos <= len (io_dst s) ->
  download_loop bs rounds fuel false total pos s = None.
Proof.
  revert pos s. induction rounds as [|rounds IH]; intros pos s Hi Hc Hp Ht Hs Hdl; [done|].
  cbn [download_loop]. rewrite u64_small by (unfold is_u64, two64, INT64_MAX in *; lia).
  pose proof (downloadRange_spec fuel pos (Z.min bs (total - pos)) pos s Hi) as H1.
  specialize (H1 ltac:(lia) ltac:(lia) ltac:(lia) ltac:(lia) ltac:(lia)).
  destruct (downloadRange bs fuel false pos (Z.min bs (total - pos)) pos s) as [[s1 r]|]; [|done].
  destruct H1 as (-> & Hi1 & Hc1 & Hd1). rewrite Hc in *.
  set (n := avail c pos (Z.min bs (total - pos))) in *.
  assert (Hn : 0 <= n /\ pos + n <= len c) by (subst n; unfold avail; lia).
  rewrite u64_small by (unfold is_u64, two64, INT64_MAX in *; lia).
  rewrite (proj2 (Z.ltb_lt _ _)) by lia. apply IH; auto; [lia|].
  rewrite Hd1, len_write_at, slice_length by lia. lia.
Qed.
End download_theory.

(** A read clipped to the end of the source. *)
Lemma slice_clipped pos n d :
  0 <= pos -> slice pos n d = slice pos (Z.max 0 (Z.min n (len d - pos))) d.
Proof.
  intros Hp. destruct (Z.le_gt_cases (len d) pos) as [Hl|Hl].
  { by rewrite !slice_past by lia. }
  destruct (Z.le_gt_cases 0 n) as [Hn|Hn].
  - rewrite slice_clip, Z.max_r by lia. done.
  - rewrite Z.max_l by lia. unfold slice. by replace (Z.to_nat n) with 0%nat by lia.
Qed.

(** ** Two local files as source and destination *)

Section local_pair.
Context {K : Type} `{KernelFair K}.

(** Source, destination and kernel. The fuel is the number of interruptions
    plus the number of bytes. *)
Definition local_pair : Type := LocalFile * LocalFile * K.

Definition pair_read (pos n : Z) (s : local_pair) : local_pair * StatusOr (Z * str) :=
  let '(f, g, k) := s in
  match lf_readBytes (interrupts k + Z.to_nat (Z.min n (len (lf_data f)))) f pos n k with
  | Some (k, r) => ((f, g, k), r)
  | None => (s, Error (InternalError "out of fuel"))
  end.

Definition pair_write (bytes : str) (pos : Z) (s : local_pair) : local_pair * Status :=
  let '(f, g, k) := s in
  match lf_writeBytes (interrupts k + length bytes) g bytes pos (len bytes) k with
  | Some (g, k, st) => ((f, g, k), st)
  | None => (s, InternalError "out of fuel")
  end.

#[global] Instance local_io : FileIO local_pair := {| src_read := pair_read; dst_write := pair_write |}.

#[global, refine] Instance local_io_laws : FileIOLaws local_pair := {|
  io_inv s := lf_wf (fst (fst s)) /\ lf_wf (snd (fst s));
  io_src s := lf_data (fst (fst s));
  io_dst s := lf_data (snd (fst s))
|}.
Proof.
  - intros [[f g] k] [Hf _]. apply (lf_small f Hf).
  - intros pos n [[f g] k] [Hf Hg] Hp Hn. simpl in *. unfold is_u64 in Hn.
    destruct (lf_readBytes_spec (interrupts k + Z.to_nat (Z.min n (len (lf_data f)))) f pos n k Hf Hp)
      as (k' & E & _); [lia|lia|].
    exists (f, g, k'), (Z.max 0 (Z.min n (len (lf_data f) - pos))). rewrite E.
    split; [|simpl; split_and!; try done; lia]. do 2 f_equal.
    f_equal. apply slice_clipped. lia.
  - intros bytes pos [[f g] k] [Hf Hg] Hp [Hb _] Hl. simpl in *.
    destruct (lf_writeBytes_spec (interrupts k + length bytes) g bytes pos k Hg Hp Hl)
      as (g' & k' & E & Hg' & _ & _ & Hd & _); [lia|].
    exists (f, g', k'), OkStatus. rewrite E. simpl. split_and!; try done.
    rewrite Hd, decide_False; [done|]. intros ->. done.
Defined.
End local_pair.
Arguments local_pair K : clear implicits.

(** ** Properties: copying *)

(** C27: copying a file copies its bytes. From a source that serves short reads
    but always makes progress, [copyTo] writes the whole contents from the
    start of the destination, leaves what lies beyond and returns OK; a block
    size of system calls per round and as many rounds as blocks are enough. *)
Theorem copyTo_exact (St : Type) `{FileIOLaws St} bs rounds fuel (s : St) :
  0 < bs < two64 -> io_inv s -> bs < Z.of_nat fuel ->
  len (io_src s) < bs * Z.of_nat rounds ->
  exists s', copyTo bs rounds fuel false (Value (len (io_src s))) s = Some (s', OkStatus) /\
    io_src s' = io_src s /\ io_dst s' = write_at 0 (io_src s) (io_dst s).
Proof.
  intros Hbs Hi Hf Hr. pose proof (len_nonneg (io_src s)).
  destruct (download_loop_spec bs Hbs rounds fuel (len (io_src s)) 0 (io_src s) (io_dst s) s)
    as (s' & E & _ & Hs & Hd); try done; try lia.
  { rewrite slice_0, write_at_nil; [done|pose proof (len_nonneg (io_dst s)); lia]. }
  exists s'. unfold copyTo, download. rewrite E. done.
Qed.

(** A source that is shorter than its [size()] announces, as a remote file
    that was truncated since it was looked up, makes [download] run forever:
    no number of rounds and system calls leads to a result. *)
Theorem download_never_returns (St : Type) `{FileIOLaws St} bs rounds fuel total (s : St) :
  0 < bs < two64 -> io_inv s -> len (io_src s) < total < INT64_MAX ->
  download bs rounds fuel false (Value total) s = None.
Proof.
  intros Hbs Hi Ht. pose proof (len_nonneg (io_src s)). pose proof (len_nonneg (io_dst s)).
  apply (download_loop_stalls bs Hbs rounds fuel total 0 (io_src s)); try done; lia.
Qed.

(** ** Witnesses *)

Definition demo_pair : local_pair nat :=
  (sample_file, mkLocalFile "/tmp/g" 6 12 "abcdefghijkl", 3%nat).

Lemma demo_pair_inv : io_inv demo_pair.
Proof. split; split; vm_compute; done. Qed.

Lemma copyTo_exact_witness :
  exists s', copyTo 4 3 5 false (Value 10) demo_pair = Some (s', OkStatus) /\
    lf_data (snd (fst s')) = ("0123456789kl" : str).
Proof.
  destruct (copyTo_exact (local_pair nat) 4 3 5 demo_pair) as (s' & E & _ & Hd);
    [unfold two64; lia|apply demo_pair_inv|lia|vm_compute; reflexivity|].
  exists s'. split; [exact E|]. change (io_dst s') with (lf_data (snd (fst s'))) in Hd. by rewrite Hd.
Defined.

Lemma download_never_returns_witness : download 4 1000 100 false (Value 11) demo_pair = None.
Proof.
  apply (download_never_returns (local_pair nat) 4 1000 100 11 demo_pair);
    [unfold two64; lia|apply demo_pair_inv|split; vm_compute; reflexivity].
Defined.
