(* ===== verification/Node.v ===== *)
(** * The state of a GEDS process

    The members of the class [GEDS] (src/src/libgeds/GEDS.h) together with
    everything they own or reach: the file handles, which are shared objects in
    a heap, the local file system, the metadata client and the service it is
    connected to, the object stores and the file transfer connections. The
    operations of Handles.v and GEDS.v are functions on this state. *)

From Stdlib Require Import Ascii ZArith Lia.
From stdpp Require Import base gmap sets list strings numbers.
From S2P Require Import Prelude Bytes Decimal Status StdMap Path Object FileSet MDSKVS S3Endpoint.
From S2P Require Import MetadataService LocalFile ConcurrentMap GedsNames.

Open Scope Z_scope.
Open Scope list_scope.

(** ** Object stores *)

(** [geds::s3::ObjectStores] (src/src/s3/S3ObjectStores.cpp) *)
Definition ObjectStores : Type := smap str Endpoint.

Definition registerStore (label endpointUrl_ accessKey_ secretKey_ : str) (m : ObjectStores) :
    ObjectStores * Status :=
  match mfind label m with
  | Some e =>
      if bool_decide (accessKey e = accessKey_) && bool_decide (endpointUrl e = endpointUrl_)
      then (m, OkStatus)
      else (m, AlreadyExistsError (label ++ " already exists with different values!"))
  | None => (massign label (newEndpoint endpointUrl_ accessKey_ secretKey_) m, OkStatus)
  end.

Definition isRegistered (label : str) (m : ObjectStores) : bool :=
  match mfind label m with Some _ => true | None => false end.

Definition stores_get (label : str) (m : ObjectStores) : StatusOr Endpoint :=
  match mfind label m with
  | None => Error (NotFoundError (label ++ " is not registered!"))
  | Some e => Value e
  end.

(** ** The local file system *)

(** Names refer to inodes, which hold the bytes; an open descriptor keeps its
    inode when the name is removed. *)
Record FileSystem := mkFS {
  fs_names : gmap str Z;
  fs_inodes : gmap Z str;
  fs_next : Z;
  fs_dirs : gset str
}.

Definition inode_data (i : Z) (fs : FileSystem) : str := default [] (fs_inodes fs !! i).

Definition set_inode (i : Z) (d : str) (fs : FileSystem) : FileSystem :=
  mkFS (fs_names fs) (<[i := d]> (fs_inodes fs)) (fs_next fs) (fs_dirs fs).

(** [open] with [O_CREAT]: the inode of the path, a new one if there is none. *)
Definition open_inode (path : str) (fs : FileSystem) : Z * FileSystem :=
  match fs_names fs !! path with
  | Some i => (i, fs)
  | None => (fs_next fs, mkFS (<[path := fs_next fs]> (fs_names fs))
                           (<[fs_next fs := []]> (fs_inodes fs)) (fs_next fs + 1) (fs_dirs fs))
  end.

Definition unlink_name (path : str) (fs : FileSystem) : FileSystem :=
  mkFS (delete path (fs_names fs)) (fs_inodes fs) (fs_next fs) (fs_dirs fs).

Definition add_dir (path : str) (fs : FileSystem) : FileSystem :=
  mkFS (fs_names fs) (fs_inodes fs) (fs_next fs) ({[path]} ∪ fs_dirs fs).

(** ** File handles *)

(** The classes derived from [GEDSFileHandle]. The bytes of a local file are
    those of its inode; [lf_data] of the stored [LocalFile] is not used. Other
    handles and the files held by a handle are named by their place in the
    heap. *)
Inductive Kind :=
| KLocal (file : LocalFile) (inode : Z) (isSealed : bool)
| KRemote (hostname : str) (info : ObjectInfo)
| KS3 (s3Bucket s3Key : str) (size : Z)
| KCached (remote : nat) (remoteSize blockSize : Z) (blocks : list (option nat))
| KReloc (inner : nat).

Record Handle := mkHandle {
  h_bucket : str;
  h_key : str;
  h_metadata : option str;
  h_openCount : Z;
  h_isValid : bool;
  h_lastReleased : Z;
  h_kind : Kind
}.

Definition identifier (h : Handle) : str := h_bucket h ++ "/" ++ h_key h.

Definition newHandle (bucket key : str) (metadata : option str) (k : Kind) : Handle :=
  mkHandle bucket key metadata 0 true 0 k.

Definition with_count (c : Z) (h : Handle) : Handle :=
  mkHandle (h_bucket h) (h_key h) (h_metadata h) c (h_isValid h) (h_lastReleased h) (h_kind h).
Definition with_kind (k : Kind) (h : Handle) : Handle :=
  mkHandle (h_bucket h) (h_key h) (h_metadata h) (h_openCount h) (h_isValid h) (h_lastReleased h) k.
Definition with_valid (b : bool) (h : Handle) : Handle :=
  mkHandle (h_bucket h) (h_key h) (h_metadata h) (h_openCount h) b (h_lastReleased h) (h_kind h).
Definition with_metadata (m : option str) (h : Handle) : Handle :=
  mkHandle (h_bucket h) (h_key h) m (h_openCount h) (h_isValid h) (h_lastReleased h) (h_kind h).
Definition released_at (t : Z) (h : Handle) : Handle :=
  mkHandle (h_bucket h) (h_key h) (h_metadata h) (h_openCount h) (h_isValid h) t (h_kind h).

(** ** Transfers between processes *)

(** [geds::FileTransferService] as the file layer uses it: connecting to a host
    and reading a range of an object from it. A read that never returns is
    [None]; an exception leaves it when the connection breaks. *)
Class Transfers (T : Type) := {
  ft_connect : str -> T -> T * Status;
  ft_read : str -> str -> str -> Z -> Z -> T -> option (T * outcome (StatusOr (Z * str)))
}.

(** What a service that reaches its hosts promises: connecting to a host that is
    open succeeds, and a read from a connected host returns the range of the
    object it has. *)
Class TransferHosts (T : Type) `{Transfers T} := {
  th_open : str -> T -> Prop;
  th_connected : str -> T -> Prop;
  th_has : str -> str -> str -> str -> T -> Prop;
  th_keeps t t' : Prop :=
    (forall a, th_connected a t -> th_connected a t') /\
    (forall a b k d, th_has a b k d t -> th_has a b k d t');
  th_connect_ok a t :
    th_open a t -> exists t', ft_connect a t = (t', OkStatus) /\ th_connected a t' /\ th_keeps t t';
  th_read_ok a b k d pos cnt t :
    th_connected a t -> th_has a b k d t -> 0 <= pos < INT64_MAX -> 0 <= cnt < two64 ->
    exists t', ft_read a b k pos cnt t =
        Some (t', Ret (Value (Z.max 0 (Z.min cnt (len d - pos)), slice pos cnt d))) /\ th_keeps t t'
}.

(** ** The process *)

Inductive ServiceState := Stopped | Running | Unknown.

Definition state_name (s : ServiceState) : str :=
  match s with Stopped => "Stopped" | Running => "Running" | Unknown => "Unknown" end.

(** The settings of [GEDSConfig] the file layer reads. *)
Record Config := mkNodeConfig {
  cacheBlockSize : Z;
  cache_objects_from_s3 : bool;
  pubSubEnabled : bool
}.

Section node.
Context {W X K T : Type}.

Record Node := mkNode {
  n_config : Config;
  n_state : ServiceState;
  n_md : MetadataService;                 (** [_metadataService] *)
  n_mdw : W;                              (** what it is connected to *)
  n_pathPrefix : str;
  n_names : FileNames;                    (** [_fileNameCounter], [_fileNames] *)
  n_hostURI : str;
  n_fileHandles : smap Path nat;          (** [_fileHandles] *)
  n_fileTransfers : smap str unit;        (** [_fileTransfers] *)
  n_knownBuckets : list str;              (** [_knownBuckets] *)
  n_objectStores : ObjectStores;          (** [_objectStores] *)
  n_filesOpened : Z;                      (** [_statisticsFilesOpened] *)
  n_filesCreated : Z;                     (** [_statisticsFilesCreated] *)
  n_heap : gmap nat Handle;               (** the file handles that exist *)
  n_next : nat;
  n_now : Z;                              (** [system_clock::now()] *)
  n_s3 : str -> s3_state X;               (** the service of the store of a bucket *)
  n_fs : FileSystem;
  n_kernel : K;
  n_transfers : T
}.

Definition set_state v n := mkNode (n_config n) v (n_md n) (n_mdw n) (n_pathPrefix n) (n_names n) (n_hostURI n) (n_fileHandles n) (n_fileTransfers n) (n_knownBuckets n) (n_objectStores n) (n_filesOpened n) (n_filesCreated n) (n_heap n) (n_next n) (n_now n) (n_s3 n) (n_fs n) (n_kernel n) (n_transfers n).
Definition set_md c w n := mkNode (n_config n) (n_state n) c w (n_pathPrefix n) (n_names n) (n_hostURI n) (n_fileHandles n) (n_fileTransfers n) (n_knownBuckets n) (n_objectStores n) (n_filesOpened n) (n_filesCreated n) (n_heap n) (n_next n) (n_now n) (n_s3 n) (n_fs n) (n_kernel n) (n_transfers n).
Definition set_names v n := mkNode (n_config n) (n_state n) (n_md n) (n_mdw n) (n_pathPrefix n) v (n_hostURI n) (n_fileHandles n) (n_fileTransfers n) (n_knownBuckets n) (n_objectStores n) (n_filesOpened n) (n_filesCreated n) (n_heap n) (n_next n) (n_now n) (n_s3 n) (n_fs n) (n_kernel n) (n_transfers n).
Definition set_hostURI v n := mkNode (n_config n) (n_state n) (n_md n) (n_mdw n) (n_pathPrefix n) (n_names n) v (n_fileHandles n) (n_fileTransfers n) (n_knownBuckets n) (n_objectStores n) (n_filesOpened n) (n_filesCreated n) (n_heap n) (n_next n) (n_now n) (n_s3 n) (n_fs n) (n_kernel n) (n_transfers n).
Definition set_fileHandles v n := mkNode (n_config n) (n_state n) (n_md n) (n_mdw n) (n_pathPrefix n) (n_names n) (n_hostURI n) v (n_fileTransfers n) (n_knownBuckets n) (n_objectStores n) (n_filesOpened n) (n_filesCreated n) (n_heap n) (n_next n) (n_now n) (n_s3 n) (n_fs n) (n_kernel n) (n_transfers n).
Definition set_fileTransfers v t n := mkNode (n_config n) (n_state n) (n_md n) (n_mdw n) (n_pathPrefix n) (n_names n) (n_hostURI n) (n_fileHandles n) v (n_knownBuckets n) (n_objectStores n) (n_filesOpened n) (n_filesCreated n) (n_heap n) (n_next n) (n_now n) (n_s3 n) (n_fs n) (n_kernel n) t.
Definition set_knownBuckets v n := mkNode (n_config n) (n_state n) (n_md n) (n_mdw n) (n_pathPrefix n) (n_names n) (n_hostURI n) (n_fileHandles n) (n_fileTransfers n) v (n_objectStores n) (n_filesOpened n) (n_filesCreated n) (n_heap n) (n_next n) (n_now n) (n_s3 n) (n_fs n) (n_kernel n) (n_transfers n).
Definition set_objectStores v n := mkNode (n_config n) (n_state n) (n_md n) (n_mdw n) (n_pathPrefix n) (n_names n) (n_hostURI n) (n_fileHandles n) (n_fileTransfers n) (n_knownBuckets n) v (n_filesOpened n) (n_filesCreated n) (n_heap n) (n_next n) (n_now n) (n_s3 n) (n_fs n) (n_kernel n) (n_transfers n).
Definition set_filesOpened v n := mkNode (n_config n) (n_state n) (n_md n) (n_mdw n) (n_pathPrefix n) (n_names n) (n_hostURI n) (n_fileHandles n) (n_fileTransfers n) (n_knownBuckets n) (n_objectStores n) v (n_filesCreated n) (n_heap n) (n_next n) (n_now n) (n_s3 n) (n_fs n) (n_kernel n) (n_transfers n).
Definition set_filesCreated v n := mkNode (n_config n) (n_state n) (n_md n) (n_mdw n) (n_pathPrefix n) (n_names n) (n_hostURI n) (n_fileHandles n) (n_fileTransfers n) (n_knownBuckets n) (n_objectStores n) (n_filesOpened n) v (n_heap n) (n_next n) (n_now n) (n_s3 n) (n_fs n) (n_kernel n) (n_transfers n).
Definition set_heap v x n := mkNode (n_config n) (n_state n) (n_md n) (n_mdw n) (n_pathPrefix n) (n_names n) (n_hostURI n) (n_fileHandles n) (n_fileTransfers n) (n_knownBuckets n) (n_objectStores n) (n_filesOpened n) (n_filesCreated n) v x (n_now n) (n_s3 n) (n_fs n) (n_kernel n) (n_transfers n).
Definition set_s3 l v n := mkNode (n_config n) (n_state n) (n_md n) (n_mdw n) (n_pathPrefix n) (n_names n) (n_hostURI n) (n_fileHandles n) (n_fileTransfers n) (n_knownBuckets n) (n_objectStores n) (n_filesOpened n) (n_filesCreated n) (n_heap n) (n_next n) (n_now n) (fun x => if decide (x = l) then v else n_s3 n x) (n_fs n) (n_kernel n) (n_transfers n).
Definition set_fs v k n := mkNode (n_config n) (n_state n) (n_md n) (n_mdw n) (n_pathPrefix n) (n_names n) (n_hostURI n) (n_fileHandles n) (n_fileTransfers n) (n_knownBuckets n) (n_objectStores n) (n_filesOpened n) (n_filesCreated n) (n_heap n) (n_next n) (n_now n) (n_s3 n) v k (n_transfers n).

(** ** Computations *)

(** A call returns with a new state, or the process is terminated, or the
    bound on system calls was too small. *)
Inductive run (A : Type) :=
| Done (a : A) (n : Node)
| Crash
| NoFuel.
#[global] Arguments Done {A} a n.
#[global] Arguments Crash {A}.
#[global] Arguments NoFuel {A}.

Definition M (A : Type) : Type := Node -> run A.

Definition ret {A} (a : A) : M A := fun n => Done a n.

Definition bind {A B} (m : M A) (k : A -> M B) : M B :=
  fun n => match m n with
           | Done a n => k a n
           | Crash => Crash
           | NoFuel => NoFuel
           end.

Definition gets {A} (f : Node -> A) : M A := fun n => Done (f n) n.
Definition modify (f : Node -> Node) : M unit := fun n => Done tt (f n).

(** A call of the metadata client. *)
Definition md_call {A} (f : MetadataService -> W -> MetadataService * W * A) : M A :=
  fun n => let '(c, w, a) := f (n_md n) (n_mdw n) in Done a (set_md c w n).

(** A call of an endpoint's operation. *)
Definition s3_call {A} (label : str) (f : s3_state X -> s3_state X * A) : M A :=
  fun n => let '(s, a) := f (n_s3 n label) in Done a (set_s3 label s n).

Definition s3_loop {A} (label : str) (f : s3_state X -> option (s3_state X * A)) : M A :=
  fun n => match f (n_s3 n label) with
           | Some (s, a) => Done a (set_s3 label s n)
           | None => NoFuel
           end.

(** Dereferencing a handle. *)
Definition the_handle (h : nat) : M Handle :=
  fun n => match n_heap n !! h with Some x => Done x n | None => Crash end.

Definition update_handle (h : nat) (f : Handle -> Handle) : M unit :=
  fun n => Done tt (set_heap (alter f h (n_heap n)) (n_next n) n).

Definition new_handle (x : Handle) : M nat :=
  fun n => Done (n_next n) (set_heap (<[n_next n := x]> (n_heap n)) (S (n_next n)) n).
End node.
Arguments Node W X K T : clear implicits.
Arguments M W X K T A : clear implicits.
Arguments run W X K T A : clear implicits.

Notation "'let*' x ':=' m 'in' k" := (bind m (fun x => k))
  (at level 200, x pattern, m at level 100, k at level 200,
   right associativity) : geds_scope.

Notation "m ';;' k" := (bind m (fun _ => k))
  (at level 100, k at level 200, right associativity) : geds_scope.
