(* ===== verification/Handles.v ===== *)
(** * File handles in a process

    The classes derived from [GEDSFileHandle] on the state of Node.v: their
    lifetime, the local file handle (src/src/libgeds/GEDSAbstractFileHandle.h with
    LocalFile), the remote, S3, cached and relocatable handles
    (GEDSRemoteFileHandle.cpp, GEDSS3FileHandle.cpp, GEDSCachedFileHandle.cpp,
    GEDSRelocatableFileHandle.cpp), and the operations of [GEDS] they call
    (GEDS.cpp). *)

From Stdlib Require Import Ascii ZArith Lia.
From stdpp Require Import base gmap sets list strings numbers.
From S2P Require Import Prelude Bytes Decimal Status StdMap Path Object FileSet MDSKVS S3Endpoint.
From S2P Require Import MetadataService LocalFile ConcurrentMap GedsNames Node.

Open Scope Z_scope.
Open Scope list_scope.

Definition CacheBlockMarker : str := "_$cachedblock$/".

Section handles.
Context {W X K T : Type} `{MDStub W} `{S3Client X} `{Kernel K} `{Transfers T}.
(** The bound on the system calls and requests of one loop. *)
Context (fuel : nat).

(** ** Lifetime *)

(** The handles a handle holds. *)
Definition children (x : Handle) : list nat :=
  match h_kind x with
  | KReloc inner => [inner]
  | KCached remote _ _ blocks => remote :: omap (fun b => b) blocks
  | _ => []
  end.

(** Whether something still points to a handle: the map of handles, a file, or
    another handle. *)
Definition referenced (h : nat) (n : Node W X K T) : bool :=
  existsb (fun e => bool_decide (snd e = h)) (n_fileHandles n)
  || match n_heap n !! h with Some x => 0 <? h_openCount x | None => false end
  || existsb (fun e => bool_decide (h ∈ children (snd e))) (map_to_list (n_heap n)).

(** [increaseOpenCount], [decreaseOpenCount]; [notifyUnused] does nothing for
    local files. *)
Definition h_increaseOpenCount (h : nat) : M W X K T unit :=
  update_handle h (fun x => with_count (h_openCount x + 1) x).

Definition h_decreaseOpenCount (h : nat) : M W X K T unit :=
  let* now := gets n_now in
  update_handle h (fun x => released_at now (with_count (h_openCount x - 1) x)).

(** [geds::filesystem::removeFile]; its status is only logged. *)
Definition removeFile (path : str) : M W X K T unit :=
  fun n => match call (n_kernel n) with
           | (k, Sys _) => Done tt (set_fs (unlink_name path (n_fs n)) k n)
           | (k, SysError _) => Done tt (set_fs (n_fs n) k n)
           end.

(** Dropping a reference destroys a handle nothing points to: a local file is
    closed and its name removed, and what the handle holds is dropped in turn. *)
Fixpoint release (depth : nat) (h : nat) : M W X K T unit :=
  match depth with
  | O => ret tt
  | S depth =>
      fun n =>
        match n_heap n !! h with
        | None => Done tt n
        | Some x =>
            if referenced h n then Done tt n else
            (modify (fun n => set_heap (delete h (n_heap n)) (n_next n) n) ;;
             match h_kind x with
             | KLocal f _ _ => if 0 <=? lf_fd f then removeFile (lf_path f) else ret tt
             | KReloc inner => release depth inner
             | KCached remote _ _ blocks =>
                 fold_right (fun b m => h_decreaseOpenCount b ;; release depth b ;; m)
                   (h_decreaseOpenCount remote ;; release depth remote)
                   (omap (fun b => b) blocks)
             | _ => ret tt
             end) n
        end
  end.

Definition drop_ref (h : nat) : M W X K T unit := fun n => release (S (size (n_heap n))) h n.

(** [open()] on a handle: a new [GEDSFile]; and its destructor. *)
Definition h_open (h : nat) : M W X K T nat := h_increaseOpenCount h ;; ret h.
Definition close (h : nat) : M W X K T unit := h_decreaseOpenCount h ;; drop_ref h.

(** ** Services of [GEDS] *)

Definition running {A} (m : M W X K T (StatusOr A)) : M W X K T (StatusOr A) :=
  fun n => match n_state n with
           | Running => m n
           | st => Done (Error (FailedPreconditionError ("The service is " ++ state_name st ++ "."))) n
           end.

Definition running_status (m : M W X K T Status) : M W X K T Status :=
  fun n => match n_state n with
           | Running => m n
           | st => Done (FailedPreconditionError ("The service is " ++ state_name st ++ ".")) n
           end.

Definition node_getLocalPath (bucket key : str) : M W X K T str :=
  fun n => let '(names, p) := getLocalPath (n_pathPrefix n) bucket key (n_names n) in
           Done p (set_names names n).

Definition geds_lookupBucket (bucket : str) : M W X K T Status :=
  let* known := gets (fun n => cs_exists bucket (n_knownBuckets n)) in
  if known then ret OkStatus else
  let* status := md_call (lookupBucket bucket) in
  if negb (ok status) then ret status else
  modify (fun n => set_knownBuckets (cs_insert bucket (n_knownBuckets n)) n) ;;
  ret OkStatus.

Definition geds_createBucket (bucket : str) : M W X K T Status :=
  let status := isValidBucketName bucket in
  if negb (ok status) then ret status else
  let* found := geds_lookupBucket bucket in
  if ok found then ret OkStatus else
  let* status := md_call (client_createBucket bucket) in
  if ok status || code_is kAlreadyExists status then ret OkStatus else ret status.

Definition getS3Endpoint (bucket : str) : M W X K T (StatusOr Endpoint) :=
  gets (fun n => stores_get bucket (n_objectStores n)).

Definition getFileTransferService (hostname : str) : M W X K T (StatusOr str) :=
  let* fts := gets (fun n => cm_get hostname (n_fileTransfers n)) in
  match fts with
  | Some _ => ret (Value hostname)
  | None =>
      fun n =>
        let '(t, status) := ft_connect hostname (n_transfers n) in
        if negb (ok status) then
          Done (Error (UnavailableError ("Unable to connect to " ++ hostname ++ ": " ++ message status)))
            (set_fileTransfers (n_fileTransfers n) t n)
        else Done (Value hostname)
               (set_fileTransfers (fst (insertOrExists hostname tt (n_fileTransfers n))) t n)
  end.

(** [GEDS::seal(fileHandle, update, size, uri)] *)
Definition geds_seal (x : Handle) (update : bool) (size : Z) (uri : option str) : M W X K T Status :=
  running_status (
    let* hostURI := gets n_hostURI in
    let obj := mkObject (mkID (h_bucket x) (h_key x))
                 (mkInfo (default hostURI uri) size size (h_metadata x)) in
    if update then md_call (client_updateObject obj) else md_call (client_createObject obj)).

(** ** Local file handles *)

(** [std::filesystem::path(path).remove_filename()] *)
Definition remove_filename (path : str) : str :=
  match rfind_char "/" path with Some i => take (S i) path | None => [] end.

(** [geds::filesystem::mkdir] *)
Definition fs_mkdir (path : str) : M W X K T Status :=
  fun n =>
    if bool_decide (path ∈ fs_dirs (n_fs n)) then Done OkStatus n else
    match call (n_kernel n) with
    | (k, Sys _) => Done OkStatus (set_fs (add_dir path (n_fs n)) k n)
    | (k, SysError e) =>
        Done (UnknownError ("Unable to create directory " ++ path ++ "' Reason: " ++ strerror e))
          (set_fs (n_fs n) k n)
    end.

(** [LocalFile(path)] with its default [overwrite = true]: opening truncates what
    the name refers to, before anything else can fail. *)
Definition new_LocalFile (path : str) : M W X K T (outcome (LocalFile * Z)) :=
  fun n =>
    let '(i, fs) := open_inode path (n_fs n) in
    let existing := (fun i => inode_data i (n_fs n)) <$> fs_names (n_fs n) !! path in
    let opened := match call (n_kernel n) with (_, Sys _) => true | _ => false end in
    let '(k, r) := openLocalFile path true existing (n_kernel n) in
    Done (match r with
          | Ret f => Ret (f, i)
          | Throw e => Throw e
          | Abort => Abort
          end)
      (set_fs (if opened then set_inode i [] fs else n_fs n) k n).

(** [GEDSAbstractFileHandle<LocalFile>::factory] *)
Definition local_factory (bucket key : str) (metadataArg pathArg : option str) :
    M W X K T (StatusOr nat) :=
  let* path := match pathArg with Some p => ret p | None => node_getLocalPath bucket key end in
  let* dirStatus := fs_mkdir (remove_filename path) in
  if negb (ok dirStatus) then ret (from_status dirStatus) else
  let* r := new_LocalFile path in
  match r with
  | Ret (f, i) =>
      let* h := new_handle (newHandle bucket key metadataArg (KLocal (with_data [] f) i false)) in
      ret (Value h)
  | Throw (runtime_error e) => ret (Error (UnknownError e))
  | _ => fun _ => Crash
  end.

(** An operation of the local file behind a handle, on the bytes of its inode. *)
Definition local_update {A} (h : nat) (op : LocalFile -> K -> option (LocalFile * K * A)) : M W X K T A :=
  fun n =>
    match n_heap n !! h with
    | Some x =>
        match h_kind x with
        | KLocal f i sealed =>
            match op (with_data (inode_data i (n_fs n)) f) (n_kernel n) with
            | Some (f, k, a) =>
                Done a (set_fs (set_inode i (lf_data f) (n_fs n)) k
                          (set_heap (<[h := with_kind (KLocal (with_data [] f) i sealed) x]> (n_heap n))
                             (n_next n) n))
            | None => NoFuel
            end
        | _ => Crash
        end
    | None => Crash
    end.

Definition local_readBytes (h : nat) (position length : Z) : M W X K T (StatusOr (Z * str)) :=
  local_update h (fun f k => match lf_readBytes fuel f position length k with
                             | Some (k, r) => Some (f, k, r)
                             | None => None
                             end).

Definition local_writeBytes (h : nat) (bytes : str) (position length : Z) : M W X K T Status :=
  local_update h (fun f k => lf_writeBytes fuel f bytes position length k).

(** [write(stream, position, length)]: the result of the file's [write] is not
    passed on. *)
Definition local_write (h : nat) (stream : list str) (position : Z) (lengthOpt : option Z) :
    M W X K T Status :=
  let* _ := local_update h (fun f k => match lf_write fuel fuel f stream position lengthOpt k with
                                       | Some (f, k, _, r) => Some (f, k, r)
                                       | None => None
                                       end) in
  ret OkStatus.

Definition local_truncate (h : nat) (targetSize : Z) : M W X K T Status :=
  local_update h (fun f k => Some (lf_truncate f targetSize k)).

(** [seal()] of a local handle: the first time the object is created, later it
    is updated. *)
Definition local_seal (h : nat) : M W X K T Status :=
  let* x := the_handle h in
  match h_kind x with
  | KLocal f i sealed =>
      let* status := geds_seal x sealed (lf_size f) None in
      (if ok status then update_handle h (with_kind (KLocal f i true)) else ret tt) ;;
      ret status
  | _ => fun _ => Crash
  end.

(** ** S3 file handles *)

Definition s3_location (s3Bucket s3Key : str) : str := "s3://" ++ s3Bucket ++ "/" ++ s3Key.

(** The constructor without a size asks the endpoint; its exception is caught
    by the factories. *)
Definition new_s3_handle (bucket key : str) (metadataArg : option str) (s3Bucket s3Key : str) :
    M W X K T (StatusOr nat) :=
  let* sizeStatus := s3_call s3Bucket (s3_fileStatus s3Bucket s3Key) in
  match sizeStatus with
  | Error st => ret (Error st)
  | Value fi =>
      let* h := new_handle (newHandle bucket key metadataArg (KS3 s3Bucket s3Key (fs_size fi))) in
      ret (Value h)
  end.

(** What both factories do once the place of the object is known. *)
Definition s3_factory_at (bucket key : str) (metadataArg : option str) (s3Bucket s3Key : str) :
    M W X K T (StatusOr nat) :=
  let* s3Endpoint := getS3Endpoint s3Bucket in
  match s3Endpoint with
  | Error st => ret (Error st)
  | Value _ =>
      let* exists_ := s3_call s3Bucket (s3_fileStatus s3Bucket s3Key) in
      match exists_ with
      | Error st => ret (Error st)
      | Value _ => new_s3_handle bucket key metadataArg s3Bucket s3Key
      end
  end.

(** [factory(gedsService, bucket, key, metadata)] *)
Definition s3_factory (bucket key : str) (metadataArg : option str) : M W X K T (StatusOr nat) :=
  s3_factory_at bucket key metadataArg bucket key.

(** Splitting an [s3://bucket/key] location. *)
Definition parse_s3_location (location : str) : StatusOr (str * str) :=
  let prefix : str := "s3://" in
  if negb (starts_with prefix location) then
    Error (UnknownError ("Object location has invalid prefix for S3 FileHandle: " ++ location ++
                         " expected '" ++ prefix ++ "' as prefix."))
  else
    match find_from "/" (length prefix) location with
    | None => Error (UnknownError (location ++ " invalid! Expected format: " ++ prefix ++ "bucket/path"))
    | Some splitpos =>
        Value (take (splitpos - length prefix) (drop (length prefix) location),
               drop (S splitpos) location)
    end.

(** [factory(gedsService, object)] *)
Definition s3_factory_object (o : Object) : M W X K T (StatusOr nat) :=
  match parse_s3_location (location (info o)) with
  | Error st => ret (Error st)
  | Value (s3Bucket, s3Key) =>
      s3_factory_at (bucket (id o)) (key (id o)) (metadata (info o)) s3Bucket s3Key
  end.

(** [readBytes]: any error makes the handle invalid for good. *)
Definition s3fh_readBytes (h : nat) (x : Handle) (s3Bucket s3Key : str) (position length : Z) :
    M W X K T (StatusOr (Z * str)) :=
  if negb (h_isValid x) then ret (Error (NotFoundError "The file is no longer valid!")) else
  let* status := s3_loop s3Bucket (s3_readBytes fuel s3Bucket s3Key position length) in
  (if negb (is_ok status) || code_is kNotFound (status_of status)
   then update_handle h (with_valid false) else ret tt) ;;
  ret status.

(** [seal()] *)
Definition s3fh_seal (x : Handle) (s3Bucket s3Key : str) (size : Z) : M W X K T Status :=
  geds_seal x false size (Some (s3_location s3Bucket s3Key)).

(** ** Remote file handles *)

(** [GEDSRemoteFileHandle::factory] *)
Definition remote_factory (o : Object) : M W X K T (StatusOr nat) :=
  let prefix : str := "geds://" in
  let loc := location (info o) in
  if negb (starts_with prefix loc) then
    ret (Error (InternalError ("Location has invalid prefix for GEDSRemoteFileHandle passed: " ++ loc)))
  else
    let hostname := drop (length prefix) loc in
    if (length hostname =? 0)%nat then ret (Error (UnknownError "Invalid hostname")) else
    let* fts := getFileTransferService hostname in
    match fts with
    | Error st => ret (Error st)
    | Value fts =>
        let* h := new_handle (newHandle (bucket (id o)) (key (id o)) (metadata (info o))
                                (KRemote fts (info o))) in
        ret (Value h)
    end.

Definition remote_readBytes (x : Handle) (hostname : str) (position length : Z) :
    M W X K T (StatusOr (Z * str)) :=
  if length =? 0 then ret (Value (0, [])) else
  fun n =>
    match ft_read hostname (h_bucket x) (h_key x) position length (n_transfers n) with
    | Some (t, Ret read) => Done read (set_fileTransfers (n_fileTransfers n) t n)
    | Some (_, _) => Crash
    | None => NoFuel
    end.

(** ** Creating and deleting objects *)

(** [GEDS::createAsFileHandle]: the new handle, and with it the local file, is
    created before the map of handles is consulted. *)
Definition createAsFileHandle (bucket key : str) (overwrite : bool) : M W X K T (StatusOr nat) :=
  running (
    let check := isValid bucket key in
    if negb (ok check) then ret (from_status check) else
    let* bucketStatus := geds_createBucket bucket in
    if negb (ok bucketStatus) then ret (from_status bucketStatus) else
    let path := getPath bucket key in
    let* handle := local_factory bucket key None None in
    match handle with
    | Error st => ret (Error st)
    | Value h =>
        if overwrite then
          let* old := gets (fun n => cm_get path (n_fileHandles n)) in
          modify (fun n => set_fileHandles (insertOrReplace path h (n_fileHandles n)) n) ;;
          match old with Some o => drop_ref o | None => ret tt end ;;
          ret (Value h)
        else
          let* r := gets (fun n => insertOrExists path h (n_fileHandles n)) in
          modify (set_fileHandles (fst r)) ;;
          if bool_decide (snd r <> h) then
            drop_ref h ;;
            ret (Error (AlreadyExistsError ("The file " ++ name path ++ "already exists!")))
          else ret (Value (snd r))
    end).

(** [GEDS::deleteObject]; a failure to delete on S3 is only logged. *)
Definition geds_deleteObject (bucket key : str) : M W X K T Status :=
  let* status := md_call (client_deleteObject bucket key) in
  if negb (ok status) && negb (code_is kNotFound status) then ret status else
  let* storeStatus := gets (fun n => stores_get bucket (n_objectStores n)) in
  (if is_ok storeStatus && negb (starts_with CacheBlockMarker key)
   then let* _ := s3_call bucket (s3_deleteObject bucket key) in ret tt
   else ret tt) ;;
  let path := getPath bucket key in
  let* old := gets (fun n => cm_get path (n_fileHandles n)) in
  modify (fun n => set_fileHandles (fst (cm_remove path (n_fileHandles n))) n) ;;
  match old with Some o => drop_ref o | None => ret tt end ;;
  ret OkStatus.

(** ** Sizes and metadata *)

(** What the classes other than the relocatable wrapper answer. *)
Definition base_size (x : Handle) : option Z :=
  match h_kind x with
  | KLocal f _ _ => Some (lf_size f)
  | KRemote _ info => Some (osize info)
  | KS3 _ _ size => Some size
  | KCached _ remoteSize _ _ => Some remoteSize
  | KReloc _ => None
  end.

(** The handle a virtual call ends up at: a relocatable handle passes it to the
    handle it wraps. A wrapper never wraps another wrapper. *)
Definition resolve (h : nat) : M W X K T (nat * Handle) :=
  let* x := the_handle h in
  match h_kind x with
  | KReloc inner => let* y := the_handle inner in ret (inner, y)
  | _ => ret (h, x)
  end.

Definition h_size (h : nat) : M W X K T (StatusOr Z) :=
  let* r := resolve h in
  match base_size (snd r) with Some n => ret (Value n) | None => fun _ => Crash end.

Definition h_metadata_of (h : nat) : M W X K T (option str) :=
  let* r := resolve h in ret (h_metadata (snd r)).

(** ** Cached file handles *)

(** The constructor: opens the remote handle and keeps one entry per block. *)
Definition new_cached_handle (bucket key : str) (metadataArg : option str) (remote : nat) :
    M W X K T nat :=
  let* blockSize := gets (fun n => cacheBlockSize (n_config n)) in
  let* _ := h_open remote in
  let* remoteSize := h_size remote in
  let remoteSize := value_or 0 remoteSize in
  new_handle (newHandle bucket key metadataArg
                (KCached remote remoteSize blockSize
                   (replicate (Z.to_nat (remoteSize / blockSize + 1)) None))).

(** [factory<GEDSS3FileHandle>(gedsService, object)] *)
Definition cached_factory (o : Object) : M W X K T (StatusOr nat) :=
  let* remoteFH := s3_factory_object o in
  match remoteFH with
  | Error st => ret (Error st)
  | Value r =>
      let* h := new_cached_handle (bucket (id o)) (key (id o)) (metadata (info o)) r in
      ret (Value h)
  end.

(** ** Opening objects *)

(** The dispatch on the location of an object. *)
Definition handle_for (o : Object) : M W X K T (StatusOr nat) :=
  let loc := location (info o) in
  if starts_with "geds://" loc then remote_factory o
  else if starts_with "s3://" loc then
    let* cached := gets (fun n => cache_objects_from_s3 (n_config n)) in
    if cached then cached_factory o else s3_factory_object o
  else ret (Error (UnknownError ("The remote location format " ++ loc ++ " is not known."))).

(** Whether the location has one of the two known formats; if not,
    [reopenFileHandle] returns at once. *)
Definition known_location (loc : str) : bool := starts_with "geds://" loc || starts_with "s3://" loc.

(** [GEDS::reopenFileHandle(bucket, key, true)] *)
Definition reopen_invalidating (bucket key : str) : M W X K T (StatusOr nat) :=
  let* status_file := md_call (client_lookup bucket key true) in
  match status_file with
  | Error st => ret (Error st)
  | Value o => handle_for o
  end.

(** [GEDS::reopenFileHandle(bucket, key, invalidate)]: a failure with a cached
    location is tried again with the server's. *)
Definition reopenFileHandle (bucket key : str) (invalidate : bool) : M W X K T (StatusOr nat) :=
  if invalidate then reopen_invalidating bucket key else
  let* status_file := md_call (client_lookup bucket key false) in
  match status_file with
  | Error st => ret (Error st)
  | Value o =>
      if negb (known_location (location (info o))) then handle_for o else
      let* fileHandle := handle_for o in
      match fileHandle with
      | Error _ => reopen_invalidating bucket key
      | Value h => ret (Value h)
      end
  end.

(** [GEDS::openAsFileHandle]; a wrapper that is not entered is destroyed. *)
Definition openAsFileHandle (bucket key : str) : M W X K T (StatusOr nat) :=
  running (
    let path := getPath bucket key in
    let check := isValid bucket key in
    if negb (ok check) then ret (from_status check) else
    let* existing := gets (fun n => cm_get path (n_fileHandles n)) in
    match existing with
    | Some h => ret (Value h)
    | None =>
        let* fileHandle := reopenFileHandle bucket key false in
        match fileHandle with
        | Error st => ret (Error st)
        | Value fh =>
            let* wrapped := new_handle (newHandle bucket key None (KReloc fh)) in
            let* r := gets (fun n => insertOrExists path wrapped (n_fileHandles n)) in
            modify (set_fileHandles (fst r)) ;;
            (if bool_decide (snd r <> wrapped) then drop_ref wrapped else ret tt) ;;
            ret (Value (snd r))
        end
    end).

(** [_fileHandles.removeIf(path, check == handle)], and the reference the map
    gives up. *)
Definition forget (path : Path) (h : nat) : M W X K T unit :=
  let* r := gets (fun n => removeIf path (fun c => bool_decide (h = c)) (n_fileHandles n)) in
  modify (set_fileHandles (fst r)) ;;
  (if snd r then drop_ref h else ret tt).

(** One round of [GEDS::open(bucket, key)]: the file, or the status of a failed
    lookup, or nothing when the handle was invalid and has been removed. *)
Definition open_once (bucket key : str) : M W X K T (StatusOr nat + unit) :=
  let* fh := openAsFileHandle bucket key in
  match fh with
  | Error st => ret (inl (Error st))
  | Value h =>
      let* x := the_handle h in
      if h_isValid x then
        modify (fun n => set_filesOpened (u64 (n_filesOpened n + 1)) n) ;;
        let* f := h_open h in ret (inl (Value f))
      else forget (getPath bucket key) h ;; ret (inr tt)
  end.

(** [GEDS::open(bucket, key, retry)] *)
Definition geds_open (bucket key : str) (retry : bool) : M W X K T (StatusOr nat) :=
  let invalid : StatusOr nat :=
    Error (UnavailableError ("The file " ++ name (getPath bucket key) ++ " is invalid.")) in
  let* r := open_once bucket key in
  match r with
  | inl r => ret r
  | inr _ =>
      if retry then
        let* r := open_once bucket key in
        match r with inl r => ret r | inr _ => ret invalid end
      else ret invalid
  end.

(** [GEDS::reopen(existing)] *)
Definition geds_reopen (existing : nat) : M W X K T (StatusOr nat) :=
  running (
    let* x := the_handle existing in
    forget (getPath (h_bucket x) (h_key x)) existing ;;
    openAsFileHandle (h_bucket x) (h_key x)).

(** ** Writing, truncating and sealing *)

Definition h_writeBytes (h : nat) (bytes : str) (position length : Z) : M W X K T Status :=
  let* r := resolve h in
  match h_kind (snd r) with
  | KLocal _ _ _ => local_writeBytes (fst r) bytes position length
  | _ => ret (UnavailableError "Write operation is not available.")
  end.

Definition h_write (h : nat) (stream : list str) (position : Z) (lengthOpt : option Z) :
    M W X K T Status :=
  let* r := resolve h in
  match h_kind (snd r) with
  | KLocal _ _ _ => local_write (fst r) stream position lengthOpt
  | _ => ret (UnavailableError "Write is not available.")
  end.

Definition h_truncate (h : nat) (targetSize : Z) : M W X K T Status :=
  let* r := resolve h in
  match h_kind (snd r) with
  | KLocal _ _ _ => local_truncate (fst r) targetSize
  | _ => ret (UnavailableError "Truncate is not available.")
  end.

(** [seal()] of the classes other than the wrapper; a cached handle passes it to
    its remote handle. *)
Definition base_seal (h : nat) (x : Handle) : M W X K T Status :=
  match h_kind x with
  | KLocal _ _ _ => local_seal h
  | KRemote _ _ => ret (FailedPreconditionError "Remote files cannot be sealed!")
  | KS3 b k size => s3fh_seal x b k size
  | _ => fun _ => Crash
  end.

Definition h_seal (h : nat) : M W X K T Status :=
  let* r := resolve h in
  match h_kind (snd r) with
  | KCached remote _ _ _ => let* y := the_handle remote in base_seal remote y
  | _ => base_seal (fst r) (snd r)
  end.

Definition h_setMetadata (h : nat) (m : option str) (seal : bool) : M W X K T Status :=
  let* r := resolve h in
  match h_kind (snd r) with
  | KLocal _ _ _ =>
      update_handle (fst r) (with_metadata m) ;;
      if seal then local_seal (fst r) else ret OkStatus
  | _ => ret (UnavailableError "Cannot set metadata on read-only file.")
  end.

Definition h_isWriteable (h : nat) : M W X K T bool :=
  let* r := resolve h in
  ret (match h_kind (snd r) with KLocal _ _ _ => true | _ => false end).

(** [rawFd()]: only local files have a descriptor; it is synchronised first. *)
Definition h_rawFd (h : nat) : M W X K T (StatusOr Z) :=
  let* r := resolve h in
  match h_kind (snd r) with
  | KLocal f _ _ =>
      let* s := local_update (fst r) (fun f k => match lf_fsync fuel f k with
                                                 | Some (k, st) => Some (f, k, st)
                                                 | None => None
                                                 end) in
      if negb (ok s) then ret (from_status s) else ret (lf_rawFd f)
  | _ => ret (Error (UnavailableError "rawFDs are not supported for this FileHandle type!"))
  end.

(** [isValid()] and [isRelocatable()] are those of the handle itself. *)
Definition h_isRelocatable (x : Handle) : bool :=
  match h_kind x with
  | KLocal _ _ _ | KCached _ _ _ _ | KReloc _ => true
  | KRemote _ _ | KS3 _ _ _ => false
  end.

(** [localStorageSize()]: the blocks of a cached handle are local files, or
    wrappers of handles without local storage. *)
Definition base_localStorageSize (x : Handle) : Z :=
  match h_kind x with
  | KLocal f _ _ => lf_size f
  | _ => 0
  end.

Definition resolved (heap : gmap nat Handle) (h : nat) : option Handle :=
  match heap !! h with
  | Some x => match h_kind x with KReloc inner => heap !! inner | _ => Some x end
  | None => None
  end.

Definition block_storage (heap : gmap nat Handle) (b : option nat) : Z :=
  match b ≫= resolved heap with Some x => base_localStorageSize x | None => 0 end.

Definition h_localStorageSize (heap : gmap nat Handle) (h : nat) : Z :=
  match resolved heap h with
  | Some x =>
      match h_kind x with
      | KCached _ _ _ blocks => foldr (fun b r => u64 (block_storage heap b + r)) 0 blocks
      | _ => base_localStorageSize x
      end
  | None => 0
  end.
End handles.
