(* ===== verification/HandleIO.v ===== *)
(** * Reading and moving file contents

    [readBytes], [downloadRange] and [relocate] of the file handles
    (src/src/libgeds/GEDSCachedFileHandle.cpp, GEDSRelocatableFileHandle.cpp,
    GEDSS3FileHandle.cpp, GEDSAbstractFileHandle.h), which call each other
    through the handles a handle holds. *)

From Stdlib Require Import Ascii ZArith Lia.
From stdpp Require Import base gmap sets list strings numbers.
From S2P Require Import Prelude Bytes Decimal Status StdMap Path Object FileSet MDSKVS S3Endpoint.
From S2P Require Import MetadataService LocalFile ConcurrentMap GedsNames FileHandle Node Handles.

Open Scope Z_scope.
Open Scope list_scope.

Section io.
Context {W X K T : Type} `{MDStub W} `{S3Client X} `{Kernel K} `{Transfers T}.
Context (fuel : nat).

(** ** The copying loops on a process *)

(** The loops of FileHandle.v run on a computation's outcome; once it has failed
    nothing more happens. *)
Definition gone : Status := InternalError "terminated".

Definition lift {A} (dead : A) (m : M W X K T A) (s : run W X K T unit) : run W X K T unit * A :=
  match s with
  | Done _ n =>
      match m n with
      | Done a n => (Done tt n, a)
      | Crash => (Crash, dead)
      | NoFuel => (NoFuel, dead)
      end
  | Crash => (Crash, dead)
  | NoFuel => (NoFuel, dead)
  end.

Definition lower {A} (r : option (run W X K T unit * A)) : run W X K T A :=
  match r with
  | None => NoFuel
  | Some (Done _ n, a) => Done a n
  | Some (Crash, _) => Crash
  | Some (NoFuel, _) => NoFuel
  end.

Definition copy_io (rd : Z -> Z -> M W X K T (StatusOr (Z * str))) (dst : nat) :
    FileIO (run W X K T unit) := {|
  src_read pos n := lift (Error gone) (rd pos n);
  dst_write bytes pos := lift gone (h_writeBytes fuel dst bytes pos (len bytes))
|}.

(** [GEDSFileHandle::downloadRange], with the source's [readBytes]. *)
Definition base_downloadRange (rd : Z -> Z -> M W X K T (StatusOr (Z * str))) (same : bool)
    (dst : nat) (srcPosition length destPosition : Z) : M W X K T (StatusOr Z) :=
  fun n => lower (@downloadRange _ (copy_io rd dst) (cacheBlockSize (n_config n)) fuel same
                    srcPosition length destPosition (Done tt n)).

(** [GEDSS3FileHandle::downloadRange]: reads the object named like the GEDS object
    from the endpoint. *)
Definition s3fh_downloadRange (x : Handle) (s3Bucket : str) (dst : nat)
    (srcPosition length destPosition : Z) : M W X K T (StatusOr Z) :=
  let* count := s3_call s3Bucket (s3_read (h_bucket x) (h_key x) (Some srcPosition) (Some length)) in
  match count with
  | Error st => ret (Error st)
  | Value (count, bytes) =>
      let* writeStatus := h_write fuel dst [bytes] destPosition (Some count) in
      if negb (ok writeStatus) then ret (from_status writeStatus) else ret (Value count)
  end.

(** ** Cached reads *)

(** Replacing an entry of [_blocks]. *)
Definition set_block (h idx : nat) (b : option nat) : M W X K T unit :=
  update_handle h (fun x =>
    match h_kind x with
    | KCached r rs bs blocks => with_kind (KCached r rs bs (<[idx := b]> blocks)) x
    | _ => x
    end).

Definition cache_key (x : Handle) (idx : nat) : str :=
  CacheBlockMarker ++ h_key x ++ "_" ++ to_string (Z.of_nat idx).

(** [openBlock]: a copy of the block's file, which is created and filled from
    the remote handle when it is not there. *)
Definition openBlock (h idx : nat) : M W X K T (StatusOr nat) :=
  let* x := the_handle h in
  match h_kind x with
  | KCached remote _ blockSize blocks =>
      match blocks !! idx with
      | None => fun _ => Crash
      | Some (Some b) => let* f := h_open b in ret (Value f)
      | Some None =>
          let* existing := geds_open (h_bucket x) (cache_key x idx) true in
          match existing with
          | Value b => set_block h idx (Some b) ;; let* f := h_open b in ret (Value f)
          | Error _ =>
              let* newFile := createAsFileHandle (h_bucket x) (cache_key x idx) false in
              match newFile with
              | Error st => ret (Error st)
              | Value nf =>
                  let* y := the_handle remote in
                  let* copyStatus :=
                    match h_kind y with
                    | KS3 s3Bucket _ _ =>
                        s3fh_downloadRange y s3Bucket nf (u64 (blockSize * Z.of_nat idx)) blockSize 0
                    | _ => fun _ => Crash
                    end in
                  match copyStatus with
                  | Error st => ret (Error st)
                  | Value _ =>
                      let* f := h_open nf in
                      let* b := h_open nf in
                      set_block h idx (Some b) ;;
                      let* _ := h_seal nf in
                      let* r := h_open b in
                      close f ;;
                      ret (Value r)
                  end
              end
          end
      end
  | _ => fun _ => Crash
  end.

(** [purgeBlock]: unless the entry was replaced in the meantime, the block is
    dropped and its object deleted. *)
Definition purgeBlock (h idx file : nat) : M W X K T unit :=
  let* x := the_handle h in
  match h_kind x with
  | KCached _ _ _ blocks =>
      match blocks !! idx with
      | Some (Some e) =>
          if bool_decide (e = file) then
            let* y := the_handle file in
            set_block h idx None ;; close e ;;
            let* _ := geds_deleteObject (h_bucket y) (h_key y) in ret tt
          else ret tt
      | _ => ret tt
      end
  | _ => fun _ => Crash
  end.

(** Reading one block, with [retries] further attempts. *)
Fixpoint read_block (rd : nat -> Z -> Z -> M W X K T (StatusOr (Z * str))) (retries : nat)
    (h idx : nat) (offset expectedCount : Z) : M W X K T (StatusOr (Z * str)) :=
  let* fileBlock := openBlock h idx in
  match fileBlock with
  | Error st => ret (Error st)
  | Value file =>
      let* copyCount := rd file offset expectedCount in
      match copyCount with
      | Value r => close file ;; ret (Value r)
      | Error st =>
          match retries with
          | O => close file ;; ret (Error st)
          | S retries => purgeBlock h idx file ;; close file ;; read_block rd retries h idx offset expectedCount
          end
      end
  end.

Definition MAX_RETRIES : nat := 1.

(** The loop over the blocks; [blocks] are left, [count] bytes are read. *)
Fixpoint blocks_loop (rb : nat -> Z -> Z -> M W X K T (StatusOr (Z * str))) (blockSize position length : Z)
    (blocks idx : nat) (count : Z) (bytes : str) : M W X K T (StatusOr (Z * str)) :=
  match blocks with
  | O => ret (Value (count, bytes))
  | S blocks =>
      let expectedCount := Z.min (u64 (length - count)) blockSize in
      let* copyCount := rb idx (u64 (position + count) mod blockSize) expectedCount in
      match copyCount with
      | Error st => ret (Error st)
      | Value (n, data) =>
          blocks_loop rb blockSize position length blocks (S idx) (u64 (count + n)) (bytes ++ data)
      end
  end.

(** [GEDSCachedFileHandle::readBytes] *)
Definition cached_readBytes (rd : nat -> Z -> Z -> M W X K T (StatusOr (Z * str))) (h : nat)
    (remoteSize blockSize position length : Z) : M W X K T (StatusOr (Z * str)) :=
  if (remoteSize <=? position) || (length =? 0) then ret (Value (0, [])) else
  let length := Z.min length (u64 (remoteSize - position)) in
  let startBlock := position / blockSize in
  let endBlock := u64 (position + length) / blockSize in
  blocks_loop (read_block rd MAX_RETRIES h) blockSize position length
    (Z.to_nat (endBlock - startBlock + 1)) (Z.to_nat startBlock) 0 [].

(** ** Relocatable reads *)

(** [GEDSRelocatableFileHandle::readBytes]: after a failed read the object is
    looked up again and the wrapped handle replaced. *)
Definition reloc_readBytes (rd : nat -> Z -> Z -> M W X K T (StatusOr (Z * str))) (h : nat)
    (position length : Z) : M W X K T (StatusOr (Z * str)) :=
  let* x := the_handle h in
  match h_kind x with
  | KReloc oldFh =>
      let* success := rd oldFh position length in
      match success with
      | Value r => ret (Value r)
      | Error _ =>
          let* x := the_handle h in
          match h_kind x with
          | KReloc cur =>
              if bool_decide (cur <> oldFh) then rd cur position length else
              let* newFh := reopenFileHandle (h_bucket x) (h_key x) true in
              match newFh with
              | Error st => ret (Error st)
              | Value fh =>
                  update_handle h (with_kind (KReloc fh)) ;; drop_ref cur ;;
                  rd fh position length
              end
          | _ => fun _ => Crash
          end
      end
  | _ => fun _ => Crash
  end.

(** [readBytes] of every class; [depth] bounds the nesting of handles. *)
Fixpoint h_readBytes (depth : nat) (h : nat) (position length : Z) : M W X K T (StatusOr (Z * str)) :=
  match depth with
  | O => fun _ => NoFuel
  | S depth =>
      let* x := the_handle h in
      match h_kind x with
      | KLocal _ _ _ => local_readBytes fuel h position length
      | KRemote host _ => remote_readBytes x host position length
      | KS3 b k _ => s3fh_readBytes fuel h x b k position length
      | KCached _ rs bs _ => cached_readBytes (h_readBytes depth) h rs bs position length
      | KReloc _ => reloc_readBytes (h_readBytes depth) h position length
      end
  end.

(** Nesting: a wrapper, a cached handle, the wrapper of a block and its handle. *)
Definition DEPTH : nat := 5.

Definition gf_readBytes (h : nat) (position length : Z) : M W X K T (StatusOr (Z * str)) :=
  h_readBytes DEPTH h position length.

(** [downloadRange] of every class *)
Definition h_downloadRange (h dst : nat) (srcPosition length destPosition : Z) :
    M W X K T (StatusOr Z) :=
  let* x := the_handle h in
  match h_kind x with
  | KS3 b _ _ => s3fh_downloadRange x b dst srcPosition length destPosition
  | _ => base_downloadRange (gf_readBytes h) (bool_decide (h = dst)) dst srcPosition length destPosition
  end.

(** The rounds of [download]. *)
Fixpoint h_download_loop (rounds : nat) (h dst : nat) (totalSize pos : Z) : M W X K T Status :=
  match rounds with
  | O => fun _ => NoFuel
  | S rounds =>
      let* bs := gets (fun n => cacheBlockSize (n_config n)) in
      let* count := h_downloadRange h dst pos (Z.min bs (u64 (totalSize - pos))) pos in
      match count with
      | Error st => ret st
      | Value count =>
          let pos := u64 (pos + count) in
          if pos <? totalSize then h_download_loop rounds h dst totalSize pos else ret OkStatus
      end
  end.

(** [download], and [GEDSFile::copyTo] *)
Definition h_download (h dst : nat) : M W X K T Status :=
  let* totalSize := h_size h in
  match totalSize with
  | Error st => ret st
  | Value totalSize => h_download_loop fuel h dst totalSize 0
  end.

(** ** Relocation *)

(** [GEDSAbstractFileHandle::relocate]: the contents are read through the name of
    the local file. A name that no longer exists gives an empty stream. *)
Definition local_relocate (h : nat) : M W X K T (StatusOr nat) :=
  let* x := the_handle h in
  match h_kind x with
  | KLocal f i _ =>
      if negb (h_isValid x) then
        ret (Error (UnavailableError ("The file " ++ identifier x ++ " is no longer valid!")))
      else if 0 <? h_openCount x then
        ret (Error (UnavailableError ("Unable to relocate " ++ identifier x ++
                                      " reason: The file is still in use.")))
      else
        let* s3Endpoint := getS3Endpoint (h_bucket x) in
        if negb (is_ok s3Endpoint) then
          ret (Error (UnavailableError ("Unable to relocate " ++ identifier x ++
                                        " reason: No tier configured for " ++ h_bucket x)))
        else
          let* syncStatus := local_update h (fun f k => match lf_fsync fuel f k with
                                                        | Some (k, st) => Some (f, k, st)
                                                        | None => None
                                                        end) in
          if negb (ok syncStatus) then ret (from_status syncStatus) else
          let* stream := gets (fun n => match fs_names (n_fs n) !! lf_path f with
                                        | Some i => inode_data i (n_fs n)
                                        | None => []
                                        end) in
          let* s3Put := s3_call (h_bucket x) (s3_putObject (h_bucket x) (h_key x) stream (Some (lf_size f))) in
          if negb (ok s3Put) then
            ret (Error (UnknownError ("Unable to relocate " ++ identifier x ++ " to s3: Reason " ++
                                      message s3Put)))
          else
            let* fh := s3_factory (h_bucket x) (h_key x) (h_metadata x) in
            match fh with
            | Error st => ret (Error st)
            | Value s =>
                let* y := the_handle s in
                let* status := base_seal s y in
                if negb (ok status) then
                  let* _ := s3_call (h_bucket x) (s3_deleteObject (h_bucket x) (h_key x)) in
                  drop_ref s ;;
                  ret (from_status status)
                else
                  update_handle h (with_valid false) ;;
                  ret (Value s)
            end
  | _ => fun _ => Crash
  end.

(** [GEDSCachedFileHandle::relocate]: drops the blocks that use local storage. *)
Fixpoint purge_blocks (blocks idx h : nat) : M W X K T unit :=
  match blocks with
  | O => ret tt
  | S blocks =>
      let* x := the_handle h in
      match h_kind x with
      | KCached _ _ _ bs =>
          match bs !! idx with
          | Some (Some b) =>
              let* y := the_handle b in
              let* size := gets (fun n => h_localStorageSize (n_heap n) b) in
              (if negb (size =? 0) then
                 let* _ := geds_deleteObject (h_bucket y) (h_key y) in
                 set_block h idx None ;; close b
               else ret tt)
          | _ => ret tt
          end ;;
          purge_blocks blocks (S idx) h
      | _ => fun _ => Crash
      end
  end.

Definition base_relocate (h : nat) : M W X K T (StatusOr nat) :=
  let* x := the_handle h in
  match h_kind x with
  | KLocal _ _ _ => local_relocate h
  | KCached _ _ _ blocks => purge_blocks (length blocks) 0 h ;; ret (Value h)
  | _ => ret (Error (UnavailableError "Relocating is not supported for this file handle type!"))
  end.

(** [relocate] of every class; a wrapper keeps itself and replaces what it wraps. *)
Definition h_relocate (h : nat) : M W X K T (StatusOr nat) :=
  let* x := the_handle h in
  match h_kind x with
  | KReloc inner =>
      let* newFh := base_relocate inner in
      match newFh with
      | Value fh =>
          update_handle h (with_kind (KReloc fh)) ;;
          (if bool_decide (fh <> inner) then drop_ref inner else ret tt)
      | Error _ => ret tt
      end ;;
      ret (Value h)
  | _ => base_relocate h
  end.
End io.
