(* ===== verification/GEDS.v ===== *)
(** * The GEDS service

    The operations of the class [GEDS] (src/src/libgeds/GEDS.cpp) on the state of
    Node.v: creating, opening, listing, copying, renaming, deleting and
    relocating objects, directories, object stores, and the life cycle of the
    service. *)

From Stdlib Require Import Ascii ZArith Lia.
From stdpp Require Import base gmap sets list strings numbers.
From S2P Require Import Prelude Bytes Decimal Status StdMap Path Object FileSet MDSKVS S3Endpoint.
From S2P Require Import MetadataService LocalFile ConcurrentMap GedsNames FileHandle Node Handles HandleIO.

Open Scope Z_scope.
Open Scope list_scope.

Section geds.
Context {W X K T : Type} `{MDStub W} `{S3Client X} `{Kernel K} `{Transfers T}.
Context (fuel : nat).

(** ** Creating *)

Definition geds_create (bucket key : str) (overwrite : bool) : M W X K T (StatusOr nat) :=
  let* result := createAsFileHandle bucket key overwrite in
  match result with
  | Value h =>
      modify (fun n => set_filesCreated (u64 (n_filesCreated n + 1)) n) ;;
      let* f := h_open h in ret (Value f)
  | Error st => ret (Error st)
  end.

(** [create(objectName, overwrite)] and [open(objectName)] *)
Definition create_name (objectName : str) (overwrite : bool) : M W X K T (StatusOr nat) :=
  match parseObjectName objectName with
  | Error st => ret (Error st)
  | Value (bucket, key) => geds_create bucket key overwrite
  end.

Definition open_name (objectName : str) : M W X K T (StatusOr nat) :=
  match parseObjectName objectName with
  | Error st => ret (Error st)
  | Value (bucket, key) => geds_open bucket key true
  end.

(** [localOpen(bucket, key)]: only handles with a descriptor. *)
Definition localOpen (bucket key : str) : M W X K T (StatusOr nat) :=
  running (
    let path := getPath bucket key in
    let* fileHandle := gets (fun n => cm_get path (n_fileHandles n)) in
    let missing : StatusOr nat := Error (NotFoundError (name path ++ " is not available on this machine")) in
    match fileHandle with
    | None => ret missing
    | Some h =>
        let* fd := h_rawFd fuel h in
        if is_ok fd then let* f := h_open h in ret (Value f) else ret missing
    end).

(** [mkdirs]: the recursive calls use the default delimiter. Accessing the file
    of a directory marker that already exists terminates the process. *)
Fixpoint mkdirs (depth : nat) (bucket path : str) (delimiter : ascii) : M W X K T Status :=
  match depth with
  | O => fun _ => NoFuel
  | S depth =>
      if bool_decide (path = []) || bool_decide (path = [delimiter]) then ret OkStatus
      else if bool_decide (list.last path <> Some delimiter)
      then mkdirs depth bucket (path ++ [delimiter]) Default_GEDSFolderDelimiter
      else
        let* mkdir := geds_create bucket (path ++ Default_DirectoryMarker) false in
        match mkdir with
        | Error st => if code_is kAlreadyExists st then fun _ => Crash else ret st
        | Value f =>
            let* status := h_seal f in
            if negb (ok status) && negb (code_is kAlreadyExists status)
            then close f ;; ret status
            else
              let* result :=
                if (2 <=? length path)%nat then
                  match rfind_char delimiter (take (length path - 1) path) with
                  | None => ret OkStatus
                  | Some stripPos => mkdirs depth bucket (take stripPos path) Default_GEDSFolderDelimiter
                  end
                else ret OkStatus in
              close f ;; ret result
        end
  end.

(** ** Listing and status *)

(** The entries [list] collects from a listing of the metadata service. *)
Definition list_files (delimiter : ascii) (objects : list Object) : list GEDSFileStatus :=
  let folderString := delimiter :: Default_DirectoryMarker in
  map (fun o => mkFileStatus (key (id o)) (osize (info o)) false)
    (List.filter (fun o => negb (bool_decide (delimiter <> NUL) && ends_with folderString (key (id o))))
       objects).

Definition list_dirs (prefixes : list str) : list GEDSFileStatus :=
  map (fun p => mkFileStatus p 0 true) prefixes.

Definition emplace_all (xs l : list GEDSFileStatus) : list GEDSFileStatus :=
  fold_left (fun s x => set_emplace file_status_lt x s) xs l.

(** [list(bucket, prefix, delimiter)] *)
Definition geds_list (bucket prefix : str) (delimiter : ascii) : M W X K T (StatusOr (list GEDSFileStatus)) :=
  let* pubSub := gets (fun n => pubSubEnabled (n_config n)) in
  let* list := md_call (if pubSub then listPrefixFromCache bucket prefix delimiter
                        else listPrefix bucket prefix delimiter) in
  match list with
  | Error st => ret (Error st)
  | Value (objects, prefixes) =>
      modify (fun n => set_knownBuckets (cs_insert bucket (n_knownBuckets n)) n) ;;
      let prefixExists := bool_decide (objects <> []) in
      let result := emplace_all (list_dirs prefixes) (emplace_all (list_files delimiter objects) []) in
      if bool_decide (result = []) && bool_decide (delimiter <> NUL) && negb prefixExists
      then ret (Error (NotFoundError ("Prefix not found: " ++ prefix)))
      else ret (Value result)
  end.

(** [list(bucket, prefix)] and [listAsFolder(bucket, prefix)] *)
Definition geds_list_all (bucket prefix : str) := geds_list bucket prefix NUL.
Definition geds_listAsFolder (bucket prefix : str) := geds_list bucket prefix Default_GEDSFolderDelimiter.

(** The local function [listDir] of [status]; the message names the key asked for. *)
Definition status_listDir (bucket key k : str) (delimiter : ascii) : M W X K T (StatusOr GEDSFileStatus) :=
  let* list := md_call (listPrefix bucket k delimiter) in
  if match list with Value (_, prefixes) => bool_decide (prefixes <> []) | Error _ => false end
  then ret (Value (mkFileStatus k 0 true))
  else
    let notFound : StatusOr GEDSFileStatus := Error (NotFoundError ("Key " ++ key ++ " not found!")) in
    let* s3 := gets (fun n => stores_get bucket (n_objectStores n)) in
    if is_ok s3 then
      let* s3Status := s3_call bucket (s3_folderStatus bucket k delimiter) in
      if is_ok s3Status || negb (code_is kNotFound (status_of s3Status)) then ret s3Status
      else ret notFound
    else ret notFound.

(** [status(bucket, key, delimiter)] *)
Definition geds_status (bucket key : str) (delimiter : ascii) : M W X K T (StatusOr GEDSFileStatus) :=
  if bool_decide (key = []) || bool_decide (key = [delimiter]) then
    let* isRegistered := geds_lookupBucket bucket in
    let* store := gets (fun n => stores_get bucket (n_objectStores n)) in
    if ok isRegistered || is_ok store then ret (Value (mkFileStatus key 0 true))
    else ret (Error (NotFoundError "Bucket not found!"))
  else if bool_decide (list.last key = Some delimiter) then status_listDir bucket key key delimiter
  else
    let* obj := md_call (client_lookup bucket key true) in
    match obj with
    | Value o => ret (Value (mkFileStatus key (osize (info o)) false))
    | Error _ =>
        let* s3 := gets (fun n => stores_get bucket (n_objectStores n)) in
        let* s3Status := if is_ok s3 then s3_call bucket (s3_fileStatus bucket key)
                         else ret (Error (NotFoundError [])) in
        if is_ok s3Status then ret s3Status
        else if negb (code_is kNotFound (status_of s3Status)) then ret (Error (status_of s3Status))
        else if bool_decide (delimiter <> NUL) then status_listDir bucket key (key ++ [delimiter]) delimiter
        else ret (Error (NotFoundError ("Key " ++ key ++ " not found!")))
    end.

(** ** Copying and renaming *)

Definition geds_copy (srcBucket srcKey destBucket destKey : str) : M W X K T Status :=
  let* srcFile := geds_open srcBucket srcKey true in
  match srcFile with
  | Error st => ret st
  | Value src =>
      let* destFile := geds_create destBucket destKey false in
      match destFile with
      | Error st => close src ;; ret st
      | Value dst =>
          let* status := h_download fuel src dst in
          let* result := if ok status then h_seal dst else ret status in
          close dst ;; close src ;; ret result
      end
  end.

Definition geds_rename (srcBucket srcKey destBucket destKey : str) : M W X K T Status :=
  let* status := geds_copy srcBucket srcKey destBucket destKey in
  if negb (ok status) then ret status else geds_deleteObject srcBucket srcKey.

(** The loop of [copyPrefix] and [renamePrefix]; [act] is [copy] or [rename]. *)
Fixpoint prefix_loop (act : str -> str -> M W X K T Status) (srcKey destKey : str)
    (elements : list GEDSFileStatus) : M W X K T Status :=
  match elements with
  | [] => ret OkStatus
  | e :: elements =>
      if fs_isDirectory e then prefix_loop act srcKey destKey elements else
      match substr (fs_key e) (length srcKey) None with
      | Ret rest =>
          let* status := act (fs_key e) (destKey ++ rest) in
          if negb (ok status) then ret status else prefix_loop act srcKey destKey elements
      | _ => fun _ => Crash
      end
  end.

Definition on_prefix (act : str -> str -> M W X K T Status) (srcBucket srcKey destKey : str) :
    M W X K T Status :=
  let* prefixList := geds_list_all srcBucket srcKey in
  match prefixList with
  | Error st => ret st
  | Value elements => prefix_loop act srcKey destKey elements
  end.

Definition copyPrefix (srcBucket srcKey destBucket destKey : str) : M W X K T Status :=
  on_prefix (fun k newKey => geds_copy srcBucket k destBucket newKey) srcBucket srcKey destKey.

Definition renamePrefix (srcBucket srcKey destBucket destKey : str) : M W X K T Status :=
  on_prefix (fun k newKey => geds_rename srcBucket k destBucket newKey) srcBucket srcKey destKey.

(** ** Deleting *)

(** Dropping the references of handles that left the map. *)
Fixpoint drop_refs (hs : list nat) : M W X K T unit :=
  match hs with
  | [] => ret tt
  | h :: hs => drop_ref h ;; drop_refs hs
  end.

Definition geds_deleteObjectPrefix (bucket prefix : str) : M W X K T Status :=
  let* status := md_call (client_deleteObjectPrefix bucket prefix) in
  if negb (ok status) && negb (code_is kNotFound status) then ret status else
  let* storeStatus := gets (fun n => stores_get bucket (n_objectStores n)) in
  (if is_ok storeStatus then let* _ := s3_loop bucket (s3_deletePrefix fuel bucket prefix) in ret tt
   else ret tt) ;;
  let* old := gets n_fileHandles in
  modify (fun n => set_fileHandles (removeRange (mkProbe prefix) (n_fileHandles n)) n) ;;
  drop_refs (map snd (List.filter (fun e => hits (mkProbe prefix) (fst e)) old)) ;;
  ret OkStatus.

(** ** Object stores *)

(** The registration of each configuration; failures are only logged. *)
Definition register_all (configs : list ObjectStoreConfig) (m : ObjectStores) : ObjectStores :=
  fold_left (fun m c => fst (registerStore (cfg_bucket c) (cfg_endpointURL c) (cfg_accessKey c)
                               (cfg_secretKey c) m)) configs m.

Definition syncObjectStoreConfigs : M W X K T Status :=
  let* configs := md_call listObjectStoreConfigs in
  match configs with
  | Error st => ret st
  | Value configs =>
      modify (fun n => set_objectStores (register_all configs (n_objectStores n)) n) ;;
      ret OkStatus
  end.

Definition geds_registerObjectStoreConfig (bucket endpointUrl_ accessKey_ secretKey_ : str) :
    M W X K T Status :=
  let* status := md_call (registerObjectStoreConfig (mkConfig bucket endpointUrl_ accessKey_ secretKey_)) in
  if negb (ok status) && negb (code_is kAlreadyExists status) then ret status else
  let* status := geds_createBucket bucket in
  if negb (ok status) then ret status else
  syncObjectStoreConfigs.

(** ** Relocation *)

(** [relocate(handle, force)] *)
Definition relocate_handle (h : nat) (force : bool) : M W X K T unit :=
  let* x := the_handle h in
  let path := getPath (h_bucket x) (h_key x) in
  let* present := gets (fun n => cm_exists path (n_fileHandles n)) in
  if ((0 <? h_openCount x) && negb force) || negb present then ret tt
  else if starts_with CacheBlockMarker (h_key x) then
    let* r := gets (fun n => removeIf path (fun e => bool_decide (h = e) && (h_openCount x =? 0))
                               (n_fileHandles n)) in
    modify (set_fileHandles (fst r)) ;;
    (if snd r then drop_ref h else ret tt)
  else
    let* status := h_relocate fuel h in
    match status with
    | Value fh =>
        let* old := gets (fun n => cm_get path (n_fileHandles n)) in
        modify (fun n => set_fileHandles (insertOrReplace path fh (n_fileHandles n)) n) ;;
        match old with Some o => drop_ref o | None => ret tt end
    | Error _ => ret tt
    end.

(** The tasks of [relocate(relocatable, force)], one after the other. *)
Fixpoint relocate_all (hs : list nat) (force : bool) : M W X K T unit :=
  match hs with
  | [] => ret tt
  | h :: hs =>
      let* x := the_handle h in
      (if h_isValid x then relocate_handle h force else ret tt) ;;
      relocate_all hs force
  end.

(** The handles [relocate(force)] selects. *)
Definition relocatable (force : bool) (n : Node W X K T) : list nat :=
  List.filter
    (fun h => match n_heap n !! h with
              | Some x => ((h_openCount x =? 0) || force) && h_isRelocatable x && h_isValid x
              | None => false
              end)
    (map snd (n_fileHandles n)).

Definition geds_relocate (force : bool) : M W X K T unit :=
  let* hs := gets (relocatable force) in
  if (0 <? length hs)%nat then relocate_all hs force else ret tt.

(** ** Publish/subscribe *)

Definition geds_subscribe (event : SubscriptionEvent) : M W X K T Status :=
  running_status (
    let* enabled := gets (fun n => pubSubEnabled (n_config n)) in
    if negb enabled then ret (FailedPreconditionError "publish/subscribe is not enabled.")
    else md_call (subscribe event)).

Definition geds_unsubscribe (event : SubscriptionEvent) : M W X K T Status :=
  running_status (
    let* enabled := gets (fun n => pubSubEnabled (n_config n)) in
    if negb enabled then ret (FailedPreconditionError "publish/subscribe is not enabled.")
    else md_call (unsubscribe event)).

(** ** Life cycle *)

(** What starting the parts outside the model gives: the channel to the metadata
    service, the transfer server and its port, and whether the hostname is
    configured. *)
Record Boot := mkBoot {
  bt_assertions : bool;
  bt_channel : channel_outcome;
  bt_server : Status;
  bt_port : Z;
  bt_hostname : str
}.

Definition geds_start (b : Boot) : M W X K T Status :=
  fun n =>
    match n_state n with
    | Stopped =>
        let n := set_state Unknown n in
        match connect (bt_assertions b) (bt_channel b) (n_md n) with
        | Ret (c, result) =>
            let n := set_md c (n_mdw n) n in
            if negb (ok result) then Done result n
            else if negb (ok (bt_server b)) then Done (bt_server b) n
            else
              let finish n :=
                let n := set_state Running n in
                match (let* _ := syncObjectStoreConfigs in syncObjectStoreConfigs) n with
                | Done _ n => Done OkStatus n
                | Crash => Crash
                | NoFuel => NoFuel
                end in
              match bt_hostname b with
              | [] =>
                  let '(c, w, hostIP) := getConnectionInformation (n_md n) (n_mdw n) in
                  let n := set_md c w n in
                  match hostIP with
                  | Error st => Done (UnknownError ("Unable to obtain connection IP! Reason: " ++ message st)) n
                  | Value ip => finish (set_hostURI (computeHostUri ip (bt_port b)) n)
                  end
              | host => finish (set_hostURI (computeHostUri host (bt_port b)) n)
              end
        | _ => Crash
        end
    | st => Done (FailedPreconditionError ("The service is " ++ state_name st ++ ".")) n
    end.

(** [stop()]; [relocate] is [force_relocation_when_stopping] and [server] the
    status of stopping the transfer server, which is what the call returns. *)
Definition geds_stop (relocate : bool) (server : Status) : M W X K T Status :=
  running_status (
    (if relocate then geds_relocate true else ret tt) ;;
    let* _ := (fun n => let '(c, st) := disconnect (n_md n) in Done st (set_md c (n_mdw n) n)) in
    let* old := gets n_fileHandles in
    modify (fun n => set_fileHandles (cm_clear (n_fileHandles n)) n) ;;
    drop_refs (map snd old) ;;
    modify (fun n => set_fileTransfers (cm_clear (n_fileTransfers n)) (n_transfers n) n) ;;
    modify (set_state Stopped) ;;
    ret server).
End geds.
