(* ===== verification/GEDSCreate.v ===== *)
(** * Creating, writing and opening objects

    The path of an object through a process: [createAsFileHandle], writing,
    [seal] and [open] (src/src/libgeds/GEDS.cpp, GEDSAbstractFileHandle.h), on the
    definitions of Handles.v, HandleIO.v and GEDS.v, with what happens to the
    local file when an object is created a second time. *)

From Stdlib Require Import Ascii ZArith Lia.
From stdpp Require Import base gmap sets list strings numbers.
From S2P Require Import Prelude Bytes Decimal Status StdMap Path Object FileSet MDSKVS S3Endpoint Rpc.
From S2P Require Import MetadataServer MetadataService LocalFile ConcurrentMap GedsNames FileHandle.
From S2P Require Import Node Handles HandleIO GEDS.

Open Scope Z_scope.
Open Scope list_scope.

#[local] Opaque to_string.

(** ** Well-formed processes *)

(** Every handle that is pointed to has been allocated. *)
Record node_wf {W X K T} (n : Node W X K T) : Prop := {
  nw_handles : sorted (n_fileHandles n);
  nw_map : Forall (fun e => (snd e < n_next n)%nat) (n_fileHandles n);
  nw_heap h x : n_heap n !! h = Some x ->
    (h < n_next n)%nat /\ Forall (fun c => (c < n_next n)%nat) (children x)
}.

(** ** Steps *)

Section steps.
Context {W X K T : Type} `{MDService W} `{S3Client X} `{KernelFair K} `{Transfers T}.
Implicit Types n : Node W X K T.

Lemma set_fs_id n : set_fs (n_fs n) (n_kernel n) n = n.
Proof. by destruct n. Qed.

(** A kernel that has no interruptions left. *)
Lemma call_quiet (k : K) : interrupts k = 0%nat -> exists k', call k = (k', Sys 0) /\ interrupts k' = 0%nat.
Proof.
  intros Hk. pose proof (call_fair k) as Hc. destruct (call k) as [k' [r|e]]; [|destruct Hc; lia].
  destruct Hc as [-> Hi]. exists k'. split; [done|lia].
Qed.

Lemma createBucket_known b n :
  ok (isValidBucketName b) = true -> cs_exists b (n_knownBuckets n) = true ->
  geds_createBucket b n = Done OkStatus n.
Proof.
  intros Hv Hk. unfold geds_createBucket, geds_lookupBucket, bind, gets. rewrite Hv. cbn [negb].
  by rewrite Hk.
Qed.

Lemma isValid_parts b k :
  ok (isValid b k) = true -> ok (isValidBucketName b) = true /\ ok (isValidKeyName k) = true.
Proof.
  unfold isValid. destruct (ok (isValidBucketName b)) eqn:E; simpl; [|congruence].
  destruct (ok (isValidKeyName k)) eqn:E2; simpl; [done|congruence].
Qed.

Lemma mkdir_quiet p n :
  interrupts (n_kernel n) = 0%nat ->
  exists fs k, fs_mkdir p n = Done OkStatus (set_fs fs k n) /\ interrupts k = 0%nat /\
    fs_names fs = fs_names (n_fs n) /\ fs_inodes fs = fs_inodes (n_fs n) /\ fs_next fs = fs_next (n_fs n).
Proof.
  intros Hk. unfold fs_mkdir. case_bool_decide.
  - exists (n_fs n), (n_kernel n). by rewrite set_fs_id.
  - destruct (call_quiet _ Hk) as (k & -> & Hk'). by eexists _, k.
Qed.

(** A new local file: the inode the name refers to, or a new one, is empty. *)
Lemma new_LocalFile_quiet p n :
  interrupts (n_kernel n) = 0%nat ->
  exists k, interrupts k = 0%nat /\
    let '(i, fs) := open_inode p (n_fs n) in
    new_LocalFile p n = Done (Ret (mkLocalFile p 0 0 [], i)) (set_fs (set_inode i [] fs) k n).
Proof.
  intros Hk. unfold new_LocalFile, openLocalFile.
  destruct (call_quiet _ Hk) as (k1 & E1 & Hk1). destruct (call_quiet _ Hk1) as (k2 & E2 & Hk2).
  rewrite E1. cbn iota. rewrite E2. exists k2. split; [done|].
  by destruct (open_inode p (n_fs n)) as [i fs].
Qed.

(** The state after [factory]: the handle is the next one, on an empty inode. *)
Definition created (b k : str) (i : Z) (fs : FileSystem) (names : FileNames) (p : str) (kern : K) n :
    Node W X K T :=
  set_heap (<[n_next n := newHandle b k None (KLocal (mkLocalFile p 0 0 []) i false)]> (n_heap n))
    (S (n_next n)) (set_fs fs kern (set_names names n)).

Lemma local_factory_quiet b k n :
  interrupts (n_kernel n) = 0%nat ->
  let '(names, p) := getLocalPath (n_pathPrefix n) b k (n_names n) in
  exists kern fs, interrupts kern = 0%nat /\
    let i := default (fs_next (n_fs n)) (fs_names (n_fs n) !! p) in
    local_factory b k None None n = Done (Value (n_next n)) (created b k i fs names p kern n) /\
    fs_names fs = <[p := i]> (fs_names (n_fs n)) /\
    fs_inodes fs = <[i := []]> (fs_inodes (n_fs n)) /\
    fs_next fs = fs_next (n_fs n) + (if fs_names (n_fs n) !! p then 0 else 1).
Proof.
  intros Hk. unfold local_factory, bind, node_getLocalPath.
  destruct (getLocalPath (n_pathPrefix n) b k (n_names n)) as [names p].
  destruct (mkdir_quiet (remove_filename p) (set_names names n) Hk) as (fs & k1 & E1 & Hk1 & Hn & Hi & Hx).
  rewrite E1. cbn [ok]. change (ok OkStatus) with true. cbn [negb].
  destruct (new_LocalFile_quiet p (set_fs fs k1 (set_names names n)) Hk1) as (k2 & Hk2 & E2).
  cbn [n_fs set_fs] in E2. destruct (open_inode p fs) as [i fs2] eqn:Eo. rewrite E2.
  cbn [n_fs set_names] in *. unfold open_inode in Eo. rewrite Hn, Hx in Eo.
  exists k2, (set_inode i [] fs2). split; [done|].
  destruct (fs_names (n_fs n) !! p) as [j|] eqn:Ej; injection Eo as <- <-; cbn [default].
  - split; [done|]. cbn [set_inode fs_names fs_inodes fs_next]. rewrite Hi, Hn, insert_id by done.
    split_and!; [done..|lia].
  - split; [done|]. cbn [set_inode fs_names fs_inodes fs_next]. rewrite Hi, insert_insert_eq. done.
Qed.

Lemma mfind_fresh p n : node_wf n -> mfind p (n_fileHandles n) <> Some (n_next n).
Proof.
  intros Hw E. apply mfind_Some in E; [|apply Hw]. pose proof (Forall_elem _ _ _ (nw_map n Hw) E).
  simpl in *. lia.
Qed.

(** Dropping a reference to a handle that is registered changes nothing. *)
Lemma drop_registered q h n :
  sorted (n_fileHandles n) -> mfind q (n_fileHandles n) = Some h -> drop_ref h n = Done tt n.
Proof.
  intros Hs Hq. unfold drop_ref. cbn [release]. destruct (n_heap n !! h) as [y|]; [|done].
  assert (referenced h n = true) as ->; [|done].
  unfold referenced. apply orb_true_iff. left. apply orb_true_iff. left.
  apply existsb_exists. exists (q, h). split; [|by apply bool_decide_eq_true].
  apply list_elem_of_In. by apply mfind_Some.
Qed.

(** ** Creating *)

Lemma create_after b k n n1 :
  geds_createBucket b n = Done OkStatus n1 -> n_state n = Running -> ok (isValid b k) = true ->
  interrupts (n_kernel n1) = 0%nat -> mfind (getPath b k) (n_fileHandles n1) = None ->
  let '(names, p) := getLocalPath (n_pathPrefix n1) b k (n_names n1) in
  exists kern fs, interrupts kern = 0%nat /\
    let i := default (fs_next (n_fs n1)) (fs_names (n_fs n1) !! p) in
    createAsFileHandle b k false n =
      Done (Value (n_next n1))
        (set_fileHandles (massign (getPath b k) (n_next n1) (n_fileHandles n1)) (created b k i fs names p kern n1)) /\
    fs_names fs = <[p := i]> (fs_names (n_fs n1)) /\
    fs_inodes fs = <[i := []]> (fs_inodes (n_fs n1)) /\
    fs_next fs = fs_next (n_fs n1) + (if fs_names (n_fs n1) !! p then 0 else 1).
Proof.
  intros E1 Hr Hv Hk Hf. pose proof (local_factory_quiet b k n1 Hk) as HF.
  destruct (getLocalPath (n_pathPrefix n1) b k (n_names n1)) as [names p].
  destruct HF as (kern & fs & Hk' & E & Hn & Hi). exists kern, fs. split; [done|]. split; [|done].
  unfold createAsFileHandle, running. rewrite Hr, Hv. cbn [negb].
  unfold bind at 1. rewrite E1. change (ok OkStatus) with true. cbn [negb]. unfold bind at 1. rewrite E. cbn iota.
  unfold bind, gets, modify, insertOrExists. cbn [n_fileHandles created set_heap set_fs set_names].
  rewrite Hf. cbn [fst snd]. rewrite bool_decide_false by (intros []; done). done.
Qed.

Lemma create_new b k n :
  node_wf n -> n_state n = Running -> ok (isValid b k) = true ->
  cs_exists b (n_knownBuckets n) = true -> interrupts (n_kernel n) = 0%nat ->
  mfind (getPath b k) (n_fileHandles n) = None ->
  let '(names, p) := getLocalPath (n_pathPrefix n) b k (n_names n) in
  exists kern fs, interrupts kern = 0%nat /\
    let i := default (fs_next (n_fs n)) (fs_names (n_fs n) !! p) in
    createAsFileHandle b k false n =
      Done (Value (n_next n))
        (set_fileHandles (massign (getPath b k) (n_next n) (n_fileHandles n))
           (created b k i fs names p kern n)) /\
    fs_names fs = <[p := i]> (fs_names (n_fs n)) /\
    fs_inodes fs = <[i := []]> (fs_inodes (n_fs n)) /\
    fs_next fs = fs_next (n_fs n) + (if fs_names (n_fs n) !! p then 0 else 1).
Proof.
  intros Hw Hr Hv Hb Hk Hf. apply create_after; try done. apply createBucket_known; [|done]. apply (isValid_parts b k Hv).
Qed.

(** The references to a handle that was just created and not registered. *)
Lemma created_unreferenced b k i fs names p kern n :
  node_wf n -> referenced (n_next n) (created b k i fs names p kern n) = false.
Proof.
  intros [_ Hm Hh]. unfold referenced, created. cbn [n_fileHandles n_heap set_heap set_fs set_names].
  rewrite lookup_insert_eq. cbn [h_openCount newHandle]. rewrite !orb_false_iff. split_and!; [|done|].
  - apply not_true_iff_false. rewrite existsb_exists. intros (e & Hin & He).
    apply bool_decide_eq_true in He. apply list_elem_of_In in Hin.
    pose proof (Forall_elem _ _ _ Hm Hin). simpl in *. lia.
  - apply not_true_iff_false. rewrite existsb_exists. intros ([h x] & Hin & He).
    apply bool_decide_eq_true in He. apply list_elem_of_In, elem_of_map_to_list in Hin. cbn [snd] in He.
    destruct (decide (h = n_next n)) as [->|Hne].
    + rewrite lookup_insert_eq in Hin. simplify_eq. by apply elem_of_nil in He.
    + rewrite lookup_insert_ne in Hin by done. destruct (Hh h x Hin) as [_ Hc].
      pose proof (Forall_elem _ _ _ Hc He). simpl in *. lia.
Qed.

Lemma create_existing b k h n :
  node_wf n -> n_state n = Running -> ok (isValid b k) = true ->
  cs_exists b (n_knownBuckets n) = true -> interrupts (n_kernel n) = 0%nat ->
  mfind (getPath b k) (n_fileHandles n) = Some h ->
  let '(names, p) := getLocalPath (n_pathPrefix n) b k (n_names n) in
  exists kern fs, interrupts kern = 0%nat /\
    createAsFileHandle b k false n =
      Done (Error (AlreadyExistsError ("The file " ++ name (getPath b k) ++ "already exists!")))
        (set_fs (unlink_name p fs) kern
           (set_heap (n_heap n) (S (n_next n)) (set_names names n))) /\
    fs_inodes fs =
      <[default (fs_next (n_fs n)) (fs_names (n_fs n) !! p) := []]> (fs_inodes (n_fs n)).
Proof.
  intros Hw Hr Hv Hb Hk Hf. pose proof (local_factory_quiet b k n Hk) as HF.
  destruct (getLocalPath (n_pathPrefix n) b k (n_names n)) as [names p].
  destruct HF as (kern & fs & Hk' & E & Hn & Hi & _).
  destruct (call_quiet _ Hk') as (k3 & E3 & Hk3). exists k3, fs. split; [done|]. split; [|done].
  unfold createAsFileHandle, running. rewrite Hr, Hv. cbn [negb].
  unfold bind at 1. rewrite createBucket_known by (done || apply (isValid_parts b k Hv)).
  change (ok OkStatus) with true. cbn [negb]. unfold bind at 1. rewrite E. cbn iota.
  set (i := default _ _) in *.
  unfold bind at 1, gets, insertOrExists. cbn [n_fileHandles created set_heap set_fs set_names].
  rewrite Hf. cbn [fst snd]. unfold bind at 1, modify.
  rewrite bool_decide_true by (intros ->; by apply (mfind_fresh _ _ Hw) in Hf).
  unfold bind at 1, drop_ref.
  change (set_fileHandles (n_fileHandles n) (created b k i fs names p kern n))
    with (created b k i fs names p kern n).
  cbn [release]. unfold created at 1. cbn [n_heap set_heap]. rewrite lookup_insert_eq.
  fold (created b k i fs names p kern n). rewrite created_unreferenced by done.
  unfold bind at 1, modify. cbn [h_kind newHandle lf_fd Z.leb Z.compare]. unfold removeFile.
  cbn [n_kernel set_heap created set_fs]. rewrite E3. unfold ret. f_equal.
  unfold created. cbn [set_heap set_fs set_names n_heap n_next]. rewrite delete_insert_id; [done|].
  destruct (n_heap n !! n_next n) as [x|] eqn:Ex; [|done].
  destruct (nw_heap n Hw _ _ Ex). lia.
Qed.

(** ** Local files *)

Lemma local_update_step {A} h (op : LocalFile -> K -> option (LocalFile * K * A)) n x f i s f' k' a :
  n_heap n !! h = Some x -> h_kind x = KLocal f i s ->
  op (with_data (inode_data i (n_fs n)) f) (n_kernel n) = Some (f', k', a) ->
  local_update h op n =
    Done a (set_fs (set_inode i (lf_data f') (n_fs n)) k'
              (set_heap (<[h := with_kind (KLocal (with_data [] f') i s) x]> (n_heap n)) (n_next n) n)).
Proof. intros Hh Hx E. unfold local_update. by rewrite Hh, Hx, E. Qed.

Lemma resolve_local h n x f i s :
  n_heap n !! h = Some x -> h_kind x = KLocal f i s -> resolve h n = Done (h, x) n.
Proof. intros Hh Hx. unfold resolve, bind, the_handle. by rewrite Hh, Hx. Qed.

(** A read of a file whose inode has been emptied. *)
Lemma lf_readBytes_emptied fuel f pos (n : Z) (k : K) :
  interrupts k = 0%nat -> (1 <= fuel)%nat -> 0 <= pos < lf_size f -> lf_size f < two64 ->
  pos < INT64_MAX -> 0 < n ->
  exists k', lf_readBytes fuel (with_data [] f) pos n k = Some (k', Value (0, [])).
Proof.
  intros Hk Hf Hp Hs Hm Hn. unfold lf_readBytes. cbn [lf_size with_data].
  rewrite (proj2 (Z.leb_gt INT64_MAX pos)), (proj2 (Z.eqb_neq n 0)), (proj2 (Z.ltb_ge (lf_size f) pos)) by lia.
  rewrite u64_small by (unfold is_u64; lia).
  rewrite (proj2 (Z.eqb_neq (Z.min n (lf_size f - pos)) 0)) by lia.
  destruct fuel as [|fuel]; [lia|]. cbn [read_loop]. rewrite (proj2 (Z.ltb_lt 0 _)) by lia.
  unfold pread64. cbn [lf_data with_data]. change (len []) with 0.
  set (max := Z.min _ _). assert (Em : max = 0).
  { subst max. destruct (clamp_count (Z.min n (lf_size f - pos) - 0)); lia. }
  rewrite Em. pose proof (transfer_fair 0 k ltac:(lia)) as Ht.
  destruct (transfer 0 k) as [k' [r|e]]; [|destruct Ht; lia].
  assert (r = 0) by lia. subst r. exists k'. done.
Qed.

(** ** Sealing and opening *)

Lemma seal_creates h n x f i m mb :
  n_heap n !! h = Some x -> h_kind x = KLocal f i false -> n_state n = Running ->
  is_connected (n_md n) = true -> svc_abs (n_mdw n) m -> m !! h_bucket x = Some mb ->
  exists w, svc_abs w (<[h_bucket x := <[h_key x := mkInfo (n_hostURI n) (lf_size f) (lf_size f) (h_metadata x)]> mb]> m) /\
    h_seal h n = Done OkStatus (set_heap (alter (with_kind (KLocal f i true)) h (n_heap n)) (n_next n)
                                  (set_md (n_md n) w n)).
Proof.
  intros Hh Hx Hr Hc Ha Hm. unfold h_seal. unfold bind at 1. rewrite (resolve_local h n x f i false) by done.
  cbn [snd fst]. rewrite Hx. unfold base_seal. rewrite Hx. unfold local_seal. unfold bind at 1, the_handle.
  rewrite Hh, Hx. unfold bind at 1, geds_seal, running_status. rewrite Hr. unfold bind at 1, gets. cbn [default].
  unfold md_call, client_createObject. rewrite Hc. cbn [negb].
  set (obj := mkObject _ _).
  destruct (status_call_law (stub_Create (fill_object obj)) (unavailable "Unable to execute Create command: ")
              _ (n_mdw n) m (svc_Create obj) Ha) as (w & m' & st & E & Hst & Ha').
  rewrite E. simpl in Hst. rewrite Hm in Hst. simpl in Hst. destruct Hst as [-> [= ->]].
  change (ok OkStatus) with true. exists w. split; [exact Ha'|]. unfold bind, update_handle, ret. done.
Qed.

Lemma open_registered b k h n x :
  n_state n = Running -> ok (isValid b k) = true -> mfind (getPath b k) (n_fileHandles n) = Some h ->
  n_heap n !! h = Some x -> h_isValid x = true ->
  geds_open b k true n =
    Done (Value h)
      (set_heap (alter (fun x => with_count (h_openCount x + 1) x) h (n_heap n)) (n_next n)
         (set_filesOpened (u64 (n_filesOpened n + 1)) n)).
Proof.
  intros Hr Hv Hf Hh Hx. unfold geds_open, open_once, openAsFileHandle, running, bind, gets.
  rewrite Hr, Hv. cbn [negb]. unfold cm_get. rewrite Hf. unfold ret, the_handle. rewrite Hh, Hx. done.
Qed.
End steps.

(** ** Reading and writing through a handle *)

Section through.
Context {W X K T : Type} `{MDService W} `{S3Client X} `{KernelFair K} `{Transfers T}.
Implicit Types n : Node W X K T.

Lemma write_local fuel h n x f i s bytes pos :
  n_heap n !! h = Some x -> h_kind x = KLocal f i s ->
  lf_wf (with_data (inode_data i (n_fs n)) f) ->
  0 <= pos -> 0 < len bytes -> pos + len bytes < INT64_MAX ->
  (interrupts (n_kernel n) + length bytes <= fuel)%nat ->
  exists f' kern, h_writeBytes fuel h bytes pos (len bytes) n =
      Done OkStatus (set_fs (set_inode i (lf_data f') (n_fs n)) kern
        (set_heap (<[h := with_kind (KLocal (with_data [] f') i s) x]> (n_heap n)) (n_next n) n)) /\
    lf_wf f' /\ lf_data f' = write_at pos bytes (inode_data i (n_fs n)) /\
    (interrupts kern <= interrupts (n_kernel n))%nat.
Proof.
  intros Hh Hx Hwf Hp Hb Hl Hf.
  destruct (lf_writeBytes_spec fuel _ bytes pos (n_kernel n) Hwf Hp Hl Hf)
    as (f' & kern & E & Hwf' & _ & _ & Hd & Hk).
  rewrite decide_False in Hd by (by intros ->). exists f', kern. split_and!; [|done..].
  unfold h_writeBytes. unfold bind at 1. rewrite (resolve_local h n x f i s) by done. cbn [fst snd]. rewrite Hx.
  by apply (local_update_step h _ n x f i s).
Qed.

Lemma read_local fuel depth h n x f i s pos cnt :
  n_heap n !! h = Some x -> h_kind x = KLocal f i s ->
  lf_wf (with_data (inode_data i (n_fs n)) f) ->
  0 <= pos < INT64_MAX -> 0 <= cnt ->
  (interrupts (n_kernel n) + Z.to_nat (Z.min cnt (len (inode_data i (n_fs n)))) <= fuel)%nat ->
  exists kern, (interrupts kern <= interrupts (n_kernel n))%nat /\
    h_readBytes fuel (S depth) h pos cnt n =
      Done (Value (Z.max 0 (Z.min cnt (len (inode_data i (n_fs n)) - pos)),
                   slice pos cnt (inode_data i (n_fs n))))
        (set_fs (set_inode i (inode_data i (n_fs n)) (n_fs n)) kern
           (set_heap (<[h := with_kind (KLocal (with_data [] f) i s) x]> (n_heap n)) (n_next n) n)).
Proof.
  intros Hh Hx Hwf Hp Hc Hf.
  destruct (lf_readBytes_spec fuel _ pos cnt (n_kernel n) Hwf Hp Hc Hf) as (kern & E & Hk).
  exists kern. split; [done|]. cbn [h_readBytes]. unfold bind at 1, the_handle. rewrite Hh, Hx.
  unfold local_readBytes. apply (local_update_step h _ n x f i s (with_data (inode_data i (n_fs n)) f) kern);
    [done|done|]. by rewrite E.
Qed.
End through.

(** ** Properties *)

(** C1: an object that was written and sealed can be opened and read back, and the
    metadata store announces it. In a running process, for a valid name that
    is not in use: [create], [writeBytes] and [seal] succeed, the store then
    maps the key to this host and the size of the object and is unchanged
    elsewhere, [open] returns the file and reading it gives the bytes. *)
Theorem create_write_seal_read (W X K T : Type) `{MDService W} `{S3Client X} `{KernelFair K} `{Transfers T}
    fuel b k bytes (n : Node W X K T) m mb :
  node_wf n -> n_state n = Running -> ok (isValid b k) = true ->
  cs_exists b (n_knownBuckets n) = true -> interrupts (n_kernel n) = 0%nat ->
  mfind (getPath b k) (n_fileHandles n) = None ->
  is_connected (n_md n) = true -> svc_abs (n_mdw n) m -> m !! b = Some mb ->
  0 < len bytes < INT64_MAX -> (length bytes <= fuel)%nat ->
  exists h n1 n2 n3 n4 n5,
    createAsFileHandle b k false n = Done (Value h) n1 /\
    h_writeBytes fuel h bytes 0 (len bytes) n1 = Done OkStatus n2 /\
    h_seal h n2 = Done OkStatus n3 /\
    svc_abs (n_mdw n3) (<[b := <[k := mkInfo (n_hostURI n) (len bytes) (len bytes) None]> mb]> m) /\
    geds_open b k true n3 = Done (Value h) n4 /\
    gf_readBytes fuel h 0 (len bytes) n4 = Done (Value (len bytes, bytes)) n5.
Proof.
  intros Hw Hr Hv Hb Hk Hf Hc Ha Hm Hlen Hfuel.
  pose proof (create_new b k n Hw Hr Hv Hb Hk Hf) as Hnew.
  destruct (getLocalPath (n_pathPrefix n) b k (n_names n)) as [names p].
  destruct Hnew as (kern & fs & Hkern & E1 & _ & Hino & _). set (i := default _ _) in *.
  set (h := n_next n) in *. set (n1 := set_fileHandles _ _) in E1.
  set (f0 := mkLocalFile p 0 0 []). set (x := newHandle b k None (KLocal f0 i false)).
  assert (Hh1 : n_heap n1 !! h = Some x) by apply lookup_insert_eq.
  assert (Hd : inode_data i (n_fs n1) = []).
  { unfold inode_data. cbn [n_fs n1 set_fileHandles created set_heap set_fs]. by rewrite Hino, lookup_insert_eq. }
  destruct (write_local fuel h n1 x f0 i false bytes 0 Hh1 eq_refl) as (f1 & k1 & E2 & Hf1 & Hdata & Hk1);
    [rewrite Hd; split; simpl; unfold INT64_MAX; done || lia|lia..| |].
  { change (n_kernel n1) with kern. lia. }
  rewrite Hd, write_at_empty in Hdata. set (n2 := set_fs _ _ _) in E2.
  assert (Hh2 : n_heap n2 !! h = Some (with_kind (KLocal (with_data [] f1) i false) x)) by apply lookup_insert_eq.
  assert (Hsz : lf_size f1 = len bytes) by (rewrite (lf_sized f1 Hf1), Hdata; done).
  destruct (seal_creates h n2 _ _ _ m mb Hh2 eq_refl Hr Hc Ha Hm) as (w & Hw3 & E3).
  set (n3 := set_heap _ _ _) in E3.
  assert (Hh3 : exists y, n_heap n3 !! h = Some y /\ h_kind y = KLocal (with_data [] f1) i true /\ h_isValid y = true).
  { eexists. split; [|split]; [cbn [n3 n_heap set_heap]; rewrite lookup_alter, decide_True, Hh2 by done; reflexivity|done..]. }
  destruct Hh3 as (y & Hy & Hyk & Hyv).
  assert (E4 := open_registered b k h n3 y Hr Hv (mfind_massign_eq _ _ _) Hy Hyv). set (n4 := set_heap _ _ _) in E4.
  assert (Hh4 : n_heap n4 !! h = Some (with_count (h_openCount y + 1) y)).
  { cbn [n4 n_heap set_heap]. rewrite lookup_alter, decide_True by done. cbn [set_filesOpened n_heap]. by rewrite Hy. }
  assert (Hd4 : inode_data i (n_fs n4) = bytes).
  { unfold inode_data. cbn [n4 n3 n2 set_heap set_filesOpened n_fs set_md set_fs set_inode fs_inodes].
    rewrite lookup_insert_eq. exact Hdata. }
  destruct (read_local fuel 4 h n4 _ (with_data [] f1) i true 0 (len bytes) Hh4 Hyk) as (kern5 & _ & E5);
    rewrite ?Hd4; [destruct Hf1; split; simpl in *; congruence|unfold INT64_MAX; lia|lia|change (n_kernel n4) with k1;
      change (n_kernel n1) with kern in Hk1; unfold len; lia|].
  rewrite Hd4, slice_all in E5. replace (Z.max 0 _) with (len bytes) in E5 by lia.
  eexists h, n1, n2, n3, n4, _. split_and!; try done.
  change (lf_size (with_data [] f1)) with (lf_size f1) in Hw3. rewrite Hsz in Hw3. exact Hw3.
Qed.

(** Creating an object that exists locally destroys it. The call returns
    AlreadyExists and registers nothing, but the local file has been opened
    again before that was noticed: its contents are gone, its name is removed,
    and reading through the existing handle, whose size is unchanged, returns
    no bytes. *)
Theorem create_existing_destroys (W X K T : Type) `{MDService W} `{S3Client X} `{KernelFair K}
    `{Transfers T} fuel b k h x f i s pos cnt (n : Node W X K T) :
  node_wf n -> n_state n = Running -> ok (isValid b k) = true ->
  cs_exists b (n_knownBuckets n) = true -> interrupts (n_kernel n) = 0%nat -> (1 <= fuel)%nat ->
  mfind (getPath b k) (n_fileHandles n) = Some h ->
  n_heap n !! h = Some x -> h_kind x = KLocal f i s ->
  snd (getLocalPath (n_pathPrefix n) b k (n_names n)) = lf_path f ->
  fs_names (n_fs n) !! lf_path f = Some i ->
  0 <= pos < lf_size f -> lf_size f < INT64_MAX -> 0 < cnt ->
  exists n' n'',
    createAsFileHandle b k false n =
      Done (Error (AlreadyExistsError ("The file " ++ name (getPath b k) ++ "already exists!"))) n' /\
    n_fileHandles n' = n_fileHandles n /\ n_heap n' = n_heap n /\
    inode_data i (n_fs n') = [] /\ fs_names (n_fs n') !! lf_path f = None /\
    gf_readBytes fuel h pos cnt n' = Done (Value (0, [])) n''.
Proof.
  intros Hw Hr Hv Hb Hk Hfuel Hf Hh Hx Hp Hn Hpos Hsz Hcnt.
  pose proof (create_existing b k h n Hw Hr Hv Hb Hk Hf) as Hc.
  destruct (getLocalPath (n_pathPrefix n) b k (n_names n)) as [names p]. simpl in Hp. subst p.
  destruct Hc as (kern & fs & Hkern & E & Hi). rewrite Hn in Hi. cbn [default] in Hi.
  set (n' := set_fs _ _ _) in E. exists n'.
  assert (Hd : inode_data i (n_fs n') = []).
  { unfold inode_data. cbn [n' n_fs set_fs unlink_name fs_inodes]. by rewrite Hi, lookup_insert_eq. }
  destruct (lf_readBytes_emptied fuel f pos cnt kern) as (k' & Er); [done|done|done|unfold two64, INT64_MAX in *; lia..|].
  eexists. split_and!; [exact E|done..| | |].
  - done.
  - cbn [n' n_fs set_fs unlink_name fs_names]. apply lookup_delete_eq.
  - unfold gf_readBytes, DEPTH. cbn [h_readBytes]. unfold bind at 1, the_handle.
    cbn [n' n_heap set_fs set_heap]. rewrite Hh, Hx. unfold local_readBytes.
    apply (local_update_step h _ n' x f i s (with_data [] f) k'); [done|done|].
    rewrite Hd. change (n_kernel n') with kern. by rewrite Er.
Qed.

(** ** Witnesses *)

(** No other process can be reached. *)
#[global] Instance no_transfers : Transfers unit := {|
  ft_connect _ t := (t, UnavailableError "unreachable");
  ft_read _ _ _ _ _ t := Some (t, Ret (Error (UnavailableError "unreachable")))
|}.

Definition demo_server : Server := newServer (Some ("bkt" : str)).

Definition demo_node : Node Server MemS3.world nat unit :=
  mkNode (mkNodeConfig 4 false false) Running connected_client demo_server "/tmp/geds" newFileNames
    "geds://h:1" [] [] ["bkt" : str] [] 0 0 ∅ 0 0 (fun _ => mem_state) (mkFS ∅ ∅ 0 ∅) 0%nat tt.

Lemma demo_node_wf : node_wf demo_node.
Proof. constructor; simpl; [done|constructor|]. intros h x Hx. by rewrite lookup_empty in Hx. Qed.

#[local] Existing Instance the_stub.
#[local] Existing Instance the_service.

Lemma create_write_seal_read_witness :
  exists h n1 n2 n3 n4 n5,
    createAsFileHandle "bkt" "dir/key" false demo_node = Done (Value h) n1 /\
    h_writeBytes 9 h "hello" 0 5 n1 = Done OkStatus n2 /\
    h_seal h n2 = Done OkStatus n3 /\
    geds_open "bkt" "dir/key" true n3 = Done (Value h) n4 /\
    gf_readBytes 9 h 0 5 n4 = Done (Value (5, "hello" : str)) n5.
Proof.
  destruct (create_write_seal_read Server MemS3.world nat unit
              9 "bkt" "dir/key" "hello" demo_node {[("bkt" : str) := ∅]} ∅ demo_node_wf)
    as (h & n1 & n2 & n3 & n4 & n5 & E1 & E2 & E3 & _ & E4 & E5);
    try reflexivity.
  - apply (newKVS_abs (Some ("bkt" : str))).
  - split; vm_compute; reflexivity.
  - simpl. lia.
  - exists h, n1, n2, n3, n4, n5. split; [exact E1|]. split; [exact E2|]. split; [exact E3|].
    split; [exact E4|exact E5].
Defined.

(** The process after the object [dir/key] with the contents [hello] was created. *)
Definition stored_node : Node Server MemS3.world nat unit :=
  mkNode (mkNodeConfig 4 false false) Running connected_client demo_server "/tmp/geds"
    (mkFileNames 1 [("dir/key" : str, 0)])
    "geds://h:1" [(getPath "bkt" "dir/key", 0%nat)] [] ["bkt" : str] [] 0 0
    {[0%nat := newHandle "bkt" "dir/key" None (KLocal (mkLocalFile "/tmp/geds/bkt/0" 0 5 []) 0 false)]} 1 0
    (fun _ => mem_state) (mkFS {[("/tmp/geds/bkt/0" : str) := 0]} {[0 := ("hello" : str)]} 1 ∅) 0%nat tt.

Lemma stored_node_wf : node_wf stored_node.
Proof.
  constructor; simpl; [repeat constructor|repeat constructor; lia|].
  intros h x Hx. apply lookup_singleton_Some in Hx as [<- <-]. split; [lia|constructor].
Qed.

Lemma create_existing_destroys_witness :
  exists n' n'' st, createAsFileHandle "bkt" "dir/key" false stored_node = Done (Error st) n' /\
    code st = kAlreadyExists /\ inode_data 0 (n_fs n') = [] /\
    gf_readBytes 9 0 0 5 stored_node = Done (Value (5, "hello" : str)) stored_node /\
    gf_readBytes 9 0 0 5 n' = Done (Value (0, [])) n''.
Proof.
  destruct (create_existing_destroys Server MemS3.world nat unit 9 "bkt" "dir/key" 0
              (newHandle "bkt" "dir/key" None (KLocal (mkLocalFile "/tmp/geds/bkt/0" 0 5 []) 0 false))
              (mkLocalFile "/tmp/geds/bkt/0" 0 5 []) 0 false 0 5 stored_node stored_node_wf)
    as (n' & n'' & E & _ & _ & Hd & _ & Er); try reflexivity; try (simpl; unfold INT64_MAX; lia).
  eexists n', n'', _. split; [exact E|]. split; [apply code_error|]. split; [exact Hd|].
  split; [reflexivity|exact Er].
Defined.
