(* ===== verification/GEDSObjects.v ===== *)
(** * Listing, deleting and the life cycle

    Properties of [list], [deleteObject], [deleteObjectPrefix], [start] and [stop]
    (src/src/libgeds/GEDS.cpp) on the definitions of GEDS.v. *)

From Stdlib Require Import Ascii ZArith Lia.
From stdpp Require Import base gmap sets list strings numbers.
From S2P Require Import Prelude Bytes Decimal Status StdMap Path Object FileSet MDSKVSBucket MDSKVS S3Endpoint Rpc.
From S2P Require Import MetadataServer MetadataService LocalFile ConcurrentMap GedsNames FileHandle.
From S2P Require Import Node Handles HandleIO GEDS GEDSCreate.

Open Scope Z_scope.
Open Scope list_scope.

#[local] Opaque to_string.

(** ** Dropping references *)

(** The parts of the state the lifetime of handles does not touch. *)
Record same_service {W X K T} (n n' : Node W X K T) : Prop := {
  sm_config : n_config n' = n_config n;
  sm_state : n_state n' = n_state n;
  sm_md : n_md n' = n_md n;
  sm_mdw : n_mdw n' = n_mdw n;
  sm_handles : n_fileHandles n' = n_fileHandles n;
  sm_stores : n_objectStores n' = n_objectStores n;
  sm_s3 : n_s3 n' = n_s3 n;
  sm_known : n_knownBuckets n' = n_knownBuckets n;
  sm_next : n_next n' = n_next n
}.

#[global] Instance same_service_preorder {W X K T} : PreOrder (same_service (W := W) (X := X) (K := K) (T := T)).
Proof.
  split; [by intros n; constructor|]. intros a b c [] []. constructor; congruence.
Qed.

Section drops.
Context {W X K T : Type} `{Kernel K}.
Implicit Types n : Node W X K T.

(** A computation that always returns and keeps the service. *)
Definition keeps (m : M W X K T unit) : Prop :=
  forall n, exists n', m n = Done tt n' /\ same_service n n'.

Lemma keeps_ret : keeps (ret tt).
Proof. intros n. by exists n. Qed.

Lemma keeps_bind m m' : keeps m -> keeps m' -> keeps (m ;; m').
Proof.
  intros Hm Hm' n. destruct (Hm n) as (n1 & E1 & S1). destruct (Hm' n1) as (n2 & E2 & S2).
  exists n2. unfold bind. rewrite E1, E2. split; [done|by transitivity n1].
Qed.

Lemma keeps_removeFile p : keeps (removeFile p).
Proof. intros n. unfold removeFile. by destruct (call (n_kernel n)) as [k []]; eexists. Qed.

Lemma keeps_decrease h : keeps (h_decreaseOpenCount h).
Proof. intros n. by eexists. Qed.

#[local] Hint Resolve keeps_ret keeps_bind keeps_removeFile keeps_decrease : keeps.

Lemma keeps_release depth h : keeps (release depth h).
Proof.
  revert h. induction depth as [|depth IH]; intros h; [apply keeps_ret|]. intros n. cbn [release].
  destruct (n_heap n !! h) as [x|]; [|by exists n]. destruct (referenced h n); [by exists n|].
  apply keeps_bind; [by intros n'; eexists|].
  destruct (h_kind x) as [f i s| | |r rs bs bl|inner]; auto with keeps.
  - destruct (0 <=? lf_fd f); auto with keeps.
  - induction (omap (fun b => b) bl) as [|b l IHl]; simpl; auto with keeps.
Qed.

Lemma keeps_drop_ref h : keeps (drop_ref h).
Proof. intros n. unfold drop_ref. apply keeps_release. Qed.

Lemma keeps_drop_refs hs : keeps (drop_refs hs).
Proof. induction hs as [|h hs IH]; [apply keeps_ret|]. apply keeps_bind; [apply keeps_drop_ref|done]. Qed.

Lemma keeps_drop_old (o : option nat) : keeps (match o with Some o => drop_ref o | None => ret tt end).
Proof. destruct o; [apply keeps_drop_ref|apply keeps_ret]. Qed.
End drops.

Section objects.
Context {W X K T : Type} `{MDService W} `{S3Client X} `{Kernel K}.
Implicit Types n : Node W X K T.

(** ** Deleting in the store *)

Lemma md_delete b k n m mb :
  is_connected (n_md n) = true -> svc_abs (n_mdw n) m -> m !! b = Some mb ->
  exists c w st, md_call (client_deleteObject b k) n = Done st (set_md c w n) /\
    is_connected c = true /\ svc_abs w (<[b := delete k mb]> m) /\
    (ok st = true \/ code_is kNotFound st = true).
Proof.
  intros Hc Ha Hm. unfold md_call, client_deleteObject. rewrite Hc. cbn [negb].
  destruct (status_call_law (stub_Delete (mkRpcID b k)) (unavailable_code "Unable to execute Delete command: ")
              _ (n_mdw n) m (svc_Delete b k) Ha) as (w & m' & st & E & Hst & Ha').
  rewrite E. simpl in Hst. rewrite Hm in Hst. destruct Hst as [-> [= ->]].
  eexists _, w, _. split; [done|]. split; [exact Hc|]. split; [done|].
  case_decide; [by left|right]. unfold code_is, KvsSpec.no_key, NotFoundError. by rewrite code_error.
Qed.

Lemma md_delete_prefix b p n m mb :
  is_connected (n_md n) = true -> svc_abs (n_mdw n) m -> m !! b = Some mb ->
  exists c w st, md_call (client_deleteObjectPrefix b p) n = Done st (set_md c w n) /\
    is_connected c = true /\
    svc_abs w (<[b := filter (fun e => starts_with p (fst e) = false) mb]> m) /\
    (ok st = true \/ code_is kNotFound st = true).
Proof.
  intros Hc Ha Hm. unfold md_call, client_deleteObjectPrefix. rewrite Hc. cbn [negb].
  destruct (status_call_law (stub_DeletePrefix (mkRpcID b p)) (unavailable_code "Unable to execute Delete command: ")
              _ (n_mdw n) m (svc_DeletePrefix b p) Ha) as (w & m' & st & E & Hst & Ha').
  rewrite E. simpl in Hst. rewrite Hm in Hst. destruct Hst as [-> (st' & [= <-] & Hps)].
  eexists _, w, _. split; [done|]. split; [exact Hc|]. split; [done|].
  destruct Hps as [[-> _]|[-> _]]; [by left|right]. unfold code_is, NotFoundError. by rewrite code_error.
Qed.

Lemma proceed st : ok st = true \/ code_is kNotFound st = true -> negb (ok st) && negb (code_is kNotFound st) = false.
Proof. intros [->| ->]; [done|by rewrite andb_false_r]. Qed.

(** The handles under the paths with [P] are gone and all others are the same. *)
Definition forgets (P : Path -> bool) (n n' : Node W X K T) : Prop :=
  forall q, mfind q (n_fileHandles n') = if P q then None else mfind q (n_fileHandles n).

(** Removing an entry of the map of handles and its reference. *)
Lemma remove_entry q n :
  sorted (n_fileHandles n) ->
  exists n',
    (let* old := gets (fun n => cm_get q (n_fileHandles n)) in
     modify (fun n => set_fileHandles (fst (cm_remove q (n_fileHandles n))) n) ;;
     match old with Some o => drop_ref o | None => ret tt end ;;
     ret OkStatus) n = Done OkStatus n' /\
    n_mdw n' = n_mdw n /\ n_s3 n' = n_s3 n /\ sorted (n_fileHandles n') /\
    forgets (fun q' => bool_decide (q' = q)) n n'.
Proof.
  intros Hs. unfold bind at 1, gets. unfold bind at 1, modify.
  set (n1 := set_fileHandles _ n). unfold bind at 1.
  destruct (keeps_drop_old (cm_get q (n_fileHandles n)) n1) as (n2 & -> & Hs2).
  exists n2. split; [done|]. unfold forgets. rewrite (sm_mdw _ _ Hs2), (sm_s3 _ _ Hs2), (sm_handles _ _ Hs2).
  cbn [n1 n_mdw n_s3 n_fileHandles set_fileHandles]. split; [done|]. split; [done|].
  unfold cm_remove. destruct (mfind q (n_fileHandles n)) as [h|] eqn:E; cbn [fst].
  - split; [by apply merase_sorted|]. intros q'. rewrite mfind_merase by done.
    by repeat case_decide; case_bool_decide; subst.
  - split; [done|]. intros q'. by case_bool_decide; subst.
Qed.

(** ** Listing *)

Lemma list_files_file d objs : Forall is_file (list_files d objs).
Proof. unfold list_files. apply Forall_forall. intros f Hf. apply in_map_iff in Hf as (o & <- & _). done. Qed.

Lemma list_dirs_dir cps : Forall is_dir (list_dirs cps).
Proof. unfold list_dirs. apply Forall_forall. intros f Hf. apply in_map_iff in Hf as (o & <- & _). done. Qed.

Lemma represents_nil l xs : represents l xs -> l = [] <-> xs = [].
Proof.
  intros [Hin Hout]. split; intros ->.
  - destruct xs as [|x xs]; [done|]. destruct (Hout x) as (f & Hf & _); [apply elem_of_cons; by left|].
    by apply elem_of_nil in Hf.
  - destruct l as [|f l]; [done|]. assert (Hf : f ∈ []) by (apply Hin, elem_of_cons; by left).
    by apply elem_of_nil in Hf.
Qed.

(** The exact listing of a bucket with the objects [mb]. *)
Definition exact_listing (b p : str) (d : ascii) (mb : gmap str ObjectInfo)
    (r : StatusOr (list GEDSFileStatus)) : Prop :=
  exists objs cps, listing_of b (fun k => mb !! k) p d objs cps /\
    match r with
    | Value l => listing_order l /\ represents l (list_files d objs ++ list_dirs cps)
    | Error st => st = NotFoundError ("Prefix not found: " ++ p) /\ d <> NUL /\ objs = [] /\ cps = []
    end.

(** What the metadata service answers a listing with. *)
Lemma md_list b p d n m mb :
  is_connected (n_md n) = true -> svc_abs (n_mdw n) m -> coherent (n_md n) m -> m !! b = Some mb ->
  (d = NUL \/ 0 < int_of_char d) ->
  exists c w objs cps, md_call (listPrefix b p d) n = Done (Value (objs, cps)) (set_md c w n) /\
    svc_abs w m /\ coherent c m /\ is_connected c = true /\
    listing_of b (fun k => mb !! k) p d objs cps.
Proof.
  intros Hc Ha Hco Hm Hd. unfold md_call.
  destruct (listPrefix_sim (mkID b p) d (n_md n) (n_mdw n) m Ha Hco Hc)
    as (c & w & r & E & Ha' & Hco' & Hc' & Hs).
  change (listPrefix (bucket (mkID b p)) (key (mkID b p)) d (n_md n) (n_mdw n))
    with (listPrefix b p d (n_md n) (n_mdw n)) in E.
  rewrite E. assert (Hd' : (if 0 <? int_of_char d then d else NUL) = d).
  { destruct Hd as [->|Hd]; [by destruct (0 <? int_of_char NUL)|]. by rewrite (proj2 (Z.ltb_lt _ _) Hd). }
  simpl in Hs. rewrite Hd', Hm in Hs. destruct Hs as (_ & objs & cps & [= ->] & Hl).
  by exists c, w, objs, cps.
Qed.

Lemma geds_list_step b p d n m mb :
  pubSubEnabled (n_config n) = false ->
  is_connected (n_md n) = true -> svc_abs (n_mdw n) m -> coherent (n_md n) m -> m !! b = Some mb ->
  (d = NUL \/ 0 < int_of_char d) ->
  exists n' r,
    geds_list b p d n = Done r n' /\ svc_abs (n_mdw n') m /\ coherent (n_md n') m /\
    exact_listing b p d mb r.
Proof.
  intros Hps Hc Ha Hco Hm Hd. unfold geds_list. unfold bind at 1, gets. rewrite Hps.
  destruct (md_list b p d n m mb Hc Ha Hco Hm Hd) as (c & w & objs & cps & E & Ha' & Hco' & _ & Hl).
  unfold bind at 1. rewrite E. cbn iota. unfold bind, modify, ret.
  destruct (emplace_files_dirs (list_files d objs) (list_dirs cps) (list_files_file _ _) (list_dirs_dir _))
    as [Hord Hrep].
  set (l := emplace_all _ _). change (represents l (list_files d objs ++ list_dirs cps)) in Hrep.
  change (listing_order l) in Hord.
  destruct (bool_decide (l = []) && bool_decide (d <> NUL) && negb (bool_decide (objs <> []))) eqn:Eb.
  - eexists _, _. split; [done|]. split; [done|]. split; [done|]. exists objs, cps. split; [exact Hl|].
    apply andb_true_iff in Eb as [[E1 E2]%andb_true_iff E3].
    apply bool_decide_eq_true in E1, E2. apply negb_true_iff, bool_decide_eq_false in E3.
    assert (objs = []) by (destruct objs; [done|by destruct E3]).
    split; [done|]. split; [done|]. split; [done|].
    apply (represents_nil _ _ Hrep), app_nil in E1 as [_ E1]. by destruct cps.
  - eexists _, _. split; [done|]. split; [done|]. split; [done|]. by exists objs, cps.
Qed.
End objects.

(** ** Properties *)

(** C23: a listing is exact. With publish/subscribe off, [list] asks the store and
    returns exactly its objects below the prefix that have no further delimiter
    (without directory markers) and the folders, that is the prefixes up to the
    next delimiter: folders first, each kind in ascending order and without
    duplicates. Only a folder listing with neither objects nor folders is
    NotFound. *)
Theorem geds_list_exact (W X K T : Type) `{MDService W} b p d (n : Node W X K T) m mb :
  pubSubEnabled (n_config n) = false ->
  is_connected (n_md n) = true -> svc_abs (n_mdw n) m -> coherent (n_md n) m -> m !! b = Some mb ->
  (d = NUL \/ 0 < int_of_char d) ->
  exists n' r,
    geds_list b p d n = Done r n' /\ svc_abs (n_mdw n') m /\ coherent (n_md n') m /\
    exact_listing b p d mb r.
Proof.
  apply geds_list_step.
Qed.

(** Deleting an object removes it and nothing else. [deleteObject] of an object in
    an existing bucket returns OK; the store no longer has the key and is
    otherwise unchanged, and the process has forgotten its handle and kept all
    others, so that opening the object asks the store again. *)
Theorem geds_deleteObject_exact (W X K T : Type) `{MDService W} `{S3Client X} `{Kernel K} b k
    (n : Node W X K T) m mb :
  is_connected (n_md n) = true -> svc_abs (n_mdw n) m -> m !! b = Some mb ->
  sorted (n_fileHandles n) ->
  exists n', geds_deleteObject b k n = Done OkStatus n' /\
    svc_abs (n_mdw n') (<[b := delete k mb]> m) /\
    forgets (fun q => bool_decide (q = getPath b k)) n n'.
Proof.
  intros Hc Ha Hm Hs. unfold geds_deleteObject. unfold bind at 1.
  destruct (md_delete b k n m mb Hc Ha Hm) as (c & w & st & -> & _ & Ha' & Hst).
  rewrite (proceed _ Hst). unfold bind at 1, gets. unfold bind at 1.
  destruct (is_ok (stores_get b (n_objectStores (set_md c w n))) && negb (starts_with CacheBlockMarker k)).
  - unfold bind at 1, s3_call. destruct (s3_deleteObject b k _) as [s r]. unfold ret at 1.
    destruct (remove_entry (getPath b k) (set_s3 b s (set_md c w n)) Hs) as (n' & E & Hw & _ & _ & Hq).
    exists n'. split; [exact E|]. split; [by rewrite Hw|exact Hq].
  - unfold ret at 1.
    destruct (remove_entry (getPath b k) (set_md c w n) Hs) as (n' & E & Hw & _ & _ & Hq).
    exists n'. split; [exact E|]. split; [by rewrite Hw|exact Hq].
Qed.

(** Deleting a prefix and the handles. [deleteObjectPrefix] in a bucket
    without object store removes from the store exactly the keys of the bucket
    with the prefix, but from the process the handles whose path
    [bucket/key] starts with the prefix: the bucket is missing in the search,
    so handles of the deleted objects stay and handles of objects in other
    buckets can be dropped. *)
Theorem geds_deleteObjectPrefix_handles (W X K T : Type) `{MDService W} `{S3Client X} `{Kernel K}
    fuel b p (n : Node W X K T) m mb :
  is_connected (n_md n) = true -> svc_abs (n_mdw n) m -> m !! b = Some mb ->
  mfind b (n_objectStores n) = None -> sorted (n_fileHandles n) ->
  exists n', geds_deleteObjectPrefix fuel b p n = Done OkStatus n' /\
    svc_abs (n_mdw n') (<[b := filter (fun e => starts_with p (fst e) = false) mb]> m) /\
    forgets (fun q => starts_with p (name q)) n n'.
Proof.
  intros Hc Ha Hm Hst Hs. unfold geds_deleteObjectPrefix. unfold bind at 1.
  destruct (md_delete_prefix b p n m mb Hc Ha Hm) as (c & w & st & -> & _ & Ha' & Hok).
  rewrite (proceed _ Hok). unfold bind at 1, gets, stores_get.
  cbn [n_objectStores set_md]. rewrite Hst. cbn [is_ok]. unfold bind at 1, ret at 1.
  unfold bind at 1, gets. unfold bind at 1, modify. unfold bind at 1.
  set (n1 := set_fileHandles _ _).
  match goal with |- context [drop_refs ?l] => destruct (keeps_drop_refs l n1) as (n2 & -> & Hs2) end.
  exists n2. split; [done|]. unfold forgets. rewrite (sm_mdw _ _ Hs2), (sm_handles _ _ Hs2).
  split; [done|]. intros q. cbn [n1 n_fileHandles set_fileHandles].
  rewrite removeRange_filter, mfind_filter by done. cbn [fst].
  change (hits (mkProbe p) q) with (negb (path_lt_probe (mkProbe p) q) && negb (probe_lt_path (mkProbe p) q)).
  rewrite probe_equivalent. unfold has_prefix. cbn [n_fileHandles set_md].
  destruct (mfind q (n_fileHandles n)); by destruct (starts_with p (name q)).
Qed.

(** A service that runs under its name, and one that can neither start nor stop. *)
Definition started {W X K T} (b : Boot) (n : Node W X K T) : Prop :=
  n_state n = Running /\ exists host, n_hostURI n = computeHostUri host (bt_port b) /\
    (bt_hostname b <> [] -> host = bt_hostname b).

Definition stuck {W X K T} `{MDStub W} `{S3Client X} `{Kernel K} `{Transfers T} fuel (n : Node W X K T) : Prop :=
  n_state n = Unknown /\
  (forall b, geds_start b n = Done (FailedPreconditionError "The service is Unknown.") n) /\
  (forall r s, geds_stop fuel r s n = Done (FailedPreconditionError "The service is Unknown.") n).

(** C40: a service that failed to start cannot be used again. When [start] of a
    stopped service returns an error, the service is left in the state
    Unknown, in which every further [start] and [stop] is refused; when it
    returns OK the service is running and announces itself under the
    configured or observed host name and port. *)
Theorem geds_start_result (W X K T : Type) `{MDStub W} `{S3Client X} `{Kernel K} `{Transfers T}
    fuel b st (n n' : Node W X K T) :
  n_state n = Stopped -> geds_start b n = Done st n' ->
  if ok st then started b n' else stuck fuel n'.
Proof.
  intros Hs. unfold geds_start. rewrite Hs.
  destruct (connect (bt_assertions b) (bt_channel b) (n_md (set_state Unknown n))) as [[c result]| |]; [|done..].
  assert (Hfail : forall st' n1, ok st' = false -> n_state n1 = Unknown ->
    Done st' n1 = Done st n' -> if ok st then started b n' else stuck fuel n').
  { intros st' n1 Hok Hst [= <- <-]. rewrite Hok. split; [done|]. unfold geds_start, geds_stop, running_status.
    by rewrite Hst. }
  destruct (ok result) eqn:Er; cbn [negb]; [|by apply Hfail].
  destruct (ok (bt_server b)) eqn:Eb; cbn [negb]; [|by apply Hfail].
  assert (Hfin : forall host n1,
    match (let* _ := syncObjectStoreConfigs in syncObjectStoreConfigs) (set_state Running n1) with
    | Done _ n => Done OkStatus n
    | Crash => Crash
    | NoFuel => NoFuel
    end = Done st n' ->
    (bt_hostname b <> [] -> host = bt_hostname b) -> n_hostURI n1 = computeHostUri host (bt_port b) ->
    if ok st then started b n' else stuck fuel n').
  { intros host n1. unfold bind, syncObjectStoreConfigs, md_call, modify, ret, bind.
    repeat match goal with |- context [listObjectStoreConfigs ?c ?w] =>
      destruct (listObjectStoreConfigs c w) as [[? ?] []] end;
      intros [= <- <-] Hh Hu; (split; [done|]); exists host; done. }
  unfold started in *. destruct (bt_hostname b) as [|a l] eqn:Eh.
  - destruct (getConnectionInformation _ _) as [[c2 w2] [ip|e]]; [|by apply Hfail].
    intros E. by apply (Hfin ip _ E).
  - intros E. by apply (Hfin (a :: l) _ E).
Qed.

(** ** Witnesses *)

#[local] Existing Instance the_stub.
#[local] Existing Instance the_service.

(** A store with the objects [dir/key] and [top] of one bucket. *)
Definition put_demo (k : str) (s : Server) : Server :=
  fst (stub_Create (fill_object (mkObject (mkID "bkt" k) (mkInfo "geds://h:1" 5 5 None))) s).

Lemma put_demo_abs k s m mb :
  svc_abs s m -> m !! ("bkt" : str) = Some mb ->
  svc_abs (put_demo k s) (<[("bkt" : str) := <[k := mkInfo "geds://h:1" 5 5 None]> mb]> m).
Proof.
  intros Ha Hm.
  destruct (svc_Create (mkObject (mkID "bkt" k) (mkInfo "geds://h:1" 5 5 None)) s m Ha) as (s' & m' & r & E & Hst & Ha').
  unfold put_demo. rewrite E. cbn [KvsSpec.step id bucket key info] in Hst. rewrite Hm in Hst.
  cbn [default] in Hst. by destruct Hst as [-> _].
Qed.

Definition demo_bucket : gmap str ObjectInfo :=
  <[("top" : str) := mkInfo "geds://h:1" 5 5 None]> (<[("dir/key" : str) := mkInfo "geds://h:1" 5 5 None]> ∅).
Definition demo_store : Server := put_demo "top" (put_demo "dir/key" demo_server).
Definition demo_state : KvsSpec.state :=
  <[("bkt" : str) := demo_bucket]> (<[("bkt" : str) := <[("dir/key" : str) := mkInfo "geds://h:1" 5 5 None]> ∅]> {[("bkt" : str) := ∅]}).

Lemma demo_store_abs : svc_abs demo_store demo_state.
Proof.
  apply put_demo_abs; [apply put_demo_abs|]; [apply (newKVS_abs (Some ("bkt" : str)))|apply lookup_insert_eq..].
Qed.

(** The process of the previous file, connected to that store. *)
Definition full_node : Node Server MemS3.world nat unit := set_md connected_client demo_store stored_node.

Lemma geds_list_exact_witness :
  exists n' l, geds_list "bkt" "" "/" full_node = Done (Value l) n' /\
    l = [mkFileStatus "dir/" 0 true; mkFileStatus "top" 5 false] /\ listing_order l.
Proof.
  destruct (geds_list_exact Server MemS3.world nat unit "bkt" "" "/" full_node demo_state demo_bucket)
    as (n' & r & E & _ & _ & objs & cps & _ & Hr);
    [reflexivity|reflexivity|exact demo_store_abs|apply empty_coherent|apply lookup_insert_eq|right; reflexivity|].
  assert (Ev : match geds_list "bkt" "" "/" full_node with Done r _ => Some r | _ => None end =
               Some (Value [mkFileStatus "dir/" 0 true; mkFileStatus "top" 5 false])) by (vm_compute; reflexivity).
  rewrite E in Ev. injection Ev as ->. exists n', [mkFileStatus "dir/" 0 true; mkFileStatus "top" 5 false].
  split; [exact E|]. split; [reflexivity|exact (proj1 Hr)].
Defined.

Lemma geds_deleteObject_exact_witness :
  exists n', geds_deleteObject "bkt" "dir/key" full_node = Done OkStatus n' /\
    svc_abs (n_mdw n') (<[("bkt" : str) := delete ("dir/key" : str) demo_bucket]> demo_state) /\
    mfind (getPath "bkt" "dir/key") (n_fileHandles n') = None.
Proof.
  destruct (geds_deleteObject_exact Server MemS3.world nat unit "bkt" "dir/key" full_node demo_state demo_bucket)
    as (n' & E & Ha & Hq);
    [reflexivity|exact demo_store_abs|apply lookup_insert_eq|apply stored_node_wf|].
  exists n'. split; [exact E|]. split; [exact Ha|]. rewrite (Hq _). vm_compute. reflexivity.
Defined.

(** The prefix [dir] leaves the handle of [dir/key]; the prefix [bkt/dir] of another
    bucket would drop it. *)
Lemma geds_deleteObjectPrefix_handles_witness :
  exists n', geds_deleteObjectPrefix 3 "bkt" "dir" full_node = Done OkStatus n' /\
    svc_abs (n_mdw n')
      (<[("bkt" : str) := filter (fun e => starts_with "dir" (fst e) = false) demo_bucket]> demo_state) /\
    mfind (getPath "bkt" "dir/key") (n_fileHandles n') = Some 0%nat.
Proof.
  destruct (geds_deleteObjectPrefix_handles Server MemS3.world nat unit 3 "bkt" "dir" full_node demo_state demo_bucket)
    as (n' & E & Ha & Hq);
    [reflexivity|exact demo_store_abs|apply lookup_insert_eq|reflexivity|apply stored_node_wf|].
  exists n'. split; [exact E|]. split; [exact Ha|]. rewrite (Hq _). vm_compute. reflexivity.
Defined.

Definition stopped_node : Node Server MemS3.world nat unit :=
  set_md (newMetadataService "uuid" "host:4381" None) demo_server (set_state Stopped demo_node).

Definition boot_ok : Boot := mkBoot true ChannelReady OkStatus 4382 "node1".
Definition boot_timeout : Boot := mkBoot true ChannelTimeout OkStatus 4382 "node1".

Lemma geds_start_result_witness :
  (exists st n', geds_start boot_ok stopped_node = Done st n' /\ started boot_ok n') /\
  exists st n', geds_start boot_timeout stopped_node = Done st n' /\ stuck 3 n'.
Proof.
  split.
  - assert (Ev : match geds_start boot_ok stopped_node with Done st _ => ok st | _ => false end = true)
      by (vm_compute; reflexivity).
    destruct (geds_start boot_ok stopped_node) as [st n'| |] eqn:E; [|discriminate Ev..].
    pose proof (geds_start_result Server MemS3.world nat unit 3 boot_ok st stopped_node n' eq_refl E) as Hr.
    rewrite Ev in Hr. exists st, n'. split; [reflexivity|exact Hr].
  - assert (Ev : match geds_start boot_timeout stopped_node with Done st _ => ok st | _ => true end = false)
      by (vm_compute; reflexivity).
    destruct (geds_start boot_timeout stopped_node) as [st n'| |] eqn:E; [|discriminate Ev..].
    pose proof (geds_start_result Server MemS3.world nat unit 3 boot_timeout st stopped_node n' eq_refl E) as Hr.
    rewrite Ev in Hr. exists st, n'. split; [reflexivity|exact Hr].
Defined.
