(* ===== verification/GEDSStatus.v ===== *)
(** * The status of objects and directories

    The operation [status] of [GEDS] (src/src/libgeds/GEDS.cpp) on the definitions
    of GEDS.v, against a specification on the contents of the metadata store, and
    [copyPrefix] and [renamePrefix], which apply [copy] and [rename] to a listing. *)

From Stdlib Require Import Ascii ZArith Lia.
From stdpp Require Import base gmap sets list strings numbers.
From S2P Require Import Prelude Bytes Decimal Status StdMap Path Object FileSet MDSKVSBucket MDSKVS S3Endpoint Rpc.
From S2P Require Import MetadataServer MetadataService LocalFile ConcurrentMap GedsNames FileHandle.
From S2P Require Import Node Handles HandleIO GEDS GEDSCreate GEDSObjects.

Open Scope Z_scope.
Open Scope list_scope.

#[local] Opaque to_string.

(** ** What [status] promises *)

(** Whether the store has a folder below the prefix: a key with a delimiter after
    the prefix. *)
Definition has_folder (p : str) (d : ascii) (mb : gmap str ObjectInfo) : bool :=
  negb (bool_decide (d = NUL)) &&
  existsb (fun e => starts_with p (fst e) && bool_decide (d ∈ drop (length p) (fst e))) (map_to_list mb).

Definition not_found (key : str) : StatusOr GEDSFileStatus := Error (NotFoundError ("Key " ++ key ++ " not found!")).

(** The answer for a bucket without object store, from the objects [mb] of the
    bucket. *)
Definition status_spec (known : bool) (mb : option (gmap str ObjectInfo)) (key : str) (d : ascii) :
    StatusOr GEDSFileStatus :=
  let objects := default ∅ mb in
  let folder k := if has_folder k d objects then Value (mkFileStatus k 0 true) else not_found key in
  if bool_decide (key = []) || bool_decide (key = [d]) then
    if known || bool_decide (is_Some mb) then Value (mkFileStatus key 0 true)
    else Error (NotFoundError "Bucket not found!")
  else if bool_decide (list.last key = Some d) then folder key
  else match objects !! key with
       | Some i => Value (mkFileStatus key (osize i) false)
       | None => if bool_decide (d <> NUL) then folder (key ++ [d]) else not_found key
       end.

(** ** Folders *)

Lemma has_folder_true p d mb :
  has_folder p d mb = true <->
  d <> NUL /\ exists r1 r2, is_Some (mb !! (p ++ r1 ++ d :: r2)) /\ d ∉ r1.
Proof.
  unfold has_folder. rewrite andb_true_iff, negb_true_iff, bool_decide_eq_false, existsb_exists.
  apply and_iff_compat_l. split.
  - intros ([k i] & Hin & [Hp Hd]%andb_true_iff). apply list_elem_of_In, elem_of_map_to_list in Hin.
    cbn [fst] in *. apply starts_with_prefix in Hp as [rest ->]. apply bool_decide_eq_true in Hd.
    rewrite drop_app_length in Hd. apply list_elem_of_split_l in Hd as (r1 & r2 & -> & Hn).
    exists r1, r2. by rewrite Hin.
  - intros (r1 & r2 & [i Hi] & Hn). exists (p ++ r1 ++ d :: r2, i).
    split; [by apply list_elem_of_In, elem_of_map_to_list|]. cbn [fst]. apply andb_true_iff. split.
    + apply starts_with_prefix. by eexists.
    + apply bool_decide_eq_true. rewrite drop_app_length. apply elem_of_app. right. apply elem_of_cons. by left.
Qed.

Lemma listing_folders b p d mb objs cps :
  listing_of b (fun k => mb !! k) p d objs cps -> bool_decide (cps <> []) = has_folder p d mb.
Proof.
  intros (_ & _ & Hc & _). destruct (has_folder p d mb) eqn:E.
  - apply has_folder_true in E as (Hd & r1 & r2 & Hs & Hn). apply bool_decide_eq_true. intros ->.
    assert (Hin : p ++ r1 ++ [d] ∈ ([] : list str)) by (apply Hc; split; [done|]; exists r1, r2; done).
    by apply elem_of_nil in Hin.
  - apply bool_decide_eq_false. intros Hne. apply Hne. destruct cps as [|q cps]; [done|].
    destruct (proj1 (Hc q)) as (Hd & r1 & r2 & Hs & Hn & _); [apply elem_of_cons; by left|].
    assert (Ht : has_folder p d mb = true) by (apply has_folder_true; split; [done|]; by exists r1, r2).
    congruence.
Qed.

(** ** Asking the metadata service *)

Section status.
Context {W X K T : Type} `{MDService W} `{S3Client X}.
Implicit Types n : Node W X K T.

(** What a request to the service leaves of the process. *)
Definition asked (m : KvsSpec.state) n n' : Prop :=
  n_objectStores n' = n_objectStores n /\ n_fileHandles n' = n_fileHandles n /\ n_heap n' = n_heap n /\
  n_fs n' = n_fs n /\ svc_abs (n_mdw n') m /\ coherent (n_md n') m /\ is_connected (n_md n') = true.

Definition asking (m : KvsSpec.state) n : Prop :=
  is_connected (n_md n) = true /\ svc_abs (n_mdw n) m /\ coherent (n_md n) m.

Lemma asked_asking m n n' : asked m n n' -> asking m n'.
Proof. intros (_ & _ & _ & _ & Ha & Hc & Hn). done. Qed.

Lemma asked_trans m n n1 n2 : asked m n n1 -> asked m n1 n2 -> asked m n n2.
Proof. intros (A1 & A2 & A3 & A4 & _) (B1 & B2 & B3 & B4 & B). split_and!; try congruence; apply B. Qed.

Lemma lookup_step b k inv n m :
  asking m n ->
  exists n', md_call (client_lookup b k inv) n =
      Done (match m !! b with
            | None => Error (KvsSpec.no_bucket b)
            | Some mb => match mb !! k with
                         | None => Error (KvsSpec.no_key k)
                         | Some i => Value (mkObject (mkID b k) i)
                         end
            end) n' /\ asked m n n'.
Proof.
  intros (Hn & Ha & Hc). unfold md_call.
  destruct (client_lookup_sim (mkID b k) inv (n_md n) (n_mdw n) m Ha Hc Hn) as (c & w & r & E & Ha' & Hc' & Hn' & [_ [= ->]]).
  change (client_lookup (bucket (mkID b k)) (key (mkID b k)) inv (n_md n) (n_mdw n))
    with (client_lookup b k inv (n_md n) (n_mdw n)) in E.
  rewrite E. by eexists.
Qed.

Lemma list_step b p d n m :
  asking m n -> (d = NUL \/ 0 < int_of_char d) ->
  exists n' r, md_call (listPrefix b p d) n = Done r n' /\ asked m n n' /\
    match r with Value (_, prefixes) => bool_decide (prefixes <> []) | Error _ => false end =
    has_folder p d (default ∅ (m !! b)).
Proof.
  intros (Hn & Ha & Hc) Hd. unfold md_call.
  destruct (listPrefix_sim (mkID b p) d (n_md n) (n_mdw n) m Ha Hc Hn) as (c & w & r & E & Ha' & Hc' & Hn' & [_ Hs]).
  change (listPrefix (bucket (mkID b p)) (key (mkID b p)) d (n_md n) (n_mdw n))
    with (listPrefix b p d (n_md n) (n_mdw n)) in E.
  rewrite E. eexists _, r. split; [done|]. split; [done|].
  assert (Hd' : (if 0 <? int_of_char d then d else NUL) = d).
  { destruct Hd as [->|Hd]; [by destruct (0 <? int_of_char NUL)|]. by rewrite (proj2 (Z.ltb_lt _ _) Hd). }
  cbn [bucket key] in Hs. rewrite Hd' in Hs. destruct (m !! b) as [mb|]; cbn [default].
  - destruct Hs as (objs & cps & [= ->] & Hl). by apply (listing_folders b p d mb objs).
  - injection Hs as ->. symmetry. apply not_true_iff_false. intros (_ & r1 & r2 & [i Hi] & _)%has_folder_true.
    by rewrite lookup_empty in Hi.
Qed.

Lemma lookupBucket_step b n m :
  asking m n ->
  exists n' st, geds_lookupBucket b n = Done st n' /\ asked m n n' /\
    ok st = cs_exists b (n_knownBuckets n) || bool_decide (is_Some (m !! b)).
Proof.
  intros (Hn & Ha & Hc). unfold geds_lookupBucket, bind, gets.
  destruct (cs_exists b (n_knownBuckets n)) eqn:Ek; [by exists n, OkStatus|].
  destruct (client_exec_sim (KvsSpec.BucketStatus b) false (n_md n) (n_mdw n) m Ha Hc Hn I)
    as (c & w & m' & r & E & [-> Hr] & Ha' & Hc' & Hn').
  cbn [client_exec] in E. unfold md_call. destruct (lookupBucket b (n_md n) (n_mdw n)) as [[c' w'] st].
  injection E as -> -> <-. injection Hr as ->. cbn [orb]. destruct (decide (is_Some (m !! b))) as [Hi|Hi].
  - rewrite bool_decide_true by done. change (ok OkStatus) with true. cbn [negb]. by eexists _, OkStatus.
  - rewrite bool_decide_false by done. unfold KvsSpec.no_bucket, NotFoundError. rewrite ok_error by done. cbn [negb].
    eexists _, _. split; [done|]. split; [done|]. by rewrite ok_error.
Qed.

(** Looking for a folder. *)
Lemma listDir_step b key k d n m :
  asking m n -> (d = NUL \/ 0 < int_of_char d) -> mfind b (n_objectStores n) = None ->
  exists n', status_listDir b key k d n =
      Done (if has_folder k d (default ∅ (m !! b)) then Value (mkFileStatus k 0 true) else not_found key) n' /\
    asked m n n'.
Proof.
  intros Ha Hd Hs. destruct (list_step b k d n m Ha Hd) as (n1 & r & E & As & Hf).
  unfold status_listDir. unfold bind at 1. rewrite E, Hf. exists n1. split; [|done].
  destruct (has_folder k d (default ∅ (m !! b))); [done|].
  unfold bind, gets, stores_get. destruct As as (-> & _). by rewrite Hs.
Qed.
End status.

(** ** Operations on prefixes *)

Section prefixes.
Context {W X K T : Type} `{MDService W}.
Implicit Types n : Node W X K T.

(** One operation after the other, until one fails. *)
Fixpoint until_error (acts : list (M W X K T Status)) : M W X K T Status :=
  match acts with
  | [] => ret OkStatus
  | act :: acts => let* st := act in if negb (ok st) then ret st else until_error acts
  end.

Lemma prefix_loop_exact (act : str -> str -> M W X K T Status) src dest l n :
  Forall (fun e => is_file e /\ starts_with src (fs_key e) = true) l ->
  prefix_loop act src dest l n =
    until_error (map (fun k => act k (dest ++ drop (length src) k)) (map fs_key l)) n.
Proof.
  intros Hl. revert n. induction Hl as [|e l [Hf Hp] Hl IH]; intros n; [done|].
  cbn [prefix_loop map until_error]. rewrite Hf.
  assert (Hlen : (length src <= length (fs_key e))%nat).
  { apply starts_with_prefix in Hp as [rest ->]. rewrite length_app. lia. }
  unfold substr. rewrite (proj2 (Nat.ltb_ge _ _) Hlen). unfold bind.
  destruct (act (fs_key e) (dest ++ drop (length src) (fs_key e)) n) as [st n1| |]; [|done..].
  destruct (ok st); cbn [negb]; [apply IH|done].
Qed.

(** A listing without delimiter is the list of the objects with the prefix. *)
Lemma listing_all b p mb l :
  exact_listing b p NUL mb (Value l) ->
  Forall (fun e => is_file e /\ starts_with p (fs_key e) = true) l /\
  sorted_keys (map fs_key l) /\
  forall k, k ∈ map fs_key l <-> is_Some (mb !! k) /\ starts_with p k = true.
Proof.
  intros (objs & cps & (Ho & _ & Hc & _) & (ds & fs & -> & Hds & Hfs & _ & Hs) & Hin & Hout).
  assert (Hcps : cps = []).
  { destruct cps as [|q cps]; [done|]. destruct (proj1 (Hc q)) as [Hd _]; [apply elem_of_cons; by left|]. done. }
  subst cps. cbn [list_dirs map] in *. rewrite app_nil_r in *.
  assert (Hlf : forall f, f ∈ list_files NUL objs <->
                  exists o, o ∈ objs /\ f = mkFileStatus (key (id o)) (osize (info o)) false).
  { intros f. unfold list_files. rewrite list_elem_of_In, in_map_iff. split.
    - intros (o & <- & Hf). apply filter_In in Hf as [Hf _]. exists o. by rewrite list_elem_of_In.
    - intros (o & Hf & ->). exists o. split; [done|]. apply filter_In. by rewrite <- list_elem_of_In. }
  assert (Hds' : ds = []).
  { destruct ds as [|e ds]; [done|]. apply List.Forall_inv in Hds. unfold is_dir in Hds.
    destruct (proj1 (Hlf e)) as (o & _ & ->); [|done]. apply Hin. apply elem_of_app. left. apply elem_of_cons. by left. }
  subst ds. cbn [app] in *. split; [|split; [done|]].
  - apply Forall_forall. intros f Hf. pose proof Hf as Hf'. apply list_elem_of_In in Hf'. apply Hin, Hlf in Hf' as (o & Hoo & ->).
    split; [done|]. apply Ho in Hoo as (_ & _ & rest & Hk & _). cbn [fs_key]. apply starts_with_prefix. by exists rest.
  - intros k. rewrite list_elem_of_In, in_map_iff. split.
    + intros (f & <- & Hf). apply list_elem_of_In, Hin, Hlf in Hf as (o & Hoo & ->). cbn [fs_key].
      apply Ho in Hoo as (_ & Hv & rest & Hk & _). rewrite Hv. split; [done|]. apply starts_with_prefix. by exists rest.
    + intros [[i Hi] Hp]. apply starts_with_prefix in Hp as [rest Hk].
      destruct (Hout (mkFileStatus k (osize i) false)) as (f & Hf & He).
      { apply Hlf. exists (mkObject (mkID b k) i). split; [|done]. apply Ho. split; [done|]. split; [done|].
        exists rest. split; [done|by left]. }
      apply file_status_eqb_spec in He as [Hk' _]. exists f. split; [done|by apply list_elem_of_In].
Qed.
End prefixes.

(** ** Properties *)

(** C24: the status of an object or directory. For a bucket without object store
    the answer of [status] is determined by the contents of the metadata store:
    the root of a known bucket is a directory; a key of the store is a file with
    its size; otherwise a key is a directory exactly if some object's key has a
    further delimiter after the key and its delimiter, and NotFound if not, so
    that a directory in which all objects are direct children is not found. *)
Theorem geds_status_exact (W X K T : Type) `{MDService W} `{S3Client X} b k d (n : Node W X K T) m :
  is_connected (n_md n) = true -> svc_abs (n_mdw n) m -> coherent (n_md n) m ->
  mfind b (n_objectStores n) = None -> (d = NUL \/ 0 < int_of_char d) ->
  exists n', geds_status b k d n =
      Done (status_spec (cs_exists b (n_knownBuckets n)) (m !! b) k d) n' /\
    svc_abs (n_mdw n') m /\ coherent (n_md n') m.
Proof.
  intros Hn Ha Hc Hs Hd. assert (A : asking m n) by done. unfold geds_status, status_spec.
  enough (Hgoal : forall (c : M W X K T (StatusOr GEDSFileStatus)) r,
            (exists n', c n = Done r n' /\ asked m n n') ->
            exists n', c n = Done r n' /\ svc_abs (n_mdw n') m /\ coherent (n_md n') m).
  2: { intros c r (n' & E & (_ & _ & _ & _ & A1 & A2 & _)). by exists n'. }
  apply Hgoal. clear Hgoal.
  destruct (bool_decide (k = []) || bool_decide (k = [d])).
  - destruct (lookupBucket_step b n m A) as (n1 & st & E & As & Hok). unfold bind at 1. rewrite E, <- Hok.
    unfold bind, gets, stores_get. pose proof As as (-> & _). rewrite Hs. cbn [is_ok].
    rewrite orb_false_r. destruct (ok st); by exists n1.
  - destruct (bool_decide (list.last k = Some d)); [by apply listDir_step|].
    destruct (lookup_step b k true n m A) as (n1 & E & As). unfold bind at 1. rewrite E.
    assert (Hrest : exists n', (let* s3 := gets (fun n => stores_get b (n_objectStores n)) in
        let* s3Status := if is_ok s3 then s3_call b (s3_fileStatus b k) else ret (Error (NotFoundError [])) in
        if is_ok s3Status then ret s3Status
        else if negb (code_is kNotFound (status_of s3Status)) then ret (Error (status_of s3Status))
        else if bool_decide (d <> NUL) then status_listDir b k (k ++ [d]) d
        else ret (Error (NotFoundError ("Key " ++ k ++ " not found!")))) n1 =
      Done (if bool_decide (d <> NUL)
            then if has_folder (k ++ [d]) d (default ∅ (m !! b)) then Value (mkFileStatus (k ++ [d]) 0 true) else not_found k
            else not_found k) n' /\ asked m n n').
    { pose proof As as (Hst & _). unfold bind at 1, gets, stores_get. rewrite Hst, Hs. cbn [is_ok].
      unfold bind at 1, ret at 1. cbn [is_ok status_of]. unfold code_is, NotFoundError. rewrite code_error.
      change (negb (bool_decide (kNotFound = kNotFound))) with false. cbn iota.
      case_bool_decide; [|by exists n1].
      destruct (listDir_step b k (k ++ [d]) d n1 m (asked_asking _ _ _ As) Hd) as (n2 & E2 & As2); [by rewrite Hst|].
      exists n2. split; [exact E2|]. by apply (asked_trans m n n1). }
    destruct (m !! b) as [mb|]; cbn [default] in *; unfold Datatypes.id in *; [|rewrite lookup_empty; exact Hrest].
    destruct (mb !! k) as [i|]; [by exists n1|exact Hrest].
Qed.

(** [copyPrefix] and [renamePrefix] treat every object with the prefix once.
    They list the bucket before anything changes, and then apply [copy] or
    [rename] to exactly the objects whose keys start with the source prefix, in
    ascending order and without crashing, each to the destination prefix
    followed by the rest of its key; they stop at the first error and return
    it. *)
Theorem on_prefix_exact (W X K T : Type) `{MDService W} (act : str -> str -> M W X K T Status)
    b src dest (n : Node W X K T) m mb :
  pubSubEnabled (n_config n) = false ->
  is_connected (n_md n) = true -> svc_abs (n_mdw n) m -> coherent (n_md n) m -> m !! b = Some mb ->
  exists n' keys,
    on_prefix act b src dest n =
      until_error (map (fun k => act k (dest ++ drop (length src) k)) keys) n' /\
    sorted_keys keys /\ (forall k, k ∈ keys <-> is_Some (mb !! k) /\ starts_with src k = true) /\
    svc_abs (n_mdw n') m /\ coherent (n_md n') m.
Proof.
  intros Hps Hc Ha Hco Hm. destruct (geds_list_step b src NUL n m mb Hps Hc Ha Hco Hm (or_introl eq_refl))
    as (n' & r & E & Ha' & Hco' & Hl).
  unfold on_prefix, geds_list_all. unfold bind at 1. rewrite E. destruct r as [l|st].
  - destruct (listing_all b src mb l Hl) as (Hf & Hs & Hk). exists n', (map fs_key l).
    split; [by apply prefix_loop_exact|done].
  - destruct Hl as (objs & cps & _ & _ & Hd & _). by destruct Hd.
Qed.

(** Making a directory twice terminates the process. When the marker of the
    directory [path] exists in the process, [mkdirs] of the directory, with or
    without the delimiter at the end, does not return: the status
    AlreadyExists is let through and the missing file is accessed. *)
Theorem mkdirs_existing_crashes (W X K T : Type) `{MDService W} `{S3Client X} `{KernelFair K} `{Transfers T}
    depth b path h (n : Node W X K T) :
  let dir := if bool_decide (list.last path = Some Default_GEDSFolderDelimiter)
             then path else path ++ [Default_GEDSFolderDelimiter] in
  let marker := dir ++ Default_DirectoryMarker in
  path <> [] -> path <> [Default_GEDSFolderDelimiter] ->
  node_wf n -> n_state n = Running -> ok (isValid b marker) = true ->
  cs_exists b (n_knownBuckets n) = true -> interrupts (n_kernel n) = 0%nat ->
  mfind (getPath b marker) (n_fileHandles n) = Some h ->
  mkdirs (S (S depth)) b path Default_GEDSFolderDelimiter n = Crash.
Proof.
  intros dir marker Hne Hne2 Hw Hr Hv Hb Hk Hf.
  assert (Hd : forall depth, mkdirs (S depth) b dir Default_GEDSFolderDelimiter n = Crash).
  { intros dp. cbn [mkdirs].
    assert (Hlast : list.last dir = Some Default_GEDSFolderDelimiter).
    { subst dir. case_bool_decide; [done|apply last_snoc]. }
    rewrite !bool_decide_false; [|by rewrite Hlast; congruence| |].
    - cbn [orb]. pose proof (create_existing b marker h n Hw Hr Hv Hb Hk Hf) as Hc.
      destruct (getLocalPath _ _ _ _) as [names p]. destruct Hc as (kern & fs & _ & E & _).
      unfold geds_create. unfold bind at 1. unfold bind at 1. fold marker. rewrite E. unfold ret.
      unfold code_is, AlreadyExistsError. by rewrite code_error.
    - subst dir. case_bool_decide; [done|]. intros E. apply (f_equal length) in E. rewrite length_app in E. simpl in E.
      destruct path; [done|]. simpl in E. lia.
    - intros E. rewrite E in Hlast. done. }
  destruct (bool_decide (list.last path = Some Default_GEDSFolderDelimiter)) eqn:El; [exact (Hd (S depth))|].
  cbn [mkdirs]. apply bool_decide_eq_false in El. rewrite (bool_decide_false (path = [])) by done.
  rewrite (bool_decide_false (path = [_])) by done. cbn [orb]. rewrite bool_decide_true by done. exact (Hd depth).
Qed.

(** ** Witnesses *)

#[local] Existing Instance the_stub.
#[local] Existing Instance the_service.

(** The directory [dir] has an object and is listed, but has no status. *)
Lemma geds_status_exact_witness :
  (exists n', geds_status "bkt" "dir" "/" full_node = Done (Error (NotFoundError "Key dir not found!")) n') /\
  (exists n', geds_status "bkt" "top" "/" full_node = Done (Value (mkFileStatus "top" 5 false)) n') /\
  (exists n', geds_status "bkt" "" "/" full_node = Done (Value (mkFileStatus "" 0 true)) n').
Proof.
  pose proof (fun k => geds_status_exact Server MemS3.world nat unit "bkt" k "/" full_node demo_state eq_refl
                demo_store_abs (empty_coherent _ _ _) eq_refl (or_intror eq_refl)) as S.
  split; [|split].
  - destruct (S ("dir" : str)) as (n' & E & _). exists n'. exact E.
  - destruct (S ("top" : str)) as (n' & E & _). exists n'. exact E.
  - destruct (S ("" : str)) as (n' & E & _). exists n'. exact E.
Defined.

Definition log_copy (k newKey : str) : M Server MemS3.world nat unit Status := ret OkStatus.

Lemma on_prefix_exact_witness :
  exists n' keys, on_prefix log_copy "bkt" "dir/" "new/" full_node =
      until_error (map (fun k => log_copy k ("new/" ++ drop 4 k)) keys) n' /\
    forall k, k ∈ keys <-> is_Some (demo_bucket !! k) /\ starts_with "dir/" k = true.
Proof.
  destruct (on_prefix_exact Server MemS3.world nat unit log_copy "bkt" "dir/" "new/" full_node demo_state demo_bucket
              eq_refl eq_refl demo_store_abs (empty_coherent _ _ _) (lookup_insert_eq _ _ _)) as (n' & keys & E & _ & Hk & _).
  exists n', keys. split; [exact E|exact Hk].
Defined.

(** A process in which the marker of [dir] has been created. *)
Definition marked_node : Node Server MemS3.world nat unit :=
  set_fileHandles [(getPath "bkt" ("dir/" ++ Default_DirectoryMarker), 0%nat)] stored_node.

Lemma mkdirs_existing_crashes_witness : mkdirs 2 "bkt" "dir" "/" marked_node = Crash.
Proof.
  apply (mkdirs_existing_crashes Server MemS3.world nat unit 0 "bkt" "dir" 0 marked_node); try reflexivity; try done.
  destruct stored_node_wf as [_ _ Hh]. constructor; [repeat constructor|repeat constructor; simpl; lia|exact Hh].
Defined.
