(* ===== verification/GEDSRelocate.v ===== *)
(** * Relocation to the object store

    Properties of moving objects between tiers: [relocate] of a local file to S3
    (src/src/libgeds/GEDS.cpp, GEDSAbstractFileHandle.h, GEDSS3FileHandle.cpp), and
    the relocatable handle that finds an object again after it has moved
    (GEDSRelocatableFileHandle.cpp). *)

From Stdlib Require Import Ascii ZArith Lia.
From stdpp Require Import base gmap sets list strings numbers.
From S2P Require Import Prelude Bytes Decimal Status StdMap Path Object FileSet MDSKVSBucket MDSKVS S3Endpoint Rpc.
From S2P Require Import MetadataServer MetadataService LocalFile ConcurrentMap GedsNames FileHandle.
From S2P Require Import Node Handles HandleIO GEDS GEDSCreate GEDSObjects.

Open Scope Z_scope.
Open Scope list_scope.

#[local] Opaque to_string.

(** ** Storing objects *)

(** An S3 service that stores what is put, when the announced length is that of
    the body. *)
Class S3Store (X : Type) `{S3Service X} := {
  put_object w b k c :
    len c < 2 ^ 63 ->
    exists w', PutObject b k c (Some (len c)) w = (w', PutReturned (Success tt)) /\
      forall b' k', contents w' b' k' =
        if decide (b' = b /\ k' = k) then Some c else contents w b' k'
}.

#[global] Instance mem_store : S3Store MemS3.world.
Proof.
  constructor. intros w b k c Hc. eexists. split; [reflexivity|]. intros b' k'. simpl. unfold MemS3.get.
  case_decide as E.
  - destruct E as [-> ->]. rewrite lookup_insert_eq. by rewrite (proj2 (Z.ltb_lt _ _) Hc).
  - rewrite lookup_insert_ne; [done|]. intros [= -> ->]. by apply E.
Defined.

(** ** Steps *)

(** Everything but the object store of a bucket is as before. *)
Record s3_only {W X K T} (n n' : Node W X K T) : Prop := {
  so_config : n_config n' = n_config n;
  so_state : n_state n' = n_state n;
  so_md : n_md n' = n_md n;
  so_mdw : n_mdw n' = n_mdw n;
  so_uri : n_hostURI n' = n_hostURI n;
  so_handles : n_fileHandles n' = n_fileHandles n;
  so_stores : n_objectStores n' = n_objectStores n;
  so_heap : n_heap n' = n_heap n;
  so_next : n_next n' = n_next n;
  so_fs : n_fs n' = n_fs n;
  so_kernel : n_kernel n' = n_kernel n;
  so_transfers : n_transfers n' = n_transfers n
}.

Section steps.
Context {W X K T : Type} `{MDService W} `{S3Store X} `{KernelFair K} `{Transfers T}.
Implicit Types n : Node W X K T.

Definition object_at n (l b k : str) : option str := contents (s3_world (n_s3 n l)) b k.

(** No object changed, and only the object [b/k] of its store, which is now [c]. *)
Definition same_objects n n' : Prop := forall l b k, object_at n' l b k = object_at n l b k.

Definition stored (b k c : str) n n' : Prop :=
  forall l b' k', object_at n' l b' k' = if decide (l = b /\ b' = b /\ k' = k) then Some c else object_at n l b' k'.

Lemma stored_at b k c n n' : stored b k c n n' -> object_at n' b b k = Some c.
Proof. intros Hs. rewrite Hs. by rewrite decide_True. Qed.

Lemma s3_only_set l s n : s3_only n (set_s3 l s n).
Proof. by constructor. Qed.

Lemma s3_world_set l s n : s3_world (n_s3 (set_s3 l s n) l) = s3_world s.
Proof. cbn [n_s3 set_s3]. by rewrite decide_True by done. Qed.

Lemma fsync_step fuel h n x f i s :
  n_heap n !! h = Some x -> h_kind x = KLocal f i s -> 0 <= lf_fd f ->
  interrupts (n_kernel n) = 0%nat -> (1 <= fuel)%nat ->
  exists k', interrupts k' = 0%nat /\
  local_update h (fun f k => match lf_fsync fuel f k with Some (k, st) => Some (f, k, st) | None => None end) n =
    Done OkStatus (set_fs (set_inode i (inode_data i (n_fs n)) (n_fs n)) k'
      (set_heap (<[h := with_kind (KLocal (with_data [] f) i s) x]> (n_heap n)) (n_next n) n)).
Proof.
  intros Hh Hx Hfd Hk Hf. destruct (call_quiet _ Hk) as (k' & Ek & Hk'). exists k'. split; [done|].
  apply (local_update_step h _ n x f i s (with_data (inode_data i (n_fs n)) f) k'); [done|done|].
  destruct fuel as [|fuel]; [lia|]. cbn [lf_fsync lf_fd with_data].
  rewrite (proj2 (Z.ltb_ge (lf_fd f) 0)) by lia. by rewrite Ek.
Qed.

Lemma put_step b k c n :
  len c < 2 ^ 63 ->
  exists n', s3_call b (s3_putObject b k c (Some (len c))) n = Done OkStatus n' /\ s3_only n n' /\ stored b k c n n'.
Proof.
  intros Hc. unfold s3_call, s3_putObject. cbn [count_request s3_world].
  destruct (put_object (s3_world (n_s3 n b)) b k c Hc) as (w' & -> & Hw). eexists. split; [done|].
  split; [apply s3_only_set|]. intros l b' k'. unfold object_at. destruct (decide (l = b)) as [->|Hl].
  - rewrite s3_world_set. cbn [with_world s3_world]. rewrite Hw. by repeat case_decide; try naive_solver.
  - cbn [n_s3 set_s3]. rewrite !decide_False by naive_solver. done.
Qed.

Lemma fileStatus_step l b k c n :
  object_at n l b k = Some c ->
  exists n', s3_call l (s3_fileStatus b k) n = Done (Value (mkFileStatus k (len c) false)) n' /\
    s3_only n n' /\ same_objects n n'.
Proof.
  intros Hc. pose proof (object_size _ _ _ _ Hc) as Hs. pose proof (len_nonneg c).
  unfold s3_call, s3_fileStatus. cbn [count_request s3_world].
  rewrite (head_object _ _ _ c Hc), u64_small by (unfold is_u64, two64; lia).
  eexists. split; [done|]. split; [apply s3_only_set|]. intros l' b' k'. unfold object_at.
  destruct (decide (l' = l)) as [->|Hl]; [by rewrite s3_world_set|]. cbn [n_s3 set_s3]. by rewrite decide_False.
Qed.

(** Opening an S3 object that exists. *)
Lemma s3_factory_step bucket key md b k c e n :
  mfind b (n_objectStores n) = Some e -> object_at n b b k = Some c ->
  exists n', s3_factory_at bucket key md b k n =
      Done (Value (n_next n))
        (set_heap (<[n_next n := newHandle bucket key md (KS3 b k (len c))]> (n_heap n)) (S (n_next n)) n') /\
    s3_only n n' /\ same_objects n n'.
Proof.
  intros He Hc. unfold s3_factory_at, getS3Endpoint. unfold bind at 1, gets, stores_get. rewrite He.
  destruct (fileStatus_step b b k c n Hc) as (n1 & E1 & O1 & C1). unfold bind at 1. rewrite E1.
  unfold new_s3_handle. destruct (fileStatus_step b b k c n1) as (n2 & E2 & O2 & C2); [by rewrite C1|].
  unfold bind at 1. rewrite E2. cbn [fs_size]. unfold bind, new_handle, ret. exists n2.
  rewrite (so_next _ _ O2), (so_next _ _ O1), (so_heap _ _ O2), (so_heap _ _ O1).
  split; [done|]. split; [destruct O1, O2; constructor; congruence|]. intros l' b' k'. by rewrite C2.
Qed.

(** Sealing an S3 object announces its location. *)
Lemma s3_seal_step s y b k size n m mb :
  h_kind y = KS3 b k size -> n_state n = Running -> is_connected (n_md n) = true ->
  svc_abs (n_mdw n) m -> m !! h_bucket y = Some mb ->
  exists w, base_seal s y n = Done OkStatus (set_md (n_md n) w n) /\
    svc_abs w (<[h_bucket y := <[h_key y := mkInfo (s3_location b k) size size (h_metadata y)]> mb]> m).
Proof.
  intros Hy Hr Hc Ha Hm. unfold base_seal. rewrite Hy. unfold s3fh_seal, geds_seal, running_status. rewrite Hr.
  unfold bind, gets. cbn [default]. unfold md_call, client_createObject. rewrite Hc. cbn [negb].
  set (obj := mkObject _ _).
  destruct (status_call_law (stub_Create (fill_object obj)) (unavailable "Unable to execute Create command: ")
              _ (n_mdw n) m (svc_Create obj) Ha) as (w & m' & st & E & Hst & Ha').
  rewrite E. simpl in Hst. rewrite Hm in Hst. simpl in Hst. destruct Hst as [-> [= ->]].
  by exists w.
Qed.

(** Reading through an S3 handle. *)
Lemma s3_read_step fuel depth s n y b k size c pos cnt :
  n_heap n !! s = Some y -> h_kind y = KS3 b k size -> h_isValid y = true ->
  object_at n b b k = Some c -> 0 <= pos -> 0 <= cnt -> pos + cnt < two64 ->
  (chunks_left cnt <= fuel)%nat ->
  exists n', h_readBytes fuel (S depth) s pos cnt n =
    Done (Value (Z.max 0 (Z.min cnt (len c - pos)), slice pos cnt c)) n' /\ s3_only n n'.
Proof.
  intros Hs Hy Hv Hc Hp Hn Hmax Hf. cbn [h_readBytes]. unfold bind at 1, the_handle. rewrite Hs, Hy.
  unfold s3fh_readBytes. rewrite Hv. cbn [negb]. unfold bind at 1, s3_loop.
  destruct (readBytes_loop_spec b k c pos cnt fuel 0 (n_s3 n b) Hc Hp Hmax) as (s' & E & _);
    [lia|lia|unfold chunks_left in Hf; lia|rewrite Z.sub_0_r; done|].
  rewrite slice_0 in E. unfold s3_readBytes. rewrite E. cbn [is_ok negb orb status_of].
  change (code_is kNotFound OkStatus) with false. unfold bind, ret.
  eexists. split; [done|]. apply s3_only_set.
Qed.

(** Dropping a reference to a handle that holds no others leaves the rest. *)
Lemma drop_leaf h n x :
  n_heap n !! h = Some x -> children x = [] ->
  exists n', drop_ref h n = Done tt n' /\ same_service n n' /\ n_s3 n' = n_s3 n /\
    forall h', h' <> h -> n_heap n' !! h' = n_heap n !! h'.
Proof.
  intros Hh Hx. unfold drop_ref. cbn [release]. rewrite Hh. destruct (referenced h n); [by exists n|].
  unfold bind, modify.
  assert (Hd : forall h', h' <> h -> delete h (n_heap n) !! h' = n_heap n !! h') by (intros; by apply lookup_delete_ne).
  unfold children in Hx. destruct (h_kind x) as [f i s| | | |]; [|by eexists|by eexists|done|done].
  destruct (0 <=? lf_fd f); [|by eexists]. unfold removeFile. by destruct (call _) as [k []]; eexists.
Qed.

(** What relocating the local file [data] behind [x] leads to: the object is in
    the store and announced there, and the new handle [s] refers to it. *)
Record relocated (x : Handle) (data : str) (h s : nat) (m : KvsSpec.state) (mb : gmap str ObjectInfo) n n' :
    Prop := {
  rl_md : n_md n' = n_md n;
  rl_state : n_state n' = n_state n;
  rl_handles : n_fileHandles n' = n_fileHandles n;
  rl_store : svc_abs (n_mdw n')
    (<[h_bucket x := <[h_key x := mkInfo (s3_location (h_bucket x) (h_key x)) (len data) (len data)
                                    (h_metadata x)]> mb]> m);
  rl_stored : stored (h_bucket x) (h_key x) data n n';
  rl_new : n_heap n' !! s =
    Some (newHandle (h_bucket x) (h_key x) (h_metadata x) (KS3 (h_bucket x) (h_key x) (len data)));
  rl_old f i sl : h_kind x = KLocal f i sl ->
    n_heap n' !! h = Some (with_valid false (with_kind (KLocal (with_data [] f) i sl) x));
  rl_heap h' : h' <> h -> h' <> s -> n_heap n' !! h' = n_heap n !! h';
  rl_next : n_next n' = S (n_next n);
  rl_stores : n_objectStores n' = n_objectStores n;
  rl_names : fs_names (n_fs n') = fs_names (n_fs n);
  rl_inodes i : inode_data i (n_fs n') = inode_data i (n_fs n);
  rl_kernel : interrupts (n_kernel n') = 0%nat
}.

Lemma local_relocate_step fuel h n x f i sl m mb e :
  n_heap n !! h = Some x -> h_kind x = KLocal f i sl -> h_isValid x = true -> h_openCount x = 0 ->
  lf_wf (with_data (inode_data i (n_fs n)) f) -> fs_names (n_fs n) !! lf_path f = Some i ->
  mfind (h_bucket x) (n_objectStores n) = Some e -> n_state n = Running ->
  is_connected (n_md n) = true -> svc_abs (n_mdw n) m -> m !! h_bucket x = Some mb ->
  interrupts (n_kernel n) = 0%nat -> (1 <= fuel)%nat -> (h < n_next n)%nat ->
  exists n', local_relocate fuel h n = Done (Value (n_next n)) n' /\
    relocated x (inode_data i (n_fs n)) h (n_next n) m mb n n'.
Proof.
  intros Hh Hx Hv Ho Hwf Hnm He Hr Hc Ha Hm Hk Hf Hlt. set (data := inode_data i (n_fs n)) in *.
  destruct Hwf as [Hfd Hsz Hsm]. cbn [lf_fd lf_size lf_data with_data] in *.
  unfold local_relocate. unfold bind at 1, the_handle. rewrite Hh, Hx, Hv, Ho. cbn [negb Z.ltb Z.compare].
  unfold bind at 1, getS3Endpoint, gets, stores_get. rewrite He. cbn [is_ok negb].
  destruct (fsync_step fuel h n x f i sl Hh Hx Hfd Hk Hf) as (k1 & Hk1 & E1).
  unfold bind at 1. rewrite E1. change (ok OkStatus) with true. cbn [negb]. set (n1 := set_fs _ _ _).
  unfold bind at 1, gets. cbn [n1 n_fs set_fs fs_names set_inode]. rewrite Hnm.
  replace (inode_data i (set_inode i (inode_data i (n_fs n)) (n_fs n))) with data
    by (unfold inode_data; cbn [set_inode fs_inodes]; by rewrite lookup_insert_eq).
  rewrite Hsz. destruct (put_step (h_bucket x) (h_key x) data n1) as (n2 & E2 & O2 & C2);
    [unfold INT64_MAX in Hsm; lia|].
  unfold bind at 1. rewrite E2. change (ok OkStatus) with true. cbn [negb]. unfold bind at 1, s3_factory.
  destruct (s3_factory_step (h_bucket x) (h_key x) (h_metadata x) (h_bucket x) (h_key x) data e n2)
    as (n3 & E3 & O3 & C3); [rewrite (so_stores _ _ O2); exact He|by eapply stored_at|].
  rewrite E3. set (y := newHandle _ _ _ _). set (n4 := set_heap _ _ _).
  rewrite (so_next _ _ O2). change (n_next n1) with (n_next n).
  assert (Hy : n_heap n4 !! n_next n = Some y).
  { cbn [n4 n_heap set_heap]. rewrite (so_next _ _ O2). apply lookup_insert_eq. }
  unfold bind at 1, the_handle. rewrite Hy.
  destruct (s3_seal_step (n_next n) y (h_bucket x) (h_key x) (len data) n4 m mb eq_refl) as (w & E4 & Ha4).
  { cbn [n4 n_state set_heap]. by rewrite (so_state _ _ O3), (so_state _ _ O2). }
  { cbn [n4 n_md set_heap]. by rewrite (so_md _ _ O3), (so_md _ _ O2). }
  { cbn [n4 n_mdw set_heap]. rewrite (so_mdw _ _ O3), (so_mdw _ _ O2). exact Ha. }
  { exact Hm. }
  unfold bind at 1. rewrite E4. change (ok OkStatus) with true. cbn [negb]. unfold bind, update_handle, ret.
  eexists. split; [done|]. clear E1 E2 E3 E4.
  constructor; cbn [n_md n_state n_fileHandles n_mdw n_heap n_next n_objectStores n_fs n_kernel n_s3 set_heap set_md n4];
    rewrite ?(so_next _ _ O2), ?(so_md _ _ O3), ?(so_md _ _ O2), ?(so_state _ _ O3), ?(so_state _ _ O2),
      ?(so_handles _ _ O3), ?(so_handles _ _ O2), ?(so_stores _ _ O3), ?(so_stores _ _ O2), ?(so_fs _ _ O3), ?(so_fs _ _ O2),
      ?(so_kernel _ _ O3), ?(so_kernel _ _ O2); try done.
  - intros l b' k'. change (object_at _ l b' k') with (object_at n3 l b' k') at 1. rewrite C3, C2. done.
  - rewrite lookup_alter, decide_False by lia. apply lookup_insert_eq.
  - intros f' i' sl' Hk'. rewrite Hx in Hk'. injection Hk' as <- <- <-. rewrite lookup_alter, decide_True by done.
    rewrite lookup_insert_ne by (cbn; lia). rewrite (so_heap _ _ O2). cbn [n1 n_heap set_heap set_fs]. by rewrite lookup_insert_eq.
  - intros h' Hne Hne'. rewrite lookup_alter, decide_False by done. rewrite lookup_insert_ne by done.
    rewrite (so_heap _ _ O2). cbn [n1 n_heap set_heap set_fs]. by rewrite lookup_insert_ne.
  - intros i'. cbn [n1 n_fs set_fs]. unfold inode_data. cbn [set_inode fs_inodes].
    destruct (decide (i' = i)) as [->|Hne]; [by rewrite lookup_insert_eq|by rewrite lookup_insert_ne].
Qed.
(** ** Looking an object up again *)

Lemma readBytes_reloc fuel depth h n x r pos cnt :
  n_heap n !! h = Some x -> h_kind x = KReloc r ->
  h_readBytes fuel (S depth) h pos cnt n = reloc_readBytes (h_readBytes fuel depth) h pos cnt n.
Proof. intros Hh Hx. cbn [h_readBytes]. unfold bind at 1, the_handle. by rewrite Hh, Hx. Qed.

Lemma readBytes_remote fuel depth h n y host inf pos cnt :
  n_heap n !! h = Some y -> h_kind y = KRemote host inf ->
  h_readBytes fuel (S depth) h pos cnt n = remote_readBytes y host pos cnt n.
Proof. intros Hh Hx. cbn [h_readBytes]. unfold bind at 1, the_handle. by rewrite Hh, Hx. Qed.

Lemma parse_s3_location_join sb sk : "/"%char ∉ sb -> parse_s3_location (s3_location sb sk) = Value (sb, sk).
Proof.
  intros Hsb. unfold parse_s3_location, s3_location. rewrite starts_with_app. cbn [negb].
  unfold find_from. rewrite drop_app_length. change ("/" ++ sk) with ("/"%char :: sk).
  rewrite find_char_app_cons by done. cbn [fmap option_fmap option_map].
  rewrite Nat.add_comm, Nat.add_sub, take_app_length.
  change (S (length sb + length "s3://")) with (S (length sb) + length "s3://")%nat.
  rewrite Nat.add_comm, <- drop_drop, drop_app_length.
  change (S (length sb)) with (1 + length sb)%nat. rewrite Nat.add_comm, <- drop_drop, drop_app_length. done.
Qed.

Lemma reopen_s3_step b k sb sk c e newInfo m mb n :
  is_connected (n_md n) = true -> svc_abs (n_mdw n) m -> coherent (n_md n) m ->
  m !! b = Some mb -> mb !! k = Some newInfo ->
  location newInfo = s3_location sb sk -> "/"%char ∉ sb ->
  cache_objects_from_s3 (n_config n) = false -> mfind sb (n_objectStores n) = Some e ->
  object_at n sb sb sk = Some c ->
  exists n', reopenFileHandle b k true n = Done (Value (n_next n)) n' /\
    n_heap n' = <[n_next n := newHandle b k (metadata newInfo) (KS3 sb sk (len c))]> (n_heap n) /\
    n_fileHandles n' = n_fileHandles n /\ svc_abs (n_mdw n') m /\ object_at n' sb sb sk = Some c.
Proof.
  intros Hc Ha Hco Hm Hmb Hloc Hsb Hcfg He Hobj. unfold reopenFileHandle, reopen_invalidating. unfold bind at 1, md_call.
  destruct (client_lookup_sim (mkID b k) true (n_md n) (n_mdw n) m Ha Hco Hc) as (cl & w & o & E & Ha' & _ & _ & Hs).
  change (client_lookup (bucket (mkID b k)) (key (mkID b k)) true (n_md n) (n_mdw n))
    with (client_lookup b k true (n_md n) (n_mdw n)) in E.
  rewrite E. simpl in Hs. rewrite Hm, Hmb in Hs. destruct Hs as [_ [= ->]].
  unfold handle_for. cbn [info]. rewrite Hloc. change (starts_with "geds://" (s3_location sb sk)) with false.
  change (starts_with "s3://" (s3_location sb sk)) with true. unfold bind at 1, gets. cbn [n_config set_md]. rewrite Hcfg.
  unfold s3_factory_object. cbn [info]. rewrite Hloc, parse_s3_location_join by done. cbn [id bucket key].
  destruct (s3_factory_step b k (metadata newInfo) sb sk c e (set_md cl w n) He Hobj) as (n1 & E1 & O1 & C1).
  eexists. split; [exact E1|]. cbn [n_heap n_fileHandles n_mdw n_s3 set_heap].
  split; [done|]. split; [by rewrite (so_handles _ _ O1)|]. split; [rewrite (so_mdw _ _ O1); exact Ha'|exact (eq_trans (C1 sb sb sk) Hobj)].
Qed.
End steps.

(** ** Properties *)

(** C4: relocation keeps the object. Relocating a sealed local file that nobody
    has open, in a bucket with an object store, puts its bytes into the store,
    announces the new location with the size and metadata of the object, and
    replaces the handle; the object can still be opened, and reading it gives
    the bytes it had. *)
Theorem relocate_preserves (W X K T : Type) `{MDService W} `{S3Store X} `{KernelFair K} `{Transfers T}
    fuel b k h x f i sl m mb e pos cnt (n : Node W X K T) :
  node_wf n -> n_state n = Running -> ok (isValid b k) = true -> starts_with CacheBlockMarker k = false ->
  mfind (getPath b k) (n_fileHandles n) = Some h ->
  n_heap n !! h = Some x -> h_kind x = KLocal f i sl -> h_bucket x = b -> h_key x = k ->
  h_isValid x = true -> h_openCount x = 0 ->
  lf_wf (with_data (inode_data i (n_fs n)) f) -> fs_names (n_fs n) !! lf_path f = Some i ->
  mfind b (n_objectStores n) = Some e ->
  is_connected (n_md n) = true -> svc_abs (n_mdw n) m -> m !! b = Some mb ->
  interrupts (n_kernel n) = 0%nat -> (chunks_left cnt <= fuel)%nat ->
  0 <= pos -> 0 <= cnt -> pos + cnt < two64 ->
  let data := inode_data i (n_fs n) in
  exists n1 s n2 n3,
    relocate_handle fuel h false n = Done tt n1 /\
    object_at n1 b b k = Some data /\
    svc_abs (n_mdw n1)
      (<[b := <[k := mkInfo (s3_location b k) (len data) (len data) (h_metadata x)]> mb]> m) /\
    geds_open b k true n1 = Done (Value s) n2 /\
    gf_readBytes fuel s pos cnt n2 =
      Done (Value (Z.max 0 (Z.min cnt (len data - pos)), slice pos cnt data)) n3.
Proof.
  intros Hw Hr Hv Hck Hf Hh Hx <- <- Hval Ho Hwf Hnm He Hc Ha Hm Hk Hfuel Hp Hcnt Hmax data.
  destruct (nw_heap n Hw h x Hh) as [Hlt _].
  destruct (local_relocate_step fuel h n x f i sl m mb e Hh Hx Hval Ho Hwf Hnm He Hr Hc Ha Hm Hk)
    as (n' & E & R); [unfold chunks_left in Hfuel; lia|done|]. fold data in R.
  unfold relocate_handle. unfold bind at 1, the_handle. rewrite Hh. unfold bind at 1, gets, cm_exists.
  rewrite Hf, Ho, Hck. cbn [Z.ltb Z.compare andb negb orb].
  unfold bind at 1, h_relocate. unfold bind at 1, the_handle. rewrite Hh, Hx.
  unfold base_relocate. unfold bind at 1, the_handle. rewrite Hh, Hx, E. cbn iota.
  unfold bind at 1, gets, cm_get. rewrite (rl_handles _ _ _ _ _ _ _ _ R), Hf.
  unfold bind at 1, modify. set (n1 := set_fileHandles _ n').
  destruct (drop_leaf h n1 _ (rl_old _ _ _ _ _ _ _ _ R f i sl Hx)) as (n2 & E2 & S2 & S3 & Hrest); [done|]. rewrite E2.
  exists n2, (n_next n).
  assert (Hnew : n_heap n2 !! n_next n = Some (newHandle (h_bucket x) (h_key x) (h_metadata x)
                   (KS3 (h_bucket x) (h_key x) (len data)))).
  { rewrite Hrest by lia. exact (rl_new _ _ _ _ _ _ _ _ R). }
  assert (Hobj : object_at n2 (h_bucket x) (h_bucket x) (h_key x) = Some data).
  { unfold object_at. rewrite S3. exact (stored_at _ _ _ _ _ (rl_stored _ _ _ _ _ _ _ _ R)). }
  assert (Hst : n_state n2 = Running).
  { rewrite (sm_state _ _ S2). cbn [n1 n_state set_fileHandles]. by rewrite (rl_state _ _ _ _ _ _ _ _ R). }
  assert (Hmap : mfind (getPath (h_bucket x) (h_key x)) (n_fileHandles n2) = Some (n_next n)).
  { rewrite (sm_handles _ _ S2). apply mfind_massign_eq. }
  assert (E3 := open_registered (h_bucket x) (h_key x) (n_next n) n2 _ Hst Hv Hmap Hnew eq_refl).
  set (n3 := set_heap _ _ _) in E3.
  destruct (s3_read_step fuel 4 (n_next n) n3 (with_count 1 (newHandle (h_bucket x) (h_key x) (h_metadata x)
              (KS3 (h_bucket x) (h_key x) (len data)))) (h_bucket x) (h_key x) (len data) data pos cnt)
    as (n4 & E4 & _); try done.
  { cbn [n3 n_heap set_heap]. rewrite lookup_alter, decide_True by done. cbn [n_heap set_filesOpened]. by rewrite Hnew. }
  exists n3, n4. split; [done|]. split; [done|]. split; [|split; [exact E3|exact E4]].
  rewrite (sm_mdw _ _ S2). exact (rl_store _ _ _ _ _ _ _ _ R).
Qed.

(** C22: an open file follows its object. When reading from the host that held an
    object fails and the object has meanwhile been moved to an object store,
    the relocatable handle looks it up again, from then on wraps a handle for
    the new place, and the read returns the bytes stored there. *)
Theorem reloc_read_follows (W X K T : Type) `{MDService W} `{S3Store X} `{KernelFair K} `{Transfers T}
    fuel b k h x r y host oldInfo newInfo sb sk c e m mb t' st pos cnt (n : Node W X K T) :
  node_wf n -> n_heap n !! h = Some x -> h_kind x = KReloc r -> h_bucket x = b -> h_key x = k ->
  n_heap n !! r = Some y -> h_kind y = KRemote host oldInfo -> 0 < cnt ->
  ft_read host (h_bucket y) (h_key y) pos cnt (n_transfers n) = Some (t', Ret (Error st)) ->
  is_connected (n_md n) = true -> svc_abs (n_mdw n) m -> coherent (n_md n) m ->
  m !! b = Some mb -> mb !! k = Some newInfo ->
  location newInfo = s3_location sb sk -> "/"%char ∉ sb ->
  cache_objects_from_s3 (n_config n) = false -> mfind sb (n_objectStores n) = Some e ->
  object_at n sb sb sk = Some c ->
  0 <= pos -> pos + cnt < two64 -> (chunks_left cnt <= fuel)%nat ->
  exists n' x' s,
    gf_readBytes fuel h pos cnt n =
      Done (Value (Z.max 0 (Z.min cnt (len c - pos)), slice pos cnt c)) n' /\
    n_heap n' !! h = Some x' /\ h_kind x' = KReloc s /\
    n_heap n' !! s = Some (newHandle b k (metadata newInfo) (KS3 sb sk (len c))).
Proof.
  intros Hw Hh Hx <- <- Hrr Hy Hcnt Hft Hc Ha Hco Hm Hmb Hloc Hsb Hcfg He Hobj Hp Hmax Hfuel.
  destruct (nw_heap n Hw h x Hh) as [Hlt _]. destruct (nw_heap n Hw r y Hrr) as [Hlr _].
  assert (Hne : h <> r) by (intros ->; congruence).
  unfold gf_readBytes, DEPTH. rewrite (readBytes_reloc fuel 4 h n x r) by done.
  unfold reloc_readBytes. unfold bind at 1, the_handle. rewrite Hh, Hx.
  unfold bind at 1. rewrite (readBytes_remote fuel 3 r n y host oldInfo) by done. unfold remote_readBytes.
  rewrite (proj2 (Z.eqb_neq cnt 0)) by lia. rewrite Hft. set (n1 := set_fileTransfers _ _ _).
  unfold bind at 1, the_handle. change (n_heap n1) with (n_heap n). rewrite Hh, Hx.
  rewrite bool_decide_false by (intros []; done).
  destruct (reopen_s3_step (h_bucket x) (h_key x) sb sk c e newInfo m mb n1) as (n2 & E2 & F2 & O2 & L2 & C2);
    [done..|].
  change (n_next n1) with (n_next n) in *. change (n_heap n1) with (n_heap n) in *.
  unfold bind at 1. rewrite E2. unfold bind at 1, update_handle. unfold bind at 1. set (n3 := set_heap _ _ n2).
  assert (Hr3 : n_heap n3 !! r = Some y).
  { cbn [n3 n_heap set_heap]. rewrite lookup_alter, decide_False, F2, lookup_insert_ne by lia. done. }
  destruct (drop_leaf r n3 y Hr3) as (n4 & E4 & S4 & S3 & Hrest); [unfold children; by rewrite Hy|]. rewrite E4.
  assert (Hnew : n_heap n4 !! n_next n = Some (newHandle (h_bucket x) (h_key x) (metadata newInfo) (KS3 sb sk (len c)))).
  { rewrite Hrest by lia. cbn [n3 n_heap set_heap]. rewrite lookup_alter, decide_False, F2 by lia. apply lookup_insert_eq. }
  destruct (s3_read_step fuel 3 (n_next n) n4 _ sb sk (len c) c pos cnt Hnew eq_refl eq_refl) as (n5 & E5 & O5);
    [unfold object_at; rewrite S3; exact C2|lia..|].
  exists n5, (with_kind (KReloc (n_next n)) x), (n_next n).
  split; [exact E5|]. rewrite (so_heap _ _ O5). split; [|split; [done|exact Hnew]].
  rewrite Hrest by done. cbn [n3 n_heap set_heap]. rewrite lookup_alter, decide_True, F2, lookup_insert_ne by (done || lia).
  by rewrite Hh.
Qed.

(** ** Witnesses *)

#[local] Existing Instance the_stub.
#[local] Existing Instance the_service.

(** The process of the earlier examples, with an object store for its bucket. *)
Definition tiered_node : Node Server MemS3.world nat unit :=
  set_objectStores [("bkt" : str, newEndpoint "http://s3" "ak" "sk")] stored_node.

Lemma relocate_preserves_witness :
  exists n1 s n2 n3,
    relocate_handle 3 0 false tiered_node = Done tt n1 /\
    object_at n1 "bkt" "bkt" "dir/key" = Some ("hello" : str) /\
    geds_open "bkt" "dir/key" true n1 = Done (Value s) n2 /\
    gf_readBytes 3 s 1 3 n2 = Done (Value (3, "ell" : str)) n3.
Proof.
  destruct (relocate_preserves Server MemS3.world nat unit 3 "bkt" "dir/key" 0
              (newHandle "bkt" "dir/key" None (KLocal (mkLocalFile "/tmp/geds/bkt/0" 0 5 []) 0 false))
              (mkLocalFile "/tmp/geds/bkt/0" 0 5 []) 0 false {[("bkt" : str) := ∅]} ∅
              (newEndpoint "http://s3" "ak" "sk") 1 3 tiered_node)
    as (n1 & s & n2 & n3 & E1 & Ho & _ & E2 & E3); try reflexivity; try lia.
  - constructor; apply stored_node_wf.
  - constructor; [simpl; lia|reflexivity|vm_compute; reflexivity].
  - apply (newKVS_abs (Some ("bkt" : str))).
  - vm_compute. lia.
  - exists n1, s, n2, n3. split; [exact E1|]. split; [exact Ho|]. split; [exact E2|exact E3].
Defined.

Definition moved_info : ObjectInfo := mkInfo (s3_location "bkt" "moved") 7 7 None.
Definition moved_store : Server :=
  fst (stub_Create (fill_object (mkObject (mkID "bkt" "moved") moved_info)) demo_server).

Lemma moved_store_abs :
  svc_abs moved_store (<[("bkt" : str) := <[("moved" : str) := moved_info]> ∅]> {[("bkt" : str) := ∅]}).
Proof.
  assert (Ha : svc_abs demo_server {[("bkt" : str) := ∅]}) by apply (newKVS_abs (Some ("bkt" : str))).
  destruct (svc_Create (mkObject (mkID "bkt" "moved") moved_info) demo_server _ Ha) as (s' & m' & r & E & Hst & Ha').
  unfold moved_store. rewrite E. cbn [KvsSpec.step id bucket key info] in Hst.
  rewrite lookup_singleton_eq in Hst. cbn [default] in Hst. by destruct Hst as [-> _].
Qed.

(** A process with a file open on a host that is gone. *)
Definition moved_node : Node Server MemS3.world nat unit :=
  mkNode (mkNodeConfig 4 false false) Running connected_client moved_store "/tmp/geds" newFileNames
    "geds://h:1" [(getPath "bkt" "moved", 0%nat)] [] ["bkt" : str]
    [("bkt" : str, newEndpoint "http://s3" "ak" "sk")] 0 0
    (<[0%nat := newHandle "bkt" "moved" None (KReloc 1)]>
       {[1%nat := newHandle "bkt" "moved" None (KRemote "gone:1" (mkInfo "geds://gone:1" 7 7 None))]}) 2 0
    (fun _ => mkS3State {[("bkt" : str, "moved" : str) := ("payload" : str)]} 0 0) (mkFS ∅ ∅ 0 ∅) 0%nat tt.

Lemma moved_node_wf : node_wf moved_node.
Proof.
  constructor; simpl; [repeat constructor|repeat constructor; lia|].
  intros h x Hx. apply lookup_insert_Some in Hx as [[<- <-]|[_ Hx]].
  - split; [lia|]. repeat constructor.
  - apply lookup_singleton_Some in Hx as [<- <-]. split; [lia|constructor].
Qed.

Lemma reloc_read_follows_witness :
  exists n' x' s, gf_readBytes 3 0 0 100 moved_node = Done (Value (7, "payload" : str)) n' /\
    n_heap n' !! 0%nat = Some x' /\ h_kind x' = KReloc s.
Proof.
  destruct (reloc_read_follows Server MemS3.world nat unit 3 "bkt" "moved" 0
              (newHandle "bkt" "moved" None (KReloc 1)) 1
              (newHandle "bkt" "moved" None (KRemote "gone:1" (mkInfo "geds://gone:1" 7 7 None)))
              "gone:1" (mkInfo "geds://gone:1" 7 7 None) moved_info "bkt" "moved" "payload"
              (newEndpoint "http://s3" "ak" "sk")
              (<[("bkt" : str) := <[("moved" : str) := moved_info]> ∅]> {[("bkt" : str) := ∅]})
              (<[("moved" : str) := moved_info]> ∅) tt (UnavailableError "unreachable") 0 100 moved_node moved_node_wf)
    as (n' & x' & s & E & Hx & Hk & _); try reflexivity; try lia.
  - exact moved_store_abs.
  - apply empty_coherent.
  - by_decision.
  - vm_compute. lia.
  - exists n', x', s. split; [exact E|]. split; [exact Hx|exact Hk].
Defined.
