(* ===== verification/GEDSCache.v ===== *)
(** * Reading through the block cache

    Properties of [GEDSCachedFileHandle::readBytes]
    (src/src/libgeds/GEDSCachedFileHandle.cpp): which part of which block is
    requested, and that a read of the whole loop returns the requested range when
    every block is served; with lemmas on handles and files used for it. *)

From Stdlib Require Import Ascii ZArith Lia.
From stdpp Require Import base gmap sets list strings numbers.
From S2P Require Import Prelude Bytes Decimal Status StdMap Path Object FileSet MDSKVSBucket MDSKVS S3Endpoint Rpc.
From S2P Require Import MetadataServer MetadataService LocalFile ConcurrentMap GedsNames FileHandle.
From S2P Require Import Node Handles HandleIO GEDS GEDSCreate GEDSObjects.

Open Scope Z_scope.
Open Scope list_scope.

#[local] Opaque to_string.

(** ** Blocks *)

(** Block [idx] of the contents [c]. *)
Definition block_of (bs : Z) (c : str) (idx : nat) : str := slice (bs * Z.of_nat idx) bs c.

Section loop.
Context {W X K T : Type}.
Implicit Types n : Node W X K T.
Context (rb : nat -> Z -> Z -> M W X K T (StatusOr (Z * str))) (I : Node W X K T -> Prop).
Context (bs : Z) (c : str).
Hypothesis bs_pos : 0 < bs.
Hypothesis c_small : len c < two64.

(** Every block is served. *)
Definition serves : Prop :=
  forall idx off cnt n, I n -> 0 <= off < bs -> 0 <= cnt -> bs * Z.of_nat idx <= len c ->
    exists n', rb idx off cnt n =
      Done (Value (len (slice off cnt (block_of bs c idx)), slice off cnt (block_of bs c idx))) n' /\ I n'.

Hypothesis served : serves.

(** The reading position when block [idx] is next. *)
Lemma blocks_loop_spec position length blocks idx count n :
  I n -> 0 <= position -> 0 < length -> position + length <= len c ->
  position + count = Z.max position (bs * Z.of_nat idx) ->
  position / bs <= Z.of_nat idx ->
  Z.of_nat blocks = (position + length) / bs - Z.of_nat idx + 1 -> (0 < blocks)%nat ->
  exists n', blocks_loop rb bs position length blocks idx count (slice position count c) n =
    Done (Value (length, slice position length c)) n' /\ I n'.
Proof.
  revert idx count n. induction blocks as [|blocks IH]; intros idx count n Hn Hp Hl Hc Hcur Hst Hb Hpos; [lia|].
  cbn [blocks_loop]. set (e := position + length) in *.
  assert (Hdm := Z.div_mod e bs ltac:(lia)). assert (Hm := Z.mod_pos_bound e bs bs_pos).
  assert (Hpm := Z.mod_pos_bound position bs bs_pos). assert (Hpd := Z.div_mod position bs ltac:(lia)).
  set (q := e / bs) in *. set (j := Z.of_nat idx) in *.
  assert (Hj : bs * j <= bs * q) by (apply Z.mul_le_mono_nonneg_l; lia).
  assert (Hj0 : 0 <= bs * j) by (apply Z.mul_nonneg_nonneg; lia).
  assert (Hcnt : 0 <= count <= length) by lia.
  rewrite !u64_small by (unfold is_u64; lia).
  assert (Hoff : (position + count) mod bs = position + count - bs * j).
  { symmetry. apply (Z.mod_unique_pos _ _ j); [|lia].
    assert (bs * (position / bs) <= bs * j) by (apply Z.mul_le_mono_nonneg_l; lia).
    assert (position < bs * j + bs) by nia. lia. }
  assert (Hmod := Z.mod_pos_bound (position + count) bs bs_pos). rewrite Hoff in Hmod |- *.
  unfold bind. destruct (served idx (position + count - bs * j) (Z.min (length - count) bs) n Hn)
    as (n1 & -> & Hn1); [lia..|].
  unfold block_of. fold j. rewrite (slice_of_slice (bs * j) bs) by lia.
  replace (bs * j + (position + count - bs * j)) with (position + count) by lia.
  set (k := Z.min (Z.min (length - count) bs) (Z.max 0 (bs - (position + count - bs * j)))).
  assert (Hk : len (slice (position + count) k c) = k) by (apply slice_length; lia).
  rewrite Hk, (u64_small (count + k)) by (unfold is_u64; lia). rewrite slice_extend by lia.
  destruct blocks as [|blocks'].
  - cbn [blocks_loop]. unfold ret. assert (count + k = length) as -> by lia. by exists n1.
  - assert (Hnext : bs * (j + 1) <= bs * q) by (apply Z.mul_le_mono_nonneg_l; lia).
    apply (IH (S idx) (count + k) n1); try done; try lia; rewrite Nat2Z.inj_succ; fold j; lia.
Qed.

(** [readBytes] returns the requested range clipped to the remote contents. *)
Lemma cached_readBytes_spec h position cnt (rd : nat -> Z -> Z -> M W X K T (StatusOr (Z * str)))
    `{MDStub W} `{S3Client X} `{Kernel K} `{Transfers T} fuel n :
  rb = read_block fuel rd MAX_RETRIES h ->
  I n -> 0 <= position -> 0 <= cnt ->
  exists n', cached_readBytes fuel rd h (len c) bs position cnt n =
    Done (Value (Z.max 0 (Z.min cnt (len c - position)), slice position cnt c)) n' /\ I n'.
Proof.
  intros Hrb Hn Hp Hc. unfold cached_readBytes.
  destruct (Z.leb_spec (len c) position); cbn [orb].
  { exists n. rewrite slice_past by lia. split; [|done]. unfold ret. by replace (Z.max 0 _) with 0 by lia. }
  destruct (Z.eqb_spec cnt 0) as [->|Hc0].
  { exists n. rewrite slice_0. split; [|done]. unfold ret. by replace (Z.max 0 _) with 0 by lia. }
  rewrite !u64_small by (unfold is_u64; lia). rewrite <- Hrb. set (l := Z.min cnt (len c - position)).
  assert (Hd := Z.div_pos position bs Hp bs_pos).
  assert (Hle : position / bs <= (position + l) / bs) by (apply Z.div_le_mono; lia).
  destruct (blocks_loop_spec position l (Z.to_nat ((position + l) / bs - position / bs + 1))
              (Z.to_nat (position / bs)) 0 n) as (n' & E & Hn'); try done; try lia.
  { rewrite Z2Nat.id by lia. pose proof (Z.mul_div_le position bs bs_pos). lia. }
  exists n'. rewrite slice_0 in E. rewrite E. split; [|done]. rewrite (slice_clip position cnt) by lia.
  fold l. by replace (Z.max 0 l) with l by lia.
Qed.
End loop.

(** ** Handles and files *)

Section files.
Context {W X K T : Type} `{MDStub W} `{S3Client X} `{Kernel K} `{Transfers T}.
Implicit Types n : Node W X K T.

Lemma inode_data_same j i fs : inode_data j (set_inode i (inode_data i fs) fs) = inode_data j fs.
Proof.
  unfold inode_data. cbn [set_inode fs_inodes]. destruct (decide (j = i)) as [->|].
  - by rewrite lookup_insert_eq.
  - by rewrite lookup_insert_ne.
Qed.

(** [close] of a file when others are open on the handle. *)
Lemma close_shared b n y :
  n_heap n !! b = Some y -> 2 <= h_openCount y ->
  close b n = Done tt (set_heap (<[b := released_at (n_now n) (with_count (h_openCount y - 1) y)]> (n_heap n)) (n_next n) n).
Proof.
  intros Hy Hc. unfold close, h_decreaseOpenCount, bind, gets, update_handle, drop_ref. cbn [release].
  cbn [n_heap set_heap]. rewrite lookup_alter, decide_True, Hy by done. cbn [fmap option_fmap option_map].
  assert (Ea : alter (fun x => released_at (n_now n) (with_count (h_openCount x - 1) x)) b (n_heap n) =
               <[b := released_at (n_now n) (with_count (h_openCount y - 1) y)]> (n_heap n)).
  { apply map_eq. intros j. rewrite lookup_alter, lookup_insert. repeat case_decide; subst; try done. by rewrite Hy. }
  rewrite Ea. unfold referenced. cbn [n_heap set_heap]. rewrite lookup_insert_eq. cbn [h_openCount released_at with_count].
  rewrite (proj2 (Z.ltb_lt 0 _)) by lia. rewrite orb_true_r. done.
Qed.

Lemma readBytes_cached fuel depth h n x r rs bs blocks pos cnt :
  n_heap n !! h = Some x -> h_kind x = KCached r rs bs blocks ->
  h_readBytes fuel (S depth) h pos cnt n = cached_readBytes fuel (h_readBytes fuel depth) h rs bs pos cnt n.
Proof. intros Hh Hx. cbn [h_readBytes]. unfold bind at 1, the_handle. by rewrite Hh, Hx. Qed.
End files.
