(* ===== verification/CachedRead.v ===== *)
(** * Reading an object through the block cache

    [GEDSCachedFileHandle::readBytes] (src/src/libgeds/GEDSCachedFileHandle.cpp) on a
    cache some of whose blocks have been downloaded: the missing blocks a read
    touches are looked up, created as local objects, filled from the object
    store and announced, and the read returns the bytes of the remote object. *)

From Stdlib Require Import Ascii ZArith Lia.
From stdpp Require Import base gmap sets list strings numbers.
From S2P Require Import Prelude Bytes Decimal Status StdMap Path Object FileSet MDSKVSBucket MDSKVS S3Endpoint Rpc.
From S2P Require Import MetadataServer MetadataService LocalFile ConcurrentMap GedsNames FileHandle.
From S2P Require Import Node Handles HandleIO GEDS GEDSCreate GEDSObjects GEDSRelocate GEDSCache.

Open Scope Z_scope.
Open Scope list_scope.

#[local] Opaque to_string.

(** ** The names of blocks *)

(** The key of block [idx] of the object [ky]. *)
Definition block_key (ky : str) (idx : nat) : str :=
  CacheBlockMarker ++ ky ++ "_" ++ to_string (Z.of_nat idx).

Lemma block_key_inj ky i j : block_key ky i = block_key ky j -> i = j.
Proof.
  unfold block_key. intros E. do 3 apply app_inj_prefix in E. apply to_string_inj in E; lia.
Qed.

Lemma block_key_bucket b ky i j :
  ok (isValidBucketName b) = true -> block_key ky i <> b ++ "/" ++ block_key ky j.
Proof.
  unfold isValidBucketName. destruct (regex_match bucket_regex b) eqn:E; [|done].
  apply bucket_regex_spec in E as (Hl & Hf & _). intros _.
  destruct b as [|x b]; [simpl in Hl; lia|]. apply Forall_cons_iff in Hf as [Hx _].
  unfold block_key, CacheBlockMarker. intros Eq. simpl in Eq. injection Eq as <- _. by vm_compute in Hx.
Qed.

Lemma block_path_inj b ky i j : getPath b (block_key ky i) = getPath b (block_key ky j) -> i = j.
Proof.
  intros E. apply (f_equal name) in E. unfold getPath in E. cbn [name] in E.
  apply app_inj_prefix, (app_inj_prefix "/"), block_key_inj in E. done.
Qed.

(** The local path of a block that has none yet. *)
Lemma block_local_path prefix b k s :
  mfind k (fileNames s) = None -> mfind (b ++ "/" ++ k) (fileNames s) = None ->
  getLocalPath prefix b k s =
    (mkFileNames (u64 (fileNameCounter s + 1)) (massign k (fileNameCounter s) (fileNames s)),
     prefix ++ "/" ++ b ++ "/" ++ to_string (fileNameCounter s)).
Proof. intros Hk Hb. unfold getLocalPath, cm_get, insertOrExists. by rewrite Hb, Hk. Qed.

(** ** The cache *)

Lemma available_one (x : str) : available [x] = x.
Proof. destruct x; [done|]. cbn [available]. by rewrite app_nil_r. Qed.

Definition missing (blocks : list (option nat)) : Z := Z.of_nat (length (List.filter (fun b => negb (bool_decide (is_Some b))) blocks)).

Lemma missing_insert blocks idx f :
  blocks !! idx = Some None -> missing (<[idx := Some f]> blocks) = missing blocks - 1.
Proof.
  unfold missing. revert idx. induction blocks as [|b blocks IH]; intros [|idx] E; simplify_eq/=; [lia|].
  specialize (IH idx E). destruct b; simpl in *; lia.
Qed.

Lemma alter_known {A} (f : A -> A) (k : nat) (x : A) (m : gmap nat A) :
  m !! k = Some x -> alter f k m = <[k := f x]> m.
Proof.
  intros E. apply map_eq. intros j. rewrite lookup_alter, lookup_insert.
  repeat case_decide; subst; try done. by rewrite E.
Qed.

Section cache.
Context {W X K T : Type} `{MDService W} `{S3Store X} `{KernelFair K} `{Transfers T}.
Implicit Types n : Node W X K T.
Context (b ky : str) (h r : nat) (bs : Z) (c : str).

(** Block [idx] is an open local file with the bytes of the block. *)
Definition downloaded n (f : nat) (idx : nat) : Prop :=
  exists y fl i s, n_heap n !! f = Some y /\ h_kind y = KLocal fl i s /\
    i < fs_next (n_fs n) /\ inode_data i (n_fs n) = block_of bs c idx /\
    lf_wf (with_data (block_of bs c idx) fl) /\ 1 <= h_openCount y.

(** Nothing is known under the name of block [idx]. *)
Record absent n (mb : gmap str ObjectInfo) (idx : nat) : Prop := {
  ab_handle : mfind (getPath b (block_key ky idx)) (n_fileHandles n) = None;
  ab_object : mb !! block_key ky idx = None;
  ab_key : mfind (block_key ky idx) (fileNames (n_names n)) = None;
  ab_postfix : mfind (b ++ "/" ++ block_key ky idx) (fileNames (n_names n)) = None
}.

(** Handle [h] caches the S3 object [b/ky] with the contents [c], which the handle
    [r] reads. Each block is either downloaded or absent, and the names of new
    local files are unused. *)
Record cache_inv (blocks : list (option nat)) (m : KvsSpec.state) (mb : gmap str ObjectInfo) n : Prop := {
  ci_wf : node_wf n;
  ci_running : n_state n = Running;
  ci_known : cs_exists b (n_knownBuckets n) = true;
  ci_quiet : interrupts (n_kernel n) = 0%nat;
  ci_conn : is_connected (n_md n) = true;
  ci_svc : svc_abs (n_mdw n) m;
  ci_coh : coherent (n_md n) m;
  ci_bucket : m !! b = Some mb;
  ci_handle : exists x, n_heap n !! h = Some x /\ h_kind x = KCached r (len c) bs blocks /\
                h_bucket x = b /\ h_key x = ky;
  ci_remote : exists y, n_heap n !! r = Some y /\ h_kind y = KS3 b ky (len c) /\
                h_bucket y = b /\ h_key y = ky;
  ci_object : object_at n b b ky = Some c;
  ci_names : sorted (fileNames (n_names n));
  ci_room : 0 <= fileNameCounter (n_names n) /\ fileNameCounter (n_names n) + missing blocks < two64;
  ci_paths N : fileNameCounter (n_names n) <= N ->
    fs_names (n_fs n) !! (n_pathPrefix n ++ "/" ++ b ++ "/" ++ to_string N) = None;
  ci_blocks idx : bs * Z.of_nat idx <= len c ->
    (exists f, blocks !! idx = Some (Some f) /\ downloaded n f idx) \/
    (blocks !! idx = Some None /\ absent n mb idx)
}.

Hypothesis bs_ok : 0 < bs < INT64_MAX.
Hypothesis c_small : len c + bs < INT64_MAX.
Hypothesis b_ok : ok (isValidBucketName b) = true.
Hypothesis keys_ok : forall idx, bs * Z.of_nat idx <= len c -> ok (isValid b (block_key ky idx)) = true.

Lemma block_small idx : bs * Z.of_nat idx <= len c -> 0 <= len (block_of bs c idx) <= bs.
Proof. intros Hi. split; [apply len_nonneg|]. apply slice_length_le; lia. Qed.

(** A local block is neither the cache nor its source. *)
Lemma downloaded_ne blocks m mb n f idx : cache_inv blocks m mb n -> downloaded n f idx -> f <> h /\ f <> r.
Proof.
  intros Hc (y & fl & i & s & Hy & Hk & _).
  destruct (ci_handle _ _ _ _ Hc) as (x & Hx & Hxk & _). destruct (ci_remote _ _ _ _ Hc) as (z & Hz & Hzk & _).
  split; intros ->; congruence.
Qed.

(** Only the handle of a downloaded block changes, and it stays open. *)
Lemma cache_inv_touch blocks m mb n f y fl fl' i s y' fs kern :
  cache_inv blocks m mb n -> n_heap n !! f = Some y -> h_kind y = KLocal fl i s ->
  h_kind y' = KLocal fl' i s -> (forall d, with_data d fl' = with_data d fl) -> 1 <= h_openCount y' ->
  fs_names fs = fs_names (n_fs n) -> fs_next fs = fs_next (n_fs n) ->
  (forall j, inode_data j fs = inode_data j (n_fs n)) -> interrupts kern = 0%nat ->
  cache_inv blocks m mb (set_heap (<[f := y']> (n_heap n)) (n_next n) (set_fs fs kern n)).
Proof.
  intros Hc Hy Hk Hk' Hfl Ho Hfn Hfx Hfd Hq.
  assert (Hwf : node_wf (set_heap (<[f := y']> (n_heap n)) (n_next n) (set_fs fs kern n))).
  { destruct (ci_wf _ _ _ _ Hc) as [H1' H2' H3']. constructor; [done|done|]. intros g x. cbn [n_heap set_heap n_next].
    intros [[<- <-]|[_ Hg]]%lookup_insert_Some; [|by apply H3'].
    split; [by destruct (H3' f y Hy)|]. unfold children. rewrite Hk'. constructor. }
  destruct Hc; constructor; try done.
  - destruct ci_handle0 as (x & Hx & Hxk & ?). exists x. cbn [n_heap set_heap].
    rewrite lookup_insert_ne by (intros <-; congruence). done.
  - destruct ci_remote0 as (x & Hx & Hxk & ?). exists x. cbn [n_heap set_heap].
    rewrite lookup_insert_ne by (intros <-; congruence). done.
  - intros N HN. cbn [n_fs set_heap set_fs]. rewrite Hfn. by apply ci_paths0.
  - intros idx Hi. destruct (ci_blocks0 idx Hi) as [(g & Hg & Hd)|[Hb [Ha1 Ha2 Ha3 Ha4]]]; [left|right; by split].
    exists g. split; [done|]. destruct Hd as (y1 & f1 & i1 & s1 & Hy1 & Hk1 & Hi1 & Hd1 & Hw1 & Ho1).
    unfold downloaded. cbn [n_heap n_fs set_heap set_fs]. rewrite Hfx.
    destruct (decide (g = f)) as [->|Hgf].
    + assert (y1 = y) by congruence. subst y1. rewrite Hk in Hk1. injection Hk1 as <- <- <-.
      exists y', fl', i, s. rewrite lookup_insert_eq, Hfd, Hfl. done.
    + exists y1, f1, i1, s1. rewrite lookup_insert_ne, Hfd by done. done.
Qed.

(** *** Downloading a block *)

(** Nothing is found under the name of an absent block. *)
Lemma open_absent blocks m mb n idx :
  cache_inv blocks m mb n -> absent n mb idx -> bs * Z.of_nat idx <= len c ->
  exists cl w st, geds_open b (block_key ky idx) true n = Done (Error st) (set_md cl w n) /\
    svc_abs w m /\ coherent cl m /\ is_connected cl = true.
Proof.
  intros Hc Ha Hi. unfold geds_open, open_once, openAsFileHandle, running. unfold bind at 1 2.
  rewrite (ci_running _ _ _ _ Hc), (keys_ok idx Hi). cbn [negb]. unfold bind at 1, gets, cm_get.
  rewrite (ab_handle _ _ _ Ha). unfold reopenFileHandle. unfold bind at 1 2, md_call.
  destruct (client_lookup_sim (mkID b (block_key ky idx)) false (n_md n) (n_mdw n) m (ci_svc _ _ _ _ Hc)
              (ci_coh _ _ _ _ Hc) (ci_conn _ _ _ _ Hc)) as (cl & w & o & E & Ha' & Hco & Hcn & Hs).
  change (client_lookup (bucket (mkID b (block_key ky idx))) (key (mkID b (block_key ky idx))) false (n_md n) (n_mdw n))
    with (client_lookup b (block_key ky idx) false (n_md n) (n_mdw n)) in E.
  rewrite E. cbn [KvsSpec.step bucket key] in Hs. rewrite (ci_bucket _ _ _ _ Hc), (ab_object _ _ _ Ha) in Hs.
  destruct Hs as [_ [= ->]]. cbn iota. unfold ret. by eexists cl, w, _.
Qed.

(** The bytes of the block are fetched into a new local file. *)
Lemma fill_step fuel n nf z y fl i s idx :
  n_heap n !! nf = Some z -> h_kind z = KLocal fl i s -> h_bucket y = b -> h_key y = ky ->
  inode_data i (n_fs n) = [] -> lf_wf (with_data [] fl) -> object_at n b b ky = Some c ->
  bs * Z.of_nat idx <= len c -> interrupts (n_kernel n) = 0%nat ->
  bs < Z.of_nat fuel -> (4096 <= fuel)%nat ->
  exists s3 fl' kern,
    s3fh_downloadRange fuel y b nf (u64 (bs * Z.of_nat idx)) bs 0 n =
      Done (Value (len (block_of bs c idx)))
        (set_fs (set_inode i (block_of bs c idx) (n_fs n)) kern
           (set_heap (<[nf := with_kind (KLocal (with_data [] fl') i s) z]> (n_heap n)) (n_next n)
              (set_s3 b s3 n))) /\
    s3_world s3 = s3_world (n_s3 n b) /\ lf_wf (with_data (block_of bs c idx) fl') /\
    interrupts kern = 0%nat.
Proof.
  intros Hz Hk Hyb Hyk Hd Hw Hobj Hi Hq Hf1 Hf2. set (blk := block_of bs c idx).
  pose proof (block_small idx Hi) as Hblk. fold blk in Hblk.
  unfold s3fh_downloadRange, s3_call. unfold bind at 1. rewrite Hyb, Hyk.
  rewrite u64_small by (unfold is_u64, two64, INT64_MAX in *; lia).
  destruct (s3_read_range b ky c (bs * Z.of_nat idx) bs (n_s3 n b) Hobj) as (s3 & E & Hs3);
    [lia|lia|unfold two64, INT64_MAX in *; lia|].
  rewrite E. fold (block_of bs c idx). fold blk.
  assert (Hlen : Z.max 0 (Z.min bs (len c - bs * Z.of_nat idx)) = len blk).
  { unfold blk, block_of. rewrite len_slice by lia. done. }
  rewrite Hlen.
  destruct (stream_loop_spec fuel fuel (with_data [] fl) [blk] 0 (len blk) 0 blk [] (n_kernel n) Hw)
    as (fl' & kern & st' & Es & Hw' & Hwr & Hi'); try lia; try done.
  { apply available_one. }
  { by left. }
  rewrite Z.min_id in Es, Hwr.
  assert (Hdata : lf_data fl' = blk).
  { destruct Hwr as [[Hz0 ->]|[_ ->]].
    - cbn [lf_data with_data]. symmetry. by apply len_0.
    - rewrite slice_all. apply write_at_empty. }
  exists s3, fl', kern. split_and!; [|done| |lia].
  - unfold bind at 1, h_write. unfold bind at 1. rewrite (resolve_local nf (set_s3 b s3 n) z fl i s) by done. cbn [fst snd]. rewrite Hk.
    unfold local_write. unfold bind at 1.
    erewrite (local_update_step nf _ (set_s3 b s3 n) z fl i s fl' kern _ Hz Hk);
      [|cbn [n_fs set_s3 n_kernel]; rewrite Hd; unfold lf_write; change (default INT64_MAX (Some (len blk))) with (len blk); rewrite Es; reflexivity].
    rewrite Hdata. done.
  - rewrite <- Hdata. by destruct fl', Hw'.
Qed.

(** What downloading block [idx] changes: there is a new handle on a new file with
    the bytes of the block, registered and announced under its name, and the
    cache refers to it. *)
Record filled (blocks : list (option nat)) (m : KvsSpec.state) (mb : gmap str ObjectInfo) (idx : nat) n n' :
    Prop := {
  fi_state : n_state n' = n_state n;
  fi_known : n_knownBuckets n' = n_knownBuckets n;
  fi_prefix : n_pathPrefix n' = n_pathPrefix n;
  fi_quiet : interrupts (n_kernel n') = 0%nat;
  fi_conn : is_connected (n_md n') = true;
  fi_coh : coherent (n_md n') m;
  fi_svc : exists inf, svc_abs (n_mdw n') (<[b := <[block_key ky idx := inf]> mb]> m);
  fi_object : object_at n' b b ky = Some c;
  fi_names : n_names n' = mkFileNames (u64 (fileNameCounter (n_names n) + 1))
               (massign (block_key ky idx) (fileNameCounter (n_names n)) (fileNames (n_names n)));
  fi_fs_names : fs_names (n_fs n') =
    <[n_pathPrefix n ++ "/" ++ b ++ "/" ++ to_string (fileNameCounter (n_names n)) := fs_next (n_fs n)]>
      (fs_names (n_fs n));
  fi_fs_next : fs_next (n_fs n') = fs_next (n_fs n) + 1;
  fi_fs_data j : inode_data j (n_fs n') =
    if decide (j = fs_next (n_fs n)) then block_of bs c idx else inode_data j (n_fs n);
  fi_handles : n_fileHandles n' = massign (getPath b (block_key ky idx)) (n_next n) (n_fileHandles n);
  fi_next : n_next n' = S (n_next n);
  fi_new : exists y fl, n_heap n' !! n_next n = Some y /\ h_kind y = KLocal fl (fs_next (n_fs n)) true /\
    lf_wf (with_data (block_of bs c idx) fl) /\ h_openCount y = 2;
  fi_cache : exists x, n_heap n !! h = Some x /\
    n_heap n' !! h = Some (with_kind (KCached r (len c) bs (<[idx := Some (n_next n)]> blocks)) x);
  fi_other g : g <> h -> g <> n_next n -> n_heap n' !! g = n_heap n !! g
}.

Lemma filled_wf blocks m mb idx n n' : cache_inv blocks m mb n -> filled blocks m mb idx n n' -> node_wf n'.
Proof.
  intros Hc Hf. destruct (ci_wf _ _ _ _ Hc) as [Hs Hm Hh]. constructor.
  - rewrite (fi_handles _ _ _ _ _ _ Hf). by apply massign_sorted.
  - rewrite (fi_handles _ _ _ _ _ _ Hf), (fi_next _ _ _ _ _ _ Hf). apply Forall_intro. intros [q g] Hin. cbn [snd].
    apply (mfind_Some _ _ _ (massign_sorted _ _ _ Hs)) in Hin. rewrite mfind_massign in Hin by done.
    case_decide; [injection Hin as <-; lia|]. apply (mfind_Some _ _ _ Hs) in Hin.
    pose proof (Forall_elem _ _ _ Hm Hin). simpl in *. lia.
  - intros g x Hg. rewrite (fi_next _ _ _ _ _ _ Hf).
    assert (Hmono : forall l, Forall (fun i => (i < n_next n)%nat) l -> Forall (fun i => (i < S (n_next n))%nat) l).
    { intros l. apply List.Forall_impl. intros i Hi. lia. }
    destruct (decide (g = n_next n)) as [->|Hgn].
    { destruct (fi_new _ _ _ _ _ _ Hf) as (y & fl & Hy & Hk & _). rewrite Hy in Hg. injection Hg as <-.
      split; [lia|]. unfold children. rewrite Hk. constructor. }
    destruct (decide (g = h)) as [->|Hgh].
    { destruct (fi_cache _ _ _ _ _ _ Hf) as (z & Hz & Hz'). rewrite Hz' in Hg. injection Hg as <-.
      destruct (Hh h z Hz) as [Hlt Hch]. split; [lia|]. destruct (ci_handle _ _ _ _ Hc) as (z0 & Hz0 & Hk & _).
      assert (z0 = z) by congruence. subst z0. unfold children in *. cbn [h_kind with_kind]. rewrite Hk in Hch.
      apply Forall_cons_iff in Hch as [Hr Hbl]. constructor; [lia|]. apply Forall_intro. intros i Hin.
      apply list_elem_of_omap in Hin as (o & Ho & ->). apply list_elem_of_lookup in Ho as [j Hj].
      apply list_lookup_insert_Some in Hj as [(-> & [= <-] & _)|[_ Hj]]; [lia|].
      assert (Hi : i ∈ omap (fun b => b) blocks).
      { apply list_elem_of_omap. exists (Some i). split; [|done]. by apply list_elem_of_lookup_2 in Hj. }
      pose proof (Forall_elem _ _ _ Hbl Hi). simpl in *. lia. }
    rewrite (fi_other _ _ _ _ _ _ Hf) in Hg by done. destruct (Hh g x Hg) as [Hlt Hch]. split; [lia|]. by apply Hmono.
Qed.

(** The downloaded blocks stay, the new one is added, and the others stay absent. *)
Lemma filled_blocks blocks m mb idx inf n n' :
  cache_inv blocks m mb n -> blocks !! idx = Some None -> filled blocks m mb idx n n' ->
  forall j, bs * Z.of_nat j <= len c ->
    (exists f, <[idx := Some (n_next n)]> blocks !! j = Some (Some f) /\ downloaded n' f j) \/
    (<[idx := Some (n_next n)]> blocks !! j = Some None /\ absent n' (<[block_key ky idx := inf]> mb) j).
Proof.
  intros Hc Hidx Hf j Hj. destruct (decide (j = idx)) as [->|Hji].
  { left. exists (n_next n). rewrite list_lookup_insert_eq by (apply lookup_lt_Some in Hidx; done). split; [done|].
    destruct (fi_new _ _ _ _ _ _ Hf) as (y & fl & Hy & Hk & Hw & Ho).
    exists y, fl, (fs_next (n_fs n)), true. rewrite (fi_fs_next _ _ _ _ _ _ Hf), (fi_fs_data _ _ _ _ _ _ Hf), decide_True by done.
    split_and!; [done|done|lia|done|done|lia]. }
  rewrite list_lookup_insert_ne by done.
  destruct (ci_blocks _ _ _ _ Hc j Hj) as [(g & Hg & Hd)|[Hb Ha]]; [left|right].
  - exists g. split; [done|]. destruct (downloaded_ne _ _ _ _ _ _ Hc Hd) as [Hgh _].
    destruct Hd as (y & fl & i & s & Hy & Hk & Hi & Hd & Hw & Ho). exists y, fl, i, s.
    destruct (nw_heap n (ci_wf _ _ _ _ Hc) g y Hy) as [Hlt _].
    rewrite (fi_other _ _ _ _ _ _ Hf), (fi_fs_next _ _ _ _ _ _ Hf), (fi_fs_data _ _ _ _ _ _ Hf), decide_False by lia.
    split_and!; [done|done|lia|done..].
  - split; [done|]. destruct Ha as [A1 A2 A3 A4].
    constructor; rewrite ?(fi_handles _ _ _ _ _ _ Hf), ?(fi_names _ _ _ _ _ _ Hf); cbn [fileNames].
    + rewrite mfind_massign_ne; [done|].
      intros E. by apply block_path_inj in E.
    + rewrite lookup_insert_ne; [done|]. intros E. by apply block_key_inj in E.
    + rewrite mfind_massign_ne; [done|]. intros E. by apply block_key_inj in E.
    + rewrite mfind_massign_ne; [done|]. intros E. by apply (block_key_bucket b ky idx j b_ok) in E.
Qed.

Lemma filled_inv blocks m mb idx n n' :
  cache_inv blocks m mb n -> absent n mb idx -> blocks !! idx = Some None -> filled blocks m mb idx n n' ->
  exists m' mb', cache_inv (<[idx := Some (n_next n)]> blocks) m' mb' n'.
Proof.
  intros Hc Ha Hidx Hf. destruct (fi_svc _ _ _ _ _ _ Hf) as (inf & Hsvc).
  exists (<[b := <[block_key ky idx := inf]> mb]> m), (<[block_key ky idx := inf]> mb).
  destruct (ci_room _ _ _ _ Hc) as [Hr0 Hr1]. pose proof (missing_insert blocks idx (n_next n) Hidx) as Hm.
  assert (Hm0 : 0 <= missing (<[idx:=Some (n_next n)]> blocks)) by (unfold missing; lia).
  constructor; rewrite ?(fi_state _ _ _ _ _ _ Hf), ?(fi_known _ _ _ _ _ _ Hf), ?(fi_names _ _ _ _ _ _ Hf); cbn [fileNames fileNameCounter];
    try apply Hc; try apply Hf.
  - by apply (filled_wf blocks m mb idx n n').
  - exact Hsvc.
  - destruct (fi_coh _ _ _ _ _ _ Hf) as (cm & Hcm & Hent). exists cm. split; [done|]. intros b' k i He.
    specialize (Hent b' k i He). rewrite entry_insert. case_decide as Eb; [subst b'|done].
    unfold entry in Hent. rewrite (ci_bucket _ _ _ _ Hc) in Hent. simpl in Hent.
    rewrite lookup_insert_ne; [done|]. intros <-. by rewrite (ab_object _ _ _ Ha) in Hent.
  - apply lookup_insert_eq.
  - destruct (ci_handle _ _ _ _ Hc) as (x & Hx & Hk & Hb & Hky). destruct (fi_cache _ _ _ _ _ _ Hf) as (x' & Hx' & Hn').
    assert (x' = x) by congruence. subst x'. eexists. split; [exact Hn'|done].
  - destruct (ci_remote _ _ _ _ Hc) as (y & Hy & Hk & Hb). exists y.
    destruct (ci_handle _ _ _ _ Hc) as (x & Hx & Hxk & _).
    rewrite (fi_other _ _ _ _ _ _ Hf); [done|intros ->; congruence|].
    destruct (nw_heap n (ci_wf _ _ _ _ Hc) r y Hy) as [Hlt _]. lia.
  - apply massign_sorted, Hc.
  - rewrite u64_small by (unfold is_u64; lia). lia.
  - intros N. rewrite u64_small by (unfold is_u64; lia). intros HN.
    rewrite (fi_fs_names _ _ _ _ _ _ Hf), (fi_prefix _ _ _ _ _ _ Hf), lookup_insert_ne.
    + apply (ci_paths _ _ _ _ Hc). lia.
    + intros E. do 4 apply app_inj_prefix in E. apply to_string_inj in E; lia.
  - by apply (filled_blocks blocks m mb idx inf n n').
Qed.

(** What follows the download: the new file [nf] is opened, entered, announced and
    opened for the reader. *)
Definition publish_block (nf idx : nat) : M W X K T (StatusOr nat) :=
  let* f := h_open nf in
  let* b := h_open nf in
  set_block h idx (Some b) ;;
  let* _ := h_seal nf in
  let* r := h_open b in
  close f ;;
  ret (Value r).

Lemma publish_step nf idx n z x fl i m mb blocks :
  n_heap n !! nf = Some z -> h_kind z = KLocal fl i false -> h_bucket z = b -> h_openCount z = 0 ->
  n_heap n !! h = Some x -> h_kind x = KCached r (len c) bs blocks -> n_state n = Running ->
  is_connected (n_md n) = true -> svc_abs (n_mdw n) m -> m !! b = Some mb ->
  exists w y inf, svc_abs w (<[b := <[h_key z := inf]> mb]> m) /\
    publish_block nf idx n =
      Done (Value nf)
        (set_heap (<[nf := y]> (<[h := with_kind (KCached r (len c) bs (<[idx := Some nf]> blocks)) x]> (n_heap n)))
           (n_next n) (set_md (n_md n) w n)) /\
    h_kind y = KLocal fl i true /\ h_openCount y = 2.
Proof.
  intros Hz Hk Hzb Ho Hx Hxk Hr Hcn Ha Hm. assert (Hne : nf <> h) by (intros ->; congruence).
  unfold publish_block, h_open, h_increaseOpenCount, set_block. unfold bind at 1 2, update_handle at 1, ret at 1.
  rewrite (alter_known _ nf z) by done. cbn [n_heap set_heap n_next].
  unfold bind at 1 2, update_handle at 1, ret at 1. cbn [n_heap set_heap n_next].
  erewrite (alter_known _ nf) by apply lookup_insert_eq. rewrite insert_insert_eq.
  unfold bind at 1, update_handle at 1. cbn [n_heap set_heap n_next].
  erewrite (alter_known _ h) by (rewrite lookup_insert_ne by done; exact Hx). rewrite Hxk.
  set (z2 := with_count _ _). set (x2 := with_kind _ x). set (n1 := set_heap _ _ _).
  assert (Hz1 : n_heap n1 !! nf = Some z2).
  { cbn [n1 n_heap set_heap]. rewrite lookup_insert_ne by done. apply lookup_insert_eq. }
  destruct (seal_creates nf n1 z2 fl i m mb Hz1 Hk Hr Hcn Ha) as (w & Hw & Es); [by rewrite <- Hzb in Hm|].
  unfold bind at 1. rewrite Es. cbn [n_heap set_heap n_next].
  rewrite (alter_known _ nf z2) by done. unfold bind at 1 2, update_handle, ret at 1. cbn [n_heap set_heap n_next].
  erewrite (alter_known _ nf) by apply lookup_insert_eq. rewrite insert_insert_eq.
  set (z3 := with_count _ _). unfold bind at 1.
  erewrite (close_shared nf _ z3); [|cbn [n_heap set_heap]; apply lookup_insert_eq|cbn; lia].
  unfold ret. cbn [n_heap set_heap n_next n_now n1]. rewrite insert_insert_eq.
  eexists w, _, _. split; [cbn [z2 h_bucket h_key with_count] in Hw; rewrite Hzb in Hw; exact Hw|].
  rewrite (insert_insert_ne _ h nf), insert_insert_eq by done. split; [reflexivity|].
  split; [done|]. cbn [h_openCount released_at with_count z3 z2 with_kind]. rewrite Ho. done.
Qed.

(** [openBlock] of an absent block downloads it. *)
Lemma open_block_absent fuel blocks m mb n idx :
  cache_inv blocks m mb n -> blocks !! idx = Some None -> absent n mb idx -> bs * Z.of_nat idx <= len c ->
  bs < Z.of_nat fuel -> (4096 <= fuel)%nat ->
  exists n', openBlock fuel h idx n = Done (Value (n_next n)) n' /\ filled blocks m mb idx n n'.
Proof.
  intros Hc Hidx Ha Hi Hf1 Hf2. destruct (ci_handle _ _ _ _ Hc) as (x & Hx & Hxk & Hxb & Hxky).
  destruct (ci_remote _ _ _ _ Hc) as (y & Hy & Hyk & Hyb & Hyky). destruct (ci_room _ _ _ _ Hc) as [Hr0 Hr1].
  pose proof (ci_wf _ _ _ _ Hc) as Hwf. set (nf := n_next n).
  destruct (nw_heap n Hwf h x Hx) as [Hhn _]. destruct (nw_heap n Hwf r y Hy) as [Hrn _].
  unfold openBlock. unfold bind at 1, the_handle at 1. rewrite Hx, Hxk, Hidx.
  unfold cache_key. rewrite Hxb, Hxky. fold (block_key ky idx).
  destruct (open_absent blocks m mb n idx Hc Ha Hi) as (cl & w & st & E1 & Ha1 & Hco1 & Hcn1).
  unfold bind at 1. rewrite E1. set (n1 := set_md cl w n).
  assert (Hwf1 : node_wf n1) by (constructor; apply Hwf).
  pose proof (create_new b (block_key ky idx) n1 Hwf1) as Hcr.
  cbn [n_pathPrefix n_names n_fs set_md n1] in Hcr.
  rewrite (block_local_path _ _ _ _ (ab_key _ _ _ Ha) (ab_postfix _ _ _ Ha)) in Hcr.
  set (p := n_pathPrefix n ++ _) in Hcr.
  destruct Hcr as (kern & fs & Hq & E2 & Hn2 & Hi2 & Hx2); try apply Hc; try done; [by apply keys_ok|apply Ha|].
  assert (Hp : fs_names (n_fs n) !! p = None) by (apply (ci_paths _ _ _ _ Hc); lia).
  rewrite Hp in E2, Hn2, Hi2, Hx2. cbn [default] in E2, Hn2, Hi2. set (i := fs_next (n_fs n)) in *.
  unfold bind at 1. rewrite E2. change (n_next n1) with nf in *. set (n2 := set_fileHandles _ _).
  set (z := newHandle b (block_key ky idx) None (KLocal (mkLocalFile p 0 0 []) i false)).
  assert (Hh2 : n_heap n2 = <[nf := z]> (n_heap n)) by done.
  assert (Hz2 : n_heap n2 !! nf = Some z) by (rewrite Hh2; apply lookup_insert_eq).
  unfold bind at 1, the_handle. rewrite Hh2, lookup_insert_ne, Hy, Hyk by (unfold nf; lia).
  destruct (fill_step fuel n2 nf z y _ i false idx Hz2 eq_refl Hyb Hyky) as (s3 & fl & k3 & E3 & Hs3 & Hw3 & Hq3);
    [cbn [n2 set_fileHandles n_fs created set_heap set_fs]; unfold inode_data; by rewrite Hi2, lookup_insert_eq
    |split; simpl; unfold INT64_MAX; done || lia|apply Hc|done..|].
  unfold bind at 1. rewrite E3. set (n3 := set_fs _ _ _). set (z3 := with_kind _ z) in *.
  assert (Hh3 : n_heap n3 = <[nf := z3]> (n_heap n)).
  { cbn [n3 n_heap set_fs set_heap]. by rewrite Hh2, insert_insert_eq. }
  destruct (publish_step nf idx n3 z3 x (with_data [] fl) i m mb blocks) as (w4 & y4 & inf & Ha4 & E4 & Hk4 & Ho4);
    [by rewrite Hh3, lookup_insert_eq|done|done|done|rewrite Hh3, lookup_insert_ne by (unfold nf; lia); exact Hx
    |done|apply Hc|done|done|apply Hc|].
  eexists. split; [exact E4|]. clear E1 E2 E3 E4.
  constructor; try done; cbn [n_fs n3 set_heap set_md n2 set_fs set_fileHandles created n_heap n_next].
  - by exists inf.
  - unfold object_at in *. cbn [n_s3 set_heap set_md n3 set_fs]. cbn [n_s3 set_s3]. rewrite decide_True, Hs3 by done.
    apply (ci_object _ _ _ _ Hc).
  - intros j. unfold inode_data. cbn [set_inode fs_inodes]. rewrite Hi2, insert_insert_eq, lookup_insert.
    case_decide as E; [subst j; by rewrite decide_True|by rewrite decide_False].
  - exists y4, (with_data [] fl). split_and!; [apply lookup_insert_eq|done| |done]. by destruct fl.
  - exists x. split; [done|]. rewrite lookup_insert_ne by (unfold nf; lia). by rewrite lookup_insert_eq.
  - intros g Hgh Hgn. by rewrite !lookup_insert_ne by done.
Qed.

(** [openBlock] gives a further file on the handle of the block, downloaded or not. *)
Lemma open_block fuel blocks m mb n idx :
  cache_inv blocks m mb n -> bs * Z.of_nat idx <= len c -> bs < Z.of_nat fuel -> (4096 <= fuel)%nat ->
  exists blocks' m' mb' f y n', openBlock fuel h idx n = Done (Value f) n' /\
    cache_inv blocks' m' mb' n' /\ downloaded n' f idx /\
    n_heap n' !! f = Some y /\ 2 <= h_openCount y.
Proof.
  intros Hc Hi Hf1 Hf2. destruct (ci_blocks _ _ _ _ Hc idx Hi) as [(f & Hb & Hd)|[Hb Ha]].
  - pose proof Hd as (y & fl & i & s & Hy & Hk & Hin & Hdt & Hw & Ho).
    destruct (ci_handle _ _ _ _ Hc) as (x & Hx & Hxk & _).
    set (y' := with_count (h_openCount y + 1) y).
    exists blocks, m, mb, f, y', (set_heap (<[f := y']> (n_heap n)) (n_next n) n). split_and!.
    + unfold openBlock. unfold bind at 1, the_handle. rewrite Hx, Hxk, Hb.
      unfold bind, h_open, h_increaseOpenCount, bind, update_handle, ret. by rewrite (alter_known _ f y).
    + rewrite <- (set_fs_id n) at 2. apply (cache_inv_touch blocks m mb n f y fl fl i s y'); try done; [cbn; lia|apply Hc].
    + exists y', fl, i, s. cbn [n_heap set_heap n_fs]. rewrite lookup_insert_eq.
      split_and!; try done. cbn. lia.
    + apply lookup_insert_eq.
    + cbn. lia.
  - destruct (open_block_absent fuel blocks m mb n idx Hc Hb Ha Hi Hf1 Hf2) as (n' & E & Hf).
    destruct (filled_inv blocks m mb idx n n' Hc Ha Hb Hf) as (m' & mb' & Hc').
    destruct (fi_new _ _ _ _ _ _ Hf) as (y & fl & Hy & Hk & Hw & Ho).
    exists (<[idx := Some (n_next n)]> blocks), m', mb', (n_next n), y, n'. split_and!; try done; [|lia].
    exists y, fl, (fs_next (n_fs n)), true. rewrite (fi_fs_next _ _ _ _ _ _ Hf), (fi_fs_data _ _ _ _ _ _ Hf).
    rewrite decide_True by done. split_and!; try done; lia.
Qed.

(** Some cache state for the object. *)
Definition caches n : Prop := exists blocks m mb, cache_inv blocks m mb n.

(** Every block is served, whatever has been downloaded. *)
Lemma read_block_served fuel depth retries :
  bs < Z.of_nat fuel -> (4096 <= fuel)%nat ->
  serves (read_block fuel (h_readBytes fuel (S depth)) retries h) caches bs c.
Proof.
  intros Hf1 Hf2 idx off cnt n (blocks & m & mb & Hc) Hoff Hcnt Hi.
  destruct (open_block fuel blocks m mb n idx Hc Hi Hf1 Hf2) as (bl & m' & mb' & f & y & n1 & E1 & Hc1 & Hd & Hy & Ho).
  destruct Hd as (y1 & fl & i & s & Hy1 & Hk & Hin & Hdt & Hw & _). assert (y1 = y) by congruence. subst y1.
  pose proof (ci_quiet _ _ _ _ Hc1) as Hq. pose proof (block_small idx Hi) as Hsm.
  destruct (read_local fuel depth f n1 y fl i s off cnt Hy Hk) as (kern & Hkern & Er);
    rewrite ?Hdt; [done|lia|done|rewrite Hq; lia|].
  rewrite Hdt in Er. rewrite len_slice by lia.
  assert (Hgo : exists n2, (let* copyCount := h_readBytes fuel (S depth) f off cnt in
                match copyCount with
                | Value r => close f ;; ret (Value r)
                | Error st => close f ;; ret (Error st)
                end) n1 = Done (Value (Z.max 0 (Z.min cnt (len (block_of bs c idx) - off)),
                                       slice off cnt (block_of bs c idx))) n2 /\ caches n2).
  { unfold bind at 1. rewrite Er. unfold bind at 1.
    erewrite close_shared; [|cbn [n_heap set_fs set_heap]; apply lookup_insert_eq|cbn; lia].
    unfold ret. eexists. split; [done|]. exists bl, m', mb'. cbn [n_heap n_next n_now set_fs set_heap].
    rewrite insert_insert_eq. rewrite <- Hdt.
    apply (cache_inv_touch bl m' mb' n1 f y fl (with_data [] fl) i s); try done; [cbn; lia| |lia].
    intros j. apply (inode_data_same j i (n_fs n1)). }
  destruct Hgo as (n2 & E2 & Hn2). exists n2. split; [|done].
  destruct retries; cbn [read_block]; unfold bind at 1; rewrite E1; cbn iota; unfold bind at 1 in E2; rewrite Er in E2;
    unfold bind at 1; rewrite Er; exact E2.
Qed.
End cache.

(** ** Property *)

(** C21: a read through the block cache returns the bytes of the remote object.
    Whichever blocks have been downloaded, [readBytes] of an object that is kept
    in the object store gives exactly the requested range clipped to the object,
    for any position and length relative to the blocks: absent blocks are
    downloaded, registered and announced on the way, and the cache is again in a
    state from which every further read is served. *)
Theorem cached_read_exact (W X K T : Type) `{MDService W} `{S3Store X} `{KernelFair K} `{Transfers T}
    fuel b ky h r bs c pos cnt (n : Node W X K T) :
  caches b ky h r bs c n -> 0 < bs < INT64_MAX -> len c + bs < INT64_MAX ->
  (forall idx, bs * Z.of_nat idx <= len c -> ok (isValid b (block_key ky idx)) = true) ->
  bs < Z.of_nat fuel -> (4096 <= fuel)%nat -> 0 <= pos -> 0 <= cnt ->
  exists n', gf_readBytes fuel h pos cnt n =
      Done (Value (Z.max 0 (Z.min cnt (len c - pos)), slice pos cnt c)) n' /\
    caches b ky h r bs c n'.
Proof.
  intros Hca Hbs Hlc Hk Hf1 Hf2 Hp Hc. assert (Hb : ok (isValidBucketName b) = true).
  { apply (isValid_parts b (block_key ky 0)), Hk. pose proof (len_nonneg c). lia. }
  pose proof Hca as (blocks & m & mb & Hci). destruct (ci_handle _ _ _ _ _ _ _ _ _ _ Hci) as (x & Hx & Hxk & _).
  unfold gf_readBytes, DEPTH. rewrite (readBytes_cached fuel 4 h n x r (len c) bs blocks) by done.
  apply (cached_readBytes_spec (read_block fuel (h_readBytes fuel 4) MAX_RETRIES h)
           (caches b ky h r bs c) bs c); try done; [lia|unfold two64, INT64_MAX in *; lia|].
  by apply read_block_served.
Qed.

(** ** Witness *)

#[local] Existing Instance the_stub.
#[local] Existing Instance the_service.

(** The object [hello world] in blocks of four bytes, none of which is local. *)
Definition cold_node : Node Server MemS3.world nat unit :=
  mkNode (mkNodeConfig 4 true false) Running connected_client demo_server "/tmp/geds" newFileNames
    "geds://h:1" [] [] ["bkt" : str] [("bkt" : str, newEndpoint "http://s3" "ak" "sk")] 0 0
    (<[0%nat := newHandle "bkt" "k" None (KCached 1 11 4 [None; None; None])]>
       {[1%nat := with_count 1 (newHandle "bkt" "k" None (KS3 "bkt" "k" 11))]}) 2 0
    (fun _ => mkS3State {[("bkt" : str, "k" : str) := ("hello world" : str)]} 0 0) (mkFS ∅ ∅ 0 ∅) 0%nat tt.

Lemma cold_node_caches : caches "bkt" "k" 0 1 4 "hello world" cold_node.
Proof.
  exists [None; None; None], {[("bkt" : str) := ∅]}, ∅.
  assert (Hwf : node_wf cold_node).
  { constructor; [apply sorted_nil|constructor|]. intros h x. cbn [n_heap cold_node n_next].
    intros [[<- <-]|[_ Hx]]%lookup_insert_Some.
    - split; [simpl; lia|]. constructor; [simpl; lia|constructor].
    - apply lookup_singleton_Some in Hx as [<- <-]. split; [simpl; lia|constructor]. }
  constructor; try done; try (by eexists).
  - apply (newKVS_abs (Some ("bkt" : str))).
  - apply empty_coherent.
  - intros idx Hi. right. split; [|by constructor]. change (len "hello world") with 11 in Hi.
    destruct idx as [|[|[|idx]]]; [done..|lia].
Qed.

Lemma cached_read_exact_witness :
  exists n', gf_readBytes 4096 0 3 6 cold_node = Done (Value (6, "lo wor" : str)) n' /\
    caches "bkt" "k" 0 1 4 "hello world" n'.
Proof.
  destruct (cached_read_exact Server MemS3.world nat unit 4096 "bkt" "k" 0 1 4 "hello world" 3 6 cold_node
              cold_node_caches) as (n' & E & Hn'); try lia; try (unfold INT64_MAX; lia).
  - vm_compute. reflexivity.
  - change (len "hello world") with 11. intros [|[|[|idx]]] Hi; [vm_compute; reflexivity..|lia].
  - exists n'. split; [exact E|exact Hn'].
Defined.
