(* ===== verification/Spill.v ===== *)
(** * Spilling local storage

    How a process decides what to relocate and waits for it
    (src/src/libgeds/GEDS.cpp): the loop of the storage monitoring thread, the
    counters it updates (StorageCounter.h), and [relocate] of a list of handles,
    which posts one task per handle to the thread pool and waits for all of
    them. *)

From Stdlib Require Import Ascii ZArith Lia.
From stdpp Require Import base gmap sets list strings numbers relations sorting.
From S2P Require Import Prelude Bytes Status StdMap Path Object S3Endpoint MetadataService LocalFile ConcurrentMap GedsNames FileHandle Node Handles.

Open Scope Z_scope.
Open Scope list_scope.

(** ** Storage counters *)

Record StorageCounter := mkCounter { allocated : Z; used : Z; free : Z }.

Definition newCounter (allocated : Z) : StorageCounter := mkCounter allocated 0 0.

Definition updateUsed (u : Z) (c : StorageCounter) : StorageCounter :=
  mkCounter (allocated c) u (if allocated c <? u then 0 else allocated c - u).

Definition updateAllocated (a : Z) (c : StorageCounter) : StorageCounter :=
  mkCounter a (used c) (if a <? used c then 0 else a - used c).

(** ** The storage monitor *)

Section monitor.
Context {W X K T : Type}.
Implicit Types n : Node W X K T.

(** What the thread reads of a handle. *)
Record Candidate := mkCandidate { c_handle : nat; c_storage : Z; c_lastReleased : Z }.

Definition candidate n (h : nat) (x : Handle) : Candidate :=
  mkCandidate h (h_localStorageSize (n_heap n) h) (h_lastReleased x).

(** All handles of the map, in its order. *)
Definition all_handles n : list (nat * Handle) :=
  omap (fun e => (fun x => (snd e, x)) <$> n_heap n !! snd e) (n_fileHandles n).

Definition storageUsed n : Z :=
  fold_left (fun s e => u64 (s + h_localStorageSize (n_heap n) (fst e))) (all_handles n) 0.

Definition spillable n : list Candidate :=
  map (fun e => candidate n (fst e) (snd e))
    (List.filter (fun e => h_isRelocatable (snd e) && (h_openCount (snd e) =? 0) && h_isValid (snd e))
       (all_handles n)).

(** [std::sort] by the time of the last release. *)
Fixpoint insert_released (c : Candidate) (l : list Candidate) : list Candidate :=
  match l with
  | [] => [c]
  | d :: l => if c_lastReleased d <=? c_lastReleased c then d :: insert_released c l else c :: d :: l
  end.

Definition sort_released (l : list Candidate) : list Candidate := foldr insert_released [] l.

(** The loop that collects tasks until enough bytes are covered. *)
Fixpoint spill_tasks (excess relocateBytes : Z) (l : list Candidate) : list Candidate :=
  match l with
  | [] => []
  | c :: l =>
      if excess <? relocateBytes then []
      else c :: spill_tasks excess (u64 (relocateBytes + c_storage c)) l
  end.

(** One round: the new counters and the handles to relocate. *)
Definition monitor_round (targetStorage : Z) (counter : StorageCounter) n : StorageCounter * list Candidate :=
  let storageUsed := storageUsed n in
  (updateUsed storageUsed counter,
   if targetStorage <? storageUsed
   then spill_tasks (storageUsed - targetStorage) 0 (sort_released (spillable n))
   else []).
End monitor.

(** ** Waiting for the tasks *)

(** The loop of [relocate(relocatable, force)]: the handles not looked at yet, each
    with whether it is valid when its turn comes, [nTasks] and the number of
    tasks that were posted and have not finished ([activeTasks]). *)
Record Wait := mkWait { todo : list bool; nTasks : Z; activeTasks : Z }.

Definition wait_start (handles : list bool) : Wait := mkWait handles (Z.of_nat (length handles)) 0.

(** [tp] is the size of the thread pool. The loop goes on when at most [tp + 1]
    tasks are active; an invalid handle is skipped; a task that ends decreases
    both counters. *)
Inductive wait_step (tp : Z) : Wait -> Wait -> Prop :=
| wait_post l k a : a <= tp + 1 -> wait_step tp (mkWait (true :: l) k a) (mkWait l k (a + 1))
| wait_skip l k a : a <= tp + 1 -> wait_step tp (mkWait (false :: l) k a) (mkWait l k a)
| wait_finish l k a : 0 < a -> wait_step tp (mkWait l k a) (mkWait l (k - 1) (a - 1)).

(** The call returns when all handles have been looked at and [nTasks] is zero. *)
Definition wait_returned (s : Wait) : Prop := todo s = [] /\ nTasks s = 0.

(** ** Lemmas *)

Definition total (l : list Candidate) : Z := foldr (fun c r => c_storage c + r) 0 l.

Lemma spill_tasks_prefix excess r l : spill_tasks excess r l `prefix_of` l.
Proof.
  revert r. induction l as [|c l IH]; intros r; simpl; [done|].
  destruct (excess <? r); [apply prefix_nil|]. apply prefix_cons, IH.
Qed.

Lemma total_app l1 l2 : total (l1 ++ l2) = total l1 + total l2.
Proof. induction l1 as [|c l1 IH]; simpl; lia. Qed.

Lemma total_perm l l' : l ≡ₚ l' -> total l = total l'.
Proof. induction 1; simpl; lia. Qed.

Lemma total_nonneg l : Forall (fun c => 0 <= c_storage c) l -> 0 <= total l.
Proof. induction 1; simpl; lia. Qed.

Lemma spill_tasks_spec excess r l :
  Forall (fun c => 0 <= c_storage c) l -> 0 <= r -> r + total l < two64 ->
  let sel := spill_tasks excess r l in
  (sel = l \/ excess < r + total sel) /\
  (forall sel' c, sel = sel' ++ [c] -> r + total sel' <= excess).
Proof.
  revert r. induction l as [|c l IH]; intros r Hf Hr Hs; simpl.
  { split; [by left|]. intros sel' c Hc. by destruct sel'. }
  apply Forall_cons_iff in Hf as [Hc Hf]. simpl in Hs. pose proof (total_nonneg l Hf).
  destruct (Z.ltb_spec excess r) as [Hlt|Hge].
  { split; [right; simpl; lia|]. intros sel' d Hd. by destruct sel'. }
  rewrite u64_small by (unfold is_u64; lia).
  destruct (IH (r + c_storage c) Hf) as [H1 H2]; [lia..|]. split.
  - destruct H1 as [->|H1]; [by left|right]. simpl. lia.
  - intros [|d sel'] e; simpl; [lia|]. intros [= <- Hsel]. specialize (H2 sel' e Hsel). lia.
Qed.

Lemma insert_released_perm c l : insert_released c l ≡ₚ c :: l.
Proof.
  induction l as [|d l IH]; simpl; [done|]. destruct (_ <=? _); [|done].
  rewrite IH. apply Permutation_swap.
Qed.

Lemma sort_released_perm l : sort_released l ≡ₚ l.
Proof. induction l as [|c l IH]; simpl; [done|]. rewrite insert_released_perm. by constructor. Qed.

Definition released_le (c d : Candidate) : Prop := c_lastReleased c <= c_lastReleased d.

Lemma insert_released_sorted c l : StronglySorted released_le l -> StronglySorted released_le (insert_released c l).
Proof.
  induction 1 as [|d l Hs IH Hf]; simpl; [repeat constructor|].
  destruct (Z.leb_spec (c_lastReleased d) (c_lastReleased c)) as [Hle|Hgt].
  - constructor; [done|]. rewrite insert_released_perm. constructor; [done|done].
  - constructor; [by constructor|]. constructor; [unfold released_le; lia|].
    eapply Forall_impl; [exact Hf|]. unfold released_le. intros e He. lia.
Qed.

Lemma sort_released_sorted l : StronglySorted released_le (sort_released l).
Proof. induction l as [|c l IH]; simpl; [constructor|]. by apply insert_released_sorted. Qed.

(** The handles that were skipped. *)
Definition invalid (l : list bool) : Z := Z.of_nat (length (List.filter negb l)).

Record wait_inv (tp : Z) (handles : list bool) (s : Wait) : Prop := {
  wi_tasks : nTasks s = Z.of_nat (length (todo s)) + activeTasks s + (invalid handles - invalid (todo s));
  wi_active : 0 <= activeTasks s <= tp + 2;
  wi_todo : todo s `suffix_of` handles
}.

Lemma suffix_tail {A} (x : A) l l' : x :: l `suffix_of` l' -> l `suffix_of` l'.
Proof. intros [k ->]. exists (k ++ [x]). by rewrite <- app_assoc. Qed.

Lemma invalid_cons b l : invalid (b :: l) = (if b then 0 else 1) + invalid l.
Proof. unfold invalid. destruct b; simpl; lia. Qed.

Lemma wait_inv_step tp handles s s' :
  0 <= tp -> wait_inv tp handles s -> wait_step tp s s' -> wait_inv tp handles s'.
Proof.
  intros Htp [H1 H2 H3] Hs. destruct Hs as [l k a Ha|l k a Ha|l k a Ha]; simpl in *;
    rewrite ?invalid_cons in H1; constructor; simpl; try lia; eauto using suffix_tail.
Qed.

Lemma wait_inv_reach tp handles s :
  0 <= tp -> rtc (wait_step tp) (wait_start handles) s -> wait_inv tp handles s.
Proof.
  intros Htp Hr. assert (H0 : wait_inv tp handles (wait_start handles)) by (constructor; simpl; [lia|lia|done]).
  revert H0. induction Hr as [s|s1 s2 s3 H12 _ IH]; [done|]. intros H1. apply IH.
  by apply (wait_inv_step tp handles s1).
Qed.

(** Every step brings the end closer. *)
Definition wait_measure (s : Wait) : Z := 2 * Z.of_nat (length (todo s)) + activeTasks s.

Lemma invalid_zero l : invalid l = 0 <-> Forall (fun b => b = true) l.
Proof.
  induction l as [|b l IH]; [done|]. rewrite invalid_cons, Forall_cons.
  assert (0 <= invalid l) by (unfold invalid; lia). destruct b; naive_solver lia.
Qed.

(** ** Properties *)

(** What the storage monitor relocates. When more than the target is in use it
    selects handles that are relocatable, valid and not open, those released
    longest ago first, until they cover more than the excess or none is left,
    and no more than needed; otherwise it selects none. *)
Theorem monitor_selects (W X K T : Type) target counter counter' sel (n : Node W X K T) :
  Forall (fun c => 0 <= c_storage c) (spillable n) -> total (spillable n) < two64 ->
  monitor_round target counter n = (counter', sel) ->
  used counter' = storageUsed n /\
  (storageUsed n <= target -> sel = []) /\
  (target < storageUsed n ->
     exists sorted, sorted ≡ₚ spillable n /\ StronglySorted released_le sorted /\ sel `prefix_of` sorted /\
       (sel = sorted \/ storageUsed n - target < total sel) /\
       (forall sel' c, sel = sel' ++ [c] -> total sel' <= storageUsed n - target)).
Proof.
  unfold monitor_round. intros Hf Ht [= <- <-]. split; [done|]. destruct (Z.ltb_spec target (storageUsed n)).
  - split; [lia|]. intros _. exists (sort_released (spillable n)).
    split; [apply sort_released_perm|]. split; [apply sort_released_sorted|]. split; [apply spill_tasks_prefix|].
    assert (Hp := sort_released_perm (spillable n)).
    apply (spill_tasks_spec (storageUsed n - target) 0 (sort_released (spillable n))).
    + by rewrite Hp.
    + lia.
    + rewrite (total_perm _ _ Hp). lia.
  - split; [done|]. lia.
Qed.

(** Waiting for the relocation tasks. At most two more tasks than the pool has
    threads are posted at any time, and every run of the loop and its tasks
    ends. It ends with the call returning exactly when no handle was found
    invalid: a skipped handle is still counted in [nTasks], and the call then
    waits for ever. *)
Theorem relocate_wait tp handles s :
  0 <= tp -> rtc (wait_step tp) (wait_start handles) s ->
  activeTasks s <= tp + 2 /\
  (forall s', wait_step tp s s' -> 0 <= wait_measure s' < wait_measure s) /\
  ((forall s', ~ wait_step tp s s') -> (wait_returned s <-> Forall (fun b => b = true) handles)).
Proof.
  intros Htp Hr. destruct (wait_inv_reach tp handles s Htp Hr) as [H1 H2 H3]. split_and!; [lia| |].
  - intros s' Hs. destruct Hs; unfold wait_measure; simpl in *; lia.
  - intros Hstuck. assert (Ha : activeTasks s = 0).
    { destruct (decide (activeTasks s = 0)) as [|Hne]; [done|]. destruct s as [l k a]. simpl in *.
      destruct (Hstuck (mkWait l (k - 1) (a - 1))). constructor. lia. }
    assert (Ht : todo s = []).
    { destruct s as [[|[] l] k a]; simpl in *; [done|..].
      - destruct (Hstuck (mkWait l k (a + 1))). constructor. lia.
      - destruct (Hstuck (mkWait l k a)). constructor. lia. }
    rewrite Ht, Ha in H1. change (invalid []) with 0 in H1. simpl in H1.
    rewrite <- invalid_zero. unfold wait_returned. naive_solver lia.
Qed.

(** ** Witnesses *)

Lemma relocate_wait_witness :
  rtc (wait_step 0) (wait_start [true; false]) (mkWait [] 1 0) /\
  (wait_returned (mkWait [] 1 0) <-> Forall (fun b => b = true) [true; false]).
Proof.
  assert (Hr : rtc (wait_step 0) (wait_start [true; false]) (mkWait [] 1 0)).
  { apply (rtc_l _ _ (mkWait [false] 2 1)); [apply (wait_post 0 [false] 2 0); lia|].
    apply (rtc_l _ _ (mkWait [] 2 1)); [apply (wait_skip 0 [] 2 1); lia|].
    apply (rtc_l _ _ (mkWait [] 1 0)); [apply (wait_finish 0 [] 2 1); lia|]. apply rtc_refl. }
  split; [exact Hr|]. apply (relocate_wait 0 [true; false] (mkWait [] 1 0)); [lia|exact Hr|].
  intros s' Hs. inversion Hs; lia.
Defined.

(** Two closed local files of 6 and 7 bytes; the second was released first. *)
Definition spill_node : Node unit unit nat unit :=
  mkNode (mkNodeConfig 4 false false) Running (newMetadataService "uuid" "host:4381" None) tt "/tmp/geds" newFileNames
    "geds://h:1" [(getPath "b" "x", 0%nat); (getPath "b" "y", 1%nat)] [] [] [] 0 0
    (<[0%nat := mkHandle "b" "x" None 0 true 9 (KLocal (mkLocalFile "/tmp/geds/b/0" 0 6 []) 0 false)]>
       {[1%nat := mkHandle "b" "y" None 0 true 4 (KLocal (mkLocalFile "/tmp/geds/b/1" 1 7 []) 1 false)]}) 2 0
    (fun _ => mkS3State tt 0 0) (mkFS ∅ ∅ 0 ∅) 0%nat tt.

Lemma monitor_selects_witness :
  exists counter' sel sorted, monitor_round 8 (newCounter 10) spill_node = (counter', sel) /\
    used counter' = 13 /\ map c_handle sel = [1%nat] /\
    sorted ≡ₚ spillable spill_node /\ sel `prefix_of` sorted /\ (sel = sorted \/ 5 < total sel).
Proof.
  destruct (monitor_round 8 (newCounter 10) spill_node) as [counter' sel] eqn:E.
  assert (Hs : storageUsed spill_node = 13) by (vm_compute; reflexivity).
  assert (Hsel : map c_handle (snd (monitor_round 8 (newCounter 10) spill_node)) = [1%nat])
    by (vm_compute; reflexivity).
  rewrite E in Hsel.
  destruct (monitor_selects unit unit nat unit 8 (newCounter 10) counter' sel spill_node)
    as (Hu & _ & Hex); [vm_compute; repeat constructor; discriminate|vm_compute; reflexivity|exact E|].
  destruct Hex as (sorted & Hp & _ & Hpre & Hc & _); [rewrite Hs; lia|].
  rewrite Hs in Hu, Hc. exists counter', sel, sorted. repeat split; [exact Hu|exact Hsel|exact Hp|exact Hpre|exact Hc].
Defined.
