(* ===== verification/Regex.v ===== *)
(** * Regular expressions with captures

    The part of [std::regex] (ECMAScript grammar) the text protocols use: a
    sequence of character classes, each matching one character, one or more, or
    any number. [regex_pieces] is [std::regex_match]: quantifiers are greedy and
    the matcher backtracks, so that the pieces are those the capture groups
    hold. The lemmas characterise the accepted strings and give the pieces
    where the text determines them. *)

From Stdlib Require Import Ascii ZArith Lia.
From stdpp Require Import base sets list strings numbers.
From S2P Require Import Prelude.

Open Scope list_scope.

(** ** The matcher *)

Inductive rxq := ROnce (c : ascii -> bool) | RPlus (c : ascii -> bool) | RStar (c : ascii -> bool).

(** A greedy [c+] followed by [k]: first try to take more, then go on. *)
Fixpoint plus_greedy (c : ascii -> bool) (k : str -> option (list str)) (s : str) : option (list str) :=
  match s with
  | [] => None
  | x :: s' =>
      if c x then
        match plus_greedy c k s' with
        | Some (p :: ps) => Some ((x :: p) :: ps)
        | _ => match k s' with Some ps => Some ([x] :: ps) | None => None end
        end
      else None
  end.

(** One piece of the text per element of the pattern. *)
Fixpoint regex_pieces (rs : list rxq) (s : str) : option (list str) :=
  match rs with
  | [] => match s with [] => Some [] | _ => None end
  | ROnce c :: rs =>
      match s with
      | x :: s' => if c x then option_map (cons [x]) (regex_pieces rs s') else None
      | [] => None
      end
  | RPlus c :: rs => plus_greedy c (regex_pieces rs) s
  | RStar c :: rs =>
      match plus_greedy c (regex_pieces rs) s with
      | Some ps => Some ps
      | None => option_map (cons []) (regex_pieces rs s)
      end
  end.

(** A literal string. *)
Definition lit (s : str) : list rxq := (fun c => ROnce (fun x => bool_decide (x = c))) <$> s.

(** ** What a piece is *)

Definition piece_ok (r : rxq) (p : str) : Prop :=
  match r with
  | ROnce c => exists x, p = [x] /\ c x = true
  | RPlus c => p <> [] /\ Forall c p
  | RStar c => Forall c p
  end.

Lemma plus_greedy_sound c k s ps :
  plus_greedy c k s = Some ps ->
  exists p ps', ps = p :: ps' /\ p <> [] /\ Forall c p /\
                exists r, s = p ++ r /\ k r = Some ps'.
Proof.
  revert ps. induction s as [|x s IH]; intros ps; simpl; [done|].
  destruct (c x) eqn:Hx; [|done].
  assert (Hc : forall p, Forall c p -> Forall c (x :: p)).
  { intros p Hp. constructor; [by rewrite Hx|done]. }
  destruct (plus_greedy c k s) as [[|p ps1]|] eqn:E.
  - destruct (IH _ eq_refl) as (? & ? & ? & _). done.
  - intros [= <-]. destruct (IH _ eq_refl) as (p' & ps' & [= <- <-] & Hne & Hf & r & -> & Hk).
    exists (x :: p), ps1. split_and!; [done..|by apply Hc|]. by exists r.
  - destruct (k s) eqn:Ek; [|done]. intros [= <-].
    exists [x], l. split_and!; [done..|by apply Hc|]. by exists s.
Qed.

(** A match is a split of the text into pieces of the pattern. *)
Lemma regex_pieces_sound rs s ps :
  regex_pieces rs s = Some ps -> concat ps = s /\ Forall2 piece_ok rs ps.
Proof.
  revert s ps. induction rs as [|r rs IH]; intros s ps; simpl.
  { destruct s; [|done]. intros [= <-]. split; [done|constructor]. }
  destruct r as [c|c|c].
  - destruct s as [|x s]; [done|]. destruct (c x) eqn:Hx; [|done].
    destruct (regex_pieces rs s) as [ps'|] eqn:E; [|done]. intros [= <-].
    destruct (IH _ _ E) as [<- Hf]. split; [done|]. constructor; [by exists x|done].
  - intros (p & ps' & -> & Hne & Hp & r & -> & Hk)%plus_greedy_sound.
    destruct (IH _ _ Hk) as [<- Hf]. split; [done|]. by constructor.
  - destruct (plus_greedy c _ s) as [qs|] eqn:E.
    + intros [= <-]. apply plus_greedy_sound in E as (p & ps' & -> & Hne & Hp & r & -> & Hk).
      destruct (IH _ _ Hk) as [<- Hf]. split; [done|]. by constructor.
    + destruct (regex_pieces rs s) as [ps'|] eqn:E'; [|done]. intros [= <-].
      destruct (IH _ _ E') as [<- Hf]. split; [done|]. constructor; [by constructor|done].
Qed.

(** ** Texts that determine their pieces *)

(** The first character of a text is outside of a class. *)
Definition stops (c : ascii -> bool) (s : str) : Prop :=
  match s with [] => True | x :: _ => c x = false end.

Lemma plus_stops c k s : stops c s -> plus_greedy c k s = None.
Proof. destruct s as [|x s]; simpl; [done|]. by intros ->. Qed.

(** A run of the class up to a character outside of it is one piece. *)
Lemma plus_run (c : ascii -> bool) k p r ps :
  p <> [] -> Forall c p -> stops c r -> k r = Some ps ->
  plus_greedy c k (p ++ r) = Some (p :: ps).
Proof.
  intros Hne Hp Hr Hk. induction Hp as [|x p Hx Hp IH]; [done|].
  cbn [app plus_greedy]. apply Is_true_true in Hx. rewrite Hx.
  destruct p as [|y p]; [|by rewrite IH].
  cbn [app]. by rewrite (plus_stops c k r Hr), Hk.
Qed.

(** The last character of the run is given back when what follows needs it. *)
Lemma plus_back (c : ascii -> bool) k p x r ps :
  p <> [] -> Forall c p -> c x = true -> stops c r -> k r = None -> k (x :: r) = Some ps ->
  plus_greedy c k (p ++ x :: r) = Some (p :: ps).
Proof.
  intros Hne Hp Hx Hr Hk Hk'. induction Hp as [|y p Hy Hp IH]; [done|].
  cbn [app plus_greedy]. apply Is_true_true in Hy. rewrite Hy.
  destruct p as [|z p]; [|by rewrite IH].
  cbn [app plus_greedy]. by rewrite Hx, (plus_stops c k r Hr), Hk, Hk'.
Qed.

Lemma pieces_once c rs x s ps :
  c x = true -> regex_pieces rs s = Some ps ->
  regex_pieces (ROnce c :: rs) (x :: s) = Some ([x] :: ps).
Proof. intros Hx Hs. cbn [regex_pieces]. by rewrite Hx, Hs. Qed.

Lemma pieces_lit l rs s ps :
  regex_pieces rs s = Some ps ->
  regex_pieces (lit l ++ rs) (l ++ s) = Some (((fun c => [c]) <$> l) ++ ps).
Proof.
  intros Hs. induction l as [|c l IH]; [done|].
  cbn [lit fmap list_fmap app]. apply pieces_once; [by apply bool_decide_eq_true|exact IH].
Qed.

Lemma pieces_plus (c : ascii -> bool) rs p r ps :
  p <> [] -> Forall c p -> stops c r -> regex_pieces rs r = Some ps ->
  regex_pieces (RPlus c :: rs) (p ++ r) = Some (p :: ps).
Proof. apply plus_run. Qed.

Lemma pieces_plus_once (c d : ascii -> bool) rs p x r ps :
  p <> [] -> Forall c p -> c x = true -> d x = true -> stops c r -> stops d r ->
  regex_pieces rs r = Some ps ->
  regex_pieces (RPlus c :: ROnce d :: rs) (p ++ x :: r) = Some (p :: [x] :: ps).
Proof.
  intros Hne Hp Hx Hd Hr Hrd Hk. cbn [regex_pieces]. apply plus_back; try done.
  - destruct r; [done|]. simpl in Hrd. by rewrite Hrd.
  - by rewrite Hd, Hk.
Qed.

Lemma pieces_star_end (c : ascii -> bool) p : Forall c p -> regex_pieces [RStar c] p = Some [p].
Proof.
  intros Hp. destruct p as [|x p]; [done|]. cbn [regex_pieces].
  rewrite <- (app_nil_r (x :: p)) at 1. by erewrite plus_run.
Qed.

Lemma pieces_plus_end (c : ascii -> bool) p : p <> [] -> Forall c p -> regex_pieces [RPlus c] p = Some [p].
Proof.
  intros Hne Hp. cbn [regex_pieces]. rewrite <- (app_nil_r p) at 1. by erewrite plus_run.
Qed.

(** The pieces of a literal are the literal. *)
Lemma lit_pieces l rs ps :
  Forall2 piece_ok (lit l ++ rs) ps -> exists ps', ps = ((fun c => [c]) <$> l) ++ ps' /\ Forall2 piece_ok rs ps'.
Proof.
  revert ps. induction l as [|c l IH]; intros ps; [by exists ps|].
  cbn [lit fmap list_fmap app]. intros H. inversion H as [|? p ? ps' Hp Hf]; subst.
  destruct Hp as (x & -> & Hx).
  apply bool_decide_eq_true in Hx as ->. destruct (IH _ Hf) as (ps'' & -> & ?). by exists ps''.
Qed.

Lemma concat_singletons (l : str) : concat ((fun c => [c]) <$> l) = l.
Proof. induction l as [|c l IH]; [done|]. cbn [fmap list_fmap concat app]. by f_equal. Qed.
