(* ===== verification/Endian.v ===== *)
(** * Integers in memory

    Structures that are sent as they lie in memory: integers of a given number
    of bytes, least significant byte first, as on the platforms the transports
    run on. *)

From Stdlib Require Import Ascii ZArith Lia.
From stdpp Require Import base sets list strings numbers.
From S2P Require Import Prelude Bytes.

Open Scope Z_scope.
Open Scope list_scope.

Definition byte_of (z : Z) : ascii := ascii_of_N (Z.to_N (z mod 256)).
Definition byte_value (c : ascii) : Z := Z.of_N (N_of_ascii c).

(** The [n] bytes of an integer. *)
Fixpoint le_bytes (n : nat) (z : Z) : str :=
  match n with O => [] | S n => byte_of z :: le_bytes n (z / 256) end.

(** The unsigned integer a sequence of bytes holds. *)
Fixpoint le_value (s : str) : Z :=
  match s with [] => 0 | c :: s => byte_value c + 256 * le_value s end.

(** The same bytes as a signed 32-bit integer. *)
Definition i32 (z : Z) : Z := let r := u32 z in if r <? 2 ^ 31 then r else r - 2 ^ 32.

Lemma byte_value_range c : 0 <= byte_value c < 256.
Proof. unfold byte_value. pose proof (N_ascii_bounded c). lia. Qed.

Lemma byte_value_of z : byte_value (byte_of z) = z mod 256.
Proof.
  unfold byte_value, byte_of. pose proof (Z.mod_pos_bound z 256). rewrite N_ascii_embedding; lia.
Qed.

Lemma byte_of_value c : byte_of (byte_value c) = c.
Proof.
  unfold byte_of. rewrite Z.mod_small by apply byte_value_range. unfold byte_value.
  rewrite N2Z.id. apply ascii_N_embedding.
Qed.

Lemma length_le_bytes n z : length (le_bytes n z) = n.
Proof. revert z. induction n as [|n IH]; intros z; simpl; [done|]. by rewrite IH. Qed.

Lemma len_le_bytes n z : len (le_bytes n z) = Z.of_nat n.
Proof. unfold len. by rewrite length_le_bytes. Qed.

Lemma le_value_range s : 0 <= le_value s < 256 ^ len s.
Proof.
  induction s as [|c s IH]; [unfold len; simpl; lia|]. cbn [le_value].
  change (len (c :: s)) with (Z.of_nat (S (length s))). rewrite Nat2Z.inj_succ, Z.pow_succ_r by lia.
  pose proof (byte_value_range c). unfold len in IH. lia.
Qed.

(** Storing keeps the value modulo the width. *)
Lemma le_value_bytes n z : le_value (le_bytes n z) = z mod 256 ^ Z.of_nat n.
Proof.
  revert z. induction n as [|n IH]; intros z; [simpl; by rewrite Z.mod_1_r|].
  cbn [le_bytes le_value]. rewrite byte_value_of, IH, Nat2Z.inj_succ, Z.pow_succ_r by lia.
  rewrite (Z.rem_mul_r z 256) by lia. lia.
Qed.

Lemma le_roundtrip n z : 0 <= z < 256 ^ Z.of_nat n -> le_value (le_bytes n z) = z.
Proof. intros. rewrite le_value_bytes. by apply Z.mod_small. Qed.

Lemma le_bytes_value s : le_bytes (length s) (le_value s) = s.
Proof.
  induction s as [|c s IH]; [done|]. cbn [length le_bytes le_value].
  pose proof (byte_value_range c) as Hc. f_equal.
  - rewrite <- (byte_of_value c) at 2. unfold byte_of. by rewrite (Z.mul_comm 256), Z_mod_plus_full.
  - rewrite (Z.mul_comm 256), Z.div_add, (Z.div_small (byte_value c)) by lia. exact IH.
Qed.

Lemma i32_small z : 0 <= z < 2 ^ 31 -> i32 z = z.
Proof.
  intros Hz. unfold i32, u32. rewrite Z.mod_small by lia.
  by rewrite (proj2 (Z.ltb_lt z (2 ^ 31))) by lia.
Qed.
