(* ===== verification/TcpDataTransport.v ===== *)
(** * The text of transfer requests

    src/src/libgeds/TcpDataTransport.cpp (namespace [geds::tcp_transport]), the
    requests a process sends to another to read a range of an object, and
    src/src/libgeds/Request.cpp (namespace [geds::request]), an earlier version. *)

From Stdlib Require Import Ascii ZArith Lia.
From stdpp Require Import base sets list strings numbers.
From S2P Require Import Prelude Bytes Endian Decimal Status Regex GedsNames.

Open Scope Z_scope.
Open Scope list_scope.

(** The number of connections and of threads that serve them. *)
Definition MAXIMUM_TCP_THREADS (hardware_concurrency : Z) : Z :=
  Z.min 8 (u32 (hardware_concurrency * 2)).

(** ** Requests *)

Inductive RequestType := GET.

Definition parseRequestType (message : str) : StatusOr RequestType :=
  if starts_with "GET" message then Value GET
  else Error (InvalidArgumentError "Invalid request!").

Definition newline : ascii := ascii_of_N 10.
Definition carriage_return : ascii := ascii_of_N 13.

Definition is_newline (c : ascii) : bool := bool_decide (c = newline).
(** ECMAScript's [.]: any character but line terminators. *)
Definition rx_dot (c : ascii) : bool :=
  negb (bool_decide (c = newline)) && negb (bool_decide (c = carriage_return)).
(** [\D] *)
Definition not_digit (c : ascii) : bool := negb (is_digit c).

(** "GET ([a-z\d][a-z\d\.\-]+[a-z\d])\/(.+)[\n]+RANGE (\d+) (\d+)\D*" *)
Definition request_regex : list rxq :=
  lit "GET " ++ ROnce alnum :: RPlus name_char :: ROnce alnum ::
  lit "/" ++ RPlus rx_dot :: RPlus is_newline ::
  lit "RANGE " ++ RPlus is_digit :: lit " " ++ [RPlus is_digit; RStar not_digit].

(** The text of the elements [a .. a + n) of the pattern: a capture group. *)
Definition group (a n : nat) (m : list str) : str := concat (take n (drop a m)).

(** The bucket, the key, the offset and the length. The values are assigned in
    this order; [std::stoull] throws when a number does not fit. *)
Definition parseGetRequest (request : str) : outcome (StatusOr (str * str * Z * Z)) :=
  match regex_pieces request_regex request with
  | None => Ret (Error (InvalidArgumentError ("Unable to parse '" ++ request ++ "'")))
  | Some m =>
      let bucket := group 4 3 m in
      let key := group 8 1 m in
      let! offset := stoull (group 16 1 m) in
      let! length := stoull (group 18 1 m) in
      Ret (Value (bucket, key, offset, length))
  end.

Definition createGetRequest (bucket key : str) (offset length : Z) : str :=
  "GET " ++ bucket ++ "/" ++ key ++ newline :: "RANGE " ++ to_string offset ++ " " ++ to_string length.

(** *** Responses *)

(** [struct Response], sent as it lies in memory: an [int], four bytes of padding
    with whatever the memory held, and a [size_t]. *)
Record Response := mkResponse { statusCode : Z; rlength : Z }.

Definition RESPONSE_SIZE : Z := 16.

Definition response_bytes (padding : str) (r : Response) : str :=
  le_bytes 4 (statusCode r) ++ padding ++ le_bytes 8 (rlength r).

Definition response_of (s : str) : Response :=
  mkResponse (i32 (le_value (take 4 s))) (le_value (drop 8 s)).

(** *** The earlier version (src/src/libgeds/Request.cpp) *)

Definition request_parseRequestType (message : str) : StatusOr RequestType :=
  if starts_with "GET" message then Value GET
  else Error (InvalidArgumentError "Invalid request!").

(** "GET ([a-z\d][a-z\d\.\-]+[a-z\d])/(.+)\nRANGE (\d+) (\d+)" *)
Definition old_request_regex : list rxq :=
  lit "GET " ++ ROnce alnum :: RPlus name_char :: ROnce alnum ::
  lit "/" ++ RPlus rx_dot :: lit [newline] ++
  lit "RANGE " ++ RPlus is_digit :: lit " " ++ [RPlus is_digit].

(** [m[0]] is the whole text, [m[1]] the bucket and [m[2]] the key. *)
Definition request_parseGetRequest (request : str) : outcome (StatusOr (str * str * Z * Z)) :=
  match regex_pieces old_request_regex request with
  | None => Ret (Error (InvalidArgumentError ("Unable to parse " ++ request)))
  | Some m =>
      let bucket := concat m in
      let key := group 4 3 m in
      let! position := stoull (group 8 1 m) in
      let! length := stoull (group 8 1 m) in
      Ret (Value (bucket, key, position, length))
  end.

Definition request_createGetRequest (bucket key : str) (position length : Z) : str :=
  "GET " ++ bucket ++ "/" ++ key ++ newline :: "RANGE " ++ to_string position ++ " " ++ to_string length.

(** ** Lemmas *)

(** A text in the form of a request. *)
Record request_form (r b k nl off len rest : str) : Prop := {
  rf_text : r = "GET " ++ b ++ "/" ++ k ++ nl ++ "RANGE " ++ off ++ " " ++ len ++ rest;
  rf_bucket : regex_match bucket_regex b = true;
  rf_key : k <> [] /\ Forall rx_dot k;
  rf_newlines : nl <> [] /\ Forall is_newline nl;
  rf_offset : off <> [] /\ Forall is_digit off;
  rf_length : len <> [] /\ Forall is_digit len;
  rf_rest : Forall not_digit rest
}.

Lemma bucket_parts b :
  regex_match bucket_regex b = true <->
  exists x m y, b = x :: m ++ [y] /\ alnum x = true /\ m <> [] /\ Forall name_char m /\ alnum y = true.
Proof.
  unfold bucket_regex. destruct b as [|x b].
  { split; [done|]. intros (? & ? & ? & ? & _). done. }
  change (regex_match _ (x :: b)) with (alnum x && regex_match [Plus name_char; One alnum] b).
  rewrite andb_true_iff, regex_match_plus_one. split.
  - intros (Hx & m & y & -> & Hm & Hf & Hy). by exists x, m, y.
  - intros (x' & m & y & [= <- ->] & Hx & Hm & Hf & Hy). split; [done|]. by exists m, y.
Qed.

Lemma alnum_name_char x : alnum x = true -> name_char x = true.
Proof. unfold name_char. by intros ->. Qed.

Lemma head_not_digit s : Forall not_digit s -> stops is_digit s.
Proof.
  intros H. destruct H as [|x s Hx _]; [done|]. simpl. apply Is_true_true in Hx.
  by apply negb_true_iff in Hx.
Qed.

Lemma head_newline (c : ascii -> bool) nl s :
  nl <> [] -> Forall is_newline nl -> c newline = false -> stops c (nl ++ s).
Proof.
  intros Hne Hf Hc. destruct Hf as [|x nl Hx _]; [done|]. simpl.
  apply Is_true_true, bool_decide_eq_true in Hx as ->. done.
Qed.

(** The pieces of a request are determined by its text. *)
Lemma request_pieces r b k nl off len rest :
  request_form r b k nl off len rest ->
  exists m, regex_pieces request_regex r = Some m /\
    group 4 3 m = b /\ group 8 1 m = k /\ group 16 1 m = off /\ group 18 1 m = len.
Proof.
  intros [-> (x & bm & y & -> & Hx & Hbm & Hbf & Hy)%bucket_parts [Hk Hkf] [Hnl Hnlf] [Ho Hof] [Hl Hlf] Hr].
  exists (((fun c => [c]) <$> ("GET " : str)) ++ [x] :: bm :: [y] :: ((fun c => [c]) <$> ("/" : str)) ++
     k :: nl :: ((fun c => [c]) <$> ("RANGE " : str)) ++ off :: ((fun c => [c]) <$> (" " : str)) ++ [len; rest]).
  split.
  - unfold request_regex. apply pieces_lit. rewrite <- app_comm_cons. apply pieces_once; [done|].
    rewrite <- (app_assoc bm [y]). apply pieces_plus_once; auto using alnum_name_char.
    { done. } { done. }
    apply pieces_lit, pieces_plus; [done..|by apply head_newline|].
    apply pieces_plus; [done..|].
    apply pieces_lit, pieces_plus; [done..|].
    apply pieces_lit, pieces_plus; [done..|by apply head_not_digit|]. by apply pieces_star_end.
  - unfold group. cbn. by rewrite !app_nil_r.
Qed.

Lemma pieces_request_form r m :
  regex_pieces request_regex r = Some m -> exists b k nl off len rest, request_form r b k nl off len rest.
Proof.
  intros [<- H]%regex_pieces_sound. unfold request_regex in H.
  apply lit_pieces in H as (m1 & -> & H).
  apply Forall2_cons_inv_l in H as (bx & m2 & Hbx & H2 & ->). apply Forall2_cons_inv_l in H2 as (bm & m3 & Hbm & H3 & ->).
  apply Forall2_cons_inv_l in H3 as (blast & m4 & Hby & H4 & ->). apply lit_pieces in H4 as (m5 & -> & H5).
  apply Forall2_cons_inv_l in H5 as (k & m6 & Hk & H6 & ->). apply Forall2_cons_inv_l in H6 as (nl & m7 & Hnl & H7 & ->).
  apply lit_pieces in H7 as (m8 & -> & H8). apply Forall2_cons_inv_l in H8 as (off & m9 & Hoff & H9 & ->).
  apply lit_pieces in H9 as (m10 & -> & H10). apply Forall2_cons_inv_l in H10 as (len & m11 & Hlen & H11 & ->).
  apply Forall2_cons_inv_l in H11 as (rest & m12 & Hrest & H12 & ->). apply Forall2_nil_inv_l in H12 as ->.
  destruct Hbx as (x & -> & Hx), Hby as (y & -> & Hy), Hbm as [Hbm Hbf].
  exists (x :: bm ++ [y]), k, nl, off, len, rest. constructor; [|apply bucket_parts; by exists x, bm, y|done..].
  change (x :: bm ++ [y]) with ([x] ++ bm ++ [y]).
  repeat (rewrite concat_app, concat_singletons; cbn [concat]). by rewrite app_nil_r, <- ?app_assoc.
Qed.

Lemma valid_bucket_regex b : ok (isValidBucketName b) = true -> regex_match bucket_regex b = true.
Proof. unfold isValidBucketName. by destruct (regex_match bucket_regex b). Qed.

Lemma create_form b k off len rest :
  ok (isValid b k) = true -> Forall rx_dot k -> 0 <= off -> 0 <= len -> Forall not_digit rest ->
  request_form (createGetRequest b k off len ++ rest) b k [newline] (to_string off) (to_string len) rest.
Proof.
  intros Hv Hk Hoff Hlen Hr. unfold isValid in Hv.
  destruct (ok (isValidBucketName b)) eqn:Eb; cbn [negb] in Hv; [|congruence].
  destruct (ok (isValidKeyName k)) eqn:Ek; cbn [negb] in Hv; [|congruence].
  constructor; auto using valid_bucket_regex, to_string_nonempty, to_string_digits.
  - unfold createGetRequest. by rewrite <- ?app_assoc, <- ?app_comm_cons, <- ?app_assoc.
  - split; [|done]. by destruct k.
Qed.

(** The earlier version takes the numbers of a request from its key and the
    bucket from the whole text. *)
Example old_request_unusable :
  request_parseGetRequest (request_createGetRequest "bucket" "key" 4 8) = Throw invalid_argument /\
  request_parseGetRequest (request_createGetRequest "bucket" "1key" 4 8) =
    Ret (Value (request_createGetRequest "bucket" "1key" 4 8, "bucket" : str, 1, 1)).
Proof. split; vm_compute; reflexivity. Qed.

(** A response can be read back whatever the padding holds. *)
Lemma response_roundtrip padding c l :
  len padding = 4 -> 0 <= c < 2 ^ 31 -> is_u64 l ->
  len (response_bytes padding (mkResponse c l)) = RESPONSE_SIZE /\
  response_of (response_bytes padding (mkResponse c l)) = mkResponse c l.
Proof.
  intros Hp Hc Hl. unfold response_bytes. cbn [statusCode rlength]. split.
  { rewrite !len_app, !len_le_bytes, Hp. done. }
  assert (Hp' : length padding = 4%nat) by (unfold len in Hp; lia).
  assert (Ht : take 4 (le_bytes 4 c ++ padding ++ le_bytes 8 l) = le_bytes 4 c).
  { rewrite <- (length_le_bytes 4 c) at 1. apply take_app_length. }
  assert (Hd : drop 8 (le_bytes 4 c ++ padding ++ le_bytes 8 l) = le_bytes 8 l).
  { rewrite app_assoc. replace 8%nat with (length (le_bytes 4 c ++ padding)) at 1
      by (by rewrite length_app, length_le_bytes, Hp'). apply drop_app_length. }
  unfold response_of. rewrite Ht, Hd, (le_roundtrip 4), (le_roundtrip 8), i32_small; [done|done| |].
  - unfold is_u64, two64 in Hl. change (256 ^ Z.of_nat 8) with (2 ^ 64). lia.
  - change (256 ^ Z.of_nat 4) with (2 ^ 32). lia.
Qed.

(** ** Properties *)

(** C34: a request arrives as it was sent. What the server reads is the text
    the client created and the zero byte that ends it; parsing gives the
    bucket, the key, the offset and the length back, for every valid object name
    whose key has no line terminator and all 64-bit offsets and lengths. *)
Theorem request_roundtrip bucket key offset length :
  ok (isValid bucket key) = true -> Forall rx_dot key -> is_u64 offset -> is_u64 length ->
  parseRequestType (createGetRequest bucket key offset length) = Value GET /\
  parseGetRequest (createGetRequest bucket key offset length ++ [ascii_of_N 0]) =
    Ret (Value (bucket, key, offset, length)).
Proof.
  intros Hv Hk Hoff Hlen. split; [done|].
  assert (Hf : Forall not_digit [ascii_of_N 0]) by by repeat constructor.
  pose proof (create_form bucket key offset length _ Hv Hk (proj1 Hoff) (proj1 Hlen) Hf) as Hr.
  apply request_pieces in Hr as (m & Hm & Eb & Ek & Eo & El).
  unfold parseGetRequest. rewrite Hm, Eb, Ek, Eo, El, !stoull_to_string by done. done.
Qed.

Lemma request_roundtrip_witness :
  parseGetRequest (createGetRequest "bucket" "dir/RANGE 1 2" 4096 SIZE_MAX ++ [ascii_of_N 0]) =
    Ret (Value ("bucket" : str, "dir/RANGE 1 2" : str, 4096, SIZE_MAX)).
Proof.
  apply (request_roundtrip "bucket" "dir/RANGE 1 2" 4096 SIZE_MAX);
    [reflexivity|repeat constructor|vm_compute; split; [discriminate|reflexivity]..].
Defined.

(** What the server makes of any text it is sent. A text that is not in the
    form of a request is answered with InvalidArgument. One that is in the form
    determines its parts; they are returned if both numbers fit into 64 bits,
    and an exception leaves the parser, which none of its callers catch, if one
    does not. *)
Theorem parseGetRequest_exact r :
  (forall b k nl off len rest, request_form r b k nl off len rest ->
     parseGetRequest r =
       if (SIZE_MAX <? parse_dec off) || (SIZE_MAX <? parse_dec len) then Throw out_of_range
       else Ret (Value (b, k, parse_dec off, parse_dec len))) /\
  ((forall b k nl off len rest, ~ request_form r b k nl off len rest) ->
     parseGetRequest r = Ret (Error (InvalidArgumentError ("Unable to parse '" ++ r ++ "'")))).
Proof.
  split.
  - intros b k nl off len rest Hf.
    destruct (request_pieces _ _ _ _ _ _ _ Hf) as (m & Hm & Eb & Ek & Eo & El).
    destruct Hf as [_ _ _ _ [Ho Hof] [Hl Hlf] _].
    unfold parseGetRequest. rewrite Hm, Eb, Ek, Eo, El, !stoull_digits by done.
    destruct (SIZE_MAX <? parse_dec off); [done|]. by destruct (SIZE_MAX <? parse_dec len).
  - intros Hn. unfold parseGetRequest. destruct (regex_pieces request_regex r) as [m|] eqn:E; [|done].
    destruct (pieces_request_form r m E) as (b & k & nl & off & len & rest & Hf). by destruct (Hn _ _ _ _ _ _ Hf).
Qed.

Lemma parseGetRequest_exact_witness :
  parseGetRequest ("GET bkt/k" ++ newline :: "RANGE 99999999999999999999 1") = Throw out_of_range /\
  parseGetRequest ("GET bkt/k" ++ newline :: "RANGE 7 1 ") = Ret (Value ("bkt" : str, "k" : str, 7, 1)).
Proof.
  split.
  - rewrite (proj1 (parseGetRequest_exact _) "bkt" "k" [newline] "99999999999999999999" "1" []);
      [reflexivity|]. by constructor; try reflexivity; try (split; [done|]); repeat constructor.
  - rewrite (proj1 (parseGetRequest_exact _) "bkt" "k" [newline] "7" "1" " ");
      [reflexivity|]. by constructor; try reflexivity; try (split; [done|]); repeat constructor.
Defined.

(** A key that ends with newlines names the object without them. *)
Example trailing_newline_aliases :
  ok (isValid "bucket" ("key" ++ [newline])) = true /\
  parseGetRequest (createGetRequest "bucket" ("key" ++ [newline]) 4 8 ++ [ascii_of_N 0]) =
    Ret (Value ("bucket" : str, "key" : str, 4, 8)).
Proof. split; vm_compute; reflexivity. Qed.
