(* ===== verification/TcpConnection.v ===== *)
(** * The server's side of a transfer

    src/src/libgeds/TcpConnection.cpp: a connection waits for a request, opens
    the object, answers with a [Response] and the bytes, and waits again. The
    completion handlers of the asynchronous operations run one after another, so
    that a connection is a state machine: what arrives is a step, and the step
    runs to the next wait. Objects on the stack that an asynchronous write refers to are
    taken as they are when the write is started. *)

From Stdlib Require Import Ascii ZArith Lia.
From stdpp Require Import base gmap sets list strings numbers.
From S2P Require Import Prelude Bytes Endian Decimal Status StdMap Path Object MDSKVS S3Endpoint.
From S2P Require Import MetadataService LocalFile ConcurrentMap GedsNames Node Handles HandleIO.
From S2P Require Import Regex TcpDataTransport GEDSCreate GEDSCache.

Open Scope Z_scope.
Open Scope list_scope.

(** ** Sockets *)

Definition EWOULDBLOCK : Z := 11.
(** The most a single [sendfile] transfers. *)
Definition SENDFILE_MAX : Z := 2147479552.

(** What the network does with the next call: take part of the bytes (at least
    one), be interrupted, be full, or break after some bytes. With no event left
    everything is taken. *)
Inductive tx_event := TxTake (n : nat) | TxIntr | TxAgain | TxBroken (n : nat) (errno : Z).

Record TcpSocket := mkTcpSocket {
  sk_sent : str;               (** what has been delivered to the peer *)
  sk_tx : list tx_event
}.

(** [boost::asio::async_write]: everything is written, or the connection breaks. *)
Definition async_write (bytes : str) (s : TcpSocket) : TcpSocket * bool :=
  match sk_tx s with
  | TxBroken n _ :: tx => (mkTcpSocket (sk_sent s ++ take n bytes) tx, false)
  | _ => (mkTcpSocket (sk_sent s ++ bytes) (sk_tx s), true)
  end.

(** [async_write_some(null_buffers())] waits until the socket can be written. *)
Definition async_writable (s : TcpSocket) : bool :=
  match sk_tx s with TxBroken _ _ :: _ => false | _ => true end.

(** [sendfile64] from a file with the bytes [data]. *)
Definition sendfile64 (data : str) (off count : Z) (s : TcpSocket) : TcpSocket * sys_result :=
  let bytes := slice off (Z.min count SENDFILE_MAX) data in
  match sk_tx s with
  | [] => (mkTcpSocket (sk_sent s ++ bytes) [], Sys (len bytes))
  | TxTake n :: tx =>
      let bytes := take (S n) bytes in (mkTcpSocket (sk_sent s ++ bytes) tx, Sys (len bytes))
  | TxIntr :: tx => (mkTcpSocket (sk_sent s) tx, SysError EINTR)
  | TxAgain :: tx => (mkTcpSocket (sk_sent s) tx, SysError EWOULDBLOCK)
  | TxBroken n e :: tx => (mkTcpSocket (sk_sent s) tx, SysError e)
  end.

(** The [do ... while (sent < 0 && errno == EINTR)] loop. *)
Fixpoint sendfile_retry (fuel : nat) (data : str) (off count : Z) (s : TcpSocket) :
    option (TcpSocket * sys_result) :=
  match fuel with
  | O => None
  | S fuel =>
      match sendfile64 data off count s with
      | (s, SysError e) =>
          if e =? EINTR then sendfile_retry fuel data off count s else Some (s, SysError e)
      | r => Some r
      end
  end.

(** [handleWriteSendfile]: [true] when the connection waits for a request again,
    [false] when it is dropped; [None] when it is still sending after [fuel]
    rounds. *)
Fixpoint handleWriteSendfile (fuel : nat) (data : str) (offset count : Z) (s : TcpSocket) :
    option (TcpSocket * bool) :=
  if count =? 0 then Some (s, true) else
  match fuel with
  | O => None
  | S fuel =>
      if negb (async_writable s) then Some (s, false) else
      match sendfile_retry (S fuel) data offset count s with
      | None => None
      | Some (s, SysError e) =>
          if negb (e =? EWOULDBLOCK) then Some (s, false)
          else handleWriteSendfile fuel data offset count s
      | Some (s, Sys sent) =>
          handleWriteSendfile fuel data (offset + sent) (u64 (count - sent)) s
      end
  end.

(** [handleError] *)
Definition handleError (padding : str) (status : Status) (s : TcpSocket) : TcpSocket * bool :=
  let response := mkResponse (raw_code status) (len (message status)) in
  async_write (response_bytes padding response ++ message status) s.

(** ** Requests *)

Section server.
Context {W X K T : Type} `{MDStub W} `{S3Client X} `{Kernel K} `{Transfers T}.
Context (fuel : nat).

(** [rawPtr()]: wrappers do not pass it on; local files are synchronised first
    and have no pointer. A pointer stands for the bytes it refers to. *)
Definition h_rawPtr (h : nat) : M W X K T (StatusOr str) :=
  let* x := the_handle h in
  match h_kind x with
  | KLocal f _ _ =>
      let* s := local_update h (fun f k => match lf_fsync fuel f k with
                                           | Some (k, st) => Some (f, k, st)
                                           | None => None
                                           end) in
      if negb (ok s) then ret (from_status s)
      else ret (match lf_rawPtr f with Value _ => Value [] | Error st => Error st end)
  | _ => ret (Error (UnavailableError "rawPtrs are not supported for this FileHandle type!"))
  end.

(** [GEDSFile::size()] *)
Definition gf_size (h : nat) : M W X K T Z :=
  let* s := h_size h in ret (value_or 0 s).

(** The bytes a descriptor of the handle refers to. *)
Definition fd_data (h : nat) : M W X K T str :=
  let* r := resolve h in
  match h_kind (snd r) with
  | KLocal _ i _ => gets (fun n => inode_data i (n_fs n))
  | _ => ret []
  end.

Definition clip (size offset length : Z) : Z :=
  if size <? offset then 0 else Z.min (size - offset) length.

(** The branch of [handleWrite] for a file with a descriptor and more than 8192
    bytes: the header, then [sendfile]. *)
Definition write_from_fd (padding : str) (file : nat) (offset length : Z) (s : TcpSocket) :
    M W X K T (TcpSocket * bool) :=
  let* size := gf_size file in
  let length := clip size offset length in
  let '(s, written) := async_write (response_bytes padding (mkResponse 0 length)) s in
  if negb written then close file ;; ret (s, false) else
  let* data := fd_data file in
  match handleWriteSendfile fuel data offset length s with
  | None => fun _ => NoFuel
  | Some r => close file ;; ret r
  end.

(** The last branch: the bytes are read into a buffer. *)
Definition write_from_buffer (padding : str) (file : nat) (offset length : Z) (s : TcpSocket) :
    M W X K T (TcpSocket * bool) :=
  let* size := gf_readBytes fuel file offset length in
  let r := match size with
           | Error st => handleError padding st s
           | Value (size, bytes) =>
               async_write (response_bytes padding (mkResponse 0 size) ++ bytes) s
           end in
  close file ;; ret r.

(** [handleWrite]: the socket, and whether the connection waits again. The file is
    closed when the last completion handler is gone. *)
Definition handleWrite (padding bucket key : str) (offset length : Z) (s : TcpSocket) :
    M W X K T (TcpSocket * bool) :=
  let* file := geds_open bucket key true in
  match file with
  | Error st => ret (handleError padding st s)
  | Value file =>
      let* rawFd := h_rawFd fuel file in
      let* rawPtr := h_rawPtr file in
      match rawPtr with
      | Value ptr =>
          let* size := gf_size file in
          let length := clip size offset length in
          let r := async_write (response_bytes padding (mkResponse 0 length) ++ slice offset length ptr) s in
          close file ;; ret r
      | Error _ =>
          if is_ok rawFd && (8192 <? length) then write_from_fd padding file offset length s
          else write_from_buffer padding file offset length s
      end
  end.

(** ** Connections *)

Record Conn := mkConn {
  cn_buffer : str;             (** [_buffer] *)
  cn_socket : TcpSocket;       (** [_socket] *)
  cn_waiting : bool            (** [false] once no handler keeps the connection *)
}.

Definition newConn (tx : list tx_event) : Conn := mkConn [] (mkTcpSocket [] tx) true.

(** The handler of [awaitRequest]: all that was received is taken as the
    request. An exception of the parser leaves the thread. *)
Definition handle_request (padding requestStr : str) (s : TcpSocket) : M W X K T (TcpSocket * bool) :=
  match parseGetRequest requestStr with
  | Throw _ | Abort => fun _ => Crash
  | Ret (Error status) => ret (handleError padding status s)
  | Ret (Value (bucket, key, offset, length)) => handleWrite padding bucket key offset length s
  end.

(** Bytes arrive: [async_read_until] completes when a zero byte is in the
    buffer. *)
Definition receive (padding chunk : str) (c : Conn) : M W X K T Conn :=
  if negb (cn_waiting c) then ret c else
  let buffer := cn_buffer c ++ chunk in
  if bool_decide (zero_byte ∈ buffer) then
    let* r := handle_request padding buffer (cn_socket c) in
    ret (mkConn [] (fst r) (snd r))
  else ret (mkConn buffer (cn_socket c) true).

Fixpoint receive_all (padding : str) (chunks : list str) (c : Conn) : M W X K T Conn :=
  match chunks with
  | [] => ret c
  | chunk :: chunks => let* c := receive padding chunk c in receive_all padding chunks c
  end.
End server.

(** ** Lemmas: sending *)

(** No call breaks the connection. *)
Definition healthy (s : TcpSocket) : Prop :=
  Forall (fun e => match e with TxBroken _ _ => False | _ => True end) (sk_tx s).

Lemma healthy_write bytes s :
  healthy s -> async_write bytes s = (mkTcpSocket (sk_sent s ++ bytes) (sk_tx s), true).
Proof. unfold async_write, healthy. destruct (sk_tx s) as [|[] tx]; try done. intros Hh. by inversion Hh. Qed.

Lemma healthy_writable s : healthy s -> async_writable s = true.
Proof. unfold async_writable, healthy. destruct (sk_tx s) as [|[] tx]; try done. intros Hh. by inversion Hh. Qed.

(** A call takes at least a byte, or uses up an event. *)
Lemma sendfile_retry_spec fuel data off count s :
  healthy s -> 0 <= off -> 0 < count -> off + count <= len data -> (length (sk_tx s) < fuel)%nat ->
  exists s' r, sendfile_retry fuel data off count s = Some (s', r) /\ healthy s' /\
    ((r = SysError EWOULDBLOCK /\ sk_sent s' = sk_sent s /\ (length (sk_tx s') < length (sk_tx s))%nat) \/
     (exists n, r = Sys n /\ 0 < n <= count /\ sk_sent s' = sk_sent s ++ slice off n data /\
        (length (sk_tx s') <= length (sk_tx s))%nat)).
Proof.
  intros Hh Ho Hc Hl. revert s Hh. induction fuel as [|fuel IH]; intros s Hh Hf; [lia|].
  cbn [sendfile_retry]. unfold sendfile64. set (m := Z.min count SENDFILE_MAX).
  assert (Hm : 0 < m <= count) by (unfold m, SENDFILE_MAX; lia).
  assert (Hsl : len (slice off m data) = m) by (apply slice_length; lia).
  unfold healthy in Hh. destruct (sk_tx s) as [|e tx] eqn:Etx.
  - rewrite Hsl. eexists _, _. split; [done|]. split; [by constructor|]. right. exists m.
    split_and!; [done|lia..|done|]. cbn [sk_tx length]. lia.
  - apply Forall_cons_iff in Hh as [He Htx]. cbn [length] in *. destruct e as [n| | |]; [..|done].
    + eexists _, _. split; [done|]. split; [done|]. right.
      assert (Ht : take (S n) (slice off m data) = slice off (Z.min (Z.of_nat (S n)) m) data).
      { unfold slice. rewrite take_take. f_equal. lia. }
      rewrite Ht. rewrite slice_length by lia. eexists. split_and!; [done|lia..|done|]. cbn [sk_tx]. lia.
    + change (EINTR =? EINTR) with true. cbn iota.
      destruct (IH (mkTcpSocket (sk_sent s) tx) Htx) as (s' & r & E & Hs' & Hr); [cbn [sk_tx]; lia|].
      exists s', r. split; [done|]. split; [done|]. cbn [sk_tx sk_sent] in Hr.
      destruct Hr as [(-> & Hs & Hn)|(n & -> & Hn & Hs & Ht)]; [left|right; exists n]; split_and!; try done; lia.
    + change (EWOULDBLOCK =? EINTR) with false. cbn iota. eexists _, _. split; [done|]. split; [done|].
      left. cbn [sk_sent sk_tx]. split_and!; [done..|lia].
Qed.

(** [handleWriteSendfile] sends the range, however the network takes it. *)
Lemma handleWriteSendfile_exact fuel data offset count s :
  healthy s -> 0 <= offset -> 0 <= count < two64 -> offset + count <= len data ->
  (length (sk_tx s) + Z.to_nat count <= fuel)%nat ->
  exists tx, handleWriteSendfile fuel data offset count s =
      Some (mkTcpSocket (sk_sent s ++ slice offset count data) tx, true) /\
    healthy (mkTcpSocket [] tx) /\ (length tx <= length (sk_tx s))%nat.
Proof.
  revert offset count s. induction fuel as [|fuel IH]; intros offset count s Hh Ho Hc Hl Hf.
  { assert (count = 0) as -> by lia. exists (sk_tx s). simpl.
    rewrite slice_0, app_nil_r. split_and!; [by destruct s|done|done]. }
  cbn [handleWriteSendfile]. destruct (Z.eqb_spec count 0) as [->|Hne].
  { exists (sk_tx s). rewrite slice_0, app_nil_r. split_and!; [by destruct s|done|done]. }
  rewrite healthy_writable by done. cbn [negb].
  destruct (sendfile_retry_spec (S fuel) data offset count s) as (s' & r & E & Hs' & Hr); [done|lia..|].
  rewrite E. destruct Hr as [(-> & Hs & Ht)|(n & -> & Hn & Hs & Ht)].
  - change (EWOULDBLOCK =? EWOULDBLOCK) with true. cbn [negb].
    destruct (IH offset count s' Hs') as (tx & -> & Htx & Hl'); [lia..|]. exists tx. rewrite Hs.
    split_and!; [done..|lia].
  - rewrite (u64_small (count - n)) by (unfold is_u64; lia).
    destruct (IH (offset + n) (count - n) s' Hs') as (tx & -> & Htx & Hl'); [lia..|]. exists tx.
    rewrite Hs, <- app_assoc, slice_extend by lia. replace (n + (count - n)) with count by lia.
    split_and!; [done..|lia].
Qed.

(** ** Lemmas: the process that serves *)

Section serve.
Context {W X K T : Type} `{MDStub W} `{S3Client X} `{KernelFair K} `{Transfers T}.
Context (fuel : nat).
Implicit Types n : Node W X K T.

Definition blank (k : Kind) : Kind :=
  match k with KLocal f i s => KLocal (with_data [] f) i s | k => k end.

(** What reading a file leaves as it was. *)
Record like (n n' : Node W X K T) : Prop := {
  lk_state : n_state n' = n_state n;
  lk_handles : n_fileHandles n' = n_fileHandles n;
  lk_kernel : (interrupts (n_kernel n') <= interrupts (n_kernel n))%nat;
  lk_inodes i : inode_data i (n_fs n') = inode_data i (n_fs n);
  lk_heap j x : n_heap n !! j = Some x ->
    exists x', n_heap n' !! j = Some x' /\ h_isValid x' = h_isValid x /\ blank (h_kind x') = blank (h_kind x)
}.

Lemma like_refl n : like n n.
Proof. constructor; try done. intros j x Hx. by exists x. Qed.

Lemma like_trans n n1 n2 : like n n1 -> like n1 n2 -> like n n2.
Proof.
  intros [A1 A2 A3 A4 A5] [B1 B2 B3 B4 B5]. constructor; try congruence; [lia|].
  intros j x Hx. destruct (A5 j x Hx) as (x1 & Hx1 & V1 & K1). destruct (B5 j x1 Hx1) as (x2 & ? & ? & ?).
  exists x2. split_and!; congruence.
Qed.

(** A computation returns [a] and changes nothing that matters. *)
Definition yields {A} (m : M W X K T A) n (a : A) : Prop := exists n', m n = Done a n' /\ like n n'.

Lemma yields_ret {A} n (a : A) : yields (ret a) n a.
Proof. exists n. split; [done|apply like_refl]. Qed.

Lemma yields_bind {A B} (m : M W X K T A) (f : A -> M W X K T B) n a b :
  yields m n a -> (forall n', like n n' -> yields (f a) n' b) -> yields (bind m f) n b.
Proof.
  intros (n1 & E1 & L1) Hf. destruct (Hf n1 L1) as (n2 & E2 & L2). exists n2.
  unfold bind. rewrite E1. split; [done|]. by apply (like_trans n n1).
Qed.

(** The process has the object [b/k] with the contents [d] in a local file. *)
Record served (b k d : str) n (h : nat) : Prop := {
  sv_running : n_state n = Running;
  sv_valid : ok (isValid b k) = true;
  sv_sorted : sorted (n_fileHandles n);
  sv_registered : mfind (getPath b k) (n_fileHandles n) = Some h;
  sv_fuel : (interrupts (n_kernel n) + length d < fuel)%nat;
  sv_file : exists x f i s, n_heap n !! h = Some x /\ h_isValid x = true /\ h_kind x = KLocal f i s /\
              lf_wf (with_data d f) /\ inode_data i (n_fs n) = d
}.

Lemma served_like b k d n n' h : like n n' -> served b k d n h -> served b k d n' h.
Proof.
  intros L [S1 S2 S0 S3 S4 (x & f & i & s & Hx & Hv & Hk & Hf & Hd)]. constructor.
  - by rewrite (lk_state n n' L).
  - done.
  - by rewrite (lk_handles n n' L).
  - by rewrite (lk_handles n n' L).
  - pose proof (lk_kernel n n' L). lia.
  - destruct (lk_heap n n' L h x Hx) as (x' & Hx' & Hv' & Hk'). rewrite Hk in Hk'. cbn [blank] in Hk'.
    destruct (h_kind x') as [f' i' s'|?|?|?|?] eqn:Ek; try done. injection Hk' as Hp Hfd Hs -> ->.
    exists x', f', i, s. split_and!; [done|congruence|done| |by rewrite (lk_inodes n n' L)].
    destruct Hf as [F1 F2 F3]. constructor; cbn [lf_fd lf_size lf_data with_data] in *; congruence.
Qed.

(** Updating a local file without changing its bytes or its size. *)
Lemma like_update n h x f i s kern :
  n_heap n !! h = Some x -> h_kind x = KLocal f i s -> (interrupts kern <= interrupts (n_kernel n))%nat ->
  like n (set_fs (set_inode i (inode_data i (n_fs n)) (n_fs n)) kern
            (set_heap (<[h := with_kind (KLocal (with_data [] f) i s) x]> (n_heap n)) (n_next n) n)).
Proof.
  intros Hh Hx Hk. constructor; try done.
  - intros j. apply inode_data_same.
  - intros j y Hy. cbn [n_heap set_fs set_heap]. destruct (decide (j = h)) as [->|Hne].
    + rewrite lookup_insert_eq. simplify_eq. eexists. split; [done|]. cbn [h_isValid h_kind with_kind].
      split; [done|]. by rewrite Hx.
    + rewrite lookup_insert_ne by done. by exists y.
Qed.

Lemma like_count n h (g : Handle -> Handle) :
  (forall x, h_isValid (g x) = h_isValid x /\ h_kind (g x) = h_kind x) ->
  like n (set_heap (alter g h (n_heap n)) (n_next n) n).
Proof.
  intros Hg. constructor; try done. intros j x Hx. cbn [n_heap set_heap]. rewrite lookup_alter.
  case_decide as E; [subst|by exists x]. rewrite Hx. exists (g x). destruct (Hg x) as [-> ->]. done.
Qed.

Lemma lf_fsync_quiet g f (k : K) :
  0 <= lf_fd f -> (interrupts k < g)%nat ->
  exists k', lf_fsync g f k = Some (k', OkStatus) /\ (interrupts k' <= interrupts k)%nat.
Proof.
  intros Hfd. revert k. induction g as [|g IH]; intros k Hk; [lia|]. cbn [lf_fsync].
  rewrite (proj2 (Z.ltb_ge _ _)) by done. pose proof (call_fair k) as Hc.
  destruct (call k) as [k' [r|e]]; [exists k'; split; [done|lia]|]. destruct Hc as [-> Hi].
  change (EINTR =? EINTR) with true. cbn iota. destruct (IH k') as (k2 & E & Hk2); [lia|].
  exists k2. split; [done|lia].
Qed.

(** The steps of [handleWrite] on a served object. *)

Lemma served_open b k d n h : served b k d n h -> yields (geds_open b k true) n (Value h).
Proof.
  intros [S1 S2 S0 S3 S4 (x & f & i & s & Hx & Hv & Hk & Hf & Hd)].
  eexists. split; [by apply (open_registered b k h n x)|].
  apply (like_trans _ (set_filesOpened (u64 (n_filesOpened n + 1)) n)).
  - constructor; try done. intros j y Hy. by exists y.
  - by apply (like_count (set_filesOpened _ n)).
Qed.

Lemma served_fsync b k d n h : served b k d n h ->
  yields (local_update h (fun f k => match lf_fsync fuel f k with
                                     | Some (k, st) => Some (f, k, st)
                                     | None => None
                                     end)) n OkStatus.
Proof.
  intros [S1 S2 S0 S3 S4 (x & f & i & s & Hx & Hv & Hk & Hf & Hd)].
  destruct (lf_fsync_quiet fuel (with_data (inode_data i (n_fs n)) f) (n_kernel n)) as (k' & E & Hk');
    [apply Hf|lia|].
  eexists. split; [|by apply (like_update n h x f i s k')].
  rewrite (local_update_step h _ n x f i s (with_data (inode_data i (n_fs n)) f) k' OkStatus);
    [done..|]. by rewrite E.
Qed.

Lemma served_rawFd b k d n h : served b k d n h -> exists fd, yields (h_rawFd fuel h) n (Value fd).
Proof.
  intros Hs. pose proof Hs as [S1 S2 S0 S3 S4 (x & f & i & s & Hx & Hv & Hk & Hf & Hd)].
  exists (lf_fd f). unfold h_rawFd. apply (yields_bind _ _ _ (h, x)).
  { exists n. split; [by apply (resolve_local h n x f i s)|apply like_refl]. }
  intros n1 L. cbn [snd fst]. rewrite Hk. apply (yields_bind _ _ _ OkStatus).
  { by apply (served_fsync b k d), (served_like b k d n). }
  intros n2 _. change (ok OkStatus) with true. cbn [negb]. unfold lf_rawFd.
  destruct Hf as [Ho _ _]. cbn in Ho. rewrite (proj2 (Z.ltb_ge _ _)) by done. apply yields_ret.
Qed.

Lemma served_rawPtr b k d n h : served b k d n h -> exists st, yields (h_rawPtr fuel h) n (Error st).
Proof.
  intros Hs. pose proof Hs as [S1 S2 S0 S3 S4 (x & f & i & s & Hx & Hv & Hk & Hf & Hd)].
  eexists. unfold h_rawPtr. apply (yields_bind _ _ _ x).
  { exists n. split; [|apply like_refl]. unfold the_handle. by rewrite Hx. }
  intros n1 L. rewrite Hk. apply (yields_bind _ _ _ OkStatus).
  { by apply (served_fsync b k d), (served_like b k d n). }
  intros n2 _. change (ok OkStatus) with true. cbn [negb lf_rawPtr]. apply yields_ret.
Qed.

Lemma served_size b k d n h : served b k d n h -> yields (gf_size h) n (len d).
Proof.
  intros [S1 S2 S0 S3 S4 (x & f & i & s & Hx & Hv & Hk & Hf & Hd)].
  exists n. split; [|apply like_refl]. unfold gf_size, h_size, bind.
  rewrite (resolve_local h n x f i s) by done. cbn [snd]. unfold base_size. rewrite Hk.
  unfold ret. cbn [value_or]. f_equal. exact (lf_sized _ Hf).
Qed.

Lemma served_fd_data b k d n h : served b k d n h -> yields (fd_data h) n d.
Proof.
  intros [S1 S2 S0 S3 S4 (x & f & i & s & Hx & Hv & Hk & Hf & Hd)].
  exists n. split; [|apply like_refl]. unfold fd_data, bind.
  rewrite (resolve_local h n x f i s) by done. cbn [snd]. rewrite Hk. unfold gets. by rewrite Hd.
Qed.

Lemma served_read b k d n h pos cnt :
  served b k d n h -> 0 <= pos < INT64_MAX -> 0 <= cnt ->
  yields (gf_readBytes fuel h pos cnt) n (Value (Z.max 0 (Z.min cnt (len d - pos)), slice pos cnt d)).
Proof.
  intros [S1 S2 S0 S3 S4 (x & f & i & s & Hx & Hv & Hk & Hf & Hd)] Hp Hc.
  destruct (read_local fuel 4 h n x f i s pos cnt Hx Hk) as (kern & Hkern & E); rewrite ?Hd; try done.
  { unfold len. lia. }
  rewrite Hd in E. eexists. split; [exact E|]. pose proof (like_update n h x f i s kern Hx Hk Hkern) as L.
  by rewrite Hd in L.
Qed.

Lemma served_close b k d n h : served b k d n h -> yields (close h) n tt.
Proof.
  intros Hs. unfold close, h_decreaseOpenCount. apply (yields_bind _ _ _ tt).
  { eexists. split; [done|]. by apply (like_count n h (fun x => released_at _ (with_count _ x))). }
  intros n1 L. pose proof (served_like _ _ _ _ _ _ L Hs) as [_ _ Hsort Hm _ _].
  exists n1. split; [by apply (drop_registered (getPath b k))|apply like_refl].
Qed.

Lemma served_end b k d n h (r : TcpSocket * bool) : served b k d n h -> yields (close h ;; ret r) n r.
Proof. intros Hs. eapply yields_bind; [by apply (served_close b k d)|intros; apply yields_ret]. Qed.

(** The two ways of [handleWrite] to answer with the number of bytes and the
    bytes. *)
Definition answer (padding : str) (off cnt : Z) (d : str) : str :=
  response_bytes padding (mkResponse 0 (Z.max 0 (Z.min cnt (len d - off)))) ++ slice off cnt d.

Lemma served_small b k d n h : served b k d n h -> len d < INT64_MAX.
Proof. intros [_ _ _ _ _ (x & f & i & s & _ & _ & _ & Hf & _)]. apply Hf. Qed.

Lemma write_from_fd_served padding b k d n h off cnt s :
  served b k d n h -> healthy s -> (length (sk_tx s) + length d <= fuel)%nat -> 0 <= off -> 0 <= cnt < two64 ->
  exists tx, healthy (mkTcpSocket [] tx) /\ (length tx <= length (sk_tx s))%nat /\
    yields (write_from_fd fuel padding h off cnt s) n (mkTcpSocket (sk_sent s ++ answer padding off cnt d) tx, true).
Proof.
  intros Hs Hh Hf Ho Hc. unfold answer. set (c := Z.max 0 (Z.min cnt (len d - off))).
  pose proof (served_small _ _ _ _ _ Hs) as Hd. unfold INT64_MAX in Hd.
  assert (Hclip : clip (len d) off cnt = c) by (unfold clip, c; destruct (Z.ltb_spec (len d) off); lia).
  set (s1 := mkTcpSocket (sk_sent s ++ response_bytes padding (mkResponse 0 c)) (sk_tx s)).
  assert (exists tx, healthy (mkTcpSocket [] tx) /\ (length tx <= length (sk_tx s))%nat /\
    handleWriteSendfile fuel d off c s1 = Some (mkTcpSocket (sk_sent s1 ++ slice off cnt d) tx, true))
    as (tx & Htx & Hltx & Esend).
  { destruct (Z.le_gt_cases off (len d)).
    - destruct (handleWriteSendfile_exact fuel d off c s1) as (tx & E & ? & ?);
        [done|lia|unfold two64 in *; lia|lia|cbn [s1 sk_tx]; unfold c, len; lia|].
      exists tx. split_and!; [done..|]. rewrite E, (slice_clip off cnt) by lia.
      by replace (Z.min cnt (len d - off)) with c by lia.
    - assert (c = 0) as -> by lia. exists (sk_tx s). rewrite slice_past, app_nil_r by lia.
      split_and!; [done..|]. by destruct fuel. }
  exists tx. split_and!; [done..|]. unfold write_from_fd.
  eapply yields_bind; [by apply (served_size b k d)|]. intros n4 L4. apply (served_like _ _ _ _ _ _ L4) in Hs.
  cbv zeta. rewrite Hclip, healthy_write by done. fold s1. cbn iota. cbn [negb].
  eapply yields_bind; [by apply (served_fd_data b k d)|]. intros n5 L5. rewrite Esend, app_assoc.
  by apply (served_end b k d), (served_like b k d n4).
Qed.

Lemma write_from_buffer_served padding b k d n h off cnt s :
  served b k d n h -> healthy s -> 0 <= off < INT64_MAX -> 0 <= cnt ->
  yields (write_from_buffer fuel padding h off cnt s) n
    (mkTcpSocket (sk_sent s ++ answer padding off cnt d) (sk_tx s), true).
Proof.
  intros Hs Hh Ho Hc. unfold write_from_buffer.
  eapply yields_bind; [apply (served_read b k d n h off cnt Hs); lia|]. intros n4 L4. cbn iota. cbv zeta.
  rewrite healthy_write by done. by apply (served_end b k d), (served_like b k d n).
Qed.

Lemma handleWrite_served padding b k d n h off cnt s :
  served b k d n h -> healthy s -> (length (sk_tx s) + length d <= fuel)%nat ->
  0 <= off < INT64_MAX -> 0 <= cnt < two64 ->
  exists tx, healthy (mkTcpSocket [] tx) /\ (length tx <= length (sk_tx s))%nat /\
    yields (handleWrite fuel padding b k off cnt s) n (mkTcpSocket (sk_sent s ++ answer padding off cnt d) tx, true).
Proof.
  intros Hs Hh Hf Ho Hc.
  destruct (served_open b k d n h Hs) as (n1 & E1 & L1). apply (served_like _ _ _ _ _ _ L1) in Hs.
  destruct (served_rawFd _ _ _ _ _ Hs) as (fd & n2 & E2 & L2). apply (served_like _ _ _ _ _ _ L2) in Hs.
  destruct (served_rawPtr _ _ _ _ _ Hs) as (st & n3 & E3 & L3). apply (served_like _ _ _ _ _ _ L3) in Hs.
  assert (Hm : exists tx, healthy (mkTcpSocket [] tx) /\ (length tx <= length (sk_tx s))%nat /\
    yields (if true && (8192 <? cnt) then write_from_fd fuel padding h off cnt s
            else write_from_buffer fuel padding h off cnt s) n3
      (mkTcpSocket (sk_sent s ++ answer padding off cnt d) tx, true)).
  { destruct (8192 <? cnt); cbn [andb]; [apply (write_from_fd_served padding b k); try done; lia|].
    exists (sk_tx s). split_and!; [done..|]. apply (write_from_buffer_served padding b k); try done; lia. }
  destruct Hm as (tx & Htx & Hl & n4 & E4 & L4). exists tx. split_and!; [done..|]. exists n4.
  split; [|eauto using like_trans]. unfold handleWrite. unfold bind at 1. rewrite E1.
  unfold bind at 1. rewrite E2. unfold bind at 1. rewrite E3. exact E4.
Qed.

(** ** Lemmas: receiving *)

Lemma receive_rest padding chunks s w n :
  concat chunks = [] -> receive_all fuel padding chunks (mkConn [] s w) n = Done (mkConn [] s w) n.
Proof.
  induction chunks as [|x chunks IH]; [done|]. cbn [concat]. intros [-> Hc]%app_eq_nil.
  cbn [receive_all]. unfold bind, receive. cbn [cn_waiting cn_buffer cn_socket app]. by destruct w; apply IH.
Qed.

(** However a request is cut into pieces, it is handled once, as a whole. *)
Lemma receive_whole padding chunks bf r s n :
  zero_byte ∉ bf ++ r -> concat chunks = r ++ [zero_byte] ->
  receive_all fuel padding chunks (mkConn bf s true) n =
    (let* a := handle_request fuel padding (bf ++ r ++ [zero_byte]) s in ret (mkConn [] (fst a) (snd a))) n.
Proof.
  revert bf r. induction chunks as [|x chunks IH]; intros bf r Hz Hc.
  { by destruct r. }
  cbn [receive_all concat] in *. unfold bind at 1, receive. cbn [cn_waiting cn_buffer cn_socket negb].
  case_bool_decide as Hin.
  - assert (concat chunks = [] /\ x = r ++ [zero_byte]) as [Hrest ->].
    { apply app_eq_app in Hc as (y & [(Hx & Hy)|(Hr & Hy)]).
      - destruct y as [|c y]; [rewrite app_nil_r in Hx; by subst x|]. injection Hy as <- Hy.
        symmetry in Hy. apply app_eq_nil in Hy as [-> ->]. by split.
      - set_solver. }
    unfold bind. destruct (handle_request fuel padding (bf ++ r ++ [zero_byte]) s n) as [a n1| |]; [|done..].
    cbn [ret]. unfold ret. by apply receive_rest.
  - unfold ret. apply app_eq_app in Hc as (y & [(-> & Hy)|(-> & Hy)]).
    + destruct y as [|c y].
      * rewrite app_nil_r in *. rewrite (IH (bf ++ r) []); [|by rewrite app_nil_r|by rewrite Hy].
        by rewrite <- app_assoc.
      * injection Hy as <- Hy. set_solver.
    + rewrite (IH (bf ++ x) y); [by rewrite <- !app_assoc|by rewrite <- app_assoc|done].
Qed.

(** Keys that a request can carry. *)
Definition sendable (k : str) : Prop := Forall rx_dot k /\ zero_byte ∉ k.

Lemma Forall_notin (p : ascii -> bool) c s : Forall p s -> p c = false -> c ∉ s.
Proof. intros Hf Hc Hin. pose proof (Forall_elem _ _ _ Hf Hin) as Hp. cbn in Hp. by rewrite Hc in Hp. Qed.

Lemma request_no_zero b k off cnt :
  ok (isValid b k) = true -> sendable k -> 0 <= off -> 0 <= cnt -> zero_byte ∉ createGetRequest b k off cnt.
Proof.
  intros Hv [_ Hk] Ho Hc. destruct (isValid_parts b k Hv) as [Hb _].
  apply valid_bucket_regex, bucket_regex_spec in Hb as (_ & Hb & _).
  assert (zero_byte ∉ b) by (by apply (Forall_notin name_char)).
  assert (zero_byte ∉ to_string off) by (apply (Forall_notin is_digit); [by apply to_string_digits|done]).
  assert (zero_byte ∉ to_string cnt) by (apply (Forall_notin is_digit); [by apply to_string_digits|done]).
  assert (zero_byte ∉ ("GET " : str)) by by_decision. assert (zero_byte ∉ ("/" : str)) by by_decision.
  assert (zero_byte ∉ newline :: ("RANGE " : str)) by by_decision. assert (zero_byte ∉ (" " : str)) by by_decision.
  unfold createGetRequest. rewrite (app_comm_cons "RANGE "). by rewrite !not_elem_of_app.
Qed.

(** The parser gives a request back. *)
Lemma parse_created b k off cnt :
  ok (isValid b k) = true -> sendable k -> is_u64 off -> is_u64 cnt ->
  parseGetRequest (createGetRequest b k off cnt ++ [zero_byte]) = Ret (Value (b, k, off, cnt)).
Proof.
  intros Hv [Hk _] Ho Hc.
  assert (Hf : Forall not_digit [zero_byte]) by by repeat constructor.
  pose proof (create_form b k off cnt _ Hv Hk (proj1 Ho) (proj1 Hc) Hf) as Hr.
  apply request_pieces in Hr as (m & Hm & Eb & Ek & Eo & El).
  unfold parseGetRequest. by rewrite Hm, Eb, Ek, Eo, El, !stoull_to_string.
Qed.

Lemma receive_served padding b k d n h off cnt s chunks :
  served b k d n h -> sendable k -> healthy s -> (length (sk_tx s) + length d <= fuel)%nat ->
  0 <= off < INT64_MAX -> 0 <= cnt < two64 ->
  concat chunks = createGetRequest b k off cnt ++ [zero_byte] ->
  exists tx, healthy (mkTcpSocket [] tx) /\ (length tx <= length (sk_tx s))%nat /\
    yields (receive_all fuel padding chunks (mkConn [] s true)) n
      (mkConn [] (mkTcpSocket (sk_sent s ++ answer padding off cnt d) tx) true).
Proof.
  intros Hs Hk Hh Hf Ho Hc Hch. pose proof (sv_valid _ _ _ _ _ Hs) as Hv.
  destruct (handleWrite_served padding b k d n h off cnt s Hs Hh Hf Ho Hc) as (tx & Htx & Hl & n1 & E & L).
  exists tx. split_and!; [done..|]. exists n1. split; [|done].
  rewrite (receive_whole padding chunks [] (createGetRequest b k off cnt));
    [|cbn [app]; apply request_no_zero; done || lia|done].
  cbn [app]. unfold bind, handle_request. rewrite parse_created; [|done|done|unfold is_u64, two64, INT64_MAX in *; lia..].
  by rewrite E.
Qed.

(** An object that cannot be opened is answered with the status. *)
Lemma receive_error padding b k n n1 st off cnt s chunks :
  geds_open b k true n = Done (Error st) n1 -> ok (isValid b k) = true -> sendable k -> healthy s ->
  is_u64 off -> is_u64 cnt -> concat chunks = createGetRequest b k off cnt ++ [zero_byte] ->
  receive_all fuel padding chunks (mkConn [] s true) n =
    Done (mkConn [] (mkTcpSocket (sk_sent s ++
            response_bytes padding (mkResponse (raw_code st) (len (message st))) ++ message st) (sk_tx s)) true) n1.
Proof.
  intros E Hv Hk Hh Ho Hc Hch.
  rewrite (receive_whole padding chunks [] (createGetRequest b k off cnt));
    [|cbn [app]; destruct Ho, Hc; by apply request_no_zero|done].
  cbn [app]. unfold bind, handle_request. rewrite parse_created by done. unfold handleWrite, bind. rewrite E.
  unfold ret, handleError. by rewrite healthy_write.
Qed.
End serve.

(** ** Properties *)

(** A file that is shorter than its handle believes is sent for ever.
    When the bytes of the file end before the range that was announced in the
    header, [sendfile] returns zero, the count does not get smaller, and the
    connection neither finishes nor reports an error, whatever the network does. *)
Theorem sendfile_never_ends fuel data offset count s :
  0 <= len data <= offset -> 0 < count < two64 -> healthy s ->
  handleWriteSendfile fuel data offset count s = None.
Proof.
  intros Hd Hc. revert s. induction fuel as [|fuel IH]; intros s Hh; cbn [handleWriteSendfile];
    rewrite (proj2 (Z.eqb_neq count 0)) by lia; [done|]. rewrite healthy_writable by done. cbn [negb].
  assert (Hr : forall g s, healthy s -> sendfile_retry g data offset count s = None \/
     exists s', healthy s' /\ (sendfile_retry g data offset count s = Some (s', Sys 0) \/
                               sendfile_retry g data offset count s = Some (s', SysError EWOULDBLOCK))).
  { clear s Hh. intros g. induction g as [|g IHg]; intros s Hh; [by left|]. cbn [sendfile_retry]. unfold sendfile64.
    rewrite slice_past by lia. unfold healthy in Hh. destruct (sk_tx s) as [|e tx].
    - right. eexists. split; [|by left]. constructor.
    - apply Forall_cons_iff in Hh as [He Htx]. destruct e; [..|done].
      + right. rewrite take_nil. eexists. split; [|by left]. exact Htx.
      + change (EINTR =? EINTR) with true. cbn iota. by apply IHg.
      + change (EWOULDBLOCK =? EINTR) with false. right. eexists. split; [|by right]. exact Htx. }
  destruct (Hr (S fuel) s Hh) as [->|(s' & Hs' & [->| ->])]; [done| |].
  - rewrite Z.sub_0_r, Z.add_0_r, u64_small by (unfold is_u64; lia). by apply IH.
  - change (EWOULDBLOCK =? EWOULDBLOCK) with true. cbn [negb]. by apply IH.
Qed.

Lemma sendfile_never_ends_witness :
  handleWriteSendfile 100 "hello" 5 3 (mkTcpSocket [] [TxAgain; TxTake 7]) = None.
Proof.
  apply (sendfile_never_ends 100 "hello" 5 3 (mkTcpSocket [] [TxAgain; TxTake 7]));
    [vm_compute; split; discriminate|vm_compute; split; reflexivity|repeat constructor].
Defined.
