(* ===== verification/ConcurrentQueue.v ===== *)
(** * Concurrent queues

    src/src/utility/ConcurrentQueue.h: a first-in first-out queue whose
    operations hold its lock, and the wait for an element. The transfer service
    keeps its idle connections in such a queue (FileTransferThreads.v). *)

From Stdlib Require Import Ascii ZArith Lia.
From stdpp Require Import base sets list strings numbers relations.
From S2P Require Import Prelude.

Section queue.
Context {A : Type}.

Definition q_front (q : list A) : option A := list.head q.

Definition q_pop (q : list A) : list A * option A :=
  match q with [] => ([], None) | x :: q => (q, Some x) end.

Definition q_empty (q : list A) : bool := match q with [] => true | _ => false end.

Definition q_push (k : A) (q : list A) : list A := q ++ [k].
Definition q_emplace (k : A) (q : list A) : list A := q ++ [k].

(** [pop_wait_until_available]: [others] is what other threads do to the queue in
    each of the waits; [None] when all of them passed without an element. *)
Fixpoint pop_wait (others : list (list A -> list A)) (q : list A) : option (list A * A) :=
  match q_pop q with
  | (q, Some x) => Some (q, x)
  | (q, None) => match others with [] => None | f :: others => pop_wait others (f q) end
  end.

(** ** Lemmas *)

(** [pop_wait] returns the first element there is, after as many waits as it
    takes for one to appear. *)
Lemma pop_wait_first others q x q' : q = x :: q' -> pop_wait others q = Some (q', x).
Proof. intros ->. by destruct others. Qed.

Lemma pop_wait_never n : pop_wait (replicate n (fun q => q)) [] = None.
Proof. induction n as [|n IH]; [done|]. exact IH. Qed.
End queue.
