(* ===== verification/TcpClient.v ===== *)
(** * The client's side of a transfer

    src/src/libgeds/TcpClient.cpp: connecting to a host and reading a range of an
    object from it, over a network of processes that serve connections with
    TcpConnection.v. Blocking calls of the client let the server run. *)

From Stdlib Require Import Ascii ZArith Lia.
From stdpp Require Import base gmap sets list strings numbers.
From S2P Require Import Prelude Bytes Endian Decimal Status StdMap Path Object MDSKVS S3Endpoint.
From S2P Require Import MetadataService LocalFile ConcurrentMap GedsNames Node Handles HandleIO.
From S2P Require Import Regex TcpDataTransport TcpConnection.

Open Scope Z_scope.
Open Scope list_scope.

(** ** The network *)

(** [geds::rpc::FileTransferProtocol] and [geds::FileTransferProtocol]; the values
    agree. *)
Inductive FileTransferProtocol := Socket | RDMA.

#[global] Instance FileTransferProtocol_eq_dec : EqDecision FileTransferProtocol.
Proof. solve_decision. Defined.

Record TransportEndpoint := mkTransportEndpoint {
  te_type : FileTransferProtocol;
  te_address : str;
  te_port : Z
}.

(** A process that serves transfers. *)
Record Host (N : Type) := mkHost {
  host_node : option N;                        (** [None]: it was terminated *)
  host_endpoints : list TransportEndpoint;     (** what GetAvailEndpoints answers *)
  host_accept : list (option (list tx_event)); (** connections: refused, or the sending events *)
  host_split : list nat;                       (** how requests are cut on the way *)
  host_conns : list Conn
}.
Arguments mkHost {N}.
Arguments host_node {N}.
Arguments host_endpoints {N}.
Arguments host_accept {N}.
Arguments host_split {N}.
Arguments host_conns {N}.

(** Hosts by the address of their service, and who listens on an address and a port. *)
Record World (N : Type) := mkWorld {
  w_hosts : gmap str (Host N);
  w_listen : gmap (str * Z) str
}.
Arguments mkWorld {N}.
Arguments w_hosts {N}.
Arguments w_listen {N}.

Definition with_host {N} (a : str) (h : Host N) (w : World N) : World N :=
  mkWorld (<[a := h]> (w_hosts w)) (w_listen w).

Definition with_conn {N} (i : nat) (c : Conn) (n : option N) (h : Host N) : Host N :=
  mkHost n (host_endpoints h) (host_accept h) (host_split h) (<[i := c]> (host_conns h)).

(** The pieces a message arrives in. *)
Fixpoint chop (sizes : list nat) (s : str) : list str :=
  match sizes with [] => [s] | n :: sizes => take n s :: chop sizes (drop n s) end.

Lemma concat_chop sizes s : concat (chop sizes s) = s.
Proof.
  revert s. induction sizes as [|n sizes IH]; intros s; simpl; [by rewrite app_nil_r|].
  by rewrite IH, take_drop.
Qed.

(** The exceptions of the blocking operations of boost::asio. *)
Definition broken_pipe : exn := runtime_error "write_some: Broken pipe".
Definition end_of_file : exn := runtime_error "read_some: End of file".

Section client.
Context {W X K T : Type} `{MDStub W} `{S3Client X} `{Kernel K} `{Transfers T}.
Notation N := (Node W X K T).
(** The bound on the loops of the server, and what its memory holds between the
    members of a response. *)
Context (fuel : nat) (padding : str).

(** A connection: the host, and its place there. *)
Record TcpClient := mkTcpClient {
  tc_ip : str;
  tc_port : Z;
  tc_socket : option (str * nat)
}.

Definition newTcpClient (ip : str) (port : Z) : TcpClient := mkTcpClient ip port None.

(** [TcpClient::connect]: the server accepts and starts a [TcpConnection]. *)
Definition tcp_connect (c : TcpClient) (w : World N) : World N * TcpClient * Status :=
  let refused := (w, c, UnavailableError "Unable to connect system:111") in
  match w_listen w !! (tc_ip c, tc_port c) with
  | None => refused
  | Some a =>
      match w_hosts w !! a with
      | None => refused
      | Some h =>
          match host_node h, host_accept h with
          | None, _ => refused
          | Some n, None :: rest =>
              (with_host a (mkHost (Some n) (host_endpoints h) rest (host_split h) (host_conns h)) w, c,
               UnavailableError "Unable to connect system:111")
          | Some n, accept =>
              let tx := match accept with Some tx :: _ => tx | _ => [] end in
              (with_host a (mkHost (Some n) (host_endpoints h) (tail accept) (host_split h)
                              (host_conns h ++ [newConn tx])) w,
               mkTcpClient (tc_ip c) (tc_port c) (Some (a, length (host_conns h))), OkStatus)
          end
      end
  end.

(** The connection behind a socket. *)
Definition conn_of (sock : str * nat) (w : World N) : option (Host N * Conn) :=
  match w_hosts w !! fst sock with
  | None => None
  | Some h => match host_conns h !! snd sock with None => None | Some c => Some (h, c) end
  end.

(** [boost::asio::write]: the bytes arrive, and the server handles them. *)
Definition tcp_write (sock : str * nat) (bytes : str) (w : World N) : option (World N * outcome unit) :=
  match conn_of sock w with
  | None => Some (w, Throw broken_pipe)
  | Some (h, c) =>
      match host_node h with
      | None => Some (w, Throw broken_pipe)
      | Some n =>
          if negb (cn_waiting c) then Some (w, Throw broken_pipe) else
          match receive_all fuel padding (chop (host_split h) bytes) c n with
          | Done c n => Some (with_host (fst sock) (with_conn (snd sock) c (Some n) h) w, Ret tt)
          | Crash => Some (with_host (fst sock) (with_conn (snd sock) c None h) w, Ret tt)
          | NoFuel => None
          end
      end
  end.

Definition set_sent (s : str) (c : Conn) : Conn :=
  mkConn (cn_buffer c) (mkTcpSocket s (sk_tx (cn_socket c))) (cn_waiting c).

(** [boost::asio::read] of [n] bytes: waits until they have arrived, for ever if
    the server waits too, and throws if the connection is closed. *)
Definition tcp_read (sock : str * nat) (n : Z) (w : World N) : option (World N * outcome str) :=
  match conn_of sock w with
  | None => Some (w, Throw end_of_file)
  | Some (h, c) =>
      let sent := sk_sent (cn_socket c) in
      if n <=? len sent then
        Some (with_host (fst sock) (with_conn (snd sock) (set_sent (drop (Z.to_nat n) sent) c) (host_node h) h) w,
              Ret (slice 0 n sent))
      else if cn_waiting c && match host_node h with Some _ => true | None => false end then None
      else Some (w, Throw end_of_file)
  end.

Definition tbind {A B} (m : option (World N * outcome A)) (k : A -> World N -> option (World N * outcome B)) :
    option (World N * outcome B) :=
  match m with
  | None => None
  | Some (w, Ret a) => k a w
  | Some (w, Throw e) => Some (w, Throw e)
  | Some (w, Abort) => Some (w, Abort)
  end.

(** [TcpClient::readBytes]: the number of bytes and the bytes, which are stored
    in the caller's buffer. *)
Definition tcp_readBytes (c : TcpClient) (bucket key : str) (position length : Z) (w : World N) :
    option (World N * outcome (StatusOr (Z * str))) :=
  match tc_socket c with
  | None => Some (w, Abort)
  | Some sock =>
      let request := createGetRequest bucket key position length in
      tbind (tcp_write sock (request ++ [zero_byte]) w) (fun _ w =>
      tbind (tcp_read sock RESPONSE_SIZE w) (fun r w =>
      let response := response_of r in
      if negb (statusCode response =? 0) then
        tbind (tcp_read sock (rlength response) w) (fun msg w =>
        Some (w, Ret (Error (make_status (statusCode response) msg))))
      else if 0 <? rlength response then
        tbind (tcp_read sock (rlength response) w) (fun bytes w =>
        Some (w, Ret (Value (rlength response, bytes))))
      else Some (w, Ret (Value (rlength response, [])))))
  end.
End client.

(** ** Lemmas *)

Section theory.
Context {W X K T : Type} `{MDStub W} `{S3Client X} `{KernelFair K} `{Transfers T}.
Notation N := (Node W X K T).
Context (fuel : nat) (padding : str).

(** The host [a] is up, and the connection [i] to it is idle and can be used for
    objects of up to [size] bytes. *)
Definition idle (size : nat) (sock : str * nat) (w : World N) : Prop :=
  exists h n c, w_hosts w !! fst sock = Some h /\ host_node h = Some n /\ host_conns h !! snd sock = Some c /\
    cn_buffer c = [] /\ cn_waiting c = true /\ sk_sent (cn_socket c) = [] /\ healthy (cn_socket c) /\
    (length (sk_tx (cn_socket c)) + size <= fuel)%nat.

(** The host serves the object. *)
Definition has_object (a b k d : str) (w : World N) : Prop :=
  exists h n j, w_hosts w !! a = Some h /\ host_node h = Some n /\ served fuel b k d n j.

Lemma conn_with_host sock h i c n (w : World N) c0 :
  i = snd sock -> host_conns h !! i = Some c0 ->
  conn_of sock (with_host (fst sock) (with_conn i c n h) w) = Some (with_conn i c n h, c).
Proof.
  intros -> Hc. unfold conn_of, with_host. cbn [w_hosts]. rewrite lookup_insert_eq.
  cbn [host_conns with_conn]. by rewrite list_lookup_insert_eq by (by eapply lookup_lt_Some).
Qed.

Lemma tcp_read_sent sock m (w : World N) h c a rest :
  conn_of sock w = Some (h, c) -> sk_sent (cn_socket c) = a ++ rest -> len a = m ->
  tcp_read sock m w =
    Some (with_host (fst sock) (with_conn (snd sock) (set_sent rest c) (host_node h) h) w, Ret a).
Proof.
  intros Hc Hs Hl. unfold tcp_read. rewrite Hc, Hs, len_app. pose proof (len_nonneg rest).
  rewrite (proj2 (Z.leb_le _ _)) by lia. unfold len in Hl. subst m. unfold slice.
  rewrite Nat2Z.id, drop_0, take_app_length, drop_app_length. done.
Qed.

Lemma with_host_twice a i c c' (n n' : option N) h w :
  with_host a (with_conn i c' n' (with_conn i c n h)) (with_host a (with_conn i c n h) w) =
  with_host a (with_conn i c' n' h) w.
Proof.
  unfold with_host, with_conn. cbn [w_hosts w_listen host_endpoints host_accept host_split host_conns].
  by rewrite insert_insert_eq, list_insert_insert_eq.
Qed.

(** What a transfer keeps: other connections, and the objects of all hosts. *)
Definition keeps (w w' : World N) : Prop :=
  w_listen w' = w_listen w /\
  (forall size s, idle size s w -> idle size s w') /\
  (forall a b k d, has_object a b k d w -> has_object a b k d w').

Lemma keeps_refl w : keeps w w.
Proof. done. Qed.

Lemma keeps_trans w w1 w2 : keeps w w1 -> keeps w1 w2 -> keeps w w2.
Proof. intros (A1 & A2 & A3) (B1 & B2 & B3). split_and!; [congruence|auto..]. Qed.

(** A request that leaves its connection idle again keeps everything. *)
Lemma keeps_answered a i h n n' c tx w :
  w_hosts w !! a = Some h -> host_node h = Some n -> like n n' ->
  host_conns h !! i = Some c -> (length tx <= length (sk_tx (cn_socket c)))%nat -> healthy (mkTcpSocket [] tx) ->
  keeps w (with_host a (with_conn i (mkConn [] (mkTcpSocket [] tx) true) (Some n') h) w).
Proof.
  intros Hh Hn L Hc Htx Hhealthy. split_and!; [done| |].
  - intros size [a' i'] (h' & n1 & c1 & Hh1 & Hn1 & Hc1 & Hrest). cbn [fst snd] in *.
    unfold idle. cbn [fst snd w_hosts with_host]. destruct (decide (a' = a)) as [->|Hne].
    + rewrite lookup_insert_eq. simplify_eq. destruct (decide (i' = i)) as [->|Hni].
      * simplify_eq. eexists _, n', _. split; [done|]. split; [done|]. cbn [host_conns with_conn].
        rewrite list_lookup_insert_eq by (by eapply lookup_lt_Some). split; [done|].
        cbn [cn_buffer cn_waiting cn_socket sk_sent sk_tx]. destruct Hrest as (_ & _ & _ & _ & ?).
        split_and!; [done..|lia].
      * eexists _, n', c1. split; [done|]. split; [done|]. cbn [host_conns with_conn].
        by rewrite list_lookup_insert_ne.
    + rewrite lookup_insert_ne by done. by exists h', n1, c1.
  - intros a' b k d (h' & n1 & j & Hh1 & Hn1 & Hs). unfold has_object. cbn [w_hosts with_host].
    destruct (decide (a' = a)) as [->|Hne].
    + rewrite lookup_insert_eq. simplify_eq. eexists _, n', j. split_and!; [done..|]. by apply (served_like fuel b k d n).
    + rewrite lookup_insert_ne by done. by exists h', n1, j.
Qed.

(** [TcpClient::readBytes] on an idle connection to a host that has the object. *)
Lemma tcp_readBytes_exact c sock b k d pos cnt w :
  tc_socket c = Some sock -> idle (length d) sock w -> has_object (fst sock) b k d w ->
  len padding = 4 -> sendable k -> 0 <= pos < INT64_MAX -> 0 <= cnt < two64 ->
  exists w', tcp_readBytes fuel padding c b k pos cnt w =
      Some (w', Ret (Value (Z.max 0 (Z.min cnt (len d - pos)), slice pos cnt d))) /\ keeps w w'.
Proof.
  intros Hsock (h & n & cn & Hh & Hn & Hc & Hb & Hwt & Hsent & Hhl & Hfuel) (h' & n' & j & Hh' & Hn' & Hs) Hpad Hk Hp Hcnt.
  simplify_eq. destruct cn as [bf sk wt]. cbn [cn_buffer cn_waiting cn_socket] in *. subst bf wt.
  destruct (receive_served fuel padding b k d n j pos cnt sk (chop (host_split h) (createGetRequest b k pos cnt ++ [zero_byte])) Hs Hk Hhl Hfuel Hp Hcnt)
    as (tx & Htx & Hl & n1 & E1 & L1); [apply concat_chop|].
  rewrite Hsent in E1. cbn [app] in E1. unfold answer in E1.
  set (m := Z.max 0 (Z.min cnt (len d - pos))) in *.
  pose proof (served_small _ _ _ _ _ _ Hs) as Hd.
  destruct (response_roundtrip padding 0 m Hpad) as [Hlr Hrr]; [lia|unfold is_u64, two64, INT64_MAX in *; lia|].
  exists (with_host (fst sock) (with_conn (snd sock) (mkConn [] (mkTcpSocket [] tx) true) (Some n1) h) w).
  split; [|by apply (keeps_answered _ _ _ n n1 (mkConn [] sk true))].
  set (c1 := mkConn [] (mkTcpSocket (_ ++ slice pos cnt d) tx) true) in E1.
  unfold tcp_readBytes. rewrite Hsock. unfold tcp_write at 1. unfold conn_of at 1. rewrite Hh, Hc, Hn.
  cbn [cn_waiting negb]. rewrite E1. cbn [tbind].
  erewrite tcp_read_sent; [|by apply (conn_with_host _ _ _ _ _ _ (mkConn [] sk true))|done|exact Hlr].
  cbn [tbind host_node with_conn]. fold (with_conn (snd sock) c1 (Some n1) h). rewrite with_host_twice, Hrr.
  cbn [statusCode rlength]. change (negb (0 =? 0)) with false. cbn iota.
  assert (Hsl : len (slice pos cnt d) = m).
  { destruct (Z.le_gt_cases pos (len d)).
    - rewrite slice_clip by lia. rewrite slice_length by lia. lia.
    - rewrite slice_past by lia. unfold m. change (len []) with 0. lia. }
  destruct (Z.ltb_spec 0 m) as [Hm|Hm].
  - erewrite (tcp_read_sent sock m); [|by apply (conn_with_host _ _ _ _ _ _ (mkConn [] sk true))|symmetry; apply app_nil_r|done].
    cbn [tbind host_node with_conn]. fold (with_conn (snd sock) (set_sent (slice pos cnt d) c1) (Some n1) h).
    by rewrite with_host_twice.
  - assert (m = 0) as Hm0 by lia. rewrite Hm0 in *. apply len_0 in Hsl. rewrite Hsl. done.
Qed.

(** The status of an object the host cannot open arrives as it is. *)
Lemma tcp_readBytes_error c sock b k pos cnt w h n n1 tx st :
  let cn := mkConn [] (mkTcpSocket [] tx) true in
  tc_socket c = Some sock -> w_hosts w !! fst sock = Some h -> host_node h = Some n ->
  host_conns h !! snd sock = Some cn -> healthy (cn_socket cn) -> geds_open b k true n = Done (Error st) n1 ->
  len padding = 4 -> ok (isValid b k) = true -> sendable k -> is_u64 pos -> is_u64 cnt ->
  0 < raw_code st < 2 ^ 31 -> is_u64 (len (message st)) ->
  tcp_readBytes fuel padding c b k pos cnt w =
    Some (with_host (fst sock) (with_conn (snd sock) cn (Some n1) h) w, Ret (Error st)).
Proof.
  intros cn Hsock Hh Hn Hc Hhl Ho Hpad Hv Hk Hp Hcnt Hst Hmsg.
  pose proof (receive_error fuel padding b k n n1 st pos cnt (mkTcpSocket [] tx)
    (chop (host_split h) (createGetRequest b k pos cnt ++ [zero_byte])) Ho Hv Hk Hhl Hp Hcnt (concat_chop _ _)) as E1.
  cbn [sk_sent app sk_tx] in E1. fold cn in E1.
  destruct (response_roundtrip padding (raw_code st) (len (message st)) Hpad) as [Hlr Hrr]; [lia|done|].
  set (c1 := mkConn [] (mkTcpSocket (_ ++ message st) _) true) in E1.
  unfold tcp_readBytes. rewrite Hsock. unfold tcp_write at 1. unfold conn_of at 1. rewrite Hh, Hc, Hn.
  change (negb (cn_waiting cn)) with false. cbn iota. rewrite E1. cbn [tbind].
  erewrite tcp_read_sent; [|by apply (conn_with_host _ _ _ _ _ _ cn)|done|exact Hlr].
  cbn [tbind host_node with_conn]. fold (with_conn (snd sock) c1 (Some n1) h). rewrite with_host_twice, Hrr.
  cbn [statusCode rlength]. rewrite (proj2 (Z.eqb_neq (raw_code st) 0)) by lia. cbn [negb].
  erewrite (tcp_read_sent sock); [|by apply (conn_with_host _ _ _ _ _ _ cn)|symmetry; apply app_nil_r|done].
  cbn [tbind host_node with_conn]. fold (with_conn (snd sock) (set_sent (message st) c1) (Some n1) h).
  rewrite with_host_twice. unfold make_status. rewrite (proj2 (Z.eqb_neq (raw_code st) 0)) by lia.
  by destruct st.
Qed.
End theory.
