(* ===== verification/FileTransferService.v ===== *)
(** * The file transfer service

    src/src/libgeds/FileTransferService.cpp and FileTransferService.h: a process keeps one service per
    host it reads from, with a queue of connections to it. The service over the
    network of TcpClient.v is an instance of [Transfers], the interface through
    which the file layer of Handles.v reads from other processes. *)

From Stdlib Require Import Ascii ZArith Lia.
From stdpp Require Import base gmap sets list strings numbers.
From S2P Require Import Prelude Bytes Endian Decimal Status StdMap Path Object MDSKVS S3Endpoint.
From S2P Require Import MetadataServer MetadataService LocalFile ConcurrentMap GedsNames Node Handles HandleIO.
From S2P Require Import GEDSCreate Regex TcpDataTransport TcpConnection ConcurrentQueue TcpClient.

Open Scope Z_scope.
Open Scope list_scope.

Section service.
Context {W X K T : Type} `{MDStub W} `{S3Client X} `{Kernel K} `{Transfers T}.
Notation N := (Node W X K T).
Context (fuel : nat) (padding : str).
(** [std::thread::hardware_concurrency()] *)
Context (hw : Z).

Record FileTransferService := mkFTS {
  fts_nodeAddress : str;
  fts_state : ConnectionState;
  fts_connections : list TcpClient
}.

Definition newFileTransferService (nodeAddress : str) : FileTransferService :=
  mkFTS nodeAddress Disconnected [].

(** Whether the gRPC channel to an address can be opened. *)
Definition reachable (a : str) (w : World N) : bool :=
  match w_hosts w !! a with
  | Some h => match host_node h with Some _ => true | None => false end
  | None => false
  end.

(** A port is an [uint32] in the message and an [uint16_t] in the tuple. *)
Definition availTransportEndpoints (f : FileTransferService) (w : World N) :
    StatusOr (list (str * Z * FileTransferProtocol)) :=
  match w_hosts w !! fts_nodeAddress f with
  | Some h =>
      if reachable (fts_nodeAddress f) w then
        Value ((fun e => (te_address e, u16 (te_port e), te_type e)) <$> host_endpoints h)
      else Error (UnknownError "Unable to obtain available endpoints!")
  | None => Error (UnknownError "Unable to obtain available endpoints!")
  end.

(** The inner loop of [connect]: the first endpoint that accepts. *)
Fixpoint connect_first (endpoints : list (str * Z * FileTransferProtocol)) (nodeLoc : str)
    (conns : list TcpClient) (w : World N) : World N * list TcpClient :=
  match endpoints with
  | [] => (w, conns)
  | (ep_ip, ep_port, proto) :: endpoints =>
      if bool_decide (proto = Socket) && bool_decide (ep_ip = nodeLoc) then
        let '(w, connection, status) := tcp_connect (newTcpClient ep_ip ep_port) w in
        if ok status then (w, q_push connection conns)
        else connect_first endpoints nodeLoc conns w
      else connect_first endpoints nodeLoc conns w
  end.

Fixpoint connect_all (count : nat) (endpoints : list (str * Z * FileTransferProtocol)) (nodeLoc : str)
    (conns : list TcpClient) (w : World N) : World N * list TcpClient :=
  match count with
  | O => (w, conns)
  | S count =>
      let '(w, conns) := connect_first endpoints nodeLoc conns w in
      connect_all count endpoints nodeLoc conns w
  end.

Definition fts_connect (f : FileTransferService) (w : World N) : World N * FileTransferService * Status :=
  match fts_state f with
  | Disconnected =>
      let a := fts_nodeAddress f in
      if negb (reachable a w) then (w, f, UnavailableError ("Could not connect to " ++ a ++ ".")) else
      match find_char ":" a with
      | None => (w, f, UnknownError "Unable to parse node address.")
      | Some it =>
          let nodeLoc := take it a in
          match availTransportEndpoints f w with
          | Error st => (w, f, st)
          | Value endpoints =>
              let '(w, conns) := connect_all (Z.to_nat (MAXIMUM_TCP_THREADS hw)) endpoints nodeLoc
                                   (fts_connections f) w in
              (w, mkFTS a Connected conns, OkStatus)
          end
      end
  | _ => (w, f, FailedPreconditionError "Cannot reinitialize service.")
  end.

(** [disconnect] takes the connections out of the queue one by one; [None]: it
    waits for ever for one that is not there. *)
Fixpoint drop_connections (count : nat) (conns : list TcpClient) : option (list TcpClient) :=
  match count with
  | O => Some conns
  | S count => match pop_wait [] conns with None => None | Some (conns, _) => drop_connections count conns end
  end.

Definition fts_disconnect (f : FileTransferService) : option (FileTransferService * Status) :=
  match fts_state f with
  | Connected =>
      match drop_connections (Z.to_nat (MAXIMUM_TCP_THREADS hw)) (fts_connections f) with
      | None => None
      | Some conns => Some (mkFTS (fts_nodeAddress f) Disconnected conns, OkStatus)
      end
  | _ => Some (f, UnknownError "The service is in the wrong state!")
  end.

(** The destructor; [None]: it does not return. *)
Definition fts_destroy (f : FileTransferService) : option unit :=
  match fts_state f with
  | Connected => match fts_disconnect f with None => None | Some _ => Some tt end
  | _ => Some tt
  end.

(** [readBytes]: a connection is put back unless an exception leaves the call. *)
Definition fts_readBytes (f : FileTransferService) (bucket key : str) (position length : Z) (w : World N) :
    option (World N * FileTransferService * outcome (StatusOr (Z * str))) :=
  match fts_state f with
  | Connected =>
      match pop_wait [] (fts_connections f) with
      | None => None
      | Some (conns, tcp) =>
          match tcp_readBytes fuel padding tcp bucket key position length w with
          | None => None
          | Some (w, Ret status) =>
              Some (w, mkFTS (fts_nodeAddress f) (fts_state f) (q_push tcp conns), Ret status)
          | Some (w, e) => Some (w, mkFTS (fts_nodeAddress f) (fts_state f) conns, e)
          end
      end
  | _ => Some (w, f, Ret (Error (FailedPreconditionError "Not connected.")))
  end.

(** [read] of elements of [sizeofT] bytes. *)
Definition fts_read (sizeofT : Z) (f : FileTransferService) (bucket key : str) (position length : Z) (w : World N) :
    option (World N * FileTransferService * outcome (StatusOr (Z * str))) :=
  let lengthBytes := u64 (length * sizeofT) in
  let positionBytes := u64 (position * sizeofT) in
  match fts_readBytes f bucket key positionBytes lengthBytes w with
  | Some (w, f, Ret (Value (n, bytes))) => Some (w, f, Ret (Value (n / sizeofT, bytes)))
  | r => r
  end.

(** [read] into a vector, which is enlarged first; the bytes go to its elements
    from [offset] on. *)
Definition fts_read_vec (sizeofT : Z) (f : FileTransferService) (bucket key buffer : str)
    (offset position length : Z) (w : World N) :
    option (World N * FileTransferService * str * outcome (StatusOr Z)) :=
  let requiredLength := u64 (offset + length) in
  let buffer := if len buffer / sizeofT <? requiredLength then resize (requiredLength * sizeofT) buffer
                else buffer in
  match fts_read sizeofT f bucket key position length w with
  | None => None
  | Some (w, f, Ret (Value (n, bytes))) => Some (w, f, write_at (offset * sizeofT) bytes buffer, Ret (Value n))
  | Some (w, f, Ret (Error st)) => Some (w, f, buffer, Ret (Error st))
  | Some (w, f, Throw e) => Some (w, f, buffer, Throw e)
  | Some (w, f, Abort) => Some (w, f, buffer, Abort)
  end.

(** The services of a process, by host. *)
Record Net := mkNet { net_world : World N; net_services : gmap str FileTransferService }.

(** [GEDS::getFileTransferService] makes a service, connects it and keeps it; the
    remote file handles read bytes through it. *)
Definition net_transfers : Transfers Net := {|
  ft_connect hostname t :=
    let '(w, f, status) := fts_connect (newFileTransferService hostname) (net_world t) in
    if ok status then (mkNet w (<[hostname := f]> (net_services t)), status)
    else (mkNet w (net_services t), status);
  ft_read hostname bucket key position length t :=
    match net_services t !! hostname with
    | None => None
    | Some f =>
        match fts_read 1 f bucket key position length (net_world t) with
        | None => None
        | Some (w, f, r) => Some (mkNet w (<[hostname := f]> (net_services t)), r)
        end
    end
|}.
End service.
Arguments FileTransferService : clear implicits.
Arguments Net W X K T : clear implicits.

(** ** Lemmas: connecting *)

Section theory.
Context {W X K T : Type} `{MDStub W} `{S3Client X} `{KernelFair K} `{Transfers T}.
Notation N := (Node W X K T).
Context (fuel : nat) (padding : str) (hw : Z).
(** The size of the objects that can be sent within the bound. *)
Context (size : nat).
Implicit Types w : World N.

(** A connection the host will make, if it makes one. *)
Definition good_accept (e : option (list tx_event)) : Prop :=
  match e with None => True | Some tx => healthy (mkTcpSocket [] tx) /\ (length tx + size <= fuel)%nat end.

(** The host [a] is up and listens where its endpoints for [loc] say. *)
Definition listening (a loc : str) (endpoints : list (str * Z * FileTransferProtocol)) w : Prop :=
  (exists h n, w_hosts w !! a = Some h /\ host_node h = Some n /\ Forall good_accept (host_accept h)) /\
  (forall port, (loc, port, Socket) ∈ endpoints -> w_listen w !! (loc, port) = Some a).

(** A pool of different idle connections to [a]. *)
Definition pool (a : str) (conns : list TcpClient) w : Prop :=
  Forall (fun c => exists i, tc_socket c = Some (a, i) /\ idle fuel size (a, i) w) conns /\
  NoDup (tc_socket <$> conns).

Lemma pool_keeps a conns w w' : keeps fuel w w' -> pool a conns w -> pool a conns w'.
Proof.
  intros (_ & Hk & _) [Hf Hnd]. split; [|done]. eapply List.Forall_impl; [|exact Hf].
  intros c (i & Hc & Hi). exists i. auto.
Qed.

(** Changes of a host that only add connections. *)
Lemma keeps_grow a h acc l w :
  (size <= fuel)%nat -> w_hosts w !! a = Some h ->
  keeps fuel w (with_host a (mkHost (host_node h) (host_endpoints h) acc (host_split h) (host_conns h ++ l)) w).
Proof.
  intros Hsz Hh. split_and!; [done| |].
  - intros sz [a' i] (h' & n & c & Hh' & Hn & Hc & Hr). cbn [fst snd] in *. unfold idle.
    cbn [fst snd with_host w_hosts]. destruct (decide (a' = a)) as [->|Hne].
    + rewrite lookup_insert_eq. simplify_eq. eexists _, n, c. split; [done|]. split; [done|].
      cbn [host_conns]. split; [|done]. by apply lookup_app_l_Some.
    + rewrite lookup_insert_ne by done. by exists h', n, c.
  - intros a' b k d (h' & n & j & Hh' & Hn & Hs). unfold has_object. cbn [with_host w_hosts].
    destruct (decide (a' = a)) as [->|Hne].
    + rewrite lookup_insert_eq. simplify_eq. by eexists _, n, j.
    + rewrite lookup_insert_ne by done. by exists h', n, j.
Qed.

(** No connection is refused. *)
Definition accepting (a : str) w : Prop :=
  forall h, w_hosts w !! a = Some h -> Forall is_Some (host_accept h).

Lemma new_connection a loc port conns w h n tx acc :
  w_hosts w !! a = Some h -> host_node h = Some n -> pool a conns w ->
  healthy (mkTcpSocket [] tx) -> (length tx + size <= fuel)%nat ->
  let w' := with_host a (mkHost (Some n) (host_endpoints h) acc (host_split h) (host_conns h ++ [newConn tx])) w in
  keeps fuel w w' /\ pool a (q_push (mkTcpClient loc port (Some (a, length (host_conns h)))) conns) w'.
Proof.
  intros Hh Hn Hpool Htx Hltx w'. assert (Hk : keeps fuel w w').
  { unfold w'. rewrite <- Hn. apply keeps_grow; [lia|done]. }
  split; [done|]. pose proof Hpool as [Hf Hnd]. unfold q_push. split.
  - apply Forall_app. split; [by apply (pool_keeps a conns w w')|]. constructor; [|done].
    eexists. split; [done|]. eexists _, n, (newConn tx). cbn [fst snd with_host w_hosts w'].
    rewrite lookup_insert_eq. split; [done|]. cbn [host_node host_conns]. split; [done|].
    rewrite lookup_app_r, Nat.sub_diag by lia. done.
  - rewrite fmap_app. apply list.NoDup_app. split_and!; [done| |apply NoDup_singleton].
    intros s Hs Hs'. cbn in Hs'. apply list_elem_of_singleton in Hs' as ->. apply list_elem_of_fmap in Hs as (c & Ec & Hc).
    pose proof (Forall_elem _ _ _ Hf Hc) as (i & Ei & Hi). cbn in Ei. rewrite Ei in Ec. injection Ec as <-.
    destruct Hi as (h' & n' & c' & Hh' & _ & Hc' & _). cbn [fst snd] in *. simplify_eq.
    apply lookup_lt_Some in Hc'. lia.
Qed.

Lemma listening_update a loc eps w (h : Host N) n acc l :
  listening a loc eps w -> Forall good_accept acc ->
  listening a loc eps (with_host a (mkHost (Some n) (host_endpoints h) acc (host_split h) l) w).
Proof.
  intros [_ Hl] Hacc. split; [|exact Hl]. eexists _, n. cbn [with_host w_hosts]. by rewrite lookup_insert_eq.
Qed.

Lemma accepting_update a w (h : Host N) n acc l :
  Forall is_Some acc -> accepting a (with_host a (mkHost n (host_endpoints h) acc (host_split h) l) w).
Proof. intros Hacc h'. cbn [with_host w_hosts]. rewrite lookup_insert_eq. by intros [= <-]. Qed.

(** An attempt to connect gives an idle connection nobody has, or none. *)
Lemma tcp_connect_spec a loc port eps conns w :
  (size <= fuel)%nat -> listening a loc eps w -> pool a conns w -> (loc, port, Socket) ∈ eps ->
  exists w' c st, tcp_connect (newTcpClient loc port) w = (w', c, st) /\ keeps fuel w w' /\
    listening a loc eps w' /\ (ok st = true -> pool a (q_push c conns) w') /\
    (accepting a w -> ok st = true /\ accepting a w').
Proof.
  intros Hsz Hli Hpool Hin. pose proof Hli as [(h & n & Hh & Hn & Hg) Hl].
  assert (Ha : accepting a w -> Forall is_Some (host_accept h)) by auto.
  unfold tcp_connect. cbn [tc_ip tc_port newTcpClient]. rewrite (Hl port Hin), Hh, Hn.
  destruct (host_accept h) as [|[tx|] rest].
  - eexists _, _, _. split; [done|].
    destruct (new_connection a loc port conns w h n [] []) as [Hk Hp]; try done; [constructor|].
    split; [exact Hk|]. split; [by apply listening_update|]. split; [done|].
    intros _. split; [done|]. by apply accepting_update.
  - apply Forall_cons_iff in Hg as [[Htx Hltx] Hg]. eexists _, _, _. split; [done|].
    destruct (new_connection a loc port conns w h n tx rest) as [Hk Hp]; try done.
    split; [exact Hk|]. split; [by apply listening_update|]. split; [done|].
    intros Hacc. split; [done|]. apply accepting_update. by apply Ha, Forall_cons_iff in Hacc as [_ ?].
  - apply Forall_cons_iff in Hg as [_ Hg]. eexists _, _, _. split; [done|].
    assert (Hk := keeps_grow a h rest [] w Hsz Hh). rewrite app_nil_r, Hn in Hk.
    split; [exact Hk|]. split; [by apply listening_update|]. split; [done|].
    intros Hacc. apply Ha, Forall_cons_iff in Hacc as [Hx _]. by destruct Hx.
Qed.

(** The inner loop adds at most one connection. *)
Lemma connect_first_spec a loc eps0 eps conns w :
  (size <= fuel)%nat -> listening a loc eps0 w -> pool a conns w -> eps ⊆ eps0 ->
  exists w' conns', connect_first eps loc conns w = (w', conns') /\ keeps fuel w w' /\
    listening a loc eps0 w' /\ pool a conns' w' /\
    (length conns <= length conns' <= S (length conns))%nat /\
    (accepting a w -> accepting a w' /\
       ((exists port, (loc, port, Socket) ∈ eps) -> length conns' = S (length conns))).
Proof.
  intros Hsz. revert w. induction eps as [|[[ip port] proto] eps IH]; intros w Hli Hpool Hsub.
  { exists w, conns. split_and!; [done|apply keeps_refl|done|done|lia|lia|]. intros Ha. split; [done|].
    intros (port & Hin). by apply not_elem_of_nil in Hin. }
  assert (Hsub' : eps ⊆ eps0) by set_solver. cbn [connect_first].
  destruct (bool_decide (proto = Socket) && bool_decide (ip = loc)) eqn:Eb.
  - apply andb_true_iff in Eb as [->%bool_decide_eq_true ->%bool_decide_eq_true].
    destruct (tcp_connect_spec a loc port eps0 conns w) as (w1 & c & st & E & Hk & Hli1 & Hp & Hacc);
      [done..|set_solver|]. rewrite E. destruct (ok st).
    + exists w1, (q_push c conns). unfold q_push in *. rewrite length_app. cbn [length].
      split_and!; [done..|by apply Hp|lia|lia|]. intros Ha. split; [by apply Hacc|]. intros _. lia.
    + destruct (IH w1 Hli1) as (w2 & conns2 & E2 & Hk2 & Hli2 & Hp2 & Hl2 & Hacc2);
        [by apply (pool_keeps a conns w)|done|]. exists w2, conns2. split_and!; [done|by apply (keeps_trans fuel w w1)|done|done|lia|lia|].
      intros Ha. by destruct (Hacc Ha) as [? _].
  - destruct (IH w Hli Hpool Hsub') as (w2 & conns2 & E2 & Hk2 & Hli2 & Hp2 & Hl2 & Hacc2).
    exists w2, conns2. split_and!; [done..|lia|lia|]. intros Ha. destruct (Hacc2 Ha) as [Ha2 Hc2]. split; [done|].
    intros (p & Hin). apply Hc2. exists p. apply elem_of_cons in Hin as [[= <- <- <-]|Hin]; [|done].
    by rewrite !bool_decide_true in Eb by done.
Qed.

Lemma connect_all_spec a loc eps count conns w :
  (size <= fuel)%nat -> listening a loc eps w -> pool a conns w ->
  exists w' conns', connect_all count eps loc conns w = (w', conns') /\ keeps fuel w w' /\
    pool a conns' w' /\ (length conns' <= count + length conns)%nat /\
    (accepting a w -> (exists port, (loc, port, Socket) ∈ eps) ->
       length conns' = (count + length conns)%nat).
Proof.
  intros Hsz. revert conns w. induction count as [|count IH]; intros conns w Hli Hpool.
  { exists w, conns. split_and!; [done|apply keeps_refl|done|done|done]. }
  cbn [connect_all].
  destruct (connect_first_spec a loc eps eps conns w) as (w1 & c1 & -> & Hk1 & Hli1 & Hp1 & Hl1 & Ha1); [done..|].
  destruct (IH c1 w1 Hli1 Hp1) as (w2 & c2 & E2 & Hk2 & Hp2 & Hl2 & Ha2). exists w2, c2.
  split_and!; [done|by apply (keeps_trans fuel w w1)|done|lia|].
  intros Ha Hex. destruct (Ha1 Ha) as [Hacc Hs]. rewrite (Ha2 Hacc Hex), (Hs Hex). lia.
Qed.

(** ** Lemmas: the service *)

(** A host that can be connected to: its address names the place where its
    endpoints are. *)
Record open_host (a : str) w : Prop := {
  oh_host h : w_hosts w !! a = Some h -> exists it,
    find_char ":" a = Some it /\
    listening a (take it a) ((fun e => (te_address e, u16 (te_port e), te_type e)) <$> host_endpoints h) w;
  oh_up : reachable a w = true
}.

(** An endpoint of the host for sockets at its address. *)
Definition has_socket (a : str) w : Prop :=
  forall h it, w_hosts w !! a = Some h -> find_char ":" a = Some it ->
    exists e, e ∈ host_endpoints h /\ te_type e = Socket /\ te_address e = take it a.

(** What [connect] makes of a new service. *)
Lemma fts_connect_spec a w :
  (size <= fuel)%nat -> open_host a w ->
  exists w' conns, fts_connect hw (newFileTransferService a) w = (w', mkFTS a Connected conns, OkStatus) /\
    keeps fuel w w' /\ pool a conns w' /\
    (length conns <= Z.to_nat (MAXIMUM_TCP_THREADS hw))%nat /\
    (accepting a w -> has_socket a w -> length conns = Z.to_nat (MAXIMUM_TCP_THREADS hw)).
Proof.
  intros Hsz [Hh Hup]. unfold fts_connect. cbn [fts_state fts_nodeAddress fts_connections newFileTransferService].
  rewrite Hup. cbn [negb]. unfold availTransportEndpoints. cbn [fts_nodeAddress newFileTransferService]. rewrite Hup.
  assert (exists h, w_hosts w !! a = Some h) as (h & Ea).
  { unfold reachable in Hup. destruct (w_hosts w !! a) as [h|]; [by exists h|done]. }
  destruct (Hh h Ea) as (it & Eit & Hli). rewrite Eit, Ea.
  set (eps := _ <$> host_endpoints h) in *.
  destruct (connect_all_spec a (take it a) eps (Z.to_nat (MAXIMUM_TCP_THREADS hw)) [] w)
    as (w' & conns & E & Hk & Hp & Hl & Hfull); [done|done|split; [done|constructor]|].
  rewrite E. exists w', conns. cbn [length] in *. split_and!; [done..|lia|].
  intros Ha Hs. rewrite Hfull; [lia|done|]. destruct (Hs h it Ea Eit) as (e & He & Ht & Hadr).
  exists (u16 (te_port e)). apply list_elem_of_fmap. exists e. by rewrite <- Ht, <- Hadr.
Qed.

(** A read takes the first connection and puts it back at the end. *)
Lemma fts_readBytes_exact a conns b k d pos cnt w :
  pool a conns w -> conns <> [] -> has_object fuel a b k d w -> (length d <= size)%nat ->
  len padding = 4 -> sendable k -> 0 <= pos < INT64_MAX -> 0 <= cnt < two64 ->
  exists w' conns', fts_readBytes fuel padding (mkFTS a Connected conns) b k pos cnt w =
      Some (w', mkFTS a Connected conns',
            Ret (Value (Z.max 0 (Z.min cnt (len d - pos)), slice pos cnt d))) /\
    keeps fuel w w' /\ pool a conns' w' /\ conns' ≡ₚ conns.
Proof.
  intros Hpool Hne Hobj Hd Hpad Hk Hp Hc. destruct conns as [|c conns]; [done|].
  pose proof Hpool as [Hf Hnd]. apply Forall_cons_iff in Hf as [(i & Hi & Hidle) Hf].
  assert (Hidle' : idle fuel (length d) (a, i) w).
  { destruct Hidle as (h & n & cn & ? & ? & ? & ? & ? & ? & ? & ?). exists h, n, cn. split_and!; try done. lia. }
  destruct (tcp_readBytes_exact fuel padding c (a, i) b k d pos cnt w Hi Hidle' Hobj Hpad Hk Hp Hc)
    as (w' & E & Hkeep).
  assert (Hperm : q_push c conns ≡ₚ c :: conns) by (unfold q_push; solve_Permutation).
  exists w', (q_push c conns). unfold fts_readBytes. cbn [fts_state fts_connections fts_nodeAddress pop_wait q_pop].
  rewrite E. split_and!; [done..| |done]. apply (pool_keeps a _ _ _ Hkeep) in Hpool as [Hf' Hnd'].
  split; [by rewrite Hperm|]. by rewrite Hperm.
Qed.

Lemma fts_read_bytes f b k pos cnt w :
  is_u64 pos -> is_u64 cnt -> fts_read fuel padding 1 f b k pos cnt w = fts_readBytes fuel padding f b k pos cnt w.
Proof.
  intros Hp Hc. unfold fts_read. rewrite !Z.mul_1_r, !u64_small by done.
  destruct (fts_readBytes fuel padding f b k pos cnt w) as [[[w' f'] [[[n bytes]|st]|e|]]|]; try done.
  by rewrite Z.div_1_r.
Qed.

(** [disconnect] returns exactly when the queue has as many connections as
    [connect] tries to make. *)
Lemma drop_connections_spec count conns :
  drop_connections count conns = if (count <=? length conns)%nat then Some (drop count conns) else None.
Proof.
  revert conns. induction count as [|count IH]; intros conns; [done|].
  destruct conns as [|c conns]; [done|]. cbn [drop_connections pop_wait q_pop]. apply IH.
Qed.
End theory.

(** ** Properties *)

(** The connections of a service. Connecting to a host that is up succeeds
    and leaves the service connected, with different idle connections, at most
    as many as there are threads, and exactly as many if the host has an
    endpoint at its address and refuses none. [disconnect], and with it the
    destructor, returns exactly if none is missing; if any is, it waits for ever,
    and if there is none at all every read waits for ever. *)
Theorem fts_lifecycle (W X K T : Type) `{MDStub W} `{S3Client X} `{KernelFair K} `{Transfers T}
    fuel padding hw size a (w : World (Node W X K T)) :
  (size <= fuel)%nat -> open_host fuel size a w ->
  exists w' conns, fts_connect hw (newFileTransferService a) w = (w', mkFTS a Connected conns, OkStatus) /\
    pool fuel size a conns w' /\
    (length conns <= Z.to_nat (MAXIMUM_TCP_THREADS hw))%nat /\
    (accepting a w -> has_socket a w -> length conns = Z.to_nat (MAXIMUM_TCP_THREADS hw)) /\
    (fts_disconnect hw (mkFTS a Connected conns) =
       if (length conns =? Z.to_nat (MAXIMUM_TCP_THREADS hw))%nat
       then Some (mkFTS a Disconnected [], OkStatus) else None) /\
    (fts_destroy hw (mkFTS a Connected conns) = None <->
       (length conns < Z.to_nat (MAXIMUM_TCP_THREADS hw))%nat) /\
    (conns = [] -> forall b k pos cnt, fts_readBytes fuel padding (mkFTS a Connected conns) b k pos cnt w' = None).
Proof.
  intros Hsz Ho. destruct (fts_connect_spec fuel hw size a w Hsz Ho) as (w' & conns & E & _ & Hp & Hl & Hfull).
  exists w', conns. split_and!; [done..| | |].
  - unfold fts_disconnect. cbn [fts_state fts_connections fts_nodeAddress]. rewrite drop_connections_spec.
    destruct (Nat.eqb_spec (length conns) (Z.to_nat (MAXIMUM_TCP_THREADS hw))) as [El|En].
    + rewrite (proj2 (Nat.leb_le _ _)) by lia. by rewrite drop_ge by lia.
    + by rewrite (proj2 (Nat.leb_gt _ _)) by lia.
  - unfold fts_destroy, fts_disconnect. cbn [fts_state fts_connections fts_nodeAddress]. rewrite drop_connections_spec.
    destruct (Nat.leb_spec (Z.to_nat (MAXIMUM_TCP_THREADS hw)) (length conns)); split; intros; (done || lia).
  - by intros ->.
Qed.

(** C38: an error of the host reaches the caller. If the host cannot open the
    object, the read returns the status of its [open] with its code and message,
    and the connection is idle again and put back. *)
Theorem transfer_error_exact (W X K T : Type) `{MDStub W} `{S3Client X} `{KernelFair K} `{Transfers T}
    fuel padding a c i conns tx b k pos cnt st h (n n1 : Node W X K T) (w : World (Node W X K T)) :
  tc_socket c = Some (a, i) -> w_hosts w !! a = Some h -> host_node h = Some n ->
  host_conns h !! i = Some (mkConn [] (mkTcpSocket [] tx) true) -> healthy (mkTcpSocket [] tx) ->
  geds_open b k true n = Done (Error st) n1 -> 0 < raw_code st < 2 ^ 31 -> is_u64 (len (message st)) ->
  len padding = 4 -> ok (isValid b k) = true -> sendable k -> is_u64 pos -> is_u64 cnt ->
  fts_readBytes fuel padding (mkFTS a Connected (c :: conns)) b k pos cnt w =
    Some (with_host a (with_conn i (mkConn [] (mkTcpSocket [] tx) true) (Some n1) h) w,
          mkFTS a Connected (conns ++ [c]), Ret (Error st)).
Proof.
  intros Hc Hh Hn Hi Hhl Ho Hst Hmsg Hpad Hv Hk Hp Hcnt.
  pose proof (tcp_readBytes_error fuel padding c (a, i) b k pos cnt w h n n1 tx st Hc Hh Hn Hi Hhl Ho Hpad Hv Hk
                Hp Hcnt Hst Hmsg) as E.
  unfold fts_readBytes. cbn [fts_state fts_connections fts_nodeAddress pop_wait q_pop]. by rewrite E.
Qed.

(** ** Witnesses *)

(** The process of the earlier examples as a host, with a socket that takes bytes
    one by one and is full in between, and requests that arrive in pieces. *)
Definition demo_address : str := "10.0.0.1:4381".

Definition demo_host : Host (Node Server MemS3.world nat unit) :=
  mkHost (Some stored_node) [mkTransportEndpoint Socket "10.0.0.1" 4382]
    [Some [TxAgain; TxTake 0; TxIntr; TxTake 0]] [3%nat; 1%nat] [].

Definition demo_net : Net Server MemS3.world nat unit :=
  mkNet (mkWorld {[demo_address := demo_host]} {[("10.0.0.1" : str, 4382) := demo_address]}) ∅.

Lemma demo_hosts a h : w_hosts (net_world demo_net) !! a = Some h -> h = demo_host.
Proof. intros E. by destruct (proj1 (lookup_singleton_Some _ _ _ _) E) as [_ <-]. Qed.

Lemma demo_open : open_host 30 5 demo_address (net_world demo_net).
Proof.
  constructor; [|reflexivity]. intros h Hh. apply demo_hosts in Hh as ->.
  exists 8%nat. split; [reflexivity|]. split.
  - exists demo_host, stored_node. split; [apply lookup_singleton_eq|]. split; [reflexivity|].
    repeat constructor.
  - intros port Hin. apply list_elem_of_singleton in Hin. injection Hin as ->. apply lookup_singleton_eq.
Qed.

Lemma demo_accepting : accepting demo_address (net_world demo_net).
Proof. intros h Hh. apply demo_hosts in Hh as ->. repeat constructor. by eexists. Qed.

Lemma demo_socket : has_socket demo_address (net_world demo_net).
Proof.
  intros h it Hh Hit. apply demo_hosts in Hh as ->. injection Hit as <-.
  eexists. split; [left|]. split; reflexivity.
Qed.

#[local] Existing Instance the_stub.
#[local] Existing Instance the_service.

Lemma fts_lifecycle_witness :
  exists w' conns, fts_connect 1 (newFileTransferService demo_address) (net_world demo_net) =
      (w', mkFTS demo_address Connected conns, OkStatus) /\
    length conns = 2%nat /\
    fts_disconnect 1 (mkFTS demo_address Connected conns) = Some (mkFTS demo_address Disconnected [], OkStatus).
Proof.
  destruct (fts_lifecycle Server MemS3.world nat unit 30 "pppp" 1 5 demo_address (net_world demo_net))
    as (w' & conns & E & _ & _ & Hl & Hd & _); [lia|apply demo_open|].
  specialize (Hl demo_accepting demo_socket). exists w', conns. split; [exact E|]. split; [exact Hl|].
  rewrite Hd, Hl. reflexivity.
Defined.

(** The host with one connection. *)
Definition demo_world : World (Node Server MemS3.world nat unit) :=
  mkWorld {[demo_address := mkHost (Some stored_node) [] [] [] [newConn []]]} ∅.

Lemma transfer_error_exact_witness :
  exists w' st, fts_readBytes 30 "pppp" (mkFTS demo_address Connected [mkTcpClient "10.0.0.1" 4382 (Some (demo_address, 0%nat))])
      "bkt" "missing" 0 10 demo_world =
    Some (w', mkFTS demo_address Connected [mkTcpClient "10.0.0.1" 4382 (Some (demo_address, 0%nat))], Ret (Error st)) /\
    code st = kNotFound.
Proof.
  assert (exists st n1, geds_open "bkt" "missing" true stored_node = Done (Error st) n1 /\
            raw_code st = 5 /\ 0 <= len (message st) < 1000) as (st & n1 & Ho & Hst & Hm).
  { assert (E : match geds_open "bkt" "missing" true stored_node with
                | Done (Error st) _ => (raw_code st =? 5) && (len (message st) <? 1000)
                | _ => false
                end = true) by (vm_compute; reflexivity).
    destruct (geds_open "bkt" "missing" true stored_node) as [[h|st] n1| |]; try discriminate.
    apply andb_true_iff in E as [E1%Z.eqb_eq E2%Z.ltb_lt]. exists st, n1. pose proof (len_nonneg (message st)). done. }
  eexists _, st. split.
  - apply (transfer_error_exact Server MemS3.world nat unit 30 "pppp" demo_address _ 0 [] [] "bkt" "missing" 0 10 st
             (mkHost (Some stored_node) [] [] [] [newConn []]) stored_node n1 demo_world);
      try reflexivity; try done; try lia.
    + constructor.
    + unfold is_u64, two64. lia.
    + split; [repeat constructor|by_decision].
  - unfold code. rewrite Hst. reflexivity.
Defined.
