(* ===== verification/FileTransferThreads.v ===== *)
(** * Threads that read through one service

    The threads of a process that read from the same host share its file transfer
    service (FileTransferService.v). Here [FileTransferService::readBytes] runs step
    by step, each thread with its own place in the code and the queue of
    connections shared, and the steps of the threads interleave. What
    [TcpClient::readBytes] does is one step: it uses nothing the threads share but
    the hosts, which can change in any way before and after it. *)

From Stdlib Require Import Ascii ZArith Lia.
From stdpp Require Import base gmap sets list strings numbers relations.
From S2P Require Import Prelude Status Object MDSKVS S3Endpoint MetadataServer MetadataService LocalFile.
From S2P Require Import Node Handles HandleIO GEDSCreate ConcurrentQueue TcpConnection TcpClient FileTransferService.

Open Scope Z_scope.
Open Scope list_scope.

Section threads.
Context {W X K T : Type} `{MDStub W} `{S3Client X} `{Kernel K} `{Transfers T}.
Notation N := (Node W X K T).
Context (fuel : nat) (padding : str).
Implicit Types (f : FileTransferService) (w : World N).

(** What the call of a thread returns, or the exception that leaves it. *)
Notation answer := (outcome (StatusOr (Z * str))).

(** Where a thread is: outside; before the check of the service's state; in
    [pop_wait_until_available]; with a connection, before [TcpClient::readBytes]
    and after it; after the call. *)
Inductive reader :=
| Outside
| Called (bucket key : str) (position length : Z)
| Waiting (bucket key : str) (position length : Z)
| Using (tcp : TcpClient) (bucket key : str) (position length : Z)
| Answered (tcp : TcpClient) (status : answer)
| Ended (status : answer).

Definition set_connections (conns : list TcpClient) f : FileTransferService :=
  mkFTS (fts_nodeAddress f) (fts_state f) conns.

(** The next step of a thread. One that finds no connection goes on waiting;
    [push] is skipped when an exception leaves [TcpClient::readBytes]. [None]: the
    read never returns, or there is no call. *)
Definition reader_next (r : reader) f w : option (reader * FileTransferService * World N) :=
  match r with
  | Outside | Ended _ => None
  | Called bucket key position length =>
      match fts_state f with
      | Connected => Some (Waiting bucket key position length, f, w)
      | _ => Some (Ended (Ret (Error (FailedPreconditionError "Not connected."))), f, w)
      end
  | Waiting bucket key position length =>
      match q_pop (fts_connections f) with
      | (conns, Some tcp) => Some (Using tcp bucket key position length, set_connections conns f, w)
      | (conns, None) => Some (Waiting bucket key position length, set_connections conns f, w)
      end
  | Using tcp bucket key position length =>
      match tcp_readBytes fuel padding tcp bucket key position length w with
      | None => None
      | Some (w, status) => Some (Answered tcp status, f, w)
      end
  | Answered tcp (Ret status) => Some (Ended (Ret status), set_connections (q_push tcp (fts_connections f)) f, w)
  | Answered tcp e => Some (Ended e, f, w)
  end.

(** A thread on its own, for at most [n] steps. *)
Fixpoint read_alone (n : nat) (r : reader) f w : option (World N * FileTransferService * answer) :=
  match n, r with
  | O, _ => None
  | S n, Ended status => Some (w, f, status)
  | S n, r =>
      match reader_next r f w with
      | None => None
      | Some (r, f, w) => read_alone n r f w
      end
  end.

(** The service, the hosts, the threads, and the reads there have been with what
    they returned. *)
Record Readers := mkReaders {
  rd_service : FileTransferService;
  rd_world : World N;
  rd_threads : list reader;
  rd_log : list (TcpClient * answer)
}.

(** A read is over when its thread is about to put the connection back. *)
Definition finished (r : reader) : list (TcpClient * answer) :=
  match r with Answered tcp status => [(tcp, status)] | _ => [] end.

(** A thread calls [readBytes]; a thread takes its next step; the hosts do something
    else. *)
Inductive readers_step : Readers -> Readers -> Prop :=
| RCall f w ts log i r bucket key position length :
    ts !! i = Some r -> match r with Outside | Ended _ => True | _ => False end ->
    readers_step (mkReaders f w ts log) (mkReaders f w (<[i := Called bucket key position length]> ts) log)
| RNext f w ts log i r r' f' w' :
    ts !! i = Some r -> reader_next r f w = Some (r', f', w') ->
    readers_step (mkReaders f w ts log) (mkReaders f' w' (<[i := r']> ts) (log ++ finished r))
| RHosts f w w' ts log : readers_step (mkReaders f w ts log) (mkReaders f w' ts log).

(** The connections the threads hold, and those an exception has taken. *)
Definition held (r : reader) : option TcpClient :=
  match r with Using tcp _ _ _ _ | Answered tcp _ => Some tcp | _ => None end.

Definition in_use (ts : list reader) : list TcpClient := omap held ts.

Definition lost (log : list (TcpClient * answer)) : list TcpClient :=
  omap (fun e => match snd e with Ret _ => None | _ => Some (fst e) end) log.

Definition inside (r : reader) : Prop := match r with Outside | Ended _ => False | _ => True end.
Definition waiting (r : reader) : Prop := match r with Waiting _ _ _ _ => True | _ => False end.

#[export] Instance inside_dec r : Decision (inside r).
Proof. destruct r; apply _. Defined.
#[export] Instance waiting_dec r : Decision (waiting r).
Proof. destruct r; apply _. Defined.

(** All connections: idle, held and lost. *)
Definition all_connections (s : Readers) : list TcpClient :=
  fts_connections (rd_service s) ++ in_use (rd_threads s) ++ lost (rd_log s).

(** ** Lemmas *)

Lemma in_use_insert ts i r r' :
  ts !! i = Some r ->
  exists a b, in_use ts = a ++ option_list (held r) ++ b /\ in_use (<[i := r']> ts) = a ++ option_list (held r') ++ b.
Proof.
  intros Hi. exists (in_use (take i ts)), (in_use (drop (S i) ts)).
  assert (Hl : length (take i ts) = i) by (apply lookup_lt_Some in Hi; rewrite length_take; lia).
  assert (Ho : forall y (a b : list reader), in_use (a ++ y :: b) = in_use a ++ option_list (held y) ++ in_use b).
  { intros y a b. unfold in_use. rewrite omap_app. cbn [omap list_omap]. by destruct (held y). }
  split.
  - rewrite <- Ho. by rewrite (take_drop_middle ts i r Hi).
  - rewrite <- Ho, <- (take_drop_middle ts i r Hi) at 1. rewrite insert_app_r_alt by lia.
    by rewrite Hl, Nat.sub_diag.
Qed.

Lemma lost_finished log r :
  lost (log ++ finished r) =
    lost log ++ match r with Answered tcp (Throw _) | Answered tcp Abort => [tcp] | _ => [] end.
Proof. unfold lost. rewrite omap_app. f_equal. by destruct r as [| | | |tcp [st|e|]|]. Qed.

(** A thread that changes its place only passes connections on. *)
Lemma next_connections r f w r' f' w' :
  reader_next r f w = Some (r', f', w') ->
  fts_connections f' ++ option_list (held r') ++
    match r with Answered tcp (Throw _) | Answered tcp Abort => [tcp] | _ => [] end
  ≡ₚ fts_connections f ++ option_list (held r) /\ fts_state f' = fts_state f.
Proof.
  destruct r as [|b k p l|b k p l|tcp b k p l|tcp [st|e|]|]; cbn [reader_next held option_list]; try done.
  - destruct (fts_state f) eqn:Ef; intros [= <- <- <-]; by rewrite ?Ef.
  - destruct (fts_connections f) as [|c q] eqn:Eq; cbn [q_pop]; intros [= <- <- <-];
      cbn [set_connections fts_connections fts_state held option_list]; (split; [|done]);
      [done|solve_Permutation].
  - destruct (tcp_readBytes _ _ _ _ _ _ _ _) as [[w1 st]|]; [|done]. by intros [= <- <- <-].
  - intros [= <- <- <-]. cbn [set_connections fts_connections fts_state held option_list]. split; [|done].
    unfold q_push. solve_Permutation.
  - intros [= <- <- <-]. done.
  - intros [= <- <- <-]. done.
Qed.

Lemma step_connections s s' :
  readers_step s s' ->
  all_connections s' ≡ₚ all_connections s /\ fts_state (rd_service s') = fts_state (rd_service s).
Proof.
  unfold all_connections. destruct 1 as [f w ts log i r b k p l Hi Hr|f w ts log i r r' f' w' Hi Hn|f w w' ts log];
    cbn [rd_service rd_threads rd_log]; [| |done].
  - destruct (in_use_insert ts i r (Called b k p l) Hi) as (x & y & -> & ->). by destruct r.
  - destruct (in_use_insert ts i r r' Hi) as (x & y & -> & ->). destruct (next_connections _ _ _ _ _ _ Hn) as [Hp ->].
    split; [|done]. rewrite lost_finished. revert Hp. generalize (lost log), (option_list (held r)), (option_list (held r')).
    set (z := match r with Answered _ _ => _ | _ => _ end). generalize z. clear z. intros z lg h h' Hp.
    transitivity ((fts_connections f' ++ h' ++ z) ++ x ++ y ++ lg); [solve_Permutation|]. rewrite Hp. solve_Permutation.
Qed.

Lemma steps_connections s s' :
  rtc readers_step s s' ->
  all_connections s' ≡ₚ all_connections s /\ fts_state (rd_service s') = fts_state (rd_service s).
Proof.
  induction 1 as [|s s1 s' Hs _ [Hp Hf]]; [done|]. destruct (step_connections _ _ Hs) as [Hp1 Hf1].
  split; [by rewrite Hp|congruence].
Qed.

Lemma in_use_elem ts tcp : tcp ∈ in_use ts <-> exists i r, ts !! i = Some r /\ held r = Some tcp.
Proof.
  unfold in_use. rewrite list_elem_of_omap. split.
  - intros (r & Hr & E). apply list_elem_of_lookup in Hr as [i Hi]. by exists i, r.
  - intros (i & r & Hi & E). exists r. split; [|done]. by eapply list_elem_of_lookup_2.
Qed.

(** Without duplicates no two threads hold the same connection. *)
Lemma in_use_unique ts i j ri rj tcp :
  NoDup (in_use ts) -> ts !! i = Some ri -> ts !! j = Some rj -> held ri = Some tcp -> held rj = Some tcp -> i = j.
Proof.
  intros Hnd Hi Hj Ei Ej. destruct (decide (i = j)) as [|Hne]; [done|exfalso].
  destruct (in_use_insert ts i ri Outside Hi) as (a & b & E & E'). rewrite Ei in E. cbn [option_list app] in E.
  assert (tcp ∈ in_use (<[i := Outside]> ts)) as Hx.
  { apply in_use_elem. exists j, rj. by rewrite list_lookup_insert_ne. }
  rewrite E in Hnd. rewrite E' in Hx. cbn [held option_list app] in Hx.
  apply list.NoDup_app in Hnd as (_ & Hd & Hnd). apply list.NoDup_cons in Hnd as [Hn _].
  apply elem_of_app in Hx as [Hx|Hx]; [|done]. apply (Hd tcp Hx). by left.
Qed.

(** Where the threads of a state can be. *)
Lemma readers_cases s :
  (exists i r r' f' w', rd_threads s !! i = Some r /\ reader_next r (rd_service s) (rd_world s) = Some (r', f', w') /\ r' <> r) \/
  (exists i tcp b k p l, rd_threads s !! i = Some (Using tcp b k p l) /\
     tcp_readBytes fuel padding tcp b k p l (rd_world s) = None) \/
  ((forall i r, rd_threads s !! i = Some r -> inside r -> waiting r) /\ in_use (rd_threads s) = [] /\
   ((exists i r, rd_threads s !! i = Some r /\ inside r) -> fts_connections (rd_service s) = [])).
Proof.
  destruct s as [f w ts log]. cbn [rd_service rd_world rd_threads].
  set (busy := fun r => inside r /\ ~ waiting r). assert (forall r, Decision (busy r)) by (intros; unfold busy; apply _).
  destruct (decide (Exists busy ts)) as [Hb|Hb].
  { apply Exists_exists in Hb as (r & Hr & Hin & Hw). apply list_elem_of_lookup in Hr as [i Hi].
    destruct r as [|b k p l|b k p l|tcp b k p l|tcp st|st]; try done.
    - left. destruct (fts_state f) eqn:Ef; eexists i, _, _, _, _; (split; [done|]); cbn [reader_next]; rewrite Ef; done.
    - destruct (tcp_readBytes fuel padding tcp b k p l w) as [[w' st]|] eqn:E.
      + left. eexists i, _, _, _, _. split; [done|]. cbn [reader_next]. by rewrite E.
      + right. left. by exists i, tcp, b, k, p, l.
    - left. destruct st; eexists i, _, _, _, _; (split; [done|]); done. }
  assert (Hw : forall i r, ts !! i = Some r -> inside r -> waiting r).
  { intros i r Hi Hin. destruct (decide (waiting r)) as [|Hn]; [done|]. exfalso. apply Hb, Exists_exists.
    exists r. split; [by eapply list_elem_of_lookup_2|done]. }
  assert (Hu : in_use ts = []).
  { destruct (in_use ts) as [|tcp l] eqn:Eu; [done|]. exfalso. assert (tcp ∈ in_use ts) as Hx by (rewrite Eu; left).
    apply in_use_elem in Hx as (i & r & Hi & E). specialize (Hw i r Hi). by destruct r; try (specialize (Hw I)). }
  destruct (fts_connections f) as [|c q] eqn:Eq; [by right; right|].
  destruct (decide (Exists inside ts)) as [Hx|Hx].
  - left. apply Exists_exists in Hx as (r & Hr & Hin). apply list_elem_of_lookup in Hr as [i Hi].
    pose proof (Hw i r Hi Hin) as Hwt. destruct r as [|b k p l|b k p l|tcp b k p l|tcp st|st]; try done.
    eexists i, _, _, _, _. split; [done|]. cbn [reader_next]. by rewrite Eq.
  - right. right. split; [done|]. split; [done|]. intros (i & r & Hi & Hin). exfalso. apply Hx, Exists_exists.
    exists r. split; [by eapply list_elem_of_lookup_2|done].
Qed.

(** Once nothing is left, a thread that waits waits for ever. *)
Lemma starved_step s s' i r :
  fts_connections (rd_service s) = [] -> in_use (rd_threads s) = [] ->
  rd_threads s !! i = Some r -> waiting r -> readers_step s s' ->
  fts_connections (rd_service s') = [] /\ in_use (rd_threads s') = [] /\ rd_threads s' !! i = Some r.
Proof.
  intros Hq Hu Hi Hw. destruct 1 as [f w ts log j x b k p l Hj Hx|f w ts log j x x' f' w' Hj Hn|f w w' ts log];
    cbn [rd_service rd_threads] in *; [| |done].
  - destruct (in_use_insert ts j x (Called b k p l) Hj) as (a & c & E & ->). rewrite Hu in E.
    symmetry in E. apply app_eq_nil in E as [-> E]. apply app_eq_nil in E as [_ ->]. split; [done|]. split; [done|].
    rewrite list_lookup_insert_ne; [done|]. intros ->. simplify_eq. by destruct r.
  - assert (held x = None) as Ex.
    { destruct (held x) as [tcp|] eqn:E; [|done]. exfalso.
      assert (tcp ∈ in_use ts) as Hin by (apply in_use_elem; by exists j, x). rewrite Hu in Hin. by apply not_elem_of_nil in Hin. }
    destruct (in_use_insert ts j x x' Hj) as (a & c & E & ->). rewrite Hu, Ex in E. simpl in E.
    symmetry in E. apply app_eq_nil in E as [-> ->].
    destruct x as [|b k p l|b k p l|tcp b k p l|tcp st|st]; cbn [reader_next held] in *; try done.
    + assert (i <> j) as Hne by (intros ->; simplify_eq; done).
      destruct (fts_state f); injection Hn as <- <- <-; cbn [held option_list app]; by rewrite list_lookup_insert_ne.
    + rewrite Hq in Hn. cbn [q_pop] in Hn. injection Hn as <- <- <-. cbn [set_connections fts_connections held option_list app].
      split; [done|]. split; [done|]. destruct (decide (i = j)) as [->|Hne]; [|by rewrite list_lookup_insert_ne].
      simplify_eq. by rewrite list_lookup_insert_eq by (by eapply lookup_lt_Some).
Qed.

Lemma starved_steps s s' i r :
  fts_connections (rd_service s) = [] -> in_use (rd_threads s) = [] ->
  rd_threads s !! i = Some r -> waiting r -> rtc readers_step s s' -> rd_threads s' !! i = Some r.
Proof.
  intros Hq Hu Hi Hw Hr. induction Hr as [|s s1 s' Hs _ IH]; [done|].
  destruct (starved_step _ _ _ _ Hq Hu Hi Hw Hs) as (Hq1 & Hu1 & Hi1). by apply IH.
Qed.

(** The steps of a thread that is alone are the call. *)
Lemma read_alone_waiting n b k p l f w : fts_connections f = [] -> read_alone n (Waiting b k p l) f w = None.
Proof.
  revert f. induction n as [|n IH]; intros f Hq; [done|]. cbn [read_alone reader_next]. rewrite Hq. cbn [q_pop].
  by apply IH.
Qed.

Lemma readBytes_steps n f b k p l w :
  fts_readBytes fuel padding f b k p l w = read_alone (5 + n) (Called b k p l) f w.
Proof.
  destruct f as [a st [|c q]].
  - change (5 + n)%nat with (S (4 + n)). cbn [read_alone]. unfold fts_readBytes, reader_next. cbn [fts_state fts_connections].
    destruct st; [done| |done..]. by rewrite read_alone_waiting.
  - unfold fts_readBytes. cbn [fts_state fts_connections fts_nodeAddress Nat.add read_alone reader_next].
    destruct st; [done| |done..]. cbn [reader_next fts_connections q_pop pop_wait set_connections fts_nodeAddress fts_state].
    destruct (tcp_readBytes fuel padding c b k p l w) as [[w' [st|e|]]|] eqn:E;
      cbn [reader_next fts_connections q_pop set_connections fts_nodeAddress fts_state]; rewrite ?E; try done.
Qed.
End threads.

Arguments Readers W X K T : clear implicits.

(** ** Properties *)

(** C35: connections are never shared, and only an exception loses one. However the
    threads that read through a service interleave, and whatever the hosts do, the
    connections in the queue, those a thread holds and those whose read ended with an
    exception are at all times the ones there were at the start, each once: no
    connection is used by two threads, and none is lost as long as the reads
    return. A thread inside a call can go on, or another one can, unless a read
    never returns or all connections are lost, in which case every thread that
    waits for one waits for ever. A thread on its own runs [readBytes]. *)
Theorem connections_exclusive (W X K T : Type) `{MDStub W} `{S3Client X} `{Kernel K} `{Transfers T}
    fuel padding a conns threads (w : World (Node W X K T)) (s : Readers W X K T) :
  NoDup conns ->
  rtc (readers_step fuel padding) (mkReaders (mkFTS a Connected conns) w (replicate threads Outside) []) s ->
  fts_connections (rd_service s) ++ in_use (rd_threads s) ++ lost (rd_log s) ≡ₚ conns /\
  (forall i j ri rj tcp, rd_threads s !! i = Some ri -> rd_threads s !! j = Some rj ->
     held ri = Some tcp -> held rj = Some tcp -> i = j) /\
  (Exists inside (rd_threads s) ->
     (exists i r r' f' w', rd_threads s !! i = Some r /\ r' <> r /\
        reader_next fuel padding r (rd_service s) (rd_world s) = Some (r', f', w')) \/
     (exists i tcp b k p l, rd_threads s !! i = Some (Using tcp b k p l) /\
        tcp_readBytes fuel padding tcp b k p l (rd_world s) = None) \/
     lost (rd_log s) ≡ₚ conns) /\
  (lost (rd_log s) ≡ₚ conns -> forall s' i r, rtc (readers_step fuel padding) s s' ->
     rd_threads s !! i = Some r -> waiting r -> rd_threads s' !! i = Some r) /\
  (forall n b k p l, fts_readBytes fuel padding (rd_service s) b k p l (rd_world s) =
     read_alone fuel padding (5 + n) (Called b k p l) (rd_service s) (rd_world s)).
Proof.
  intros Hnd Hr. destruct (steps_connections fuel padding _ _ Hr) as [Hp _].
  assert (in_use (replicate threads Outside) = []) as E0 by (clear; by induction threads).
  unfold all_connections in Hp. cbn [rd_service rd_threads rd_log fts_connections] in Hp.
  rewrite E0 in Hp. cbn [app lost omap list_omap] in Hp. rewrite app_nil_r in Hp.
  split; [exact Hp|]. split; [|split; [|split]].
  - intros i j ri rj tcp. apply in_use_unique. rewrite <- Hp in Hnd. apply list.NoDup_app in Hnd as (_ & _ & Hnd).
    by apply list.NoDup_app in Hnd as [Hnd _].
  - intros Hin. destruct (readers_cases fuel padding s) as [(i & r & r' & f' & w' & ?)|[?|(_ & Hu & Hq)]].
    + left. exists i, r, r', f', w'. tauto.
    + by right; left.
    + right. right. rewrite Hu, Hq in Hp; [done|]. apply Exists_exists in Hin as (r & Hr' & Hin).
      apply list_elem_of_lookup in Hr' as [i Hi]. by exists i, r.
  - intros Hl s' i r Hr' Hi Hw.
    assert (length (fts_connections (rd_service s)) = 0 /\ length (in_use (rd_threads s)) = 0)%nat as [Hq Hu].
    { apply Permutation_length in Hp, Hl. rewrite !length_app in Hp. lia. }
    apply length_zero_iff_nil in Hq, Hu. by apply (starved_steps fuel padding s s' i r).
  - intros. apply readBytes_steps.
Qed.

(** ** Witness *)

#[local] Existing Instance the_stub.
#[local] Existing Instance the_service.

(** Two connections to a host that has gone, and three threads that read: two get
    a connection and lose it, the third waits. *)
Definition gone_world : World (Node Server MemS3.world nat unit) := mkWorld ∅ ∅.

Definition demo_conns : list TcpClient :=
  [mkTcpClient "10.0.0.1" 4382 (Some ("10.0.0.1:4381" : str, 0%nat)); mkTcpClient "10.0.0.1" 4382 (Some ("10.0.0.1:4381" : str, 1%nat))].

Definition demo_readers (conns : list TcpClient) (ts : list reader) (log : list (TcpClient * outcome (StatusOr (Z * str)))) : Readers Server MemS3.world nat unit :=
  mkReaders (mkFTS "10.0.0.1:4381" Connected conns) gone_world ts log.

Lemma connections_exclusive_witness :
  exists s, rtc (readers_step 30 "pppp") (demo_readers demo_conns (replicate 3 Outside) []) s /\
    lost (rd_log s) ≡ₚ demo_conns /\ length (fts_connections (rd_service s)) = 0%nat /\
    forall s', rtc (readers_step 30 "pppp") s s' -> rd_threads s' !! 2%nat = Some (Waiting "b" "k" 0 5).
Proof.
  assert (Hr : rtc (readers_step 30 "pppp") (demo_readers demo_conns (replicate 3 Outside) [])
    (demo_readers [] [Ended (Throw broken_pipe); Ended (Throw broken_pipe); Waiting "b" "k" 0 5]
       (map (fun tcp => (tcp, Throw broken_pipe)) demo_conns))).
  { let call i := eapply rtc_l; [by apply (RCall _ _ _ _ _ _ i Outside "b" "k" 0 5)|] in
    let next i r := eapply rtc_l; [eapply (RNext _ _ _ _ _ _ i r); reflexivity|] in
    let gets i := next i (Called "b" "k" 0 5); next i (Waiting "b" "k" 0 5) in
    let reads i n := next i (Using (mkTcpClient "10.0.0.1" 4382 (Some ("10.0.0.1:4381" : str, n))) "b" "k" 0 5);
      next i (Answered (mkTcpClient "10.0.0.1" 4382 (Some ("10.0.0.1:4381" : str, n))) (Throw broken_pipe)) in
    call 0%nat; call 1%nat; call 2%nat; gets 0%nat; gets 1%nat; next 2%nat (Called "b" "k" 0 5); reads 0%nat 0%nat; reads 1%nat 1%nat.
    apply rtc_refl. }
  eexists. split; [exact Hr|]. split; [reflexivity|]. split; [reflexivity|].
  destruct (connections_exclusive Server MemS3.world nat unit 30 "pppp" "10.0.0.1:4381" demo_conns 3 gone_world _
              ltac:(apply (NoDup_fmap_1 tc_socket); by_decision) Hr) as (_ & _ & _ & Hstuck & _).
  intros s' Hs'. by apply (Hstuck ltac:(reflexivity) s' 2%nat (Waiting "b" "k" 0 5) Hs').
Defined.
