(* ===== verification/RemoteRead.v ===== *)
(** * Reading from another process

    The file layer of a process that opens an object another process has
    (GEDS.cpp, GEDSRemoteFileHandle.cpp), proved against the interface
    [TransferHosts], and the file transfer service over TCP as an
    implementation of it: together, a read in one process returns the bytes of
    the local file of the other. *)

From Stdlib Require Import Ascii ZArith Lia.
From stdpp Require Import base gmap sets list strings numbers.
From S2P Require Import Prelude Bytes Endian Decimal Status StdMap Path Object FileSet MDSKVSBucket MDSKVS.
From S2P Require Import S3Endpoint Rpc MetadataServer MetadataService LocalFile ConcurrentMap GedsNames FileHandle.
From S2P Require Import Node Handles HandleIO GEDS GEDSCreate GEDSRelocate.
From S2P Require Import Regex TcpDataTransport TcpConnection ConcurrentQueue TcpClient FileTransferService.

Open Scope Z_scope.
Open Scope list_scope.

(** ** The client *)

Section client.
Context {W X K T : Type} `{MDService W} `{S3Client X} `{Kernel K} `{TransferHosts T}.
Implicit Types n : Node W X K T.

(** The connection to a host: the one there is, or a new one. *)
Lemma getFileTransferService_step a n :
  (cm_get a (n_fileTransfers n) = Some tt /\ th_connected a (n_transfers n)) \/
  (cm_get a (n_fileTransfers n) = None /\ th_open a (n_transfers n)) ->
  exists ft t, getFileTransferService a n = Done (Value a) (set_fileTransfers ft t n) /\
    cm_get a ft = Some tt /\ th_connected a t /\ th_keeps (n_transfers n) t.
Proof.
  intros [[E Hc]|[E Ho]]; unfold getFileTransferService, bind, gets; rewrite E.
  - exists (n_fileTransfers n), (n_transfers n). split; [by destruct n|]. split; [done|]. by split.
  - destruct (th_connect_ok a (n_transfers n) Ho) as (t & Et & Hc & Hk). rewrite Et.
    change (ok OkStatus) with true. cbn [negb]. eexists _, t. split; [reflexivity|]. split; [|done].
    unfold insertOrExists. unfold cm_get in E. rewrite E. apply mfind_massign_eq.
Qed.

(** The state after looking up and opening an object of another process. *)
Definition remote_opened (b k a : str) (i : ObjectInfo) cl w ft t n : Node W X K T :=
  let r := n_next n in
  let n1 := set_fileTransfers ft t (set_md cl w n) in
  let n2 := set_heap (<[r := newHandle b k (metadata i) (KRemote a i)]> (n_heap n)) (S r) n1 in
  let n3 := set_heap (<[S r := newHandle b k None (KReloc r)]> (n_heap n2)) (S (S r)) n2 in
  let n4 := set_fileHandles (massign (getPath b k) (S r) (n_fileHandles n)) n3 in
  set_heap (alter (fun x => with_count (h_openCount x + 1) x) (S r) (n_heap n4)) (n_next n4)
    (set_filesOpened (u64 (n_filesOpened n4 + 1)) n4).

Lemma remote_opened_heap b k a i cl w ft t n :
  n_heap (remote_opened b k a i cl w ft t n) !! n_next n = Some (newHandle b k (metadata i) (KRemote a i)) /\
  n_heap (remote_opened b k a i cl w ft t n) !! S (n_next n) =
    Some (with_count 1 (newHandle b k None (KReloc (n_next n)))).
Proof.
  unfold remote_opened. cbn [n_heap set_heap set_filesOpened set_fileHandles]. split.
  - rewrite lookup_alter_ne, lookup_insert_ne by lia. apply lookup_insert_eq.
  - by rewrite lookup_alter_eq, lookup_insert_eq.
Qed.

(** Looking up an object that another process announced. *)
Lemma open_remote_full b k a i m mb n :
  n_state n = Running -> ok (isValid b k) = true -> mfind (getPath b k) (n_fileHandles n) = None ->
  is_connected (n_md n) = true -> svc_abs (n_mdw n) m -> coherent (n_md n) m ->
  m !! b = Some mb -> mb !! k = Some i -> location i = "geds://" ++ a -> a <> [] ->
  (cm_get a (n_fileTransfers n) = Some tt /\ th_connected a (n_transfers n)) \/
  (cm_get a (n_fileTransfers n) = None /\ th_open a (n_transfers n)) ->
  exists cl w ft t, geds_open b k true n = Done (Value (S (n_next n))) (remote_opened b k a i cl w ft t n) /\
    coherent cl m /\ cm_get a ft = Some tt /\
    svc_abs w m /\ is_connected cl = true /\ th_connected a t /\ th_keeps (n_transfers n) t.
Proof.
  intros Hr Hv Hf Hc Ha Hco Hm Hmb Hloc Hne Hft.
  destruct (client_lookup_sim (mkID b k) false (n_md n) (n_mdw n) m Ha Hco Hc) as (cl & w & o & E & Ha' & Hco' & Hc' & Hs).
  change (client_lookup (bucket (mkID b k)) (key (mkID b k)) false (n_md n) (n_mdw n))
    with (client_lookup b k false (n_md n) (n_mdw n)) in E.
  simpl in Hs. rewrite Hm, Hmb in Hs. destruct Hs as [_ [= ->]].
  destruct (getFileTransferService_step a (set_md cl w n) Hft) as (ft & t & Eft & Hft' & Hconn & Hkeep).
  set (n1 := set_fileTransfers ft t (set_md cl w n)) in Eft.
  assert (Hst : starts_with "geds://" ("geds://" ++ a) = true) by apply starts_with_app.
  assert (Eh : handle_for (mkObject (mkID b k) i) (set_md cl w n) =
    Done (Value (n_next n)) (set_heap (<[n_next n := newHandle b k (metadata i) (KRemote a i)]> (n_heap n)) (S (n_next n)) n1)).
  { unfold handle_for. cbn [info]. rewrite Hloc, Hst. unfold remote_factory. cbn [info]. rewrite Hloc, Hst. cbn [negb].
    change (drop (length ("geds://" : str)) ("geds://" ++ a)) with a.
    rewrite (proj2 (Nat.eqb_neq (length a) 0)) by (by destruct a). unfold bind. by rewrite Eft. }
  set (n2 := set_heap _ _ n1) in Eh.
  set (n3 := set_heap (<[S (n_next n) := newHandle b k None (KReloc (n_next n))]> (n_heap n2)) (S (S (n_next n))) n2).
  set (n4 := set_fileHandles (massign (getPath b k) (S (n_next n)) (n_fileHandles n)) n3).
  assert (Eo : openAsFileHandle b k n = Done (Value (S (n_next n))) n4).
  { unfold openAsFileHandle, running. rewrite Hr, Hv. cbn [negb]. unfold bind at 1, gets. unfold cm_get. rewrite Hf.
    unfold bind at 1, reopenFileHandle. unfold bind at 1, md_call. rewrite E. cbn [info]. unfold known_location.
    rewrite Hloc, Hst. cbn [orb negb]. unfold bind at 1. rewrite Eh. unfold ret.
    unfold bind, new_handle, gets, modify, insertOrExists. cbn [n2 n1 n_fileHandles set_heap set_fileTransfers set_md n_next].
    rewrite Hf. cbn [fst snd]. by rewrite bool_decide_false by (intros []; done). }
  exists cl, w, ft, t. split; [|done].
  unfold geds_open, open_once. unfold bind at 1 2. rewrite Eo. unfold bind at 1, the_handle.
  cbn [n4 n3 n_heap set_fileHandles set_heap]. rewrite lookup_insert_eq. cbn [h_isValid newHandle].
  unfold bind, modify, h_open, h_increaseOpenCount, update_handle, ret. unfold bind. reflexivity.
Qed.

Lemma open_remote_step b k a i m mb n :
  n_state n = Running -> ok (isValid b k) = true -> mfind (getPath b k) (n_fileHandles n) = None ->
  is_connected (n_md n) = true -> svc_abs (n_mdw n) m -> coherent (n_md n) m ->
  m !! b = Some mb -> mb !! k = Some i -> location i = "geds://" ++ a -> a <> [] ->
  (cm_get a (n_fileTransfers n) = Some tt /\ th_connected a (n_transfers n)) \/
  (cm_get a (n_fileTransfers n) = None /\ th_open a (n_transfers n)) ->
  exists cl w ft t, geds_open b k true n = Done (Value (S (n_next n))) (remote_opened b k a i cl w ft t n) /\
    svc_abs w m /\ is_connected cl = true /\ th_connected a t /\ th_keeps (n_transfers n) t.
Proof.
  intros Hr Hv Hf Hc Ha Hco Hm Hmb Hloc Hne Hft.
  destruct (open_remote_full b k a i m mb n Hr Hv Hf Hc Ha Hco Hm Hmb Hloc Hne Hft) as (cl & w & ft & t & E & _ & _ & R).
  by exists cl, w, ft, t.
Qed.

Lemma remote_read_step fuel h r x y a i b k d pos cnt n :
  n_heap n !! h = Some x -> h_kind x = KReloc r -> n_heap n !! r = Some y -> h_kind y = KRemote a i ->
  h_bucket y = b -> h_key y = k -> th_connected a (n_transfers n) -> th_has a b k d (n_transfers n) ->
  0 <= pos < INT64_MAX -> 0 < cnt < two64 ->
  exists t, gf_readBytes fuel h pos cnt n =
      Done (Value (Z.max 0 (Z.min cnt (len d - pos)), slice pos cnt d)) (set_fileTransfers (n_fileTransfers n) t n) /\
    th_keeps (n_transfers n) t.
Proof.
  intros Hh Hx Hr Hy <- <- Hc Hd Hp Hcnt.
  destruct (th_read_ok a (h_bucket y) (h_key y) d pos cnt (n_transfers n) Hc Hd Hp) as (t & Et & Hk); [lia|].
  exists t. split; [|exact Hk]. unfold gf_readBytes, DEPTH. cbn [h_readBytes]. unfold bind at 1, the_handle. rewrite Hh, Hx.
  unfold reloc_readBytes. unfold bind at 1, the_handle. rewrite Hh, Hx. unfold bind at 1.
  unfold bind at 1, the_handle. rewrite Hr, Hy. unfold remote_readBytes.
  rewrite (proj2 (Z.eqb_neq cnt 0)) by lia. by rewrite Et.
Qed.
End client.

(** ** The service over TCP implements the interface *)

Section over_tcp.
Context {W X K T : Type} `{MDStub W} `{S3Client X} `{KernelFair K} `{Transfers T}.
Context (fuel : nat) (padding : str) (hw : Z) (size : nat).
Context (padding_size : len padding = 4) (size_bound : (size <= fuel)%nat)
  (threads : 0 < MAXIMUM_TCP_THREADS hw).
Notation Net := (Net W X K T).

#[local] Instance tcp : Transfers Net := net_transfers fuel padding hw.

Definition tcp_open (a : str) (t : Net) : Prop :=
  open_host fuel size a (net_world t) /\ accepting a (net_world t) /\ has_socket a (net_world t).

Definition tcp_connected (a : str) (t : Net) : Prop :=
  exists conns, net_services t !! a = Some (mkFTS a Connected conns) /\ conns <> [] /\
    pool fuel size a conns (net_world t).

Definition tcp_has (a b k d : str) (t : Net) : Prop :=
  has_object fuel a b k d (net_world t) /\ (length d <= size)%nat /\ sendable k.

(** Replacing the service of one host by a pool of connections. *)
Lemma tcp_keeps a conns (t : Net) w :
  keeps fuel (net_world t) w -> pool fuel size a conns w -> conns <> [] ->
  let t' := mkNet w (<[a := mkFTS a Connected conns]> (net_services t)) in
  tcp_connected a t' /\
  (forall a', tcp_connected a' t -> tcp_connected a' t') /\
  (forall a' b k d, tcp_has a' b k d t -> tcp_has a' b k d t').
Proof.
  intros Hk Hp Hne t'. assert (Ha : tcp_connected a t').
  { exists conns. cbn [t' net_services net_world]. by rewrite lookup_insert_eq. }
  split_and!; [done| |].
  - intros a' (c' & Hc' & Hne' & Hp'). destruct (decide (a' = a)) as [->|Hd]; [done|].
    exists c'. cbn [t' net_services net_world]. rewrite lookup_insert_ne by done.
    split_and!; [done..|]. by apply (pool_keeps fuel size a' c' (net_world t)).
  - intros a' b k d (Ho & Hd & Hs). split_and!; [|done..]. cbn [t' net_world]. by apply Hk.
Qed.

#[local, refine] Instance tcp_hosts : TransferHosts Net := {|
  th_open := tcp_open; th_connected := tcp_connected; th_has := tcp_has
|}.
Proof.
  - intros a t (Ho & Hacc & Hs).
    destruct (fts_connect_spec fuel hw size a (net_world t) size_bound Ho) as (w & conns & E & Hk & Hp & _ & Hfull).
    assert (Hne : conns <> []) by (intros ->; specialize (Hfull Hacc Hs); simpl in Hfull; lia).
    destruct (tcp_keeps a conns t w Hk Hp Hne) as (Hc & Hk1 & Hk2).
    eexists. split; [|split; [exact Hc|split; [exact Hk1|exact Hk2]]].
    cbn [ft_connect tcp net_transfers]. by rewrite E.
  - intros a b k d pos cnt t (conns & Hs & Hne & Hp) (Hobj & Hd & Hsend) Hpos Hcnt.
    destruct (fts_readBytes_exact fuel padding size a conns b k d pos cnt (net_world t))
      as (w & conns' & E & Hk & Hp' & Hperm); [done..|].
    assert (Hne' : conns' <> []) by (intros ->; by apply Permutation_nil_l in Hperm).
    destruct (tcp_keeps a conns' t w Hk Hp' Hne') as (_ & Hk1 & Hk2).
    eexists. split; [|split; [exact Hk1|exact Hk2]].
    cbn [ft_read tcp net_transfers]. rewrite Hs, fts_read_bytes, E by (unfold is_u64, two64, INT64_MAX in *; lia). done.
Defined.

(** C15: a read in one process returns the bytes of the file of another.
    When the metadata store says that an object is at a host, the host is up and
    has it in a local file, then opening it in a process that has no connection
    to the host connects, and reading returns the requested range clipped to the
    object, for every fragmentation of the messages on the way and however the
    sockets and system calls of the host delay them. *)
Theorem remote_read_exact (W' X' K' : Type) `{MDService W'} `{S3Client X'} `{Kernel K'}
    fuel' b k d a i m mb pos cnt (n : Node W' X' K' Net) :
  n_state n = Running -> ok (isValid b k) = true -> mfind (getPath b k) (n_fileHandles n) = None ->
  is_connected (n_md n) = true -> svc_abs (n_mdw n) m -> coherent (n_md n) m ->
  m !! b = Some mb -> mb !! k = Some i -> location i = "geds://" ++ a -> a <> [] ->
  cm_get a (n_fileTransfers n) = None ->
  open_host fuel size a (net_world (n_transfers n)) -> accepting a (net_world (n_transfers n)) ->
  has_socket a (net_world (n_transfers n)) ->
  has_object fuel a b k d (net_world (n_transfers n)) -> (length d <= size)%nat -> sendable k ->
  0 <= pos < INT64_MAX -> 0 < cnt < two64 ->
  exists h n1 n2,
    geds_open b k true n = Done (Value h) n1 /\
    gf_readBytes fuel' h pos cnt n1 =
      Done (Value (Z.max 0 (Z.min cnt (len d - pos)), slice pos cnt d)) n2 /\
    has_object fuel a b k d (net_world (n_transfers n2)).
Proof.
  intros Hr Hv Hf Hc Ha Hco Hm Hmb Hloc Hne Hft Ho Hacc Hs Hobj Hd Hk Hp Hcnt.
  destruct (open_remote_step (T := Net) b k a i m mb n) as (cl & w & ft & t0 & E1 & _ & _ & Hconn & Hkeep);
    [done..|right; by split|]. set (n1 := remote_opened b k a i cl w ft t0 n) in E1.
  assert (Hhas : th_has a b k d (n_transfers n1)) by (apply Hkeep; done).
  destruct (remote_opened_heap b k a i cl w ft t0 n) as [Hy Hx].
  destruct (remote_read_step fuel' (S (n_next n)) (n_next n) _ _ a i b k d pos cnt n1 Hx eq_refl Hy)
    as (t & E2 & [_ Hkeep2]); [done..|].
  exists (S (n_next n)), n1. eexists. split; [exact E1|]. split; [exact E2|].
  apply (Hkeep2 a b k d), Hhas.
Qed.
End over_tcp.

(** ** Witness *)

#[local] Existing Instance the_stub.
#[local] Existing Instance the_service.

(** A process that knows from the metadata store where the object is. *)
Definition remote_info : ObjectInfo := mkInfo ("geds://" ++ demo_address) 5 5 None.
Definition remote_store : Server :=
  fst (stub_Create (fill_object (mkObject (mkID "bkt" "dir/key") remote_info)) demo_server).

Definition remote_client : Node Server MemS3.world nat (Net Server MemS3.world nat unit) :=
  mkNode (mkNodeConfig 4 false false) Running connected_client remote_store "/tmp/geds" newFileNames
    "geds://h:2" [] [] ["bkt" : str] [] 0 0 ∅ 0 0 (fun _ => mem_state) (mkFS ∅ ∅ 0 ∅) 0%nat demo_net.

Lemma remote_store_abs :
  svc_abs remote_store (<[("bkt" : str) := <[("dir/key" : str) := remote_info]> ∅]> {[("bkt" : str) := ∅]}).
Proof.
  assert (Ha : svc_abs demo_server {[("bkt" : str) := ∅]}) by apply (newKVS_abs (Some ("bkt" : str))).
  destruct (svc_Create (mkObject (mkID "bkt" "dir/key") remote_info) demo_server _ Ha) as (s' & m' & r & E & Hst & Ha').
  unfold remote_store. rewrite E. cbn [KvsSpec.step id bucket key info] in Hst.
  rewrite lookup_singleton_eq in Hst. cbn [default] in Hst. by destruct Hst as [-> _].
Qed.

Lemma demo_has : has_object 30 demo_address "bkt" "dir/key" "hello" (net_world demo_net).
Proof.
  exists demo_host, stored_node, 0%nat. split; [apply lookup_singleton_eq|]. split; [reflexivity|].
  constructor; [reflexivity..|apply stored_node_wf|reflexivity|simpl; lia|].
  eexists _, (mkLocalFile "/tmp/geds/bkt/0" 0 5 []), 0, false.
  split; [apply lookup_singleton_eq|]. split; [reflexivity|]. split; [reflexivity|]. split; [|reflexivity].
  constructor; [simpl; lia|reflexivity|vm_compute; reflexivity].
Qed.

Lemma remote_read_exact_witness :
  exists h n1 n2,
    geds_open (H2 := tcp 30 "pppp" 1) "bkt" "dir/key" true remote_client = Done (Value h) n1 /\
    gf_readBytes (H2 := tcp 30 "pppp" 1) 3 h 1 9000 n1 = Done (Value (4, "ello" : str)) n2.
Proof.
  destruct (remote_read_exact 30 "pppp" 1 5 ltac:(reflexivity) ltac:(lia) ltac:(vm_compute; reflexivity)
              Server MemS3.world nat 3 "bkt" "dir/key" "hello" demo_address remote_info
              (<[("bkt" : str) := <[("dir/key" : str) := remote_info]> ∅]> {[("bkt" : str) := ∅]})
              (<[("dir/key" : str) := remote_info]> ∅) 1 9000 remote_client)
    as (h & n1 & n2 & E1 & E2 & _); try reflexivity; try done; try lia.
  - exact remote_store_abs.
  - apply empty_coherent.
  - apply demo_open.
  - apply demo_accepting.
  - apply demo_socket.
  - apply demo_has.
  - split; [repeat constructor|by_decision].
  - exists h, n1, n2. split; [exact E1|exact E2].
Defined.
