(* ===== verification/GEDSCopy.v ===== *)
(** * Copying and renaming objects

    The operations [copy], [rename], [copyPrefix] and [renamePrefix] of [GEDS]
    (src/src/libgeds/GEDS.cpp) on the definitions of GEDS.v: what a copy of a
    local or remote object leaves in the process, in the local files and in the
    metadata store, what a rename leaves, and what happens when the destination
    exists. The source is an interface, with local and remote objects as
    instances; the copying loop is that of FileHandle.v. *)

From Stdlib Require Import Ascii ZArith Lia.
From stdpp Require Import base gmap sets list strings numbers.
From S2P Require Import Prelude Bytes Decimal Status StdMap Path Object FileSet MDSKVSBucket MDSKVS S3Endpoint Rpc.
From S2P Require Import MetadataServer MetadataService LocalFile ConcurrentMap GedsNames FileHandle.
From S2P Require Import Node Handles HandleIO GEDS GEDSCreate GEDSObjects GEDSRelocate.
From S2P Require Import TcpConnection FileTransferService RemoteRead.

Open Scope Z_scope.
Open Scope list_scope.

#[local] Opaque to_string.

(** ** What reading and writing leaves *)

Section frames.
Context {W X K T : Type} `{KernelFair K}.
Implicit Types n : Node W X K T.

Definition is_sealed (k : Kind) : bool := match k with KLocal _ _ s => s | _ => false end.

(** Only the file system, the transfers and the kinds of the handles changed,
    and nothing was sealed. *)
Record framed n n' : Prop := {
  fr_rest : n' = set_fileTransfers (n_fileTransfers n') (n_transfers n')
                   (set_fs (n_fs n') (n_kernel n') (set_heap (n_heap n') (n_next n) n));
  fr_kernel : (interrupts (n_kernel n') <= interrupts (n_kernel n))%nat;
  fr_heap h x : n_heap n !! h = Some x ->
    exists k, n_heap n' !! h = Some (with_kind k x) /\ is_sealed k = is_sealed (h_kind x)
}.

Lemma framed_refl n : framed n n.
Proof.
  constructor; [by destruct n|lia|]. intros h x Hx. exists (h_kind x). rewrite Hx. by destruct x.
Qed.

Lemma framed_trans n n1 n2 : framed n n1 -> framed n1 n2 -> framed n n2.
Proof.
  intros [E1 K1 H1] [E2 K2 H2]. constructor.
  - rewrite E2, E1. reflexivity.
  - lia.
  - intros h x Hx. destruct (H1 h x Hx) as (k1 & Hx1 & E1'). destruct (H2 h _ Hx1) as (k2 & Hx2 & E2').
    exists k2. split; [done|]. by rewrite E2'.
Qed.

Lemma framed_fields n n' : framed n n' ->
  n_config n' = n_config n /\ n_state n' = n_state n /\ n_md n' = n_md n /\ n_mdw n' = n_mdw n /\
  n_hostURI n' = n_hostURI n /\ n_fileHandles n' = n_fileHandles n /\ n_next n' = n_next n.
Proof. intros [E _ _]. rewrite E. done. Qed.

(** A local file with the contents [d] behind a handle. *)
Definition file_at (h : nat) (i : Z) (d : str) n : Prop :=
  exists x f s, n_heap n !! h = Some x /\ h_kind x = KLocal f i s /\ lf_wf (with_data d f) /\
    inode_data i (n_fs n) = d.

(** No other handle and inode changed. *)
Definition touches (h : nat) (i : Z) n n' : Prop :=
  (forall h', h' <> h -> n_heap n' !! h' = n_heap n !! h') /\
  (forall i', i' <> i -> inode_data i' (n_fs n') = inode_data i' (n_fs n)) /\
  n_transfers n' = n_transfers n.

Lemma file_at_touches h i d h' i' n n' :
  touches h i n n' -> h' <> h -> i' <> i -> file_at h' i' d n -> file_at h' i' d n'.
Proof.
  intros (Hh & Hi & _) Nh Ni (x & f & s & Hx & Hk & Hwf & Hd). exists x, f, s.
  rewrite Hh, Hi by done. done.
Qed.

(** The state after an operation of a local file. *)
Lemma file_step h i d d' f x s kern n :
  n_heap n !! h = Some x -> h_kind x = KLocal f i s ->
  (interrupts kern <= interrupts (n_kernel n))%nat ->
  forall f', lf_wf f' -> lf_data f' = d' ->
  let n' := set_fs (set_inode i d' (n_fs n)) kern
    (set_heap (<[h := with_kind (KLocal (with_data [] f') i s) x]> (n_heap n)) (n_next n) n) in
  inode_data i (n_fs n) = d ->
  framed n n' /\ file_at h i d' n' /\ touches h i n n'.
Proof.
  intros Hh Hx Hk f' Hwf Hd' n' Hd. split; [|split].
  - constructor; [by destruct n|done|]. intros j y Hy. cbn [n' n_heap set_fs set_heap].
    destruct (decide (j = h)) as [->|Hne].
    + rewrite lookup_insert_eq. simplify_eq. eexists. split; [done|]. by rewrite Hx.
    + rewrite lookup_insert_ne by done. exists (h_kind y). rewrite Hy. by destruct y.
  - eexists _, _, s. cbn [n' n_heap set_fs set_heap n_fs]. rewrite lookup_insert_eq. split; [done|].
    split; [done|]. unfold inode_data. cbn [set_inode fs_inodes]. rewrite lookup_insert_eq. split; [|done].
    destruct Hwf as [F1 F2 F3]. subst d'. by constructor.
  - split_and!; [| |done].
    + intros h' Nh. cbn [n' n_heap set_fs set_heap]. by rewrite lookup_insert_ne.
    + intros i' Ni. unfold inode_data. cbn [n' n_fs set_fs set_inode fs_inodes]. by rewrite lookup_insert_ne.
Qed.
End frames.

Section local_io.
Context {W X K T : Type} `{MDStub W} `{S3Client X} `{KernelFair K} `{Transfers T}.
Context (fuel : nat).
Implicit Types n : Node W X K T.

Lemma file_small h i d n : file_at h i d n -> len d < INT64_MAX.
Proof. intros (x & f & s & _ & _ & [_ _ Hs] & _). exact Hs. Qed.

Lemma file_size h i d n : file_at h i d n -> h_size h n = Done (Value (len d)) n.
Proof.
  intros (x & f & s & Hx & Hk & Hwf & Hd). unfold h_size, bind. rewrite (resolve_local h n x f i s) by done.
  cbn [snd]. unfold base_size. rewrite Hk. unfold ret. f_equal. f_equal. exact (lf_sized _ Hwf).
Qed.

Lemma file_read h i d pos cnt n :
  file_at h i d n -> 0 <= pos < INT64_MAX -> 0 <= cnt ->
  (interrupts (n_kernel n) + length d <= fuel)%nat ->
  exists n', gf_readBytes fuel h pos cnt n =
      Done (Value (Z.max 0 (Z.min cnt (len d - pos)), slice pos cnt d)) n' /\
    framed n n' /\ file_at h i d n' /\ touches h i n n'.
Proof.
  intros (x & f & s & Hx & Hk & Hwf & Hd) Hp Hc Hf.
  destruct (read_local fuel 4 h n x f i s pos cnt Hx Hk) as (kern & Hkern & E); rewrite ?Hd; try done.
  { unfold len. lia. }
  rewrite Hd in E. eexists. split; [exact E|]. by apply (file_step h i d d f x s kern n Hx Hk Hkern (with_data d f)).
Qed.

Lemma truncate_exact h n x f i s size k' :
  n_heap n !! h = Some x -> h_kind x = KLocal f i s -> 0 <= lf_fd f -> call (n_kernel n) = (k', Sys 0) ->
  h_truncate h size n = Done OkStatus
    (set_fs (set_inode i (resize size (inode_data i (n_fs n))) (n_fs n)) k'
       (set_heap (<[h := with_kind (KLocal (with_data [] (with_size size f)) i s) x]> (n_heap n)) (n_next n) n)).
Proof.
  intros Hx Hk Hfd Ek. unfold h_truncate. unfold bind at 1. rewrite (resolve_local h n x f i s) by done.
  cbn [fst snd]. rewrite Hk. unfold local_truncate.
  erewrite (local_update_step h _ n x f i s (with_data (resize size (inode_data i (n_fs n))) (with_size size f)) k');
    [reflexivity|done|done|].
  unfold lf_truncate, ftruncate64. cbn [lf_fd with_data]. rewrite (proj2 (Z.ltb_ge _ _)) by lia. by rewrite Ek.
Qed.

Lemma file_write h i d bytes pos n :
  file_at h i d n -> 0 <= pos -> 0 < len bytes -> pos + len bytes < INT64_MAX ->
  (interrupts (n_kernel n) + length bytes <= fuel)%nat ->
  exists n', h_writeBytes fuel h bytes pos (len bytes) n = Done OkStatus n' /\
    framed n n' /\ file_at h i (write_at pos bytes d) n' /\ touches h i n n'.
Proof.
  intros (x & f & s & Hx & Hk & Hwf & Hd) Hp Hl Hm Hf.
  destruct (write_local fuel h n x f i s bytes pos Hx Hk) as (f' & kern & E & Hwf' & Hdata & Hkern);
    rewrite ?Hd; try done.
  rewrite Hd in Hdata. eexists. split; [exact E|]. rewrite Hdata.
  by apply (file_step h i d (write_at pos bytes d) f x s kern n Hx Hk Hkern f').
Qed.
End local_io.

(** ** Sources *)

(** What [download] needs of the handle it reads from, while it writes to [dst]
    on the inode [j]: [P] says that the source has the contents [c], is kept by
    reads and writes, and every read returns a part of the contents. *)
Record source {W X K T} `{MDStub W} `{S3Client X} `{KernelFair K} `{Transfers T}
    (fuel src : nat) (c : str) (dst : nat) (j : Z) (P : Node W X K T -> Prop) : Prop := {
  so_other : src <> dst;
  so_small : len c < INT64_MAX;
  so_kind n : P n -> exists x, n_heap n !! src = Some x /\
    match h_kind x with KS3 _ _ _ => False | _ => True end;
  so_size n : P n -> h_size src n = Done (Value (len c)) n;
  so_read n pos cnt :
    P n -> 0 <= pos < INT64_MAX -> is_u64 cnt -> (interrupts (n_kernel n) + length c <= fuel)%nat ->
    exists n' m, gf_readBytes fuel src pos cnt n = Done (Value (m, slice pos m c)) n' /\
      framed n n' /\ P n' /\
      n_heap n' !! dst = n_heap n !! dst /\ inode_data j (n_fs n') = inode_data j (n_fs n) /\
      0 <= m <= cnt /\ m <= Z.max 0 (len c - pos) /\ (0 < cnt -> pos < len c -> 0 < m);
  so_write n n' : P n -> framed n n' -> touches dst j n n' -> P n'
}.

Section sources.
Context {W X K T : Type} `{MDStub W} `{S3Client X} `{KernelFair K} `{TransferHosts T}.
Context (fuel : nat).
Implicit Types n : Node W X K T.

(** A local file. *)
Lemma local_source src i c dst j :
  src <> dst -> i <> j -> len c < INT64_MAX ->
  source fuel src c dst j (fun n : Node W X K T => file_at src i c n).
Proof.
  intros Hne Hij Hs. constructor; [done|done| | | |].
  - intros n (x & f & s & Hx & Hk & _). exists x. by rewrite Hk.
  - intros n Hf. by apply (file_size src i).
  - intros n pos cnt Hf Hp Hc Hfu. unfold is_u64 in Hc.
    destruct (file_read fuel src i c pos cnt n Hf Hp) as (n' & E & F & Hf' & Ht & Hi & _); [lia|done|].
    exists n', (Z.max 0 (Z.min cnt (len c - pos))). rewrite <- slice_clipped by lia.
    split_and!; [exact E|done|done|by apply Ht|by apply Hi|lia..].
  - intros n n' Hf _ Ht. by apply (file_at_touches dst j c src i n n').
Qed.

(** The object of another process, behind a wrapper and a remote handle. *)
Definition remote_at (h r : nat) (a b k d : str) n : Prop :=
  exists x y, n_heap n !! h = Some x /\ h_kind x = KReloc r /\
    n_heap n !! r = Some y /\ (exists i, h_kind y = KRemote a i /\ osize i = len d) /\
    h_bucket y = b /\ h_key y = k /\ th_connected a (n_transfers n) /\ th_has a b k d (n_transfers n).

Lemma remote_source src r a b k c dst j :
  src <> dst -> r <> dst -> len c < INT64_MAX ->
  source fuel src c dst j (fun n : Node W X K T => remote_at src r a b k c n).
Proof.
  intros Hne Hr Hs. constructor; [done|done| | | |].
  - intros n (x & y & Hx & Hk & _). exists x. by rewrite Hk.
  - intros n (x & y & Hx & Hk & Hy & (i & Hyk & Hi) & _). unfold h_size, resolve, bind, the_handle.
    rewrite Hx, Hk, Hy. cbn [ret snd]. unfold base_size. by rewrite Hyk, Hi.
  - intros n pos cnt (x & y & Hx & Hk & Hy & (i & Hyk & Hi) & Hb & Hkey & Hc & Hh) Hp Hcnt Hf.
    unfold is_u64 in Hcnt.
    destruct (th_read_ok a b k c pos cnt (n_transfers n) Hc Hh Hp) as (t & Et & Hkc & Hkh); [lia|].
    destruct (Z.eq_dec cnt 0) as [->|Hz].
    + exists n, 0. split_and!; try done; try lia; [|apply framed_refl|by exists x, y; split_and!; eauto].
      unfold gf_readBytes, DEPTH. cbn [h_readBytes]. unfold bind at 1, the_handle. rewrite Hx, Hk.
      unfold reloc_readBytes. unfold bind at 1, the_handle. rewrite Hx, Hk. unfold bind at 1.
      unfold bind at 1, the_handle. rewrite Hy, Hyk. unfold remote_readBytes. cbn [Z.eqb]. by rewrite slice_0.
    + destruct (remote_read_step fuel src r x y a i b k c pos cnt n Hx Hk Hy Hyk Hb Hkey Hc Hh Hp)
        as (t' & E & Hkc' & Hkh'); [lia|].
      eexists _, (Z.max 0 (Z.min cnt (len c - pos))). rewrite <- slice_clipped by lia.
      split_and!; [exact E| |by exists x, y; split_and!; eauto|done|done|lia..].
      constructor; [by destruct n|done|]. intros h z Hz'. exists (h_kind z). by destruct z.
  - intros n n' (x & y & Hx & Hk & Hy & Hyk & Hb & Hkey & Hc & Hh) _ (Hother & _ & Ht).
    exists x, y. rewrite !Hother, Ht by done. split_and!; done.
Qed.
End sources.

(** ** The copying loop *)

Section copying.
Context {W X K T : Type} `{MDStub W} `{S3Client X} `{KernelFair K} `{Transfers T}.
Context (fuel src : nat) (c : str) (dst : nat) (j : Z) (P : Node W X K T -> Prop)
  (S : source fuel src c dst j P).
Implicit Types n : Node W X K T.

(** The invariant of the loop: the source is intact and only the destination's
    bytes [d] changed since [n0]. *)
Record copying n0 d n : Prop := {
  cp_source : P n;
  cp_dst : file_at dst j d n;
  cp_frame : framed n0 n;
  cp_fuel : (interrupts (n_kernel n0) + length c <= fuel)%nat
}.

(** The source and the destination implement the interface of FileHandle.v. *)
#[local] Instance node_io : FileIO (run W X K T unit) := copy_io fuel (gf_readBytes fuel src) dst.

#[local, refine] Instance node_io_laws n0 : FileIOLaws (run W X K T unit) := {|
  io_inv r := exists n d, r = Done tt n /\ copying n0 d n;
  io_src _ := c;
  io_dst r := match r with Done _ n => inode_data j (n_fs n) | _ => [] end
|}.
Proof.
  - intros r _. apply (so_small _ _ _ _ _ _ S).
  - intros pos cnt r (n & d & -> & [Hp Hd Hf Hfu]) Hpos Hcnt.
    destruct (so_read _ _ _ _ _ _ S n pos cnt Hp Hpos Hcnt) as (n' & m & E & F & Hp' & Hh & Hi & Hm);
      [pose proof (fr_kernel _ _ Hf); lia|].
    exists (Done tt n'), m. cbn [src_read copy_io node_io lift]. rewrite E. split; [done|].
    split; [|split; [done|split; [done|exact Hm]]]. exists n', d. split; [done|].
    constructor; [done| |by apply (framed_trans n0 n)|done].
    destruct Hd as (x & f & s & Hx & Hk & Hwf & Hd). exists x, f, s. by rewrite Hh, Hi.
  - intros bytes pos r (n & d & -> & [Hp Hd Hf Hfu]) Hpos [Hl1 Hl2] Hmax.
    destruct (file_write fuel dst j d bytes pos n Hd Hpos Hl1 Hmax) as (n' & E & F & Hd' & Ht).
    { pose proof (fr_kernel _ _ Hf). unfold len in Hl2. lia. }
    exists (Done tt n'), OkStatus. cbn [dst_write copy_io node_io lift]. rewrite E.
    split; [done|]. split; [done|]. split; [|split; [done|]].
    + exists n', (write_at pos bytes d). split; [done|].
      constructor; [by apply (so_write _ _ _ _ _ _ S n)|done|by apply (framed_trans n0 n)|done].
    + destruct Hd as (? & ? & ? & _ & _ & _ & ->). by destruct Hd' as (? & ? & ? & _ & _ & _ & ->).
Defined.

(** One call of [downloadRange] *)
Lemma downloadRange_step n0 d n sp cnt dp :
  0 < cacheBlockSize (n_config n0) < two64 -> copying n0 d n -> 0 <= sp -> sp + cnt < INT64_MAX ->
  0 <= dp <= len d -> dp + cnt < INT64_MAX -> 0 <= cnt < Z.of_nat fuel ->
  exists n', h_downloadRange fuel src dst sp cnt dp n = Done (Value (avail c sp cnt)) n' /\
    copying n0 (write_at dp (slice sp (avail c sp cnt) c) d) n'.
Proof.
  intros Hbs Hc Hsp Hsc Hdp Hdc Hcnt. pose proof Hc as [Hp Hd Hf Hfu].
  destruct (so_kind _ _ _ _ _ _ S n Hp) as (x & Hx & Hk).
  assert (Edst : @io_dst _ node_io (node_io_laws n0) (Done tt n) = d) by (by destruct Hd as (? & ? & ? & _ & _ & _ & ?)).
  pose proof (@downloadRange_spec _ node_io (node_io_laws n0) (cacheBlockSize (n_config n0)) Hbs fuel sp cnt dp (Done tt n)) as Hs.
  specialize (Hs (ex_intro _ n (ex_intro _ d (conj eq_refl Hc))) Hsp Hsc ltac:(rewrite Edst; lia) Hdc ltac:(lia)).
  assert (E : h_downloadRange fuel src dst sp cnt dp n =
    lower (@downloadRange _ node_io (cacheBlockSize (n_config n0)) fuel false sp cnt dp (Done tt n))).
  { unfold h_downloadRange, bind, the_handle. rewrite Hx. unfold base_downloadRange.
    rewrite bool_decide_false by apply (so_other _ _ _ _ _ _ S).
    rewrite <- (proj1 (framed_fields _ _ Hf)). by destruct (h_kind x). }
  rewrite E. destruct (downloadRange _ fuel false sp cnt dp (Done tt n)) as [[r a]|]; [|lia].
  destruct Hs as (-> & (n' & d' & -> & Hc') & _ & Hd'). exists n'. split; [done|].
  rewrite Edst in Hd'. cbn [io_dst io_src node_io_laws] in Hd'.
  assert (d' = inode_data j (n_fs n')) as -> by (by destruct (cp_dst _ _ _ Hc') as (? & ? & ? & _ & _ & _ & ?)).
  by rewrite <- Hd'.
Qed.

Lemma download_loop_step n0 d rounds pos n :
  0 < cacheBlockSize (n_config n0) < two64 -> copying n0 (write_at 0 (slice 0 pos c) d) n ->
  0 <= pos <= len c -> (pos < len c \/ pos = 0) -> len c < Z.of_nat fuel ->
  len c - pos < cacheBlockSize (n_config n0) * Z.of_nat rounds ->
  exists n', h_download_loop fuel rounds src dst (len c) pos n = Done OkStatus n' /\
    copying n0 (write_at 0 c d) n'.
Proof.
  set (bs := cacheBlockSize (n_config n0)). pose proof (so_small _ _ _ _ _ _ S) as Hsm.
  revert pos n. induction rounds as [|rounds IH]; intros pos n Hbs Hc Hp Hp2 Hf Hr; [lia|].
  cbn [h_download_loop]. unfold bind at 1, gets. destruct (framed_fields _ _ (cp_frame _ _ _ Hc)) as [-> _].
  change (cacheBlockSize (n_config n0)) with bs. unfold INT64_MAX, two64 in *.
  rewrite u64_small by (unfold is_u64, two64; lia).
  assert (Hlen : len (write_at 0 (slice 0 pos c) d) = Z.max (len d) pos).
  { rewrite len_write_at, slice_length by lia. lia. }
  destruct (downloadRange_step n0 _ n pos (Z.min bs (len c - pos)) pos Hbs Hc)
    as (n1 & E1 & Hc1); [unfold INT64_MAX; lia..|].
  unfold bind at 1. rewrite E1. set (m := Z.min bs (len c - pos)) in *.
  assert (Ha : avail c pos m = m) by (unfold avail; lia). rewrite Ha in *.
  rewrite u64_small by (unfold is_u64, two64; lia).
  assert (Ed : write_at pos (slice pos m c) (write_at 0 (slice 0 pos c) d) = write_at 0 (slice 0 (pos + m) c) d).
  { change (slice pos m c) with (slice (0 + pos) m c). rewrite <- (slice_extend 0 pos m) by lia.
    rewrite <- (write_at_extend 0 (slice 0 pos c)) by lia. by rewrite (slice_length 0 pos c) by lia. }
  rewrite Ed in Hc1. destruct (Z.ltb_spec (pos + m) (len c)).
  - apply IH; auto; lia.
  - assert (E : pos + m = len c) by lia. rewrite E, slice_all in Hc1. by exists n1.
Qed.

(** [copyTo] *)
Lemma download_step n d :
  0 < cacheBlockSize (n_config n) < two64 -> P n -> file_at dst j d n ->
  (interrupts (n_kernel n) + length c < fuel)%nat ->
  exists n', h_download fuel src dst n = Done OkStatus n' /\ P n' /\ framed n n' /\
    file_at dst j (write_at 0 c d) n'.
Proof.
  intros Hbs Hp Hd Hf. unfold h_download, bind. rewrite (so_size _ _ _ _ _ _ S n Hp).
  pose proof (len_nonneg c). pose proof (len_nonneg d).
  assert (Hl : len c < Z.of_nat fuel) by (unfold len; lia).
  destruct (download_loop_step n d fuel 0 n Hbs) as (n' & E & [Hp' Hd' Hf' _]); [|lia|lia|lia|nia|by exists n'].
  rewrite slice_0, write_at_nil by lia. constructor; [done|done|apply framed_refl|lia].
Qed.
End copying.

(** ** Creating, sealing and closing the destination *)

Section steps.
Context {W X K T : Type} `{MDService W} `{S3Client X} `{KernelFair K} `{Transfers T}.
Context (fuel : nat).
Implicit Types n : Node W X K T.

(** No file has the name a new object would get. *)
Definition unused_path (b k : str) n : Prop :=
  fs_names (n_fs n) !! snd (getLocalPath (n_pathPrefix n) b k (n_names n)) = None.

(** What creating [b/k] changes: a new handle, registered, on a new empty file. *)
Record creates (b k : str) n n' : Prop := {
  cr_rest : n_config n' = n_config n /\ n_state n' = n_state n /\ n_md n' = n_md n /\
    n_mdw n' = n_mdw n /\ n_hostURI n' = n_hostURI n /\ n_transfers n' = n_transfers n;
  cr_kernel : interrupts (n_kernel n') = 0%nat;
  cr_handles : n_fileHandles n' = massign (getPath b k) (n_next n) (n_fileHandles n);
  cr_heap h : h <> n_next n -> n_heap n' !! h = n_heap n !! h;
  cr_new : exists f, n_heap n' !! n_next n =
    Some (with_count 1 (newHandle b k None (KLocal f (fs_next (n_fs n)) false)));
  cr_file : file_at (n_next n) (fs_next (n_fs n)) [] n';
  cr_inodes i : i <> fs_next (n_fs n) -> inode_data i (n_fs n') = inode_data i (n_fs n)
}.

Lemma geds_create_step b k n :
  node_wf n -> n_state n = Running -> ok (isValid b k) = true ->
  cs_exists b (n_knownBuckets n) = true -> interrupts (n_kernel n) = 0%nat ->
  mfind (getPath b k) (n_fileHandles n) = None -> unused_path b k n ->
  exists n', geds_create b k false n = Done (Value (n_next n)) n' /\ creates b k n n'.
Proof.
  intros Hw Hr Hv Hb Hk Hf Hu. pose proof (create_new b k n Hw Hr Hv Hb Hk Hf) as Hnew. unfold unused_path in Hu.
  destruct (getLocalPath (n_pathPrefix n) b k (n_names n)) as [names p]. cbn [snd] in Hu. rewrite Hu in Hnew.
  destruct Hnew as (kern & fs & Hkern & E & _ & Hino & _). cbn [default] in *.
  eexists. split.
  { unfold geds_create. unfold bind at 1. rewrite E. unfold bind, modify, h_open, h_increaseOpenCount, update_handle, ret.
    unfold bind. reflexivity. }
  constructor; cbn [n_config n_state n_md n_mdw n_hostURI n_transfers n_kernel n_fileHandles n_heap n_fs
    set_heap set_filesCreated set_fileHandles created set_fs set_names n_next]; try done.
  - intros h Hne. by rewrite lookup_alter_ne, lookup_insert_ne by done.
  - eexists. rewrite lookup_alter_eq, lookup_insert_eq. reflexivity.
  - eexists _, _, false. cbn [n_heap set_heap set_filesCreated set_fileHandles created set_fs set_names n_fs n_next].
    rewrite lookup_alter_eq, lookup_insert_eq. split; [reflexivity|]. split; [reflexivity|].
    unfold inode_data. rewrite Hino, lookup_insert_eq. split; [|done].
    split; simpl; unfold INT64_MAX; lia || done.
  - intros i Hi. unfold inode_data. by rewrite Hino, lookup_insert_ne.
Qed.

(** Counts, flags and the store changed, but no file, handle or connection. *)
Definition unseal (k : Kind) : Kind := match k with KLocal f i _ => KLocal f i false | k => k end.

Record settles n n' : Prop := {
  se_state : n_state n' = n_state n;
  se_md : n_md n' = n_md n;
  se_fs : n_fs n' = n_fs n;
  se_kernel : n_kernel n' = n_kernel n;
  se_transfers : n_transfers n' = n_transfers n;
  se_handles : n_fileHandles n' = n_fileHandles n;
  se_heap h x : n_heap n !! h = Some x -> exists x', n_heap n' !! h = Some x' /\
    unseal (h_kind x') = unseal (h_kind x) /\ h_isValid x' = h_isValid x /\
    h_bucket x' = h_bucket x /\ h_key x' = h_key x
}.

Lemma settles_trans n n1 n2 : settles n n1 -> settles n1 n2 -> settles n n2.
Proof.
  intros [A1 A2 A3 A4 A5 A6 A7] [B1 B2 B3 B4 B5 B6 B7]. constructor; try congruence.
  intros h x Hx. destruct (A7 h x Hx) as (x1 & Hx1 & ? & ? & ? & ?).
  destruct (B7 h x1 Hx1) as (x2 & Hx2 & ? & ? & ? & ?). exists x2. split_and!; congruence.
Qed.

Lemma settles_alter (g : Handle -> Handle) h c w n :
  (forall x, n_heap n !! h = Some x -> unseal (h_kind (g x)) = unseal (h_kind x) /\
     h_isValid (g x) = h_isValid x /\ h_bucket (g x) = h_bucket x /\ h_key (g x) = h_key x) ->
  n_md n = c ->
  settles n (set_heap (alter g h (n_heap n)) (n_next n) (set_md c w n)).
Proof.
  intros Hg <-. constructor; try done. intros h' x Hx. cbn [n_heap set_heap set_md].
  destruct (decide (h' = h)) as [->|Hne].
  - rewrite lookup_alter_eq, Hx. exists (g x). split; [done|]. by apply Hg.
  - rewrite lookup_alter_ne by done. by exists x.
Qed.

Lemma local_settles h n n' x f i s :
  settles n n' -> n_heap n !! h = Some x -> h_kind x = KLocal f i s ->
  exists x' s', n_heap n' !! h = Some x' /\ h_kind x' = KLocal f i s'.
Proof.
  intros S Hx Hk. destruct (se_heap _ _ S h x Hx) as (x' & Hx' & Hu & _). rewrite Hk in Hu. cbn [unseal] in Hu.
  destruct (h_kind x') as [f' i' s'| | | |] eqn:Ek; try done. cbn [unseal] in Hu. injection Hu as -> ->. by exists x', s'.
Qed.

Lemma file_at_settles h i d n n' : settles n n' -> file_at h i d n -> file_at h i d n'.
Proof.
  intros S (x & f & s & Hx & Hk & Hwf & Hd). destruct (local_settles h n n' x f i s S Hx Hk) as (x' & s' & Hx' & Hk').
  exists x', f, s'. by rewrite (se_fs _ _ S).
Qed.

Lemma set_md_same n : set_md (n_md n) (n_mdw n) n = n.
Proof. by destruct n. Qed.

Lemma close_registered q h n :
  sorted (n_fileHandles n) -> mfind q (n_fileHandles n) = Some h -> is_Some (n_heap n !! h) ->
  exists n', close h n = Done tt n' /\ settles n n' /\ n_mdw n' = n_mdw n.
Proof.
  intros Hs Hq [x Hx]. unfold close, h_decreaseOpenCount, bind, gets, update_handle.
  set (g := fun x : Handle => released_at (n_now n) (with_count (h_openCount x - 1) x)). set (n1 := set_heap _ _ n). exists n1.
  assert (E : drop_ref h n1 = Done tt n1) by (by apply (drop_registered q)).
  rewrite E. split; [done|]. split; [|done].
  pose proof (settles_alter g h (n_md n) (n_mdw n) n) as St. rewrite set_md_same in St. apply St; done.
Qed.

(** Sealing the new object announces it. *)
Lemma seal_step h i d b k n m mb x :
  file_at h i d n -> n_heap n !! h = Some x -> h_bucket x = b -> h_key x = k -> h_metadata x = None ->
  (exists f i', h_kind x = KLocal f i' false) ->
  n_state n = Running -> is_connected (n_md n) = true -> svc_abs (n_mdw n) m -> m !! b = Some mb ->
  exists n', h_seal h n = Done OkStatus n' /\ settles n n' /\
    svc_abs (n_mdw n') (<[b := <[k := mkInfo (n_hostURI n) (len d) (len d) None]> mb]> m).
Proof.
  intros (x' & f & s & Hx' & Hk & Hwf & Hd) Hx <- <- Hmd (f' & i' & Hk') Hr Hc Ha Hm.
  rewrite Hx in Hx'. injection Hx' as <-. rewrite Hk in Hk'. injection Hk' as <- <- ->. subst d.
  destruct (seal_creates h n x f i m mb Hx Hk Hr Hc Ha Hm) as (w & Ha' & E).
  rewrite Hmd in Ha'. rewrite (lf_sized _ Hwf : lf_size f = len _) in Ha'. cbn [lf_data with_data] in Ha'.
  eexists. split; [exact E|]. split; [|exact Ha'].
  apply (settles_alter (with_kind (KLocal f i true)) h (n_md n) w n); [|done].
  intros y Hy. simplify_eq. cbn [h_kind with_kind]. by rewrite Hk.
Qed.
End steps.

(** ** Copying *)

Section core.
Context {W X K T : Type} `{MDService W} `{S3Client X} `{KernelFair K} `{Transfers T}.
Context (fuel : nat).
Implicit Types n : Node W X K T.

(** A process that can create the object [b/k]: the name is valid and not in use,
    the bucket is known and in the store, and no system call is interrupted. *)
Record can_create (b k : str) (m : KvsSpec.state) (mb : gmap str ObjectInfo) n : Prop := {
  cc_wf : node_wf n;
  cc_running : n_state n = Running;
  cc_valid : ok (isValid b k) = true;
  cc_known : cs_exists b (n_knownBuckets n) = true;
  cc_kernel : interrupts (n_kernel n) = 0%nat;
  cc_new : mfind (getPath b k) (n_fileHandles n) = None;
  cc_unused : unused_path b k n;
  cc_connected : is_connected (n_md n) = true;
  cc_store : svc_abs (n_mdw n) m;
  cc_bucket : m !! b = Some mb;
  cc_blocks : 0 < cacheBlockSize (n_config n) < two64
}.

(** The process has a new object with the bytes [c] and has announced it. *)
Record copied (b k c : str) (m : KvsSpec.state) (mb : gmap str ObjectInfo) n n' : Prop := {
  co_state : n_state n' = n_state n;
  co_md : n_md n' = n_md n;
  co_kernel : interrupts (n_kernel n') = 0%nat;
  co_store : svc_abs (n_mdw n') (<[b := <[k := mkInfo (n_hostURI n) (len c) (len c) None]> mb]> m);
  co_handles : n_fileHandles n' = massign (getPath b k) (n_next n) (n_fileHandles n);
  co_file : file_at (n_next n) (fs_next (n_fs n)) c n';
  co_valid : exists x, n_heap n' !! n_next n = Some x /\ h_isValid x = true;
  co_others h x : n_heap n !! h = Some x ->
    exists x', n_heap n' !! h = Some x' /\ h_isValid x' = h_isValid x
}.

(** What [copy] does once the source is open. *)
Definition copy_from (b k : str) (src : nat) : M W X K T Status :=
  let* destFile := geds_create b k false in
  match destFile with
  | Error st => close src ;; ret st
  | Value dst =>
      let* status := h_download fuel src dst in
      let* result := if ok status then h_seal dst else ret status in
      close dst ;; close src ;; ret result
  end.

Lemma copy_from_step b k src q c P n m mb :
  can_create b k m mb n -> (length c < fuel)%nat ->
  mfind q (n_fileHandles n) = Some src -> is_Some (n_heap n !! src) ->
  source fuel src c (n_next n) (fs_next (n_fs n)) P -> (forall n', creates b k n n' -> P n') ->
  exists n2 n', copy_from b k src n = Done OkStatus n' /\ copied b k c m mb n n' /\ P n2 /\ settles n2 n'.
Proof.
  intros [Hw Hr Hv Hb Hk Hf Hu Hc Ha Hm Hbs] Hfu Hq [xs Hxs] S HP.
  destruct (geds_create_step b k n Hw Hr Hv Hb Hk Hf Hu) as (n1 & E1 & C).
  set (dst := n_next n) in *. set (j := fs_next (n_fs n)) in *. pose proof (so_other _ _ _ _ _ _ S) as Hne.
  pose proof C as [(Ec & Es & Emd & Ew & Eu & _) Ek Eh Ehp [f0 Hnew] Hfile _].
  destruct (download_step fuel src c dst j P S n1 []) as (n2 & E2 & HP2 & F & Hfile2);
    [by rewrite Ec|by apply HP|exact Hfile|lia|]. rewrite write_at_empty in Hfile2.
  destruct (framed_fields _ _ F) as (Fc & Fs & Fmd & Fw & Fu & Fh & _).
  destruct (fr_heap _ _ F dst _ Hnew) as (kd & Hd2 & Hsd).
  destruct (fr_heap _ _ F src xs) as (ks & Hs2 & _); [by rewrite Ehp|].
  destruct (seal_step dst j c b k n2 m mb _ Hfile2 Hd2) as (n3 & E3 & S3 & A3); try congruence; try done.
  { destruct Hfile2 as (y & f & s & Hy & Hyk & _). rewrite Hd2 in Hy. injection Hy as <-. cbn [h_kind with_kind] in *.
    subst kd. exists f, j. f_equal. exact Hsd. }
  assert (Hh3 : n_fileHandles n3 = massign (getPath b k) dst (n_fileHandles n)) by (rewrite (se_handles _ _ S3), Fh; exact Eh).
  assert (Hsrt : sorted (massign (getPath b k) dst (n_fileHandles n))) by (apply massign_sorted, Hw).
  destruct (se_heap _ _ S3 dst _ Hd2) as (xd3 & Hxd3 & _ & Hvd3 & _).
  destruct (se_heap _ _ S3 src _ Hs2) as (xs3 & Hxs3 & _).
  destruct (close_registered (getPath b k) dst n3) as (n4 & E4 & S4 & W4);
    [by rewrite Hh3|rewrite Hh3; apply mfind_massign_eq|by rewrite Hxd3|].
  destruct (se_heap _ _ S4 dst _ Hxd3) as (xd4 & Hxd4 & _ & Hvd4 & _).
  destruct (se_heap _ _ S4 src _ Hxs3) as (xs4 & Hxs4 & _).
  assert (Hh4 : n_fileHandles n4 = massign (getPath b k) dst (n_fileHandles n)) by (rewrite (se_handles _ _ S4); done).
  destruct (close_registered q src n4) as (n5 & E5 & S5 & W5);
    [by rewrite Hh4|rewrite Hh4, mfind_massign_ne; [done|congruence]|by rewrite Hxs4|].
  destruct (se_heap _ _ S5 dst _ Hxd4) as (xd5 & Hxd5 & _ & Hvd5 & _).
  pose proof (settles_trans _ _ _ S3 (settles_trans _ _ _ S4 S5)) as St.
  exists n2, n5. split; [|split; [|done]].
  - unfold copy_from. unfold bind at 1. rewrite E1. unfold bind at 1. rewrite E2.
    change (ok OkStatus) with true. cbn iota. unfold bind at 1. rewrite E3. unfold bind at 1. rewrite E4.
    unfold bind at 1. by rewrite E5.
  - constructor.
    + rewrite (se_state _ _ St). congruence.
    + rewrite (se_md _ _ St). congruence.
    + rewrite (se_kernel _ _ St). pose proof (fr_kernel _ _ F). lia.
    + rewrite W5, W4. by rewrite Fu, Eu in A3.
    + rewrite (se_handles _ _ St), Fh. exact Eh.
    + by apply (file_at_settles dst j c n2).
    + exists xd5. split; [done|]. rewrite Hvd5, Hvd4, Hvd3. done.
    + intros h x Hx. assert (h <> dst) by (intros ->; destruct (nw_heap n Hw _ _ Hx); subst dst; lia).
      rewrite <- Ehp in Hx by done. destruct (fr_heap _ _ F h x Hx) as (kh & Hh2 & _).
      destruct (se_heap _ _ St h _ Hh2) as (x' & Hx' & _ & Hval & _). by exists x'.
Qed.
End core.

(** ** One key of the store *)

Lemma entry_put m b mb k o b' k' :
  m !! b = Some mb ->
  entry (<[b := <[k := o]> mb]> m) b' k' = if decide (b' = b /\ k' = k) then Some o else entry m b' k'.
Proof.
  intros Hm. rewrite entry_insert. destruct (decide (b = b')) as [<-|Hne].
  - rewrite lookup_insert. unfold entry. rewrite Hm. by repeat case_decide; naive_solver.
  - by rewrite decide_False by naive_solver.
Qed.

Lemma entry_remove m b mb k b' k' :
  m !! b = Some mb ->
  entry (<[b := delete k mb]> m) b' k' = if decide (b' = b /\ k' = k) then None else entry m b' k'.
Proof.
  intros Hm. rewrite entry_insert. destruct (decide (b = b')) as [<-|Hne].
  - rewrite lookup_delete. unfold entry. rewrite Hm. by repeat case_decide; naive_solver.
  - by rewrite decide_False by naive_solver.
Qed.

(** ** Objects of the process *)

Section objects.
Context {W X K T : Type} `{MDService W} `{S3Client X} `{KernelFair K} `{Transfers T}.
Context (fuel : nat).
Implicit Types n : Node W X K T.

(** Opening an object and reading all of it gives [d]. *)
Definition reads_back (b k d : str) n : Prop :=
  exists h n1 n2, geds_open b k true n = Done (Value h) n1 /\
    gf_readBytes fuel h 0 (len d) n1 = Done (Value (len d, d)) n2.

Lemma served_reads_back b k d n h : served fuel b k d n h -> reads_back b k d n.
Proof.
  intros Hs. destruct (served_open fuel b k d n h Hs) as (n1 & E1 & L1).
  pose proof (len_nonneg d). pose proof (served_like fuel b k d n n1 h L1 Hs) as Hs1.
  destruct (served_read fuel b k d n1 h 0 (len d) Hs1) as (n2 & E2 & _); [unfold INT64_MAX; lia|done|].
  rewrite slice_all in E2. replace (Z.max 0 _) with (len d) in E2 by lia. by exists h, n1, n2.
Qed.

(** The inodes of the handles have been allocated. *)
Definition inodes_allocated n : Prop :=
  forall h x f i s, n_heap n !! h = Some x -> h_kind x = KLocal f i s -> i < fs_next (n_fs n).

(** A process that has the object in a local file, as the serving side of a
    transfer sees it, and as the copying loop does. *)
Lemma served_file b k d n h : served fuel b k d n h -> exists i, file_at h i d n.
Proof. intros [_ _ _ _ _ (x & f & i & s & Hx & _ & Hk & Hf & Hd)]. by exists i, x, f, s. Qed.

Lemma served_of_file b k d n h i x :
  n_state n = Running -> ok (isValid b k) = true -> sorted (n_fileHandles n) ->
  mfind (getPath b k) (n_fileHandles n) = Some h -> (interrupts (n_kernel n) + length d < fuel)%nat ->
  file_at h i d n -> n_heap n !! h = Some x -> h_isValid x = true -> served fuel b k d n h.
Proof.
  intros Hr Hv Hs Hf Hfu (x' & f & s & Hx' & Hk & Hwf & Hd) Hx Hval. constructor; try done.
  rewrite Hx in Hx'. injection Hx' as <-. by exists x, f, i, s.
Qed.

(** The state after opening an object there is. *)
Definition opened (h : nat) n : Node W X K T :=
  set_heap (alter (fun x => with_count (h_openCount x + 1) x) h (n_heap n)) (n_next n)
    (set_filesOpened (u64 (n_filesOpened n + 1)) n).

Lemma served_opens b k d n h : served fuel b k d n h -> geds_open b k true n = Done (Value h) (opened h n).
Proof. intros [Hr Hv _ Hm _ (x & f & i & s & Hx & Hval & _)]. by apply (open_registered b k h n x). Qed.

Lemma node_wf_opened h n : node_wf n -> node_wf (opened h n).
Proof.
  intros [W1 W2 W3]. constructor; [done..|]. intros h' x. cbn [opened n_heap set_heap].
  destruct (decide (h' = h)) as [->|Hne].
  - rewrite lookup_alter_eq. intros (y & Hy & ->)%fmap_Some. exact (W3 h y Hy).
  - rewrite lookup_alter_ne by done. apply W3.
Qed.

Lemma can_create_opened b k m mb h n : can_create b k m mb n -> can_create b k m mb (opened h n).
Proof. intros []. constructor; try done. by apply node_wf_opened. Qed.

Lemma file_at_opened h h' i d n : file_at h i d n -> file_at h i d (opened h' n).
Proof.
  intros (x & f & s & Hx & Hk & Hr). destruct (decide (h = h')) as [->|Hne].
  - exists (with_count (h_openCount x + 1) x), f, s. cbn [opened n_heap set_heap]. by rewrite lookup_alter_eq, Hx.
  - exists x, f, s. cbn [opened n_heap set_heap]. by rewrite lookup_alter_ne.
Qed.

Lemma geds_copy_opened sb sk db dk d n h :
  served fuel sb sk d n h -> geds_copy fuel sb sk db dk n = copy_from fuel db dk h (opened h n).
Proof. intros Hs. unfold geds_copy, bind at 1. by rewrite (served_opens _ _ _ _ _ Hs). Qed.

(** [copy] of an object in a local file to a new name. *)
Lemma copy_local_step sb sk db dk src c n m mb :
  served fuel sb sk c n src -> inodes_allocated n -> can_create db dk m mb n ->
  exists n' i, geds_copy fuel sb sk db dk n = Done OkStatus n' /\
    copied db dk c m mb (opened src n) n' /\
    file_at src i c n' /\ src <> n_next n /\ i <> fs_next (n_fs n) /\ (exists x, n_heap n' !! src = Some x /\ h_isValid x = true) /\
    served fuel db dk c n' (n_next n) /\ served fuel sb sk c n' src.
Proof.
  intros Hs Hin Hcc. destruct (served_file _ _ _ _ _ Hs) as [i Hfile].
  pose proof Hs as [Hr Hv Hsort Hm Hfu (x & _ & _ & _ & Hx & Hval & _)].
  assert (Hi : i < fs_next (n_fs n)) by (destruct Hfile as (y & f & s & Hy & Hk & _); by apply (Hin src y f i s)).
  assert (Hlt : (src < n_next n)%nat) by (by apply (nw_heap n (cc_wf _ _ _ _ _ Hcc) src x)).
  pose proof (can_create_opened _ _ _ _ src n Hcc) as Hcc'.
  destruct (copy_from_step fuel db dk src (getPath sb sk) c (fun n' => file_at src i c n') (opened src n) m mb Hcc')
    as (n2 & n' & E & C & Hf2 & S2); [lia|done| | | |].
  { cbn [opened n_heap set_heap]. rewrite lookup_alter_eq, Hx. done. }
  { apply local_source; [cbn; lia|cbn; lia|by apply (file_small src i c n)]. }
  { intros n1 C1. apply (file_at_opened src src) in Hfile. destruct Hfile as (y & f & s & Hy & Hk & Hwf & Hd).
    exists y, f, s. rewrite (cr_heap _ _ _ _ C1), (cr_inodes _ _ _ _ C1) by (cbn; lia). done. }
  destruct (co_others _ _ _ _ _ _ _ C src (with_count (h_openCount x + 1) x)) as (xs & Hxs & Hvs).
  { cbn [opened n_heap set_heap]. by rewrite lookup_alter_eq, Hx. }
  pose proof C as [Cst _ Ck _ Ch Cf (xd & Hxd & Hvd) _].
  assert (Hmne : getPath db dk <> getPath sb sk) by (pose proof (cc_new _ _ _ _ _ Hcc); congruence).
  assert (Hsrc : file_at src i c n') by (by apply (file_at_settles src i c n2)).
  assert (Hst : n_state n' = Running) by (rewrite Cst; done).
  exists n', i. split_and!; [by rewrite (geds_copy_opened _ _ _ _ c _ src)|exact C|exact Hsrc|lia|lia| | |].
  - exists xs. split; [done|]. by rewrite Hvs.
  - apply (served_of_file db dk c n' (n_next n) (fs_next (n_fs n)) xd); [done|by apply Hcc| | |lia|exact Cf|done..].
    + rewrite Ch. by apply massign_sorted.
    + rewrite Ch. apply mfind_massign_eq.
  - apply (served_of_file sb sk c n' src i xs); [done..| | |lia|done|done|by rewrite Hvs].
    + rewrite Ch. by apply massign_sorted.
    + rewrite Ch, mfind_massign_ne by done. done.
Qed.

(** Dropping the reference to a local file leaves the other handles and all
    bytes. *)
Lemma drop_local h i d n :
  file_at h i d n ->
  exists n', drop_ref h n = Done tt n' /\ same_service n n' /\
    (interrupts (n_kernel n') <= interrupts (n_kernel n))%nat /\
    (forall h', h' <> h -> n_heap n' !! h' = n_heap n !! h') /\
    (forall i', inode_data i' (n_fs n') = inode_data i' (n_fs n)).
Proof.
  intros (x & f & s & Hx & Hk & _). unfold drop_ref. cbn [release]. rewrite Hx.
  destruct (referenced h n); [by exists n|]. unfold bind, modify. rewrite Hk.
  set (n1 := set_heap _ _ n).
  assert (Hd : forall h', h' <> h -> n_heap n1 !! h' = n_heap n !! h') by (intros; by apply lookup_delete_ne).
  destruct (0 <=? lf_fd f); [|by exists n1]. unfold removeFile.
  pose proof (call_fair (n_kernel n1)) as Hc. change (n_kernel n1) with (n_kernel n) in *.
  destruct (call (n_kernel n)) as [k [r|e]]; eexists; (split; [done|]); (split; [done|]); cbn; (split; [lia|done]).
Qed.

(** The deletion in the object store, whose result is only logged. *)
Lemma s3_delete_rest (c : bool) b k n :
  exists n1, (if c then let* _ := s3_call b (s3_deleteObject b k) in ret tt else ret tt) n = Done tt n1 /\
    n_mdw n1 = n_mdw n /\ n_state n1 = n_state n /\ n_fileHandles n1 = n_fileHandles n /\
    n_kernel n1 = n_kernel n /\ n_heap n1 = n_heap n /\ n_fs n1 = n_fs n.
Proof.
  destruct c; [|by exists n]. unfold bind, s3_call. destruct (s3_deleteObject b k _) as [s r]. by eexists.
Qed.

(** [deleteObject] of a local object: only its handle and its key are gone. *)
Lemma delete_step b k h i d n m mb :
  is_connected (n_md n) = true -> svc_abs (n_mdw n) m -> m !! b = Some mb ->
  sorted (n_fileHandles n) -> mfind (getPath b k) (n_fileHandles n) = Some h -> file_at h i d n ->
  exists n', geds_deleteObject b k n = Done OkStatus n' /\
    svc_abs (n_mdw n') (<[b := delete k mb]> m) /\ n_state n' = n_state n /\
    n_fileHandles n' = merase (getPath b k) (n_fileHandles n) /\
    (interrupts (n_kernel n') <= interrupts (n_kernel n))%nat /\
    (forall h', h' <> h -> n_heap n' !! h' = n_heap n !! h') /\
    (forall i', inode_data i' (n_fs n') = inode_data i' (n_fs n)).
Proof.
  intros Hc Ha Hm Hs Hf Hfile. unfold geds_deleteObject. unfold bind at 1.
  destruct (md_delete b k n m mb Hc Ha Hm) as (c & w & st & -> & _ & Ha' & Hst).
  rewrite (proceed _ Hst). unfold bind at 1, gets. unfold bind at 1.
  set (n0 := set_md c w n).
  destruct (s3_delete_rest (is_ok (stores_get b (n_objectStores n0)) && negb (starts_with CacheBlockMarker k)) b k n0)
    as (n1 & -> & Hw & Hst1 & Hfh & Hk & Hh & Hfs). subst n0. cbn [n_mdw n_state n_fileHandles n_kernel n_heap n_fs set_md] in *.
  unfold bind at 1, gets. unfold bind at 1, modify.
  unfold bind at 1, cm_get, cm_remove. rewrite Hfh, Hf. cbn [fst].
  destruct (drop_local h i d (set_fileHandles (merase (getPath b k) (n_fileHandles n)) n1)) as (n2 & -> & S & Hk2 & Hh2 & Hi2).
  { destruct Hfile as (x & f & s & Hx & Hkx & Hwf & Hd). exists x, f, s. cbn [n_heap n_fs set_fileHandles].
    by rewrite Hh, Hfs. }
  exists n2. split; [done|]. rewrite (sm_mdw _ _ S), (sm_state _ _ S), (sm_handles _ _ S).
  cbn [n_mdw n_state n_fileHandles n_kernel n_heap n_fs set_fileHandles] in *. rewrite Hw, Hst1, Hk, Hh, Hfs in *.
  split_and!; done.
Qed.
End objects.

(** ** Properties *)

(** C6: a copy of an object is a new object with the same bytes. When the source
    is in a local file of a running process and the destination is a valid, unused
    name, [copy] returns OK; the metadata store then maps the destination to this
    host and the size of the source and is unchanged elsewhere, opening and
    reading the destination gives the bytes of the source, opening and reading
    the source still does, and no other handle is affected. *)
Theorem geds_copy_exact (W X K T : Type) `{MDService W} `{S3Client X} `{KernelFair K} `{Transfers T}
    fuel sb sk db dk src c (n : Node W X K T) m mb :
  served fuel sb sk c n src -> inodes_allocated n -> can_create db dk m mb n ->
  exists n', geds_copy fuel sb sk db dk n = Done OkStatus n' /\
    svc_abs (n_mdw n') (<[db := <[dk := mkInfo (n_hostURI n) (len c) (len c) None]> mb]> m) /\
    reads_back fuel db dk c n' /\ reads_back fuel sb sk c n' /\
    (forall q, q <> getPath db dk -> mfind q (n_fileHandles n') = mfind q (n_fileHandles n)).
Proof.
  intros Hs Hin Hcc. destruct (copy_local_step fuel sb sk db dk src c n m mb Hs Hin Hcc)
    as (n' & i & E & [_ _ _ Ca Ch _ _ _] & _ & _ & _ & _ & Sd & Ss).
  exists n'. split; [done|]. split; [exact Ca|].
  split; [by apply (served_reads_back fuel db dk c n' (n_next n))|].
  split; [by apply (served_reads_back fuel sb sk c n' src)|].
  intros q Hq. rewrite Ch. by apply mfind_massign_ne.
Qed.

(** C7: a rename moves an object. Under the same conditions [rename] returns OK;
    in the metadata store the source is gone, the destination maps to this host
    and the size, and nothing else changed; the process has no handle of the
    source any more and all others, and opening and reading the destination
    gives the bytes the source had. *)
Theorem geds_rename_exact (W X K T : Type) `{MDService W} `{S3Client X} `{KernelFair K} `{Transfers T}
    fuel sb sk db dk src c (n : Node W X K T) m mb ms :
  served fuel sb sk c n src -> inodes_allocated n -> can_create db dk m mb n -> m !! sb = Some ms ->
  exists n' m', geds_rename fuel sb sk db dk n = Done OkStatus n' /\ svc_abs (n_mdw n') m' /\
    (forall b k, entry m' b k =
       if decide (b = sb /\ k = sk) then None
       else if decide (b = db /\ k = dk) then Some (mkInfo (n_hostURI n) (len c) (len c) None)
       else entry m b k) /\
    reads_back fuel db dk c n' /\
    (forall q, q <> getPath db dk ->
       mfind q (n_fileHandles n') = if decide (q = getPath sb sk) then None else mfind q (n_fileHandles n)).
Proof.
  intros Hs Hin Hcc Hms. destruct (copy_local_step fuel sb sk db dk src c n m mb Hs Hin Hcc)
    as (n1 & i & E & C & Hf & Hsd & Hi & Hval & Sd & Ss).
  pose proof C as [_ Cmd Ck Ca Ch Cf (xd & Hxd & Hvd) _]. set (o := mkInfo _ _ _ _) in *.
  set (m1 := <[db := <[dk := o]> mb]> m) in *.
  assert (Hms1 : exists ms1, m1 !! sb = Some ms1).
  { subst m1. destruct (decide (db = sb)) as [->|Hne]; [rewrite lookup_insert_eq; by eexists|].
    rewrite lookup_insert_ne by done. by exists ms. }
  destruct Hms1 as [ms1 Hms1].
  assert (Hc1 : is_connected (n_md n1) = true) by (rewrite Cmd; apply Hcc).
  destruct (delete_step sb sk src i c n1 m1 ms1 Hc1 Ca Hms1 (sv_sorted _ _ _ _ _ _ Ss) (sv_registered _ _ _ _ _ _ Ss) Hf)
    as (n2 & E2 & Ha2 & Hs2 & Hh2 & Hk2 & Hp2 & Hi2).
  assert (Hne : getPath db dk <> getPath sb sk).
  { intros Heq. pose proof (cc_new _ _ _ _ _ Hcc) as Hn. rewrite Heq, (sv_registered _ _ _ _ _ _ Hs) in Hn. done. }
  assert (Hf2 : file_at (n_next n) (fs_next (n_fs n)) c n2).
  { destruct Cf as (x & f & s & Hx & Hk & Hwf & Hd). exists x, f, s. by rewrite Hp2, Hi2. }
  exists n2, (<[sb := delete sk ms1]> m1). split; [|split; [exact Ha2|split; [|split]]].
  - unfold geds_rename, bind. rewrite E. change (ok OkStatus) with true. exact E2.
  - intros b k. rewrite entry_remove by done. subst m1. by rewrite entry_put by apply Hcc.
  - apply (served_reads_back fuel db dk c n2 (n_next n)).
    pose proof (sv_sorted _ _ _ _ _ _ Ss) as Hsrt.
    apply (served_of_file fuel db dk c n2 (n_next n) (fs_next (n_fs n)) xd); try done.
    + rewrite Hs2. apply Ss.
    + apply Hcc.
    + rewrite Hh2. by apply merase_sorted.
    + rewrite Hh2, mfind_merase by done. rewrite decide_False by done. apply Sd.
    + pose proof (sv_fuel _ _ _ _ _ _ Sd). lia.
    + by rewrite Hp2.
  - intros q Hq. rewrite Hh2, mfind_merase by apply Ss. rewrite Ch.
    repeat case_decide; subst; try done. by apply mfind_massign_ne.
Qed.

(** Copying or renaming onto an object that exists locally destroys it. The
    call returns AlreadyExists and leaves the metadata store and the handles as
    they were, but the bytes of the destination are gone and its file name is
    removed, so that reading the destination, which is announced with its old
    size, returns nothing. When source and destination are the same object, this
    is the object itself. *)
Theorem copy_existing_destroys (W X K T : Type) `{MDService W} `{S3Client X} `{KernelFair K} `{Transfers T}
    fuel sb sk b k src c h x f i s pos cnt (n : Node W X K T) :
  served fuel sb sk c n src -> node_wf n -> ok (isValid b k) = true ->
  cs_exists b (n_knownBuckets n) = true -> interrupts (n_kernel n) = 0%nat ->
  mfind (getPath b k) (n_fileHandles n) = Some h ->
  n_heap n !! h = Some x -> h_kind x = KLocal f i s ->
  snd (getLocalPath (n_pathPrefix n) b k (n_names n)) = lf_path f ->
  fs_names (n_fs n) !! lf_path f = Some i ->
  0 <= pos < lf_size f -> lf_size f < INT64_MAX -> 0 < cnt ->
  exists st n' n'',
    geds_copy fuel sb sk b k n = Done st n' /\ geds_rename fuel sb sk b k n = Done st n' /\
    st = AlreadyExistsError ("The file " ++ name (getPath b k) ++ "already exists!") /\
    n_mdw n' = n_mdw n /\ n_fileHandles n' = n_fileHandles n /\
    inode_data i (n_fs n') = [] /\ fs_names (n_fs n') !! lf_path f = None /\
    gf_readBytes fuel h pos cnt n' = Done (Value (0, [])) n''.
Proof.
  intros Hs Hw Hv Hb Hk Hm Hh Hx Hp Hn Hpos Hsz Hcnt. set (st := AlreadyExistsError _).
  pose proof (create_existing b k h (opened src n) (node_wf_opened src n Hw) (sv_running _ _ _ _ _ _ Hs) Hv Hb Hk Hm) as Hc.
  cbn [opened n_pathPrefix n_names n_fs set_heap set_filesOpened] in Hc. fold (opened src n) in Hc.
  destruct (getLocalPath (n_pathPrefix n) b k (n_names n)) as [names p]. cbn [snd] in Hp. subst p.
  destruct Hc as (kern & fs & Hkern & E & Hi). rewrite Hn in Hi. cbn [default] in Hi.
  set (n1 := set_fs _ _ _) in E.
  assert (Hd1 : inode_data i (n_fs n1) = []) by (unfold inode_data; cbn; by rewrite Hi, lookup_insert_eq).
  destruct (sv_file _ _ _ _ _ _ Hs) as (y & g & j & s' & Hy & Hval & Hyk & Hwf & _).
  destruct (close_registered (getPath sb sk) src n1) as (n2 & E2 & S2 & W2);
    [apply Hs|apply Hs|cbn [n1 n_heap set_fs set_heap opened]; rewrite lookup_alter_eq, Hy; done|].
  assert (Ecopy : geds_copy fuel sb sk b k n = Done st n2).
  { rewrite (geds_copy_opened fuel sb sk b k c n src Hs). unfold copy_from, geds_create.
    unfold bind at 1. unfold bind at 1. rewrite E. unfold ret at 1. unfold bind at 1. by rewrite E2. }
  assert (Hhx : exists x2 sl, n_heap n2 !! h = Some x2 /\ h_kind x2 = KLocal f i sl).
  { assert (Hh1 : exists x1, n_heap n1 !! h = Some x1 /\ h_kind x1 = KLocal f i s).
    { cbn [n1 n_heap set_fs set_heap opened]. rewrite lookup_alter. case_decide; [subst; rewrite Hh; by eexists|by exists x]. }
    destruct Hh1 as (x1 & Hx1 & Hk1). by apply (local_settles h n1 n2 x1 f i s). }
  destruct Hhx as (x2 & sl & Hx2 & Hk2).
  pose proof (sv_fuel _ _ _ _ _ _ Hs) as Hfu.
  assert (Hk2' : interrupts (n_kernel n2) = 0%nat) by (by rewrite (se_kernel _ _ S2)).
  destruct (lf_readBytes_emptied fuel f pos cnt (n_kernel n2) Hk2') as (k' & Er);
    [lia|done|unfold two64, INT64_MAX in *; lia..|].
  exists st, n2. eexists. split; [exact Ecopy|]. split; [|split; [done|]].
  { unfold geds_rename, bind. rewrite Ecopy. unfold st, AlreadyExistsError. by rewrite ok_error. }
  rewrite W2, (se_handles _ _ S2), (se_fs _ _ S2). split; [done|]. split; [done|]. split; [exact Hd1|]. split.
  { cbn. apply lookup_delete_eq. }
  unfold gf_readBytes, DEPTH. cbn [h_readBytes]. unfold bind at 1, the_handle. rewrite Hx2, Hk2. unfold local_readBytes.
  apply (local_update_step h _ n2 x2 f i sl (with_data [] f) k'); [done|done|].
  rewrite (se_fs _ _ S2). fold (n_fs n1). rewrite Hd1. by rewrite Er.
Qed.

(** ** Copying from another process *)

Section remote.
Context {W X K T : Type} `{MDService W} `{S3Client X} `{KernelFair K} `{TransferHosts T}.
Context (fuel : nat).
Implicit Types n : Node W X K T.

Lemma node_wf_remote_opened b k a i cl w ft t n :
  node_wf n -> node_wf (remote_opened b k a i cl w ft t n).
Proof.
  intros [W1 W2 W3]. constructor.
  - by apply massign_sorted.
  - apply Forall_forall. intros [q h] Hin. apply list_elem_of_In in Hin.
    change (n_fileHandles (remote_opened b k a i cl w ft t n))
      with (massign (getPath b k) (S (n_next n)) (n_fileHandles n)) in Hin.
    apply mfind_Some in Hin; [|by apply massign_sorted]. cbn [snd].
    change (n_next (remote_opened b k a i cl w ft t n)) with (S (S (n_next n))).
    rewrite mfind_massign in Hin. case_decide; [injection Hin as <-; lia|].
    apply mfind_Some in Hin; [|done]. pose proof (Forall_elem _ _ _ W2 Hin). cbn [snd] in *. lia.
  - intros h x. change (n_next (remote_opened b k a i cl w ft t n)) with (S (S (n_next n))).
    destruct (remote_opened_heap b k a i cl w ft t n) as [E1 E2].
    destruct (decide (h = n_next n)) as [->|N1]; [rewrite E1; intros [= <-]; split; [lia|constructor]|].
    destruct (decide (h = S (n_next n))) as [->|N2].
    { rewrite E2. intros [= <-]. split; [lia|]. repeat constructor. }
    unfold remote_opened. cbn [n_heap set_heap set_filesOpened set_fileHandles].
    rewrite lookup_alter_ne, !lookup_insert_ne by done. intros Hx. destruct (W3 h x Hx) as [Hl Hc].
    split; [lia|]. eapply List.Forall_impl; [|exact Hc]. simpl. lia.
Qed.

Lemma can_create_remote_opened b k a i cl w ft t db dk m mb n :
  can_create db dk m mb n -> svc_abs w m -> is_connected cl = true -> getPath db dk <> getPath b k ->
  can_create db dk m mb (remote_opened b k a i cl w ft t n).
Proof.
  intros [] Hw Hcl Hne. constructor; try done; [by apply node_wf_remote_opened|].
  change (n_fileHandles (remote_opened b k a i cl w ft t n))
    with (massign (getPath b k) (S (n_next n)) (n_fileHandles n)).
  by rewrite mfind_massign_ne by done.
Qed.
End remote.

(** A copy of an object that another process has: when the metadata store says
    that the source is at a host which is up and has it, [copy] to an unused name
    connects to the host, fetches the object and makes this process the host of
    the destination: it returns OK, the store maps the destination to this host,
    and opening and reading the destination gives the bytes, now from a local
    file; the other process still has the source. *)
Theorem geds_copy_remote (W X K T : Type) `{MDService W} `{S3Client X} `{KernelFair K} `{TransferHosts T}
    fuel sb sk db dk c a i (n : Node W X K T) m mb ms :
  can_create db dk m mb n -> getPath db dk <> getPath sb sk ->
  ok (isValid sb sk) = true -> mfind (getPath sb sk) (n_fileHandles n) = None ->
  coherent (n_md n) m -> m !! sb = Some ms -> ms !! sk = Some i ->
  location i = "geds://" ++ a -> a <> [] -> osize i = len c -> len c < INT64_MAX ->
  (cm_get a (n_fileTransfers n) = Some tt /\ th_connected a (n_transfers n)) \/
  (cm_get a (n_fileTransfers n) = None /\ th_open a (n_transfers n)) ->
  th_has a sb sk c (n_transfers n) -> (length c < fuel)%nat ->
  exists n', geds_copy fuel sb sk db dk n = Done OkStatus n' /\
    svc_abs (n_mdw n') (<[db := <[dk := mkInfo (n_hostURI n) (len c) (len c) None]> mb]> m) /\
    reads_back fuel db dk c n' /\ th_has a sb sk c (n_transfers n').
Proof.
  intros Hcc Hne Hv Hf Hco Hms Hi Hloc Ha Hsz Hsm Hft Hhas Hfu.
  destruct (open_remote_step sb sk a i m ms n (cc_running _ _ _ _ _ Hcc) Hv Hf (cc_connected _ _ _ _ _ Hcc)
              (cc_store _ _ _ _ _ Hcc) Hco Hms Hi Hloc Ha Hft) as (cl & w & ft & t & E & Hw & Hcl & Hconn & Hkc & Hkh).
  set (n1 := remote_opened sb sk a i cl w ft t n) in *.
  destruct (remote_opened_heap sb sk a i cl w ft t n) as [Hr Hs]. fold n1 in Hr, Hs.
  assert (Hcc1 : can_create db dk m mb n1) by (by apply can_create_remote_opened).
  destruct (copy_from_step fuel db dk (S (n_next n)) (getPath sb sk) c
              (fun n' => remote_at (S (n_next n)) (n_next n) a sb sk c n') n1 m mb Hcc1 Hfu)
    as (n2 & n' & E2 & C & HP & St).
  - apply mfind_massign_eq.
  - by rewrite Hs.
  - apply remote_source; [cbn; lia|cbn; lia|done].
  - intros n'' C. exists (with_count 1 (newHandle sb sk None (KReloc (n_next n)))), (newHandle sb sk (metadata i) (KRemote a i)).
    rewrite !(cr_heap _ _ _ _ C) by (cbn; lia). destruct (cr_rest _ _ _ _ C) as (_ & _ & _ & _ & _ & ->).
    split_and!; try done; [by exists i|by apply Hkh].
  - exists n'. split; [unfold geds_copy, bind at 1; by rewrite E|]. split; [apply C|].
    destruct HP as (_ & _ & _ & _ & _ & _ & _ & _ & _ & Hh). split; [|by rewrite (se_transfers _ _ St)].
    destruct (co_valid _ _ _ _ _ _ _ C) as (xd & Hxd & Hvd).
    apply (served_reads_back fuel db dk c n' (n_next n1)).
    apply (served_of_file fuel db dk c n' (n_next n1) (fs_next (n_fs n1)) xd); try done.
    + rewrite (co_state _ _ _ _ _ _ _ C). apply Hcc.
    + apply Hcc.
    + rewrite (co_handles _ _ _ _ _ _ _ C). apply massign_sorted, Hcc1.
    + rewrite (co_handles _ _ _ _ _ _ _ C). apply mfind_massign_eq.
    + rewrite (co_kernel _ _ _ _ _ _ _ C). lia.
    + apply C.
Qed.

(** ** Witnesses *)

#[local] Existing Instance the_stub.
#[local] Existing Instance the_service.

Lemma full_served : served 30 "bkt" "dir/key" "hello" full_node 0.
Proof.
  constructor; [reflexivity..|apply stored_node_wf|reflexivity|simpl; lia|].
  eexists _, (mkLocalFile "/tmp/geds/bkt/0" 0 5 []), 0, false.
  split; [apply lookup_singleton_eq|]. split; [reflexivity|]. split; [reflexivity|]. split; [|reflexivity].
  constructor; [simpl; lia|reflexivity|vm_compute; reflexivity].
Qed.

Lemma full_allocated : inodes_allocated full_node.
Proof.
  intros h x f i s Hx Hk. cbn [full_node n_heap set_md stored_node] in Hx. apply lookup_singleton_Some in Hx as [<- <-]. injection Hk as <- <- <-. reflexivity.
Qed.

Lemma full_can_create : can_create "bkt" "copy" demo_state demo_bucket full_node.
Proof.
  constructor; try reflexivity.
  - destruct stored_node_wf. by constructor.
  - exact demo_store_abs.
  - split; reflexivity.
Qed.

Lemma geds_copy_exact_witness :
  exists n', geds_copy 30 "bkt" "dir/key" "bkt" "copy" full_node = Done OkStatus n' /\
    reads_back 30 "bkt" "copy" "hello" n' /\ reads_back 30 "bkt" "dir/key" "hello" n'.
Proof.
  destruct (geds_copy_exact Server MemS3.world nat unit 30 "bkt" "dir/key" "bkt" "copy" 0 "hello" full_node
              demo_state demo_bucket full_served full_allocated full_can_create) as (n' & E & _ & R1 & R2 & _).
  exists n'. split; [exact E|]. split; [exact R1|exact R2].
Defined.

Lemma geds_rename_exact_witness :
  exists n' m', geds_rename 30 "bkt" "dir/key" "bkt" "copy" full_node = Done OkStatus n' /\
    svc_abs (n_mdw n') m' /\ entry m' "bkt" "dir/key" = None /\
    entry m' "bkt" "copy" = Some (mkInfo "geds://h:1" 5 5 None) /\ reads_back 30 "bkt" "copy" "hello" n'.
Proof.
  destruct (geds_rename_exact Server MemS3.world nat unit 30 "bkt" "dir/key" "bkt" "copy" 0 "hello" full_node
              demo_state demo_bucket demo_bucket full_served full_allocated full_can_create (lookup_insert_eq _ _ _))
    as (n' & m' & E & Ha & He & R & _).
  exists n', m'. split; [exact E|]. split; [exact Ha|]. split; [|split; [|exact R]].
  - rewrite He. reflexivity.
  - rewrite He. reflexivity.
Defined.

(** The object is renamed onto itself. *)
Lemma copy_existing_destroys_witness :
  exists st n' n'', geds_rename 30 "bkt" "dir/key" "bkt" "dir/key" full_node = Done st n' /\
    code st = kAlreadyExists /\ n_mdw n' = n_mdw full_node /\
    gf_readBytes 30 0 0 5 n' = Done (Value (0, [])) n''.
Proof.
  destruct (copy_existing_destroys Server MemS3.world nat unit 30 "bkt" "dir/key" "bkt" "dir/key" 0 "hello" 0
              (newHandle "bkt" "dir/key" None (KLocal (mkLocalFile "/tmp/geds/bkt/0" 0 5 []) 0 false))
              (mkLocalFile "/tmp/geds/bkt/0" 0 5 []) 0 false 0 5 full_node full_served
              (cc_wf _ _ _ _ _ full_can_create))
    as (st & n' & n'' & _ & E & Hst & Hw & _ & _ & _ & Er); try reflexivity; try (simpl; unfold INT64_MAX; lia).
  exists st, n', n''. split; [exact E|]. split; [rewrite Hst; apply code_error|]. split; [exact Hw|exact Er].
Defined.

Definition demo_hosts : @TransferHosts (Net Server MemS3.world nat unit) (tcp 30 "pppp" 1) :=
  tcp_hosts 30 "pppp" 1 5 ltac:(reflexivity) ltac:(lia) ltac:(vm_compute; reflexivity).

Lemma remote_can_create :
  can_create "bkt" "copy" (<[("bkt" : str) := <[("dir/key" : str) := remote_info]> ∅]> {[("bkt" : str) := ∅]})
    (<[("dir/key" : str) := remote_info]> ∅) remote_client.
Proof.
  constructor; try reflexivity.
  - constructor; [done|constructor|]. intros h x Hx. cbn [remote_client n_heap] in Hx. by rewrite lookup_empty in Hx.
  - exact remote_store_abs.
  - split; reflexivity.
Qed.

Lemma demo_tcp_has : tcp_has 30 5 demo_address "bkt" "dir/key" "hello" demo_net.
Proof. split; [exact demo_has|]. split; [simpl; lia|]. split; [repeat constructor|by_decision]. Qed.

Lemma geds_copy_remote_witness :
  exists n', geds_copy (H2 := tcp 30 "pppp" 1) 30 "bkt" "dir/key" "bkt" "copy" remote_client = Done OkStatus n' /\
    reads_back (H4 := tcp 30 "pppp" 1) 30 "bkt" "copy" "hello" n'.
Proof.
  destruct (geds_copy_remote Server MemS3.world nat (Net Server MemS3.world nat unit) (H5 := demo_hosts)
              30 "bkt" "dir/key" "bkt" "copy" "hello" demo_address remote_info remote_client
              (<[("bkt" : str) := <[("dir/key" : str) := remote_info]> ∅]> {[("bkt" : str) := ∅]})
              (<[("dir/key" : str) := remote_info]> ∅) (<[("dir/key" : str) := remote_info]> ∅)
              remote_can_create ltac:(intros [=]) eq_refl eq_refl (empty_coherent _ _ _) (lookup_insert_eq _ _ _)
              (lookup_insert_eq _ _ _) eq_refl ltac:(intros [=]) eq_refl eq_refl
              (or_intror (conj eq_refl (conj demo_open (conj demo_accepting demo_socket))))
              demo_tcp_has ltac:(simpl; lia))
    as (n' & E & _ & R & _).
  exists n'. split; [exact E|exact R].
Defined.
