(* ===== verification/TransferServer.v ===== *)
(** * The server of a process

    src/src/libgeds/Server.cpp and TcpServer.cpp: the service that tells other
    processes where transfers are served, and the server that accepts them. The
    operating system decides which ports can be bound and which interfaces there
    are; it is an argument of [server_start]. *)

From Stdlib Require Import Ascii ZArith Lia.
From stdpp Require Import base gmap sets list strings numbers.
From S2P Require Import Prelude Bytes Decimal Status StdMap Path Object Node.
From S2P Require Import TcpDataTransport TcpConnection TcpClient.

Open Scope Z_scope.
Open Scope list_scope.

(** ** The TCP server *)

Record TcpServer := mkTcpServer {
  ts_port : Z;
  ts_started : bool;
  ts_accepting : bool;
  ts_threads : Z
}.

(** The constructor binds the port; its exception has a text. *)
Definition newTcpServer (bound : str + unit) (port : Z) : outcome TcpServer :=
  match bound with
  | inl what => Throw (runtime_error what)
  | inr _ => Ret (mkTcpServer (u16 port) false false 0)
  end.

Definition tcpserver_start (hw : Z) (s : TcpServer) : TcpServer * Status :=
  if ts_started s then (s, UnknownError "Already started!")
  else (mkTcpServer (ts_port s) true true (ts_threads s + MAXIMUM_TCP_THREADS hw), OkStatus).

(** [stop] closes the acceptor and joins the threads. *)
Definition tcpserver_stop (s : TcpServer) : TcpServer := mkTcpServer (ts_port s) false false 0.

(** A connection arrives: served, and the next one is awaited, unless accepting
    failed. *)
Definition tcpserver_accept (accepted : option (list tx_event)) (s : TcpServer) : TcpServer * option Conn :=
  if negb (ts_accepting s) then (s, None) else
  match accepted with
  | None => (mkTcpServer (ts_port s) (ts_started s) false (ts_threads s), None)
  | Some tx => (s, Some (newConn tx))
  end.

(** ** The server *)

Record Interface := mkInterface {
  if_up : bool;
  if_inet : option str         (** the IPv4 address, if it has one *)
}.

(** [os_grpc p]: the port a gRPC server gets that asks for [p], 0 if it is taken.
    [os_tcp p]: why the port [p] cannot be bound for transfers. *)
Record OS := mkOS {
  os_grpc : Z -> Z;
  os_tcp : Z -> str + unit;
  os_ifaddrs : option (list Interface)
}.

Definition defaultGEDSPort : Z := 4382.

Record TransferServer := mkTransferServer {
  sv_state : ServiceState;
  sv_hostname : str;
  sv_port : Z;
  sv_tcp : option TcpServer;
  sv_endpoints : list (FileTransferProtocol * str * Z)
}.

Definition newTransferServer (hostname : str) (port : option Z) : TransferServer :=
  let port := default defaultGEDSPort port in
  mkTransferServer Stopped hostname (if port =? 0 then defaultGEDSPort else port) None [].

(** The handler of GetAvailEndpoints. *)
Definition GetAvailEndpoints (s : TransferServer) : list TransportEndpoint :=
  (fun e => mkTransportEndpoint (if bool_decide (e.1.1 = RDMA) then RDMA else Socket) e.1.2 e.2) <$> sv_endpoints s.

(** The [do ... while (selectedPort == 0)] loop. *)
Fixpoint grpc_loop (fuel : nat) (os : OS) (port : Z) : option Z :=
  match fuel with
  | O => None
  | S fuel =>
      let selectedPort := os_grpc os port in
      if selectedPort =? 0 then grpc_loop fuel os (u16 (port + 1)) else Some selectedPort
  end.

(** The loop over ports for transfers: [n] more attempts. A server that could not
    be constructed leaves the pointer as it was. *)
Fixpoint tcp_loop (n : nat) (hw : Z) (os : OS) (port : Z) (tcp : option TcpServer) :
    option TcpServer * Status :=
  let port := port + 1 in
  let '(tcp, status) :=
    match newTcpServer (os_tcp os (u16 port)) port with
    | Ret t => let '(t, st) := tcpserver_start hw t in (Some t, st)
    | Throw (runtime_error what) => (tcp, UnknownError ("Error starting the socket transport " ++ what))
    | _ => (tcp, UnknownError "Error starting the socket transport ")
    end in
  match n with
  | O => (tcp, status)
  | S n => if ok status then (tcp, status) else tcp_loop n hw os port tcp
  end.

(** The addresses that are exported. *)
Definition exported (ifs : list Interface) : list str :=
  omap (fun i => if if_up i then
                   match if_inet i with
                   | Some a => if bool_decide (a = "127.0.0.1") then None else Some a
                   | None => None
                   end
                 else None) ifs.

Definition server_start (fuel : nat) (hw : Z) (os : OS) (s : TransferServer) :
    option (TransferServer * Status) :=
  match sv_state s with
  | Running => Some (s, FailedPreconditionError "The server is already running!")
  | _ =>
      match grpc_loop fuel os (sv_port s) with
      | None => None
      | Some p =>
          let port := u16 p in
          let '(tcp, status) := tcp_loop 9 hw os port (sv_tcp s) in
          let s' := mkTransferServer Running (sv_hostname s) port tcp in
          if negb (ok status) then Some (s' (sv_endpoints s), status) else
          match os_ifaddrs os with
          | None => Some (s' (sv_endpoints s), UnknownError "Could not query iffaddrs.")
          | Some ifs =>
              match tcp with
              | None => None
              | Some t => Some (s' (sv_endpoints s ++ ((fun a => (Socket, a, ts_port t)) <$> exported ifs)), OkStatus)
              end
          end
      end
  end.

(** [stop] uses the TCP server without a check. *)
Definition server_stop (s : TransferServer) : outcome (TransferServer * Status) :=
  match sv_state s with
  | Running =>
      match sv_tcp s with
      | None => Abort
      | Some _ => Ret (mkTransferServer Stopped (sv_hostname s) (sv_port s) None (sv_endpoints s), OkStatus)
      end
  | st => Ret (s, FailedPreconditionError ("The service is " ++ state_name st ++ "."))
  end.

(** The destructor calls [stop]. *)
Definition server_destroy (s : TransferServer) : outcome unit :=
  let! _ := server_stop s in Ret tt.

(** ** Lemmas *)

(** The first port, in the order of the attempts, that can be had. *)
Definition attempt (p : Z) (i : nat) : Z := u16 (p + Z.of_nat i).

Lemma u16_add a b : u16 (u16 a + b) = u16 (a + b).
Proof. unfold u16. apply Zplus_mod_idemp_l. Qed.

Lemma grpc_loop_spec os p k fuel :
  0 <= p < 2 ^ 16 -> (forall i, (i < k)%nat -> os_grpc os (attempt p i) = 0) ->
  os_grpc os (attempt p k) <> 0 -> (k < fuel)%nat ->
  grpc_loop fuel os p = Some (os_grpc os (attempt p k)).
Proof.
  revert p fuel. induction k as [|k IH]; intros p fuel Hp Hz Hk Hf; destruct fuel as [|fuel]; try lia; cbn [grpc_loop].
  - assert (E : attempt p 0 = p) by (unfold attempt, u16; rewrite Z.add_0_r; by apply Z.mod_small).
    rewrite E in *. by rewrite (proj2 (Z.eqb_neq _ _)).
  - assert (E : attempt p 0 = p) by (unfold attempt, u16; rewrite Z.add_0_r; by apply Z.mod_small).
    pose proof (Hz 0%nat ltac:(lia)) as H0. rewrite E in H0. rewrite H0. change (0 =? 0) with true. cbn iota.
    assert (Hs : forall i, attempt (u16 (p + 1)) i = attempt p (S i)).
    { intros i. unfold attempt. rewrite u16_add. f_equal. lia. }
    rewrite (IH (u16 (p + 1))), Hs; try done; [unfold u16; apply Z.mod_pos_bound; lia| | |lia].
    + intros i Hi. rewrite Hs. apply Hz. lia.
    + by rewrite Hs.
Qed.

Lemma tcp_loop_ok n hw os p tcp i :
  (i <= n)%nat -> os_tcp os (attempt (p + 1) i) = inr tt ->
  (forall j, (j < i)%nat -> exists e, os_tcp os (attempt (p + 1) j) = inl e) ->
  exists t, tcp_loop n hw os p tcp = (Some t, OkStatus) /\ ts_port t = attempt (p + 1) i /\ ts_started t = true.
Proof.
  revert p i. induction n as [|n IH]; intros p i Hi Hok Hbad; cbn [tcp_loop].
  - assert (i = 0%nat) as -> by lia. unfold attempt in Hok. rewrite Z.add_0_r in Hok. rewrite Hok.
    eexists. split; [done|]. unfold attempt. by rewrite Z.add_0_r.
  - destruct i as [|i].
    + unfold attempt in Hok. rewrite Z.add_0_r in Hok. rewrite Hok. eexists. split; [done|].
      unfold attempt. by rewrite Z.add_0_r.
    + destruct (Hbad 0%nat ltac:(lia)) as (e & He). unfold attempt in He. rewrite Z.add_0_r in He. rewrite He.
      cbn [newTcpServer]. change (ok (UnknownError _)) with false. cbn iota.
      assert (Hs : forall j, attempt (p + 1 + 1) j = attempt (p + 1) (S j)) by (intros j; unfold attempt; f_equal; lia).
      destruct (IH (p + 1) i) as (t & E & Hp & Ht); [lia|by rewrite Hs| |].
      * intros j Hj. destruct (Hbad (S j) ltac:(lia)) as (e' & He'). exists e'. by rewrite Hs.
      * exists t. by rewrite E, Hp, Hs.
Qed.

Lemma tcp_loop_fail n hw os p tcp :
  (forall j, (j <= n)%nat -> exists e, os_tcp os (attempt (p + 1) j) = inl e) ->
  exists st, tcp_loop n hw os p tcp = (tcp, st) /\ ok st = false.
Proof.
  revert p. induction n as [|n IH]; intros p Hbad; cbn [tcp_loop];
    destruct (Hbad 0%nat ltac:(lia)) as (e & He); unfold attempt in He; rewrite Z.add_0_r in He; rewrite He;
    cbn [newTcpServer]; [by eexists|].
  change (ok (UnknownError _)) with false. cbn iota. apply IH. intros j Hj.
  destruct (Hbad (S j) ltac:(lia)) as (e' & He'). exists e'. unfold attempt in *. rewrite <- He'. do 2 f_equal. lia.
Qed.

(** The addresses of interfaces that are up, less the loopback address. *)
Lemma elem_of_exported a ifs :
  a ∈ exported ifs <-> mkInterface true (Some a) ∈ ifs /\ a <> "127.0.0.1".
Proof.
  unfold exported. rewrite list_elem_of_omap. split.
  - intros ([up inet] & Hi & E). cbn in E. destruct up; [|done]. destruct inet as [b|]; [|done].
    case_bool_decide as Hb; [done|]. by injection E as ->.
  - intros [Hi Ha]. exists (mkInterface true (Some a)). split; [done|]. cbn. by rewrite bool_decide_false.
Qed.

(** ** Properties *)

(** Starting the server of a process. The port is the first one from the
    requested port on, wrapping at 65536, that the system gives. If one of the
    ten ports that follow can be bound for transfers, the start succeeds and
    exports, for every interface that is up, its IPv4 address other than
    127.0.0.1 with that port; the server can then be stopped. If none can be
    bound, the start fails but the server counts as running, and stopping or
    destroying it dereferences a null pointer. *)
Theorem server_start_result fuel hw os hostname port k ifs :
  0 <= default defaultGEDSPort port < 2 ^ 16 ->
  os_ifaddrs os = Some ifs ->
  (k < fuel)%nat ->
  (forall i, (i < k)%nat -> os_grpc os (attempt (sv_port (newTransferServer hostname port)) i) = 0) ->
  os_grpc os (attempt (sv_port (newTransferServer hostname port)) k) <> 0 ->
  let p := u16 (os_grpc os (attempt (sv_port (newTransferServer hostname port)) k)) in
  (forall i, (i <= 9)%nat -> os_tcp os (attempt (p + 1) i) = inr tt ->
     (forall j, (j < i)%nat -> exists e, os_tcp os (attempt (p + 1) j) = inl e) ->
     exists s, server_start fuel hw os (newTransferServer hostname port) = Some (s, OkStatus) /\
       sv_state s = Running /\ sv_port s = p /\
       (forall e, e ∈ GetAvailEndpoints s <->
          te_type e = Socket /\ te_port e = attempt (p + 1) i /\
          mkInterface true (Some (te_address e)) ∈ ifs /\ te_address e <> "127.0.0.1") /\
       exists s', server_stop s = Ret (s', OkStatus) /\ sv_state s' = Stopped) /\
  ((forall i, (i <= 9)%nat -> exists e, os_tcp os (attempt (p + 1) i) = inl e) ->
     exists s st, server_start fuel hw os (newTransferServer hostname port) = Some (s, st) /\
       ok st = false /\ sv_state s = Running /\ server_stop s = Abort /\ server_destroy s = Abort).
Proof.
  intros Hport Hifs Hf Hz Hk p. set (s0 := newTransferServer hostname port) in *.
  assert (Hp0 : 0 <= sv_port s0 < 2 ^ 16).
  { unfold s0, newTransferServer. cbn [sv_port]. destruct (_ =? 0); [|done]. unfold defaultGEDSPort. lia. }
  pose proof (grpc_loop_spec os (sv_port s0) k fuel Hp0 Hz Hk Hf) as Eg.
  assert (Es : forall r, tcp_loop 9 hw os p (sv_tcp s0) = r ->
    server_start fuel hw os s0 =
      let s' := mkTransferServer Running hostname p (fst r) in
      if negb (ok (snd r)) then Some (s' [], snd r) else
      match fst r with
      | None => None
      | Some t => Some (s' ((fun a => (Socket, a, ts_port t)) <$> exported ifs), OkStatus)
      end).
  { intros [tcp st] E. unfold server_start. change (sv_state s0) with Stopped. cbn iota. rewrite Eg. fold p.
    rewrite E, Hifs. done. }
  split.
  - intros i Hi Hok Hbad. destruct (tcp_loop_ok 9 hw os p (sv_tcp s0) i Hi Hok Hbad) as (t & E & Ht & _).
    rewrite (Es _ E). cbn [fst snd]. change (ok OkStatus) with true. cbn [negb]. cbv zeta.
    eexists. split; [done|]. split; [done|]. split; [done|]. split; [|eexists; by split].
    intros [ty ad po]. unfold GetAvailEndpoints. cbn [sv_endpoints te_type te_port te_address].
    rewrite <- list_fmap_compose, list_elem_of_fmap. cbn. setoid_rewrite elem_of_exported. rewrite Ht. split.
    + intros (a & [= -> -> ->] & Ha). by destruct Ha.
    + intros (-> & -> & Ha). by exists ad.
  - intros Hbad. destruct (tcp_loop_fail 9 hw os p (sv_tcp s0) Hbad) as (st & E & Hst).
    rewrite (Es _ E). cbn [fst snd]. rewrite Hst. cbn [negb]. by eexists _, st.
Qed.

(** Port 4382 is taken; the transfers cannot have 4384. *)
Definition demo_os : OS :=
  mkOS (fun p => if p =? 4382 then 0 else p) (fun p => if p =? 4384 then inl ("in use" : str) else inr tt)
    (Some [mkInterface true (Some ("127.0.0.1" : str)); mkInterface false (Some ("10.0.0.9" : str));
           mkInterface true (Some ("10.0.0.1" : str))]).

Lemma server_start_result_witness :
  exists s, server_start 5 4 demo_os (newTransferServer "host" None) = Some (s, OkStatus) /\
    sv_port s = 4383 /\ (mkTransportEndpoint Socket "10.0.0.1" 4385 ∈ GetAvailEndpoints s).
Proof.
  destruct (server_start_result 5 4 demo_os "host" None 1
    [mkInterface true (Some ("127.0.0.1" : str)); mkInterface false (Some ("10.0.0.9" : str));
     mkInterface true (Some ("10.0.0.1" : str))]) as [Hok _].
  - vm_compute. split; [discriminate|reflexivity].
  - reflexivity.
  - lia.
  - intros i Hi. assert (i = 0%nat) as -> by lia. reflexivity.
  - vm_compute. discriminate.
  - destruct (Hok 1%nat) as (s & E & _ & Hp & He & _); [lia|reflexivity| |].
    + intros j Hj. assert (j = 0%nat) as -> by lia. by eexists.
    + exists s. split; [exact E|]. split; [exact Hp|]. apply He. split; [reflexivity|]. split; [reflexivity|].
      split; [right; right; left|discriminate].
Defined.
