(* ===== verification/TcpFraming.v ===== *)
(** * The message transport: messages and sending

    src/src/libgeds/TcpTransport.cpp, TcpTransport.h: processes exchange messages, a header of 32
    bytes, the name of an object and its bytes, over non-blocking sockets. The
    headers and the state machine that sends, [processEndpointSend], which
    continues wherever the socket stopped it. Receiving is in TcpReceive.v; the
    peers, endpoints and requests are in TcpTransport.v. *)

From Stdlib Require Import Ascii ZArith Lia.
From stdpp Require Import base gmap sets list strings numbers.
From S2P Require Import Prelude Bytes Endian Decimal Status StdMap LocalFile ConcurrentMap ConcurrentQueue.
From S2P Require Import TcpDataTransport TcpConnection.

Open Scope Z_scope.
Open Scope list_scope.

(** ** Messages *)

Inductive SockProcessingState := PROC_IDLE | PROC_HDR | PROC_DATA | PROC_FAILED.

#[global] Instance SockProcessingState_eq_dec : EqDecision SockProcessingState.
Proof. solve_decision. Defined.

(** [TcpRpcOp] *)
Definition GET_REQ : Z := 1.
Definition GET_REPLY : Z := 2.
Definition INFO_REQ : Z := 3.
Definition INFO_REPLY : Z := 4.

Record SocketSendWork := mkSendWork {
  sw_objName : str;
  sw_reqId : Z;
  sw_va : Z;
  sw_in_fd : Z;
  sw_off : Z;
  sw_len : Z;
  sw_type : Z;
  sw_error : Z
}.

Record SocketRecvWork := mkRecvWork {
  rw_reqId : Z;
  rw_va : Z;
  rw_len : Z
}.

Record TcpCtlHdr := mkHdr {
  hd_reqid : Z;
  hd_datalen : Z;
  hd_offset : Z;
  hd_hdrlen : Z;
  hd_type : Z;
  hd_error : Z;
  hd_pad : Z
}.

Definition HDR_SIZE : Z := 32.
Definition RPC_TCP_MAX_HDR : Z := 4096 + HDR_SIZE.

(** The structure in memory; its members leave no gaps. *)
Definition hdr_bytes (h : TcpCtlHdr) : str :=
  le_bytes 8 (hd_reqid h) ++ le_bytes 8 (hd_datalen h) ++ le_bytes 8 (hd_offset h) ++
  le_bytes 2 (hd_hdrlen h) ++ le_bytes 1 (hd_type h) ++ le_bytes 1 (hd_error h) ++ le_bytes 4 (hd_pad h).

Definition hdr_of (s : str) : TcpCtlHdr :=
  mkHdr (le_value (slice 0 8 s)) (le_value (slice 8 8 s)) (le_value (slice 16 8 s))
    (le_value (slice 24 2 s)) (le_value (slice 26 1 s)) (le_value (slice 27 1 s)) (le_value (slice 28 4 s)).

(** ** Sending *)

(** [struct TcpSendState] *)
Record SendState := mkSend {
  s_state : SockProcessingState;
  s_hdr : TcpCtlHdr;
  s_va : Z;
  s_in_fd : Z;
  s_objName : str;
  s_progress : Z
}.

(** The sending half of an endpoint, with the queue of its peer. *)
Record Tx := mkTx {
  tx_ctx : SendState;
  tx_queue : list SocketSendWork;
  tx_sock : TcpSocket;
  tx_bytes : Z;
  tx_released : list Z         (** buffers given back to the transport *)
}.

Definition set_state (st : SockProcessingState) (c : SendState) : SendState :=
  mkSend st (s_hdr c) (s_va c) (s_in_fd c) (s_objName c) (s_progress c).
Definition set_progress (p : Z) (c : SendState) : SendState :=
  mkSend (s_state c) (s_hdr c) (s_va c) (s_in_fd c) (s_objName c) p.
Definition with_ctx (c : SendState) (x : Tx) : Tx :=
  mkTx c (tx_queue x) (tx_sock x) (tx_bytes x) (tx_released x).
Definition with_sock (s : TcpSocket) (x : Tx) : Tx :=
  mkTx (tx_ctx x) (tx_queue x) s (tx_bytes x) (tx_released x).
Definition add_bytes (n : Z) (x : Tx) : Tx :=
  mkTx (tx_ctx x) (tx_queue x) (tx_sock x) (u64 (tx_bytes x + n)) (tx_released x).
Definition add_released (a : Z) (x : Tx) : Tx :=
  mkTx (tx_ctx x) (tx_queue x) (tx_sock x) (tx_bytes x) (tx_released x ++ [a]).

(** [writev] *)
Definition writev (bytes : str) (s : TcpSocket) : TcpSocket * sys_result :=
  match sk_tx s with
  | [] => (mkTcpSocket (sk_sent s ++ bytes) [], Sys (len bytes))
  | TxTake n :: tx => (mkTcpSocket (sk_sent s ++ take (S n) bytes) tx, Sys (len (take (S n) bytes)))
  | TxIntr :: tx => (mkTcpSocket (sk_sent s) tx, SysError EINTR)
  | TxAgain :: tx => (mkTcpSocket (sk_sent s) tx, SysError EWOULDBLOCK)
  | TxBroken n e :: tx => (mkTcpSocket (sk_sent s) tx, SysError e)
  end.

(** Starting a new piece of work. *)
Definition load_work (w : SocketSendWork) (c : SendState) : SendState :=
  mkSend PROC_HDR
    (mkHdr (sw_reqId w) (sw_len w) (sw_off w) (u16 (HDR_SIZE + len (sw_objName w))) (sw_type w mod 256)
       (sw_error w mod 256) (hd_pad (s_hdr c)))
    (sw_va w) (sw_in_fd w) (sw_objName w) 0.

(** What the two buffers of the header phase hold. *)
Definition header_rest (c : SendState) : str :=
  let hdrlen := hd_hdrlen (s_hdr c) in
  if s_progress c <? HDR_SIZE then
    slice (s_progress c) (HDR_SIZE - s_progress c) (hdr_bytes (s_hdr c)) ++
    (if HDR_SIZE <? hdrlen then slice 0 (hdrlen - HDR_SIZE) (s_objName c) else [])
  else
    if HDR_SIZE <? hdrlen then
      let name_off := s_progress c - HDR_SIZE in
      slice name_off (hdrlen - (HDR_SIZE + name_off)) (s_objName c)
    else [].

(** [while (sent > 0)]: go on, or leave the loop with a count that is not negative. *)
Definition after (sent : Z) (x : Tx) : Tx * option bool :=
  if 0 <? sent then (x, None) else (x, Some true).

(** [break] after a call that failed. *)
Definition send_failed (e : Z) (x : Tx) : Tx * option bool :=
  if e =? EWOULDBLOCK then (x, Some true)
  else (with_ctx (set_state PROC_FAILED (tx_ctx x)) x, Some false).

Section send.
(** The bytes at an address, and of the file behind a descriptor. *)
Context (mem file : Z -> str).

(** The rest of the loop body: the data of a reply. *)
Definition send_data (sent : Z) (x : Tx) : Tx * option bool :=
  let c := tx_ctx x in
  let idle := with_ctx (set_state PROC_IDLE c) x in
  if negb (hd_type (s_hdr c) =? GET_REPLY) || negb (hd_error (s_hdr c) =? 0) then after sent idle else
  let data_to_send := i64 (hd_datalen (s_hdr c) - s_progress c) in
  if data_to_send =? 0 then after sent idle else
  let c := set_state PROC_DATA c in
  let '(sock, r) :=
    if 0 <? s_in_fd c then sendfile64 (file (s_in_fd c)) (i64 (s_va c + s_progress c)) data_to_send (tx_sock x)
    else writev (slice (s_progress c) data_to_send (mem (s_va c))) (tx_sock x) in
  let x := with_sock sock (with_ctx c x) in
  match r with
  | SysError e => send_failed e x
  | Sys sent =>
      let x := if negb (0 <? s_in_fd c) && (sent =? data_to_send) then add_released (s_va c) x else x in
      if sent =? data_to_send then
        after sent (with_ctx (set_state PROC_IDLE c) (add_bytes (hd_datalen (s_hdr c)) x))
      else after sent (with_ctx (set_progress (u64 (s_progress c + sent)) c) x)
  end.

Definition send_hdr (x : Tx) : Tx * option bool :=
  let c := tx_ctx x in
  let bytes := header_rest c in
  let '(sock, r) := writev bytes (tx_sock x) in
  let x := with_sock sock x in
  match r with
  | SysError e => send_failed e x
  | Sys sent =>
      let x := add_bytes sent x in
      if sent <? len bytes then after sent (with_ctx (set_progress (s_progress c + sent) c) x)
      else send_data sent (with_ctx (set_progress 0 c) x)
  end.

(** One round of the loop: [None] to go on, or what the function returns. *)
Definition send_step (x : Tx) : Tx * option bool :=
  match s_state (tx_ctx x) with
  | PROC_IDLE =>
      match q_pop (tx_queue x) with
      | (_, None) => (x, Some true)
      | (q, Some w) =>
          send_hdr (mkTx (load_work w (tx_ctx x)) q (tx_sock x) (tx_bytes x) (tx_released x))
      end
  | PROC_HDR => send_hdr x
  | _ => send_data 0 x
  end.

Fixpoint send_loop (fuel : nat) (x : Tx) : option (Tx * bool) :=
  match fuel with
  | O => None
  | S fuel =>
      match send_step x with
      | (x, Some b) => Some (x, b)
      | (x, None) => send_loop fuel x
      end
  end.

(** [processEndpointSend] *)
Definition processEndpointSend (fuel : nat) (x : Tx) : option (Tx * bool) :=
  if bool_decide (s_state (tx_ctx x) = PROC_FAILED) then Some (x, false) else send_loop fuel x.
End send.

(** ** Lemmas: headers *)

Record hdr_wf (h : TcpCtlHdr) : Prop := {
  hw_reqid : is_u64 (hd_reqid h);
  hw_datalen : is_u64 (hd_datalen h);
  hw_offset : is_u64 (hd_offset h);
  hw_hdrlen : 0 <= hd_hdrlen h < 2 ^ 16;
  hw_type : 0 <= hd_type h < 256;
  hw_error : 0 <= hd_error h < 256;
  hw_pad : 0 <= hd_pad h < 2 ^ 32
}.

Lemma len_hdr_bytes h : len (hdr_bytes h) = HDR_SIZE.
Proof. unfold hdr_bytes. by rewrite !len_app, !len_le_bytes. Qed.

(** A header that was received is the one that was sent, whatever follows it. *)
Lemma hdr_of_bytes h s : hdr_wf h -> hdr_of (hdr_bytes h ++ s) = h.
Proof.
  intros [H1 H2 H3 H4 H5 H6 H7]. unfold is_u64, two64 in *. unfold hdr_of.
  change (slice 0 8 (hdr_bytes h ++ s)) with (le_bytes 8 (hd_reqid h)).
  change (slice 8 8 (hdr_bytes h ++ s)) with (le_bytes 8 (hd_datalen h)).
  change (slice 16 8 (hdr_bytes h ++ s)) with (le_bytes 8 (hd_offset h)).
  change (slice 24 2 (hdr_bytes h ++ s)) with (le_bytes 2 (hd_hdrlen h)).
  change (slice 26 1 (hdr_bytes h ++ s)) with (le_bytes 1 (hd_type h)).
  change (slice 27 1 (hdr_bytes h ++ s)) with (le_bytes 1 (hd_error h)).
  change (slice 28 4 (hdr_bytes h ++ s)) with (le_bytes 4 (hd_pad h)).
  rewrite !(le_roundtrip 8), (le_roundtrip 2), !(le_roundtrip 1), (le_roundtrip 4);
    [by destruct h|change (256 ^ Z.of_nat 8) with (2 ^ 64) || change (256 ^ Z.of_nat 4) with (2 ^ 32) ||
       change (256 ^ Z.of_nat 2) with (2 ^ 16) || change (256 ^ Z.of_nat 1) with 256; lia..].
Qed.

(** ** Lemmas: sending *)

(** Sockets that take bytes or are full, but do not fail. *)
Definition calm (s : TcpSocket) : Prop :=
  Forall (fun e => match e with TxTake _ | TxAgain => True | _ => False end) (sk_tx s).

(** What a call on such a socket does: it takes some of the bytes, or it is full. *)
Definition took (bytes : str) (s s' : TcpSocket) (r : sys_result) : Prop :=
  calm s' /\
  ((exists n, r = Sys n /\ 0 < n <= len bytes /\ sk_sent s' = sk_sent s ++ slice 0 n bytes /\
      (length (sk_tx s') <= length (sk_tx s))%nat) \/
   (r = SysError EWOULDBLOCK /\ sk_sent s' = sk_sent s /\ (length (sk_tx s') < length (sk_tx s))%nat)).

Lemma slice_0_take n (s : str) : slice 0 n s = take (Z.to_nat n) s.
Proof. done. Qed.

Lemma writev_calm bytes s : calm s -> bytes <> [] -> exists s' r, writev bytes s = (s', r) /\ took bytes s s' r.
Proof.
  intros Hc Hne. assert (Hl : 0 < len bytes) by (destruct bytes; [done|unfold len; simpl; lia]).
  unfold writev, calm in *. destruct (sk_tx s) as [|[n| | |] tx] eqn:E; try (by inversion Hc).
  - eexists _, _. split; [done|]. split; [by unfold calm|]. left. exists (len bytes). rewrite slice_all.
    split_and!; [done|lia|lia|done|]. by rewrite E.
  - apply Forall_cons_iff in Hc as [_ Hc]. eexists _, _. split; [done|]. split; [done|]. left.
    eexists. split; [done|]. unfold len in *. rewrite slice_0_take, Nat2Z.id, length_take.
    split; [lia|]. cbn [sk_sent sk_tx]. rewrite E. split; [|simpl; lia].
    f_equal. destruct (Nat.le_gt_cases (S n) (length bytes)); [by rewrite Nat.min_l|].
    rewrite Nat.min_r by lia. by rewrite !take_ge by lia.
  - apply Forall_cons_iff in Hc as [_ Hc]. eexists _, _. split; [done|]. split; [done|]. right.
    rewrite E. split_and!; [done..|]. simpl. lia.
Qed.

Lemma sendfile_calm data off count s :
  calm s -> 0 <= off -> 0 < count -> off + count <= len data ->
  exists s' r, sendfile64 data off count s = (s', r) /\ took (slice off count data) s s' r.
Proof.
  intros Hc Ho Hn Hl. set (m := Z.min count SENDFILE_MAX).
  assert (Hm : 0 < m <= count) by (unfold m, SENDFILE_MAX; lia).
  assert (Hsl : slice off m data = slice 0 m (slice off count data)).
  { rewrite slice_of_slice by lia. f_equal; lia. }
  assert (Hlen : len (slice off count data) = count) by (apply slice_length; lia).
  assert (Hlm : len (slice off m data) = m) by (apply slice_length; lia).
  destruct (writev_calm (slice off m data) s Hc) as (s' & r & E & Hcalm & Hr).
  { intros E. rewrite E in Hlm. change (len []) with 0 in Hlm. lia. }
  exists s', r. split; [exact E|]. split; [done|].
  destruct Hr as [(n & -> & Hn' & Hs & Ht)|Hr]; [left|by right].
  exists n. rewrite Hlm in Hn'. split_and!; [done|lia|lia| |done].
  rewrite Hs, Hsl. f_equal. rewrite slice_of_slice by lia. f_equal; lia.
Qed.

Section sending.
Context (mem file : Z -> str).
Implicit Types (c : SendState) (x : Tx) (w : SocketSendWork).

Definition has_data c : bool := (hd_type (s_hdr c) =? GET_REPLY) && (hd_error (s_hdr c) =? 0).

(** The bytes a reply carries. *)
Definition payload c : str :=
  if has_data c then
    if 0 <? s_in_fd c then slice (s_va c) (hd_datalen (s_hdr c)) (file (s_in_fd c))
    else slice 0 (hd_datalen (s_hdr c)) (mem (s_va c))
  else [].

(** What is left to be sent of the current message, and a message as a whole. *)
Definition pending_ctx c : str :=
  match s_state c with
  | PROC_HDR => header_rest c ++ payload c
  | PROC_DATA => drop (Z.to_nat (s_progress c)) (payload c)
  | _ => []
  end.

Definition encode (pad : Z) w : str :=
  let h := mkHdr (sw_reqId w) (sw_len w) (sw_off w) (HDR_SIZE + len (sw_objName w)) (sw_type w) (sw_error w) pad in
  hdr_bytes h ++ sw_objName w ++
  payload (mkSend PROC_HDR h (sw_va w) (sw_in_fd w) (sw_objName w) 0).

Definition pending x : str :=
  pending_ctx (tx_ctx x) ++ concat (encode (hd_pad (s_hdr (tx_ctx x))) <$> tx_queue x).

(** The bytes of a reply exist, and the numbers fit. *)
Record work_wf w : Prop := {
  ww_reqid : is_u64 (sw_reqId w);
  ww_off : is_u64 (sw_off w);
  ww_len : 0 <= sw_len w < 2 ^ 63;
  ww_va : 0 <= sw_va w /\ sw_va w + sw_len w < 2 ^ 63;
  ww_name : len (sw_objName w) + HDR_SIZE < 2 ^ 16;
  ww_type : 0 <= sw_type w < 256;
  ww_error : 0 <= sw_error w < 256;
  ww_data : sw_type w = GET_REPLY -> sw_error w = 0 ->
    if 0 <? sw_in_fd w then sw_va w + sw_len w <= len (file (sw_in_fd w))
    else sw_len w <= len (mem (sw_va w))
}.

(** The state machine at rest, in the middle of a message. *)
Record ctx_wf c : Prop := {
  cw_len : 0 <= hd_datalen (s_hdr c) < 2 ^ 63;
  cw_va : 0 <= s_va c /\ s_va c + hd_datalen (s_hdr c) < 2 ^ 63;
  cw_name : hd_hdrlen (s_hdr c) = HDR_SIZE + len (s_objName c);
  cw_data : has_data c = true ->
    if 0 <? s_in_fd c then s_va c + hd_datalen (s_hdr c) <= len (file (s_in_fd c))
    else hd_datalen (s_hdr c) <= len (mem (s_va c))
}.

Definition tx_wf x : Prop :=
  calm (tx_sock x) /\ Forall work_wf (tx_queue x) /\
  match s_state (tx_ctx x) with
  | PROC_IDLE => True
  | PROC_HDR => ctx_wf (tx_ctx x) /\ 0 <= s_progress (tx_ctx x) < hd_hdrlen (s_hdr (tx_ctx x))
  | PROC_DATA => ctx_wf (tx_ctx x) /\ has_data (tx_ctx x) = true /\
                 0 <= s_progress (tx_ctx x) < hd_datalen (s_hdr (tx_ctx x))
  | PROC_FAILED => False
  end.

(** A round hands bytes to the socket and keeps the rest: it goes on after at
    least one byte, and returns when nothing is left or the socket is full. *)
Definition round_ok (before : str) (s : TcpSocket) (r : Tx * option bool) : Prop :=
  let x' := fst r in
  tx_wf x' /\ exists out,
    sk_sent (tx_sock x') = sk_sent s ++ out /\ before = out ++ pending x' /\
    match snd r with
    | None => (length (sk_tx (tx_sock x')) <= length (sk_tx s))%nat /\ out <> []
    | Some true => (pending x' = [] /\ (length (sk_tx (tx_sock x')) <= length (sk_tx s))%nat) \/
                   (length (sk_tx (tx_sock x')) < length (sk_tx s))%nat
    | Some false => False
    end.

Lemma header_rest_drop c :
  ctx_wf c -> 0 <= s_progress c ->
  header_rest c = drop (Z.to_nat (s_progress c)) (hdr_bytes (s_hdr c) ++ s_objName c).
Proof.
  intros [_ _ Hn _] Hp. unfold header_rest. rewrite Hn. pose proof (len_hdr_bytes (s_hdr c)) as Hl.
  pose proof (len_nonneg (s_objName c)) as Hnl. unfold len in Hl. assert (HS : HDR_SIZE = 32) by done.
  assert (Hname : (if HDR_SIZE <? HDR_SIZE + len (s_objName c)
                   then slice 0 (HDR_SIZE + len (s_objName c) - HDR_SIZE) (s_objName c) else []) = s_objName c).
  { destruct (Z.ltb_spec HDR_SIZE (HDR_SIZE + len (s_objName c))).
    - replace (HDR_SIZE + len (s_objName c) - HDR_SIZE) with (len (s_objName c)) by lia. apply slice_all.
    - symmetry. apply len_0. lia. }
  destruct (Z.ltb_spec (s_progress c) HDR_SIZE).
  - rewrite Hname, drop_app_le by lia. f_equal. unfold slice. apply take_ge. rewrite length_drop. lia.
  - rewrite drop_app_ge by lia. unfold slice, len in *.
    destruct (Z.ltb_spec HDR_SIZE (HDR_SIZE + Z.of_nat (length (s_objName c)))).
    + rewrite take_ge by (rewrite length_drop; lia). f_equal. lia.
    + symmetry. apply drop_ge. lia.
Qed.

Lemma payload_len c : ctx_wf c -> has_data c = true -> len (payload c) = hd_datalen (s_hdr c).
Proof.
  intros [Hl Hv _ Hd] Hh. unfold payload. rewrite Hh. specialize (Hd Hh).
  destruct (0 <? s_in_fd c); apply slice_length; lia.
Qed.

Lemma i64_small z : 0 <= z < 2 ^ 63 -> i64 z = z.
Proof.
  intros Hz. unfold i64. rewrite u64_small by (unfold is_u64, two64; lia).
  by rewrite (proj2 (Z.ltb_lt z (2 ^ 63))) by lia.
Qed.

(** The call that sends data takes from the front of what is left. *)
Lemma data_call c s :
  ctx_wf c -> has_data c = true -> calm s -> 0 <= s_progress c < hd_datalen (s_hdr c) ->
  let m := hd_datalen (s_hdr c) - s_progress c in
  exists s' r,
    (if 0 <? s_in_fd c then sendfile64 (file (s_in_fd c)) (i64 (s_va c + s_progress c)) m s
     else writev (slice (s_progress c) m (mem (s_va c))) s) = (s', r) /\
    took (drop (Z.to_nat (s_progress c)) (payload c)) s s' r /\
    len (drop (Z.to_nat (s_progress c)) (payload c)) = m.
Proof.
  intros Hw Hh Hc Hp m. pose proof (payload_len c Hw Hh) as Hpl. destruct Hw as [Hl Hv _ Hd]. specialize (Hd Hh).
  assert (Hlen : len (drop (Z.to_nat (s_progress c)) (payload c)) = m).
  { unfold len in *. rewrite length_drop. lia. }
  unfold payload in *. rewrite Hh in *. rewrite i64_small by lia. destruct (0 <? s_in_fd c).
  - assert (Hs : slice (s_va c + s_progress c) m (file (s_in_fd c)) =
      drop (Z.to_nat (s_progress c)) (slice (s_va c) (hd_datalen (s_hdr c)) (file (s_in_fd c)))).
    { unfold slice. rewrite skipn_firstn_comm, drop_drop, Z2Nat.inj_add by lia. f_equal. lia. }
    rewrite <- Hs in *. destruct (sendfile_calm (file (s_in_fd c)) (s_va c + s_progress c) m s) as (s' & r & E & Ht);
      [done|lia..|]. by exists s', r.
  - assert (Hs : slice (s_progress c) m (mem (s_va c)) =
      drop (Z.to_nat (s_progress c)) (slice 0 (hd_datalen (s_hdr c)) (mem (s_va c)))).
    { unfold slice. rewrite skipn_firstn_comm. change (drop (Z.to_nat 0) (mem (s_va c))) with (mem (s_va c)). f_equal. lia. }
    rewrite Hs. destruct (writev_calm (drop (Z.to_nat (s_progress c)) (slice 0 (hd_datalen (s_hdr c)) (mem (s_va c)))) s Hc)
      as (s' & r & E & Ht); [|by exists s', r]. intros E. rewrite E in Hlen. change (len []) with 0 in Hlen. lia.
Qed.

Notation queued x := (concat (encode (hd_pad (s_hdr (tx_ctx x))) <$> tx_queue x)).

Lemma idle_pending c x :
  pending (with_ctx (set_state PROC_IDLE c) x) = concat (encode (hd_pad (s_hdr c)) <$> tx_queue x).
Proof. done. Qed.

(** What the data phase does after [sent] bytes of the header: like [round_ok],
    but it may end the message without sending a byte. *)
Definition phase_ok (rest : str) (sent : Z) x (r : Tx * option bool) : Prop :=
  let x' := fst r in
  tx_wf x' /\ exists out,
    sk_sent (tx_sock x') = sk_sent (tx_sock x) ++ out /\ rest ++ queued x = out ++ pending x' /\
    match snd r with
    | None => (length (sk_tx (tx_sock x')) <= length (sk_tx (tx_sock x)))%nat /\ (0 < sent \/ out <> [])
    | Some true => (length (sk_tx (tx_sock x')) < length (sk_tx (tx_sock x)))%nat
    | Some false => False
    end.

Lemma phase_end sent x :
  calm (tx_sock x) -> Forall work_wf (tx_queue x) -> 0 < sent ->
  phase_ok [] sent x (after sent (with_ctx (set_state PROC_IDLE (tx_ctx x)) x)).
Proof.
  intros Hc Hq Hs. unfold after. rewrite (proj2 (Z.ltb_lt 0 sent)) by done. split; [done|].
  exists []. rewrite app_nil_r. split; [done|]. split; [done|]. split; [done|by left].
Qed.

Lemma nonempty_len (s : str) : 0 < len s -> s <> [].
Proof. intros Hl ->. by change (len []) with 0 in Hl. Qed.

(** The call took [n] of the bytes that are left. *)
Lemma phase_took sent x x1 n s' :
  let c := tx_ctx x in
  let rest := drop (Z.to_nat (s_progress c)) (payload c) in
  let m := hd_datalen (s_hdr c) - s_progress c in
  ctx_wf c -> has_data c = true -> Forall work_wf (tx_queue x) -> 0 <= s_progress c ->
  calm s' -> len rest = m -> 0 < n <= m -> sk_sent s' = sk_sent (tx_sock x) ++ slice 0 n rest ->
  (length (sk_tx s') <= length (sk_tx (tx_sock x)))%nat -> tx_sock x1 = s' -> tx_queue x1 = tx_queue x ->
  phase_ok rest sent x
    (if n =? m then after n (with_ctx (set_state PROC_IDLE (set_state PROC_DATA c)) (add_bytes (hd_datalen (s_hdr c)) x1))
     else after n (with_ctx (set_progress (u64 (s_progress c + n)) (set_state PROC_DATA c)) x1)).
Proof.
  intros c rest m Hw Hh Hq Hp Hc' Hm Hn Hsent Hlt Hx1s Hx1q.
  assert (Hafter : forall y, after n y = (y, None)) by (intros; unfold after; by rewrite (proj2 (Z.ltb_lt 0 n)) by lia).
  pose proof (cw_len c Hw) as Hdl. rewrite !Hafter. destruct (Z.eqb_spec n m) as [->|Hne].
  - split; [unfold tx_wf; cbn [fst tx_sock tx_queue tx_ctx with_ctx add_bytes]; by rewrite Hx1s, Hx1q|].
    exists rest. cbn [fst snd tx_sock with_ctx add_bytes].
    unfold pending. cbn [tx_queue tx_ctx with_ctx add_bytes set_state s_hdr]. rewrite Hx1s, Hx1q, Hsent.
    split; [rewrite slice_0_take; f_equal; apply take_ge; unfold len in Hm; lia|].
    split_and!; [done..|]. right. apply nonempty_len. lia.
  - rewrite u64_small by (unfold is_u64, two64; lia). split.
    { unfold tx_wf. cbn [fst tx_sock tx_queue tx_ctx with_ctx set_progress set_state s_state s_progress s_hdr].
      rewrite Hx1s, Hx1q. split_and!; [done..|by destruct Hw|exact Hh|lia|lia]. }
    exists (slice 0 n rest). cbn [fst snd tx_sock with_ctx]. rewrite Hx1s, Hsent. split; [done|]. split.
    { unfold pending. cbn [tx_queue tx_ctx with_ctx set_progress set_state s_hdr]. rewrite Hx1q, app_assoc. f_equal.
      unfold pending_ctx. cbn [s_state set_progress set_state s_progress].
      change (payload (mkSend _ _ _ _ _ _)) with (payload c).
      rewrite Z2Nat.inj_add, <- drop_drop by lia. fold rest. rewrite slice_0_take. by rewrite take_drop. }
    split; [done|]. right. apply nonempty_len. rewrite slice_length; lia.
Qed.

(** The data phase. *)
Lemma send_data_spec sent x :
  let c := tx_ctx x in
  let rest := drop (Z.to_nat (s_progress c)) (payload c) in
  ctx_wf c -> calm (tx_sock x) -> Forall work_wf (tx_queue x) ->
  0 <= s_progress c -> (has_data c = true -> s_progress c <= hd_datalen (s_hdr c)) ->
  0 < sent \/ rest <> [] ->
  phase_ok rest sent x (send_data mem file sent x).
Proof.
  intros c rest Hw Hc Hq Hp Hpd Hor.
  assert (Hend : rest = [] -> phase_ok rest sent x (after sent (with_ctx (set_state PROC_IDLE (tx_ctx x)) x))).
  { intros E. rewrite E. destruct Hor; [|done]. by apply phase_end. }
  unfold send_data. fold c in Hend |- *.
  destruct (has_data c) eqn:Hh.
  2:{ unfold has_data in Hh. rewrite <- negb_andb, Hh. cbn [negb]. apply Hend. unfold rest, payload, has_data.
      rewrite Hh. apply drop_nil. }
  assert (negb (hd_type (s_hdr c) =? GET_REPLY) || negb (hd_error (s_hdr c) =? 0) = false) as ->.
  { unfold has_data in Hh. by rewrite <- negb_andb, Hh. }
  specialize (Hpd eq_refl). pose proof (payload_len c Hw Hh) as Hpl. pose proof (cw_len c Hw) as Hdl.
  rewrite i64_small by lia. cbv zeta. destruct (Z.eqb_spec (hd_datalen (s_hdr c) - s_progress c) 0) as [E0|E0].
  { apply Hend, drop_ge. unfold len in Hpl. lia. }
  destruct (data_call c (tx_sock x) Hw Hh Hc) as (s' & r & E & Ht & Hm); [lia|].
  cbn [s_in_fd s_va s_progress set_state]. rewrite E.
  destruct Ht as [Hc' [(n & -> & Hn & Hsent & Hlt)|(-> & Hsent & Hlt)]].
  - rewrite Hm in Hn. apply (phase_took sent x _ n s'); try done;
      by destruct (negb (0 <? s_in_fd c) && (n =? hd_datalen (s_hdr c) - s_progress c)).
  - unfold send_failed. change (EWOULDBLOCK =? EWOULDBLOCK) with true. cbn iota. split.
    { unfold tx_wf. cbn [fst tx_sock tx_queue tx_ctx with_ctx with_sock set_state s_state s_progress s_hdr].
      split_and!; [done..|by destruct Hw|exact Hh|lia|lia]. }
    exists []. cbn [fst snd tx_sock with_ctx with_sock]. by rewrite app_nil_r.
Qed.

(** The header phase. *)
Lemma send_hdr_spec x :
  ctx_wf (tx_ctx x) -> calm (tx_sock x) -> Forall work_wf (tx_queue x) -> s_state (tx_ctx x) = PROC_HDR ->
  0 <= s_progress (tx_ctx x) < hd_hdrlen (s_hdr (tx_ctx x)) ->
  round_ok (pending x) (tx_sock x) (send_hdr mem file x).
Proof.
  intros Hw Hc Hq Hst Hp. unfold send_hdr. set (c := tx_ctx x) in *.
  pose proof (header_rest_drop c Hw (proj1 Hp)) as Hr. pose proof (len_hdr_bytes (s_hdr c)) as Hhl.
  assert (Hlen : len (header_rest c) = hd_hdrlen (s_hdr c) - s_progress c).
  { rewrite Hr, (cw_name c Hw). rewrite (cw_name c Hw) in Hp. unfold len in *. rewrite length_drop, length_app. lia. }
  assert (Hpend : pending x = header_rest c ++ payload c ++ queued x).
  { unfold pending, pending_ctx. fold c. by rewrite Hst, <- app_assoc. }
  destruct (writev_calm (header_rest c) (tx_sock x) Hc) as (s' & r & E & Hc' & Hr'); [apply nonempty_len; lia|].
  rewrite E. destruct Hr' as [(n & -> & Hn & Hsent & Hlt)|(-> & Hsent & Hlt)].
  - destruct (Z.ltb_spec n (len (header_rest c))) as [Hlt'|Hge].
    + unfold after. rewrite (proj2 (Z.ltb_lt 0 n)) by lia. set (c' := set_progress (s_progress c + n) c).
      assert (Hw' : ctx_wf c') by by destruct Hw.
      split; [unfold tx_wf; cbn [fst tx_sock tx_queue tx_ctx with_ctx with_sock add_bytes c' set_progress s_state s_progress s_hdr];
              rewrite Hst; split_and!; [done..|lia|lia]|].
      exists (slice 0 n (header_rest c)). cbn [fst snd tx_sock with_ctx with_sock add_bytes]. split; [done|]. split.
      { rewrite Hpend. unfold pending. cbn [tx_queue tx_ctx with_ctx with_sock add_bytes].
        unfold pending_ctx. change (s_state c') with (s_state c). rewrite Hst, (header_rest_drop c') by (done || simpl; lia).
        change (s_hdr c') with (s_hdr c). change (s_objName c') with (s_objName c).
        change (s_progress c') with (s_progress c + n). rewrite Z2Nat.inj_add, <- drop_drop, <- Hr by lia.
        rewrite slice_0_take, !app_assoc. by rewrite take_drop. }
      split; [done|]. apply nonempty_len. rewrite slice_length; lia.
    + assert (n = len (header_rest c)) as -> by lia. rewrite slice_all in Hsent.
      set (x1 := with_ctx (set_progress 0 c) _).
      assert (Hw1 : ctx_wf (tx_ctx x1)) by by destruct Hw.
      destruct (send_data_spec (len (header_rest c)) x1 Hw1) as [Hwf (out & Hs1 & Hrest & Hm)];
        [done|done|simpl; lia|intros _; apply Hw1|left; lia|].
      split; [done|]. exists (header_rest c ++ out).
      change (tx_sock x1) with s' in *. rewrite Hs1, Hsent, app_assoc. split; [done|]. split.
      { rewrite Hpend, <- app_assoc, <- Hrest. done. }
      destruct (snd (send_data mem file (len (header_rest c)) x1)) as [[]|]; [right; lia|done|].
      split; [lia|]. intros Hn'. apply app_eq_nil in Hn' as [Hn' _]. rewrite Hn' in Hlen. change (len []) with 0 in Hlen. lia.
  - unfold send_failed. change (EWOULDBLOCK =? EWOULDBLOCK) with true. cbn iota.
    split; [unfold tx_wf; cbn [fst tx_sock tx_queue tx_ctx with_sock]; fold c; rewrite Hst; done|].
    exists []. cbn [fst snd tx_sock with_sock]. rewrite app_nil_r. split; [done|]. split; [done|]. by right.
Qed.

(** A piece of work becomes the message it encodes to. *)
Lemma load_work_spec w c :
  work_wf w -> ctx_wf (load_work w c) /\ pending_ctx (load_work w c) = encode (hd_pad (s_hdr c)) w.
Proof.
  intros [H1 H2 H3 H4 H5 H6 H7 H8]. pose proof (len_nonneg (sw_objName w)). unfold HDR_SIZE in *.
  assert (Eh : load_work w c = mkSend PROC_HDR (mkHdr (sw_reqId w) (sw_len w) (sw_off w) (HDR_SIZE + len (sw_objName w))
                                 (sw_type w) (sw_error w) (hd_pad (s_hdr c))) (sw_va w) (sw_in_fd w) (sw_objName w) 0).
  { unfold load_work. unfold u16. rewrite (Z.mod_small (HDR_SIZE + _)) by (unfold HDR_SIZE; lia).
    by rewrite !Z.mod_small by lia. }
  rewrite Eh. assert (Hw : ctx_wf (mkSend PROC_HDR (mkHdr (sw_reqId w) (sw_len w) (sw_off w) (HDR_SIZE + len (sw_objName w))
                                 (sw_type w) (sw_error w) (hd_pad (s_hdr c))) (sw_va w) (sw_in_fd w) (sw_objName w) 0)).
  { constructor; cbn [s_hdr hd_datalen hd_hdrlen s_va s_objName s_in_fd]; try done.
    unfold has_data. cbn [s_hdr hd_type hd_error]. intros [Ht%Z.eqb_eq He%Z.eqb_eq]%andb_true_iff. exact (H8 Ht He). }
  split; [done|]. unfold pending_ctx, encode. cbn [s_state]. rewrite header_rest_drop by done. cbn [s_progress s_hdr s_objName].
  by rewrite drop_0, <- app_assoc.
Qed.

Lemma send_step_spec x : tx_wf x -> round_ok (pending x) (tx_sock x) (send_step mem file x).
Proof.
  intros (Hc & Hq & Hst). unfold send_step. destruct (s_state (tx_ctx x)) eqn:Es; [| | |done].
  - destruct (tx_queue x) as [|w q] eqn:Eq; cbn [q_pop].
    + split; [unfold tx_wf; cbn [fst]; by rewrite Es, Eq|]. exists []. cbn [fst snd].
      rewrite app_nil_r. split; [done|]. split; [done|]. left. split; [|done].
      unfold pending, pending_ctx. by rewrite Es, Eq.
    + apply Forall_cons_iff in Hq as [Hw Hq]. destruct (load_work_spec w (tx_ctx x) Hw) as [Hlw Hlp].
      set (x1 := mkTx (load_work w (tx_ctx x)) q (tx_sock x) (tx_bytes x) (tx_released x)).
      assert (Hpend : pending x = pending x1).
      { unfold pending, x1. cbn [tx_ctx tx_queue]. rewrite Hlp, Eq. unfold pending_ctx. by rewrite Es. }
      rewrite Hpend. apply (send_hdr_spec x1); [done..|].
      cbn [x1 tx_ctx load_work s_progress]. rewrite (cw_name _ Hlw).
      pose proof (len_nonneg (s_objName (load_work w (tx_ctx x)))). unfold HDR_SIZE. lia.
  - destruct Hst as [Hw Hp]. by apply send_hdr_spec.
  - destruct Hst as (Hw & Hh & Hp). pose proof (payload_len _ Hw Hh) as Hpl.
    assert (Hne : drop (Z.to_nat (s_progress (tx_ctx x))) (payload (tx_ctx x)) <> []).
    { apply nonempty_len. unfold len in *. rewrite length_drop. lia. }
    destruct (send_data_spec 0 x) as [Hwf (out & Hs & Hrest & Hm)]; [done..|lia|lia|by right|].
    split; [done|]. exists out. split; [done|]. split; [unfold pending, pending_ctx; by rewrite Es|].
    destruct (snd (send_data mem file 0 x)) as [[]|]; [by right|done|]. destruct Hm as [? [?|?]]; [lia|done].
Qed.

Lemma send_loop_spec fuel x :
  tx_wf x -> (length (pending x) < fuel)%nat ->
  exists x' out, send_loop mem file fuel x = Some (x', true) /\ tx_wf x' /\
    sk_sent (tx_sock x') = sk_sent (tx_sock x) ++ out /\ pending x = out ++ pending x' /\
    (pending x' = [] \/ (length (sk_tx (tx_sock x')) < length (sk_tx (tx_sock x)))%nat) /\
    (length (sk_tx (tx_sock x')) <= length (sk_tx (tx_sock x)))%nat.
Proof.
  revert x. induction fuel as [|fuel IH]; intros x Hw Hf; [lia|]. cbn [send_loop].
  destruct (send_step_spec x Hw) as [Hw' (out & Hs & Hp & Hm)].
  destruct (send_step mem file x) as [x' [[]|]]; cbn [fst snd] in *; [|done|].
  - exists x', out. split_and!; try done; destruct Hm as [[Hm ?]|?]; auto; lia.
  - destruct Hm as [Hl Hne]. assert (length (pending x) = length out + length (pending x'))%nat by (by rewrite Hp, length_app).
    destruct out as [|b out]; [done|]. cbn [length] in *.
    destruct (IH x' Hw') as (x2 & out2 & E & Hw2 & Hs2 & Hp2 & Hd & Hl2); [lia|]. exists x2, ((b :: out) ++ out2).
    rewrite Hs2, Hs, <- !app_assoc, <- Hp2. split_and!; try done; [|lia]. destruct Hd; [by left|right; lia].
Qed.
End sending.

(** ** Properties: sending *)

(** The socket becomes writable [n] times. *)
Fixpoint send_ready (mem file : Z -> str) (n fuel : nat) (x : Tx) : option Tx :=
  match n with
  | O => Some x
  | S n =>
      match processEndpointSend mem file fuel x with
      | Some (x, true) => send_ready mem file n fuel x
      | _ => None
      end
  end.

Lemma processEndpointSend_spec mem file fuel x :
  tx_wf mem file x -> (length (pending mem file x) < fuel)%nat ->
  exists x' out, processEndpointSend mem file fuel x = Some (x', true) /\ tx_wf mem file x' /\
    sk_sent (tx_sock x') = sk_sent (tx_sock x) ++ out /\ pending mem file x = out ++ pending mem file x' /\
    (pending mem file x' = [] \/ (length (sk_tx (tx_sock x')) < length (sk_tx (tx_sock x)))%nat) /\
    (length (sk_tx (tx_sock x')) <= length (sk_tx (tx_sock x)))%nat.
Proof.
  intros Hw Hf. unfold processEndpointSend. rewrite bool_decide_false; [by apply send_loop_spec|].
  intros E. destruct Hw as (_ & _ & Hst). by rewrite E in Hst.
Qed.

Lemma send_ready_spec mem file n fuel x :
  tx_wf mem file x -> (length (pending mem file x) < fuel)%nat ->
  pending mem file x = [] \/ (length (sk_tx (tx_sock x)) < n)%nat ->
  exists x', send_ready mem file n fuel x = Some x' /\ pending mem file x' = [] /\
    sk_sent (tx_sock x') = sk_sent (tx_sock x) ++ pending mem file x.
Proof.
  revert x. induction n as [|n IH]; intros x Hw Hf Hn.
  { destruct Hn as [E|]; [|lia]. exists x. by rewrite E, app_nil_r. }
  cbn [send_ready].
  destruct (processEndpointSend_spec mem file fuel x Hw Hf) as (x1 & out & -> & Hw1 & Hs1 & Hp1 & Hd & Hl).
  assert (length (pending mem file x) = length out + length (pending mem file x1))%nat by (by rewrite Hp1, length_app).
  destruct (IH x1 Hw1) as (x2 & -> & Hp2 & Hs2); [lia| |].
  - destruct Hd as [?|?]; [by left|]. destruct Hn as [Hn|]; [left|right; lia]. rewrite Hn in Hp1.
    symmetry in Hp1. by apply app_eq_nil in Hp1 as [_ ?].
  - exists x2. split; [done|]. split; [done|]. by rewrite Hs2, Hs1, <- app_assoc, <- Hp1.
Qed.

(** What is sent is what was queued. A call of [processEndpointSend] on a
    socket that takes any number of bytes or is full at any point hands over a
    part of the stream of messages and keeps the rest, so that nothing is lost,
    repeated or out of order; and once the socket has become writable as often
    as it was full, and once more, all messages have been sent completely: the
    rest of the current one, then for every piece of work of the queue its
    header, its name and, in replies without error, its bytes. *)
Theorem send_framing mem file fuel x :
  tx_wf mem file x -> (length (pending mem file x) < fuel)%nat ->
  (exists x' out, processEndpointSend mem file fuel x = Some (x', true) /\
     sk_sent (tx_sock x') = sk_sent (tx_sock x) ++ out /\ pending mem file x = out ++ pending mem file x') /\
  (exists x', send_ready mem file (S (length (sk_tx (tx_sock x)))) fuel x = Some x' /\
     sk_sent (tx_sock x') =
       sk_sent (tx_sock x) ++ pending_ctx mem file (tx_ctx x) ++
       concat (encode mem file (hd_pad (s_hdr (tx_ctx x))) <$> tx_queue x)).
Proof.
  intros Hw Hf. split.
  - destruct (processEndpointSend_spec mem file fuel x Hw Hf) as (x1 & out & E & _ & Hs & Hp & _). by exists x1, out.
  - destruct (send_ready_spec mem file (S (length (sk_tx (tx_sock x)))) fuel x Hw Hf) as (x' & E & _ & Hs);
      [right; lia|]. by exists x'.
Qed.

Definition demo_tx : Tx :=
  mkTx (mkSend PROC_IDLE (mkHdr 0 0 0 0 0 0 0) 0 0 [] 0)
    [mkSendWork "b/k" 7 0 (-1) 3 10 GET_REQ 0; mkSendWork [] 9 1 4 0 3 GET_REPLY 0]
    (mkTcpSocket [] [TxTake 30; TxAgain; TxTake 0; TxTake 40; TxAgain]) 0 [].

Lemma send_framing_witness :
  exists x', send_ready (fun _ => []) (fun _ => "hello" : str) 6 100 demo_tx = Some x' /\
    sk_sent (tx_sock x') = hdr_bytes (mkHdr 7 10 3 35 1 0 0) ++ "b/k" ++ hdr_bytes (mkHdr 9 3 0 32 2 0 0) ++ "ell".
Proof.
  assert (Hw : tx_wf (fun _ => []) (fun _ => "hello" : str) demo_tx).
  { split; [repeat constructor|]. split; [|done].
    repeat constructor; cbn; unfold is_u64, two64, GET_REPLY, GET_REQ; try lia; discriminate. }
  destruct (send_framing (fun _ => []) (fun _ => "hello" : str) 100 demo_tx Hw) as [_ (x' & E & Hs)].
  { vm_compute. lia. }
  exists x'. split; [exact E|]. rewrite Hs. reflexivity.
Defined.
