(* ===== verification/TcpReceive.v ===== *)
(** * The message transport: receiving

    src/src/libgeds/TcpTransport.cpp: [processEndpointRecv], the state machine
    that receives the messages of TcpFraming.v from a non-blocking socket and
    continues wherever it ran dry: in the header, in the name of a request or in
    the data of a reply. *)

From Stdlib Require Import Ascii ZArith Lia.
From stdpp Require Import base gmap sets list strings numbers.
From S2P Require Import Prelude Bytes Endian Decimal Status StdMap LocalFile ConcurrentMap ConcurrentQueue.
From S2P Require Import TcpDataTransport TcpConnection TcpFraming.

Open Scope Z_scope.
Open Scope list_scope.

(** ** Sockets *)

Definition EIO : Z := 5.
Definition EINVAL : Z := 22.

(** What has arrived, in the pieces [recv] returns it in at most, and whether
    more can come: the socket is open, closed by the peer, or broken. *)
Inductive rx_end := RxOpen | RxEof | RxErr (errno : Z).
Record RxSocket := mkRxSocket { rx_chunks : list str; rx_tail : rx_end }.

Definition recv (n : Z) (s : RxSocket) : RxSocket * sys_result * str :=
  match rx_chunks s with
  | c :: cs =>
      let got := take (Z.to_nat n) c in
      let rest := drop (Z.to_nat n) c in
      (mkRxSocket (if bool_decide (rest = []) then cs else rest :: cs) (rx_tail s), Sys (len got), got)
  | [] =>
      (s, match rx_tail s with RxOpen => SysError EWOULDBLOCK | RxEof => Sys 0 | RxErr e => SysError e end, [])
  end.

(** A loop that receives [need] bytes: all of them, or up to the end of the
    stream, or up to an error. The loop for data does not notice the end of the
    stream ([eof_ends] is false) and goes on. *)
Inductive fill := Full | AtEof | Failed (errno : Z).

Fixpoint recv_fill (eof_ends : bool) (fuel : nat) (need : Z) (s : RxSocket) (got : str) :
    option (RxSocket * str * fill) :=
  if need <=? 0 then Some (s, got, Full) else
  match fuel with
  | O => None
  | S fuel =>
      match recv need s with
      | (s, SysError e, _) => Some (s, got, Failed e)
      | (s, Sys n, bytes) =>
          if (n =? 0) && eof_ends then Some (s, got, AtEof)
          else recv_fill eof_ends fuel (need - n) s (got ++ bytes)
      end
  end.

(** Storing what was received; without bytes nothing is written. *)
Definition put (pos : Z) (bytes d : str) : str :=
  if bool_decide (bytes = []) then d else write_at pos bytes d.

(** [struct TcpRcvState]; a promise is known by the request it was made for. The
    code sets the promise without looking whether there is one; without one, in
    a context that has failed before and is not called again, nothing is set here. *)
Record RecvState := mkRecv {
  r_state : SockProcessingState;
  r_hdr : str;
  r_va : Z;
  r_objName : str;
  r_progress : Z;
  r_p : option Z
}.

(** The receiving half of an endpoint, with what it shares: the pending receives
    of its peer, the buffers of the callers, the promises that were fulfilled,
    and the state [G] of the handler of requests. *)
Record Rx (G : Type) := mkRx {
  x_ctx : RecvState;
  x_sock : RxSocket;
  x_errno : Z;
  x_queue : smap Z SocketRecvWork;
  x_mem : gmap Z str;
  x_promises : list (Z * StatusOr Z);
  x_bytes : Z;
  x_gets : G
}.
Arguments mkRx {G}.
Arguments x_ctx {G}.
Arguments x_sock {G}.
Arguments x_errno {G}.
Arguments x_queue {G}.
Arguments x_mem {G}.
Arguments x_promises {G}.
Arguments x_bytes {G}.
Arguments x_gets {G}.

Section recv.
Context {G : Type} (rpcGet : Z -> str -> Z -> Z -> G -> G) (strerror : Z -> str) (sockno : Z).
Implicit Types x : Rx G.

Definition with_rctx (c : RecvState) x : Rx G :=
  mkRx c (x_sock x) (x_errno x) (x_queue x) (x_mem x) (x_promises x) (x_bytes x) (x_gets x).
Definition with_rsock (s : RxSocket) (e : Z) x : Rx G :=
  mkRx (x_ctx x) s e (x_queue x) (x_mem x) (x_promises x) (x_bytes x) (x_gets x).
Definition fulfil (p : option Z) (r : StatusOr Z) x : Rx G :=
  mkRx (x_ctx x) (x_sock x) (x_errno x) (x_queue x) (x_mem x)
    (match p with Some p => x_promises x ++ [(p, r)] | None => x_promises x end) (x_bytes x) (x_gets x).
Definition add_rx_bytes (n : Z) x : Rx G :=
  mkRx (x_ctx x) (x_sock x) (x_errno x) (x_queue x) (x_mem x) (x_promises x) (u64 (x_bytes x + n)) (x_gets x).
Definition store (va pos : Z) (bytes : str) x : Rx G :=
  mkRx (x_ctx x) (x_sock x) (x_errno x) (x_queue x)
    (alter (put pos bytes) va (x_mem x)) (x_promises x) (x_bytes x) (x_gets x).

(** [errno == EWOULDBLOCK ? -EAGAIN : (errno ? -errno : -EIO)]; at the end of the
    stream [errno] is what an earlier call left. *)
Definition recv_error (errno : Z) : Z :=
  if errno =? EWOULDBLOCK then - EWOULDBLOCK else if negb (errno =? 0) then - errno else - EIO.

(** What follows the loop. *)
Definition recv_finish (rv : Z) x : Rx G * bool :=
  if (0 <=? rv) || (rv =? - EWOULDBLOCK) then (x, true) else
  let c := x_ctx x in
  match r_p c with
  | Some p =>
      let msg := "Protocol error: Aborted with " ++ to_string_signed rv ++ ": " ++ strerror rv in
      (with_rctx (mkRecv PROC_FAILED (r_hdr c) (r_va c) (r_objName c) (r_progress c) None)
         (fulfil (Some p) (Error (AbortedError msg)) x), false)
  | None => (x, false)
  end.

(** The result of a round: go on, or return. *)
Definition round : Type := Rx G * option bool.
Definition leave (rv : Z) x : round := let '(x, b) := recv_finish rv x in (x, Some b).

Definition reset_ctx (c : RecvState) : RecvState :=
  mkRecv PROC_HDR (zeros HDR_SIZE) (r_va c) [] 0 (r_p c).

(** The name of a request, after the header. [inl rv] leaves the loop with a
    negative [rv]. *)
Definition recv_name (fuel : nat) x : option (Rx G * (Z + unit)) :=
  let c := x_ctx x in
  let hdr := hdr_of (r_hdr c) in
  let to_recv := u64 (hd_hdrlen hdr - r_progress c) in
  if hd_type hdr =? GET_REQ then
    if (to_recv =? 0) || (RPC_TCP_MAX_HDR <? to_recv) then Some (x, inl (- EINVAL)) else
    match recv_fill true fuel to_recv (x_sock x) [] with
    | None => None
    | Some (s, got, f) =>
        let c := mkRecv (r_state c) (r_hdr c) (r_va c) (r_objName c ++ got) (r_progress c + len got) (r_p c) in
        let e := match f with Failed e => e | _ => x_errno x end in
        let x := with_rctx c (with_rsock s e x) in
        match f with
        | AtEof | Failed _ => Some (x, inl (recv_error e))
        | Full => Some (x, inr tt)
        end
    end
  else if negb (to_recv =? 0) then Some (x, inl (- EINVAL))
  else Some (x, inr tt).

(** The header, then the name. *)
Definition recv_hdr (fuel : nat) x : option (Rx G * (Z + unit)) :=
  let c := x_ctx x in
  match recv_fill true fuel (HDR_SIZE - r_progress c) (x_sock x) [] with
  | None => None
  | Some (s, got, f) =>
      let c := mkRecv (r_state c) (put (r_progress c) got (r_hdr c)) (r_va c) (r_objName c)
                 (r_progress c + len got) (r_p c) in
      let e := match f with Failed e => e | _ => x_errno x end in
      let x := with_rctx c (with_rsock s e x) in
      match f with
      | AtEof | Failed _ => Some (x, inl (recv_error e))
      | Full => recv_name fuel x
      end
  end.

(** The header is complete. *)
Definition start_data x : Rx G :=
  let c := x_ctx x in
  with_rctx (mkRecv PROC_DATA (r_hdr c) (r_va c) (r_objName c) 0 (r_p c)) (add_rx_bytes (r_progress c) x).

(** The data of a reply. *)
Definition recv_data (fuel : nat) x : option round :=
  let c := x_ctx x in
  let datalen := hd_datalen (hdr_of (r_hdr c)) in
  match recv_fill false fuel (datalen - r_progress c) (x_sock x) [] with
  | None => None
  | Some (s, got, f) =>
      let e := match f with Failed e => e | _ => x_errno x end in
      let x := store (r_va c) (r_progress c) got (with_rsock s e x) in
      let progress := r_progress c + len got in
      match f with
      | Failed e =>
          if e =? EWOULDBLOCK then
            Some (with_rctx (mkRecv (r_state c) (r_hdr c) (r_va c) (r_objName c) progress (r_p c)) x, Some true)
          else
            let msg := "Error during recv: " ++
                       (if negb (e =? 0) then "got errno " ++ to_string e ++ " " ++ strerror e
                        else "got EIO " ++ to_string EIO) in
            Some (with_rctx (mkRecv PROC_FAILED (r_hdr c) (r_va c) (r_objName c) progress None)
                    (fulfil (r_p c) (Error (AbortedError msg)) x), Some false)
      | _ =>
          let x := with_rctx (mkRecv PROC_IDLE (r_hdr c) (r_va c) (r_objName c) progress None)
                     (fulfil (r_p c) (Value datalen) (add_rx_bytes progress x)) in
          if 0 <? len got then Some (x, None) else Some (leave 0 x)
      end
  end.

(** The [switch]; [start] when the header was just completed. The length in the
    header of an error reply is not reset: the next message clears the header. *)
Definition dispatch (fuel : nat) (start : bool) x : option round :=
  let c := x_ctx x in
  let hdr := hdr_of (r_hdr c) in
  if hd_type hdr =? GET_REQ then
    let x := mkRx (mkRecv PROC_IDLE (r_hdr c) (r_va c) (r_objName c) (r_progress c) (r_p c)) (x_sock x) (x_errno x)
               (x_queue x) (x_mem x) (x_promises x) (x_bytes x)
               (rpcGet (hd_reqid hdr) (r_objName c) (hd_datalen hdr) (hd_offset hdr) (x_gets x)) in
    Some (leave 0 x)
  else if hd_type hdr =? GET_REPLY then
    if start then
      match getAndRemove (hd_reqid hdr) (x_queue x) with
      | (_, None) => Some (leave (- EINVAL) x)
      | (q, Some w) =>
          let x := mkRx (mkRecv (r_state c) (r_hdr c) (rw_va w) (r_objName c) (r_progress c) (Some (rw_reqId w)))
                     (x_sock x) (x_errno x) q (x_mem x) (x_promises x) (x_bytes x) (x_gets x) in
          if negb (hd_error hdr =? 0) then
            let msg := "Error from GET_REPLY: " ++ to_string (hd_error hdr) ++ "length: " ++
                       to_string (hd_datalen hdr) ++ " Ep: " ++ to_string sockno in
            Some (leave 0 (with_rctx (mkRecv PROC_IDLE (r_hdr c) (rw_va w) (r_objName c) 0 None)
                             (fulfil (Some (rw_reqId w)) (Error (UnknownError msg)) x)))
          else recv_data fuel x
      end
    else recv_data fuel x
  else Some (x, Some false).

(** One round of the loop of [processEndpointRecv]. *)
Definition recv_step (fuel : nat) x : option round :=
  let x := if bool_decide (r_state (x_ctx x) = PROC_IDLE) then with_rctx (reset_ctx (x_ctx x)) x else x in
  if bool_decide (r_state (x_ctx x) = PROC_HDR) then
    match recv_hdr fuel x with
    | None => None
    | Some (x, inl rv) => Some (leave rv x)
    | Some (x, inr _) => dispatch fuel true (start_data x)
    end
  else dispatch fuel false x.

Fixpoint recv_loop (rounds fuel : nat) x : option (Rx G * bool) :=
  match rounds with
  | O => None
  | S rounds =>
      match recv_step fuel x with
      | None => None
      | Some (x, Some b) => Some (x, b)
      | Some (x, None) => recv_loop rounds fuel x
      end
  end.

(** [processEndpointRecv] *)
Definition processEndpointRecv (rounds fuel : nat) x : option (Rx G * bool) := recv_loop rounds fuel x.
End recv.

(** ** Lemmas: receiving *)

(** The loop takes what it needs from the front of what has arrived, or all of it. *)
Lemma recv_fill_spec b fuel need cs got :
  Forall (fun c => c <> []) cs -> 0 <= need -> (length cs < fuel)%nat ->
  if need <=? len (concat cs) then
    exists cs', recv_fill b fuel need (mkRxSocket cs RxOpen) got =
        Some (mkRxSocket cs' RxOpen, got ++ slice 0 need (concat cs), Full) /\
      Forall (fun c => c <> []) cs' /\ concat cs' = drop (Z.to_nat need) (concat cs)
  else recv_fill b fuel need (mkRxSocket cs RxOpen) got =
         Some (mkRxSocket [] RxOpen, got ++ concat cs, Failed EWOULDBLOCK).
Proof.
  intros Hcs. revert fuel need got. induction Hcs as [|c cs Hc Hcs IH]; intros fuel need got Hn Hf;
    (destruct fuel as [|fuel]; [lia|]); cbn [recv_fill concat length] in *.
  - change (len []) with 0. destruct (Z.leb_spec need 0).
    + assert (need = 0) as -> by lia. exists []. rewrite app_nil_r. done.
    + cbn [recv rx_chunks rx_tail]. by rewrite app_nil_r.
  - assert (Hl : 0 < len c) by (destruct c; [done|unfold len; simpl; lia]). rewrite len_app.
    pose proof (len_nonneg (concat cs)). destruct (Z.leb_spec need 0).
    { assert (need = 0) as -> by lia. rewrite (proj2 (Z.leb_le _ _)) by lia. exists (c :: cs).
      rewrite slice_0, app_nil_r. split_and!; [done|by constructor|done]. }
    unfold recv. cbn [rx_chunks rx_tail].
    destruct (Z.le_gt_cases need (len c)) as [Hle|Hgt].
    + rewrite (proj2 (Z.leb_le need (len c + _))) by lia.
      assert (Ht : len (take (Z.to_nat need) c) = need) by (unfold len in *; rewrite length_take; lia).
      rewrite Ht, (proj2 (Z.eqb_neq need 0)) by lia. cbn [andb]. rewrite Z.sub_diag.
      rewrite slice_0_take, take_app_le by (unfold len in *; lia). rewrite drop_app_le by (unfold len in *; lia).
      exists (if bool_decide (drop (Z.to_nat need) c = []) then cs else drop (Z.to_nat need) c :: cs).
      split; [by destruct fuel|]. case_bool_decide as Hd; [rewrite Hd; done|]. split; [by constructor|done].
    + rewrite take_ge, drop_ge by (unfold len in *; lia). rewrite bool_decide_true by done.
      rewrite (proj2 (Z.eqb_neq (len c) 0)) by lia. cbn [andb].
      specialize (IH fuel (need - len c) (got ++ c) ltac:(lia) ltac:(lia)).
      assert (Eb : (need - len c <=? len (concat cs)) = (need <=? len c + len (concat cs))).
      { destruct (Z.leb_spec (need - len c) (len (concat cs))), (Z.leb_spec need (len c + len (concat cs))); lia. }
      rewrite Eb in IH. destruct (need <=? len c + len (concat cs)) eqn:E.
      * destruct IH as (cs' & -> & Hf' & Hcc). exists cs'. rewrite <- app_assoc, !slice_0_take.
        unfold len in *. rewrite take_app_ge, drop_app_ge by lia.
        replace (Z.to_nat need - length c)%nat with (Z.to_nat (need - Z.of_nat (length c))) by lia. done.
      * by rewrite IH, <- app_assoc.
Qed.

Lemma chunks_len (cs : list str) : Forall (fun c => c <> []) cs -> (length cs <= length (concat cs))%nat.
Proof.
  induction 1 as [|c cs Hc _ IH]; [done|]. cbn [concat length]. rewrite length_app. destruct c; [done|]. cbn [length]. lia.
Qed.

Lemma len_pos (s : str) : s <> [] -> 0 < len s.
Proof. destruct s; [done|]. intros _. unfold len. cbn [length]. lia. Qed.

Lemma app_eq_strict (a b c d : str) :
  a ++ b = c ++ d -> (exists k, a = c ++ k /\ d = k ++ b) \/ (exists k, k <> [] /\ c = a ++ k /\ b = k ++ d).
Proof.
  intros E. apply app_eq_inv in E as [?|(k & -> & ->)]; [by left|].
  destruct (decide (k = [])) as [->|]; [left; exists []; by rewrite !app_nil_r|right; by exists k].
Qed.

(** A message: the header, and the name of a request or the data of a reply. *)
Record Msg := mkMsg { m_hdr : TcpCtlHdr; m_body : str }.

Definition m_bytes (m : Msg) : str := hdr_bytes (m_hdr m) ++ m_body m.

Definition is_req (m : Msg) : bool := hd_type (m_hdr m) =? GET_REQ.

Record msg_wf (m : Msg) : Prop := {
  mw_hdr : hdr_wf (m_hdr m);
  mw_kind :
    (hd_type (m_hdr m) = GET_REQ /\ hd_hdrlen (m_hdr m) = HDR_SIZE + len (m_body m) /\
       0 < len (m_body m) <= RPC_TCP_MAX_HDR) \/
    (hd_type (m_hdr m) = GET_REPLY /\ hd_hdrlen (m_hdr m) = HDR_SIZE /\
       len (m_body m) = (if hd_error (m_hdr m) =? 0 then hd_datalen (m_hdr m) else 0))
}.

Section receiving.
Context {G : Type} (rpcGet : Z -> str -> Z -> Z -> G -> G) (strerror : Z -> str) (sockno : Z).
Implicit Types (x : Rx G) (m : Msg).

(** What receiving is about: the pending receives, the buffers, the promises and
    the requests that were handled. *)
Record Abs := mkAbs {
  a_queue : smap Z SocketRecvWork;
  a_mem : gmap Z str;
  a_promises : list (Z * StatusOr Z);
  a_gets : G
}.

Definition abs x : Abs := mkAbs (x_queue x) (x_mem x) (x_promises x) (x_gets x).

(** The meaning of a message; [None] if it is a reply nobody waits for. *)
Definition handle m (a : Abs) : option Abs :=
  let h := m_hdr m in
  if is_req m then
    Some (mkAbs (a_queue a) (a_mem a) (a_promises a)
            (rpcGet (hd_reqid h) (m_body m) (hd_datalen h) (hd_offset h) (a_gets a)))
  else
    match getAndRemove (hd_reqid h) (a_queue a) with
    | (_, None) => None
    | (q, Some w) =>
        if hd_error h =? 0 then
          Some (mkAbs q (alter (put 0 (m_body m)) (rw_va w) (a_mem a))
                  (a_promises a ++ [(rw_reqId w, Value (hd_datalen h))]) (a_gets a))
        else
          Some (mkAbs q (a_mem a)
                  (a_promises a ++
                   [(rw_reqId w, Error (UnknownError ("Error from GET_REPLY: " ++ to_string (hd_error h) ++
                       "length: " ++ to_string (hd_datalen h) ++ " Ep: " ++ to_string sockno)))]) (a_gets a))
    end.

Fixpoint handle_all (ms : list Msg) (a : Abs) : option Abs :=
  match ms with
  | [] => Some a
  | m :: ms => match handle m a with Some a => handle_all ms a | None => None end
  end.

(** Between messages: nothing of the next one has been received. *)
Definition between x : Prop :=
  r_p (x_ctx x) = None /\
  (r_state (x_ctx x) = PROC_IDLE \/
   (r_state (x_ctx x) = PROC_HDR /\ r_progress (x_ctx x) = 0 /\ r_objName (x_ctx x) = [] /\
    r_hdr (x_ctx x) = zeros HDR_SIZE)).

(** In the header of a message, of which [got] has been received. *)
Definition in_header (got : str) x : Prop :=
  let c := x_ctx x in
  r_p c = None /\ r_state c = PROC_HDR /\ r_progress c = len got /\ len got < HDR_SIZE /\
  r_hdr c = got ++ zeros (HDR_SIZE - len got) /\ r_objName c = [].

(** After the header of [m], in the name, of which [nm] has been received. *)
Definition in_name m (nm : str) x : Prop :=
  let c := x_ctx x in
  r_p c = None /\ r_state c = PROC_HDR /\ r_progress c = HDR_SIZE + len nm /\
  r_hdr c = hdr_bytes (m_hdr m) /\ r_objName c = nm.

(** In the data of a reply, of which [d] has been received. *)
Definition in_data m (d : str) (a : Abs) x : Prop :=
  let c := x_ctx x in
  is_req m = false /\ hd_error (m_hdr m) = 0 /\ r_state c = PROC_DATA /\
  r_progress c = len d /\ r_hdr c = hdr_bytes (m_hdr m) /\
  exists q w, getAndRemove (hd_reqid (m_hdr m)) (a_queue a) = (q, Some w) /\
    r_va c = rw_va w /\ r_p c = Some (rw_reqId w) /\
    abs x = mkAbs q (alter (put 0 d) (rw_va w) (a_mem a))
              (a_promises a) (a_gets a).

(** The rest [need] of the message [m] is to be received, in the state [a]. *)
Definition mid m (need : str) (a : Abs) x : Prop :=
  (need = m_bytes m /\ between x /\ abs x = a) \/
  (exists got, m_bytes m = got ++ need /\ in_header got x /\ abs x = a) \/
  (exists nm, is_req m = true /\ m_body m = nm ++ need /\ in_name m nm x /\ abs x = a) \/
  (exists d, m_body m = d ++ need /\ in_data m d a x).

Definition sock_is (cs : list str) x : Prop :=
  x_sock x = mkRxSocket cs RxOpen /\ Forall (fun c => c <> []) cs.

Lemma put_extend (p q d : str) : put (len p) q (put 0 p d) = put 0 (p ++ q) d.
Proof.
  unfold put. case_bool_decide as Hq; [subst; by rewrite app_nil_r|].
  destruct p as [|c p]; [cbn [app]; by rewrite (bool_decide_false (q = [])) by done|].
  rewrite !bool_decide_false by done. rewrite <- (write_at_extend 0) by lia. by rewrite Z.add_0_l.
Qed.

Lemma alter_put (p q : str) va (mem : gmap Z str) :
  alter (put (len p) q) va (alter (put 0 p) va mem) = alter (put 0 (p ++ q)) va mem.
Proof. rewrite alter_alter_eq. apply alter_ext. intros d _. apply put_extend. Qed.

Lemma write_zeros (got new : str) k :
  len new <= k -> write_at (len got) new (got ++ zeros k) = (got ++ new) ++ zeros (k - len new).
Proof.
  intros Hl. pose proof (len_nonneg new). unfold write_at.
  assert (Hr : resize (len got) (got ++ zeros k) = got).
  { unfold resize. rewrite len_app. assert (len (zeros k) = k) as -> by (unfold len, zeros; rewrite length_replicate; lia).
    unfold zeros at 2. replace (Z.to_nat (len got - (len got + k))) with 0%nat by lia. rewrite app_nil_r.
    unfold len. rewrite Nat2Z.id. apply take_app_length. }
  rewrite Hr, <- app_assoc. do 2 f_equal. unfold len in *. rewrite Z2Nat.inj_add, !Nat2Z.id by lia.
  rewrite <- drop_drop, drop_app_length. unfold zeros. rewrite drop_replicate. f_equal. lia.
Qed.

Lemma put_zeros (got new : str) k :
  len new <= k -> put (len got) new (got ++ zeros k) = (got ++ new) ++ zeros (k - len new).
Proof.
  intros Hl. unfold put. case_bool_decide as Hn; [|by apply write_zeros].
  subst. change (len []) with 0. by rewrite app_nil_r, Z.sub_0_r.
Qed.

(** The loop of [recv_fill_spec], on what has arrived as one string. *)
Lemma fill_short b fuel cs s n' :
  Forall (fun c => c <> []) cs -> concat cs = s -> n' <> [] -> (length s < fuel)%nat ->
  recv_fill b fuel (len (s ++ n')) (mkRxSocket cs RxOpen) [] = Some (mkRxSocket [] RxOpen, s, Failed EWOULDBLOCK).
Proof.
  intros Hcs <- Hn Hf. pose proof (chunks_len cs Hcs). pose proof (recv_fill_spec b fuel (len (concat cs ++ n')) cs [] Hcs) as H'.
  pose proof (len_nonneg (concat cs)). pose proof (len_pos n' Hn).
  rewrite (proj2 (Z.leb_gt _ _)) in H' by (rewrite len_app; lia). apply H'; [rewrite len_app|]; lia.
Qed.

Lemma fill_full b fuel cs n s :
  Forall (fun c => c <> []) cs -> concat cs = n ++ s -> (length (n ++ s) < fuel)%nat ->
  exists cs', recv_fill b fuel (len n) (mkRxSocket cs RxOpen) [] = Some (mkRxSocket cs' RxOpen, n, Full) /\
    Forall (fun c => c <> []) cs' /\ concat cs' = s.
Proof.
  intros Hcs Hc Hf. pose proof (chunks_len cs Hcs) as Hl. rewrite Hc in Hl.
  pose proof (recv_fill_spec b fuel (len n) cs [] Hcs) as H'. rewrite Hc in H'.
  pose proof (len_nonneg n). pose proof (len_nonneg s). rewrite (proj2 (Z.leb_le _ _)) in H' by (rewrite len_app; lia).
  destruct H' as (cs' & E & Hf' & Hcc); [lia|lia|]. exists cs'. rewrite E, slice_0_take, Hcc.
  unfold len. rewrite Nat2Z.id. cbn [app]. by rewrite take_app_length, drop_app_length.
Qed.

(** *** The header *)

Lemma recv_hdr_short fuel got s x cs :
  in_header got x -> sock_is cs x -> concat cs = s -> len got + len s < HDR_SIZE -> (length s < fuel)%nat ->
  exists x', recv_hdr fuel x = Some (x', inl (- EWOULDBLOCK)) /\ in_header (got ++ s) x' /\
    abs x' = abs x /\ sock_is [] x'.
Proof.
  intros (Hp & Hs & Hpr & Hl & Hh & Hn) [Hk Hcs] Hc Hlt Hf. unfold recv_hdr. rewrite Hk, Hpr.
  assert (Hk0 : exists k, k = HDR_SIZE - len got - len s) by eauto. destruct Hk0 as [k Ek0].
  assert (Ek : len (zeros k) = k) by (unfold len at 1, zeros; rewrite length_replicate; lia).
  replace (HDR_SIZE - len got) with (len (s ++ zeros k)) by (rewrite len_app; lia).
  rewrite (fill_short true fuel cs s (zeros k) Hcs Hc) by (try done; apply nonempty_len; lia).
  cbn match. eexists. split; [reflexivity|]. split; [|done].
  unfold in_header. cbn [x_ctx with_rctx with_rsock r_p r_state r_progress r_hdr r_objName].
  rewrite Hh, len_app, put_zeros by lia. split_and!; try done; [lia..|]. do 2 f_equal. lia.
Qed.

Lemma recv_hdr_full fuel m got n s x cs :
  in_header got x -> sock_is cs x -> hdr_bytes (m_hdr m) = got ++ n -> concat cs = n ++ s ->
  (length (n ++ s) < fuel)%nat ->
  exists x' cs', recv_hdr fuel x = recv_name fuel x' /\ in_name m [] x' /\
    abs x' = abs x /\ sock_is cs' x' /\ concat cs' = s.
Proof.
  intros (Hp & Hs & Hpr & Hl & Hh & Hn) [Hk Hcs] Hm Hc Hf. unfold recv_hdr. rewrite Hk, Hpr.
  pose proof (len_hdr_bytes (m_hdr m)) as Hlen. rewrite Hm, len_app in Hlen.
  replace (HDR_SIZE - len got) with (len n) by lia.
  destruct (fill_full true fuel cs n s Hcs Hc Hf) as (cs' & -> & Hf' & Hcc). cbn match.
  eexists _, cs'. split; [reflexivity|]. split; [|done].
  unfold in_name. cbn [x_ctx with_rctx with_rsock r_p r_state r_progress r_hdr r_objName].
  rewrite Hh, put_zeros by lia. replace (HDR_SIZE - len got - len n) with 0 by lia. change (zeros 0) with (@nil ascii).
  rewrite app_nil_r, Hm. change (len []) with 0. split_and!; try done; lia.
Qed.

(** *** The name *)

Lemma in_name_hdr m nm x : msg_wf m -> in_name m nm x -> hdr_of (r_hdr (x_ctx x)) = m_hdr m.
Proof. intros [Hw _] (_ & _ & _ & -> & _). rewrite <- (app_nil_r (hdr_bytes _)). by apply hdr_of_bytes. Qed.

Lemma name_len m nm n : msg_wf m -> is_req m = true -> m_body m = nm ++ n ->
  hd_type (m_hdr m) = GET_REQ /\ u64 (hd_hdrlen (m_hdr m) - (HDR_SIZE + len nm)) = len n /\ len n <= RPC_TCP_MAX_HDR.
Proof.
  intros [_ Hk] Hr Hb. apply Z.eqb_eq in Hr. destruct Hk as [(Ht & Hh & Hl)|(Ht & _)]; [|by rewrite Ht in Hr].
  rewrite Hb, len_app in *. pose proof (len_nonneg nm). pose proof (len_nonneg n).
  unfold RPC_TCP_MAX_HDR, HDR_SIZE in *. split; [done|]. split; [|lia]. rewrite Hh.
  replace (32 + (len nm + len n) - (32 + len nm)) with (len n) by lia. apply Z.mod_small. unfold two64. lia.
Qed.

Lemma recv_name_short fuel m nm s n' x cs :
  msg_wf m -> is_req m = true -> in_name m nm x -> sock_is cs x -> concat cs = s -> m_body m = nm ++ s ++ n' ->
  n' <> [] -> (length s < fuel)%nat ->
  exists x', recv_name fuel x = Some (x', inl (- EWOULDBLOCK)) /\ in_name m (nm ++ s) x' /\
    abs x' = abs x /\ sock_is [] x'.
Proof.
  intros Hw Hr Hin [Hk Hcs] Hc Hb Hne Hf. destruct (name_len m nm _ Hw Hr Hb) as (Ht & Hu & Hle).
  pose proof (in_name_hdr m nm x Hw Hin) as Hhd. destruct Hin as (Hp & Hs & Hpr & Hh & Hn).
  pose proof (len_pos n' Hne). pose proof (len_nonneg s). unfold recv_name. rewrite Hhd, Hpr, Hu, Ht, Hk.
  rewrite (proj2 (Z.eqb_neq _ 0)), (proj2 (Z.ltb_ge _ _)) by (rewrite ?len_app; rewrite len_app in Hle; lia).
  cbn [Z.eqb orb GET_REQ Pos.eqb]. rewrite (fill_short true fuel cs s n' Hcs Hc Hne Hf). cbn match.
  eexists. split; [reflexivity|]. split; [|done].
  unfold in_name. cbn [x_ctx with_rctx with_rsock r_p r_state r_progress r_hdr r_objName].
  rewrite Hh, Hn, len_app. split_and!; try done. lia.
Qed.

Lemma recv_name_full fuel m nm n s x cs :
  msg_wf m -> is_req m = true -> in_name m nm x -> sock_is cs x -> m_body m = nm ++ n -> n <> [] ->
  concat cs = n ++ s -> (length (n ++ s) < fuel)%nat ->
  exists x' cs', recv_name fuel x = Some (x', inr tt) /\ in_name m (m_body m) x' /\
    abs x' = abs x /\ sock_is cs' x' /\ concat cs' = s.
Proof.
  intros Hw Hr Hin [Hk Hcs] Hb Hne Hc Hf. destruct (name_len m nm _ Hw Hr Hb) as (Ht & Hu & Hle).
  pose proof (in_name_hdr m nm x Hw Hin) as Hhd. destruct Hin as (Hp & Hs & Hpr & Hh & Hn).
  pose proof (len_pos n Hne). unfold recv_name. rewrite Hhd, Hpr, Hu, Ht, Hk.
  rewrite (proj2 (Z.eqb_neq _ 0)), (proj2 (Z.ltb_ge _ _)) by lia. cbn [Z.eqb orb GET_REQ Pos.eqb].
  destruct (fill_full true fuel cs n s Hcs Hc Hf) as (cs' & -> & Hf' & Hcc). cbn match.
  eexists _, cs'. split; [reflexivity|]. split; [|done].
  unfold in_name. cbn [x_ctx with_rctx with_rsock r_p r_state r_progress r_hdr r_objName].
  rewrite Hh, Hn, Hb, len_app. split_and!; try done. lia.
Qed.

Lemma recv_name_reply fuel m x :
  msg_wf m -> is_req m = false -> in_name m [] x -> recv_name fuel x = Some (x, inr tt).
Proof.
  intros Hw Hr Hin. pose proof (in_name_hdr m [] x Hw Hin) as Hhd. destruct Hin as (Hp & Hs & Hpr & Hh & Hn).
  destruct (mw_kind m Hw) as [(Ht & _)|(Ht & Hl & _)]; [unfold is_req in Hr; by rewrite Ht in Hr|].
  unfold recv_name. rewrite Hhd, Hpr, Ht, Hl. reflexivity.
Qed.

(** *** The data, and what a message does *)

Notation dispatch := (dispatch rpcGet strerror sockno).
Notation recv_data := (recv_data strerror).
Notation recv_step := (recv_step rpcGet strerror sockno).

Lemma in_data_hdr m d a x : msg_wf m -> in_data m d a x -> hdr_of (r_hdr (x_ctx x)) = m_hdr m.
Proof. intros [Hw _] (_ & _ & _ & _ & -> & _). rewrite <- (app_nil_r (hdr_bytes _)). by apply hdr_of_bytes. Qed.

Lemma reply_body_len m : msg_wf m -> is_req m = false -> hd_error (m_hdr m) = 0 ->
  hd_type (m_hdr m) = GET_REPLY /\ len (m_body m) = hd_datalen (m_hdr m).
Proof.
  intros [_ [(Ht & _)|(Ht & _ & Hl)]] Hr He; unfold is_req in Hr; rewrite Ht in Hr; [done|]. split; [done|].
  by rewrite He in Hl.
Qed.

Lemma recv_data_short fuel m d s n' a x cs :
  msg_wf m -> in_data m d a x -> sock_is cs x -> concat cs = s -> m_body m = d ++ s ++ n' -> n' <> [] ->
  (length s < fuel)%nat ->
  exists x', recv_data fuel x = Some (x', Some true) /\ in_data m (d ++ s) a x' /\ sock_is [] x'.
Proof.
  intros Hw Hin [Hk Hcs] Hc Hb Hne Hf. pose proof (in_data_hdr m d a x Hw Hin) as Hhd.
  destruct Hin as (Hr & He & Hs & Hpr & Hh & q & w & Hq & Hva & Hp & Ha).
  destruct (reply_body_len m Hw Hr He) as [_ Hl]. unfold recv_data. rewrite Hhd, Hpr, <- Hl, Hb, len_app, Hk, Hva.
  replace (len d + len (s ++ n') - len d) with (len (s ++ n')) by lia.
  rewrite (fill_short false fuel cs s n' Hcs Hc Hne Hf). cbn match. cbn [Z.eqb EWOULDBLOCK Pos.eqb].
  eexists. split; [reflexivity|]. split; [|done].
  unfold in_data. cbn [x_ctx with_rctx with_rsock store r_p r_state r_progress r_hdr r_va].
  rewrite Hh, len_app. split_and!; try done. exists q, w. split_and!; try done.
  unfold abs in *. cbn [x_queue x_mem x_promises x_gets with_rctx with_rsock store] in *.
  injection Ha as -> -> -> ->. by rewrite alter_put.
Qed.

Lemma recv_data_full fuel m d n s a a' x cs :
  msg_wf m -> in_data m d a x -> sock_is cs x -> m_body m = d ++ n -> concat cs = n ++ s ->
  (length (n ++ s) < fuel)%nat -> handle m a = Some a' ->
  exists x' r cs', recv_data fuel x = Some (x', r) /\ r <> Some false /\ between x' /\ abs x' = a' /\
    sock_is cs' x' /\ concat cs' = s.
Proof.
  intros Hw Hin [Hk Hcs] Hb Hc Hf Hha. pose proof (in_data_hdr m d a x Hw Hin) as Hhd.
  destruct Hin as (Hr & He & Hs & Hpr & Hh & q & w & Hq & Hva & Hp & Ha).
  destruct (reply_body_len m Hw Hr He) as [_ Hl]. unfold handle in Hha. rewrite Hr, Hq, He in Hha.
  injection Hha as <-. unfold recv_data. rewrite Hhd, Hpr, Hp, <- Hl, Hb, len_app, Hk, Hva.
  replace (len d + len n - len d) with (len n) by lia.
  destruct (fill_full false fuel cs n s Hcs Hc Hf) as (cs' & -> & Hf' & Hcc). cbn match.
  set (x' := with_rctx _ _).
  assert (Hx : between x' /\ sock_is cs' x' /\ concat cs' = s) by (split_and!; try done; by split; [|left]).
  assert (Hax : abs x' = mkAbs q (alter (put 0 (d ++ n)) (rw_va w) (a_mem a))
            (a_promises a ++ [(rw_reqId w, Value (len d + len n))]) (a_gets a)).
  { unfold abs in *. subst x'. cbn [x_queue x_mem x_promises x_gets with_rctx with_rsock store fulfil add_rx_bytes] in *.
    injection Ha as -> -> -> ->. by rewrite alter_put. }
  destruct Hx as (? & ? & ?). destruct (0 <? len n); [exists x', None, cs'|exists x', (Some true), cs']; split_and!; done.
Qed.

(** A request is handed over. *)
Lemma dispatch_request fuel m a' x cs :
  msg_wf m -> is_req m = true -> in_name m (m_body m) x -> sock_is cs x -> handle m (abs x) = Some a' ->
  exists x', dispatch fuel true (start_data x) = Some (x', Some true) /\ between x' /\ abs x' = a' /\ sock_is cs x'.
Proof.
  intros Hw Hr Hin Hk Hha. pose proof (in_name_hdr m _ x Hw Hin) as Hhd.
  destruct Hin as (Hp & Hs & Hpr & Hh & Hn). unfold handle in Hha. rewrite Hr in Hha. injection Hha as <-.
  unfold dispatch. cbn [x_ctx start_data with_rctx add_rx_bytes r_hdr r_objName]. rewrite Hhd, Hn.
  unfold is_req in Hr. rewrite Hr. eexists. split; [reflexivity|]. split; [|done]. split; [done|by left].
Qed.

(** A reply finds the receive that waits for it. *)
Lemma dispatch_reply fuel m a' x cs :
  msg_wf m -> is_req m = false -> in_name m [] x -> sock_is cs x -> handle m (abs x) = Some a' ->
  (hd_error (m_hdr m) = 0 /\
   exists x', dispatch fuel true (start_data x) = recv_data fuel x' /\ in_data m [] (abs x) x' /\ sock_is cs x') \/
  (hd_error (m_hdr m) <> 0 /\ m_body m = [] /\
   exists x', dispatch fuel true (start_data x) = Some (x', Some true) /\ between x' /\ abs x' = a' /\ sock_is cs x').
Proof.
  intros Hw Hr Hin Hk Hha. pose proof (in_name_hdr m _ x Hw Hin) as Hhd.
  destruct Hin as (Hp & Hs & Hpr & Hh & Hn). unfold handle in Hha. rewrite Hr in Hha.
  destruct (mw_kind m Hw) as [(Ht & _)|(Ht & _ & Hl)]; [unfold is_req in Hr; by rewrite Ht in Hr|].
  unfold dispatch. cbn [x_ctx start_data with_rctx add_rx_bytes r_hdr r_objName]. rewrite Hhd, Ht.
  cbn [Z.eqb GET_REPLY GET_REQ Pos.eqb x_queue].
  destruct (getAndRemove _ _) as [q [w|]] eqn:Hq; [|done].
  destruct (Z.eqb_spec (hd_error (m_hdr m)) 0) as [He|He]; cbn [negb]; [left|right]; (split; [done|]).
  - eexists. split; [reflexivity|]. split; [|done]. split_and!; try done. exists q, w. split_and!; try done.
    unfold abs. cbn [x_queue x_mem x_promises x_gets a_mem a_promises a_gets]. f_equal. symmetry.
    by apply alter_id.
  - injection Hha as <-. split; [destruct (m_body m); [done|unfold len in Hl; by cbn in Hl]|].
    eexists. split; [reflexivity|]. split; [by split; [|left]|done].
Qed.

(** *** A round of the loop *)

(** What has arrived is part of the message: the rest of it remains. *)
Definition dry m (n' : str) (a : Abs) (r : option (round (G := G))) : Prop :=
  exists x', r = Some (x', Some true) /\ mid m n' a x' /\ sock_is [] x'.

(** The message was received and handled; [s] follows it. *)
Definition complete (s : str) (a' : Abs) (r : option (round (G := G))) : Prop :=
  exists x' b cs', r = Some (x', b) /\ b <> Some false /\ between x' /\ abs x' = a' /\ sock_is cs' x' /\ concat cs' = s.

(** The part of a round that follows the header. *)
Definition after_hdr (fuel : nat) (r : option (Rx G * (Z + unit))) : option round :=
  match r with
  | None => None
  | Some (x, inl rv) => Some (leave strerror rv x)
  | Some (x, inr _) => dispatch fuel true (start_data x)
  end.

Lemma name_dry fuel m nm s n' a' x cs :
  msg_wf m -> is_req m = true \/ nm = [] -> in_name m nm x -> sock_is cs x -> handle m (abs x) = Some a' ->
  m_body m = nm ++ s ++ n' -> n' <> [] -> concat cs = s -> (length s < fuel)%nat ->
  dry m n' (abs x) (after_hdr fuel (recv_name fuel x)).
Proof.
  intros Hw Hnm Hin Hk Hha Hb Hne Hc Hf. destruct (is_req m) eqn:Hr.
  - destruct (recv_name_short fuel m nm s n' x cs) as (x' & -> & Hin' & Ha & Hk'); try done.
    exists x'. split; [done|]. split; [|done]. right; right; left. exists (nm ++ s). by rewrite <- app_assoc.
  - destruct Hnm as [?| ->]; [done|]. rewrite (recv_name_reply fuel m x Hw Hr Hin). cbn [after_hdr].
    destruct (dispatch_reply fuel m a' x cs Hw Hr Hin Hk Hha) as [[He (x1 & -> & Hd & Hk1)]|(_ & Hb' & _)].
    + destruct (recv_data_short fuel m [] s n' (abs x) x1 cs) as (x' & -> & Hd' & Hk'); try done.
      exists x'. split; [done|]. split; [|done]. right; right; right. by exists s.
    + rewrite Hb' in Hb. symmetry in Hb. by apply app_eq_nil in Hb as [_ [_ ?]%app_eq_nil].
Qed.

Lemma name_complete fuel m nm n s a' x cs :
  msg_wf m -> (is_req m = true /\ n <> []) \/ nm = [] -> in_name m nm x -> sock_is cs x -> handle m (abs x) = Some a' ->
  m_body m = nm ++ n -> concat cs = n ++ s -> (length (n ++ s) < fuel)%nat ->
  complete s a' (after_hdr fuel (recv_name fuel x)).
Proof.
  intros Hw Hnm Hin Hk Hha Hb Hc Hf. destruct (is_req m) eqn:Hr.
  - assert (n <> []).
    { destruct Hnm as [[_ ?]| ->]; [done|]. intros ->. destruct (mw_kind m Hw) as [(_ & _ & Hl)|(Ht & _)].
      - rewrite Hb in Hl. change (len ([] ++ [])) with 0 in Hl. lia.
      - unfold is_req in Hr. by rewrite Ht in Hr. }
    destruct (recv_name_full fuel m nm n s x cs) as (x1 & cs' & -> & Hin' & Ha & Hk' & Hcc); try done. cbn [after_hdr].
    rewrite <- Ha in Hha. destruct (dispatch_request fuel m a' x1 cs' Hw Hr Hin' Hk' Hha) as (x' & -> & Hbt & Ha' & Hk2).
    by exists x', (Some true), cs'.
  - destruct Hnm as [[??]| ->]; [done|]. rewrite (recv_name_reply fuel m x Hw Hr Hin). cbn [after_hdr].
    destruct (dispatch_reply fuel m a' x cs Hw Hr Hin Hk Hha) as [[He (x1 & -> & Hd & Hk1)]|(_ & Hb' & x' & -> & ? & ? & ?)].
    + destruct (recv_data_full fuel m [] n s (abs x) a' x1 cs) as (x' & r & cs' & -> & ?); try done. by exists x', r, cs'.
    + exists x', (Some true), cs. rewrite Hb' in Hb. cbn [app] in Hb. subst n. done.
Qed.

(** The header and the rest of a message of which [got] was received. *)
Lemma split_header m got need :
  m_bytes m = got ++ need -> len got < HDR_SIZE ->
  exists hn, hdr_bytes (m_hdr m) = got ++ hn /\ need = hn ++ m_body m /\ len got + len hn = HDR_SIZE.
Proof.
  intros E Hl. pose proof (len_hdr_bytes (m_hdr m)) as Hh. unfold m_bytes in E. apply app_eq_inv in E.
  destruct E as [(k & E1 & E2)|(k & E1 & E2)].
  - exists k. split_and!; try done. by rewrite <- len_app, <- E1.
  - rewrite E1, len_app in Hl. pose proof (len_nonneg k). lia.
Qed.

Lemma header_dry fuel m got s n' a' x cs :
  msg_wf m -> in_header got x -> sock_is cs x -> handle m (abs x) = Some a' -> m_bytes m = got ++ s ++ n' -> n' <> [] ->
  concat cs = s -> (length s < fuel)%nat -> dry m n' (abs x) (after_hdr fuel (recv_hdr fuel x)).
Proof.
  intros Hw Hin Hk Hha Hb Hne Hc Hf. destruct (Z.lt_ge_cases (len got + len s) HDR_SIZE) as [Hlt|Hge].
  - destruct (recv_hdr_short fuel got s x cs Hin Hk Hc Hlt Hf) as (x' & -> & Hin' & Ha & Hk').
    exists x'. split; [done|]. split; [|done]. right; left. exists (got ++ s). by rewrite <- app_assoc.
  - destruct (split_header m got _ Hb) as (hn & Eh & En & El); [apply Hin|].
    apply app_eq_inv in En as [(k & -> & Ek)|(k & -> & Ek)].
    + destruct (recv_hdr_full fuel m got hn k x cs) as (x1 & cs1 & -> & Hin1 & Ha1 & Hk1 & Hc1); try done.
      rewrite <- Ha1 in *. apply (name_dry fuel m [] k n' a' x1 cs1); try done; [by right|]. rewrite length_app in Hf. lia.
    + rewrite len_app in *. pose proof (len_nonneg k). assert (k = []) as ->.
      { destruct k; [done|]. unfold len in *. cbn [length] in *. lia. }
      rewrite app_nil_r in *. destruct (recv_hdr_full fuel m got s [] x cs) as (x1 & cs1 & -> & Hin1 & Ha1 & Hk1 & Hc1);
        rewrite ?app_nil_r; try done.
      rewrite <- Ha1 in *. apply (name_dry fuel m [] [] n' a' x1 cs1); try done; [by right|cbn [length]; lia].
Qed.

Lemma header_complete fuel m got n s a' x cs :
  msg_wf m -> in_header got x -> sock_is cs x -> handle m (abs x) = Some a' -> m_bytes m = got ++ n ->
  concat cs = n ++ s -> (length (n ++ s) < fuel)%nat -> complete s a' (after_hdr fuel (recv_hdr fuel x)).
Proof.
  intros Hw Hin Hk Hha Hb Hc Hf. destruct (split_header m got _ Hb) as (hn & Eh & -> & El); [apply Hin|].
  rewrite <- app_assoc in *.
  destruct (recv_hdr_full fuel m got hn (m_body m ++ s) x cs) as (x1 & cs1 & -> & Hin1 & Ha1 & Hk1 & Hc1); try done.
  rewrite <- Ha1 in *. apply (name_complete fuel m [] (m_body m) s a' x1 cs1); try done; [by right|].
  rewrite length_app in Hf. lia.
Qed.

Lemma step_between fuel x :
  between x -> exists x0, recv_step fuel x = after_hdr fuel (recv_hdr fuel x0) /\ in_header [] x0 /\ abs x0 = abs x /\
    x_sock x0 = x_sock x.
Proof.
  intros [Hp Hs]. unfold recv_step. destruct Hs as [Hs|(Hs & Hpr & Hn & Hh)]; rewrite Hs.
  - rewrite (bool_decide_true (PROC_IDLE = _)) by done. cbn [x_ctx with_rctx reset_ctx r_state].
    rewrite bool_decide_true by done. eexists. split; [reflexivity|]. done.
  - rewrite (bool_decide_false (PROC_HDR = PROC_IDLE)), Hs, bool_decide_true by done.
    exists x. split; [reflexivity|]. split; [|done]. by split_and!.
Qed.

Lemma step_in_header fuel got x : in_header got x -> recv_step fuel x = after_hdr fuel (recv_hdr fuel x).
Proof.
  intros (_ & Hs & _). unfold recv_step. by rewrite (bool_decide_false (_ = PROC_IDLE)), Hs, bool_decide_true by (by rewrite ?Hs).
Qed.

Lemma step_in_name fuel m nm x :
  in_name m nm x -> exists x', recv_step fuel x = after_hdr fuel (recv_name fuel x') /\ in_name m nm x' /\
    abs x' = abs x /\ x_sock x' = x_sock x.
Proof.
  intros (Hp & Hs & Hpr & Hh & Hn). unfold recv_step.
  rewrite (bool_decide_false (_ = PROC_IDLE)), Hs, bool_decide_true by (by rewrite ?Hs).
  assert (E : recv_fill true fuel (HDR_SIZE - r_progress (x_ctx x)) (x_sock x) [] = Some (x_sock x, [], Full)).
  { pose proof (len_nonneg nm). destruct fuel; cbn [recv_fill]; by rewrite (proj2 (Z.leb_le _ _)) by lia. }
  unfold recv_hdr. rewrite E. cbn match. eexists. split; [reflexivity|]. split; [|done].
  unfold in_name. cbn [x_ctx with_rctx with_rsock r_p r_state r_progress r_hdr r_objName].
  change (len []) with 0. split_and!; try done. lia.
Qed.

Lemma step_in_data fuel m d a x : msg_wf m -> in_data m d a x -> recv_step fuel x = recv_data fuel x.
Proof.
  intros Hw Hin. pose proof (in_data_hdr m d a x Hw Hin) as Hhd. destruct Hin as (Hr & He & Hs & _).
  destruct (reply_body_len m Hw Hr He) as [Ht _]. unfold recv_step, dispatch.
  rewrite (bool_decide_false (_ = PROC_IDLE)), Hs, bool_decide_false by (by rewrite ?Hs).
  by rewrite Hhd, Ht.
Qed.

Lemma sock_is_eq cs x x' : x_sock x' = x_sock x -> sock_is cs x -> sock_is cs x'.
Proof. unfold sock_is. by intros ->. Qed.

Lemma step_dry fuel m s n' a a' x cs :
  msg_wf m -> mid m (s ++ n') a x -> handle m a = Some a' -> sock_is cs x -> concat cs = s -> n' <> [] ->
  (length s < fuel)%nat -> dry m n' a (recv_step fuel x).
Proof.
  intros Hw Hm Hha Hk Hc Hne Hf.
  destruct Hm as [(E & Hb & <-)|[(got & E & Hi & <-)|[(nm & Hr & E & Hi & <-)|(d & E & Hi)]]].
  - destruct (step_between fuel x Hb) as (x0 & -> & Hi & Ha & Hs). rewrite <- Ha in *.
    apply (header_dry fuel m [] s n' a' x0 cs); try done. by apply (sock_is_eq cs x).
  - rewrite (step_in_header fuel got x Hi). by apply (header_dry fuel m got s n' a' x cs).
  - destruct (step_in_name fuel m nm x Hi) as (x0 & -> & Hi' & Ha & Hs). rewrite <- Ha in *.
    apply (name_dry fuel m nm s n' a' x0 cs); try done; [by left|]. by apply (sock_is_eq cs x).
  - rewrite (step_in_data fuel m d a x Hw Hi).
    destruct (recv_data_short fuel m d s n' a x cs) as (x' & -> & Hd' & Hk'); try done.
    exists x'. split; [done|]. split; [|done]. right; right; right. exists (d ++ s). by rewrite <- app_assoc.
Qed.

Lemma step_complete fuel m n s a a' x cs :
  msg_wf m -> mid m n a x -> n <> [] -> handle m a = Some a' -> sock_is cs x -> concat cs = n ++ s ->
  (length (n ++ s) < fuel)%nat -> complete s a' (recv_step fuel x).
Proof.
  intros Hw Hm Hn Hha Hk Hc Hf.
  destruct Hm as [(E & Hb & <-)|[(got & E & Hi & <-)|[(nm & Hr & E & Hi & <-)|(d & E & Hi)]]].
  - destruct (step_between fuel x Hb) as (x0 & -> & Hi & Ha & Hs). rewrite <- Ha in *.
    apply (header_complete fuel m [] n s a' x0 cs); try done. by apply (sock_is_eq cs x).
  - rewrite (step_in_header fuel got x Hi). by apply (header_complete fuel m got n s a' x cs).
  - destruct (step_in_name fuel m nm x Hi) as (x0 & -> & Hi' & Ha & Hs). rewrite <- Ha in *.
    apply (name_complete fuel m nm n s a' x0 cs); try done; [by left|]. by apply (sock_is_eq cs x).
  - rewrite (step_in_data fuel m d a x Hw Hi).
    destruct (recv_data_full fuel m d n s a a' x cs) as (x' & r & cs' & -> & ?); try done. by exists x', r, cs'.
Qed.

(** Nothing has arrived. *)
Lemma step_nothing fuel x :
  between x -> sock_is [] x -> (0 < fuel)%nat ->
  exists x', recv_step fuel x = Some (x', Some true) /\ between x' /\ abs x' = abs x /\ sock_is [] x'.
Proof.
  intros Hb Hk Hf. destruct (step_between fuel x Hb) as (x0 & -> & Hi & Ha & Hs).
  destruct (recv_hdr_short fuel [] [] x0 [] Hi) as (x' & -> & Hi' & Ha' & Hk'); try done; [by apply (sock_is_eq [] x)|].
  exists x'. rewrite Ha', Ha. split; [done|]. split; [|done]. destruct Hi' as (? & ? & ? & ? & ? & ?). split; [done|by right].
Qed.

(** *** Calls *)

(** The stream [st] is what remains of the messages [ms], received in the state [a]. *)
Definition at_stream (st : str) (ms : list Msg) (a : Abs) x : Prop :=
  match ms with
  | [] => st = [] /\ between x /\ abs x = a
  | m :: ms => exists need, need <> [] /\ mid m need a x /\ st = need ++ concat (m_bytes <$> ms)
  end.

Lemma m_bytes_nonempty m : m_bytes m <> [].
Proof. intros E. apply (f_equal len) in E. unfold m_bytes in E. rewrite len_app, len_hdr_bytes in E.
  pose proof (len_nonneg (m_body m)). change (len []) with 0 in E. unfold HDR_SIZE in E. lia. Qed.

Lemma at_stream_between ms x : between x -> at_stream (concat (m_bytes <$> ms)) ms (abs x) x.
Proof.
  intros Hb. destruct ms as [|m ms]; [done|]. exists (m_bytes m). split; [apply m_bytes_nonempty|]. split; [by left|done].
Qed.

Lemma recv_call fuel rounds ms a af x cs fut :
  Forall msg_wf ms -> at_stream (concat cs ++ fut) ms a x -> handle_all ms a = Some af -> sock_is cs x ->
  (length (concat cs) < fuel)%nat -> (length (concat cs) < rounds)%nat ->
  exists x' cs' ms' a', recv_loop rpcGet strerror sockno rounds fuel x = Some (x', true) /\ sock_is cs' x' /\
    (concat cs' = [] \/ (length (concat cs') < length (concat cs))%nat) /\
    Forall msg_wf ms' /\ at_stream (concat cs' ++ fut) ms' a' x' /\ handle_all ms' a' = Some af.
Proof.
  revert ms a x cs. induction rounds as [|rounds IH]; intros ms a x cs Hms Hst Hall Hk Hf Hr; [lia|]. cbn [recv_loop].
  destruct ms as [|m ms].
  { destruct Hst as (E & Hb & Ha). apply app_eq_nil in E as [Ec ->]. assert (cs = []) as ->.
    { pose proof (chunks_len cs (proj2 Hk)) as Hl. rewrite Ec in Hl. destruct cs; [done|cbn in Hl; lia]. }
    destruct (step_nothing fuel x Hb Hk) as (x' & -> & Hb' & Ha' & Hk'); [lia|].
    exists x', [], [], a. split_and!; try done; [by left|]. split_and!; try done. by rewrite Ha'. }
  inversion Hms as [|? ? Hm Hms']; subst. destruct Hst as (need & Hne & Hmid & Est). cbn [handle_all] in Hall.
  destruct (handle m a) as [a1|] eqn:Hha; [|done]. apply app_eq_strict in Est as [(k & Ek & Efut)|(k & Hk0 & Ek & Efut)].
  - destruct (step_complete fuel m need k a a1 x cs Hm Hmid Hne Hha Hk Ek) as (x1 & b & cs1 & -> & Hb & Hbt & Ha & Hk1 & Hc1);
      [by rewrite <- Ek|].
    assert (Hst1 : at_stream (concat cs1 ++ fut) ms a1 x1) by (rewrite Hc1, <- Efut, <- Ha; by apply at_stream_between).
    assert (length (concat cs1) < length (concat cs))%nat.
    { rewrite Hc1, Ek, length_app. destruct need; [done|]. cbn [length]. lia. }
    destruct b as [[]|]; [|done|].
    + exists x1, cs1, ms, a1. split_and!; try done. by right.
    + destruct (IH ms a1 x1 cs1) as (x2 & cs2 & ms2 & a2 & -> & Hk2 & Hd2 & Hr2); try done; [lia..|].
      exists x2, cs2, ms2, a2. split_and!; try apply Hr2; try done. destruct Hd2; [by left|right; lia].
  - rewrite Ek in Hmid. destruct (step_dry fuel m (concat cs) k a a1 x cs) as (x1 & -> & Hmid1 & Hk1); try done.
    exists x1, [], (m :: ms), a. split_and!; try done; [by left|exists k; by rewrite Efut|].
    cbn [handle_all]. by rewrite Hha.
Qed.
End receiving.
Arguments Abs G : clear implicits.

(** ** Properties: receiving *)

(** Pieces of the stream arrive. *)
Definition arrive {G} (cs : list str) (x : Rx G) : Rx G :=
  with_rsock (mkRxSocket (rx_chunks (x_sock x) ++ cs) (rx_tail (x_sock x))) (x_errno x) x.

(** The receiving thread calls [processEndpointRecv] as long as the socket is
    readable, which a level-triggered poll reports again and again. *)
Fixpoint recv_ready {G} (rpcGet : Z -> str -> Z -> Z -> G -> G) strerror sockno (n fuel : nat) (x : Rx G) : option (Rx G) :=
  if bool_decide (rx_chunks (x_sock x) = []) then Some x else
  match n with
  | O => None
  | S n =>
      match processEndpointRecv rpcGet strerror sockno fuel fuel x with
      | Some (x, true) => recv_ready rpcGet strerror sockno n fuel x
      | _ => None
      end
  end.

(** The stream arrives in any number of bursts, each in pieces. *)
Fixpoint deliver {G} (rpcGet : Z -> str -> Z -> Z -> G -> G) strerror sockno (fuel : nat) (bursts : list (list str))
    (x : Rx G) : option (Rx G) :=
  match bursts with
  | [] => Some x
  | cs :: bursts =>
      match recv_ready rpcGet strerror sockno fuel fuel (arrive cs x) with
      | Some x => deliver rpcGet strerror sockno fuel bursts x
      | None => None
      end
  end.

Section receiving_all.
Context {G : Type} (rpcGet : Z -> str -> Z -> Z -> G -> G) (strerror : Z -> str) (sockno : Z).
Implicit Types (x : Rx G).

Lemma recv_ready_spec n fuel ms a af x cs fut :
  Forall msg_wf ms -> at_stream (concat cs ++ fut) ms a x -> handle_all rpcGet sockno ms a = Some af -> sock_is cs x ->
  (length (concat cs) < fuel)%nat -> (length (concat cs) < n)%nat ->
  exists x' ms' a', recv_ready rpcGet strerror sockno n fuel x = Some x' /\ sock_is [] x' /\
    Forall msg_wf ms' /\ at_stream fut ms' a' x' /\ handle_all rpcGet sockno ms' a' = Some af.
Proof.
  revert ms a x cs. induction n as [|n IH]; intros ms a x cs Hms Hst Hall Hk Hf Hn; [lia|]. cbn [recv_ready].
  assert (Hch : rx_chunks (x_sock x) = cs) by (by rewrite (proj1 Hk)). rewrite Hch. case_bool_decide as Hc.
  { subst cs. rewrite Hc in *. by exists x, ms, a. }
  unfold processEndpointRecv.
  destruct (recv_call rpcGet strerror sockno fuel fuel ms a af x cs fut)
    as (x1 & cs1 & ms1 & a1 & -> & Hk1 & Hd & Hms1 & Hst1 & Hall1); try done.
  assert (0 < length (concat cs))%nat by (pose proof (chunks_len cs (proj2 Hk)); destruct cs; [done|cbn [length] in *; lia]).
  assert (length (concat cs1) < length (concat cs))%nat by (destruct Hd as [->|?]; [cbn [length]|]; lia).
  apply (IH ms1 a1 x1 cs1); try done; lia.
Qed.

Lemma mid_sock m need a x x' : x_ctx x' = x_ctx x -> abs x' = abs x -> mid m need a x -> mid m need a x'.
Proof. unfold mid, between, in_header, in_name, in_data. by intros -> ->. Qed.

Lemma at_stream_arrive st ms a x cs : at_stream st ms a x -> at_stream st ms a (arrive cs x).
Proof.
  destruct ms as [|m ms]; [done|]. intros (need & ? & ? & ?). exists need. split; [done|]. split; [|done].
  by apply (mid_sock _ _ _ x).
Qed.

Lemma deliver_spec fuel bursts ms a af x :
  Forall msg_wf ms -> at_stream (concat (concat bursts)) ms a x -> handle_all rpcGet sockno ms a = Some af ->
  sock_is [] x -> Forall (Forall (fun c => c <> [])) bursts -> (length (concat (concat bursts)) < fuel)%nat ->
  exists x', deliver rpcGet strerror sockno fuel bursts x = Some x' /\ sock_is [] x' /\ between x' /\ abs x' = af.
Proof.
  revert ms a x. induction bursts as [|cs bursts IH]; intros ms a x Hms Hst Hall Hk Hb Hf; cbn [deliver].
  - exists x. split; [done|]. split; [done|]. cbn in Hst. destruct ms as [|m ms].
    + destruct Hst as (_ & ? & <-). cbn [handle_all] in Hall. by injection Hall as <-.
    + destruct Hst as (need & Hne & _ & E). symmetry in E. by apply app_eq_nil in E as [? _].
  - inversion Hb as [|? ? Hcs Hb']; subst. cbn [concat] in *. rewrite concat_app in *. rewrite length_app in Hf.
    assert (Hk1 : sock_is cs (arrive cs x)) by (split; [unfold arrive; rewrite (proj1 Hk)|]; done).
    destruct (recv_ready_spec fuel fuel ms a af (arrive cs x) cs (concat (concat bursts)))
      as (x1 & ms1 & a1 & -> & Hk' & Hms1 & Hst1 & Hall1); try done; [lia..|].
    apply (IH ms1 a1 x1); try done. lia.
Qed.
End receiving_all.

(** C31: what is received does not depend on how the stream is cut. However
    the bytes of a sequence of messages arrive, in bursts and in pieces of any
    size that end anywhere in a header, a name or the data, every request is
    handed over once, with its name, range and number, and every reply without
    error puts exactly its bytes at the start of the buffer of the receive with
    its number and fulfils its promise with the length, one with an error
    fulfils the promise with the error; all in the order of the messages, if
    each reply has a receive that waits for it. At the end the machine is ready for the next
    message. *)
Theorem recv_framing {G} (rpcGet : Z -> str -> Z -> Z -> G -> G) strerror sockno fuel bursts ms (x : Rx G) a' :
  Forall msg_wf ms -> concat (concat bursts) = concat (m_bytes <$> ms) ->
  Forall (Forall (fun c => c <> [])) bursts -> (length (concat (m_bytes <$> ms)) < fuel)%nat ->
  between x -> x_sock x = mkRxSocket [] RxOpen -> handle_all rpcGet sockno ms (abs x) = Some a' ->
  exists x', deliver rpcGet strerror sockno fuel bursts x = Some x' /\ between x' /\ abs x' = a'.
Proof.
  intros Hms Hc Hb Hf Hbt Hk Hall. rewrite <- Hc in Hf.
  destruct (deliver_spec rpcGet strerror sockno fuel bursts ms (abs x) a' x) as (x' & ? & _ & ? & ?); try done.
  - rewrite Hc. by apply at_stream_between.
  - by exists x'.
Qed.

Definition demo_msgs : list Msg :=
  [mkMsg (mkHdr 7 10 3 35 1 0 0) "b/k"; mkMsg (mkHdr 9 3 0 32 2 0 0) "ell"; mkMsg (mkHdr 8 0 0 32 2 22 0) []].

Definition demo_rx : Rx (list str) :=
  mkRx (mkRecv PROC_IDLE [] 0 [] 0 None) (mkRxSocket [] RxOpen) 0
    (insertOrReplace 8 (mkRecvWork 8 200 5) (insertOrReplace 9 (mkRecvWork 9 100 5) []))
    (<[100 := "....."%list : str]> ∅) [] 0 [].

(** Cut in three, in the middle of the first header and of the data. *)
Definition demo_bursts : list (list str) :=
  let s := concat (m_bytes <$> demo_msgs) in [[slice 0 20 s]; [slice 20 14 s; slice 34 34 s]; [slice 68 100 s]].

Lemma recv_framing_witness :
  exists x', deliver (fun id nm n off g => g ++ [nm]) (fun _ => []) 5 200 demo_bursts demo_rx = Some x' /\
    x_mem x' !! 100 = Some ("ell.." : str) /\ x_gets x' = ["b/k" : str] /\
    fst <$> x_promises x' = [9; 8].
Proof.
  destruct (recv_framing (fun id nm n off g => g ++ [nm]) (fun _ => []) 5 200 demo_bursts demo_msgs demo_rx
    (default (mkAbs [] ∅ [] []) (handle_all (fun id nm n off g => g ++ [nm]) 5 demo_msgs (abs demo_rx))))
    as (x' & E & _ & Ha).
  - apply List.Forall_cons; [split; [split; cbn; unfold is_u64, two64; lia|left; by split_and!]|].
    apply List.Forall_cons; [split; [split; cbn; unfold is_u64, two64; lia|right; by split_and!]|].
    apply List.Forall_cons; [split; [split; cbn; unfold is_u64, two64; lia|right; by split_and!]|done].
  - vm_compute. reflexivity.
  - repeat constructor; vm_compute; discriminate.
  - vm_compute. lia.
  - split; [done|by left].
  - done.
  - vm_compute. reflexivity.
  - exists x'. split; [exact E|]. unfold abs in Ha. injection Ha as _ -> -> ->. repeat split; vm_compute; reflexivity.
Defined.

(** If the peer closes the connection in the middle of the data of a reply, and
    the end of the stream is seen by [recv], the loop does not notice it: no
    number of iterations is enough. *)
Theorem reply_cut_never_ends {G} (rpcGet : Z -> str -> Z -> Z -> G -> G) strerror sockno rounds fuel (x : Rx G) :
  r_state (x_ctx x) = PROC_DATA -> hd_type (hdr_of (r_hdr (x_ctx x))) = GET_REPLY ->
  x_sock x = mkRxSocket [] RxEof -> r_progress (x_ctx x) < hd_datalen (hdr_of (r_hdr (x_ctx x))) ->
  processEndpointRecv rpcGet strerror sockno rounds fuel x = None.
Proof.
  intros Hs Ht Hk Hl. destruct rounds as [|rounds]; [done|]. unfold processEndpointRecv. cbn [recv_loop].
  assert (Hspin : forall fuel need got, 0 < need -> recv_fill false fuel need (mkRxSocket [] RxEof) got = None).
  { clear fuel. intros fuel. induction fuel as [|fuel IH]; intros need got Hn; cbn [recv_fill];
      rewrite (proj2 (Z.leb_gt _ _)) by done; [done|].
    cbn [recv rx_chunks rx_tail andb]. rewrite andb_false_r, Z.sub_0_r. by apply IH. }
  unfold recv_step. rewrite (bool_decide_false (_ = PROC_IDLE)) by congruence. rewrite bool_decide_false by congruence.
  unfold dispatch. rewrite Ht. cbn [Z.eqb GET_REPLY GET_REQ Pos.eqb]. unfold recv_data.
  rewrite Hk, Hspin by lia. done.
Qed.
