(* ===== verification/TcpTransport.v ===== *)
(** * The message transport: peers, endpoints and requests

    src/src/libgeds/TcpTransport.cpp, TcpTransport.h: a [TcpTransport] keeps one
    [TcpPeer] for each host, found by a hash of its address; a peer has a queue
    of messages to send, a map of receives that wait for a reply, and several
    endpoints, connections that share both. Any endpoint takes the next message
    from the queue (TcpFraming.v), any endpoint receives any message
    (TcpReceive.v). Requests are answered from the local files of the process
    (GEDS.v). An endpoint is kept in two halves, so that the machine that
    receives has the sending side of the peer as the state of its handler of
    requests. The threads that connect and accept run step by step, on the
    peers they share. *)

From Stdlib Require Import Ascii ZArith Lia.
From stdpp Require Import base gmap sets list strings numbers functions.
From S2P Require Import Prelude Bytes Endian Decimal Status StdMap Path Object MDSKVS S3Endpoint.
From S2P Require Import MetadataService LocalFile ConcurrentMap GedsNames Node Handles HandleIO.
From S2P Require Import ConcurrentQueue GEDS GEDSCreate GEDSCache.
From S2P Require Import TcpDataTransport TcpConnection TcpFraming TcpReceive.

Open Scope Z_scope.
Open Scope list_scope.

Definition MIN_SENDFILE_SIZE : Z := 4096.
Definition MAX_IO_THREADS : Z := 8.

(** [epState] *)
Definition ALL_OPEN : Z := 0.
Definition TX_CLOSED : Z := 1.
Definition RX_CLOSED : Z := 2.
Definition ALL_CLOSED : Z := Z.lor TX_CLOSED RX_CLOSED.

(** [SStringHash]: [char] is signed. *)
Definition char_value (c : ascii) : Z :=
  let n := Z.of_N (N_of_ascii c) in if n <? 128 then n else n - 256.

Definition SStringHash (name : str) : Z :=
  fold_left (fun hash c => u32 (char_value c + u32 (Z.shiftl hash 6) + u32 (Z.shiftl hash 16) - hash)) name 0.

(** [epoll_epid_t]: what an event carries, read as a peer and a socket, or as a
    descriptor. *)
Definition ep_data (peer_id sock : Z) : Z := Z.lor (u32 peer_id) (Z.shiftl (u32 sock) 32).
Definition ep_peer (data : Z) : Z := u32 data.
Definition ep_sock (data : Z) : Z := i32 (Z.shiftr data 32).
Definition ep_fd (data : Z) : Z := i32 data.

(** ** Peers *)

(** The halves of a [TcpEndpoint]. *)
Record TxHalf := mkTxHalf {
  e_state : Z;
  e_send : SendState;
  e_tx_bytes : Z;
  e_out : TcpSocket
}.
Record RxHalf := mkRxHalf {
  e_recv : RecvState;
  e_rx_bytes : Z;
  e_in : RxSocket;
  e_errno : Z
}.

(** The sending side of a peer, with the buffers of the transport: those in use
    by their address, and the free ones; one peer is looked at at a time, so the
    stack that all peers share is kept with it. *)
Record Sender := mkSender {
  sn_queue : list SocketSendWork;
  sn_stat : Z;
  sn_eps : smap Z TxHalf;
  sn_bufs : gmap Z str;
  sn_free : list Z;
  sn_fresh : Z                 (** where the next buffer would be allocated *)
}.

Record TcpPeer := mkPeer {
  p_Id : Z;
  p_hostname : str;
  p_rpcReqId : Z;
  p_recvQueue : smap Z SocketRecvWork;
  p_recvStat : Z;
  p_rx : smap Z RxHalf;
  p_sender : Sender
}.

(** [std::make_shared<TcpEndpoint>()] *)
Definition newTx (out : TcpSocket) : TxHalf :=
  mkTxHalf ALL_OPEN (mkSend PROC_IDLE (mkHdr 0 0 0 0 0 0 0) 0 0 [] 0) 0 out.
Definition newRx (inp : RxSocket) : RxHalf := mkRxHalf (mkRecv PROC_IDLE (zeros HDR_SIZE) 0 [] 0 None) 0 inp 0.

Definition newPeer (name : str) : TcpPeer :=
  mkPeer (SStringHash name) name 0 [] 0 [] (mkSender [] 0 [] ∅ [] 0).

Definition set_eps (eps : smap Z TxHalf) (s : Sender) : Sender :=
  mkSender (sn_queue s) (sn_stat s) eps (sn_bufs s) (sn_free s) (sn_fresh s).
Definition set_queue (q : list SocketSendWork) (stat : Z) (s : Sender) : Sender :=
  mkSender q stat (sn_eps s) (sn_bufs s) (sn_free s) (sn_fresh s).
Definition set_rx (rx : smap Z RxHalf) (p : TcpPeer) : TcpPeer :=
  mkPeer (p_Id p) (p_hostname p) (p_rpcReqId p) (p_recvQueue p) (p_recvStat p) rx (p_sender p).
Definition set_sender (s : Sender) (p : TcpPeer) : TcpPeer :=
  mkPeer (p_Id p) (p_hostname p) (p_rpcReqId p) (p_recvQueue p) (p_recvStat p) (p_rx p) s.

(** [getBuffer], [releaseBuffer]: a stack of free buffers; a buffer is allocated
    when there is none. *)
Definition getBuffer (s : Sender) : Sender * Z :=
  match sn_free s with
  | a :: free => (mkSender (sn_queue s) (sn_stat s) (sn_eps s) (sn_bufs s) free (sn_fresh s), a)
  | [] => (mkSender (sn_queue s) (sn_stat s) (sn_eps s) (sn_bufs s) [] (sn_fresh s + MIN_SENDFILE_SIZE), sn_fresh s)
  end.
Definition releaseBuffer (a : Z) (s : Sender) : Sender :=
  mkSender (sn_queue s) (sn_stat s) (sn_eps s) (sn_bufs s) (a :: sn_free s) (sn_fresh s).
Definition fill_buffer (a : Z) (bytes : str) (s : Sender) : Sender :=
  mkSender (sn_queue s) (sn_stat s) (sn_eps s) (<[a := bytes]> (sn_bufs s)) (sn_free s) (sn_fresh s).

(** [getLeastUsedTx]: the endpoints in the order of their sockets. *)
Definition UINT_LEAST32_MAX : Z := 4294967295.

Fixpoint least_used (eps : list (Z * TxHalf)) (to_send min_sent : Z) (send_tep tep : option Z) : option Z :=
  match eps with
  | [] => match send_tep with Some _ => send_tep | None => tep end
  | (sock, e) :: eps =>
      if negb (e_state e =? ALL_OPEN) then least_used eps to_send min_sent send_tep None
      else if bool_decide (s_state (e_send e) = PROC_IDLE) then Some sock
      else if u64 (e_tx_bytes e + to_send) <? min_sent
           then least_used eps to_send (e_tx_bytes e) (Some sock) (Some sock)
           else least_used eps to_send min_sent send_tep (Some sock)
  end.

Definition getLeastUsedTx (to_send : Z) (s : Sender) : option Z :=
  least_used (sn_eps s) to_send UINT_LEAST32_MAX None None.

Section peer.
(** The bytes of the file behind a descriptor. *)
Context (file : Z -> str).

(** [processEndpointSend(tep)] of a peer; [None] when [fuel] is used up. *)
Definition send_on (fuel : nat) (sock : Z) (e : TxHalf) (s : Sender) : option (Sender * bool) :=
  let mem a := default [] (sn_bufs s !! a) in
  match processEndpointSend mem file fuel (mkTx (e_send e) (sn_queue s) (e_out e) (e_tx_bytes e) []) with
  | None => None
  | Some (x, b) =>
      let popped := Z.of_nat (length (sn_queue s)) - Z.of_nat (length (tx_queue x)) in
      let s := set_eps (massign sock (mkTxHalf (e_state e) (tx_ctx x) (tx_bytes x) (tx_sock x)) (sn_eps s))
                 (set_queue (tx_queue x) (sn_stat s - popped) s) in
      Some (fold_left (fun s a => releaseBuffer a s) (tx_released x) s, b)
  end.

(** [SocketTxReady] *)
Definition SocketTxReady (fuel : nat) (sock : Z) (s : Sender) : option (Sender * bool) :=
  match mfind sock (sn_eps s) with
  | None => Some (s, false)
  | Some e => send_on fuel sock e s
  end.

(** What [sendRpcReply] and [sendRpcRequest] share: the work is queued and an
    endpoint is made to send. *)
Definition enqueue (fuel : nat) (w : SocketSendWork) (s : Sender) : option (Sender * bool) :=
  let s := set_queue (q_emplace w (sn_queue s)) (sn_stat s + 1) s in
  match getLeastUsedTx (sw_len w) s with
  | None => Some (s, false)
  | Some sock => SocketTxReady fuel sock s
  end.

(** [sendRpcReply]: whether sending succeeded; what it returns is an error number
    otherwise, which no caller looks at. *)
Definition sendRpcReply (fuel : nat) (reqId in_fd start len status : Z) (s : Sender) : option (Sender * bool) :=
  enqueue fuel (mkSendWork [] reqId start in_fd 0 len GET_REPLY status) s.

(** [sendRpcRequest]: the number of the request, and the promises that are
    fulfilled at once. *)
Definition sendRpcRequest (fuel : nat) (dest : Z) (name : str) (off len : Z) (p : TcpPeer)
    (promises : list (Z * StatusOr Z)) : option (TcpPeer * list (Z * StatusOr Z) * Z) :=
  let reqId := u64 (p_rpcReqId p + 1) in
  let recvQueue := insertOrReplace reqId (mkRecvWork reqId dest len) (p_recvQueue p) in
  let w := mkSendWork name reqId 0 (-1) off len GET_REQ 0 in
  match enqueue fuel w (p_sender p) with
  | None => None
  | Some (s, true) =>
      Some (mkPeer (p_Id p) (p_hostname p) reqId recvQueue (p_recvStat p + 1) (p_rx p) s, promises, reqId)
  | Some (s, false) =>
      let '(recvQueue, removed) := cm_remove reqId recvQueue in
      if removed
      then Some (mkPeer (p_Id p) (p_hostname p) reqId recvQueue (p_recvStat p + 1 - 1) (p_rx p) s,
                 promises ++ [(reqId, Error (AbortedError "Unable to proceed: "))], reqId)
      else Some (mkPeer (p_Id p) (p_hostname p) reqId recvQueue (p_recvStat p + 1) (p_rx p) s, promises, reqId)
  end.

(** [cleanup]: the pending receives are given up in the order of their numbers; it
    is the count of the send queue that is decreased. *)
Definition cleanup (p : TcpPeer) (promises : list (Z * StatusOr Z)) : TcpPeer * list (Z * StatusOr Z) :=
  let s := p_sender p in
  let stat := sn_stat s - Z.of_nat (length (p_recvQueue p)) - Z.of_nat (length (sn_queue s)) in
  (mkPeer (p_Id p) (p_hostname p) (p_rpcReqId p) [] (p_recvStat p) [] (set_eps [] (set_queue [] stat s)),
   promises ++ map (fun e => (rw_reqId (snd e), Error (UnavailableError "TcpPeer closed"))) (p_recvQueue p)).

(** [TcpPeer::updateIoStats] *)
Definition updateIoStats (p : TcpPeer) : TcpPeer :=
  let halve_tx e := mkTxHalf (e_state e) (e_send e) (e_tx_bytes e / 2) (e_out e) in
  let halve_rx e := mkRxHalf (e_recv e) (e_rx_bytes e / 2) (e_in e) (e_errno e) in
  set_rx (map (fun k => (fst k, halve_rx (snd k))) (p_rx p))
    (set_sender (set_eps (map (fun k => (fst k, halve_tx (snd k))) (sn_eps (p_sender p))) (p_sender p)) p).

(** [addEndpoint], [delEndpoint]: [emplace] keeps an endpoint that is there. *)
Definition addEndpoint (sock : Z) (out : TcpSocket) (inp : RxSocket) (p : TcpPeer) : TcpPeer :=
  set_rx (fst (minsert sock (newRx inp) (p_rx p)))
    (set_sender (set_eps (fst (minsert sock (newTx out) (sn_eps (p_sender p)))) (p_sender p)) p).
Definition delEndpoint (sock : Z) (p : TcpPeer) : TcpPeer :=
  set_rx (merase sock (p_rx p)) (set_sender (set_eps (merase sock (sn_eps (p_sender p))) (p_sender p)) p).

(** [SocketStateChange]: the peer, and whether it is dead. *)
Definition SocketStateChange (sock change : Z) (p : TcpPeer) : TcpPeer * bool :=
  match mfind sock (sn_eps (p_sender p)) with
  | None => (p, false)
  | Some e =>
      if negb (change =? 0) && (Z.land (e_state e) change =? 0) then
        let state := Z.lor (e_state e) change in
        if Z.land state ALL_CLOSED =? ALL_CLOSED then
          let p := delEndpoint sock p in
          (p, match sn_eps (p_sender p) with [] => true | _ => false end)
        else
          (set_sender (set_eps (massign sock (mkTxHalf state (e_send e) (e_tx_bytes e) (e_out e))
                                  (sn_eps (p_sender p))) (p_sender p)) p, false)
      else (p, false)
  end.
End peer.

(** ** Answering requests *)

(** What [TcpProcessRpcGet] answers: no bytes and a status, a range of a file, or
    bytes in a buffer. *)
Inductive rpc_answer :=
| AnsStatus (status : Z)
| AnsFile (in_fd off len : Z)
| AnsBuffer (bytes : str) (len : Z).

Section process.
Context {W X K T : Type} `{MDStub W} `{S3Client X} `{Kernel K} `{Transfers T}.
Context (file : Z -> str) (strerror : Z -> str) (fuel : nat).

(** The bytes are read into a buffer. The length of a failed read is looked at
    before its status, which ends the process. *)
Definition read_answer (f : nat) (off len : Z) : M W X K T rpc_answer :=
  let* status := gf_readBytes fuel f off len in
  match status with
  | Error _ => fun _ => Crash
  | Value (n, bytes) => close f ;; ret (AnsBuffer bytes n)
  end.

(** The file is closed when [TcpProcessRpcGet] returns. *)
Definition rpcAnswer (objName : str) (len off : Z) : M W X K T rpc_answer :=
  match find_char "/" objName with
  | None => ret (AnsStatus EINVAL)
  | Some separator =>
      let* f := localOpen fuel (take separator objName) (drop (S separator) objName) in
      match f with
      | Error _ => ret (AnsStatus EINVAL)
      | Value f =>
          let* filesize := gf_size f in
          if filesize <? off then close f ;; ret (AnsStatus EINVAL) else
          let filesize := filesize - off in
          let len := if len =? 0 then filesize else Z.min filesize len in
          if len =? 0 then close f ;; ret (AnsStatus 0) else
          let* rawFd := h_rawFd fuel f in
          match rawFd with
          | Value in_fd =>
              if MIN_SENDFILE_SIZE <=? len then close f ;; ret (AnsFile in_fd off len)
              else read_answer f off len
          | Error _ => read_answer f off len
          end
      end
  end.

Definition send_answer (reqId : Z) (a : rpc_answer) (s : Sender) : option (Sender * bool) :=
  match a with
  | AnsStatus status => sendRpcReply file fuel reqId (-1) 0 0 status s
  | AnsFile in_fd off len => sendRpcReply file fuel reqId in_fd off len 0 s
  | AnsBuffer bytes n =>
      let '(s, buffer) := getBuffer s in
      sendRpcReply file fuel reqId (-1) buffer n 0 (fill_buffer buffer bytes s)
  end.

(** [TcpProcessRpcGet]: [None] when the process ends, or [fuel] is used up. *)
Definition TcpProcessRpcGet (reqId : Z) (objName : str) (len off : Z) (g : option (Node W X K T * Sender)) :
    option (Node W X K T * Sender) :=
  match g with
  | None => None
  | Some (n, s) =>
      match rpcAnswer objName len off n with
      | Done a n =>
          match send_answer reqId a s with
          | Some (s, _) => Some (n, s)
          | None => None
          end
      | _ => None
      end
  end.

(** A process, seen from one of its peers: its files, the peer, the buffers of
    its callers and the promises that were fulfilled. *)
Record Process := mkProcess {
  pc_node : Node W X K T;
  pc_peer : TcpPeer;
  pc_mem : gmap Z str;
  pc_promises : list (Z * StatusOr Z)
}.

(** The receiving half of an endpoint in its process. *)
Definition rx_of (e : RxHalf) (c : Process) : Rx (option (Node W X K T * Sender)) :=
  mkRx (e_recv e) (e_in e) (e_errno e) (p_recvQueue (pc_peer c)) (pc_mem c) (pc_promises c) (e_rx_bytes e)
    (Some (pc_node c, p_sender (pc_peer c))).

Definition put_rx (sock : Z) (x : Rx (option (Node W X K T * Sender))) (c : Process) : option Process :=
  match x_gets x with
  | None => None
  | Some (n, s) =>
      let p := pc_peer c in
      let removed := Z.of_nat (length (p_recvQueue p)) - Z.of_nat (length (x_queue x)) in
      Some (mkProcess n
              (mkPeer (p_Id p) (p_hostname p) (p_rpcReqId p) (x_queue x) (p_recvStat p - removed)
                 (massign sock (mkRxHalf (x_ctx x) (x_bytes x) (x_sock x) (x_errno x)) (p_rx p)) s)
              (x_mem x) (x_promises x))
  end.

(** [processEndpointRecv(sock)] of the peer. *)
Definition peer_recv (sock : Z) (c : Process) : option (Process * bool) :=
  match mfind sock (p_rx (pc_peer c)) with
  | None => Some (c, false)
  | Some e =>
      match processEndpointRecv TcpProcessRpcGet strerror sock fuel fuel (rx_of e c) with
      | None => None
      | Some (x, b) => match put_rx sock x c with Some c => Some (c, b) | None => None end
      end
  end.
End process.
Arguments Process W X K T : clear implicits.

(** ** The transport *)

(** Peers are shared objects: the map, the threads and what they call hold
    pointers to them. *)
Record TcpTransport := mkTransport {
  t_peers : smap Z nat;
  t_isServing : bool;
  t_num_proc : Z;
  t_eventFd : Z;
  t_buffers : list Z
}.

Definition newTransport : TcpTransport := mkTransport [] false 0 (-1) [].

Definition set_peers (peers : smap Z nat) (t : TcpTransport) : TcpTransport :=
  mkTransport peers (t_isServing t) (t_num_proc t) (t_eventFd t) (t_buffers t).

(** [start]: [cpus] is the number of processors, [buffers] the addresses of what
    is allocated. *)
Definition tt_start (cpus : Z) (hyperthreading : bool) (eventFd : Z) (buffers : list Z) (t : TcpTransport) : TcpTransport :=
  if t_isServing t then t else
  let num_proc := if hyperthreading then cpus / 2 else cpus in
  mkTransport (t_peers t) true (Z.min num_proc MAX_IO_THREADS) eventFd
    (fold_left (fun b a => a :: b) (take (Z.to_nat MAX_IO_THREADS) buffers) (t_buffers t)).

(** What the threads of a process share: the transport, the peers, where the next one
    would be, and the thread that holds [connMutex]. *)
Record Shared := mkShared {
  sh_t : TcpTransport;
  sh_heap : nat -> TcpPeer;
  sh_fresh : nat;
  sh_lock : option nat
}.

Definition put_peer (o : nat) (p : TcpPeer) (s : Shared) : Shared :=
  mkShared (sh_t s) (<[o := p]> (sh_heap s)) (sh_fresh s) (sh_lock s).
Definition put_map (peers : smap Z nat) (s : Shared) : Shared :=
  mkShared (set_peers peers (sh_t s)) (sh_heap s) (sh_fresh s) (sh_lock s).
Definition put_lock (l : option nat) (s : Shared) : Shared :=
  mkShared (sh_t s) (sh_heap s) (sh_fresh s) l.

(** [tcpPeers.remove] *)
Definition remove_peer (key : Z) (s : Shared) : Shared := put_map (fst (cm_remove key (t_peers (sh_t s)))) s.

(** [std::make_shared<TcpPeer>(hostname, ...)], put into the map. *)
Definition make_peer (hostname : str) (s : Shared) : nat * Shared :=
  let o := sh_fresh s in
  (o, put_map (insertOrReplace (SStringHash hostname) o (t_peers (sh_t s)))
        (mkShared (sh_t s) (<[o := newPeer hostname]> (sh_heap s)) (S o) (sh_lock s))).

(** [tcpPeer->endpoints.size()] *)
Definition size_of (o : nat) (s : Shared) : Z := Z.of_nat (length (p_rx (sh_heap s o))).

(** The result of the system calls that register a socket. *)
Record activation := mkActivation { ac_nodelay : bool; ac_epoll_read : bool; ac_epoll_send : bool }.

(** [activateEndpoint]: [None] when the process divides by zero. *)
Definition activateEndpoint (a : activation) (num_proc : Z) : option bool :=
  if num_proc =? 0 then None
  else Some (ac_nodelay a && ac_epoll_read a && ac_epoll_send a).

(** A connection that was accepted or made, and what its activation will give. *)
Record link := mkLink { lk_sock : Z; lk_out : TcpSocket; lk_in : RxSocket; lk_act : activation }.

(** What becomes of an attempt to connect: it fails before there is an endpoint,
    or there is one to be activated. *)
Inductive connection_try :=
| ConnectFailed
| ConnectedTo (l : link).

(** Where a thread is in [addEndpointPassive] (P) or [getPeer] (G): before each
    access to what the threads share. [prepared] is whether the system calls before the
    lock succeed, [inet] whether the address is one of the Internet, [num_ep] the local
    count of [getPeer]. Each access to the endpoints of a peer is one step, although
    [addEndpointPassive] and [getPeer] do not hold the peer's lock either: what unprotected
    accesses to a [std::map] at the same instant do is undefined. *)
Inductive thread :=
| TIdle
| PCall (prepared : bool) (hostname : str) (l : link)
| PLock (hostname : str) (l : link)
| PGet (hostname : str) (l : link)
| PNew (hostname : str) (l : link)
| PCheck (o : nat) (l : link)
| PAdd (o : nat) (l : link)
| PActivate (o : nat) (l : link)
| PDel (o : nat) (l : link)
| PDone (added : bool)
| GCall (inet : bool) (hostname : str) (tries : list connection_try)
| GLock (hostname : str) (tries : list connection_try)
| GGet (hostname : str) (tries : list connection_try)
| GNew (hostname : str) (tries : list connection_try)
| GSize (o : nat) (tries : list connection_try)
| GLoop (o : nat) (num_ep : Z) (tries : list connection_try)
| GAdd (o : nat) (num_ep : Z) (l : link) (tries : list connection_try)
| GActivate (o : nat) (num_ep : Z) (l : link) (tries : list connection_try)
| GDel (o : nat) (num_ep : Z) (l : link)
| GEnd (o : nat) (num_ep : Z)
| GRemove (o : nat)
| GUnlock (peer : option nat)
| GDone (peer : option nat).

(** The next step of thread [i]; [None] when it has none, waits for the lock, or the
    process divides by zero. [addEndpointPassive] drops the lock as soon as it has it
    ([PLock]), [getPeer] keeps it until it returns. *)
Definition conn_next (i : nat) (th : thread) (s : Shared) : option (thread * Shared) :=
  let num_proc := t_num_proc (sh_t s) in
  match th with
  | TIdle | PDone _ | GDone _ => None
  | PCall prepared hostname l => Some (if prepared then PLock hostname l else PDone false, s)
  | PLock hostname l => match sh_lock s with None => Some (PGet hostname l, s) | Some _ => None end
  | PGet hostname l =>
      Some (match cm_get (SStringHash hostname) (t_peers (sh_t s)) with Some o => PCheck o l | None => PNew hostname l end, s)
  | PNew hostname l => let '(o, s) := make_peer hostname s in Some (PCheck o l, s)
  | PCheck o l => Some (if size_of o s <? num_proc then PAdd o l else PDone false, s)
  | PAdd o l => Some (PActivate o l, put_peer o (addEndpoint (lk_sock l) (lk_out l) (lk_in l) (sh_heap s o)) s)
  | PActivate o l =>
      match activateEndpoint (lk_act l) num_proc with
      | None => None
      | Some true => Some (PDone true, s)
      | Some false => Some (PDel o l, s)
      end
  | PDel o l => Some (PDone false, put_peer o (delEndpoint (lk_sock l) (sh_heap s o)) s)
  | GCall inet hostname tries => Some (if inet then GLock hostname tries else GDone None, s)
  | GLock hostname tries =>
      match sh_lock s with None => Some (GGet hostname tries, put_lock (Some i) s) | Some _ => None end
  | GGet hostname tries =>
      Some (match cm_get (SStringHash hostname) (t_peers (sh_t s)) with Some o => GSize o tries | None => GNew hostname tries end, s)
  | GNew hostname tries => let '(o, s) := make_peer hostname s in Some (GSize o tries, s)
  | GSize o tries => Some (GLoop o (size_of o s) tries, s)
  | GLoop o num_ep tries =>
      Some (if num_ep <? num_proc then
              match tries with
              | [] | ConnectFailed :: _ => GEnd o num_ep
              | ConnectedTo l :: tries => GAdd o num_ep l tries
              end
            else GEnd o num_ep, s)
  | GAdd o num_ep l tries =>
      Some (GActivate o num_ep l tries, put_peer o (addEndpoint (lk_sock l) (lk_out l) (lk_in l) (sh_heap s o)) s)
  | GActivate o num_ep l tries =>
      match activateEndpoint (lk_act l) num_proc with
      | None => None
      | Some true => Some (GLoop o (num_ep + 1) tries, s)
      | Some false => Some (GDel o num_ep l, s)
      end
  | GDel o num_ep l => Some (GEnd o num_ep, put_peer o (delEndpoint (lk_sock l) (sh_heap s o)) s)
  | GEnd o num_ep => Some (if 0 <? num_ep then GUnlock (Some o) else GRemove o, s)
  | GRemove o => Some (GUnlock None, remove_peer (p_Id (sh_heap s o)) s)
  | GUnlock r => Some (GDone r, put_lock None s)
  end.

(** Whether a thread has a pointer to a peer. *)
Definition has_pointer (o : nat) (th : thread) : bool :=
  match th with
  | PCheck x _ | PAdd x _ | PActivate x _ | PDel x _ | GSize x _ | GLoop x _ _ | GAdd x _ _ _ | GActivate x _ _ _
  | GDel x _ _ | GEnd x _ | GRemove x | GUnlock (Some x) | GDone (Some x) => (x =? o)%nat
  | _ => false
  end.

Section events.
Context {W X K T : Type} `{MDStub W} `{S3Client X} `{Kernel K} `{Transfers T}.
Context (file : Z -> str) (strerror : Z -> str) (fuel : nat).

(** A process with its transport. *)
Record System := mkSystem {
  sy_shared : Shared;
  sy_threads : list thread;
  sy_node : Node W X K T;
  sy_mem : gmap Z str;
  sy_promises : list (Z * StatusOr Z)
}.

Definition put_shared (s : Shared) (y : System) : System :=
  mkSystem s (sy_threads y) (sy_node y) (sy_mem y) (sy_promises y).
Definition peer_at (o : nat) (y : System) : TcpPeer := sh_heap (sy_shared y) o.

Definition clean (o : nat) (y : System) : System :=
  let '(p, promises) := cleanup (peer_at o y) (sy_promises y) in
  mkSystem (put_peer o p (sy_shared y)) (sy_threads y) (sy_node y) (sy_mem y) promises.

(** [~TcpPeer], when the last pointer to the peer is gone. *)
Definition drop_pointer (o : nat) (y : System) : System :=
  if existsb (fun kp => (snd kp =? o)%nat) (t_peers (sh_t (sy_shared y))) || existsb (has_pointer o) (sy_threads y)
  then y else clean o y.

(** [SocketStateChange]; a dead peer is removed from the map. *)
Definition close_dead (o : nat) (sock change : Z) (y : System) : System :=
  let '(p, dead) := SocketStateChange sock change (peer_at o y) in
  let s := put_peer o p (sy_shared y) in
  if dead then drop_pointer o (put_shared (remove_peer (p_Id p) s) y) else put_shared s y.

(** The bits of an event the threads look at: an error or the end of the stream,
    and whether the socket is ready. *)
Record event := mkEvent { ev_data : Z; ev_closed : bool; ev_ready : bool }.

(** One event of [tcpTxThread], while no other thread runs. *)
Definition tx_event_step (ev : event) (y : System) : option System :=
  if ep_fd (ev_data ev) =? t_eventFd (sh_t (sy_shared y)) then Some y else
  let sock := ep_sock (ev_data ev) in
  if sock <? 0 then Some y else
  match cm_get (ep_peer (ev_data ev)) (t_peers (sh_t (sy_shared y))) with
  | None => Some y
  | Some o =>
      if ev_closed ev then Some (close_dead o sock TX_CLOSED y)
      else if negb (ev_ready ev) then Some y
      else
        match SocketTxReady file fuel sock (p_sender (peer_at o y)) with
        | None => None
        | Some (s, b) =>
            let y := put_shared (put_peer o (set_sender s (peer_at o y)) (sy_shared y)) y in
            Some (if b then y else close_dead o sock TX_CLOSED y)
        end
  end.

(** What [peer_recv] does to a process. *)
Definition put_process (o : nat) (c : Process W X K T) (y : System) : System :=
  mkSystem (put_peer o (pc_peer c) (sy_shared y)) (sy_threads y) (pc_node c) (pc_mem c) (pc_promises c).

(** One event of [tcpRxThread]. *)
Definition rx_event_step (ev : event) (y : System) : option System :=
  if ep_fd (ev_data ev) =? t_eventFd (sh_t (sy_shared y)) then Some y else
  let sock := ep_sock (ev_data ev) in
  if sock <? 0 then Some y else
  match cm_get (ep_peer (ev_data ev)) (t_peers (sh_t (sy_shared y))) with
  | None => Some y
  | Some o =>
      if ev_closed ev then Some (close_dead o sock RX_CLOSED y)
      else if negb (ev_ready ev) then Some y
      else
        match peer_recv file strerror fuel sock (mkProcess (sy_node y) (peer_at o y) (sy_mem y) (sy_promises y)) with
        | None => None
        | Some (c, b) => let y := put_process o c y in Some (if b then y else close_dead o sock RX_CLOSED y)
        end
  end.

(** [stop]: every peer in the map is cleaned up. *)
Definition stopping (y : System) : System :=
  let t := sh_t (sy_shared y) in
  put_shared (mkShared (mkTransport (t_peers t) false (t_num_proc t) (-1) []) (sh_heap (sy_shared y))
                (sh_fresh (sy_shared y)) (sh_lock (sy_shared y))) y.

Definition tt_stop (y : System) : System :=
  let y := fold_left (fun y kp => clean (snd kp) y) (t_peers (sh_t (sy_shared y))) y in
  stopping (put_shared (put_map [] (sy_shared y)) y).

(** Whether a thread is inside a call. *)
Definition inside (th : thread) : bool := match th with TIdle | PDone _ | GDone _ => false | _ => true end.

(** What can happen: the transport is started, while no thread is inside a call, or
    stopped; a thread calls [addEndpointPassive] or [getPeer] or takes its next
    step; a request is made; an event thread sends, receives, changes the state of a
    socket or removes a peer, and a peer is cleaned up, in any order and on any peer,
    with any bytes. [start] sets [num_proc] in one step: it passes through larger
    values before it is halved and limited, while no thread looks at it. *)
Inductive tt_step (cpus : Z) (hyperthreading : bool) : System -> System -> Prop :=
| TStart eventFd buffers y :
    forallb (fun th => negb (inside th)) (sy_threads y) = true ->
    tt_step cpus hyperthreading y
      (put_shared (mkShared (tt_start cpus hyperthreading eventFd buffers (sh_t (sy_shared y))) (sh_heap (sy_shared y))
                     (sh_fresh (sy_shared y)) (sh_lock (sy_shared y))) y)
| TStopping y : tt_step cpus hyperthreading y (stopping y)
| TClear y : tt_step cpus hyperthreading y (put_shared (put_map [] (sy_shared y)) y)
| TCall s ts n m ps i th th' :
    ts !! i = Some th -> inside th = false -> match th' with PCall _ _ _ | GCall _ _ _ => True | _ => False end ->
    tt_step cpus hyperthreading (mkSystem s ts n m ps) (mkSystem s (<[i := th']> ts) n m ps)
| TNext s ts n m ps i th th' s' :
    ts !! i = Some th -> conn_next i th s = Some (th', s') ->
    tt_step cpus hyperthreading (mkSystem s ts n m ps) (mkSystem s' (<[i := th']> ts) n m ps)
| TRequest y o dest name off len p' promises id :
    sendRpcRequest file fuel dest name off len (peer_at o y) (sy_promises y) = Some (p', promises, id) ->
    tt_step cpus hyperthreading y
      (mkSystem (put_peer o p' (sy_shared y)) (sy_threads y) (sy_node y) (sy_mem y) promises)
| TSend y o sock s b :
    SocketTxReady file fuel sock (p_sender (peer_at o y)) = Some (s, b) ->
    tt_step cpus hyperthreading y (put_shared (put_peer o (set_sender s (peer_at o y)) (sy_shared y)) y)
| TRecv y o sock c b :
    peer_recv file strerror fuel sock (mkProcess (sy_node y) (peer_at o y) (sy_mem y) (sy_promises y)) = Some (c, b) ->
    tt_step cpus hyperthreading y (put_process o c y)
| TState y o sock change :
    tt_step cpus hyperthreading y
      (put_shared (put_peer o (fst (SocketStateChange sock change (peer_at o y))) (sy_shared y)) y)
| TRemove y key : tt_step cpus hyperthreading y (put_shared (remove_peer key (sy_shared y)) y)
| TClean y o : tt_step cpus hyperthreading y (clean o y)
| TStats y o : tt_step cpus hyperthreading y (put_shared (put_peer o (updateIoStats (peer_at o y)) (sy_shared y)) y).
End events.
Arguments System W X K T : clear implicits.
