(* ===== verification/TcpRequests.v ===== *)
(** * The message transport: no request is lost or answered twice

    A request of TcpTransport.v is pending in the receive queue of its peer, its
    reply is being received by one of the endpoints, or its promise has been
    fulfilled. Setting a promise twice, or dropping it, would throw; the ledger
    of a peer shows that neither happens, whatever the other side sends. *)

From Stdlib Require Import Ascii ZArith Lia.
From stdpp Require Import base gmap sets list strings numbers relations.
From S2P Require Import Prelude Bytes Endian Decimal Status StdMap Path Object MDSKVS S3Endpoint.
From S2P Require Import MetadataService LocalFile ConcurrentMap GedsNames Node Handles HandleIO.
From S2P Require Import Rpc MetadataServer GEDSCreate ConcurrentQueue.
From S2P Require Import TcpDataTransport TcpConnection TcpFraming TcpReceive TcpTransport.

Open Scope Z_scope.
Open Scope list_scope.

(** ** Lemmas: maps as bags of entries *)

Section bags.
Context {K V : Type} `{StrictTotal K}.
Implicit Types m : smap K V.

Lemma merase_bag k v m : mfind k m = Some v -> exists k', m ≡ₚ (k', v) :: merase k m.
Proof.
  induction m as [|[x w] m IH]; [done|]. cbn [mfind merase]. destruct (ltb x k).
  - intros E. destruct (IH E) as [k' Hp]. exists k'. rewrite Hp at 1. constructor.
  - destruct (ltb k x); [done|]. intros [= ->]. by exists x.
Qed.

Lemma massign_bag k v w m : mfind k m = Some v -> exists k', m ≡ₚ (k', v) :: merase k m /\ massign k w m ≡ₚ (k', w) :: merase k m.
Proof.
  induction m as [|[x u] m IH]; [done|]. cbn [mfind merase massign]. destruct (ltb x k).
  - intros E. destruct (IH E) as (k' & Hp & Hq). exists k'. rewrite Hp at 1. rewrite Hq. split; constructor.
  - destruct (ltb k x); [done|]. intros [= ->]. by exists x.
Qed.

Lemma massign_new_bag k w m : mfind k m = None -> massign k w m ≡ₚ (k, w) :: m.
Proof.
  induction m as [|[x u] m IH]; [done|]. cbn [mfind massign]. destruct (ltb x k).
  - intros E. rewrite (IH E). constructor.
  - by destruct (ltb k x).
Qed.
End bags.

(** ** The ledger of an endpoint *)

Definition pending_ids (q : smap Z SocketRecvWork) : list Z := (fun e => rw_reqId (snd e)) <$> q.
Definition progress_id (c : RecvState) : list Z := match r_p c with Some p => [p] | None => [] end.

Definition queue_ok (q : smap Z SocketRecvWork) : Prop :=
  sorted q /\ Forall (fun e => rw_reqId (snd e) = fst e) q.

Section endpoint.
Context {G : Type} (rpcGet : Z -> str -> Z -> Z -> G -> G) (strerror : Z -> str) (sockno : Z).
Implicit Types x : Rx G.

Definition ledger x : list Z := pending_ids (x_queue x) ++ progress_id (x_ctx x) ++ (x_promises x).*1.

(** A promise is held only in the data of a reply. *)
Definition rctx_ok (c : RecvState) : Prop :=
  is_Some (r_p c) -> r_state c = PROC_DATA /\ hd_type (hdr_of (r_hdr c)) = GET_REPLY.

Lemma rctx_none c : r_p c = None -> rctx_ok c.
Proof. intros E. unfold rctx_ok. rewrite E. by intros [? ?]. Qed.

(** The books balance, and the receive queue stays a map from numbers to their receives. *)
Record kept x x' : Prop := mkKept {
  kp_ledger : ledger x' ≡ₚ ledger x;
  kp_ctx : rctx_ok (x_ctx x');
  kp_queue : queue_ok (x_queue x) -> queue_ok (x_queue x')
}.

Lemma kept_trans x x1 x2 : kept x x1 -> kept x1 x2 -> kept x x2.
Proof. intros [A1 A2 A3] [B1 B2 B3]. constructor; [by rewrite B1|done|auto]. Qed.

Lemma getAndRemove_ids k q q' w :
  getAndRemove k q = (q', Some w) -> pending_ids q ≡ₚ rw_reqId w :: pending_ids q'.
Proof.
  unfold getAndRemove. destruct (mfind k q) eqn:E; [|done]. intros [= <- <-].
  destruct (merase_bag k s q E) as [k' Hp]. unfold pending_ids. by rewrite Hp at 1.
Qed.

Lemma getAndRemove_ok k q q' w : getAndRemove k q = (q', w) -> queue_ok q -> queue_ok q'.
Proof.
  unfold getAndRemove. destruct (mfind k q) eqn:E; intros [= <- <-]; [|done]. intros [Hs Hf].
  split; [by apply merase_sorted|]. destruct (merase_bag k s q E) as [k' Hp]. rewrite Hp in Hf.
  by apply Forall_cons_iff in Hf as [_ ?].
Qed.

Lemma finish_kept rv x : rctx_ok (x_ctx x) -> kept x (fst (recv_finish strerror rv x)).
Proof.
  intros Ho. unfold recv_finish. destruct (_ || _); [done|]. destruct (r_p (x_ctx x)) as [p|] eqn:Ep; [|done].
  split; [|by intros [? ?]|done]. unfold ledger, progress_id.
  cbn [fst x_queue x_ctx x_promises with_rctx fulfil r_p]. rewrite Ep, fmap_app. cbn [fmap list_fmap fst]. solve_Permutation.
Qed.

Lemma recv_data_kept fuel x x' r : rctx_ok (x_ctx x) -> recv_data strerror fuel x = Some (x', r) -> kept x x'.
Proof.
  intros Ho. unfold recv_data. destruct (recv_fill _ _ _ _ _) as [[[s got] f]|]; [|done].
  set (x1 := store _ _ _ _).
  assert (Hdone : forall c v e, r_p c = None ->
    kept x (with_rctx c (fulfil (r_p (x_ctx x)) v (add_rx_bytes e x1))) /\ kept x (with_rctx c (fulfil (r_p (x_ctx x)) v x1))).
  { intros c v e Hc. split; (split; [|by apply rctx_none|done]); unfold ledger, progress_id;
      cbn [x_queue x_ctx x_promises with_rctx fulfil add_rx_bytes store x1 with_rsock]; rewrite Hc; destruct (r_p (x_ctx x)); try done;
      rewrite fmap_app; cbn [fmap list_fmap fst]; solve_Permutation. }
  destruct f as [| |e].
  - destruct (0 <? len got); intros [= <- <-]; by apply Hdone.
  - destruct (0 <? len got); intros [= <- <-]; by apply Hdone.
  - destruct (e =? EWOULDBLOCK); intros [= <- <-]; [done|]. by apply (Hdone _ _ 0).
Qed.

Lemma dispatch_kept fuel start x x' r :
  rctx_ok (x_ctx x) -> (start = true -> r_p (x_ctx x) = None /\ r_state (x_ctx x) = PROC_DATA) ->
  dispatch rpcGet strerror sockno fuel start x = Some (x', r) -> kept x x'.
Proof.
  intros Ho Hs. unfold dispatch. destruct (hd_type _ =? GET_REQ) eqn:Et.
  { intros [= <- <-]. split; [done| |done]. cbn [x_ctx]. intros Hp. destruct (Ho Hp) as [_ Ht]. by rewrite Ht in Et. }
  destruct (hd_type _ =? GET_REPLY) eqn:Er; [|by intros [= <- <-]].
  destruct start; [|by apply recv_data_kept]. destruct (Hs eq_refl) as [Hp Hst]. apply Z.eqb_eq in Er.
  destruct (getAndRemove _ _) as [q [w|]] eqn:Eq.
  - pose proof (getAndRemove_ok _ _ _ _ Eq) as Hqo. apply getAndRemove_ids in Eq. set (x1 := mkRx _ _ _ _ _ _ _ _).
    assert (Hk : kept x x1).
    { split; [|done..]. unfold ledger, progress_id. cbn [x_queue x_ctx x_promises x1 r_p]. rewrite Hp, Eq. solve_Permutation. }
    destruct (negb _).
    + intros [= <- <-]. split; [|by intros [? ?]|done]. rewrite <- (kp_ledger _ _ Hk). unfold ledger, progress_id.
      cbn [x_queue x_ctx x_promises x1 r_p with_rctx fulfil]. rewrite fmap_app. cbn [fmap list_fmap fst]. solve_Permutation.
    + intros E. apply recv_data_kept in E; [|apply Hk]. by apply (kept_trans x x1).
  - unfold leave. intros E. pose proof (finish_kept (- EINVAL) x Ho). destruct (recv_finish _ _ _). by injection E as <- <-.
Qed.

(** Up to the end of the header only the context and the socket change, and no
    promise is held. *)
Definition same_books x x' : Prop :=
  x_queue x' = x_queue x /\ x_promises x' = x_promises x /\ r_p (x_ctx x') = r_p (x_ctx x).

Lemma recv_name_books fuel x x' r : recv_name fuel x = Some (x', r) -> same_books x x'.
Proof.
  unfold recv_name. destruct (_ =? GET_REQ).
  - destruct (_ || _); [by intros [= <- <-]|]. destruct (recv_fill _ _ _ _ _) as [[[s got] []]|]; [..|done]; by intros [= <- <-].
  - destruct (negb _); by intros [= <- <-].
Qed.

Lemma recv_hdr_books fuel x x' r : recv_hdr fuel x = Some (x', r) -> same_books x x'.
Proof.
  unfold recv_hdr. destruct (recv_fill _ _ _ _ _) as [[[s got] []]|]; [..|done]; try (by intros [= <- <-]).
  apply recv_name_books.
Qed.

Lemma kept_books x x1 x2 : same_books x x1 -> kept x1 x2 -> kept x x2.
Proof.
  intros (Hq & Hd & Hp) [Hl Ho Hqo]. split; [|done|by rewrite <- Hq]. rewrite Hl. unfold ledger, progress_id. by rewrite Hq, Hd, Hp.
Qed.

Lemma recv_step_kept fuel x x' r :
  rctx_ok (x_ctx x) -> recv_step rpcGet strerror sockno fuel x = Some (x', r) -> kept x x'.
Proof.
  intros Ho. unfold recv_step.
  set (x0 := if bool_decide (_ = PROC_IDLE) then _ else x).
  assert (H0 : same_books x x0 /\ (r_state (x_ctx x0) = PROC_HDR -> r_p (x_ctx x0) = None) /\ rctx_ok (x_ctx x0)).
  { assert (Hn : r_state (x_ctx x) <> PROC_DATA -> r_p (x_ctx x) = None).
    { intros Hne. destruct (r_p (x_ctx x)) eqn:E; [|done]. by destruct (Ho ltac:(rewrite E; eauto)). }
    subst x0. case_bool_decide as Es.
    - cbn [x_ctx with_rctx reset_ctx r_p r_state]. rewrite Hn by congruence. split; [|split; [done|]].
      + by split_and!; cbn [x_ctx with_rctx r_p reset_ctx]; rewrite ?Hn by congruence.
      + apply rctx_none. cbn [reset_ctx r_p]. first [done|apply Hn; congruence].
    - split; [done|]. split; [intros ?; apply Hn; congruence|done]. }
  destruct H0 as (Hb & Hn & Ho0). case_bool_decide as Es.
  - destruct (recv_hdr fuel x0) as [[x1 [rv|[]]]|] eqn:E; [..|done].
    + pose proof (recv_hdr_books _ _ _ _ E) as Hb1. intros [= Ef].
      assert (Hp1 : r_p (x_ctx x1) = None) by (rewrite (proj2 (proj2 Hb1)); auto).
      pose proof (finish_kept rv x1 (rctx_none _ Hp1)) as Hk.
      unfold leave in Ef. destruct (recv_finish _ _ _). injection Ef as <- <-.
      by apply (kept_books x x0), (kept_books x0 x1).
    + pose proof (recv_hdr_books _ _ _ _ E) as Hb1. intros Ed.
      assert (Hp1 : r_p (x_ctx x1) = None) by (rewrite (proj2 (proj2 Hb1)); auto).
      apply (kept_books x x0); [done|]. apply (kept_books x0 x1); [done|]. apply (kept_books x1 (start_data x1)); [done|].
      apply dispatch_kept in Ed; [done|by apply rctx_none|done].
  - intros Ed. apply (kept_books x x0); [done|]. by apply dispatch_kept in Ed.
Qed.

Lemma recv_kept rounds fuel x x' b :
  rctx_ok (x_ctx x) -> processEndpointRecv rpcGet strerror sockno rounds fuel x = Some (x', b) -> kept x x'.
Proof.
  unfold processEndpointRecv. revert x. induction rounds as [|rounds IH]; intros x Ho; [done|]. cbn [recv_loop].
  destruct (recv_step _ _ _ fuel x) as [[x1 [b1|]]|] eqn:E; [..|done]; apply recv_step_kept in E; try done.
  - by intros [= <- <-].
  - intros E2. apply IH in E2; [|apply E]. by apply (kept_trans x x1).
Qed.
End endpoint.

(** ** The ledger of a peer *)

Section peer.
Context {W X K T : Type} `{MDStub W} `{S3Client X} `{Kernel K} `{Transfers T}.
Context (file : Z -> str) (strerror : Z -> str).
Implicit Types c : Process W X K T.

Definition half_id (k : Z * RxHalf) : list Z := progress_id (e_recv (snd k)).
Definition progress_ids (rx : smap Z RxHalf) : list Z := concat (half_id <$> rx).

(** The numbers of the requests: pending, being answered, answered. *)
Definition peer_ledger c : list Z :=
  pending_ids (p_recvQueue (pc_peer c)) ++ progress_ids (p_rx (pc_peer c)) ++ (pc_promises c).*1.

Definition halves_ok (rx : smap Z RxHalf) : Prop := Forall (fun k => rctx_ok (e_recv (snd k))) rx.

(** Every request so far is in the ledger once. *)
Record books_ok c : Prop := mkBooks {
  bk_id : 0 <= p_rpcReqId (pc_peer c) < two64;
  bk_ledger : peer_ledger c ≡ₚ seqZ 1 (p_rpcReqId (pc_peer c));
  bk_queue : queue_ok (p_recvQueue (pc_peer c));
  bk_halves : halves_ok (p_rx (pc_peer c))
}.

Definition with_peer (p : TcpPeer) c : Process W X K T := mkProcess (pc_node c) p (pc_mem c) (pc_promises c).

(** What can happen to a peer. Anything may arrive at a socket at any time; an
    endpoint is closed between two replies; and a process makes less than 2^64
    requests. *)
Inductive peer_step : Process W X K T -> Process W X K T -> Prop :=
| StepRequest fuel dest name off len c p promises id :
    p_rpcReqId (pc_peer c) + 1 < two64 ->
    sendRpcRequest file fuel dest name off len (pc_peer c) (pc_promises c) = Some (p, promises, id) ->
    peer_step c (mkProcess (pc_node c) p (pc_mem c) promises)
| StepArrive sock e inp c :
    mfind sock (p_rx (pc_peer c)) = Some e ->
    peer_step c (with_peer (set_rx (massign sock (mkRxHalf (e_recv e) (e_rx_bytes e) inp (e_errno e))
                                      (p_rx (pc_peer c))) (pc_peer c)) c)
| StepRecv fuel sock c c' b : peer_recv file strerror fuel sock c = Some (c', b) -> peer_step c c'
| StepSend fuel sock c s b :
    SocketTxReady file fuel sock (p_sender (pc_peer c)) = Some (s, b) -> peer_step c (with_peer (set_sender s (pc_peer c)) c)
| StepConnect sock out inp c : peer_step c (with_peer (addEndpoint sock out inp (pc_peer c)) c)
| StepClose sock change c p dead :
    (forall e, mfind sock (p_rx (pc_peer c)) = Some e -> r_p (e_recv e) = None) ->
    SocketStateChange sock change (pc_peer c) = (p, dead) -> peer_step c (with_peer p c)
| StepStats c : peer_step c (with_peer (updateIoStats (pc_peer c)) c).

(** *** Lemmas *)

Lemma progress_ids_perm rx rx' : rx ≡ₚ rx' -> progress_ids rx ≡ₚ progress_ids rx'.
Proof. intros E. unfold progress_ids. by rewrite E. Qed.

Lemma halves_ok_find rx sock e : halves_ok rx -> mfind sock rx = Some e -> rctx_ok (e_recv e).
Proof.
  intros Hr E. destruct (merase_bag sock e rx E) as [k Hp]. unfold halves_ok in Hr. rewrite Hp in Hr.
  by apply Forall_cons_iff in Hr as [? _].
Qed.

(** Replacing the half of an endpoint. *)
Lemma replace_half rx sock e e' :
  mfind sock rx = Some e ->
  exists rest, progress_ids rx ≡ₚ progress_id (e_recv e) ++ rest /\
    progress_ids (massign sock e' rx) ≡ₚ progress_id (e_recv e') ++ rest /\
    (halves_ok rx -> rctx_ok (e_recv e') -> halves_ok (massign sock e' rx)).
Proof.
  intros E. destruct (massign_bag sock e e' rx E) as (k & Hp & Hq). exists (progress_ids (merase sock rx)).
  split; [by rewrite (progress_ids_perm _ _ Hp)|]. split; [by rewrite (progress_ids_perm _ _ Hq)|].
  unfold halves_ok. rewrite Hp at 1. rewrite Hq. intros [_ Hr]%Forall_cons_iff ?. by constructor.
Qed.

Lemma erase_half rx sock e :
  mfind sock rx = Some e -> progress_ids rx ≡ₚ progress_id (e_recv e) ++ progress_ids (merase sock rx) /\
    (halves_ok rx -> halves_ok (merase sock rx)).
Proof.
  intros E. destruct (merase_bag sock e rx E) as (k & Hp). split; [by rewrite (progress_ids_perm _ _ Hp)|].
  unfold halves_ok. rewrite Hp at 1. by intros [_ ?]%Forall_cons_iff.
Qed.

Lemma merase_missing {K' V} `{StrictTotal K'} k (m : smap K' V) : mfind k m = None -> merase k m = m.
Proof.
  induction m as [|[x v] m IH]; [done|]. cbn [mfind merase]. destruct (ltb x k); [intros E; by rewrite IH|].
  by destruct (ltb k x).
Qed.

Lemma books_same c c' :
  books_ok c -> p_rpcReqId (pc_peer c') = p_rpcReqId (pc_peer c) -> p_recvQueue (pc_peer c') = p_recvQueue (pc_peer c) ->
  progress_ids (p_rx (pc_peer c')) ≡ₚ progress_ids (p_rx (pc_peer c)) -> pc_promises c' = pc_promises c ->
  halves_ok (p_rx (pc_peer c')) -> books_ok c'.
Proof.
  intros [B1 B2 B3 B4] Ei Eq Ep Ed Hh. constructor; rewrite ?Ei, ?Eq; try done. rewrite <- B2. unfold peer_ledger.
  by rewrite Eq, Ep, Ed.
Qed.

Lemma recv_books fuel sock c c' b : books_ok c -> peer_recv file strerror fuel sock c = Some (c', b) -> books_ok c'.
Proof.
  intros Hb. unfold peer_recv. destruct (mfind sock _) as [e|] eqn:Ee; [|by intros [= <- <-]].
  destruct (processEndpointRecv _ _ _ _ _ _) as [[x b']|] eqn:Er; [|done].
  destruct (put_rx sock x c) as [c1|] eqn:Ep; [|done]. intros [= <- <-].
  destruct Hb as [B1 B2 B3 B4]. apply recv_kept in Er; [|by apply (halves_ok_find (p_rx (pc_peer c)) sock)]. destruct Er as [Hl Hc Hq].
  unfold put_rx in Ep. destruct (x_gets x) as [[n s]|]; [|done]. injection Ep as <-.
  destruct (replace_half _ sock e (mkRxHalf (x_ctx x) (x_bytes x) (x_sock x) (x_errno x)) Ee) as (rest & R1 & R2 & R3).
  constructor; cbn [pc_peer p_rpcReqId p_recvQueue p_rx pc_promises]; [done| |by apply Hq|by apply R3].
  rewrite <- B2. unfold peer_ledger. cbn [pc_peer p_recvQueue p_rx pc_promises]. rewrite R1, R2.
  unfold ledger in Hl. cbn [x_queue x_ctx x_promises rx_of e_recv] in *.
  transitivity (rest ++ pending_ids (x_queue x) ++ progress_id (x_ctx x) ++ (x_promises x).*1); [solve_Permutation|].
  rewrite Hl. solve_Permutation.
Qed.

Lemma elem_pending k q : sorted q -> Forall (fun e => rw_reqId (snd e) = fst e) q -> is_Some (mfind k q) -> k ∈ pending_ids q.
Proof.
  intros Hs Hf [w E]. apply mfind_Some in E; [|done]. pose proof (Forall_elem _ _ _ Hf E) as Ek. cbn in Ek.
  apply list_elem_of_fmap. by exists (k, w).
Qed.

Lemma request_books fuel dest name off len c p promises id :
  books_ok c -> p_rpcReqId (pc_peer c) + 1 < two64 ->
  sendRpcRequest file fuel dest name off len (pc_peer c) (pc_promises c) = Some (p, promises, id) ->
  books_ok (mkProcess (pc_node c) p (pc_mem c) promises).
Proof.
  intros [B1 B2 [B3 B3'] B4] Hn. unfold sendRpcRequest. rewrite u64_small by (unfold is_u64; lia).
  set (k := p_rpcReqId (pc_peer c) + 1) in *. set (w := mkRecvWork k dest len). set (q := p_recvQueue (pc_peer c)) in *.
  assert (Hfresh : mfind k q = None).
  { destruct (mfind k q) eqn:E; [|done]. exfalso. assert (Hin : k ∈ seqZ 1 (p_rpcReqId (pc_peer c))).
    { rewrite <- B2. apply elem_of_app. left. by apply elem_pending. }
    apply elem_of_seqZ in Hin. unfold k in Hin. lia. }
  assert (Hseq : seqZ 1 k ≡ₚ k :: seqZ 1 (p_rpcReqId (pc_peer c))).
  { unfold k. rewrite seqZ_app by lia. cbn. rewrite Z.add_comm. solve_Permutation. }
  assert (Hq1 : queue_ok (massign k w q)).
  { split; [by apply massign_sorted|]. rewrite (massign_new_bag k w q Hfresh). by constructor. }
  assert (Hids : pending_ids (massign k w q) ≡ₚ k :: pending_ids q).
  { unfold pending_ids. by rewrite (massign_new_bag k w q Hfresh). }
  destruct (enqueue _ _ _ _) as [[s []]|]; [| |done].
  - intros [= <- <- <-]. constructor; cbn [pc_peer p_rpcReqId p_recvQueue p_rx]; [unfold two64 in *; lia| |done..].
    rewrite Hseq, <- B2. unfold peer_ledger. cbn [pc_peer p_recvQueue p_rx pc_promises].
    unfold insertOrReplace. rewrite Hids. done.
  - unfold insertOrReplace, cm_remove. rewrite mfind_massign_eq. intros [= <- <- <-].
    assert (He : getAndRemove k (massign k w q) = (merase k (massign k w q), Some w))
      by (unfold getAndRemove; by rewrite mfind_massign_eq).
    constructor; cbn [pc_peer p_rpcReqId p_recvQueue p_rx]; [unfold two64 in *; lia| |by apply (getAndRemove_ok _ _ _ _ He)|done].
    rewrite Hseq, <- B2. unfold peer_ledger. cbn [pc_peer p_recvQueue p_rx pc_promises].
    apply getAndRemove_ids in He. rewrite Hids in He. apply Permutation_cons_inv in He. rewrite <- He, fmap_app.
    cbn [fmap list_fmap fst]. fold q. solve_Permutation.
Qed.

(** Closing an endpoint that receives no reply. *)
Lemma close_books sock change c p dead :
  books_ok c -> (forall e, mfind sock (p_rx (pc_peer c)) = Some e -> r_p (e_recv e) = None) ->
  SocketStateChange sock change (pc_peer c) = (p, dead) -> books_ok (with_peer p c).
Proof.
  intros Hb Hn. unfold SocketStateChange. destruct (mfind sock (sn_eps _)) as [e|]; [|by intros [= <- <-]; destruct c].
  destruct (_ && _); [|by intros [= <- <-]; destruct c]. destruct (_ =? ALL_CLOSED); intros [= <- <-].
  - apply (books_same c); try done; cbn [pc_peer with_peer delEndpoint set_rx p_rx].
    + destruct (mfind sock (p_rx (pc_peer c))) as [e'|] eqn:E; [|by rewrite merase_missing].
      rewrite (proj1 (erase_half _ _ _ E)). unfold progress_id. by rewrite (Hn e' eq_refl).
    + destruct (mfind sock (p_rx (pc_peer c))) as [e'|] eqn:E; [by apply (erase_half _ _ e'), bk_halves|].
      rewrite merase_missing by done. apply (bk_halves c Hb).
  - apply (books_same c); try done. apply (bk_halves c Hb).
Qed.

Lemma connect_books sock out inp c : books_ok c -> books_ok (with_peer (addEndpoint sock out inp (pc_peer c)) c).
Proof.
  intros Hb. pose proof (bk_halves c Hb) as Hh. apply (books_same c); try done; cbn [pc_peer with_peer addEndpoint set_rx p_rx];
    unfold minsert; destruct (mfind sock _) eqn:E; try done; cbn [fst].
  - by rewrite (progress_ids_perm _ _ (massign_new_bag _ _ _ E)).
  - unfold halves_ok. rewrite (massign_new_bag _ _ _ E). constructor; [|done]. by apply rctx_none.
Qed.

Lemma new_books host c : pc_peer c = newPeer host -> pc_promises c = [] -> books_ok c.
Proof.
  intros Hp Hd. constructor; unfold peer_ledger; rewrite ?Hp, ?Hd; cbn; [unfold two64; lia|done| |constructor].
  split; [apply sorted_nil|constructor].
Qed.

Lemma step_books c c' : books_ok c -> peer_step c c' -> books_ok c'.
Proof.
  intros Hb Hs. destruct Hs as [fuel dest name off len c p promises id Hn E|sock e inp c E|fuel sock c c' b E|fuel sock c s b E|sock out inp c|sock change c p dead Hp E|c].
  - by apply (request_books fuel dest name off len c p promises id).
  - destruct (replace_half _ sock e (mkRxHalf (e_recv e) (e_rx_bytes e) inp (e_errno e)) E) as (rest & R1 & R2 & R3).
    apply (books_same c); try done; cbn [pc_peer with_peer set_rx p_rx]; [by rewrite R1, R2|].
    apply R3; [apply (bk_halves c Hb)|apply (halves_ok_find _ sock e (bk_halves c Hb) E)].
  - by apply (recv_books fuel sock c c' b).
  - apply (books_same c); try done. apply (bk_halves c Hb).
  - by apply connect_books.
  - by apply (close_books sock change c p dead).
  - apply (books_same c); try done; cbn [pc_peer with_peer updateIoStats set_rx p_rx].
    + unfold progress_ids. f_equiv. rewrite <- list_fmap_compose. done.
    + unfold halves_ok. apply Forall_map. apply (bk_halves c Hb).
Qed.
End peer.

(** ** Properties *)

(** C32: no request is lost, answered twice or mixed up with another. After any
    sequence of requests, arrivals of any bytes whatsoever, receptions, sends,
    new connections and closed ones on a new peer, every request made so far is
    exactly once either pending, being answered by an endpoint, or fulfilled; in
    particular no promise is set twice. Closing an endpoint in the middle of a
    reply is the exception: then the request is in none of these places any
    more, and whoever waits for it waits for ever. *)
Theorem requests_conserved W X K T `{MDStub W} `{S3Client X} `{Kernel K} `{Transfers T} file strerror host
    (c0 c : Process W X K T) :
  pc_peer c0 = newPeer host -> pc_promises c0 = [] -> rtc (peer_step file strerror) c0 c ->
  peer_ledger c ≡ₚ seqZ 1 (p_rpcReqId (pc_peer c)) /\ NoDup (peer_ledger c) /\
  (forall sock change e id p dead,
     mfind sock (p_rx (pc_peer c)) = Some e -> r_p (e_recv e) = Some id ->
     SocketStateChange sock change (pc_peer c) = (p, dead) -> mfind sock (p_rx p) = None ->
     id ∈ peer_ledger c /\ id ∉ peer_ledger (with_peer p c)).
Proof.
  intros Hp Hd Hr. assert (Hb : books_ok c).
  { pose proof (new_books host c0 Hp Hd) as Hb0.
    clear Hp Hd. induction Hr as [|c0 c1 c Hs _ IH]; [done|]. by apply IH, (step_books file strerror c0). }
  pose proof (bk_ledger c Hb) as Hl. assert (Hnd : NoDup (peer_ledger c)) by (rewrite Hl; apply NoDup_seqZ).
  split; [done|]. split; [done|]. intros sock change e id p dead He Hid Hc Hgone.
  destruct (erase_half _ _ _ He) as [Hperm _]. unfold progress_id in Hperm. rewrite Hid in Hperm.
  assert (Ep : p_recvQueue p = p_recvQueue (pc_peer c) /\ p_rx p = merase sock (p_rx (pc_peer c))).
  { unfold SocketStateChange in Hc. destruct (mfind sock (sn_eps _)); [|injection Hc as <- _; congruence].
    destruct (_ && _); [|injection Hc as <- _; congruence].
    destruct (_ =? ALL_CLOSED); injection Hc as <- _; [done|]. cbn in Hgone. congruence. }
  unfold peer_ledger in *. cbn [pc_peer with_peer pc_promises]. destruct Ep as [-> ->]. rewrite Hperm in Hnd |- *.
  rewrite elem_of_app, elem_of_app. split; [right; left; by left|].
  assert (Hnd2 : NoDup (id :: pending_ids (p_recvQueue (pc_peer c)) ++ progress_ids (merase sock (p_rx (pc_peer c))) ++
                        (pc_promises c).*1)).
  { eapply NoDup_Permutation_proper; [|exact Hnd]. solve_Permutation. }
  by inversion Hnd2.
Qed.

#[local] Existing Instance the_stub.
#[local] Existing Instance the_service.

(** A request that finds no connection, a connection, and bytes that are no message. *)
Definition demo_start : Process Server MemS3.world nat unit := mkProcess demo_node (newPeer []) ∅ [].

Definition demo_requested : Process Server MemS3.world nat unit :=
  mkProcess demo_node
    (mkPeer 0 [] 1 [] (0 + 1 - 1) []
       (mkSender [mkSendWork "bkt/dir/key" 1 0 (-1) 1 3 GET_REQ 0] 1 [] ∅ [] 0))
    ∅ [(1, Error (AbortedError "Unable to proceed: "))].

Definition demo_connected : Process Server MemS3.world nat unit :=
  with_peer (addEndpoint 5 (mkTcpSocket [] []) (mkRxSocket [] RxOpen) (pc_peer demo_requested)) demo_requested.

Definition demo_arrived : Process Server MemS3.world nat unit :=
  with_peer (set_rx [(5, mkRxHalf (e_recv (newRx (mkRxSocket [] RxOpen))) 0 (mkRxSocket ["garbage" : str] RxEof) 0)]
               (pc_peer demo_connected)) demo_connected.

Lemma demo_reached : rtc (peer_step (fun _ => []) (fun _ => [])) demo_start demo_arrived.
Proof.
  apply (rtc_l _ _ demo_requested).
  { exact (StepRequest _ _ 100 64 "bkt/dir/key" 1 3 demo_start (pc_peer demo_requested) (pc_promises demo_requested) 1
             eq_refl eq_refl). }
  apply (rtc_l _ _ demo_connected); [exact (StepConnect _ _ 5 (mkTcpSocket [] []) (mkRxSocket [] RxOpen) demo_requested)|].
  apply rtc_once.
  exact (StepArrive _ _ 5 (newRx (mkRxSocket [] RxOpen)) (mkRxSocket ["garbage" : str] RxEof) demo_connected eq_refl).
Qed.

Lemma requests_conserved_witness :
  peer_ledger demo_arrived ≡ₚ [1] /\ NoDup (peer_ledger demo_arrived).
Proof.
  destruct (requests_conserved Server MemS3.world nat unit (fun _ => []) (fun _ => []) [] demo_start demo_arrived
              eq_refl eq_refl demo_reached) as (Hl & Hn & _).
  split; [exact Hl|exact Hn].
Defined.
