(* ===== verification/TcpRpc.v ===== *)
(** * The message transport: a request and its reply

    The parts of the transport together: [sendRpcRequest] in one process, the
    messages over sockets that take and deliver them in pieces of any size,
    [TcpProcessRpcGet] in the other process, and the reply that fulfils the
    promise of the first. *)

From Stdlib Require Import Ascii ZArith Lia.
From stdpp Require Import base gmap sets list strings numbers.
From S2P Require Import Prelude Bytes Endian Decimal Status StdMap Path Object MDSKVS S3Endpoint.
From S2P Require Import MetadataService LocalFile ConcurrentMap GedsNames Node Handles HandleIO GEDS.
From S2P Require Import Rpc MetadataServer GEDSCreate GEDSCache ConcurrentQueue.
From S2P Require Import TcpDataTransport TcpConnection TcpFraming TcpReceive TcpTransport.

Open Scope Z_scope.
Open Scope list_scope.

(** The socket becomes writable [n] times. *)
Fixpoint tx_ready (file : Z -> str) (n fuel : nat) (sock : Z) (s : Sender) : option Sender :=
  match n with
  | O => Some s
  | S n =>
      match SocketTxReady file fuel sock s with
      | Some (s, true) => tx_ready file n fuel sock s
      | _ => None
      end
  end.

(** ** Lemmas: sending from a peer *)

Section sending.
Context (file : Z -> str).
Implicit Types (s : Sender) (e : TxHalf).

Definition buf_mem s : Z -> str := fun a => default [] (sn_bufs s !! a).
Definition tx_of e s : Tx := mkTx (e_send e) (sn_queue s) (e_out e) (e_tx_bytes e) [].

Lemma release_all l s :
  let s' := fold_left (fun s a => releaseBuffer a s) l s in
  sn_queue s' = sn_queue s /\ sn_eps s' = sn_eps s /\ sn_bufs s' = sn_bufs s.
Proof. revert s. induction l as [|a l IH]; intros s; [done|]. cbn [fold_left]. apply (IH (releaseBuffer a s)). Qed.

(** A peer sends as the machine of TcpFraming.v does. *)
Lemma ready_step fuel sock e s :
  mfind sock (sn_eps s) = Some e -> tx_wf (buf_mem s) file (tx_of e s) ->
  (length (pending (buf_mem s) file (tx_of e s)) < fuel)%nat ->
  exists s' e' out, SocketTxReady file fuel sock s = Some (s', true) /\ mfind sock (sn_eps s') = Some e' /\
    sn_bufs s' = sn_bufs s /\ tx_wf (buf_mem s') file (tx_of e' s') /\
    sk_sent (e_out e') = sk_sent (e_out e) ++ out /\
    pending (buf_mem s) file (tx_of e s) = out ++ pending (buf_mem s') file (tx_of e' s') /\
    (pending (buf_mem s') file (tx_of e' s') = [] \/ (length (sk_tx (e_out e')) < length (sk_tx (e_out e)))%nat) /\
    (length (sk_tx (e_out e')) <= length (sk_tx (e_out e)))%nat.
Proof.
  intros He Hw Hf. destruct (processEndpointSend_spec _ _ _ _ Hw Hf) as (x & out & E & Hw' & Hs & Hp & Hd & Hl).
  unfold SocketTxReady. rewrite He. unfold send_on. fold (buf_mem s). fold (tx_of e s). rewrite E.
  set (e' := mkTxHalf (e_state e) (tx_ctx x) (tx_bytes x) (tx_sock x)).
  set (s1 := set_eps _ _). destruct (release_all (tx_released x) s1) as (Rq & Re & Rb).
  exists (fold_left (fun s a => releaseBuffer a s) (tx_released x) s1), e', out. split; [done|].
  assert (Eb : buf_mem (fold_left (fun s a => releaseBuffer a s) (tx_released x) s1) = buf_mem s)
    by (unfold buf_mem; by rewrite Rb).
  rewrite Re, Eb, Rb. split; [apply mfind_massign_eq|]. split; [done|]. unfold tx_of. rewrite Rq. done.
Qed.

Lemma ready_all n fuel sock e s :
  mfind sock (sn_eps s) = Some e -> tx_wf (buf_mem s) file (tx_of e s) ->
  (length (pending (buf_mem s) file (tx_of e s)) < fuel)%nat ->
  pending (buf_mem s) file (tx_of e s) = [] \/ (length (sk_tx (e_out e)) < n)%nat ->
  exists s' e', tx_ready file n fuel sock s = Some s' /\ mfind sock (sn_eps s') = Some e' /\
    sk_sent (e_out e') = sk_sent (e_out e) ++ pending (buf_mem s) file (tx_of e s).
Proof.
  revert s e. induction n as [|n IH]; intros s e He Hw Hf Hn; cbn [tx_ready].
  { destruct Hn as [E|]; [|lia]. exists s, e. by rewrite E, app_nil_r. }
  destruct (ready_step fuel sock e s He Hw Hf) as (s1 & e1 & out & -> & He1 & Hb1 & Hw1 & Hs1 & Hp1 & Hd1 & Hl1).
  pose proof (f_equal length Hp1) as Hlen. rewrite length_app in Hlen.
  destruct (IH s1 e1 He1 Hw1) as (s2 & e2 & -> & He2 & Hs2); [lia| |].
  - destruct Hd1 as [?|?]; [by left|]. destruct Hn as [Hn|]; [left|right; lia]. rewrite Hn in Hp1.
    symmetry in Hp1. by apply app_eq_nil in Hp1 as [_ ?].
  - exists s2, e2. split_and!; try done. by rewrite Hs2, Hs1, <- app_assoc, <- Hp1.
Qed.

(** An endpoint that can send at once. *)
Record free_tx (sock : Z) (e : TxHalf) s : Prop := {
  ft_here : mfind sock (sn_eps s) = Some e;
  ft_chosen n : getLeastUsedTx n s = Some sock;
  ft_idle : s_state (e_send e) = PROC_IDLE;
  ft_pad : 0 <= hd_pad (s_hdr (e_send e)) < 2 ^ 32;
  ft_calm : calm (e_out e);
  ft_queue : sn_queue s = []
}.

(** Queued work is sent completely once the socket has taken it. *)
Lemma enqueue_sends fuel sock e w s :
  free_tx sock e s -> work_wf (buf_mem s) file w ->
  (length (encode (buf_mem s) file (hd_pad (s_hdr (e_send e))) w) < fuel)%nat ->
  exists s1 s2 e2, enqueue file fuel w s = Some (s1, true) /\
    tx_ready file (length (sk_tx (e_out e))) fuel sock s1 = Some s2 /\ mfind sock (sn_eps s2) = Some e2 /\
    sk_sent (e_out e2) = sk_sent (e_out e) ++ encode (buf_mem s) file (hd_pad (s_hdr (e_send e))) w.
Proof.
  intros [H1 Hg H2 H3 H4 H5] Hw Hf. unfold enqueue. rewrite H5. cbn [q_emplace app].
  set (s0 := set_queue [w] (sn_stat s + 1) s). change (getLeastUsedTx (sw_len w) s0) with (getLeastUsedTx (sw_len w) s).
  rewrite Hg. change (buf_mem s) with (buf_mem s0) in *.
  assert (Hpend : pending (buf_mem s0) file (tx_of e s0) = encode (buf_mem s0) file (hd_pad (s_hdr (e_send e))) w).
  { unfold pending, pending_ctx. cbn [tx_of tx_ctx tx_queue]. rewrite H2.
    change (sn_queue s0) with [w]. cbn [fmap list_fmap concat]. by rewrite app_nil_r. }
  assert (Hwf : tx_wf (buf_mem s0) file (tx_of e s0)).
  { split; [done|]. cbn [tx_of tx_ctx tx_queue]. rewrite H2. split; [|done]. change (sn_queue s0) with [w]. by constructor. }
  rewrite <- Hpend in Hf.
  destruct (ready_step fuel sock e s0 H1 Hwf Hf) as (s1 & e1 & out & E1 & He1 & Hb1 & Hw1 & Hs1 & Hp1 & Hd1 & Hl1).
  pose proof (f_equal length Hp1) as Hlen. rewrite length_app in Hlen.
  destruct (ready_all (length (sk_tx (e_out e))) fuel sock e1 s1 He1 Hw1) as (s2 & e2 & E2 & He2 & Hs2); [lia|tauto|].
  exists s1, s2, e2. split_and!; try done. by rewrite <- Hpend, Hs2, Hs1, <- app_assoc, <- Hp1.
Qed.
End sending.

(** ** Lemmas: answering *)

Section answering.
Context {W X K T : Type} `{MDStub W} `{S3Client X} `{KernelFair K} `{Transfers T}.
Context (fuel : nat).
Implicit Types n : Node W X K T.

(** The number of bytes a request for [cnt] bytes at [off] is answered with; no
    bytes means all. *)
Definition reply_len (size off cnt : Z) : Z := if cnt =? 0 then size - off else Z.min (size - off) cnt.

(** The descriptor of the file [h]. *)
Definition descriptor n (h : nat) (fd : Z) : Prop :=
  exists x f i s, n_heap n !! h = Some x /\ h_kind x = KLocal f i s /\ lf_fd f = fd.

Definition answer_of (d : str) (fd off cnt : Z) : rpc_answer :=
  if len d <? off then AnsStatus EINVAL
  else if reply_len (len d) off cnt =? 0 then AnsStatus 0
  else if MIN_SENDFILE_SIZE <=? reply_len (len d) off cnt then AnsFile fd off (reply_len (len d) off cnt)
  else AnsBuffer (slice off (reply_len (len d) off cnt) d) (reply_len (len d) off cnt).

Lemma descriptor_like n n' h fd : like n n' -> descriptor n h fd -> descriptor n' h fd.
Proof.
  intros L (x & f & i & s & Hx & Hk & <-). destruct (lk_heap n n' L h x Hx) as (x' & Hx' & _ & Hk').
  rewrite Hk in Hk'. cbn [blank] in Hk'. destruct (h_kind x') as [f' i' s'|?|?|?|?] eqn:Ek; try done.
  injection Hk' as _ Hfd _ _ _. by exists x', f', i', s'.
Qed.

Lemma served_descriptor b k d n h fd : served fuel b k d n h -> descriptor n h fd -> yields (h_rawFd fuel h) n (Value fd).
Proof.
  intros Hs (x & f & i & s & Hx & Hk & <-).
  pose proof Hs as [S1 S2 S0 S3 S4 (x' & f' & i' & s' & Hx' & Hv & Hk' & Hf & Hd)].
  rewrite Hx in Hx'. injection Hx' as <-. rewrite Hk in Hk'. injection Hk' as <- <- <-.
  unfold h_rawFd. apply (yields_bind _ _ _ (h, x)).
  { exists n. split; [by apply (resolve_local h n x f i s)|apply like_refl]. }
  intros n1 L. cbn [snd fst]. rewrite Hk. apply (yields_bind _ _ _ OkStatus).
  { by apply (served_fsync fuel b k d), (served_like fuel b k d n). }
  intros n2 _. change (ok OkStatus) with true. cbn [negb]. unfold lf_rawFd.
  destruct Hf as [Ho _ _]. cbn in Ho. rewrite (proj2 (Z.ltb_ge _ _)) by done. apply yields_ret.
Qed.

Lemma served_localOpen b k d n h : served fuel b k d n h -> yields (localOpen fuel b k) n (Value h).
Proof.
  intros Hs. pose proof Hs as [S1 S2 S0 S3 S4 (x & f & i & s & Hx & Hv & Hk & Hf & Hd)].
  assert (Hy : yields (let* fd := h_rawFd fuel h in
                       if is_ok fd then let* f := h_open h in ret (Value f)
                       else ret (Error (NotFoundError (name (getPath b k) ++ " is not available on this machine")))) n (Value h)).
  { destruct (served_rawFd fuel b k d n h Hs) as (fd & Hfd). eapply yields_bind; [exact Hfd|]. intros n1 L. cbn [is_ok].
    eapply yields_bind; [|intros; apply yields_ret]. eexists. split; [done|]. by apply (like_count n1 h (fun x => with_count _ x)). }
  destruct Hy as (n' & E & L). exists n'. split; [|done]. unfold localOpen, running. rewrite S1.
  unfold bind at 1, gets. unfold cm_get. rewrite S3. exact E.
Qed.

Lemma served_find b k d n h : served fuel b k d n h -> find_char "/" (b ++ "/" ++ k) = Some (length b).
Proof.
  intros Hs. apply find_char_app_cons, valid_bucket_no_slash. pose proof (sv_valid _ _ _ _ _ _ Hs) as Hv.
  unfold isValid in Hv. destruct (ok (isValidBucketName b)) eqn:E; [done|]. cbn [negb] in Hv. congruence.
Qed.

(** What a request for a served object is answered with. *)
Lemma rpcAnswer_served b k d n h fd off cnt :
  served fuel b k d n h -> descriptor n h fd -> 0 <= off < INT64_MAX -> 0 <= cnt ->
  yields (rpcAnswer fuel (b ++ "/" ++ k) cnt off) n (answer_of d fd off cnt).
Proof.
  intros Hs Hfd Ho Hc. unfold rpcAnswer. rewrite (served_find b k d n h Hs).
  assert (take (length b) (b ++ "/" ++ k) = b) as -> by apply take_app_length.
  assert (drop (S (length b)) (b ++ "/" ++ k) = k) as ->.
  { change (S (length b)) with (1 + length b)%nat. by rewrite Nat.add_comm, <- drop_drop, drop_app_length. }
  apply (yields_bind _ _ _ (Value h)); [by apply (served_localOpen b k d)|]. intros n1 L1.
  apply (served_like fuel b k d n n1 h L1) in Hs. apply (descriptor_like n n1 h fd L1) in Hfd. clear n L1.
  apply (yields_bind _ _ _ (len d)); [by apply (served_size fuel b k d)|]. intros n2 L2.
  apply (served_like fuel b k d n1 n2 h L2) in Hs. apply (descriptor_like n1 n2 h fd L2) in Hfd. clear n1 L2.
  assert (Hend : forall n (a : rpc_answer), served fuel b k d n h -> yields (close h ;; ret a) n a).
  { intros n a Hn. eapply yields_bind; [by apply (served_close fuel b k d)|intros; apply yields_ret]. }
  unfold answer_of. destruct (Z.ltb_spec (len d) off) as [|Hle]; [by apply Hend|].
  fold (reply_len (len d) off cnt). set (r := reply_len (len d) off cnt).
  assert (Hr : 0 <= r <= len d - off) by (unfold r, reply_len; destruct (cnt =? 0); lia).
  destruct (r =? 0); [by apply Hend|].
  apply (yields_bind _ _ _ (Value fd)); [by apply (served_descriptor b k d)|]. intros n3 L3.
  apply (served_like fuel b k d n2 n3 h L3) in Hs. destruct (MIN_SENDFILE_SIZE <=? r); [by apply Hend|].
  unfold read_answer. apply (yields_bind _ _ _ (Value (r, slice off r d))).
  - pose proof (served_read fuel b k d n3 h off r Hs Ho ltac:(lia)) as Hrd.
    by replace (Z.max 0 (Z.min r (len d - off))) with r in Hrd by lia.
  - intros n4 L4. apply Hend. by apply (served_like fuel b k d n3).
Qed.
End answering.

(** The reply as a message. *)
Definition reply_msg (pad id : Z) (d : str) (off cnt : Z) : Msg :=
  if len d <? off then mkMsg (mkHdr id 0 0 HDR_SIZE GET_REPLY EINVAL pad) []
  else mkMsg (mkHdr id (reply_len (len d) off cnt) 0 HDR_SIZE GET_REPLY 0 pad) (slice off (reply_len (len d) off cnt) d).

Lemma reply_len_bounds size off cnt : 0 <= off <= size -> 0 <= cnt -> 0 <= reply_len size off cnt <= size - off.
Proof. unfold reply_len. destruct (cnt =? 0); lia. Qed.

Section reply.
Context (file : Z -> str) (fuel : nat).

(** The work that an answer is queued as, with its bytes in [a]. *)
Definition reply_work (id a : Z) (ans : rpc_answer) : SocketSendWork :=
  match ans with
  | AnsStatus st => mkSendWork [] id 0 (-1) 0 0 GET_REPLY st
  | AnsFile fd off n => mkSendWork [] id off fd 0 n GET_REPLY 0
  | AnsBuffer _ n => mkSendWork [] id a (-1) 0 n GET_REPLY 0
  end.

Lemma reply_encode mem pad id a d fd off cnt :
  0 <= off -> 0 <= cnt -> 0 < fd -> file fd = d ->
  (forall bytes n, answer_of d fd off cnt = AnsBuffer bytes n -> mem a = bytes) ->
  encode mem file pad (reply_work id a (answer_of d fd off cnt)) = m_bytes (reply_msg pad id d off cnt).
Proof.
  intros Ho Hc Hfd Hfile Hmem. unfold answer_of, reply_msg in *. destruct (Z.ltb_spec (len d) off) as [|Hle]; [done|].
  pose proof (reply_len_bounds (len d) off cnt ltac:(lia) Hc) as Hr. set (r := reply_len (len d) off cnt) in *.
  destruct (Z.eqb_spec r 0) as [Hr0|Hr0]; [by rewrite Hr0, slice_0|].
  destruct (MIN_SENDFILE_SIZE <=? r); unfold encode, m_bytes, payload; cbn [reply_work sw_objName sw_reqId sw_va sw_in_fd
    sw_off sw_len sw_type sw_error m_hdr m_body app has_data hd_type hd_error hd_datalen s_hdr s_va s_in_fd].
  - rewrite (proj2 (Z.ltb_lt 0 fd)) by done. by rewrite Hfile.
  - change (0 <? -1) with false. cbn match. rewrite (Hmem _ _ eq_refl). f_equal.
    rewrite slice_of_slice by lia. f_equal; lia.
Qed.

Lemma reply_work_wf mem id a d fd off cnt :
  is_u64 id -> 0 <= a < 2 ^ 62 -> 0 <= off -> 0 <= cnt -> 0 < fd -> file fd = d -> len d < 2 ^ 63 ->
  (forall bytes n, answer_of d fd off cnt = AnsBuffer bytes n -> mem a = bytes) ->
  work_wf mem file (reply_work id a (answer_of d fd off cnt)).
Proof.
  intros Hid Ha Ho Hc Hfd Hfile Hd Hmem. pose proof (len_nonneg d).
  unfold answer_of in *. destruct (Z.ltb_spec (len d) off) as [|Hle].
  { constructor; cbn; unfold is_u64, two64, EINVAL, GET_REPLY, HDR_SIZE in *; try lia; done. }
  pose proof (reply_len_bounds (len d) off cnt ltac:(lia) Hc) as Hr. set (r := reply_len (len d) off cnt) in *.
  destruct (Z.eqb_spec r 0) as [Hr0|Hr0].
  { constructor; cbn; unfold is_u64, two64, GET_REPLY, HDR_SIZE in *; try done; try lia. intros _ _. apply len_nonneg. }
  destruct (Z.leb_spec MIN_SENDFILE_SIZE r).
  - constructor; cbn [reply_work sw_objName sw_reqId sw_va sw_in_fd sw_off sw_len sw_type sw_error];
      unfold is_u64, two64, GET_REPLY, HDR_SIZE in *; try (change (len []) with 0); try lia.
    intros _ _. rewrite (proj2 (Z.ltb_lt 0 fd)) by done. rewrite Hfile. lia.
  - constructor; cbn [reply_work sw_objName sw_reqId sw_va sw_in_fd sw_off sw_len sw_type sw_error];
      unfold is_u64, two64, GET_REPLY, HDR_SIZE, MIN_SENDFILE_SIZE in *; try (change (len []) with 0); try lia.
    intros _ _. change (0 <? -1) with false. cbn match. rewrite (Hmem _ _ eq_refl), slice_length by lia. lia.
Qed.
End reply.

(** ** Lemmas: the two processes *)

(** The stream of a connection arrives at a peer in pieces; [deliver] calls
    [processEndpointRecv] for them. *)
Definition peer_deliver {W X K T} `{MDStub W} `{S3Client X} `{Kernel K} `{Transfers T} file strerror (fuel : nat)
    (sock : Z) (bursts : list (list str)) (c : Process W X K T) : option (Process W X K T) :=
  match mfind sock (p_rx (pc_peer c)) with
  | None => None
  | Some r =>
      match deliver (TcpProcessRpcGet file fuel) strerror sock fuel bursts (rx_of r c) with
      | Some x => put_rx sock x c
      | None => None
      end
  end.

(** An endpoint between two messages, of which nothing has arrived. *)
Record idle_rx (sock : Z) (r : RxHalf) (p : TcpPeer) : Prop := {
  ir_here : mfind sock (p_rx p) = Some r;
  ir_idle : r_state (e_recv r) = PROC_IDLE;
  ir_free : r_p (e_recv r) = None;
  ir_sock : e_in r = mkRxSocket [] RxOpen
}.

Definition request_msg (pad id : Z) (nm : str) (off cnt : Z) : Msg :=
  mkMsg (mkHdr id cnt off (HDR_SIZE + len nm) GET_REQ 0 pad) nm.

Section rpc.
Context {W X K T : Type} `{MDStub W} `{S3Client X} `{KernelFair K} `{Transfers T}.
Context (file : Z -> str) (strerror : Z -> str) (fuel : nat).
Implicit Types (c : Process W X K T) (s : Sender).

Lemma deliver_one sock r m bursts c a' :
  idle_rx sock r (pc_peer c) -> msg_wf m -> concat (concat bursts) = m_bytes m -> Forall (Forall (fun x => x <> [])) bursts ->
  (length (m_bytes m) < fuel)%nat -> handle (TcpProcessRpcGet file fuel) sock m (abs (rx_of r c)) = Some a' ->
  exists x, deliver (TcpProcessRpcGet file fuel) strerror sock fuel bursts (rx_of r c) = Some x /\ abs x = a'.
Proof.
  intros [H1' H2' H3' H4'] Hm Hc Hb Hf Hh.
  destruct (deliver_spec (TcpProcessRpcGet file fuel) strerror sock fuel bursts [m] (abs (rx_of r c)) a' (rx_of r c))
    as (x & E & _ & _ & Ha); try done.
  - by constructor.
  - rewrite Hc. assert (E : m_bytes m = concat (m_bytes <$> [m])) by (cbn; by rewrite app_nil_r). rewrite E.
    apply at_stream_between. split; [done|by left].
  - cbn [handle_all]. by rewrite Hh.
  - by rewrite Hc.
  - by exists x.
Qed.

(** A free buffer for the answer. *)
Definition with_answer (ans : rpc_answer) s : Sender :=
  match ans with AnsBuffer bytes _ => fill_buffer (snd (getBuffer s)) bytes (fst (getBuffer s)) | _ => s end.

Lemma send_answer_queued id ans s :
  send_answer file fuel id ans s = enqueue file fuel (reply_work id (snd (getBuffer s)) ans) (with_answer ans s).
Proof. destruct ans; try done. cbn [send_answer with_answer]. by destruct (getBuffer s). Qed.

Lemma with_answer_free sock e ans s : free_tx sock e s -> free_tx sock e (with_answer ans s).
Proof.
  intros [A1 A2 A3 A4 A5 A6]. destruct ans; [done..|]. cbn [with_answer]. unfold getBuffer.
  destruct (sn_free s); constructor; done.
Qed.

Lemma send_answer_spec id d fd off cnt sock e s :
  free_tx sock e s -> is_u64 id -> 0 <= snd (getBuffer s) < 2 ^ 62 -> 0 <= off -> 0 <= cnt -> 0 < fd -> file fd = d ->
  len d < 2 ^ 63 -> (length (m_bytes (reply_msg (hd_pad (s_hdr (e_send e))) id d off cnt)) < fuel)%nat ->
  exists s1 s2 e2, send_answer file fuel id (answer_of d fd off cnt) s = Some (s1, true) /\
    tx_ready file (length (sk_tx (e_out e))) fuel sock s1 = Some s2 /\ mfind sock (sn_eps s2) = Some e2 /\
    sk_sent (e_out e2) = sk_sent (e_out e) ++ m_bytes (reply_msg (hd_pad (s_hdr (e_send e))) id d off cnt).
Proof.
  intros Hfr Hid Ha Ho Hc Hfd Hfile Hd Hf. rewrite send_answer_queued.
  set (ans := answer_of d fd off cnt) in *. set (a := snd (getBuffer s)) in *.
  assert (Hmem : forall bytes n, ans = AnsBuffer bytes n -> buf_mem (with_answer ans s) a = bytes).
  { intros bytes n ->. unfold buf_mem, with_answer, fill_buffer. cbn [sn_bufs]. by rewrite lookup_insert_eq. }
  rewrite <- (reply_encode file (buf_mem (with_answer ans s)) _ id a d fd off cnt) in * by done.
  apply enqueue_sends; [by apply with_answer_free| |done]. by apply reply_work_wf.
Qed.

(** The serving process answers a request. *)
Lemma serve_request b k d h fd off cnt pad id sock r ssock e bursts c :
  served fuel b k d (pc_node c) h -> descriptor (pc_node c) h fd -> 0 < fd -> file fd = d -> len d < INT64_MAX ->
  idle_rx sock r (pc_peer c) -> free_tx ssock e (p_sender (pc_peer c)) ->
  0 <= snd (getBuffer (p_sender (pc_peer c))) < 2 ^ 62 -> 0 <= pad < 2 ^ 32 -> is_u64 id ->
  0 <= off < INT64_MAX -> 0 <= cnt < INT64_MAX -> len (b ++ "/" ++ k) <= 4096 ->
  (length (m_bytes (request_msg pad id (b ++ "/" ++ k) off cnt)) < fuel)%nat ->
  (length (m_bytes (reply_msg (hd_pad (s_hdr (e_send e))) id d off cnt)) < fuel)%nat ->
  concat (concat bursts) = m_bytes (request_msg pad id (b ++ "/" ++ k) off cnt) -> Forall (Forall (fun x => x <> [])) bursts ->
  exists c' s2 e2, peer_deliver file strerror fuel sock bursts c = Some c' /\
    tx_ready file (length (sk_tx (e_out e))) fuel ssock (p_sender (pc_peer c')) = Some s2 /\
    mfind ssock (sn_eps s2) = Some e2 /\
    sk_sent (e_out e2) = sk_sent (e_out e) ++ m_bytes (reply_msg (hd_pad (s_hdr (e_send e))) id d off cnt).
Proof.
  intros Hs Hde Hfd Hfile Hd Hir Hft Hbuf Hpad Hid Ho Hc Hnm Hf1 Hf2 Hb Hne.
  destruct (rpcAnswer_served fuel b k d (pc_node c) h fd off cnt Hs Hde Ho ltac:(lia)) as (n' & En & _).
  destruct (send_answer_spec id d fd off cnt ssock e (p_sender (pc_peer c)) Hft Hid Hbuf) as (s1 & s2 & e2 & Es & Et & Ee & Eo);
    try done; try (unfold INT64_MAX in *; lia).
  assert (Hm : msg_wf (request_msg pad id (b ++ "/" ++ k) off cnt)).
  { pose proof (len_nonneg (b ++ "/" ++ k)). unfold INT64_MAX in *. split.
    - constructor; cbn [request_msg m_hdr hd_reqid hd_datalen hd_offset hd_hdrlen hd_type hd_error hd_pad];
        unfold is_u64, two64, GET_REQ, HDR_SIZE in *; lia.
    - left. split; [done|]. split; [done|]. unfold RPC_TCP_MAX_HDR, HDR_SIZE. cbn [request_msg m_body].
      split; [|lia]. rewrite !len_app. change (len "/") with 1. pose proof (len_nonneg b). pose proof (len_nonneg k). lia. }
  destruct (deliver_one sock r _ bursts c _ Hir Hm Hb Hne Hf1 eq_refl) as (x & E & Ha).
  unfold peer_deliver. rewrite (ir_here _ _ _ Hir), E. unfold abs in Ha. injection Ha as Eq Em Ep Eg.
  cbn [request_msg m_hdr m_body hd_reqid hd_datalen hd_offset x_gets rx_of TcpProcessRpcGet] in Eg.
  change ("/"%char :: k) with ("/" ++ k) in Eg. rewrite En, Es in Eg. unfold put_rx. rewrite Eg. eexists _, s2, e2. split; [reflexivity|]. done.
Qed.

(** What the promise of a request is fulfilled with. *)
Definition reply_result (sock : Z) (d : str) (off cnt : Z) : StatusOr Z :=
  if len d <? off
  then Error (UnknownError ("Error from GET_REPLY: " ++ to_string EINVAL ++ "length: " ++ to_string 0 ++ " Ep: " ++ to_string sock))
  else Value (reply_len (len d) off cnt).

Definition reply_bytes (d : str) (off cnt : Z) : str :=
  if len d <? off then [] else slice off (reply_len (len d) off cnt) d.

Lemma reply_wf pad id d off cnt :
  0 <= pad < 2 ^ 32 -> is_u64 id -> 0 <= off -> 0 <= cnt -> len d < INT64_MAX -> msg_wf (reply_msg pad id d off cnt).
Proof.
  intros Hp Hid Ho Hc Hd. unfold reply_msg. pose proof (len_nonneg d). unfold INT64_MAX in *. destruct (Z.ltb_spec (len d) off).
  - split; [constructor; cbn; unfold is_u64, two64, HDR_SIZE, GET_REPLY, EINVAL in *; lia|]. right. done.
  - pose proof (reply_len_bounds (len d) off cnt ltac:(lia) Hc). split.
    + constructor; cbn [m_hdr hd_reqid hd_datalen hd_offset hd_hdrlen hd_type hd_error hd_pad];
        unfold is_u64, two64, GET_REPLY, HDR_SIZE in *; lia.
    + right. split; [done|]. split; [done|]. cbn [m_body m_hdr hd_error hd_datalen Z.eqb]. apply slice_length; lia.
Qed.

(** The process that asked receives the reply. *)
Lemma receive_reply d off cnt pad id dest cnt' sock r bursts c :
  mfind id (p_recvQueue (pc_peer c)) = Some (mkRecvWork id dest cnt') -> idle_rx sock r (pc_peer c) ->
  0 <= pad < 2 ^ 32 -> is_u64 id -> 0 <= off -> 0 <= cnt -> len d < INT64_MAX ->
  (length (m_bytes (reply_msg pad id d off cnt)) < fuel)%nat ->
  concat (concat bursts) = m_bytes (reply_msg pad id d off cnt) -> Forall (Forall (fun x => x <> [])) bursts ->
  exists c', peer_deliver file strerror fuel sock bursts c = Some c' /\
    pc_promises c' = pc_promises c ++ [(id, reply_result sock d off cnt)] /\
    pc_mem c' = alter (put 0 (reply_bytes d off cnt)) dest (pc_mem c).
Proof.
  intros Hq Hir Hp Hid Ho Hc Hd Hf Hb Hne. pose proof (reply_wf pad id d off cnt Hp Hid Ho Hc Hd) as Hm.
  set (a := abs (rx_of r c)).
  assert (Hh : exists q, handle (TcpProcessRpcGet file fuel) sock (reply_msg pad id d off cnt) a =
    Some (mkAbs q (alter (put 0 (reply_bytes d off cnt)) dest (a_mem a))
            (a_promises a ++ [(id, reply_result sock d off cnt)]) (a_gets a))).
  { unfold reply_msg, reply_bytes, reply_result, handle. destruct (len d <? off);
      cbn [is_req m_hdr hd_type hd_reqid hd_error Z.eqb GET_REPLY GET_REQ Pos.eqb EINVAL]; unfold getAndRemove;
      change (a_queue a) with (p_recvQueue (pc_peer c)); rewrite Hq; eexists.
    - cbn [rw_reqId hd_datalen]. assert (alter (put 0 []) dest (a_mem a) = a_mem a) as -> by (by apply alter_id). reflexivity.
    - reflexivity. }
  destruct Hh as [q Hh]. destruct (deliver_one sock r _ bursts c _ Hir Hm Hb Hne Hf Hh) as (x & E & Ha).
  unfold peer_deliver. rewrite (ir_here _ _ _ Hir), E. unfold abs in Ha. injection Ha as Eq Em Ep Eg.
  unfold put_rx. rewrite Eg. eexists. split; [reflexivity|]. done.
Qed.

(** The request is sent. *)
Lemma request_sends dest nm off cnt sock e p promises :
  free_tx sock e (p_sender p) -> 0 <= p_rpcReqId p -> p_rpcReqId p + 1 < two64 -> 0 <= off < INT64_MAX ->
  0 <= cnt < INT64_MAX -> len nm <= 4096 ->
  (length (m_bytes (request_msg (hd_pad (s_hdr (e_send e))) (p_rpcReqId p + 1) nm off cnt)) < fuel)%nat ->
  exists p1 s2 e2, sendRpcRequest file fuel dest nm off cnt p promises = Some (p1, promises, p_rpcReqId p + 1) /\
    mfind (p_rpcReqId p + 1) (p_recvQueue p1) = Some (mkRecvWork (p_rpcReqId p + 1) dest cnt) /\ p_rx p1 = p_rx p /\
    tx_ready file (length (sk_tx (e_out e))) fuel sock (p_sender p1) = Some s2 /\ mfind sock (sn_eps s2) = Some e2 /\
    sk_sent (e_out e2) =
      sk_sent (e_out e) ++ m_bytes (request_msg (hd_pad (s_hdr (e_send e))) (p_rpcReqId p + 1) nm off cnt).
Proof.
  intros Hft Hid0 Hid Ho Hc Hnm Hf. unfold sendRpcRequest. rewrite u64_small by (unfold is_u64; lia).
  set (id := p_rpcReqId p + 1) in *. set (w := mkSendWork nm id 0 (-1) off cnt GET_REQ 0).
  assert (Een : encode (buf_mem (p_sender p)) file (hd_pad (s_hdr (e_send e))) w =
                m_bytes (request_msg (hd_pad (s_hdr (e_send e))) id nm off cnt)).
  { unfold encode, m_bytes, payload. cbn [w sw_objName has_data hd_type s_hdr sw_type request_msg m_body m_hdr].
    change (has_data _) with false. cbn match. by rewrite app_nil_r. }
  destruct (enqueue_sends file fuel sock e w (p_sender p) Hft) as (s1 & s2 & e2 & -> & Et & Ee & Eo).
  - pose proof (len_nonneg nm). unfold INT64_MAX, two64 in *.
    constructor; cbn [w sw_objName sw_reqId sw_va sw_in_fd sw_off sw_len sw_type sw_error];
      unfold is_u64, two64, GET_REQ, GET_REPLY, HDR_SIZE, id in *; try lia; done.
  - by rewrite Een.
  - rewrite Een in Eo. eexists _, s2, e2. split; [reflexivity|]. cbn [p_recvQueue p_rx p_sender].
    unfold insertOrReplace. rewrite mfind_massign_eq. done.
Qed.
End rpc.

(** ** Properties *)

(** C17: a request over the message transport returns the bytes of the file.
    One process asks for [cnt] bytes at [off] of an object that another one has
    in an open local file: the request is sent completely once the socket has
    taken it; delivered in pieces of any size it is answered, from a buffer or by
    [sendfile], and the answer is sent completely; delivered in pieces of any
    size it fulfils exactly the promise of the request, with the number of bytes
    from [off] to the end of the file, at most [cnt] unless [cnt] is zero, and
    exactly these bytes are in the buffer of the request. A request past the end
    of the file fulfils the promise with an error and leaves the buffer alone. *)
Theorem rpc_get_exact W X K T `{MDStub W} `{S3Client X} `{KernelFair K} `{Transfers T} fileC fileS strerror (fuel : nat)
    (client server : Process W X K T) b k d h fd dest off cnt csock rc ec ssock rs wsock es :
  served fuel b k d (pc_node server) h -> descriptor (pc_node server) h fd -> 0 < fd -> fileS fd = d ->
  free_tx csock ec (p_sender (pc_peer client)) -> idle_rx csock rc (pc_peer client) ->
  free_tx wsock es (p_sender (pc_peer server)) -> idle_rx ssock rs (pc_peer server) ->
  0 <= snd (getBuffer (p_sender (pc_peer server))) < 2 ^ 62 ->
  0 <= p_rpcReqId (pc_peer client) -> p_rpcReqId (pc_peer client) + 1 < two64 ->
  0 <= off < INT64_MAX -> 0 <= cnt < INT64_MAX -> len (b ++ "/" ++ k) <= 4096 -> len d < INT64_MAX ->
  4200 + len d < Z.of_nat fuel ->
  let id := p_rpcReqId (pc_peer client) + 1 in
  exists p1 s1 e1,
    sendRpcRequest fileC fuel dest (b ++ "/" ++ k) off cnt (pc_peer client) (pc_promises client) =
      Some (p1, pc_promises client, id) /\
    tx_ready fileC (length (sk_tx (e_out ec))) fuel csock (p_sender p1) = Some s1 /\ mfind csock (sn_eps s1) = Some e1 /\
    forall request, Forall (Forall (fun c => c <> [])) request ->
      sk_sent (e_out e1) = sk_sent (e_out ec) ++ concat (concat request) ->
      exists server' s2 e2,
        peer_deliver fileS strerror fuel ssock request server = Some server' /\
        tx_ready fileS (length (sk_tx (e_out es))) fuel wsock (p_sender (pc_peer server')) = Some s2 /\
        mfind wsock (sn_eps s2) = Some e2 /\
        forall reply, Forall (Forall (fun c => c <> [])) reply ->
          sk_sent (e_out e2) = sk_sent (e_out es) ++ concat (concat reply) ->
          exists client',
            peer_deliver fileC strerror fuel csock reply
              (mkProcess (pc_node client) (set_sender s1 p1) (pc_mem client) (pc_promises client)) = Some client' /\
            pc_promises client' = pc_promises client ++ [(id, reply_result csock d off cnt)] /\
            pc_mem client' = alter (put 0 (reply_bytes d off cnt)) dest (pc_mem client).
Proof.
  intros Hs Hde Hfd Hfile Hfc Hic Hfs His Hbuf Hid0 Hid Ho Hc Hnm Hd Hfuel id.
  assert (Hl1 : forall pad, (length (m_bytes (request_msg pad id (b ++ "/" ++ k) off cnt)) < fuel)%nat).
  { intros pad. apply Nat2Z.inj_lt. change (Z.of_nat (length ?l)) with (len l). unfold m_bytes.
    rewrite len_app, len_hdr_bytes. unfold HDR_SIZE. pose proof (len_nonneg d). cbn [request_msg m_body]. lia. }
  assert (Hl2 : forall pad, (length (m_bytes (reply_msg pad id d off cnt)) < fuel)%nat).
  { intros pad. apply Nat2Z.inj_lt. change (Z.of_nat (length ?l)) with (len l). unfold m_bytes.
    rewrite len_app, len_hdr_bytes. unfold HDR_SIZE. pose proof (len_nonneg d). unfold reply_msg.
    destruct (Z.ltb_spec (len d) off); cbn [m_body]; [change (len []) with 0; lia|].
    pose proof (reply_len_bounds (len d) off cnt ltac:(lia) ltac:(lia)). rewrite slice_length by lia. lia. }
  assert (Hu : is_u64 id) by (unfold is_u64, id; lia).
  destruct (request_sends fileC fuel dest (b ++ "/" ++ k) off cnt csock ec (pc_peer client) (pc_promises client))
    as (p1 & s1 & e1 & E1 & Hq & Hrx & Et1 & Ee1 & Eo1); try done.
  exists p1, s1, e1. split; [exact E1|]. split; [done|]. split; [done|]. intros request Hr1 Hr2.
  rewrite Eo1 in Hr2. apply app_inv_head in Hr2.
  destruct (serve_request fileS strerror fuel b k d h fd off cnt (hd_pad (s_hdr (e_send ec))) id ssock rs wsock es request server)
    as (server' & s2 & e2 & E2 & Et2 & Ee2 & Eo2); try done; [apply (ft_pad _ _ _ Hfc)|].
  exists server', s2, e2. split; [exact E2|]. split; [done|]. split; [done|]. intros reply Hp1 Hp2.
  rewrite Eo2 in Hp2. apply app_inv_head in Hp2.
  apply (receive_reply fileC strerror fuel d off cnt (hd_pad (s_hdr (e_send es))) id dest cnt csock rc reply
           (mkProcess (pc_node client) (set_sender s1 p1) (pc_mem client) (pc_promises client))); try done; try lia;
    [|apply (ft_pad _ _ _ Hfs)]. destruct Hic. constructor; cbn [pc_peer set_sender p_rx]; by rewrite ?Hrx.
Qed.

(** A file with the descriptor 7 and two processes with one connection, over
    sockets that take the bytes in pieces. *)
Definition rpc_node : Node Server MemS3.world nat unit :=
  set_heap {[0%nat := newHandle "bkt" "dir/key" None (KLocal (mkLocalFile "/tmp/geds/bkt/0" 7 5 []) 0 false)]} 1 stored_node.

Definition rpc_peer (sock : Z) (tx : list tx_event) : TcpPeer :=
  addEndpoint sock (mkTcpSocket [] tx) (mkRxSocket [] RxOpen) (newPeer "10.0.0.2").

Definition rpc_server : Process Server MemS3.world nat unit := mkProcess rpc_node (rpc_peer 9 [TxTake 20; TxAgain; TxTake 0]) ∅ [].
Definition rpc_client : Process Server MemS3.world nat unit :=
  mkProcess rpc_node (rpc_peer 5 [TxAgain; TxTake 9]) {[64 := "........" : str]} [].

#[local] Existing Instance the_stub.
#[local] Existing Instance the_service.

Lemma rpc_served : served 5000 "bkt" "dir/key" "hello" (pc_node rpc_server) 0.
Proof.
  constructor; [reflexivity..|apply stored_node_wf|reflexivity|simpl; lia|].
  eexists _, (mkLocalFile "/tmp/geds/bkt/0" 7 5 []), 0, false.
  split; [apply lookup_singleton_eq|]. split; [reflexivity|]. split; [reflexivity|]. split; [|reflexivity].
  constructor; [simpl; lia|reflexivity|vm_compute; reflexivity].
Qed.

Lemma rpc_free sock tx : calm (mkTcpSocket [] tx) -> free_tx sock (newTx (mkTcpSocket [] tx)) (p_sender (rpc_peer sock tx)).
Proof. intros Hc. constructor; try done. cbn. unfold ltb. cbn. by rewrite Z.ltb_irrefl. Qed.

Lemma rpc_get_exact_witness :
  exists p1 s1 e1,
    sendRpcRequest (fun _ => []) 5000 64 "bkt/dir/key" 1 3 (pc_peer rpc_client) [] = Some (p1, [], 1) /\
    tx_ready (fun _ => []) 2 5000 5 (p_sender p1) = Some s1 /\ mfind 5 (sn_eps s1) = Some e1 /\
    forall request, Forall (Forall (fun c => c <> [])) request -> sk_sent (e_out e1) = concat (concat request) ->
      exists server', peer_deliver (fun _ => "hello" : str) (fun _ => []) 5000 9 request rpc_server = Some server'.
Proof.
  destruct (rpc_get_exact Server MemS3.world nat unit (fun _ => []) (fun _ => "hello" : str) (fun _ => []) 5000
              rpc_client rpc_server "bkt" "dir/key" "hello" 0%nat 7 64 1 3
              5 (newRx (mkRxSocket [] RxOpen)) (newTx (mkTcpSocket [] [TxAgain; TxTake 9]))
              9 (newRx (mkRxSocket [] RxOpen)) 9 (newTx (mkTcpSocket [] [TxTake 20; TxAgain; TxTake 0])))
    as (p1 & s1 & e1 & E1 & E2 & E3 & Hrest).
  - exact rpc_served.
  - eexists _, _, _, _. split; [apply lookup_singleton_eq|]. split; reflexivity.
  - reflexivity.
  - reflexivity.
  - apply rpc_free. repeat constructor.
  - constructor; reflexivity.
  - apply rpc_free. repeat constructor.
  - constructor; reflexivity.
  - vm_compute. split; [discriminate|reflexivity].
  - vm_compute. discriminate.
  - vm_compute. reflexivity.
  - vm_compute. split; [discriminate|reflexivity].
  - vm_compute. split; [discriminate|reflexivity].
  - vm_compute. discriminate.
  - vm_compute. reflexivity.
  - vm_compute. reflexivity.
  - exists p1, s1, e1. split; [exact E1|]. split; [exact E2|]. split; [exact E3|]. intros request Hr Hs.
    destruct (Hrest request Hr Hs) as (server' & _ & _ & E & _). by exists server'.
Defined.
