(* ===== verification/TcpEndpoints.v ===== *)
(** * The message transport: the connections of a peer

    How many connections a [TcpTransport] (TcpTransport.v) keeps while threads
    connect, accept, send, receive and close, in any order. [addEndpointPassive]
    does not keep the lock it takes, so that a peer can have more endpoints
    than I/O threads: as many more as there are other threads. *)

From Stdlib Require Import Ascii ZArith Lia.
From stdpp Require Import base gmap sets list strings numbers relations functions.
From S2P Require Import Prelude Bytes Endian Decimal Status StdMap Path Object MDSKVS S3Endpoint.
From S2P Require Import MetadataService LocalFile ConcurrentMap GedsNames Node Handles HandleIO.
From S2P Require Import Rpc MetadataServer GEDSCreate ConcurrentQueue.
From S2P Require Import TcpDataTransport TcpConnection TcpFraming TcpReceive TcpTransport.

Open Scope Z_scope.
Open Scope list_scope.

(** ** Lemmas: the keys of maps *)

Section key_lists.
Context {K V : Type} `{StrictTotal K}.
Implicit Types (m : smap K V) (l : list K).

Fixpoint kinsert (k : K) l : list K :=
  match l with
  | [] => [k]
  | x :: l => if ltb x k then x :: kinsert k l else if ltb k x then k :: x :: l else x :: l
  end.
Fixpoint kerase (k : K) l : list K :=
  match l with
  | [] => []
  | x :: l => if ltb x k then x :: kerase k l else if ltb k x then x :: l else l
  end.
Fixpoint kmem (k : K) l : bool :=
  match l with
  | [] => false
  | x :: l => if ltb x k then kmem k l else if ltb k x then false else true
  end.

Lemma keys_of_massign k v m : keys (massign k v m) = kinsert k (keys m).
Proof.
  induction m as [|[x w] m IH]; [done|]. cbn [massign keys map kinsert fst]. destruct (ltb x k).
  - cbn [map fst]. f_equal. exact IH.
  - by destruct (ltb k x).
Qed.

Lemma keys_of_merase k m : keys (merase k m) = kerase k (keys m).
Proof.
  induction m as [|[x w] m IH]; [done|]. cbn [merase keys map kerase fst]. destruct (ltb x k).
  - cbn [map fst]. f_equal. exact IH.
  - by destruct (ltb k x).
Qed.

Lemma mfind_kmem k m : kmem k (keys m) = match mfind k m with Some _ => true | None => false end.
Proof. induction m as [|[x w] m IH]; [done|]. cbn [mfind keys map kmem fst]. by destruct (ltb x k), (ltb k x). Qed.

Lemma kinsert_mem k l : kmem k l = true -> kinsert k l = l.
Proof.
  induction l as [|x l IH]; [done|]. cbn [kmem kinsert]. destruct (ltb x k); [intros E; by rewrite IH|].
  by destruct (ltb k x).
Qed.

Lemma kinsert_length k l : (length (kinsert k l) <= S (length l))%nat.
Proof. induction l as [|x l IH]; [done|]. cbn [kinsert]. destruct (ltb x k), (ltb k x); cbn [length]; lia. Qed.

Lemma kerase_length k l : (length (kerase k l) <= length l)%nat.
Proof. induction l as [|x l IH]; [done|]. cbn [kerase]. destruct (ltb x k), (ltb k x); cbn [length]; lia. Qed.

Lemma keys_massign_found k v w m : mfind k m = Some v -> keys (massign k w m) = keys m.
Proof. intros E. rewrite keys_of_massign. apply kinsert_mem. pose proof (mfind_kmem k m) as Hk. by rewrite E in Hk. Qed.

Lemma keys_minsert k v m : keys (fst (minsert k v m)) = kinsert k (keys m).
Proof.
  unfold minsert. destruct (mfind k m) eqn:E; [|apply keys_of_massign].
  symmetry. apply kinsert_mem. pose proof (mfind_kmem k m) as Hk. by rewrite E in Hk.
Qed.

Lemma length_keys m : length (keys m) = length m.
Proof. apply length_map. Qed.

(** All entries of a map that is written to. *)
Lemma Forall_massign (P : K * V -> Prop) k v m : (forall x, x = k -> P (x, v)) -> Forall P m -> Forall P (massign k v m).
Proof.
  intros Hk Hm. induction Hm as [|[x w] m Hx Hm IH]; [constructor; [by apply Hk|constructor]|].
  cbn [massign]. destruct (ltb x k) eqn:E1; [by constructor|]. destruct (ltb k x) eqn:E2.
  - constructor; [by apply Hk|by constructor].
  - constructor; [|done]. by apply Hk, ltb_total.
Qed.

Lemma Forall_merase (P : K * V -> Prop) k m : Forall P m -> Forall P (merase k m).
Proof.
  induction 1 as [|[x w] m Hx Hm IH]; [constructor|]. cbn [merase].
  destruct (ltb x k); [by constructor|]. destruct (ltb k x); [by constructor|done].
Qed.

Lemma Forall_mfind (P : K * V -> Prop) k v m : Forall P m -> mfind k m = Some v -> exists x, P (x, v).
Proof.
  induction 1 as [|[x w] m Hx Hm IH]; [done|]. cbn [mfind]. destruct (ltb x k); [exact IH|]. destruct (ltb k x); [done|].
  intros [= ->]. by exists x.
Qed.
End key_lists.

(** ** Lemmas: one peer *)

(** The halves of the endpoints belong together. *)
Definition halves (p : TcpPeer) : Prop := keys (p_rx p) = keys (sn_eps (p_sender p)).

(** A change that keeps the halves together and adds no endpoint. *)
Definition shrinks (p p' : TcpPeer) : Prop :=
  (halves p -> halves p') /\ (length (p_rx p') <= length (p_rx p))%nat.

Lemma halves_add sock out inp p :
  (halves p -> halves (addEndpoint sock out inp p)) /\
  (length (p_rx (addEndpoint sock out inp p)) <= S (length (p_rx p)))%nat.
Proof.
  split; cbn [addEndpoint set_rx p_rx p_sender set_sender set_eps sn_eps].
  - unfold halves. cbn [addEndpoint set_rx p_rx p_sender set_sender set_eps sn_eps]. intros Hk. by rewrite !keys_minsert, Hk.
  - rewrite <- length_keys, keys_minsert. pose proof (kinsert_length sock (keys (p_rx p))). by rewrite length_keys in *.
Qed.

Lemma shrinks_del sock p : shrinks p (delEndpoint sock p).
Proof.
  split; unfold halves; cbn [delEndpoint set_rx p_rx p_sender set_sender set_eps sn_eps].
  - intros Hk. by rewrite !keys_of_merase, Hk.
  - rewrite <- length_keys, keys_of_merase. pose proof (kerase_length sock (keys (p_rx p))). by rewrite length_keys in *.
Qed.

Lemma shrinks_state sock change p : shrinks p (fst (SocketStateChange sock change p)).
Proof.
  unfold SocketStateChange. destruct (mfind sock _) as [e|] eqn:E; [|done].
  destruct (_ && _); [|done]. destruct (_ =? ALL_CLOSED); [apply shrinks_del|].
  split; [|done]. unfold halves. cbn [fst p_rx p_sender set_sender set_eps sn_eps]. by rewrite (keys_massign_found _ e).
Qed.

Lemma shrinks_clean p promises : shrinks p (fst (cleanup p promises)).
Proof. split; [done|]. cbn. lia. Qed.

Lemma shrinks_stats p : shrinks p (updateIoStats p).
Proof.
  split; unfold halves; cbn [updateIoStats set_rx set_sender set_eps p_rx p_sender sn_eps]; [|by rewrite length_map].
  intros Hk. unfold keys in *. by rewrite !map_map.
Qed.

(** Sending changes no keys. *)
Lemma release_eps l s : sn_eps (fold_left (fun s a => releaseBuffer a s) l s) = sn_eps s.
Proof. revert s. induction l as [|a l IH]; intros s; [done|]. cbn [fold_left]. apply (IH (releaseBuffer a s)). Qed.

Lemma eps_ready file fuel sock s s' b :
  SocketTxReady file fuel sock s = Some (s', b) -> keys (sn_eps s') = keys (sn_eps s).
Proof.
  unfold SocketTxReady. destruct (mfind sock _) as [e|] eqn:E; [|by intros [= <- <-]].
  unfold send_on. destruct (processEndpointSend _ _ _ _) as [[x b']|]; [|done]. intros [= <- <-].
  rewrite release_eps. cbn [set_eps set_queue sn_eps]. by apply (keys_massign_found _ e).
Qed.

Lemma eps_enqueue file fuel w s s' b : enqueue file fuel w s = Some (s', b) -> keys (sn_eps s') = keys (sn_eps s).
Proof.
  unfold enqueue. destruct (getLeastUsedTx _ _); [|by intros [= <- <-]]. intros E. by apply eps_ready in E.
Qed.

Lemma shrinks_sender p s : keys (sn_eps s) = keys (sn_eps (p_sender p)) -> shrinks p (set_sender s p).
Proof. intros E. split; [|done]. unfold halves. cbn [set_sender p_rx p_sender]. congruence. Qed.

Lemma shrinks_request file fuel dest name off len p promises p' promises' id :
  sendRpcRequest file fuel dest name off len p promises = Some (p', promises', id) -> shrinks p p'.
Proof.
  unfold sendRpcRequest. destruct (enqueue _ _ _ _) as [[s []]|] eqn:E; [| |done]; apply eps_enqueue in E; cbv zeta.
  - intros [= <- <- <-]. split; [|done]. unfold halves. cbn [p_rx p_sender]. congruence.
  - destruct (cm_remove _ _) as [q []]; intros [= <- <- <-]; (split; [|done]); unfold halves; cbn [p_rx p_sender]; congruence.
Qed.

(** ** Lemmas: receiving *)

Section receiving.
Context {G : Type} (rpcGet : Z -> str -> Z -> Z -> G -> G) (strerror : Z -> str) (sockno : Z) (P : G -> Prop).
Hypothesis HP : forall id nm n off g, P g -> P (rpcGet id nm n off g).
Implicit Types x : Rx G.

Lemma finish_gets rv x : x_gets (fst (recv_finish strerror rv x)) = x_gets x.
Proof. unfold recv_finish. destruct (_ || _); [done|]. by destruct (r_p _). Qed.

Lemma recv_data_gets fuel x x' r : recv_data strerror fuel x = Some (x', r) -> x_gets x' = x_gets x.
Proof.
  unfold recv_data. destruct (recv_fill _ _ _ _ _) as [[[s got] []]|]; [..|done].
  - destruct (0 <? len got); by intros [= <- <-].
  - destruct (0 <? len got); by intros [= <- <-].
  - destruct (errno =? EWOULDBLOCK); by intros [= <- <-].
Qed.

Lemma dispatch_gets fuel start x x' r :
  P (x_gets x) -> dispatch rpcGet strerror sockno fuel start x = Some (x', r) -> P (x_gets x').
Proof.
  intros Hx. unfold dispatch. destruct (_ =? GET_REQ); [intros [= <- <-]; by apply HP|].
  destruct (_ =? GET_REPLY); [|by intros [= <- <-]].
  destruct start; [|intros E; by rewrite (recv_data_gets _ _ _ _ E)].
  destruct (getAndRemove _ _) as [q [w|]].
  - destruct (negb _); [by intros [= <- <-]|]. intros E. by rewrite (recv_data_gets _ _ _ _ E).
  - unfold leave. pose proof (finish_gets (- EINVAL) x) as Hf. destruct (recv_finish _ _ _). intros [= <- <-].
    cbn [fst] in Hf. by rewrite Hf.
Qed.

Lemma recv_name_gets fuel x x' r : recv_name fuel x = Some (x', r) -> x_gets x' = x_gets x.
Proof.
  unfold recv_name. destruct (_ =? GET_REQ).
  - destruct (_ || _); [by intros [= <- <-]|]. destruct (recv_fill _ _ _ _ _) as [[[s got] []]|]; [..|done]; by intros [= <- <-].
  - destruct (negb _); by intros [= <- <-].
Qed.

Lemma recv_hdr_gets fuel x x' r : recv_hdr fuel x = Some (x', r) -> x_gets x' = x_gets x.
Proof.
  unfold recv_hdr. destruct (recv_fill _ _ _ _ _) as [[[s got] []]|]; [..|done]; try (by intros [= <- <-]).
  intros E. by rewrite (recv_name_gets _ _ _ _ E).
Qed.

Lemma recv_step_gets fuel x x' r :
  P (x_gets x) -> recv_step rpcGet strerror sockno fuel x = Some (x', r) -> P (x_gets x').
Proof.
  intros Hx. unfold recv_step. set (x0 := if bool_decide (_ = PROC_IDLE) then _ else x).
  assert (H0 : P (x_gets x0)) by (subst x0; by case_bool_decide).
  case_bool_decide; [|by apply dispatch_gets]. destruct (recv_hdr fuel x0) as [[x1 [rv|[]]]|] eqn:E; [..|done];
    apply recv_hdr_gets in E; rewrite <- E in H0.
  - unfold leave. pose proof (finish_gets rv x1) as Hf. destruct (recv_finish _ _ _). intros [= <- <-].
    cbn [fst] in Hf. by rewrite Hf.
  - by apply dispatch_gets.
Qed.

(** Whatever arrives, what the handler of requests maintains is maintained. *)
Lemma recv_gets rounds fuel x x' b :
  P (x_gets x) -> processEndpointRecv rpcGet strerror sockno rounds fuel x = Some (x', b) -> P (x_gets x').
Proof.
  unfold processEndpointRecv. revert x. induction rounds as [|rounds IH]; intros x Hx; [done|]. cbn [recv_loop].
  destruct (recv_step _ _ _ fuel x) as [[x1 [b1|]]|] eqn:E; [..|done]; apply recv_step_gets in E; try done.
  - by intros [= <- <-].
  - by apply IH.
Qed.
End receiving.

(** ** Lemmas: sums over threads *)

Fixpoint total {A} (f : A -> Z) (l : list A) : Z := match l with [] => 0 | x :: l => f x + total f l end.

Lemma total_insert {A} (f : A -> Z) l i x y : l !! i = Some x -> total f (<[i := y]> l) = total f l - f x + f y.
Proof.
  revert i. induction l as [|z l IH]; intros [|i] Hi; try done; cbn in Hi.
  - injection Hi as ->. cbn. lia.
  - change (<[S i := y]> (z :: l)) with (z :: <[i := y]> l). cbn [total]. rewrite (IH i Hi). lia.
Qed.

Lemma total_le {A} (f g : A -> Z) l : (forall x, f x <= g x) -> total f l <= total g l.
Proof. intros Hfg. induction l as [|x l IH]; cbn; [lia|]. pose proof (Hfg x). lia. Qed.

Lemma total_pos {A} (f : A -> Z) l : (forall x, 0 <= f x) -> 0 <= total f l.
Proof. intros Hf. induction l as [|x l IH]; cbn; [lia|]. pose proof (Hf x). lia. Qed.

Lemma total_zero {A} (f : A -> Z) l : (forall i x, l !! i = Some x -> f x = 0) -> total f l = 0.
Proof.
  induction l as [|x l IH]; intros Hf; [done|]. cbn. rewrite (Hf 0%nat x eq_refl), IH; [done|]. intros i y Hi. by apply (Hf (S i)).
Qed.

Lemma total_plus {A} (f g : A -> Z) l : total (fun x => f x + g x) l = total f l + total g l.
Proof. induction l as [|x l IH]; cbn; lia. Qed.

Lemma total_one {A} (l : list A) : total (fun _ => 1) l = Z.of_nat (length l).
Proof. induction l as [|x l IH]; cbn [total length]; lia. Qed.

(** ** Lemmas: the threads that connect *)

Section connecting.
(** The number of I/O threads. *)
Context (N : Z).
Hypothesis HN : 0 <= N.

(** Threads that have passed the lock and have not looked at the number of endpoints
    yet; that will add an endpoint to [o]; that hold the lock; and the endpoints
    that [getPeer] may still add to [o]. *)
Definition unchecked (th : thread) : Z := match th with PGet _ _ | PNew _ _ | PCheck _ _ => 1 | _ => 0 end.
Definition committed (o : nat) (th : thread) : Z := match th with PAdd x _ => if decide (x = o) then 1 else 0 | _ => 0 end.
Definition locked (th : thread) : bool :=
  match th with
  | GGet _ _ | GNew _ _ | GSize _ _ | GLoop _ _ _ | GAdd _ _ _ _ | GActivate _ _ _ _ | GDel _ _ _ | GEnd _ _ | GRemove _
  | GUnlock _ => true
  | _ => false
  end.
Definition intended (o : nat) (th : thread) : Z :=
  match th with
  | GLoop x num_ep _ | GAdd x num_ep _ _ => if decide (x = o) then Z.max 0 (N - num_ep) else 0
  | GActivate x num_ep _ _ => if decide (x = o) then Z.max 0 (N - num_ep - 1) else 0
  | _ => 0
  end.

(** What is known of a thread from where it is. *)
Definition thread_ok (num_proc : Z) (th : thread) : Prop :=
  match th with
  | PAdd _ _ | PActivate _ _ => 0 < num_proc
  | GLoop _ num_ep _ | GDel _ num_ep _ | GEnd _ num_ep => 0 <= num_ep /\ (0 < num_ep -> 0 < N)
  | GAdd _ num_ep _ _ | GActivate _ num_ep _ _ => 0 < num_proc /\ 0 <= num_ep < N
  | GUnlock (Some _) | GDone (Some _) => 0 < N
  | _ => True
  end.

(** The bound for [count] threads. *)
Definition bound (count : nat) : Z := if N =? 0 then 0 else N + Z.of_nat count - 1.

Record conn_inv (ts : list thread) (s : Shared) : Prop := {
  ci_procs : t_num_proc (sh_t s) = 0 \/ t_num_proc (sh_t s) = N;
  ci_lock i th : ts !! i = Some th -> (locked th = true <-> sh_lock s = Some i);
  ci_holder i : sh_lock s = Some i -> is_Some (ts !! i);
  ci_threads i th : ts !! i = Some th -> thread_ok (t_num_proc (sh_t s)) th;
  ci_halves o : halves (sh_heap s o);
  ci_size o : size_of o s + total (committed o) ts + total (intended o) ts <= bound (length ts);
  ci_more o : total (intended o) ts = 0 \/
    size_of o s + total (committed o) ts + total (intended o) ts + total unchecked ts <= bound (length ts)
}.

Lemma unchecked_nonneg th : 0 <= unchecked th. Proof. by destruct th. Qed.
Lemma committed_nonneg o th : 0 <= committed o th. Proof. destruct th; cbn; try done. by destruct (decide _). Qed.
Lemma intended_nonneg o th : 0 <= intended o th. Proof. destruct th; cbn; try done; destruct (decide _); lia. Qed.

(** A thread counts once at most. *)
Lemma count_threads o ts :
  total (committed o) ts + total unchecked ts + total (fun th => if locked th then 1 else 0) ts <= Z.of_nat (length ts).
Proof.
  rewrite <- total_one, <- !total_plus. apply total_le. intros th. destruct th; cbn; try lia. destruct (decide _); lia.
Qed.

(** Only the thread with the lock intends to add. *)
Lemma intended_locked o th : locked th = false -> intended o th = 0.
Proof. by destruct th. Qed.

Lemma total_intended o ts s i th :
  conn_inv ts s -> ts !! i = Some th -> sh_lock s = None \/ sh_lock s = Some i ->
  total (intended o) ts = intended o th.
Proof.
  intros I Hi Hl. rewrite <- (list_insert_id ts i th Hi) at 1. 
  assert (E := total_insert (intended o) ts i th TIdle Hi). cbn [intended] in E.
  assert (total (intended o) (<[i := TIdle]> ts) = 0) as E0; [|rewrite list_insert_id by done; lia].
  apply total_zero. intros j x Hj. apply list_lookup_insert_Some in Hj as [(-> & <- & _)|[Hne Hj]]; [done|].
  apply intended_locked. destruct (locked x) eqn:Ex; [|done]. apply (ci_lock _ _ I j x Hj) in Ex.
  destruct Hl as [Hl|Hl]; congruence.
Qed.

Lemma lock_count ts s i th :
  conn_inv ts s -> ts !! i = Some th -> locked th = true -> 1 <= total (fun th => if locked th then 1 else 0) ts.
Proof.
  intros I Hi Hl. pose proof (total_insert (fun th => if locked th then 1 else 0) ts i th TIdle Hi) as E. cbn [locked] in E.
  rewrite Hl in E. assert (0 <= total (fun th => if locked th then 1 else 0) (<[i := TIdle]> ts)); [|lia].
  apply total_pos. intros x. by destruct (locked x).
Qed.

(** What a step does to the lock, and to everything but the counts. *)
Lemma next_lock i th s th' s' :
  conn_next i th s = Some (th', s') ->
  t_num_proc (sh_t s') = t_num_proc (sh_t s) /\
  ((sh_lock s' = sh_lock s /\ locked th' = locked th) \/
   (sh_lock s = None /\ sh_lock s' = Some i /\ locked th' = true) \/
   (locked th = true /\ sh_lock s' = None /\ locked th' = false)).
Proof.
  intros E. destruct th; cbn [conn_next] in E; try done; unfold activateEndpoint, make_peer in E;
    try (destruct (sh_lock s) eqn:El; [done|]);
    repeat match type of E with
    | context [match ?x with None => _ | Some _ => _ end] => destruct x
    | context [match ?x with [] => _ | _ :: _ => _ end] => destruct x as [|[]]
    | context [if ?b then _ else _] => destruct b
    end; try done; injection E as <- <-; (split; [done|]); first [by left|by right; left|by right; right].
Qed.

Lemma next_halves i th s th' s' :
  conn_next i th s = Some (th', s') -> (forall o, halves (sh_heap s o)) -> forall o, halves (sh_heap s' o).
Proof.
  intros E Hh o. assert (Hput : forall x p l h, sh_heap (put_peer x p (mkShared h (sh_heap s) l (sh_lock s))) o = <[x := p]> (sh_heap s) o) by done.
  destruct th; cbn [conn_next] in E; try done; unfold activateEndpoint, make_peer in E;
    repeat match type of E with
    | context [if ?b then _ else _] => destruct b
    | context [match ?x with None => _ | Some _ => _ end] => destruct x eqn:?
    end; try done; injection E as <- <-; try apply Hh; cbn [put_peer put_map sh_heap];
    match goal with |- halves (<[?x := ?p]> _ _) => destruct (decide (x = o)) as [->|Hne] end;
    rewrite ?fn_lookup_insert, ?fn_lookup_insert_ne by done; try apply Hh;
    [done|by apply halves_add|by apply shrinks_del|done|by apply halves_add|by apply shrinks_del].
Qed.

Lemma size_put x p s o : size_of o (put_peer x p s) = if decide (x = o) then Z.of_nat (length (p_rx p)) else size_of o s.
Proof. unfold size_of, put_peer, insert, fn_insert. cbn [sh_heap]. by destruct (decide (x = o)). Qed.

Lemma size_nonneg o s : 0 <= size_of o s. Proof. unfold size_of. lia. Qed.

Lemma size_new h s o : size_of o (snd (make_peer h s)) <= size_of o s.
Proof.
  unfold make_peer, size_of, put_map, insert, fn_insert. cbn [snd sh_heap]. destruct (decide _); [cbn; lia|done].
Qed.

Lemma size_add x sock out inp s o :
  size_of o (put_peer x (addEndpoint sock out inp (sh_heap s x)) s) <= size_of o s + (if decide (x = o) then 1 else 0).
Proof.
  rewrite size_put. destruct (decide (x = o)) as [->|]; [|lia]. pose proof (proj2 (halves_add sock out inp (sh_heap s o))).
  unfold size_of. lia.
Qed.

Lemma size_shrinks x p s o : shrinks (sh_heap s x) p -> size_of o (put_peer x p s) <= size_of o s.
Proof. intros [_ Hp]. rewrite size_put. destruct (decide (x = o)) as [->|]; [|done]. unfold size_of. lia. Qed.

Lemma size_zero ts s o : conn_inv ts s -> 0 < size_of o s -> 0 < N.
Proof.
  intros I Hs. pose proof (ci_size _ _ I o) as Hb. unfold bound in Hb. destruct (Z.eqb_spec N 0); [|lia].
  pose proof (total_pos (committed o) ts (committed_nonneg o)). pose proof (total_pos (intended o) ts (intended_nonneg o)). lia.
Qed.

Lemma next_ok ts i th s th' s' :
  conn_inv ts s -> ts !! i = Some th -> conn_next i th s = Some (th', s') -> thread_ok (t_num_proc (sh_t s)) th'.
Proof.
  intros I Hi E. pose proof (ci_threads _ _ I i th Hi) as Hok. pose proof (ci_procs _ _ I) as Hp.
  destruct th; cbn [conn_next thread_ok] in *; try done; try (injection E as <- <-; done).
  - destruct prepared; by injection E as <- <-.
  - destruct (sh_lock s); [done|]. by injection E as <- <-.
  - destruct (cm_get _ _); by injection E as <- <-.
  - pose proof (size_nonneg o s). destruct (Z.ltb_spec (size_of o s) (t_num_proc (sh_t s))); injection E as <- <-; cbn; [lia|done].
  - unfold activateEndpoint in E. destruct (_ =? 0); [done|]. destruct (_ && _); by injection E as <- <-.
  - destruct inet; by injection E as <- <-.
  - destruct (sh_lock s); [done|]. by injection E as <- <-.
  - destruct (cm_get _ _); by injection E as <- <-.
  - injection E as <- <-. cbn. split; [apply size_nonneg|apply (size_zero ts s o I)].
  - destruct (Z.ltb_spec num_ep (t_num_proc (sh_t s))); [destruct tries as [|[]]|]; injection E as <- <-; cbn; lia.
  - unfold activateEndpoint in E. destruct (_ =? 0); [done|]. destruct (_ && _); injection E as <- <-; cbn; lia.
  - destruct (Z.ltb_spec 0 num_ep); injection E as <- <-; cbn; [tauto|done].
Qed.

Lemma next_counts ts i th s th' s' o :
  conn_inv ts s -> ts !! i = Some th -> conn_next i th s = Some (th', s') ->
  let C := total (committed o) ts - committed o th + committed o th' in
  let G := total (intended o) ts - intended o th + intended o th' in
  let U := total unchecked ts - unchecked th + unchecked th' in
  size_of o s' + C + G <= bound (length ts) /\ (G = 0 \/ size_of o s' + C + G + U <= bound (length ts)).
Proof.
  intros I Hi E. cbv zeta.
  pose proof (ci_size _ _ I o) as H1. pose proof (ci_more _ _ I o) as H2. pose proof (ci_procs _ _ I) as Hp.
  pose proof (ci_threads _ _ I i th Hi) as Hok. pose proof (count_threads o ts) as Hc.
  pose proof (total_pos unchecked ts unchecked_nonneg) as HU. pose proof (size_nonneg o s) as Hs0.
  pose proof (total_pos (committed o) ts (committed_nonneg o)) as HC.
  assert (HK : 0 <= total (fun th => if locked th then 1 else 0) ts) by (apply total_pos; intros x; by destruct (locked x)).
  assert (Hfree : sh_lock s = None -> total (intended o) ts = intended o th) by (intros; apply (total_intended o ts s i th I Hi); by left).
  assert (Hlk : locked th = true -> total (intended o) ts = intended o th /\ 1 <= total (fun th => if locked th then 1 else 0) ts).
  { intros Hl. split; [|by apply (lock_count ts s i th)]. apply (total_intended o ts s i th I Hi). right. by apply (ci_lock _ _ I i th Hi). }
  assert (HUi : unchecked th <= total unchecked ts).
  { pose proof (total_insert unchecked ts i th TIdle Hi) as E0. cbn [unchecked] in E0.
    pose proof (total_pos unchecked (<[i := TIdle]> ts) unchecked_nonneg). lia. }
  assert (HB : bound (length ts) = if N =? 0 then 0 else N + Z.of_nat (length ts) - 1) by done.
  revert H1 H2 Hc HU HC HK Hfree Hlk HUi HB.
  generalize (total (committed o) ts), (total (intended o) ts), (total unchecked ts), (bound (length ts)),
    (Z.of_nat (length ts)), (total (fun th => if locked th then 1 else 0) ts).
  intros C G U B n K' H1 H2 Hc HU HC HK Hfree Hlk HUi HB. clear I Hi.
  destruct th; cbn [conn_next thread_ok committed intended unchecked locked] in *; try done;
    try (destruct (Hlk eq_refl) as [HG HL]); clear Hlk.
  - destruct prepared; injection E as <- <-; cbn; lia.
  - destruct (sh_lock s); [done|]. specialize (Hfree eq_refl). injection E as <- <-. cbn. lia.
  - destruct (cm_get _ _); injection E as <- <-; cbn; lia.
  - pose proof (size_new hostname s o). destruct (make_peer hostname s) as [x s1]. injection E as <- <-. cbn [snd committed intended unchecked] in *. lia.
  - destruct (Z.ltb_spec (size_of o0 s) (t_num_proc (sh_t s))); injection E as <- <-; cbn [committed intended unchecked]; [|lia].
    destruct (decide (o0 = o)) as [->|]; [|lia]. destruct (Z.eqb_spec N 0); lia.
  - injection E as <- <-. pose proof (size_add o0 (lk_sock l) (lk_out l) (lk_in l) s o). cbn [committed intended unchecked].
    destruct (decide (o0 = o)); lia.
  - destruct (activateEndpoint _ _) as [[]|]; [..|done]; injection E as <- <-; cbn; lia.
  - injection E as <- <-. pose proof (size_shrinks o0 (delEndpoint (lk_sock l) (sh_heap s o0)) s o (shrinks_del _ _)). cbn [committed intended unchecked]. lia.
  - destruct inet; injection E as <- <-; cbn; lia.
  - destruct (sh_lock s); [done|]. injection E as <- <-. cbn [committed intended unchecked]. change (size_of o (put_lock (Some i) s)) with (size_of o s). lia.
  - destruct (cm_get _ _); injection E as <- <-; cbn; lia.
  - pose proof (size_new hostname s o). destruct (make_peer hostname s) as [x s1]. injection E as <- <-. cbn [snd committed intended unchecked] in *. lia.
  - injection E as <- <-. cbn [committed intended unchecked]. destruct (decide (o0 = o)) as [->|]; [|lia].
    destruct (Z.eqb_spec N 0); lia.
  - destruct (Z.ltb_spec num_ep (t_num_proc (sh_t s))); [destruct tries as [|[]]|]; injection E as <- <-; cbn [committed intended unchecked];
      destruct (decide (o0 = o)); lia.
  - injection E as <- <-. pose proof (size_add o0 (lk_sock l) (lk_out l) (lk_in l) s o). cbn [committed intended unchecked].
    destruct (decide (o0 = o)); lia.
  - destruct (activateEndpoint _ _) as [[]|]; [..|done]; injection E as <- <-; cbn [committed intended unchecked]; destruct (decide (o0 = o)); lia.
  - injection E as <- <-. pose proof (size_shrinks o0 (delEndpoint (lk_sock l) (sh_heap s o0)) s o (shrinks_del _ _)). cbn [committed intended unchecked]. lia.
  - destruct (0 <? num_ep); injection E as <- <-; cbn; lia.
  - injection E as <- <-. cbn [committed intended unchecked]. change (size_of o (remove_peer _ s)) with (size_of o s). lia.
  - injection E as <- <-. cbn [committed intended unchecked]. change (size_of o (put_lock None s)) with (size_of o s). lia.
Qed.

Lemma inv_next ts i th s th' s' :
  conn_inv ts s -> ts !! i = Some th -> conn_next i th s = Some (th', s') -> conn_inv (<[i := th']> ts) s'.
Proof.
  intros I Hi E. destruct (next_lock _ _ _ _ _ E) as [Hp Hl]. pose proof (ci_lock _ _ I i th Hi) as Hli.
  assert (Hget : <[i := th']> ts !! i = Some th') by (apply list_lookup_insert_eq; by eapply lookup_lt_Some).
  constructor; rewrite ?Hp, ?length_insert.
  - apply I.
  - intros j x Hj. apply list_lookup_insert_Some in Hj as [(<- & -> & _)|[Hne Hj]].
    + destruct Hl as [[-> ->]|[(_ & -> & ->)|(_ & -> & ->)]]; done.
    + rewrite (ci_lock _ _ I j x Hj). destruct Hl as [[-> _]|[(-> & -> & _)|(Hlt & -> & _)]]; [done|split; congruence|].
      apply Hli in Hlt. split; congruence.
  - intros j Hj. destruct (decide (i = j)) as [<-|Hne]; [by eexists|]. rewrite list_lookup_insert_ne by done.
    destruct Hl as [[El _]|[(_ & El & _)|(_ & El & _)]]; rewrite El in Hj; [by apply (ci_holder _ _ I)|congruence|done].
  - intros j x Hj. apply list_lookup_insert_Some in Hj as [(<- & <- & _)|[Hne Hj]]; [by apply (next_ok ts i th s _ s')|by apply (ci_threads _ _ I j)].
  - apply (next_halves i th s th' s' E), I.
  - intros o. rewrite !(total_insert _ _ _ _ _ Hi). apply (next_counts ts i th s th' s' o I Hi E).
  - intros o. rewrite !(total_insert _ _ _ _ _ Hi). apply (next_counts ts i th s th' s' o I Hi E).
Qed.

(** Changes of peers that add no endpoints. *)
Lemma inv_shrink ts s s' :
  t_num_proc (sh_t s') = t_num_proc (sh_t s) -> sh_lock s' = sh_lock s -> (forall o, shrinks (sh_heap s o) (sh_heap s' o)) ->
  conn_inv ts s -> conn_inv ts s'.
Proof.
  intros Hp Hl Hs I. assert (Hle : forall o, size_of o s' <= size_of o s) by (intros o; destruct (Hs o); unfold size_of; lia).
  constructor; rewrite ?Hp, ?Hl; try apply I.
  - intros o. apply Hs, I.
  - intros o. pose proof (ci_size _ _ I o). specialize (Hle o). lia.
  - intros o. pose proof (ci_more _ _ I o). specialize (Hle o). lia.
Qed.

Lemma inv_put o p ts s : shrinks (sh_heap s o) p -> conn_inv ts s -> conn_inv ts (put_peer o p s).
Proof.
  intros Hs. apply inv_shrink; [done..|]. intros x. unfold put_peer, insert, fn_insert. cbn [sh_heap].
  by destruct (decide (o = x)) as [->|].
Qed.

(** A thread begins a call. *)
Lemma inv_call ts s i th th' :
  conn_inv ts s -> ts !! i = Some th -> inside th = false ->
  match th' with PCall _ _ _ | GCall _ _ _ => True | _ => False end -> conn_inv (<[i := th']> ts) s.
Proof.
  intros I Hi Hin Hth. assert (Hl : locked th = false) by (by destruct th).
  assert (Hw : forall o, committed o th = 0 /\ intended o th = 0 /\ unchecked th = 0) by (by destruct th).
  assert (Hw' : forall o, committed o th' = 0 /\ intended o th' = 0 /\ unchecked th' = 0 /\ locked th' = false) by (by destruct th').
  constructor; rewrite ?length_insert.
  - apply I.
  - intros j x Hj. apply list_lookup_insert_Some in Hj as [(<- & <- & _)|[Hne Hj]]; [|by apply (ci_lock _ _ I)].
    rewrite <- (ci_lock _ _ I i th Hi), Hl. destruct (Hw' 0%nat) as (_ & _ & _ & ->). done.
  - intros j Hj. destruct (ci_holder _ _ I j Hj) as [x Hx]. apply lookup_lt_is_Some. rewrite length_insert. by eapply lookup_lt_Some.
  - intros j x Hj. apply list_lookup_insert_Some in Hj as [(<- & <- & _)|[Hne Hj]]; [by destruct th'|by apply (ci_threads _ _ I j)].
  - apply I.
  - intros o. rewrite !(total_insert _ _ _ _ _ Hi). destruct (Hw o) as (-> & -> & _), (Hw' o) as (-> & -> & _).
    pose proof (ci_size _ _ I o). lia.
  - intros o. rewrite !(total_insert _ _ _ _ _ Hi). destruct (Hw o) as (-> & -> & ->), (Hw' o) as (-> & -> & -> & _).
    pose proof (ci_more _ _ I o). lia.
Qed.

(** Every thread inside a call can go on, or waits for one that can. *)
Lemma next_or_lock ts s i th :
  conn_inv ts s -> ts !! i = Some th -> inside th = true ->
  (exists th' s', conn_next i th s = Some (th', s')) \/ (locked th = false /\ exists j, sh_lock s = Some j).
Proof.
  intros I Hi Hin. pose proof (ci_threads _ _ I i th Hi) as Hok. destruct th; cbn [conn_next thread_ok inside] in *; try done;
    unfold activateEndpoint, make_peer; try (left; by eexists _, _).
  - destruct (sh_lock s) as [j|]; [right; by eauto|left; by eexists _, _].
  - rewrite (proj2 (Z.eqb_neq _ 0)) by lia. destruct (_ && _ && _); left; by eexists _, _.
  - destruct (sh_lock s) as [j|]; [right; by eauto|left; by eexists _, _].
  - rewrite (proj2 (Z.eqb_neq _ 0)) by lia. destruct (_ && _ && _); left; by eexists _, _.
Qed.

Lemma next_progress ts s i th :
  conn_inv ts s -> ts !! i = Some th -> inside th = true ->
  (exists th' s', conn_next i th s = Some (th', s')) \/
  (exists j x x' s', sh_lock s = Some j /\ ts !! j = Some x /\ conn_next j x s = Some (x', s')).
Proof.
  intros I Hi Hin. destruct (next_or_lock ts s i th I Hi Hin) as [?|(_ & j & Hj)]; [by left|right].
  destruct (ci_holder _ _ I j Hj) as [x Hx]. pose proof (proj2 (ci_lock _ _ I j x Hx) Hj) as Hl.
  destruct (next_or_lock ts s j x I Hx ltac:(by destruct x)) as [(x' & s' & E)|[Hl' _]]; [|congruence].
  by exists j, x, x', s'.
Qed.
End connecting.

(** ** Lemmas: runs of the transport *)

Section transport.
Context {W X K T : Type} `{MDStub W} `{S3Client X} `{Kernel K} `{Transfers T}.
Context (file : Z -> str) (strerror : Z -> str) (fuel : nat) (cpus : Z) (hyperthreading : bool).
Implicit Types y : System W X K T.

Lemma eps_get id nm n off (keys0 : list Z) (g : option (Node W X K T * Sender)) :
  let P g := match g with Some (_, s) => keys (sn_eps s) = keys0 | None => True end in
  P g -> P (TcpProcessRpcGet file fuel id nm n off g).
Proof.
  cbv zeta. destruct g as [[nd s]|]; [|done]. intros Hs. cbn [TcpProcessRpcGet].
  destruct (rpcAnswer _ _ _ _ nd) as [a nd'| |]; [|done..].
  destruct (send_answer file fuel id a s) as [[s' b]|] eqn:E; [|done]. rewrite <- Hs.
  destruct a as [st|fd o l|bytes l]; cbn [send_answer] in E; unfold sendRpcReply in E; [by apply eps_enqueue in E..|].
  unfold getBuffer in E. destruct (sn_free s); by apply eps_enqueue in E.
Qed.

Lemma shrinks_recv sock (c c' : Process W X K T) b :
  halves (pc_peer c) -> peer_recv file strerror fuel sock c = Some (c', b) -> shrinks (pc_peer c) (pc_peer c').
Proof.
  unfold shrinks, halves. intros Hk. unfold peer_recv. destruct (mfind sock _) as [e|] eqn:E; [|by intros [= <- <-]].
  destruct (processEndpointRecv _ _ _ _ _ _) as [[x b']|] eqn:Er; [|done].
  destruct (put_rx sock x c) as [c1|] eqn:Ep; [|done]. intros [= <- <-].
  apply (recv_gets _ _ _ (fun g => match g with
                                   | Some (_, s) => keys (sn_eps s) = keys (p_rx (pc_peer c))
                                   | None => True
                                   end)) in Er; [|intros; by apply eps_get|done].
  unfold put_rx in Ep. destruct (x_gets x) as [[n s]|]; [|done]. injection Ep as <-.
  cbn [pc_peer p_rx p_sender]. split; [intros _; by rewrite (keys_massign_found _ e)|].
  by rewrite <- !length_keys, (keys_massign_found _ e).
Qed.

(** The number of I/O threads. *)
Definition io_threads : Z := Z.min (if hyperthreading then cpus / 2 else cpus) MAX_IO_THREADS.

Lemma io_threads_nonneg : 0 <= cpus -> 0 <= io_threads.
Proof. intros Hc. unfold io_threads, MAX_IO_THREADS. pose proof (Z.div_pos cpus 2 Hc ltac:(lia)). destruct hyperthreading; lia. Qed.

Notation inv y := (conn_inv io_threads (sy_threads y) (sy_shared y)).

Lemma inv_clean o y : inv y -> inv (clean o y).
Proof.
  unfold clean, peer_at. pose proof (shrinks_clean (sh_heap (sy_shared y) o) (sy_promises y)) as Hs.
  destruct (cleanup _ _) as [p ps]. by apply inv_put.
Qed.

Lemma inv_step y y' : 0 <= io_threads -> inv y -> tt_step file strerror fuel cpus hyperthreading y y' -> inv y'.
Proof.
  intros HN I Hs. destruct Hs as [eventFd buffers y Hin|y|y|s ts n m ps i th th' Hi Hin Hth|s ts n m ps i th th' s' Hi E
    |y o dest name off len p' promises id E|y o sock s b E|y o sock c b E|y o sock change|y key|y o|y o].
  - cbn [sy_threads sy_shared put_shared]. unfold tt_start. destruct (t_isServing _); [by destruct (sy_shared y)|].
    destruct I as [I1 I2 I3 I4 I5 I6 I7]. constructor; try done; [by right|].
    intros i th Hi. rewrite forallb_forall in Hin. specialize (Hin th).
    assert (inside th = false) as Ht by (apply negb_true_iff, Hin, list_elem_of_In; by eapply list_elem_of_lookup_2).
    specialize (I4 i th Hi). by destruct th.
  - revert I. by apply inv_shrink.
  - revert I. by apply inv_shrink.
  - by apply (inv_call _ _ _ _ th).
  - by apply (inv_next _ HN _ _ th s).
  - revert I. apply inv_put, (shrinks_request _ _ _ _ _ _ _ _ _ _ _ E).
  - revert I. apply inv_put, shrinks_sender, (eps_ready _ _ _ _ _ _ E).
  - apply shrinks_recv in E; [|exact (ci_halves _ _ _ I o)]. revert I. by apply inv_put.
  - revert I. apply inv_put, shrinks_state.
  - revert I. by apply inv_shrink.
  - by apply inv_clean.
  - revert I. apply inv_put, shrinks_stats.
Qed.

Lemma step_count y y' :
  tt_step file strerror fuel cpus hyperthreading y y' -> length (sy_threads y') = length (sy_threads y).
Proof.
  destruct 1; cbn [sy_threads put_shared put_process stopping]; rewrite ?length_insert; try done.
Qed.

Lemma inv_steps y y' :
  0 <= io_threads -> inv y -> rtc (tt_step file strerror fuel cpus hyperthreading) y y' ->
  inv y' /\ length (sy_threads y') = length (sy_threads y).
Proof.
  intros HN I Hr. revert I. induction Hr as [|y y1 y' Hs _ IH]; intros I; [done|].
  destruct (IH (inv_step _ _ HN I Hs)) as [I' Hl]. split; [done|]. by rewrite Hl, (step_count y y1).
Qed.
End transport.

(** ** Lemmas: what the steps are made of *)

Section runs.
Context {W X K T : Type} `{MDStub W} `{S3Client X} `{Kernel K} `{Transfers T}.
Context (file : Z -> str) (strerror : Z -> str) (fuel : nat) (cpus : Z) (hyperthreading : bool).
Implicit Types y : System W X K T.
Notation step := (tt_step file strerror fuel cpus hyperthreading).

Lemma close_dead_steps o sock change y : rtc step y (close_dead o sock change y).
Proof.
  unfold close_dead. pose proof (TState file strerror fuel cpus hyperthreading y o sock change) as Hs.
  destruct (SocketStateChange sock change (peer_at o y)) as [p []]; cbn [fst] in Hs; [|by apply rtc_once].
  eapply rtc_l; [exact Hs|]. eapply rtc_l; [apply (TRemove _ _ _ _ _ _ (p_Id p))|].
  unfold drop_pointer. destruct (_ || _); [done|]. apply rtc_once, TClean.
Qed.

(** The events of the I/O threads, and [stop]. *)
Lemma tx_event_steps ev y y' : tx_event_step file fuel ev y = Some y' -> rtc step y y'.
Proof.
  unfold tx_event_step. destruct (_ =? _); [by intros [= <-]|]. destruct (_ <? 0); [by intros [= <-]|].
  destruct (cm_get _ _) as [o|]; [|by intros [= <-]]. destruct (ev_closed ev); [intros [= <-]; apply close_dead_steps|].
  destruct (negb _); [by intros [= <-]|]. destruct (SocketTxReady _ _ _ _) as [[s b]|] eqn:E; [|done].
  intros [= <-]. eapply rtc_l; [by apply (TSend _ _ _ _ _ y o (ep_sock (ev_data ev)) s b)|]. destruct b; [done|apply close_dead_steps].
Qed.

Lemma rx_event_steps ev y y' : rx_event_step file strerror fuel ev y = Some y' -> rtc step y y'.
Proof.
  unfold rx_event_step. destruct (_ =? _); [by intros [= <-]|]. destruct (_ <? 0); [by intros [= <-]|].
  destruct (cm_get _ _) as [o|]; [|by intros [= <-]]. destruct (ev_closed ev); [intros [= <-]; apply close_dead_steps|].
  destruct (negb _); [by intros [= <-]|]. destruct (peer_recv _ _ _ _ _) as [[c b]|] eqn:E; [|done].
  intros [= <-]. eapply rtc_l; [by apply (TRecv _ _ _ _ _ y o (ep_sock (ev_data ev)) c b)|]. destruct b; [done|apply close_dead_steps].
Qed.

Lemma stop_steps y : rtc step y (tt_stop y).
Proof.
  unfold tt_stop. assert (forall (l : smap Z nat) y, rtc step y (fold_left (fun y kp => clean (snd kp) y) l y)) as Hf.
  { clear y. induction l as [|kp l IH]; intros y; [done|]. cbn [fold_left]. eapply rtc_l; [apply TClean|apply IH]. }
  etransitivity; [apply Hf|]. eapply rtc_l; [apply TClear|]. apply rtc_once, TStopping.
Qed.

(** The threads on their own, in the order given. *)
Fixpoint run_order (num : list nat) (ts : list thread) (s : Shared) : option (list thread * Shared) :=
  match num with
  | [] => Some (ts, s)
  | i :: num =>
      match ts !! i with
      | None => None
      | Some th => match conn_next i th s with
                   | None => None
                   | Some (th', s') => run_order num (<[i := th']> ts) s'
                   end
      end
  end.

Lemma run_order_steps num ts s ts' s' n m ps :
  run_order num ts s = Some (ts', s') -> rtc step (mkSystem s ts n m ps) (mkSystem s' ts' n m ps).
Proof.
  revert ts s. induction num as [|i num IH]; intros ts s; cbn [run_order]; [by intros [= <- <-]|].
  destruct (ts !! i) as [th|] eqn:Ei; [|done]. destruct (conn_next i th s) as [[th' s1]|] eqn:En; [|done].
  intros Hr. eapply rtc_l; [by apply (TNext _ _ _ _ _ s ts n m ps i th th' s1)|]. by apply IH.
Qed.
End runs.

(** ** Properties *)

(** C33: the connections of a peer are bounded, but not by the number of I/O
    threads. However the calls of [addEndpointPassive] and [getPeer] that [count]
    threads make interleave with each other, with requests and with the events of the I/O
    threads, a peer never has more endpoints than there are I/O threads, at
    most eight, and other calling threads: [addEndpointPassive] looks at their number and
    adds one without the lock. No call divides by that number when it is zero, and
    every call can go on unless it waits for the lock of another that can. With one
    processor and the hyperthreading bit set there are no I/O threads: then there are
    no endpoints and [getPeer] never returns a peer. *)
Theorem endpoints_bounded W X K T `{MDStub W} `{S3Client X} `{Kernel K} `{Transfers T} file strerror fuel cpus hyperthreading
    count heap n m ps (y : System W X K T) :
  0 <= cpus -> (forall o, p_rx (heap o) = [] /\ sn_eps (p_sender (heap o)) = []) ->
  rtc (tt_step file strerror fuel cpus hyperthreading)
    (mkSystem (mkShared newTransport heap 0 None) (replicate count TIdle) n m ps) y ->
  let N := io_threads cpus hyperthreading in
  (forall o, size_of o (sy_shared y) <= (if N =? 0 then 0 else N + Z.of_nat count - 1) /\
     length (sn_eps (p_sender (sh_heap (sy_shared y) o))) = length (p_rx (sh_heap (sy_shared y) o))) /\
  N <= 8 /\
  (forall i th, sy_threads y !! i = Some th -> inside th = true ->
     (exists th' s', conn_next i th (sy_shared y) = Some (th', s')) \/
     (exists j x x' s', sh_lock (sy_shared y) = Some j /\ sy_threads y !! j = Some x /\
        conn_next j x (sy_shared y) = Some (x', s'))) /\
  (cpus = 1 -> hyperthreading = true -> forall i o, sy_threads y !! i <> Some (GDone (Some o))).
Proof.
  intros Hc Hh Hr N. pose proof (io_threads_nonneg cpus hyperthreading Hc) as HN. fold N in HN.
  assert (I0 : conn_inv N (replicate count TIdle) (mkShared newTransport heap 0 None)).
  { assert (Hz : forall f : thread -> Z, f TIdle = 0 -> total f (replicate count TIdle) = 0).
    { intros f Hf. apply total_zero. intros i x Hi. by apply lookup_replicate in Hi as [-> _]. }
    constructor; cbn [sh_t sh_heap sh_lock newTransport t_num_proc].
    - by left.
    - intros i th Hi. apply lookup_replicate in Hi as [-> _]. done.
    - done.
    - intros i th Hi. by apply lookup_replicate in Hi as [-> _].
    - intros o. unfold halves. by destruct (Hh o) as [-> ->].
    - intros o. rewrite !Hz by done. unfold size_of, bound. cbn [sh_heap]. destruct (Hh o) as [-> _]. cbn.
      rewrite length_replicate. destruct (Z.eqb_spec N 0); lia.
    - intros o. left. by rewrite Hz. }
  destruct (inv_steps file strerror fuel cpus hyperthreading
              (mkSystem (mkShared newTransport heap 0 None) (replicate count TIdle) n m ps) y HN I0 Hr) as [I Hl].
  cbn [sy_threads] in Hl. rewrite length_replicate in Hl. split; [|split; [unfold N, io_threads, MAX_IO_THREADS; lia|split]].
  - intros o. split.
    + pose proof (ci_size N _ _ I o) as Hs. unfold bound in Hs. fold N in Hs. rewrite Hl in Hs.
      pose proof (total_pos (committed o) (sy_threads y) (committed_nonneg o)).
      pose proof (total_pos (intended N o) (sy_threads y) (intended_nonneg N o)). destruct (N =? 0); lia.
    + pose proof (ci_halves _ _ _ I o) as Hk. unfold halves in Hk. by rewrite <- !length_keys, Hk.
  - intros i th Hi Hin. by apply (next_progress N _ _ i th).
  - intros -> -> i o Hi. pose proof (ci_threads _ _ _ I i _ Hi) as Ho. cbn in Ho. unfold N in Ho. vm_compute in Ho. done.
Qed.

(** ** Witness *)

#[local] Existing Instance the_stub.
#[local] Existing Instance the_service.

(** Two processors, and two threads: one accepts a connection from a host, the
    other connects to it. The first looks at the number of endpoints and is
    interrupted; the second makes as many as there are I/O threads; the first goes on. *)
Definition demo_system (ts : list thread) (s : Shared) : System Server MemS3.world nat unit :=
  mkSystem s ts demo_node ∅ [].

Definition demo_link (sock : Z) : link := mkLink sock (mkTcpSocket [] []) (mkRxSocket [] RxOpen) (mkActivation true true true).

Definition demo_calls : list thread :=
  [PCall true "10.0.0.2" (demo_link 5); GCall true "10.0.0.2" [ConnectedTo (demo_link 6); ConnectedTo (demo_link 7)]].

Definition new_shared : Shared := mkShared newTransport (fun _ => newPeer []) 0 None.
Definition started_shared : Shared := mkShared (tt_start 2 false 3 [] newTransport) (fun _ => newPeer []) 0 None.

Definition demo_order : list nat := replicate 5 0%nat ++ replicate 13 1%nat ++ [0%nat].

Definition demo_end : list thread * Shared :=
  match run_order demo_order demo_calls started_shared with Some r => r | None => ([], new_shared) end.

Lemma endpoints_bounded_witness :
  io_threads 2 false = 2 /\ size_of 0%nat (snd demo_end) = 3 /\
  (forall o, size_of o (snd demo_end) <= 3) /\ fst demo_end !! 1%nat = Some (GDone (Some 0%nat)).
Proof.
  split; [reflexivity|]. split; [vm_compute; reflexivity|]. split; [|vm_compute; reflexivity].
  intros o. destruct (endpoints_bounded Server MemS3.world nat unit (fun _ => []) (fun _ => []) 30 2 false 2 (fun _ => newPeer [])
      demo_node ∅ [] (demo_system (fst demo_end) (snd demo_end))) as [Hb _].
  - lia.
  - done.
  - apply (rtc_l _ _ (demo_system [TIdle; TIdle] started_shared)).
    { exact (TStart (fun _ => []) (fun _ => []) 30 2 false 3 [] (demo_system [TIdle; TIdle] new_shared) eq_refl). }
    apply (rtc_l _ _ (demo_system [PCall true "10.0.0.2" (demo_link 5); TIdle] started_shared)).
    { by apply (TCall _ _ 30 2 false started_shared [TIdle; TIdle] _ _ _ 0 TIdle). }
    apply (rtc_l _ _ (demo_system demo_calls started_shared)).
    { by apply (TCall _ _ 30 2 false started_shared [PCall true "10.0.0.2" (demo_link 5); TIdle] _ _ _ 1 TIdle). }
    apply (run_order_steps _ _ 30 2 false demo_order). unfold demo_end.
    destruct (run_order demo_order demo_calls started_shared) as [[ts s]|] eqn:E; [done|].
    exfalso. assert (Hs : is_Some (run_order demo_order demo_calls started_shared)) by (vm_compute; by eexists).
    rewrite E in Hs. by destruct Hs.
  - apply (Hb o).
Defined.
