(* ===== verification/GEDSConfig.v ===== *)
(** * Configuration

    src/src/libgeds/GEDSConfig.h, GEDSConfig.cpp: the settings of a process by
    name, with their types and ranges. The file layer reads some of them
    ([Node.Config]). A [double] is its 64-bit pattern. *)

From Stdlib Require Import Ascii ZArith Lia.
From stdpp Require Import base gmap sets list strings numbers.
From S2P Require Import Prelude Decimal Status.

Open Scope Z_scope.
Open Scope list_scope.

Definition INT16_MAX : Z := 32767.
Definition GEDSPort : Z := 4382.
Definition PrometheusPort : Z := 4380.
Definition double_0_7 : Z := 0x3FE6666666666666.
Definition double_0_9 : Z := 0x3FECCCCCCCCCCCCD.

Record GEDSConfig := mkConfig {
  metadataServiceAddress : str;
  listenAddress : str;
  cf_hostname : option str;
  cf_port : Z;
  portHttpServer : Z;
  localStoragePath : str;
  cacheBlockSize : Z;
  io_thread_pool_size : Z;
  available_local_storage : Z;
  available_local_memory : Z;
  pubSubEnabled : bool;
  cache_objects_from_s3 : bool;
  force_relocation_when_stopping : bool;
  storage_spilling_fraction : Z
}.

(** The constructor; the available storage it tests is still the default. *)
Definition newConfig (cpus : Z) (address : str) : GEDSConfig :=
  let threads := Z.max (cpus / 2) 8 in
  let storage := 100 * 1024 * 1024 * 1024 in
  let small := storage <=? 4 * 1024 * 1024 * 1024 in
  mkConfig address "0.0.0.0" None GEDSPort PrometheusPort "/tmp/GEDS_XXXXXX" (32 * 1024 * 1024)
    (if small then Z.min threads 6 else threads) storage (16 * 1024 * 1024 * 1024) false false false
    (if small then double_0_9 else double_0_7).

(** Assignments to the members. *)
Definition set_listen v c := mkConfig (metadataServiceAddress c) v (cf_hostname c) (cf_port c) (portHttpServer c) (localStoragePath c) (cacheBlockSize c) (io_thread_pool_size c) (available_local_storage c) (available_local_memory c) (pubSubEnabled c) (cache_objects_from_s3 c) (force_relocation_when_stopping c) (storage_spilling_fraction c).
Definition set_hostname v c := mkConfig (metadataServiceAddress c) (listenAddress c) v (cf_port c) (portHttpServer c) (localStoragePath c) (cacheBlockSize c) (io_thread_pool_size c) (available_local_storage c) (available_local_memory c) (pubSubEnabled c) (cache_objects_from_s3 c) (force_relocation_when_stopping c) (storage_spilling_fraction c).
Definition set_port v c := mkConfig (metadataServiceAddress c) (listenAddress c) (cf_hostname c) v (portHttpServer c) (localStoragePath c) (cacheBlockSize c) (io_thread_pool_size c) (available_local_storage c) (available_local_memory c) (pubSubEnabled c) (cache_objects_from_s3 c) (force_relocation_when_stopping c) (storage_spilling_fraction c).
Definition set_http v c := mkConfig (metadataServiceAddress c) (listenAddress c) (cf_hostname c) (cf_port c) v (localStoragePath c) (cacheBlockSize c) (io_thread_pool_size c) (available_local_storage c) (available_local_memory c) (pubSubEnabled c) (cache_objects_from_s3 c) (force_relocation_when_stopping c) (storage_spilling_fraction c).
Definition set_path v c := mkConfig (metadataServiceAddress c) (listenAddress c) (cf_hostname c) (cf_port c) (portHttpServer c) v (cacheBlockSize c) (io_thread_pool_size c) (available_local_storage c) (available_local_memory c) (pubSubEnabled c) (cache_objects_from_s3 c) (force_relocation_when_stopping c) (storage_spilling_fraction c).
Definition set_block v c := mkConfig (metadataServiceAddress c) (listenAddress c) (cf_hostname c) (cf_port c) (portHttpServer c) (localStoragePath c) v (io_thread_pool_size c) (available_local_storage c) (available_local_memory c) (pubSubEnabled c) (cache_objects_from_s3 c) (force_relocation_when_stopping c) (storage_spilling_fraction c).
Definition set_threads v c := mkConfig (metadataServiceAddress c) (listenAddress c) (cf_hostname c) (cf_port c) (portHttpServer c) (localStoragePath c) (cacheBlockSize c) v (available_local_storage c) (available_local_memory c) (pubSubEnabled c) (cache_objects_from_s3 c) (force_relocation_when_stopping c) (storage_spilling_fraction c).
Definition set_storage v c := mkConfig (metadataServiceAddress c) (listenAddress c) (cf_hostname c) (cf_port c) (portHttpServer c) (localStoragePath c) (cacheBlockSize c) (io_thread_pool_size c) v (available_local_memory c) (pubSubEnabled c) (cache_objects_from_s3 c) (force_relocation_when_stopping c) (storage_spilling_fraction c).
Definition set_memory v c := mkConfig (metadataServiceAddress c) (listenAddress c) (cf_hostname c) (cf_port c) (portHttpServer c) (localStoragePath c) (cacheBlockSize c) (io_thread_pool_size c) (available_local_storage c) v (pubSubEnabled c) (cache_objects_from_s3 c) (force_relocation_when_stopping c) (storage_spilling_fraction c).
Definition set_pubsub v c := mkConfig (metadataServiceAddress c) (listenAddress c) (cf_hostname c) (cf_port c) (portHttpServer c) (localStoragePath c) (cacheBlockSize c) (io_thread_pool_size c) (available_local_storage c) (available_local_memory c) v (cache_objects_from_s3 c) (force_relocation_when_stopping c) (storage_spilling_fraction c).
Definition set_cache_s3 v c := mkConfig (metadataServiceAddress c) (listenAddress c) (cf_hostname c) (cf_port c) (portHttpServer c) (localStoragePath c) (cacheBlockSize c) (io_thread_pool_size c) (available_local_storage c) (available_local_memory c) (pubSubEnabled c) v (force_relocation_when_stopping c) (storage_spilling_fraction c).
Definition set_force v c := mkConfig (metadataServiceAddress c) (listenAddress c) (cf_hostname c) (cf_port c) (portHttpServer c) (localStoragePath c) (cacheBlockSize c) (io_thread_pool_size c) (available_local_storage c) (available_local_memory c) (pubSubEnabled c) (cache_objects_from_s3 c) v (storage_spilling_fraction c).
Definition set_fraction v c := mkConfig (metadataServiceAddress c) (listenAddress c) (cf_hostname c) (cf_port c) (portHttpServer c) (localStoragePath c) (cacheBlockSize c) (io_thread_pool_size c) (available_local_storage c) (available_local_memory c) (pubSubEnabled c) (cache_objects_from_s3 c) (force_relocation_when_stopping c) v.

Definition key_not_found (key : str) : Status := NotFoundError ("Key " ++ key ++ " not found.").
Definition out_of_range_for (key : str) (value : str) : Status :=
  InvalidArgumentError ("Value " ++ value ++ " is out of range for " ++ key).

Definition key_is (key s : str) : bool := bool_decide (key = s).

(** [set(key, std::string)] *)
Definition set_string (key value : str) (c : GEDSConfig) : GEDSConfig * Status :=
  if key_is key "listen_address" then (set_listen value c, OkStatus)
  else if key_is key "hostname" then (set_hostname (if bool_decide (value = []) then None else Some value) c, OkStatus)
  else if key_is key "local_storage_path" then (set_path value c, OkStatus)
  else if key_is key "pub_sub_enabled" && key_is value "true" then (set_pubsub true c, OkStatus)
  else (c, key_not_found key).

(** [set(key, size_t)] *)
Definition set_unsigned (key : str) (value : Z) (c : GEDSConfig) : GEDSConfig * Status :=
  let bad := out_of_range_for key (to_string value) in
  if value =? 0 then (c, bad)
  else if key_is key "port" then if INT16_MAX <? value then (c, bad) else (set_port (u16 value) c, OkStatus)
  else if key_is key "http_server_port" then if INT16_MAX <? value then (c, bad) else (set_http (u16 value) c, OkStatus)
  else if key_is key "cache_block_size" then (set_block value c, OkStatus)
  else if key_is key "io_thread_pool_size" then (set_threads value c, OkStatus)
  else if key_is key "available_local_storage" then (set_storage value c, OkStatus)
  else if key_is key "available_local_memory" then (set_memory value c, OkStatus)
  else if key_is key "pub_sub_enabled" then (set_pubsub (negb (value =? 0)) c, OkStatus)
  else if key_is key "cache_objects_from_s3" then (set_cache_s3 (negb (value =? 0)) c, OkStatus)
  else if key_is key "force_relocation_when_stopping" then (set_force (negb (value =? 0)) c, OkStatus)
  else (c, key_not_found key).

(** [set(key, int64_t)] *)
Definition set_signed (key : str) (value : Z) (c : GEDSConfig) : GEDSConfig * Status :=
  if value <? 0 then (c, out_of_range_for key (to_string_signed value)) else set_unsigned key (u64 value) c.

(** [set(key, double)] *)
Definition set_double (key : str) (value : Z) (c : GEDSConfig) : GEDSConfig * Status :=
  if key_is key "storage_spilling_fraction" then (set_fraction value c, OkStatus) else (c, key_not_found key).

Definition getString (key : str) (c : GEDSConfig) : StatusOr str :=
  if key_is key "listen_address" then Value (listenAddress c)
  else if key_is key "hostname" then Value (default [] (cf_hostname c))
  else if key_is key "local_storage_path" then Value (localStoragePath c)
  else Error (key_not_found key).

Definition getUnsignedInt (key : str) (c : GEDSConfig) : StatusOr Z :=
  if key_is key "port" then Value (cf_port c)
  else if key_is key "http_server_port" then Value (portHttpServer c)
  else if key_is key "cache_block_size" then Value (cacheBlockSize c)
  else if key_is key "io_thread_pool_size" then Value (io_thread_pool_size c)
  else if key_is key "available_local_storage" then Value (available_local_storage c)
  else if key_is key "available_local_memory" then Value (available_local_memory c)
  else Error (key_not_found key).

(** [getSignedInt]: the conversion keeps the bits. *)
Definition getSignedInt (key : str) (c : GEDSConfig) : StatusOr Z :=
  match getUnsignedInt key c with Value v => Value (i64 v) | Error st => Error st end.

Definition getDouble (key : str) (c : GEDSConfig) : StatusOr Z :=
  if key_is key "storage_spilling_fraction" then Value (storage_spilling_fraction c)
  else Error (NotFoundError ("Key " ++ key ++ " (double) not found.")).

(** ** Runs *)

Inductive set_call :=
| SetString (key value : str)
| SetUnsigned (key : str) (value : Z)
| SetSigned (key : str) (value : Z)
| SetDouble (key : str) (value : Z).

Definition call_key (o : set_call) : str :=
  match o with SetString k _ | SetUnsigned k _ | SetSigned k _ | SetDouble k _ => k end.

(** The argument has its type. *)
Definition call_typed (o : set_call) : Prop :=
  match o with
  | SetUnsigned _ v | SetDouble _ v => is_u64 v
  | SetSigned _ v => - 2 ^ 63 <= v < 2 ^ 63
  | SetString _ _ => True
  end.

Definition call (o : set_call) (c : GEDSConfig) : GEDSConfig * Status :=
  match o with
  | SetString k v => set_string k v c
  | SetUnsigned k v => set_unsigned k v c
  | SetSigned k v => set_signed k v c
  | SetDouble k v => set_double k v c
  end.

Definition calls (os : list set_call) (c : GEDSConfig) : GEDSConfig := fold_left (fun c o => fst (call o c)) os c.

(** Every member is a value of its type, ports are those a signed 16-bit number
    holds, nothing that is counted is zero, and a hostname is not empty. *)
Record config_wf (c : GEDSConfig) : Prop := {
  wf_hostname : cf_hostname c <> Some [];
  wf_port : 0 < cf_port c <= INT16_MAX;
  wf_http : 0 < portHttpServer c <= INT16_MAX;
  wf_block : 0 < cacheBlockSize c < two64;
  wf_threads : 0 < io_thread_pool_size c < two64;
  wf_storage : 0 < available_local_storage c < two64;
  wf_memory : 0 < available_local_memory c < two64;
  wf_fraction : is_u64 (storage_spilling_fraction c)
}.

(** ** Specification *)

(** A setting with its type. *)
Inductive setting :=
| Text (s : str)
| Port (v : Z)
| Count (v : Z)
| Switch (on : bool)
| Double (bits : Z).

(** A table of settings by key. *)
Notation table := (gmap str setting).

(** What every call does to the table: the value replaces that of its key, if
    the key has the type of the call. *)
Definition spec_unsigned (key : str) (value : Z) (m : table) : table * Status :=
  let bad := out_of_range_for key (to_string value) in
  if value =? 0 then (m, bad) else
  match m !! key with
  | Some (Port _) => if INT16_MAX <? value then (m, bad) else (<[key := Port value]> m, OkStatus)
  | Some (Count _) => (<[key := Count value]> m, OkStatus)
  | Some (Switch _) => (<[key := Switch true]> m, OkStatus)
  | _ => (m, key_not_found key)
  end.

Definition spec_call (o : set_call) (m : table) : table * Status :=
  match o with
  | SetString key value =>
      match m !! key with
      | Some (Text _) => (<[key := Text value]> m, OkStatus)
      | Some (Switch _) =>
          if bool_decide (key = "pub_sub_enabled" /\ value = "true") then (<[key := Switch true]> m, OkStatus)
          else (m, key_not_found key)
      | _ => (m, key_not_found key)
      end
  | SetUnsigned key value => spec_unsigned key value m
  | SetSigned key value =>
      if value <? 0 then (m, out_of_range_for key (to_string_signed value)) else spec_unsigned key value m
  | SetDouble key value =>
      match m !! key with
      | Some (Double _) => (<[key := Double value]> m, OkStatus)
      | _ => (m, key_not_found key)
      end
  end.

Definition spec_calls (os : list set_call) (m : table) : table := fold_left (fun m o => fst (spec_call o m)) os m.

Definition spec_getString (key : str) (m : table) : StatusOr str :=
  match m !! key with Some (Text s) => Value s | _ => Error (key_not_found key) end.

Definition spec_getUnsignedInt (key : str) (m : table) : StatusOr Z :=
  match m !! key with Some (Port v) | Some (Count v) => Value v | _ => Error (key_not_found key) end.

Definition spec_getDouble (key : str) (m : table) : StatusOr Z :=
  match m !! key with
  | Some (Double v) => Value v
  | _ => Error (NotFoundError ("Key " ++ key ++ " (double) not found."))
  end.

(** The table a configuration stands for: every member but the address of the
    metadata service, under its key. An unset hostname is the empty text. *)
Definition setting_list (c : GEDSConfig) : list (str * setting) :=
  [("listen_address" : str, Text (listenAddress c));
   ("hostname" : str, Text (default [] (cf_hostname c)));
   ("local_storage_path" : str, Text (localStoragePath c));
   ("port" : str, Port (cf_port c));
   ("http_server_port" : str, Port (portHttpServer c));
   ("cache_block_size" : str, Count (cacheBlockSize c));
   ("io_thread_pool_size" : str, Count (io_thread_pool_size c));
   ("available_local_storage" : str, Count (available_local_storage c));
   ("available_local_memory" : str, Count (available_local_memory c));
   ("pub_sub_enabled" : str, Switch (pubSubEnabled c));
   ("cache_objects_from_s3" : str, Switch (cache_objects_from_s3 c));
   ("force_relocation_when_stopping" : str, Switch (force_relocation_when_stopping c));
   ("storage_spilling_fraction" : str, Double (storage_spilling_fraction c))].

Definition settings (c : GEDSConfig) : table := list_to_map (setting_list c).

Definition setting_names : list str := (setting_list (newConfig 1 [])).*1.

(** ** Lemmas *)

Lemma newConfig_wf cpus address : 0 <= cpus < 2 ^ 32 -> config_wf (newConfig cpus address).
Proof.
  intros Hc. assert (0 <= cpus / 2 < 2 ^ 32) by (split; [apply Z.div_pos; lia|apply Z.div_lt_upper_bound; lia]).
  assert (E : (100 * 1024 * 1024 * 1024 <=? 4 * 1024 * 1024 * 1024) = false) by done.
  unfold newConfig. rewrite E. constructor; cbn [cf_hostname cf_port portHttpServer cacheBlockSize io_thread_pool_size
    available_local_storage available_local_memory storage_spilling_fraction];
    unfold is_u64, two64, INT16_MAX, GEDSPort, PrometheusPort, double_0_7; done || lia.
Qed.

Lemma u16_port v : 0 < v <= INT16_MAX -> u16 v = v.
Proof. intros Hv. apply Z.mod_small. unfold INT16_MAX in Hv. lia. Qed.

Lemma i64_u64 v : - 2 ^ 63 <= v < 2 ^ 63 -> i64 (u64 v) = v.
Proof.
  intros Hv. unfold i64. rewrite u64_idem. unfold u64, two64.
  destruct (Z.le_gt_cases 0 v).
  - rewrite Z.mod_small by lia. by rewrite (proj2 (Z.ltb_lt _ _)) by lia.
  - assert (v mod 2 ^ 64 = v + 2 ^ 64) as -> by (symmetry; apply (Z.mod_unique_pos _ _ (-1)); lia).
    rewrite (proj2 (Z.ltb_ge _ _)) by lia. lia.
Qed.

(** Looking a key up in a list of settings. *)
Fixpoint setting_of (k : str) (l : list (str * setting)) : option setting :=
  match l with
  | [] => None
  | (x, v) :: l => if key_is k x then Some v else setting_of k l
  end.

Lemma settings_lookup c k : settings c !! k = setting_of k (setting_list c).
Proof.
  unfold settings. induction (setting_list c) as [|[x v] l IH]; [done|]. cbn [list_to_map foldr uncurry fst snd setting_of].
  unfold key_is. rewrite lookup_insert, IH. case_decide; case_bool_decide; congruence.
Qed.

Lemma insert_lookup (k : str) (v : setting) (m : table) (k' : str) : <[k := v]> m !! k' = if key_is k' k then Some v else m !! k'.
Proof. unfold key_is. rewrite lookup_insert. case_decide; case_bool_decide; congruence. Qed.

Lemma key_is_other k s : k ∉ setting_names -> bool_decide (s ∈ setting_names) = true -> key_is k s = false.
Proof. intros Hk Hs. apply bool_decide_eq_false. intros ->. by apply bool_decide_eq_true in Hs. Qed.

(** Compares literal keys. *)
Ltac eval_keys :=
  repeat match goal with
  | |- context [key_is ?a ?b] =>
      let r := eval vm_compute in (key_is a b) in
      match r with true => change (key_is a b) with true | false => change (key_is a b) with false end
  end; cbn [andb].

(** Splits on whether a key is one of the settings, and which. *)
Ltac which_key k :=
  let Hk := fresh "Hk" in
  rewrite ?settings_lookup; cbn [setting_of setting_list];
  destruct (decide (k ∈ setting_names)) as [Hk|Hk];
  [repeat (apply elem_of_cons in Hk as [->|Hk]); [..|by apply not_elem_of_nil in Hk]; eval_keys
  |repeat match goal with
   | |- context [key_is k ?s] => rewrite (key_is_other k s Hk eq_refl)
   end; cbn [andb]].

(** A call changes the table as specified, and nothing else. *)
Definition call_refines (o : set_call) (c : GEDSConfig) : Prop :=
  let '(c', st) := call o c in
  spec_call o (settings c) = (settings c', st) /\ metadataServiceAddress c' = metadataServiceAddress c /\
  (config_wf c -> config_wf c').

(** An assignment to a member replaces the entry of its key. *)
Lemma settings_set key v c c' :
  (forall k, setting_of k (setting_list c') = if key_is k key then Some v else setting_of k (setting_list c)) ->
  settings c' = <[key := v]> (settings c).
Proof. intros Hs. apply map_eq. intros k. by rewrite insert_lookup, !settings_lookup. Qed.

Ltac member := apply settings_set; let k := fresh in intros k; which_key k; reflexivity.

Lemma settings_listen v c : settings (set_listen v c) = <[("listen_address" : str) := Text v]> (settings c).
Proof. member. Qed.
Lemma settings_path v c : settings (set_path v c) = <[("local_storage_path" : str) := Text v]> (settings c).
Proof. member. Qed.
Lemma settings_port v c : settings (set_port v c) = <[("port" : str) := Port v]> (settings c).
Proof. member. Qed.
Lemma settings_http v c : settings (set_http v c) = <[("http_server_port" : str) := Port v]> (settings c).
Proof. member. Qed.
Lemma settings_block v c : settings (set_block v c) = <[("cache_block_size" : str) := Count v]> (settings c).
Proof. member. Qed.
Lemma settings_threads v c : settings (set_threads v c) = <[("io_thread_pool_size" : str) := Count v]> (settings c).
Proof. member. Qed.
Lemma settings_storage v c : settings (set_storage v c) = <[("available_local_storage" : str) := Count v]> (settings c).
Proof. member. Qed.
Lemma settings_memory v c : settings (set_memory v c) = <[("available_local_memory" : str) := Count v]> (settings c).
Proof. member. Qed.
Lemma settings_pubsub v c : settings (set_pubsub v c) = <[("pub_sub_enabled" : str) := Switch v]> (settings c).
Proof. member. Qed.
Lemma settings_cache_s3 v c : settings (set_cache_s3 v c) = <[("cache_objects_from_s3" : str) := Switch v]> (settings c).
Proof. member. Qed.
Lemma settings_force v c : settings (set_force v c) = <[("force_relocation_when_stopping" : str) := Switch v]> (settings c).
Proof. member. Qed.
Lemma settings_fraction v c : settings (set_fraction v c) = <[("storage_spilling_fraction" : str) := Double v]> (settings c).
Proof. member. Qed.
Lemma settings_hostname v c :
  settings (set_hostname (if bool_decide (v = []) then None else Some v) c) = <[("hostname" : str) := Text v]> (settings c).
Proof. case_bool_decide; [subst v|]; member. Qed.

(** The getters and the setters of each type. *)
Lemma getString_spec k c : getString k c = spec_getString k (settings c).
Proof. unfold getString, spec_getString. which_key k; reflexivity. Qed.

Lemma getUnsignedInt_spec k c : getUnsignedInt k c = spec_getUnsignedInt k (settings c).
Proof. unfold getUnsignedInt, spec_getUnsignedInt. which_key k; reflexivity. Qed.

Lemma getDouble_spec k c : getDouble k c = spec_getDouble k (settings c).
Proof. unfold getDouble, spec_getDouble. which_key k; reflexivity. Qed.

Lemma set_string_refines k v c : call_refines (SetString k v) c.
Proof.
  unfold call_refines, call, set_string, spec_call. which_key k; try done.
  - by rewrite settings_listen; split_and!; [| |intros []].
  - rewrite settings_hostname. split_and!; [done..|]. intros []. constructor; try done.
    cbn [set_hostname cf_hostname]. case_bool_decide; congruence.
  - by rewrite settings_path; split_and!; [| |intros []].
  - unfold key_is. case_bool_decide; [rewrite bool_decide_true by done|rewrite bool_decide_false by naive_solver; done].
    rewrite settings_pubsub; split_and!; [done..|by intros []].
Qed.

Lemma set_unsigned_refines k v c :
  is_u64 v ->
  let '(c', st) := set_unsigned k v c in
  spec_unsigned k v (settings c) = (settings c', st) /\ metadataServiceAddress c' = metadataServiceAddress c /\
  (config_wf c -> config_wf c').
Proof.
  intros Hv. unfold set_unsigned, spec_unsigned. unfold is_u64 in Hv.
  destruct (Z.eqb_spec v 0); [done|]. assert ((negb (v =? 0)) = true) as Hb by (by apply negb_true_iff, Z.eqb_neq).
  which_key k; try done; try destruct (Z.ltb_spec INT16_MAX v); try done;
    rewrite ?u16_port, ?settings_port, ?settings_http, ?settings_block, ?settings_threads, ?settings_storage,
      ?settings_memory, ?settings_pubsub, ?settings_cache_s3, ?settings_force by lia;
    (split_and!; [done..|]); (intros []; constructor; cbn; try done; lia).
Qed.

Lemma set_signed_refines k v c : - 2 ^ 63 <= v < 2 ^ 63 -> call_refines (SetSigned k v) c.
Proof.
  intros Hv. unfold call_refines, call, set_signed, spec_call. destruct (Z.ltb_spec v 0); [done|].
  rewrite u64_small by (unfold is_u64, two64; lia). apply set_unsigned_refines. unfold is_u64, two64. lia.
Qed.

Lemma set_double_refines k v c : is_u64 v -> call_refines (SetDouble k v) c.
Proof.
  intros Hv. unfold call_refines, call, set_double, spec_call. which_key k; try done.
  rewrite settings_fraction. by split_and!; [| |intros []].
Qed.

Lemma call_refines_all o c : call_typed o -> call_refines o c.
Proof.
  destruct o; [intros _; apply set_string_refines|apply set_unsigned_refines|apply set_signed_refines|apply set_double_refines].
Qed.

Lemma calls_refine os c :
  Forall call_typed os -> config_wf c ->
  config_wf (calls os c) /\ settings (calls os c) = spec_calls os (settings c) /\
  metadataServiceAddress (calls os c) = metadataServiceAddress c.
Proof.
  intros Hos. revert c. induction Hos as [|o os Ho _ IH]; intros c Hw; [done|]. cbn [calls spec_calls fold_left].
  pose proof (call_refines_all o c Ho) as Hr. unfold call_refines in Hr. destruct (call o c) as [c' st]. cbn [fst].
  destruct Hr as (-> & <- & Hw'). by apply IH, Hw'.
Qed.

(** The table and the address are all there is in a configuration. *)
Lemma settings_inj c c' :
  config_wf c -> config_wf c' -> metadataServiceAddress c = metadataServiceAddress c' ->
  settings c = settings c' -> c = c'.
Proof.
  intros [Hh _ _ _ _ _ _ _] [Hh' _ _ _ _ _ _ _] Ha Hs.
  assert (Hk : forall k, setting_of k (setting_list c) = setting_of k (setting_list c')).
  { intros k. by rewrite <- !settings_lookup, Hs. }
  assert (cf_hostname c = cf_hostname c') as Hn.
  { generalize (Hk ("hostname" : str)). cbn [setting_of setting_list]. eval_keys. intros [= E].
    destruct (cf_hostname c), (cf_hostname c'); cbn in E; congruence. }
  destruct c, c'. cbn [cf_hostname metadataServiceAddress] in Hn, Ha. clear Hs Hh Hh'. subst.
  let at_key s := generalize (Hk s); cbn [setting_of setting_list]; eval_keys; intros [= ->] in
  at_key ("listen_address" : str); at_key ("local_storage_path" : str);
  at_key ("port" : str); at_key ("http_server_port" : str); at_key ("cache_block_size" : str);
  at_key ("io_thread_pool_size" : str); at_key ("available_local_storage" : str);
  at_key ("available_local_memory" : str); at_key ("pub_sub_enabled" : str);
  at_key ("cache_objects_from_s3" : str); at_key ("force_relocation_when_stopping" : str);
  at_key ("storage_spilling_fraction" : str).
  reflexivity.
Qed.

(** No call turns a switch off. *)
Lemma spec_call_on o m k :
  m !! k = Some (Switch true) -> call_typed o -> fst (spec_call o m) !! k = Some (Switch true).
Proof.
  intros Hk _. destruct (decide (call_key o = k)) as [<-|Hne].
  - destruct o as [k v|k v|k v|k v]; cbn [call_key spec_call] in *; unfold spec_unsigned; rewrite ?Hk;
      repeat case_match; cbn [fst]; by rewrite ?lookup_insert_eq.
  - destruct o as [k' v|k' v|k' v|k' v]; cbn [call_key spec_call] in *; unfold spec_unsigned;
      repeat case_match; cbn [fst]; by rewrite ?lookup_insert_ne.
Qed.

(** ** Properties *)

(** C39: a configuration is a table of typed settings. After any sequence of
    calls of the setters, with arguments of their types, ports are between 1 and
    32767, sizes and numbers of threads are positive 64-bit numbers, and no
    assignment has lost bits. Each call, the next one included, changes the entry of
    its key as the table does and returns its status: a value of the right type
    replaces the entry, a refused one changes nothing, and no other key is
    affected; each getter returns the table's entry of its type. The table, which has
    an entry for every member, and the address given to the constructor
    determine the configuration. The switches can be turned on but not off. *)
Theorem config_settings cpus address os :
  0 <= cpus < 2 ^ 32 -> Forall call_typed os ->
  let c := calls os (newConfig cpus address) in
  config_wf c /\ metadataServiceAddress c = address /\
  settings c = spec_calls os (settings (newConfig cpus address)) /\
  (forall o, call_typed o -> let '(c', st) := call o c in
     spec_call o (settings c) = (settings c', st) /\ metadataServiceAddress c' = address) /\
  (forall k, getString k c = spec_getString k (settings c) /\
     getUnsignedInt k c = spec_getUnsignedInt k (settings c) /\
     getSignedInt k c = match spec_getUnsignedInt k (settings c) with Value v => Value (i64 v) | Error st => Error st end /\
     getDouble k c = spec_getDouble k (settings c)) /\
  (forall c', config_wf c' -> metadataServiceAddress c' = address -> settings c' = settings c -> c' = c) /\
  (forall k os', settings c !! k = Some (Switch true) -> Forall call_typed os' ->
     settings (calls os' c) !! k = Some (Switch true)).
Proof.
  intros Hc Hos c. destruct (calls_refine os _ Hos (newConfig_wf cpus address Hc)) as (Hw & Hs & Ha). fold c in Hw, Hs, Ha.
  split; [done|]. split; [done|]. split; [done|]. split_and!.
  - intros o Ho. pose proof (call_refines_all o c Ho) as Hr. unfold call_refines in Hr. destruct (call o c) as [c' st].
    destruct Hr as (-> & -> & _). done.
  - intros k. unfold getSignedInt. by rewrite getString_spec, getUnsignedInt_spec, getDouble_spec.
  - intros c' Hw' Ha' Hs'. apply settings_inj; [done|done|by rewrite Ha', Ha|done].
  - intros k os' Hk Hos'. destruct (calls_refine os' c Hos' Hw) as (_ & -> & _). revert Hk. generalize (settings c).
    induction Hos' as [|o os' Ho _ IH]; intros m Hk; [done|]. cbn [spec_calls fold_left]. by apply IH, spec_call_on.
Qed.

Lemma config_settings_witness :
  let c := calls [SetUnsigned "port" 40000; SetSigned "cache_block_size" 4096; SetUnsigned "pub_sub_enabled" 1;
                  SetUnsigned "pub_sub_enabled" 0; SetString "hostname" ""] (newConfig 4 "mds:4381") in
  config_wf c /\ cf_port c = 4382 /\ getSignedInt "cache_block_size" c = Value 4096 /\ pubSubEnabled c = true /\
  (let '(c', st) := call (SetUnsigned "cache_objects_from_s3" 1) c in
   settings c' = <[("cache_objects_from_s3" : str) := Switch true]> (settings c) /\ st = OkStatus).
Proof.
  destruct (config_settings 4 "mds:4381"
    [SetUnsigned "port" 40000; SetSigned "cache_block_size" 4096; SetUnsigned "pub_sub_enabled" 1;
     SetUnsigned "pub_sub_enabled" 0; SetString "hostname" ""]) as (Hw & _ & _ & Hn & _); [lia| |].
  - repeat constructor; unfold is_u64, two64; lia.
  - split; [exact Hw|]. split; [reflexivity|]. split; [reflexivity|]. split; [reflexivity|].
    specialize (Hn (SetUnsigned "cache_objects_from_s3" 1) ltac:(unfold call_typed, is_u64, two64; lia)).
    destruct (call _ _) as [c' st]. destruct Hn as [Hn _]. unfold spec_call, spec_unsigned in Hn.
    rewrite settings_lookup in Hn. cbn [Z.eqb setting_of setting_list] in Hn.
    apply pair_eq in Hn as [Hm Hst]. exact (conj (eq_sym Hm) (eq_sym Hst)).
Defined.
