(* ===== verification/Statistics.v ===== *)
(** * Statistics

    src/src/statistics/: counters, gauges and histograms, the registry that
    creates one item for each label, and their texts for Prometheus and for the
    console. The buckets of histograms are a compile-time option. *)

From Stdlib Require Import Ascii ZArith Lia.
From stdpp Require Import base sets list strings numbers.
From S2P Require Import Prelude Decimal StdMap ConcurrentMap.

Open Scope Z_scope.
Open Scope list_scope.

(** ** Items *)

Definition replace_char (a b : ascii) (s : str) : str := map (fun c => if bool_decide (c = a) then b else c) s.

Definition lower_char (c : ascii) : ascii :=
  let n := N_of_ascii c in if (65 <=? n)%N && (n <=? 90)%N then ascii_of_N (n + 32) else c.

Definition createPrometheusLabel (label : str) : str :=
  map lower_char (replace_char " " "_" (replace_char ":" "_" label)).

Record StatisticsCounter := mkCounter { sc_label : str; sc_count : Z }.
Record StatisticsGauge := mkGauge { sg_label : str; sg_value : Z }.

(** A histogram keeps a reference to its buckets. *)
Record StatisticsHistogram := mkHistogram {
  sh_label : str;
  sh_sum : Z;
  sh_totalCount : Z;
  sh_count : list Z;
  sh_buckets : list Z
}.

Definition newStatisticsCounter (label : str) : StatisticsCounter := mkCounter label 0.
Definition counter_add (value : Z) (c : StatisticsCounter) : StatisticsCounter :=
  mkCounter (sc_label c) (u64 (sc_count c + value)).

(** The value of a gauge is signed; the operands are not. *)
Definition newGauge (label : str) : StatisticsGauge := mkGauge label 0.
Definition gauge_set (v : Z) (g : StatisticsGauge) : StatisticsGauge := mkGauge (sg_label g) (i64 v).
Definition gauge_add (v : Z) (g : StatisticsGauge) : StatisticsGauge := mkGauge (sg_label g) (i64 (sg_value g + v)).
Definition gauge_sub (v : Z) (g : StatisticsGauge) : StatisticsGauge := mkGauge (sg_label g) (i64 (sg_value g - v)).

Definition nl : str := ["010"%char].
Definition quote : str := ["034"%char].

Section histogram.
(** [HAVE_PROMETHEUS_HISTOGRAM_BUCKETS] *)
Context (have_buckets : bool).

Definition newHistogram (label : str) (buckets : list Z) : StatisticsHistogram :=
  if have_buckets then mkHistogram label 0 0 (map (fun _ => 0) buckets) buckets else mkHistogram label 0 0 [] [].

(** The loop of [operator+=]. *)
Fixpoint count_value (value : Z) (buckets count : list Z) : list Z :=
  match buckets, count with
  | b :: buckets, c :: count => (if b <? value then c else u64 (c + 1)) :: count_value value buckets count
  | _, _ => count
  end.

Definition histogram_add (value : Z) (h : StatisticsHistogram) : StatisticsHistogram :=
  mkHistogram (sh_label h) (u64 (sh_sum h + value)) (u64 (sh_totalCount h + 1))
    (if have_buckets then count_value value (sh_buckets h) (sh_count h) else sh_count h) (sh_buckets h).

Definition counter_prometheus (c : StatisticsCounter) : str :=
  let l := createPrometheusLabel (sc_label c) in
  "# TYPE " ++ l ++ " counter" ++ nl ++ l ++ " " ++ to_string (sc_count c) ++ nl.

Definition gauge_prometheus (g : StatisticsGauge) : str :=
  let l := createPrometheusLabel (sg_label g) in
  "# TYPE " ++ l ++ " gauge" ++ nl ++ l ++ " " ++ to_string_signed (sg_value g) ++ nl.

Fixpoint bucket_lines (l : str) (buckets count : list Z) : str :=
  match buckets, count with
  | b :: buckets, c :: count =>
      l ++ "_bucket{le=" ++ quote ++ to_string b ++ quote ++ "} " ++ to_string c ++ nl ++ bucket_lines l buckets count
  | _, _ => []
  end.

Definition histogram_prometheus (h : StatisticsHistogram) : str :=
  let l := createPrometheusLabel (sh_label h) in
  "# TYPE " ++ l ++ " histogram" ++ nl ++
  (if have_buckets
   then bucket_lines l (sh_buckets h) (sh_count h) ++
        l ++ "_bucket{le=" ++ quote ++ "+Inf" ++ quote ++ "} " ++ to_string (sh_totalCount h) ++ nl
   else []) ++
  l ++ "_sum " ++ to_string (sh_sum h) ++ nl ++ l ++ "_count " ++ to_string (sh_totalCount h) ++ nl.

Definition counter_console (c : StatisticsCounter) : str := sc_label c ++ ", " ++ to_string (sc_count c) ++ nl.
Definition gauge_console (g : StatisticsGauge) : str := sg_label g ++ ", " ++ to_string_signed (sg_value g) ++ nl.

Fixpoint bucket_items (buckets count : list Z) : str :=
  match buckets, count with
  | b :: buckets, c :: count =>
      " {le=" ++ to_string b ++ "} " ++ to_string c ++ ", " ++ bucket_items buckets count
  | _, _ => []
  end.

Definition histogram_console (h : StatisticsHistogram) : str :=
  sh_label h ++ ", " ++ to_string (sh_totalCount h) ++ ", sum " ++ to_string (sh_sum h) ++
  (if have_buckets
   then ", " ++ bucket_items (sh_buckets h) (sh_count h) ++ " {le=+Inf} " ++ to_string (sh_totalCount h) ++ nl
   else nl).

(** ** The registry *)

(** An item is referred to by its label, under which it stays registered. *)
Record Statistics := mkStatistics {
  st_counters : smap str StatisticsCounter;
  st_gauges : smap str StatisticsGauge;
  st_histograms : smap str StatisticsHistogram
}.

Definition newStatistics : Statistics := mkStatistics [] [] [].

(** [createCounter] and its siblings: [others] is what other threads do between the
    lookup and the insertion. *)
Definition create_in {V} (label : str) (item : V) (others : smap str V -> smap str V) (m : smap str V) : smap str V * V :=
  match cm_get label m with
  | Some v => (m, v)
  | None => insertOrExists label item (others m)
  end.

Definition createCounter label others (s : Statistics) : Statistics * StatisticsCounter :=
  let '(m, c) := create_in label (newStatisticsCounter label) others (st_counters s) in
  (mkStatistics m (st_gauges s) (st_histograms s), c).

Definition createGauge label others (s : Statistics) : Statistics * StatisticsGauge :=
  let '(m, g) := create_in label (newGauge label) others (st_gauges s) in
  (mkStatistics (st_counters s) m (st_histograms s), g).

Definition createHistogram label buckets others (s : Statistics) : Statistics * StatisticsHistogram :=
  let '(m, h) := create_in label (newHistogram label buckets) others (st_histograms s) in
  (mkStatistics (st_counters s) (st_gauges s) m, h).

Definition io_buckets : list Z := map (fun i => 2 ^ (Z.of_nat i + 6)) (seq 0 24).
Definition createIOHistogram label := createHistogram label io_buckets.

Definition ONE_MIN : Z := 60000000000.
Definition NANOSECOND_HISTOGRAM : list Z :=
  [1; 10; 100; 1000; 10000; 100000; 1000000; 10000000; 100000000; 1000000000; 10000000000;
   ONE_MIN * 1; ONE_MIN * 10; ONE_MIN * 60].
Definition createNanoSecondHistogram label := createHistogram label NANOSECOND_HISTOGRAM.

(** [prometheusMetrics]: all items, in the order of their labels. *)
Definition prometheusMetrics (s : Statistics) : str :=
  let t := cm_forall (fun c t => t ++ counter_prometheus c) (st_counters s) [] in
  let t := cm_forall (fun g t => t ++ gauge_prometheus g) (st_gauges s) t in
  cm_forall (fun h t => t ++ histogram_prometheus h) (st_histograms s) t.

(** [printStatistics]: the message that is logged. *)
Definition printStatistics (s : Statistics) : str :=
  let t := "GEDS Statistics:" ++ nl ++ "Name, Value" ++ nl in
  let t := cm_forall (fun c t => t ++ counter_console c) (st_counters s) t in
  let t := cm_forall (fun g t => t ++ gauge_console g) (st_gauges s) t in
  cm_forall (fun h t => t ++ histogram_console h) (st_histograms s) t ++ nl.
End histogram.

(** ** Lemmas *)

Definition num_of {A} (l : list A) : Z := Z.of_nat (length l).

Lemma num_of_app {A} (l k : list A) : num_of (l ++ k) = num_of l + num_of k.
Proof. unfold num_of. rewrite length_app. lia. Qed.

Definition tally (vs : list Z) (b : Z) : Z := num_of (List.filter (fun v => v <=? b) vs).

Lemma count_value_map value buckets f :
  count_value value buckets (map (fun b => u64 (f b)) buckets) =
  map (fun b => u64 (f b + (if value <=? b then 1 else 0))) buckets.
Proof.
  induction buckets as [|b buckets IH]; [done|]. cbn [map count_value]. rewrite IH. f_equal.
  destruct (Z.ltb_spec b value), (Z.leb_spec value b); try lia; [by rewrite Z.add_0_r|by rewrite u64_add_l].
Qed.

Lemma tally_app vs v b : tally (vs ++ [v]) b = tally vs b + (if v <=? b then 1 else 0).
Proof.
  unfold tally. rewrite List.filter_app, num_of_app. cbn [List.filter]. by destruct (v <=? b).
Qed.

Lemma histogram_state bk label buckets vs :
  fold_left (fun h v => histogram_add bk v h) vs (newHistogram bk label buckets) =
  mkHistogram label (u64 (fold_right Z.add 0 vs)) (u64 (num_of vs))
    (if bk then map (fun b => u64 (tally vs b)) buckets else []) (if bk then buckets else []).
Proof.
  induction vs as [|v vs IH] using rev_ind.
  { cbn. unfold newHistogram. destruct bk; [|done]. f_equal. }
  rewrite fold_left_app, IH. cbn [fold_left]. unfold histogram_add. cbn [sh_label sh_sum sh_totalCount sh_count sh_buckets].
  rewrite !u64_add_l, num_of_app. assert (Es : fold_right Z.add 0 (vs ++ [v]) = fold_right Z.add 0 vs + v).
  { clear. induction vs as [|x vs IH]; cbn; [lia|]. rewrite IH. lia. }
  rewrite Es. change (num_of [v]) with 1. f_equal. destruct bk; [|done]. rewrite count_value_map.
  apply map_ext. intros b. by rewrite tally_app.
Qed.

(** ** Properties *)

(** A histogram holds the sum and the number of the values it was given, and for
    every bucket the number of values up to its bound, all modulo 2^64: bounds
    are inclusive and counts cumulative, as the format asks. *)
Theorem histogram_exact bk label buckets vs b i :
  let h := fold_left (fun h v => histogram_add bk v h) vs (newHistogram bk label buckets) in
  sh_sum h = u64 (fold_right Z.add 0 vs) /\ sh_totalCount h = u64 (num_of vs) /\
  (bk = true -> buckets !! i = Some b -> sh_count h !! i = Some (u64 (tally vs b))).
Proof.
  cbv zeta. rewrite histogram_state. cbn [sh_sum sh_totalCount sh_count]. split; [done|]. split; [done|].
  intros -> E. rewrite list_lookup_fmap. by rewrite E.
Qed.

(** Whatever other threads register between the lookup and the insertion, the item
    that is returned is the one that is registered, and an item that was there
    is returned. *)
Theorem create_shared {V} label (item : V) others m :
  let '(m', v) := create_in label item others m in
  cm_get label m' = Some v /\
  (forall w, cm_get label m = Some w -> v = w /\ m' = m) /\
  (forall w, cm_get label m = None -> cm_get label (others m) = Some w -> v = w).
Proof.
  unfold create_in, insertOrExists, cm_get. destruct (mfind label m) as [w|] eqn:E.
  { split; [done|]. split; [|done]. by intros ? [= <-]. }
  destruct (mfind label (others m)) as [w|] eqn:E2.
  - split; [done|]. split; [done|]. by intros ? _ [= <-].
  - split; [apply mfind_massign_eq|]. done.
Qed.

(** A gauge that is increased and decreased by the same amounts is what it was. *)
Theorem gauge_balanced v g : - 2 ^ 63 <= sg_value g < 2 ^ 63 -> gauge_sub v (gauge_add v g) = g.
Proof.
  intros Hg. destruct g as [l x]. unfold gauge_sub, gauge_add. cbn [sg_label sg_value] in *. f_equal.
  assert (E : exists k, i64 (x + v) = x + v + k * two64).
  { unfold i64, u64. pose proof (Z_div_mod_eq_full (x + v) two64) as Hd.
    destruct ((x + v) mod two64 <? 2 ^ 63); [exists (- ((x + v) / two64))|exists (- ((x + v) / two64) - 1)]; lia. }
  destruct E as [k ->]. unfold i64, u64. replace (x + v + k * two64 - v) with (x + k * two64) by lia.
  rewrite Z_mod_plus_full. unfold two64. destruct (Z.le_gt_cases 0 x).
  - rewrite Z.mod_small by lia. by rewrite (proj2 (Z.ltb_lt _ _)) by lia.
  - assert (x mod 2 ^ 64 = x + 2 ^ 64) as -> by (symmetry; apply (Z.mod_unique_pos _ _ (-1)); lia).
    rewrite (proj2 (Z.ltb_ge _ _)) by lia. lia.
Qed.
