(* ===== verification/HttpSession.v ===== *)
(** * The HTTP endpoint

    src/src/libgeds/HttpSession.cpp, HttpServer.cpp: a server that answers with the
    statistics. Parsing and printing of messages are Boost.Beast's: a request is
    its method, target and whether the connection is kept, a response its status,
    header fields and body. [HttpSession] keeps one response object, whose body
    the replies are appended to and which the library writes without changing it. *)

From Stdlib Require Import Ascii ZArith Lia.
From stdpp Require Import base sets list strings numbers.
From S2P Require Import Prelude Bytes Decimal Status StdMap Statistics.

Open Scope Z_scope.
Open Scope list_scope.

(** ** Sessions *)

Record HttpRequest := mkHttpRequest {
  rq_method : str;
  rq_target : str;
  rq_keep_alive : bool
}.

Record HttpResponse := mkHttpResponse {
  rs_status : Z;
  rs_server : str;
  rs_content_type : str;
  rs_keep_alive : bool;
  rs_content_length : Z;
  rs_body : str
}.

(** The session: the response object, what was written to the connection, and
    whether it waits for another request. *)
Record HttpSession := mkHttpSession {
  hs_response : HttpResponse;
  hs_written : list HttpResponse;
  hs_waiting : bool
}.

Definition newHttpSession : HttpSession := mkHttpSession (mkHttpResponse 200 [] [] true 0 []) [] true.

Section session.
(** [BOOST_BEAST_VERSION_STRING] *)
Context (version : str).

(** [handleWrite]: the length of the body is set and the response written. *)
Definition http_handleWrite (rq : HttpRequest) (rs : HttpResponse) (s : HttpSession) : HttpSession :=
  let rs := mkHttpResponse (rs_status rs) (rs_server rs) (rs_content_type rs) (rs_keep_alive rs) (len (rs_body rs)) (rs_body rs) in
  mkHttpSession rs (hs_written s ++ [rs]) (rq_keep_alive rq).

(** What the three kinds of replies do. *)
Definition reply (status : Z) (content_type text : str) (rq : HttpRequest) (s : HttpSession) : HttpSession :=
  let rs := hs_response s in
  http_handleWrite rq
    (mkHttpResponse status version content_type (rq_keep_alive rq) (rs_content_length rs) (rs_body rs ++ text)) s.

Definition html_page : str :=
  "<!DOCTYPE html>" ++ "<html><head>" ++ "<title>GEDS Service</title>" ++ "</head>" ++ "<body>" ++ "<pre>" ++
  "GEDS Service" ++ "</pre>" ++ "</body></html>" ++ nl.

Definition prepareHtmlReply : HttpRequest -> HttpSession -> HttpSession := reply 200 "text/html" html_page.
Definition prepareMetricsReply (have_buckets : bool) (stats : Statistics) : HttpRequest -> HttpSession -> HttpSession :=
  reply 200 "plain/text" (prometheusMetrics have_buckets stats).
Definition prepareError (status : Z) (message : str) : HttpRequest -> HttpSession -> HttpSession :=
  reply status "text/html" message.

(** [handleRequest] *)
Definition handleRequest (have_buckets : bool) (stats : Statistics) (rq : HttpRequest) (s : HttpSession) : HttpSession :=
  if negb (bool_decide (rq_method rq = "GET")) then prepareError 400 "Invalid method." rq s
  else if bool_decide (rq_target rq = []) || negb (bool_decide (list.head (rq_target rq) = Some "/"%char))
  then prepareError 400 "Invalid path." rq s
  else if bool_decide (rq_target rq = "/") then prepareHtmlReply rq s
  else if bool_decide (rq_target rq = "/metrics") then prepareMetricsReply have_buckets stats rq s
  else prepareError 404 "Invalid path" rq s.

(** [awaitRequest], as long as the connection is kept: the requests, each with the
    statistics of its time. *)
Fixpoint session_run (have_buckets : bool) (rqs : list (HttpRequest * Statistics)) (s : HttpSession) : HttpSession :=
  match rqs with
  | [] => s
  | (rq, stats) :: rqs => if hs_waiting s then session_run have_buckets rqs (handleRequest have_buckets stats rq s) else s
  end.

(** ** Lemmas *)

(** The status, type and text a request asks for. *)
Definition wanted (have_buckets : bool) (r : HttpRequest * Statistics) : Z * str * str :=
  let rq := fst r in
  if negb (bool_decide (rq_method rq = "GET")) then (400, "text/html" : str, "Invalid method." : str)
  else if bool_decide (rq_target rq = []) || negb (bool_decide (list.head (rq_target rq) = Some "/"%char))
  then (400, "text/html" : str, "Invalid path." : str)
  else if bool_decide (rq_target rq = "/") then (200, "text/html" : str, html_page)
  else if bool_decide (rq_target rq = "/metrics") then (200, "plain/text" : str, prometheusMetrics have_buckets (snd r))
  else (404, "text/html" : str, "Invalid path" : str).

Lemma handleRequest_reply hb r s :
  handleRequest hb (snd r) (fst r) s =
    reply (fst (fst (wanted hb r))) (snd (fst (wanted hb r))) (snd (wanted hb r)) (fst r) s.
Proof.
  unfold handleRequest, wanted.
  repeat match goal with |- context [if ?b then _ else _] => destruct b end; done.
Qed.

(** The responses to requests, after the body [old]. *)
Fixpoint responses (hb : bool) (old : str) (rqs : list (HttpRequest * Statistics)) : list HttpResponse :=
  match rqs with
  | [] => []
  | r :: rqs =>
      let body := old ++ snd (wanted hb r) in
      mkHttpResponse (fst (fst (wanted hb r))) version (snd (fst (wanted hb r))) (rq_keep_alive (fst r)) (len body) body ::
      (if rq_keep_alive (fst r) then responses hb body rqs else [])
  end.

Lemma session_run_written hb rqs s :
  hs_waiting s = true -> hs_written (session_run hb rqs s) = hs_written s ++ responses hb (rs_body (hs_response s)) rqs.
Proof.
  revert s. induction rqs as [|[rq stats] rqs IH]; intros s Hw; cbn [session_run responses]; [by rewrite app_nil_r|].
  rewrite Hw. pose proof (handleRequest_reply hb (rq, stats) s) as E. cbn [fst snd] in E. rewrite E.
  cbn [fst]. destruct (rq_keep_alive rq) eqn:Ek.
  - rewrite IH by (cbn; done). unfold reply, http_handleWrite.
    cbn [hs_written hs_response rs_body rs_status rs_server rs_content_type rs_keep_alive rs_content_length].
    rewrite <- app_assoc. by rewrite Ek.
  - unfold reply, http_handleWrite at 1. rewrite Ek. destruct rqs as [|[] ?]; reflexivity.
Qed.

Lemma responses_kept hb old rqs :
  Forall (fun r => rq_keep_alive (fst r) = true) rqs ->
  forall i r, rqs !! i = Some r ->
  responses hb old rqs !! i = Some
    (let body := old ++ concat (map (fun r => snd (wanted hb r)) (take (S i) rqs)) in
     mkHttpResponse (fst (fst (wanted hb r))) version (snd (fst (wanted hb r))) true (len body) body).
Proof.
  intros Hk. revert old. induction Hk as [|r rqs Hr Hk IH]; intros old i r' E; [done|].
  cbn [responses]. rewrite Hr. destruct i as [|i]; cbn [lookup list_lookup] in *.
  - injection E as <-. cbn [take map concat]. by rewrite take_0, app_nil_r.
  - rewrite (IH _ i r' E). cbn [take map concat]. by rewrite <- app_assoc.
Qed.
End session.

(** ** Properties *)

(** What a client of a kept connection gets. The response to the i-th request
    has the status and content type that the request asks for (400 for other
    methods than GET and for targets that are no paths, 404 for unknown paths)
    and a matching content length; but its body is the texts of all replies so
    far, one after the other, because the response object keeps its body: only
    the first response of a connection is what was asked for, every further one
    is longer. *)
Theorem session_responses version hb rqs i r :
  Forall (fun r => rq_keep_alive (fst r) = true) rqs -> rqs !! i = Some r ->
  let s := session_run version hb rqs newHttpSession in
  hs_waiting s = true /\ length (hs_written s) = length rqs /\
  exists rs, hs_written s !! i = Some rs /\
    (rs_status rs, rs_content_type rs) = fst (wanted hb r) /\ rs_content_length rs = len (rs_body rs) /\
    rs_body rs = concat (map (fun r => snd (wanted hb r)) (take i rqs)) ++ snd (wanted hb r) /\
    (rs_body rs = snd (wanted hb r) <-> i = 0%nat \/ concat (map (fun r => snd (wanted hb r)) (take i rqs)) = []).
Proof.
  intros Hk E s. split; [|split].
  - unfold s. clear E s i r. assert (Hw : hs_waiting newHttpSession = true) by done. revert Hw. generalize newHttpSession.
    induction Hk as [|[rq st] rqs Hr Hk IH]; intros s Hw; [done|]. cbn [session_run]. rewrite Hw. apply IH.
    pose proof (handleRequest_reply version hb (rq, st) s) as E. cbn [fst snd] in E, Hr. rewrite E. exact Hr.
  - unfold s. rewrite (session_run_written version hb rqs newHttpSession) by done. cbn [newHttpSession hs_written app].
    clear E s i r. generalize (rs_body (hs_response newHttpSession)).
    induction Hk as [|r rqs Hr Hk IH]; intros old; [done|]. cbn [responses length]. by rewrite Hr, IH.
  - unfold s. rewrite (session_run_written version hb rqs newHttpSession) by done. cbn [newHttpSession hs_written app].
    rewrite (responses_kept version hb _ rqs Hk i r E). eexists. split; [reflexivity|]. cbn [rs_status rs_content_type rs_content_length rs_body hs_response app].
    assert (Hb : concat (map (fun r => snd (wanted hb r)) (take (S i) rqs)) =
                 concat (map (fun r => snd (wanted hb r)) (take i rqs)) ++ snd (wanted hb r)).
    { rewrite (take_S_r _ _ _ E), map_app, concat_app. cbn. by rewrite app_nil_r. }
    rewrite Hb. split; [by destruct (fst (wanted hb r))|]. split; [done|]. split; [done|]. split.
    + intros H. right. apply (app_inv_tail (snd (wanted hb r)) _ []). exact H.
    + intros [-> | ->]; [by rewrite take_0|done].
Qed.

Lemma session_responses_witness :
  exists rs, hs_written (session_run "v" false [(mkHttpRequest "GET" "/x" true, newStatistics);
                                                (mkHttpRequest "POST" "/" true, newStatistics)] newHttpSession) !! 1%nat = Some rs /\
    rs_status rs = 400 /\ rs_body rs = "Invalid pathInvalid method.".
Proof.
  destruct (session_responses "v" false [(mkHttpRequest "GET" "/x" true, newStatistics); (mkHttpRequest "POST" "/" true, newStatistics)]
              1%nat (mkHttpRequest "POST" "/" true, newStatistics)) as (_ & _ & rs & E & Hs & _ & Hb & _);
    [repeat constructor|reflexivity|].
  exists rs. split; [exact E|]. split; [injection Hs as -> _; reflexivity|]. rewrite Hb. reflexivity.
Defined.

(** ** The server *)

(** [HttpServer]: whether there is an acceptor, and whether its thread runs. *)
Record HttpServer := mkHttpServer { ht_port : Z; ht_acceptor : bool; ht_serving : bool }.

Definition newHttpServer (port : Z) : HttpServer := mkHttpServer port false false.

(** [start]: [bind] is the result of opening the port, a diagnostic if it fails. *)
Definition http_start (bind : option str) (h : HttpServer) : HttpServer * Status :=
  if ht_acceptor h then (h, UnknownError "The server is already running!")
  else match bind with
       | Some diag => (h, InternalError ("Unable to start webserver: " ++ diag))
       | None => (mkHttpServer (ht_port h) true true, OkStatus)
       end.

(** [stop]: [None] when the null pointer is used. The acceptor stays. *)
Definition http_stop (h : HttpServer) : option HttpServer :=
  if ht_acceptor h then Some (mkHttpServer (ht_port h) true false) else None.

(** A server that could not be started cannot be stopped, and one that was stopped
    cannot be started again. *)
Theorem http_server_once bind diag port :
  http_stop (fst (http_start (Some diag) (newHttpServer port))) = None /\
  forall h, http_stop (fst (http_start None (newHttpServer port))) = Some h ->
    http_start bind h = (h, UnknownError "The server is already running!") /\ ht_serving h = false.
Proof. split; [done|]. by intros h [= <-]. Qed.
