(* ===== verification/AbstractHandle.v ===== *)
(** * The handle of a local file, for every file class

    The template [GEDSAbstractFileHandle<T>] (src/src/libgeds/GEDSAbstractFileHandle.h)
    over an interface for the file class [T], with [LocalFile] and [MMAPFile] as
    its two instances (GEDSLocalFileHandle.h, GEDSMMapFileHandle.h): what a file
    class promises, and that a handle over it behaves like an array of bytes with
    counters. Handles.v has the handle over [LocalFile] inside a process. *)

From Stdlib Require Import Ascii ZArith Lia.
From stdpp Require Import base gmap list strings numbers.
From S2P Require Import Prelude Bytes Decimal Status LocalFile MMAPFile.

Open Scope Z_scope.
Open Scope list_scope.

(** ** The interface of a file class *)

(** The members of [T] the handle uses. Reading, writing and truncating may change
    the file object; [sf_rawPtr] says whether there is a pointer to the contents,
    [sf_through] are the [size()] bytes behind it, and [sf_disk] the bytes a
    stream on [path()] reads. *)
Class StorageFile (F K : Type) := {
  sf_path : F -> str;
  sf_size : F -> Z;
  sf_localStorageSize : F -> Z;
  sf_localMemorySize : F -> Z;
  sf_readBytes : nat -> F -> Z -> Z -> K -> option (F * K * outcome (StatusOr (Z * str)));
  sf_writeBytes : nat -> F -> str -> Z -> K -> option (K * outcome (F * Status));
  sf_write : nat -> F -> list str -> Z -> option Z -> K -> option (K * outcome (F * StatusOr Z));
  sf_truncate : nat -> F -> Z -> K -> option (F * K * Status);
  sf_fsync : nat -> F -> K -> option (K * Status);
  sf_notifyUnused : F -> F;
  sf_rawFd : F -> StatusOr Z;
  sf_rawPtr : F -> K -> F * K * Status;
  sf_through : F -> outcome str;
  sf_disk : F -> str
}.

(** ** The handle *)

Record AbstractHandle (F : Type) := mkAbstract {
  ah_bucket : str;
  ah_key : str;
  ah_metadata : option str;
  ah_file : F;
  ah_isSealed : bool;
  ah_openCount : Z;
  ah_isValid : bool;
  ah_hasService : bool;               (** [_gedsService != nullptr] *)
  ah_readStatistics : Z;
  ah_writeStatistics : Z
}.
Arguments mkAbstract {F}.
Arguments ah_bucket {F}.
Arguments ah_key {F}.
Arguments ah_metadata {F}.
Arguments ah_file {F}.
Arguments ah_isSealed {F}.
Arguments ah_openCount {F}.
Arguments ah_isValid {F}.
Arguments ah_hasService {F}.
Arguments ah_readStatistics {F}.
Arguments ah_writeStatistics {F}.

Section fields.
Context {F : Type}.
Implicit Types (h : AbstractHandle F).

Definition ah_set_file (f : F) h : AbstractHandle F :=
  mkAbstract (ah_bucket h) (ah_key h) (ah_metadata h) f (ah_isSealed h) (ah_openCount h) (ah_isValid h)
    (ah_hasService h) (ah_readStatistics h) (ah_writeStatistics h).
Definition ah_count_read (n : Z) h : AbstractHandle F :=
  mkAbstract (ah_bucket h) (ah_key h) (ah_metadata h) (ah_file h) (ah_isSealed h) (ah_openCount h) (ah_isValid h)
    (ah_hasService h) (u64 (ah_readStatistics h + n)) (ah_writeStatistics h).
Definition ah_count_write (n : Z) h : AbstractHandle F :=
  mkAbstract (ah_bucket h) (ah_key h) (ah_metadata h) (ah_file h) (ah_isSealed h) (ah_openCount h) (ah_isValid h)
    (ah_hasService h) (ah_readStatistics h) (u64 (ah_writeStatistics h + n)).
Definition ah_set_sealed h : AbstractHandle F :=
  mkAbstract (ah_bucket h) (ah_key h) (ah_metadata h) (ah_file h) true (ah_openCount h) (ah_isValid h)
    (ah_hasService h) (ah_readStatistics h) (ah_writeStatistics h).
Definition ah_set_metadata (m : option str) h : AbstractHandle F :=
  mkAbstract (ah_bucket h) (ah_key h) m (ah_file h) (ah_isSealed h) (ah_openCount h) (ah_isValid h)
    (ah_hasService h) (ah_readStatistics h) (ah_writeStatistics h).
Definition ah_invalidate h : AbstractHandle F :=
  mkAbstract (ah_bucket h) (ah_key h) (ah_metadata h) (ah_file h) (ah_isSealed h) (ah_openCount h) false
    (ah_hasService h) (ah_readStatistics h) (ah_writeStatistics h).

Definition ah_identifier h : str := ah_bucket h ++ "/" ++ ah_key h.
End fields.

Section operations.
Context {F K : Type} `{StorageFile F K}.
Context (fuel : nat).
Implicit Types (h : AbstractHandle F) (k : K).

Definition ah_size h : Z := sf_size (ah_file h).
Definition ah_localStorageSize h : Z := sf_localStorageSize (ah_file h).
Definition ah_localMemorySize h : Z := sf_localMemorySize (ah_file h).

Definition ah_readBytes h (position length : Z) k :
    option (AbstractHandle F * K * outcome (StatusOr (Z * str))) :=
  match sf_readBytes fuel (ah_file h) position length k with
  | None => None
  | Some (f, k, result) =>
      let h := ah_set_file f h in
      Some (match result with Ret (Value (n, _)) => ah_count_read n h | _ => h end, k, result)
  end.

Definition ah_writeBytes h (bytes : str) (position : Z) k : option (K * outcome (AbstractHandle F * Status)) :=
  match sf_writeBytes fuel (ah_file h) bytes position k with
  | None => None
  | Some (k, result) =>
      Some (k, let! (f, st) := result in
               let h := ah_set_file f h in
               Ret (if ok st then ah_count_write (len bytes) h else h, st))
  end.

(** [write(stream, position, length)]: the result of the file is not passed on. *)
Definition ah_write h (stream : list str) (position : Z) (lengthOptional : option Z) k :
    option (K * outcome (AbstractHandle F * Status)) :=
  match sf_write fuel (ah_file h) stream position lengthOptional k with
  | None => None
  | Some (k, result) =>
      Some (k, let! (f, r) := result in
               let h := ah_set_file f h in
               Ret (match r with Value n => ah_count_write n h | Error _ => h end, OkStatus))
  end.

Definition ah_truncate h (targetSize : Z) k : option (AbstractHandle F * K * Status) :=
  match sf_truncate fuel (ah_file h) targetSize k with
  | None => None
  | Some (f, k, st) => Some (ah_set_file f h, k, st)
  end.

Definition ah_notifyUnused h : AbstractHandle F :=
  if 0 <? ah_openCount h then h else ah_set_file (sf_notifyUnused (ah_file h)) h.

Definition ah_rawFd h k : option (K * StatusOr Z) :=
  match sf_fsync fuel (ah_file h) k with
  | None => None
  | Some (k, s) => Some (k, if negb (ok s) then from_status s else sf_rawFd (ah_file h))
  end.

(** Whether there is a pointer to the contents. *)
Definition ah_rawPtr h k : option (AbstractHandle F * K * Status) :=
  match sf_fsync fuel (ah_file h) k with
  | None => None
  | Some (k, s) =>
      if negb (ok s) then Some (h, k, s)
      else let '(f, k, st) := sf_rawPtr (ah_file h) k in Some (ah_set_file f h, k, st)
  end.
End operations.

(** ** Sealing and relocating *)

(** What the handle asks of its [GEDS]: [seal], the object store of the bucket,
    and the handle of the relocated object, of type [R]. *)
Class HandleServices (V R : Type) := {
  svc_seal : str -> str -> option str -> bool -> Z -> V -> V * Status;
  svc_s3Endpoint : str -> V -> bool;
  svc_putObject : str -> str -> str -> Z -> V -> V * Status;
  svc_s3Handle : str -> str -> option str -> V -> V * StatusOr R;
  svc_sealHandle : R -> V -> V * Status;
  svc_deleteObject : str -> str -> V -> V
}.

Section services.
Context {F K V R : Type} `{StorageFile F K} `{HandleServices V R}.
Context (fuel : nat).
Implicit Types (h : AbstractHandle F) (k : K) (v : V).

Definition ah_seal h v : AbstractHandle F * V * Status :=
  let currentSize := ah_size h in
  let '(v, status) :=
    if ah_hasService h
    then svc_seal (ah_bucket h) (ah_key h) (ah_metadata h) (ah_isSealed h) currentSize v
    else (v, OkStatus) in
  ((if ok status then ah_set_sealed h else h), v, status).

Definition ah_setMetadata h (m : option str) (seal : bool) v : AbstractHandle F * V * Status :=
  let h := ah_set_metadata m h in
  if seal then ah_seal h v else (h, v, OkStatus).

(** What follows once the object is in the store, or the put has failed. *)
Definition ah_reopen h (s3Put : V * Status) : AbstractHandle F * V * StatusOr R :=
  let '(v, st) := s3Put in
  if negb (ok st) then
    (h, v, Error (UnknownError ("Unable to relocate " ++ ah_identifier h ++ " to s3: Reason " ++ message st)))
  else
    let '(v, fh) := svc_s3Handle (ah_bucket h) (ah_key h) (ah_metadata h) v in
    match fh with
    | Error st => (h, v, Error st)
    | Value fh =>
        let '(v, status) := svc_sealHandle fh v in
        if negb (ok status) then (h, svc_deleteObject (ah_bucket h) (ah_key h) v, from_status status)
        else (ah_invalidate h, v, Value fh)
    end.

Definition ah_relocate h k v : option (K * outcome (AbstractHandle F * V * StatusOr R)) :=
  if negb (ah_isValid h) then
    Some (k, Ret (h, v, Error (UnavailableError ("The file " ++ ah_identifier h ++ " is no longer valid!"))))
  else if 0 <? ah_openCount h then
    Some (k, Ret (h, v, Error (UnavailableError ("Unable to relocate " ++ ah_identifier h ++
                                                 " reason: The file is still in use."))))
  else if negb (ah_hasService h) then Some (k, Abort)
  else if negb (svc_s3Endpoint (ah_bucket h) v) then
    Some (k, Ret (h, v, Error (UnavailableError ("Unable to relocate " ++ ah_identifier h ++
                                                 " reason: No tier configured for " ++ ah_bucket h))))
  else
    match sf_fsync fuel (ah_file h) k with
    | None => None
    | Some (k, syncStatus) =>
        if negb (ok syncStatus) then Some (k, Ret (h, v, from_status syncStatus)) else
        let '(f, k, rawPtr) := sf_rawPtr (ah_file h) k in
        let h := ah_set_file f h in
        Some (k, let! bytes := (if ok rawPtr then sf_through f else Ret (sf_disk f)) in
                 Ret (ah_reopen h (svc_putObject (ah_bucket h) (ah_key h) bytes (sf_size f) v)))
    end.
End services.

(** ** What a file class promises *)

Class StorageLaws (F K : Type) `{StorageFile F K} := {
  sf_ready : F -> Prop;
  sf_contents : F -> str;
  sf_sized f : sf_ready f -> sf_size f = len (sf_contents f) /\ len (sf_contents f) < 2 ^ 62;
  sf_read_law f position length k :
    sf_ready f -> 0 <= position < SSIZE_MAX -> 0 < length <= SSIZE_MAX -> sf_contents f <> [] ->
    exists fuel f' k', sf_readBytes fuel f position length k =
        Some (f', k', Ret (Value (Z.max 0 (Z.min length (len (sf_contents f) - position)),
                                  slice position length (sf_contents f)))) /\
      sf_ready f' /\ sf_contents f' = sf_contents f;
  sf_write_law f bytes position k :
    sf_ready f -> 0 <= position <= len (sf_contents f) -> bytes <> [] -> position + len bytes < 2 ^ 62 ->
    exists fuel f' k', sf_writeBytes fuel f bytes position k = Some (k', Ret (f', OkStatus)) /\
      sf_ready f' /\ sf_contents f' = write_at position bytes (sf_contents f);
  sf_put_law f k :
    sf_ready f ->
    let '(f', _, st) := sf_rawPtr f k in
    (if ok st then sf_through f' else Ret (sf_disk f')) = Ret (sf_contents f) /\ sf_size f' = sf_size f
}.

(** ** The two file classes *)

(** [GEDSLocalFileHandle] *)
Section local_file.
Context {K : Type} `{KernelFair K}.

#[global] Instance LocalFile_storage : StorageFile LocalFile K := {|
  sf_path := lf_path;
  sf_size := lf_size;
  sf_localStorageSize := lf_size;
  sf_localMemorySize _ := 0;
  sf_readBytes fuel f position length k :=
    match lf_readBytes fuel f position length k with Some (k, r) => Some (f, k, Ret r) | None => None end;
  sf_writeBytes fuel f bytes position k :=
    match lf_writeBytes fuel f bytes position (len bytes) k with
    | Some (f, k, st) => Some (k, Ret (f, st))
    | None => None
    end;
  sf_write fuel f stream position lengthOpt k :=
    match lf_write fuel fuel f stream position lengthOpt k with
    | Some (f, k, _, r) => Some (k, Ret (f, r))
    | None => None
    end;
  sf_truncate _ f targetSize k := Some (lf_truncate f targetSize k);
  sf_fsync := lf_fsync;
  sf_notifyUnused f := f;
  sf_rawFd := lf_rawFd;
  sf_rawPtr f k := (f, k, status_of (lf_rawPtr f));
  sf_through _ := Abort;
  sf_disk := lf_data
|}.

#[global, refine] Instance LocalFile_laws : StorageLaws LocalFile K := {|
  sf_ready f := lf_wf f /\ len (lf_data f) < 2 ^ 62;
  sf_contents := lf_data
|}.
Proof.
  - intros f [Hw Hl]. split; [apply Hw|done].
  - intros f pos n k [Hw Hl] Hp Hn _. unfold SSIZE_MAX in *.
    destruct (lf_readBytes_spec (interrupts k + Z.to_nat (Z.min n (len (lf_data f)))) f pos n k Hw)
      as (k' & E & _); [unfold INT64_MAX; lia|lia|lia|].
    eexists _, f, k'. cbn [sf_readBytes LocalFile_storage]. by rewrite E.
  - intros f bytes pos k [Hw Hl] Hp Hne Hmax.
    destruct (lf_writeBytes_spec (interrupts k + length bytes) f bytes pos k Hw)
      as (f' & k' & E & Hw' & _ & _ & Hd & _); [lia|unfold INT64_MAX; lia|lia|].
    rewrite decide_False in Hd by done. eexists _, f', k'. cbn [sf_writeBytes LocalFile_storage]. rewrite E.
    split; [done|]. split; [|done]. split; [done|]. rewrite Hd, len_write_at by lia. lia.
  - intros f k _. by cbn [sf_rawPtr LocalFile_storage].
Defined.
End local_file.

(** [GEDSMMapFileHandle] *)
Section mmap_file.
Context {K : Type} `{MmapLaws K} `{!MmapGood K}.

#[global] Instance MMAPFile_storage : StorageFile MMAPFile K := {|
  sf_path := mm_path;
  sf_size := mm_size;
  sf_localStorageSize := mm_size;
  sf_localMemorySize := mm_mmapSize;
  sf_readBytes _ f position length k := Some (mm_readBytes f position length k);
  sf_writeBytes := mm_writeBytes;
  sf_write fuel f stream position lengthOpt k := mm_write fuel f (List.concat stream) position lengthOpt k;
  sf_truncate := mm_truncate;
  sf_fsync := mm_fsync;
  sf_notifyUnused := mm_notifyUnused;
  sf_rawFd := mm_rawFd;
  sf_rawPtr := mm_rawPtr;
  sf_through f := mem_read 0 (mm_size f) f;
  sf_disk := mm_data
|}.

(** Writing a range that begins inside the file, seen from the bytes within its
    size. *)
Lemma write_within p bytes n d d' :
  0 <= p <= n -> n <= len d -> extends d d' ->
  slice 0 (Z.max n (p + len bytes)) (write_at p bytes d') = write_at p bytes (slice 0 n d).
Proof.
  intros Hp Hn He. pose proof (len_nonneg bytes). pose proof (extends_len d d' He).
  assert (Hsame : forall i, (i < Z.to_nat n)%nat -> d' !! i = d !! i).
  { intros i Hi. destruct He as [->|(m & Hm & ->)]; [done|].
    rewrite lookup_resize by (pose proof (len_nonneg d); lia). rewrite decide_True by (unfold len in *; lia).
    destruct (lookup_lt_is_Some_2 d i) as [x ->]; [unfold len in *; lia|done]. }
  apply list_eq. intros i. rewrite lookup_slice, !lookup_write_at, lookup_slice by lia. cbn [Z.to_nat Nat.add].
  repeat case_decide; try lia; try done.
  - by rewrite Hsame by lia.
  - by apply Hsame; lia.
Qed.

(** Reading a mapped file leaves it alone. *)
Lemma mm_readBytes_same f pos n (k : K) :
  mm_mmapPtr f = true -> fst (mm_readBytes f pos n k) = (f, k).
Proof. intros Hm. unfold mm_readBytes, mm_reopen. rewrite Hm. by repeat case_match; simplify_eq. Qed.

(** A mapped file, or one that never had bytes. *)
Definition mm_ready (f : MMAPFile) : Prop :=
  mm_wf f /\ (mm_mmapPtr f = true \/ mm_size f = 0 /\ mm_data f = []).

Definition mm_contents (f : MMAPFile) : str := slice 0 (mm_size f) (mm_data f).

Lemma mm_sized f : mm_wf f -> mm_size f = len (mm_contents f) /\ mm_size f <= len (mm_data f) /\ 0 <= mm_size f < 2 ^ 62.
Proof.
  intros Hw. pose proof (mw_size f Hw). pose proof (mw_alloc f Hw).
  pose proof (page_round_bounds (mm_size f) ltac:(lia)). unfold mm_contents. rewrite slice_length by lia. lia.
Qed.

Lemma mm_read_law f pos n (k : K) :
  mm_ready f -> 0 <= pos < SSIZE_MAX -> 0 < n <= SSIZE_MAX -> mm_contents f <> [] ->
  mm_readBytes f pos n k =
    (f, k, Ret (Value (Z.max 0 (Z.min n (len (mm_contents f) - pos)), slice pos n (mm_contents f)))).
Proof.
  intros [Hw Hm] Hp Hn Hne. destruct (mm_sized f Hw) as (<- & Hd & Hs).
  destruct Hm as [Hm|[Hz _]]; [|by unfold mm_contents in Hne; rewrite Hz, slice_0 in Hne].
  pose proof (mm_readBytes_same f pos n k Hm) as Hf. pose proof (mm_readBytes_mapped f pos n k Hw Hm Hp Hn) as Hr.
  destruct (mm_readBytes f pos n k) as [fk o]. cbn [fst snd] in Hf, Hr. subst fk o.
  unfold mm_contents. rewrite slice_of_slice by lia. do 4 f_equal. f_equal; lia.
Qed.

Lemma mm_write_law f bytes pos (k : K) :
  mm_ready f -> 0 <= pos <= len (mm_contents f) -> bytes <> [] -> pos + len bytes < 2 ^ 62 ->
  exists f' k', mm_writeBytes 1 f bytes pos k = Some (k', Ret (f', OkStatus)) /\
    mm_ready f' /\ mm_contents f' = write_at pos bytes (mm_contents f).
Proof.
  intros [Hw Hm] Hp Hne Hmax. destruct (mm_sized f Hw) as (Hs & Hd & Hb). rewrite <- Hs in Hp.
  assert (0 < len bytes) by (destruct bytes; [done|unfold len; simpl; lia]).
  destruct (mm_writeBytes_good f bytes pos k Hw ltac:(lia) Hmax Hne) as (k' & f' & E).
  { destruct Hm as [Hm|[Hz _]]; [by left|right; lia]. }
  destruct (mm_writeBytes_safe _ _ _ _ _ _ _ Hw (proj1 Hp) Hmax E) as (g & st & [= <- <-] & Hw' & Hok & _).
  destruct (Hok eq_refl Hne) as [Hsz (d & Hx & Hdat)].
  exists f', k'. split; [done|]. split; [split; [done|left; by apply (mm_writeBytes_maps 1 f bytes pos k k')]|].
  unfold mm_contents. rewrite Hsz, Hdat. by apply write_within.
Qed.

Lemma mm_put_law f (k : K) :
  mm_ready f ->
  let '(f', _, st) := mm_rawPtr f k in
  (if ok st then mem_read 0 (mm_size f') f' else Ret (mm_data f')) = Ret (mm_contents f) /\ mm_size f' = mm_size f.
Proof.
  intros [Hw Hm]. destruct (mm_sized f Hw) as (Hs & Hd & Hb). unfold mm_rawPtr, mm_reopen.
  destruct (mm_mmapPtr f) eqn:Ep; cbn [negb].
  - pose proof (mw_map f Hw Ep). cbn [ok OkStatus raw_code Z.eqb]. split; [|done].
    unfold mem_read. rewrite Ep, !(proj2 (Z.leb_le _ _)) by lia. done.
  - destruct Hm as [|[Hz He]]; [done|]. rewrite Hz.
    assert (page_round 0 = 0) as -> by (by rewrite page_round_eq, Z.div_0_l, Z.mod_0_l by (pose proof page_pos; lia)).
    pose proof (mmap_zero k) as Hn. destruct (mk_mmap 0 k) as [k1 b]. simpl in Hn. subst b. cbn [negb].
    unfold mm_contents. rewrite Hz, He. done.
Qed.

#[global, refine] Instance MMAPFile_laws : StorageLaws MMAPFile K := {|
  sf_ready := mm_ready;
  sf_contents := mm_contents
|}.
Proof.
  - intros f [Hw _]. destruct (mm_sized f Hw) as (Hs & _ & Hb). cbn [sf_size MMAPFile_storage]. lia.
  - intros f pos n k Hr Hp Hn Hne. exists 0%nat, f, k. cbn [sf_readBytes MMAPFile_storage].
    by rewrite mm_read_law.
  - intros f bytes pos k Hr Hp Hne Hmax. destruct (mm_write_law f bytes pos k Hr Hp Hne Hmax) as (f' & k' & H').
    by exists 1%nat, f', k'.
  - intros f k Hr. exact (mm_put_law f k Hr).
Defined.
End mmap_file.

(** ** An array of bytes with counters *)

Record counted := mkCounted { c_bytes : str; c_read : Z; c_written : Z }.

Inductive ah_op :=
| HRead (position length : Z)
| HWrite (bytes : str) (position : Z).

Inductive ah_result :=
| RRead (n : Z) (bytes : str)
| RWritten.

Definition counted_step (a : ah_op) (c : counted) : counted * ah_result :=
  match a with
  | HRead p n =>
      let m := Z.max 0 (Z.min n (len (c_bytes c) - p)) in
      (mkCounted (c_bytes c) (u64 (c_read c + m)) (c_written c), RRead m (slice p n (c_bytes c)))
  | HWrite b p => (mkCounted (write_at p b (c_bytes c)) (c_read c) (u64 (c_written c + len b)), RWritten)
  end.

Fixpoint counted_run (ops : list ah_op) (c : counted) : counted * list ah_result :=
  match ops with
  | [] => (c, [])
  | a :: ops => let '(c, r) := counted_step a c in
                let '(c, rs) := counted_run ops c in (c, r :: rs)
  end.

(** Reads from a file that is not empty, and writes of at least one byte that
    begin within it. *)
Definition op_within (a : ah_op) (d : str) : Prop :=
  match a with
  | HRead p n => 0 <= p < SSIZE_MAX /\ 0 < n <= SSIZE_MAX /\ d <> []
  | HWrite b p => 0 <= p <= len d /\ b <> [] /\ p + len b < 2 ^ 62
  end.

Fixpoint ops_within (ops : list ah_op) (c : counted) : Prop :=
  match ops with
  | [] => True
  | a :: ops => op_within a (c_bytes c) /\ ops_within ops (fst (counted_step a c))
  end.

Section client.
Context {F K V R : Type} `{StorageLaws F K} `{HandleServices V R}.
Implicit Types (h : AbstractHandle F) (k : K) (v : V).

(** One call on the handle that returns [r]. *)
Definition ah_call (a : ah_op) h k (r : ah_result) h' k' : Prop :=
  exists fuel,
    match a with
    | HRead p n => exists m d, ah_readBytes fuel h p n k = Some (h', k', Ret (Value (m, d))) /\ r = RRead m d
    | HWrite b p => ah_writeBytes fuel h b p k = Some (k', Ret (h', OkStatus)) /\ r = RWritten
    end.

Inductive ah_calls : list ah_op -> AbstractHandle F -> K -> list ah_result -> AbstractHandle F -> K -> Prop :=
| calls_nil h k : ah_calls [] h k [] h k
| calls_cons a ops h k r h1 k1 rs h2 k2 :
    ah_call a h k r h1 k1 -> ah_calls ops h1 k1 rs h2 k2 -> ah_calls (a :: ops) h k (r :: rs) h2 k2.

Definition ah_abs h : counted := mkCounted (sf_contents (ah_file h)) (ah_readStatistics h) (ah_writeStatistics h).

(** What no read and no write changes. *)
Definition same_handle h h' : Prop :=
  ah_bucket h' = ah_bucket h /\ ah_key h' = ah_key h /\ ah_metadata h' = ah_metadata h /\
  ah_isSealed h' = ah_isSealed h /\ ah_openCount h' = ah_openCount h /\ ah_isValid h' = ah_isValid h /\
  ah_hasService h' = ah_hasService h.

Lemma same_handle_trans h1 h2 h3 : same_handle h1 h2 -> same_handle h2 h3 -> same_handle h1 h3.
Proof. unfold same_handle. intuition congruence. Qed.

Lemma ah_call_exact a h k :
  sf_ready (ah_file h) -> op_within a (sf_contents (ah_file h)) ->
  exists h' k', ah_call a h k (snd (counted_step a (ah_abs h))) h' k' /\ sf_ready (ah_file h') /\
    ah_abs h' = fst (counted_step a (ah_abs h)) /\ same_handle h h'.
Proof.
  intros Hr Ha. destruct a as [p n|b p]; cbn [op_within] in Ha.
  - destruct Ha as (Hp & Hn & Hne). destruct (sf_read_law (ah_file h) p n k Hr Hp Hn Hne) as (fuel & f' & k' & E & Hr' & Hc).
    exists (ah_count_read (Z.max 0 (Z.min n (len (sf_contents (ah_file h)) - p))) (ah_set_file f' h)), k'.
    split_and!; [|done| |done].
    + exists fuel. eexists _, _. unfold ah_readBytes. rewrite E. done.
    + unfold ah_abs. simpl. by rewrite Hc.
  - destruct Ha as (Hp & Hne & Hmax). destruct (sf_write_law (ah_file h) b p k Hr Hp Hne Hmax) as (fuel & f' & k' & E & Hr' & Hc).
    exists (ah_count_write (len b) (ah_set_file f' h)), k'. split_and!; [|done| |done].
    + exists fuel. unfold ah_writeBytes. rewrite E. done.
    + unfold ah_abs. simpl. by rewrite Hc.
Qed.

Lemma ah_calls_exact ops h k :
  sf_ready (ah_file h) -> ops_within ops (ah_abs h) ->
  exists h' k', ah_calls ops h k (snd (counted_run ops (ah_abs h))) h' k' /\ sf_ready (ah_file h') /\
    ah_abs h' = fst (counted_run ops (ah_abs h)) /\ same_handle h h'.
Proof.
  revert h k. induction ops as [|a ops IH]; intros h k Hr Ho; cbn [counted_run].
  { exists h, k. split; [constructor|done]. }
  destruct Ho as [Ha Ho]. destruct (ah_call_exact a h k Hr Ha) as (h1 & k1 & Hc & Hr1 & Hab & Hs1).
  rewrite <- Hab in Ho. destruct (IH h1 k1 Hr1 Ho) as (h2 & k2 & Hcs & Hr2 & Hab2 & Hs2). rewrite Hab in Hcs, Hab2.
  destruct (counted_step a (ah_abs h)) as [c r]. cbn [fst snd] in *.
  destruct (counted_run ops c) as [c' rs]. cbn [fst snd] in *.
  exists h2, k2. split_and!; [by econstructor|done..|by eapply same_handle_trans].
Qed.

(** The handle may be relocated. *)
Definition relocatable h v : Prop :=
  ah_isValid h = true /\ ah_openCount h <= 0 /\ ah_hasService h = true /\ svc_s3Endpoint (ah_bucket h) v = true.

Lemma ah_relocate_puts fuel h k k1 v :
  sf_ready (ah_file h) -> relocatable h v -> sf_fsync fuel (ah_file h) k = Some (k1, OkStatus) ->
  exists f' k2, ah_relocate fuel h k v =
    Some (k2, Ret (ah_reopen (ah_set_file f' h)
                     (svc_putObject (ah_bucket h) (ah_key h) (sf_contents (ah_file h))
                        (len (sf_contents (ah_file h))) v))).
Proof.
  intros Hr (Hv & Ho & Hs & He) Hf. unfold ah_relocate. rewrite Hv, Hs, He, Hf.
  rewrite (proj2 (Z.ltb_ge _ _)) by lia. cbn [negb ok OkStatus raw_code Z.eqb].
  pose proof (sf_put_law (ah_file h) k1 Hr) as Hput. pose proof (proj1 (sf_sized _ Hr)) as Hsz.
  destruct (sf_rawPtr (ah_file h) k1) as [[f' k2] st]. destruct Hput as [-> Hz].
  exists f', k2. cbn [obind ah_set_file ah_bucket ah_key]. by rewrite Hz, Hsz.
Qed.
End client.

(** ** Properties *)

(** C19: one handle for every file class. Over any file class that keeps its promises,
    in particular the read/write class and the memory-mapped class, a handle
    behaves like one array of bytes: every sequence of reads from a file that is
    not empty and of writes that begin within the file succeeds, returns the bytes
    of the array and counts the bytes read and written; and relocating the handle
    afterwards puts exactly the bytes of the array, with their number, into the
    object store. *)
Theorem abstract_handle_exact (F K V R : Type) `{StorageLaws F K} `{HandleServices V R}
    ops (h : AbstractHandle F) (k : K) (v : V) :
  sf_ready (ah_file h) -> ops_within ops (ah_abs h) -> relocatable h v ->
  let final := counted_run ops (ah_abs h) in
  exists h' k', ah_calls ops h k (snd final) h' k' /\ ah_abs h' = fst final /\
    forall fuel k1, sf_fsync fuel (ah_file h') k' = Some (k1, OkStatus) ->
      exists f' k2, ah_relocate fuel h' k' v =
        Some (k2, Ret (ah_reopen (ah_set_file f' h')
                         (svc_putObject (ah_bucket h) (ah_key h) (c_bytes (fst final))
                            (len (c_bytes (fst final))) v))).
Proof.
  intros Hr Ho Hv final. destruct (ah_calls_exact ops h k Hr Ho) as (h' & k' & Hc & Hr' & Hab & Hs).
  exists h', k'. split; [done|]. split; [done|]. intros fuel k1 Hf.
  assert (Hv' : relocatable h' v).
  { destruct Hs as (Hb & _ & _ & _ & Hoc & Hva & Hse). unfold relocatable. by rewrite Hb, Hoc, Hva, Hse. }
  destruct (ah_relocate_puts fuel h' k' k1 v Hr' Hv' Hf) as (f' & k2 & E). exists f', k2.
  rewrite E. destruct Hs as (Hb & Hk & _). subst final. rewrite <- Hab, Hb, Hk. done.
Qed.

(** ** Witnesses *)

(** An object store that keeps what it is given. *)
#[local] Instance demo_services : HandleServices (list str) unit := {|
  svc_seal _ _ _ _ _ v := (v, OkStatus);
  svc_s3Endpoint _ _ := true;
  svc_putObject _ _ bytes _ v := (v ++ [bytes], OkStatus);
  svc_s3Handle _ _ _ v := (v, Value tt);
  svc_sealHandle _ v := (v, OkStatus);
  svc_deleteObject _ _ v := v
|}.

Definition demo_abstract {F} (f : F) : AbstractHandle F :=
  mkAbstract "bucket" "key" None f false 0 true true 0 0.

Definition demo_ops : list ah_op := [HWrite "abc" 0; HRead 1 9; HWrite "XY" 2; HRead 0 4].

Lemma new_mmap_ready : sf_ready (K := unit) (ah_file (demo_abstract new_mmap)).
Proof. split; [exact new_mmap_wf|by right]. Qed.

Lemma sample_ready : sf_ready (K := nat) (ah_file (demo_abstract sample_file)).
Proof. split; [exact sample_file_wf|done]. Qed.

(** On a mapped file that is new, and on a read/write file of ten bytes. *)
Lemma abstract_handle_exact_witness :
  (exists h' k', ah_calls demo_ops (demo_abstract new_mmap) tt [RWritten; RRead 2 "bc"; RWritten; RRead 4 "abXY"] h' k' /\
     ah_abs h' = mkCounted "abXY" 6 5) /\
  (exists h' k', ah_calls demo_ops (demo_abstract sample_file) 2%nat
       [RWritten; RRead 9 "bc3456789"; RWritten; RRead 4 "abXY"] h' k' /\
     ah_abs h' = mkCounted "abXY456789" 13 5).
Proof.
  split.
  - destruct (abstract_handle_exact MMAPFile unit (list str) unit demo_ops (demo_abstract new_mmap) tt []
                new_mmap_ready
                ltac:(cbn [ops_within op_within demo_ops]; repeat split; try discriminate; vm_compute; congruence)
                ltac:(repeat split; simpl; lia)) as (h' & k' & Hc & Ha & _).
    exists h', k'. split; [exact Hc|exact Ha].
  - destruct (abstract_handle_exact LocalFile nat (list str) unit demo_ops (demo_abstract sample_file) 2%nat []
                sample_ready
                ltac:(cbn [ops_within op_within demo_ops]; repeat split; try discriminate; vm_compute; congruence)
                ltac:(repeat split; simpl; lia)) as (h' & k' & Hc & Ha & _).
    exists h', k'. split; [exact Hc|exact Ha].
Defined.
