(* ===== verification/S3Init.v ===== *)
(** * Starting the AWS SDK

    [geds::s3::Init] and [geds::s3::Shutdown] (src/src/s3/S3Init.cpp), which every
    thread that uses S3 may call: the two atomic flags and the options as a shared
    state, and the statements of the two functions as steps that threads
    interleave. *)

From Stdlib Require Import Ascii ZArith Lia.
From stdpp Require Import base gmap list numbers relations.
From S2P Require Import Prelude.

(** ** The shared state *)

(** Where a thread is: outside, in [Init] after it has won the exchange and
    before [InitAPI] has returned, between [InitAPI] and the store to
    [awaitSDKInitialization], in the loop of [Init], or with an [Init] that has
    returned. *)
Inductive pc := Outside | Initializing | Initialized | Waiting | Ready.

#[global] Instance pc_eq_dec : EqDecision pc.
Proof. solve_decision. Defined.

(** The three variables, and how often [Aws::InitAPI] was called and has
    returned. *)
Record Sdk := mkSdk {
  awsSDKinitialized : bool;
  awaitSDKInitialization : bool;
  awsSDKoptions : bool;               (** whether the pointer is set *)
  api_called : nat;
  api_returned : nat;
  at_ : nat -> pc
}.

Definition newSdk : Sdk := mkSdk false true false 0 0 (fun _ => Outside).

Definition set_pc (t : nat) (p : pc) (s : Sdk) : Sdk :=
  mkSdk (awsSDKinitialized s) (awaitSDKInitialization s) (awsSDKoptions s) (api_called s) (api_returned s)
    (fun u => if decide (u = t) then p else at_ s u).

(** ** The statements *)

(** The exchange at the start of [Init]. *)
Definition init_exchange (t : nat) (s : Sdk) : Sdk :=
  if awsSDKinitialized s then set_pc t Waiting s
  else set_pc t Initializing
         (mkSdk true (awaitSDKInitialization s) true (S (api_called s)) (api_returned s) (at_ s)).

(** [InitAPI] returns. *)
Definition init_api (t : nat) (s : Sdk) : Sdk :=
  set_pc t Initialized
    (mkSdk (awsSDKinitialized s) (awaitSDKInitialization s) (awsSDKoptions s) (api_called s) (S (api_returned s)) (at_ s)).

(** The waiting threads are released. *)
Definition init_release (t : nat) (s : Sdk) : Sdk :=
  set_pc t Ready
    (mkSdk (awsSDKinitialized s) false (awsSDKoptions s) (api_called s) (api_returned s) (at_ s)).

(** One round of the loop: the flag is tested, and the thread sleeps or returns. *)
Definition init_wait (t : nat) (s : Sdk) : Sdk :=
  if awaitSDKInitialization s then s else set_pc t Ready s.

(** [Shutdown]: [InitAPI] is not undone. *)
Definition sdk_shutdown (s : Sdk) : Sdk :=
  if awsSDKinitialized s
  then mkSdk false (awaitSDKInitialization s) false (api_called s) (api_returned s) (at_ s)
  else s.

(** The step of a thread; a thread whose [Init] has returned may call it again. *)
Inductive sdk_action := Init (t : nat) | Shutdown.

Definition init_step (t : nat) (s : Sdk) : Sdk :=
  match at_ s t with
  | Outside | Ready => init_exchange t s
  | Initializing => init_api t s
  | Initialized => init_release t s
  | Waiting => init_wait t s
  end.

Definition sdk_step (a : sdk_action) (s : Sdk) : Sdk :=
  match a with Init t => init_step t s | Shutdown => sdk_shutdown s end.

Definition sdk_run (acts : list sdk_action) (s : Sdk) : Sdk := fold_left (fun s a => sdk_step a s) acts s.

Definition shutdowns (acts : list sdk_action) : nat :=
  length (List.filter (fun a => match a with Shutdown => true | _ => false end) acts).

(** ** The phases of the first start *)

(** Apart from one thread, all others are outside or wait. *)
Definition idle (p : pc) : Prop := p = Outside \/ p = Waiting.

Inductive phase (s : Sdk) : Prop :=
| Fresh :
    awsSDKinitialized s = false -> awaitSDKInitialization s = true ->
    api_called s = 0%nat -> api_returned s = 0%nat -> (forall t, at_ s t = Outside) -> phase s
| Starting w :
    awsSDKinitialized s = true -> awaitSDKInitialization s = true -> awsSDKoptions s = true -> api_called s = 1%nat ->
    (at_ s w = Initializing /\ api_returned s = 0%nat \/ at_ s w = Initialized /\ api_returned s = 1%nat) ->
    (forall t, t <> w -> idle (at_ s t)) -> phase s
| Started :
    awsSDKinitialized s = true -> awaitSDKInitialization s = false -> awsSDKoptions s = true -> api_called s = 1%nat ->
    api_returned s = 1%nat -> (forall t, idle (at_ s t) \/ at_ s t = Ready) -> phase s.

Lemma phase_step t s : phase s -> phase (init_step t s).
Proof.
  unfold init_step, init_exchange, init_api, init_release, init_wait.
  intros [Hi Ha Hc Hr Hall|w Hi Ha Ho Hc Hw Hall|Hi Ha Ho Hc Hr Hall].
  - rewrite Hall, Hi. apply (Starting _ t); cbn; try done; [lia|left; split; [by rewrite decide_True|done]|].
    intros u Hu. rewrite decide_False by done. left. apply Hall.
  - destruct (decide (t = w)) as [->|Hne].
    + destruct Hw as [[Hw Hr]|[Hw Hr]]; rewrite Hw.
      * apply (Starting _ w); cbn; try done; [right; split; [by rewrite decide_True|lia]|].
        intros u Hu. rewrite decide_False by done. by apply Hall.
      * apply Started; cbn; try done. intros u. case_decide; [by right|left; by apply Hall].
    + assert (Hgo : forall p, idle p -> phase (set_pc t p s)).
      { intros p Hp. apply (Starting _ w); cbn; try done; [by rewrite decide_False by congruence|].
        intros u Hu. case_decide; [done|by apply Hall]. }
      destruct (Hall t Hne) as [E|E]; rewrite E.
      * rewrite Hi. apply Hgo. by right.
      * rewrite Ha. by apply (Starting _ w).
  - assert (Hgo : forall p, idle p \/ p = Ready -> phase (set_pc t p s)).
    { intros p Hp. apply Started; cbn; try done. intros u. by case_decide. }
    destruct (Hall t) as [[E|E]|E]; rewrite E, ?Hi, ?Ha; apply Hgo; unfold idle; auto.
Qed.

Lemma phase_run acts s : shutdowns acts = 0%nat -> phase s -> phase (sdk_run acts s).
Proof.
  revert s. induction acts as [|[t|] acts IH]; intros s Hn Hp; [done| |done].
  apply IH; [done|]. by apply phase_step.
Qed.

Lemma phase_new : phase newSdk.
Proof. by apply Fresh. Qed.

Lemma sdk_run_app l1 l2 s : sdk_run (l1 ++ l2) s = sdk_run l2 (sdk_run l1 s).
Proof. unfold sdk_run. apply fold_left_app. Qed.

(** ** Every [Init] returns *)

(** Running only [Init] by [t] and [w]. *)
Definition finishes (n : nat) (t : nat) (s : Sdk) : Prop :=
  exists acts, shutdowns acts = 0%nat /\ (length acts <= n)%nat /\ at_ (sdk_run acts s) t = Ready.

Lemma finishes_now n t s : at_ s t = Ready -> finishes n t s.
Proof. intros E. exists []. split; [done|]. split; [simpl; lia|done]. Qed.

Lemma finishes_step n u t s : finishes n t (init_step u s) -> finishes (S n) t s.
Proof.
  intros (acts & Hn & Hl & E). exists (Init u :: acts). split; [done|]. split; [simpl; lia|exact E].
Qed.

Lemma waiting_finishes n t s :
  awaitSDKInitialization s = false -> at_ s t = Waiting -> finishes (S n) t s.
Proof.
  intros Ha E. apply (finishes_step n t), finishes_now. unfold init_step, init_wait. rewrite E, Ha. cbn.
  by rewrite decide_True.
Qed.

Lemma started_finishes n t s :
  awsSDKinitialized s = true -> awaitSDKInitialization s = false -> idle (at_ s t) \/ at_ s t = Ready ->
  finishes (S (S n)) t s.
Proof.
  intros Hi Ha [[E|E]|E]; [| |by apply finishes_now].
  - apply (finishes_step _ t), waiting_finishes; unfold init_step, init_exchange; rewrite E, Hi; [done|].
    cbn. by rewrite decide_True.
  - by apply waiting_finishes.
Qed.

(** The end of the start: the waiting threads are released. *)
Lemma initialized_finishes w t s :
  awsSDKinitialized s = true -> at_ s w = Initialized -> (forall u, u <> w -> idle (at_ s u)) -> finishes 3 t s.
Proof.
  intros Hi Hw Hall. apply (finishes_step _ w). unfold init_step, init_release. rewrite Hw.
  apply started_finishes; cbn; [done..|]. case_decide; [by right|left; by apply Hall].
Qed.

Lemma starting_finishes w t s :
  awsSDKinitialized s = true -> at_ s w = Initializing -> (forall u, u <> w -> idle (at_ s u)) -> finishes 4 t s.
Proof.
  intros Hi Hw Hall. apply (finishes_step _ w). unfold init_step, init_api. rewrite Hw.
  apply (initialized_finishes w); cbn; [done|by rewrite decide_True|].
  intros u Hu. rewrite decide_False by done. by apply Hall.
Qed.

Lemma phase_finishes t s : phase s -> finishes 5 t s.
Proof.
  intros [Hi Ha Hc Hr Hall|w Hi Ha Ho Hc Hw Hall|Hi Ha Ho Hc Hr Hall].
  - apply (finishes_step _ t). unfold init_step, init_exchange. rewrite Hall, Hi.
    apply (starting_finishes t); cbn; [done|by rewrite decide_True|].
    intros u Hu. rewrite decide_False by done. left. apply Hall.
  - destruct Hw as [[Hw _]|[Hw _]].
    + destruct (starting_finishes w t s Hi Hw Hall) as (l & ? & ? & ?). exists l. split_and!; [done|lia|done].
    + destruct (initialized_finishes w t s Hi Hw Hall) as (l & ? & ? & ?). exists l. split_and!; [done|lia|done].
  - by apply started_finishes.
Qed.

(** ** Properties *)

(** C37: the SDK is started once, before any [Init] returns. However the threads
    that call [Init] interleave, as long as none calls [Shutdown], [Aws::InitAPI]
    is called at most once; a thread whose [Init] has returned finds it called
    and finished; and no thread waits for ever: from every state at most five
    steps of the threads lead any of them to the end of its [Init]. *)
Theorem init_once acts t :
  shutdowns acts = 0%nat ->
  let s := sdk_run acts newSdk in
  (api_called s <= 1)%nat /\
  (at_ s t = Ready -> api_called s = 1%nat /\ api_returned s = 1%nat /\ awsSDKoptions s = true) /\
  exists acts', shutdowns acts' = 0%nat /\ (length acts' <= 5)%nat /\ at_ (sdk_run acts' s) t = Ready.
Proof.
  intros Hn s. assert (Hp : phase s) by (by apply phase_run, phase_new).
  split; [destruct Hp; lia|]. split; [|by apply phase_finishes].
  intros Ht. destruct Hp as [Hi Ha Hc Hr Hall|w Hi Ha Ho Hc Hw Hall|Hi Ha Ho Hc Hr Hall].
  - by rewrite Hall in Ht.
  - destruct (decide (t = w)) as [->|Hne]; [destruct Hw as [[Hw _]|[Hw _]]; congruence|].
    destruct (Hall t Hne); congruence.
  - done.
Qed.

(** After a [Shutdown] the flag of the first start is still cleared, so that a
    thread whose [Init] returns can find the SDK in the middle of its second
    start, and [InitAPI] is called again although it was never undone. *)
Theorem init_after_shutdown :
  exists acts t, let s := sdk_run acts newSdk in
    at_ s t = Ready /\ awsSDKinitialized s = true /\ api_called s = 2%nat /\ api_returned s = 1%nat.
Proof. exists [Init 0; Init 0; Init 0; Shutdown; Init 0; Init 1; Init 1], 1%nat. by vm_compute. Qed.

(** ** Witness *)

Lemma init_once_witness :
  let s := sdk_run [Init 0; Init 1; Init 0; Init 1; Init 0; Init 1] newSdk in
  at_ s 1%nat = Ready /\ api_called s = 1%nat /\ api_returned s = 1%nat.
Proof.
  destruct (init_once [Init 0; Init 1; Init 0; Init 1; Init 0; Init 1] 1 eq_refl) as (_ & Hr & _).
  split; [reflexivity|]. destruct (Hr eq_refl) as (H1 & H2 & _). split; [exact H1|exact H2].
Defined.
