(* ===== verification/Commands.v ===== *)
(** * The command line client of the metadata service

    The program [geds_cmd] (src/src/geds_cmd/main.cpp), which performs one
    operation on the metadata service. The flags are given as parsed by the
    library; the client is that of MetadataService.v. *)

From Stdlib Require Import Ascii ZArith Lia.
From stdpp Require Import base gmap sets list strings numbers.
From S2P Require Import Prelude Bytes Decimal Status StdMap Path Object MDSKVSBucket MDSKVS Rpc.
From S2P Require Import MetadataServer MetadataService.

Open Scope Z_scope.
Open Scope list_scope.

#[local] Opaque to_string.

(** ** The flags *)

Inductive Operation := OpCreateBucket | OpDeleteBucket | OpCreate | OpUpdate | OpDelete | OpList.

#[global] Instance Operation_eq_dec : EqDecision Operation.
Proof. solve_decision. Defined.

(** [AbslParseFlag]: the operation, or the error. *)
Definition AbslParseFlag (text : str) : Operation + str :=
  let is_ (short long : str) := bool_decide (text = short) || bool_decide (text = long) in
  if is_ "cb" "CreateBucket" then inl OpCreateBucket
  else if is_ "db" "DeleteBucket" then inl OpDeleteBucket
  else if is_ "c" "Create" then inl OpCreate
  else if is_ "u" "Update" then inl OpUpdate
  else if is_ "d" "Delete" then inl OpDelete
  else if is_ "l" "List" then inl OpList
  else inr ("Unknown value." : str).

Definition AbslUnparseFlag (mode : Operation) : str :=
  match mode with
  | OpCreateBucket => "CreateBucket"
  | OpDeleteBucket => "DeleteBucket"
  | OpCreate => "Create"
  | OpUpdate => "Update"
  | OpDelete => "Delete"
  | OpList => "List"
  end.

(** The flags after parsing the command line; [None] stands for a flag that is
    not specified and has its default value. *)
Record Flags := mkFlags {
  fl_serverAddress : option str;
  fl_serverPort : option Z;
  fl_operation : option Operation;
  fl_bucket : option str;
  fl_key : option str;
  fl_location : option str;
  fl_size : option Z;
  fl_sealedOffset : option Z
}.

Definition defaultMetdataServerPort : Z := 4381.

Definition flag_bucket (fl : Flags) : str := default ("defaultBucket" : str) (fl_bucket fl).
Definition flag_key (fl : Flags) : str := default ("defaultKey" : str) (fl_key fl).
Definition flag_size (fl : Flags) : Z := default 0 (fl_size fl).
Definition flag_sealedOffset (fl : Flags) : Z := default 0 (fl_sealedOffset fl).

(** ** The program *)

(** A line on the standard output or on the error output. *)
Inductive line := Out (s : str) | Err (s : str).

(** How the program ends: its exit status and what it printed. *)
Definition EXIT_SUCCESS : Z := 0.
Definition EXIT_FAILURE : Z := 1.

Section program.
Context {S : Type} `{MDStub S}.
Implicit Types (c : MetadataService) (s : S).

(** The checks that a flag is specified, in order; the first one missing ends the
    program. *)
Fixpoint require (needed : list (bool * str)) : option line :=
  match needed with
  | [] => None
  | (specified, what) :: needed =>
      if specified then require needed else Some (Err ("No " ++ what ++ " is specified."))
  end.

Definition specified {A} (flag : option A) : bool := match flag with Some _ => true | None => false end.

Definition need_bucket (fl : Flags) : bool * str := (specified (fl_bucket fl), "bucket" : str).
Definition need_key (fl : Flags) : bool * str := (specified (fl_key fl), "key" : str).
Definition need_location (fl : Flags) : bool * str := (specified (fl_location fl), "location" : str).

Definition needs (op : Operation) (fl : Flags) : list (bool * str) :=
  match op with
  | OpCreateBucket | OpDeleteBucket => [need_bucket fl]
  | OpCreate | OpUpdate => [need_bucket fl; need_key fl; need_location fl]
  | OpDelete | OpList => [need_bucket fl; need_key fl]
  end.

(** The object of [Create] and [Update]. The variable [location] is initialised
    with the flag of the key. *)
Definition cmd_object (fl : Flags) (metadata : option str) : Object :=
  let location := flag_key fl in
  mkObject (mkID (flag_bucket fl) (flag_key fl)) (mkInfo location (flag_size fl) (flag_sealedOffset fl) metadata).

Definition print_object (o : Object) : line :=
  Out (bucket (id o) ++ "/" ++ key (id o) ++ ": " ++ location (info o) ++ " (size: " ++
       to_string (osize (info o)) ++ ", sealed offset: " ++ to_string (sealedOffset (info o)) ++ ")").

(** The switch over the operation: its status and what it prints. *)
Definition perform (op : Operation) (fl : Flags) c s : S * Status * list line :=
  match op with
  | OpCreateBucket => let '(_, s, st) := client_createBucket (flag_bucket fl) c s in (s, st, [])
  | OpDeleteBucket => let '(_, s, st) := client_deleteBucket (flag_bucket fl) c s in (s, st, [])
  | OpCreate => let '(_, s, st) := client_createObject (cmd_object fl None) c s in (s, st, [])
  | OpUpdate =>
      let '(_, s, st) := client_updateObject (cmd_object fl (Some ("Hello world" : str))) c s in (s, st, [])
  | OpDelete => let '(_, s, st) := client_deleteObject (flag_bucket fl) (flag_key fl) c s in (s, st, [])
  | OpList =>
      let '(_, s, resp) := listPrefix_all (flag_bucket fl) (flag_key fl) c s in
      match resp with
      | Value objects => (s, OkStatus, map print_object objects)
      | Error st => (s, st, [Err ("Unable to query metadata server: " ++ message st)])
      end
  end.

(** [main]: the state of the service, the exit status and the output. *)
Definition cmd_main (assertions : bool) (default_bucket : option str) (ch : channel_outcome) (uuid : str)
    (fl : Flags) s :
    outcome (S * Z * list line) :=
  match fl_operation fl with
  | None => Ret (s, EXIT_FAILURE, [Err "No operation is specified."])
  | Some mode =>
      match AbslParseFlag (AbslUnparseFlag mode) with
      | inr error => Ret (s, EXIT_FAILURE, [Err error])
      | inl operation =>
          let serverAddress := default ("localhost" : str) (fl_serverAddress fl) ++ ":" ++
                               to_string (default defaultMetdataServerPort (fl_serverPort fl)) in
          let connecting := Out ("Connecting to " ++ serverAddress) in
          let metadataService := newMetadataService uuid serverAddress default_bucket in
          let! (c, result) := connect assertions ch metadataService in
          if negb (ok result) then
            Ret (s, EXIT_FAILURE, [connecting; Err ("Error connecting to " ++ serverAddress ++ ": " ++ message result)])
          else
            match require (needs operation fl) with
            | Some missing => Ret (s, EXIT_FAILURE, [connecting; missing])
            | None =>
                let '(s, operationResult, printed) := perform operation fl c s in
                let '(code, last) :=
                  if negb (ok operationResult)
                  then (EXIT_FAILURE, Err (AbslUnparseFlag mode ++ ": " ++ message operationResult))
                  else (EXIT_SUCCESS, Out (AbslUnparseFlag mode ++ ": Success")) in
                Ret (s, code, connecting :: printed ++ [last])
            end
      end
  end.
End program.

(** ** Lemmas *)

Lemma operation_roundtrip op : AbslParseFlag (AbslUnparseFlag op) = inl op.
Proof. by destruct op. Qed.

(** The request the flags ask for, when those the operation needs are specified. *)
Definition cmd_request (op : Operation) (fl : Flags) : option KvsSpec.op :=
  match op, fl_bucket fl, fl_key fl, fl_location fl with
  | OpCreateBucket, Some b, _, _ => Some (KvsSpec.CreateBucket b)
  | OpDeleteBucket, Some b, _, _ => Some (KvsSpec.DeleteBucket b)
  | OpCreate, Some b, Some k, Some l =>
      Some (KvsSpec.CreateObject (mkObject (mkID b k) (mkInfo l (flag_size fl) (flag_sealedOffset fl) None)) false)
  | OpUpdate, Some b, Some k, Some l =>
      Some (KvsSpec.UpdateObject
              (mkObject (mkID b k) (mkInfo l (flag_size fl) (flag_sealedOffset fl) (Some ("Hello world" : str)))))
  | OpDelete, Some b, Some k, _ => Some (KvsSpec.DeleteObject (mkID b k))
  | OpList, Some b, Some k, _ => Some (KvsSpec.ListObjects (mkID b k) NUL)
  | _, _, _, _ => None
  end.

(** The object with its key as location, and the request with such an object. *)
Definition located_at_key (o : Object) : Object :=
  mkObject (id o) (mkInfo (key (id o)) (osize (info o)) (sealedOffset (info o)) (metadata (info o))).

Definition performed_request (a : KvsSpec.op) : KvsSpec.op :=
  match a with
  | KvsSpec.CreateObject o f => KvsSpec.CreateObject (located_at_key o) f
  | KvsSpec.UpdateObject o => KvsSpec.UpdateObject (located_at_key o)
  | a => a
  end.

(** It is the one that was asked for unless a location other than the key was. *)
Lemma performed_request_same op fl req :
  cmd_request op fl = Some req ->
  (performed_request req = req <-> (op = OpCreate \/ op = OpUpdate -> fl_location fl = fl_key fl)).
Proof.
  destruct fl as [sa sp o fb fk floc fs fo]. unfold cmd_request. cbn [fl_bucket fl_key fl_location].
  destruct op, fb as [b|], fk as [k|], floc as [l|]; intros [= <-];
    try (split; [intros _ [E|E]; discriminate E|done]).
  all: split; [intros [= ->] _; done|intros Hl]; assert (Some l = Some k) as [= ->] by (apply Hl; tauto); done.
Qed.

(** What is printed for the result of a request, and whether it succeeded. *)
Definition cmd_result (op : Operation) (r : KvsSpec.res) : list line * Z :=
  let failed st := Err (AbslUnparseFlag op ++ ": " ++ message st) in
  let success := Out (AbslUnparseFlag op ++ ": Success") in
  match r with
  | KvsSpec.RListing (Value (objects, _)) => (map print_object objects ++ [success], EXIT_SUCCESS)
  | KvsSpec.RListing (Error st) =>
      ([Err ("Unable to query metadata server: " ++ message st)] ++ [failed st], EXIT_FAILURE)
  | KvsSpec.RStatus st => if ok st then ([success], EXIT_SUCCESS) else ([failed st], EXIT_FAILURE)
  | _ => ([], EXIT_FAILURE)
  end.

Section exact.
Context {S : Type} `{MDService S}.
Implicit Types (c : MetadataService) (s : S) (m : KvsSpec.state).

Lemma new_cache_empty db b k : is_ok (kvs_lookup b k (newKVS db)) = false.
Proof.
  pose proof (kvs_lookup_entry _ _ b k (newKVS_abs db)) as Hl.
  destruct (kvs_lookup b k (newKVS db)) as [o|st]; [|done]. destruct Hl as (x & Hx & _). exfalso.
  unfold entry in Hx. destruct db as [nm|].
  - rewrite lookup_singleton in Hx. case_decide; cbn in Hx; by rewrite ?lookup_empty in Hx.
  - by rewrite lookup_empty in Hx.
Qed.

Lemma new_coherent u a db m : coherent (mkService Connected (newKVS db) true u a) m.
Proof.
  eexists. split; [apply newKVS_abs|]. intros b k i He. exfalso.
  pose proof (new_cache_empty db b k) as Hl. pose proof (kvs_lookup_entry _ _ b k (newKVS_abs db)) as Hk.
  destruct (kvs_lookup b k (newKVS db)) as [o|st]; [done|].
  by rewrite Hk in He.
Qed.

(** The switch performs the request with the key as location. *)
Lemma perform_exact op fl req c s m :
  svc_abs s m -> coherent c m -> is_connected c = true -> cache_safe c (performed_request req) ->
  cmd_request op fl = Some req ->
  require (needs op fl) = None /\
  exists s' m' r st printed, perform op fl c s = (s', st, printed) /\ svc_abs s' m' /\
    KvsSpec.step m (performed_request req) m' r /\
    cmd_result op r =
      (printed ++ [if ok st then Out (AbslUnparseFlag op ++ ": Success") else Err (AbslUnparseFlag op ++ ": " ++ message st)],
       if ok st then EXIT_SUCCESS else EXIT_FAILURE).
Proof.
  intros Ha Hc Hn Hs Hreq.
  destruct (client_exec_sim (performed_request req) false c s m Ha Hc Hn Hs) as (c' & s' & m' & r & E & Hst & Ha' & _).
  rewrite plain_sent in Hst.
  2: { unfold cmd_request in Hreq. by destruct op, (fl_bucket fl), (fl_key fl), (fl_location fl); simplify_eq/=. }
  destruct fl as [sa sp o fb fk floc fs fo]. unfold cmd_request in Hreq.
  cbn [fl_bucket fl_key fl_location] in Hreq.
  assert (Hstat : forall (x : MetadataService * S * Status),
    (let '(c, s, r) := x in (c, s, KvsSpec.RStatus r)) = (c', s', r) ->
    exists s' m' r st printed, (let '(_, s, st) := x in (s, st, [])) = (s', st, printed) /\ svc_abs s' m' /\
      KvsSpec.step m (performed_request req) m' r /\ cmd_result op r =
        (printed ++ [if ok st then Out (AbslUnparseFlag op ++ ": Success") else Err (AbslUnparseFlag op ++ ": " ++ message st)],
         if ok st then EXIT_SUCCESS else EXIT_FAILURE)).
  { intros [[c1 s1] st] [= <- <- <-]. exists s1, m', (KvsSpec.RStatus st), st, []. split; [done|]. split; [done|].
    split; [done|]. cbn [cmd_result app]. by destruct (ok st). }
  destruct op, fb as [b|], fk as [k|], floc as [l|]; try discriminate Hreq; injection Hreq as <-;
    (split; [reflexivity|]); try (apply Hstat; exact E).
  all: cbn [performed_request] in Hst; cbn [performed_request client_exec bucket key] in E; unfold perform, listPrefix_all; cbn [flag_bucket flag_key fl_bucket fl_key default].
  all: unfold flag_bucket, flag_key, default, id; cbn [fl_bucket fl_key from_option]; unfold Datatypes.id.
  all: assert (Herr : forall st, r = KvsSpec.RListing (Error st) -> st = KvsSpec.no_bucket b) by
    (intros st ->; destruct Hst as [_ Hst]; cbn [bucket] in Hst; destruct (m !! b);
     [by destruct Hst as (? & ? & ? & _)|by injection Hst]).
  all: destruct (listPrefix b k NUL c s) as [[c1 s1] [[objs cps]|st]]; injection E as <- <- <-;
    [|rewrite (Herr st eq_refl) in *; unfold from_status, KvsSpec.no_bucket, NotFoundError; rewrite ok_error by done];
    (eexists _, m', _, _, _; split; [reflexivity|]; split; [exact Ha'|]; split; [exact Hst|]);
    cbn [cmd_result fst app]; unfold KvsSpec.no_bucket, NotFoundError; rewrite ?ok_error by done; reflexivity.
Qed.
End exact.

(** ** Properties *)

(** C25: the command line client performs the requested operation, but stores
    the key as location. With a reachable metadata service and an operation, a call
    with all flags the operation needs changes the store and answers as the store's
    operation does: it prints the listed objects or the error and exits with 0
    exactly when the operation succeeded; a call with a flag missing changes nothing and
    exits with 1. The operation is the requested one except that Create and Update
    ignore the value of --location: the object gets its key as location, so that they
    do what was asked for exactly if the two flags agree. *)
Theorem cmd_main_exact (S : Type) `{MDService S} assertions db uuid fl op (s : S) m :
  svc_abs s m -> fl_operation fl = Some op ->
  exists s' m' code connecting out,
    cmd_main assertions db ChannelReady uuid fl s = Ret (s', code, connecting :: out) /\ svc_abs s' m' /\
    match cmd_request op fl with
    | None => m' = m /\ code = EXIT_FAILURE
    | Some req =>
        (exists r, KvsSpec.step m (performed_request req) m' r /\ (out, code) = cmd_result op r) /\
        (performed_request req = req <-> (op = OpCreate \/ op = OpUpdate -> fl_location fl = fl_key fl))
    end.
Proof.
  intros Ha Hop. unfold cmd_main. rewrite Hop, operation_roundtrip. unfold connect, newMetadataService.
  cbn [ms_connectionState ms_channel ms_mdsCache ms_uuid ms_serverAddress]. rewrite andb_false_r.
  set (address := _ ++ _). set (c := mkService Connected (newKVS db) true uuid address).
  change (ok OkStatus) with true. cbn [obind negb].
  destruct (cmd_request op fl) as [req|] eqn:Hreq.
  - assert (Hsafe : cache_safe c (performed_request req)).
    { destruct req; try exact I; [intros ky|]; apply new_cache_empty. }
    destruct (perform_exact op fl req c s m Ha (new_coherent uuid address db m) eq_refl Hsafe Hreq)
      as (Hnone & s' & m' & r & st & printed & E & Ha' & Hst & Hres).
    rewrite Hnone, E. destruct (ok st) eqn:Eok; cbn [negb];
      (eexists s', m', _, _, _; split; [reflexivity|]; split; [exact Ha'|];
       split; [exists r; split; [exact Hst|done]|exact (performed_request_same op fl req Hreq)]).
  - assert (Hmiss : exists l, require (needs op fl) = Some l).
    { unfold cmd_request in Hreq. unfold needs, need_bucket, need_key, need_location.
      destruct op, (fl_bucket fl), (fl_key fl), (fl_location fl); try discriminate Hreq; by eexists. }
    destruct Hmiss as [l ->]. by eexists s, m, _, _, _.
Qed.

(** ** Witness *)

#[local] Existing Instance the_stub.
#[local] Existing Instance the_service.

Definition demo_flags : Flags :=
  mkFlags None None (Some OpCreate) (Some ("bkt" : str)) (Some ("k" : str)) (Some ("geds://h:1" : str)) (Some 5) (Some 5).

Lemma cmd_main_exact_witness :
  exists s' m' connecting, cmd_main true None ChannelReady "uuid" demo_flags (newServer (Some ("bkt" : str))) =
      Ret (s', 0, [connecting; Out "Create: Success"]) /\
    svc_abs s' m' /\ m' = {[("bkt" : str) := {[("k" : str) := mkInfo "k" 5 5 None]}]}.
Proof.
  destruct (cmd_main_exact Server true None "uuid" demo_flags OpCreate (newServer (Some ("bkt" : str)))
              {[("bkt" : str) := ∅]})
    as (s' & m' & code & connecting & out & E & Ha & (r & Hst & Hr) & _);
    [apply (newKVS_abs (Some ("bkt" : str)))|reflexivity|].
  cbn [cmd_request performed_request located_at_key demo_flags fl_bucket fl_key fl_location KvsSpec.step id bucket key info default
    osize sealedOffset metadata] in Hst.
  rewrite lookup_singleton_eq in Hst. destruct Hst as [-> ->].
  injection Hr as -> ->. exists s', (<[("bkt" : str) := <[("k" : str) := mkInfo "k" 5 5 None]> ∅]> {[("bkt" : str) := ∅]}), connecting.
  split; [exact E|]. split; [exact Ha|]. by rewrite insert_singleton_eq.
Defined.
