(* ===== verification/JavaFile.v ===== *)
(** * The Java binding of files

    The class [GEDSFile] of the Java binding (src/src/java/com/ibm/geds/GEDSFile.java)
    and the native functions it calls (src/src/java/com_ibm_geds_GEDSFile.cpp), on
    the handles of a process: what a Java program sees of a file, with the Java
    exceptions, the end-of-file convention and the conversion between Java's
    signed integers and [size_t]. The calls of the Java native interface are
    those of its documentation; timers are left out. *)

From Stdlib Require Import Ascii ZArith Lia.
From stdpp Require Import base gmap sets list strings numbers.
From S2P Require Import Prelude Bytes Decimal Status StdMap Path Object FileSet MDSKVSBucket MDSKVS S3Endpoint Rpc.
From S2P Require Import MetadataServer MetadataService LocalFile ConcurrentMap GedsNames FileHandle.
From S2P Require Import Node Handles HandleIO GEDS GEDSCreate GEDSObjects GEDSCopy.

Open Scope Z_scope.
Open Scope list_scope.

#[local] Opaque to_string.

(** ** Java values *)

Inductive jexception :=
| NullPointerException
| IOException
| RuntimeException
| FileNotFoundException
| IllegalArgumentException.

(** What a call from Java gives: an exception that is pending when a native
    function returns hides the value it returns. *)
Inductive jresult (A : Type) :=
| JReturn (a : A)
| JThrow (e : jexception) (msg : str).
Arguments JReturn {A}.
Arguments JThrow {A}.

(** Conversions of C++ to the types of Java. *)
Definition jint (x : Z) : Z := (x + 2 ^ 31) mod 2 ^ 32 - 2 ^ 31.

Definition LONG_MAX : Z := 2 ^ 63 - 1.

(** The native memory a Java program points into: the [GEDSFile] objects on the
    native heap by address, each with the handle it holds, and the values that
    were added to the histograms of the binding, by label. *)
Record Jvm := mkJvm {
  jv_files : gmap Z nat;
  jv_next : Z;
  jv_counted : list (str * Z)
}.

Definition count (label : str) (v : Z) (j : Jvm) : Jvm :=
  mkJvm (jv_files j) (jv_next j) (jv_counted j ++ [(label, v)]).

(** [new GEDSFile(file)] *)
Definition new_native (h : nat) (j : Jvm) : Z * Jvm :=
  (jv_next j, mkJvm (<[jv_next j := h]> (jv_files j)) (jv_next j + 1) (jv_counted j)).

Definition delete_native (p : Z) (j : Jvm) : Jvm :=
  mkJvm (delete p (jv_files j)) (jv_next j) (jv_counted j).

Definition bytes_read : str := "Java GEDSFile: bytes read".
Definition bytes_written : str := "Java GEDSFile: bytes written".
Definition metadata_bytes : str := "Java GEDSFile: setMetadata bytes".

(** The characters of a C string: up to the first zero byte. *)
Fixpoint c_str (s : str) : str :=
  match s with
  | [] => []
  | c :: s => if bool_decide (c = zero_byte) then [] else c :: c_str s
  end.

(** The range of an array a callee is given with a pointer and a [size_t]; a range
    that leaves the array is undefined. *)
Definition array_range (buffer : str) (offset length : Z) : option str :=
  if (0 <=? offset) && (offset + u64 length <=? len buffer) then Some (slice offset (u64 length) buffer) else None.

Definition null_pointer {A} : jresult A := JThrow NullPointerException "The pointer representation is NULL!".
Definition null_buffer {A} : jresult A := JThrow NullPointerException "The buffer is NULL!".
Definition no_array {A} : jresult A := JThrow RuntimeException "Unable to obtain primitive array.".

Section native.
Context {W X K T : Type} `{MDStub W} `{S3Client X} `{Kernel K} `{Transfers T}.
Context (fuel : nat).
Implicit Types (j : Jvm).

(** [reinterpret_cast<GEDSFile *>(nativePtr)], dereferenced. *)
Definition the_native (p : Z) j : M W X K T nat :=
  fun n => match jv_files j !! p with Some h => Done h n | None => Crash end.

(** [if (!status.ok()) throwIOException(...)] *)
Definition io_status (st : Status) : jresult unit :=
  if negb (ok st) then JThrow IOException (message st) else JReturn tt.

Definition closeNative (nativePtr : Z) j : M W X K T (Jvm * jresult unit) :=
  if nativePtr =? 0 then ret (j, JReturn tt) else
  let* file := the_native nativePtr j in
  close file ;;
  ret (delete_native nativePtr j, JReturn tt).

(** [metadata->empty()] on an empty optional is undefined. *)
Definition metadataNative (nativePtr : Z) j : M W X K T (Jvm * jresult (option str)) :=
  if nativePtr =? 0 then ret (j, null_pointer) else
  let* file := the_native nativePtr j in
  let* metadata := h_metadata_of file in
  match metadata with
  | None => fun _ => Crash
  | Some [] => ret (j, JReturn None)
  | Some m => ret (j, JReturn (Some (c_str m)))
  end.

(** [pinned]: whether [GetPrimitiveArrayCritical] succeeds. *)
Definition metadataAsByteArrayNative (pinned : bool) (nativePtr : Z) j : M W X K T (Jvm * jresult (option str)) :=
  if nativePtr =? 0 then ret (j, null_pointer) else
  let* file := the_native nativePtr j in
  let* metadata := h_metadata_of file in
  match metadata with
  | None => fun _ => Crash
  | Some [] => ret (j, JReturn None)
  | Some resp => ret (j, if negb pinned then no_array else JReturn (Some resp))
  end.

Definition setMetadataNative_String (nativePtr : Z) (jmetadata : option str) (seal : bool) j :
    M W X K T (Jvm * jresult unit) :=
  if nativePtr =? 0 then ret (j, null_pointer) else
  let* file := the_native nativePtr j in
  match jmetadata with
  | None => let* status := h_setMetadata file None seal in ret (j, io_status status)
  | Some m =>
      let metadata := c_str m in
      let* status := h_setMetadata file (Some metadata) seal in
      ret (count metadata_bytes (len metadata) j, io_status status)
  end.

(** The metadata is copied from the given range; a negative length makes the
    constructor of the string throw. *)
Definition set_metadata_range (file : nat) (buffer : str) (offset length : Z) (seal : bool) j :
    M W X K T (Jvm * jresult unit) :=
  match array_range buffer offset length with
  | None => fun _ => Crash
  | Some m => let* status := h_setMetadata file (Some m) seal in ret (j, io_status status)
  end.

(** The buffer is the memory at the address; [None] is the null pointer. *)
Definition setMetadataNative_direct (nativePtr : Z) (buffer : option str) (offset length : Z) (seal : bool) j :
    M W X K T (Jvm * jresult unit) :=
  if nativePtr =? 0 then ret (j, null_pointer) else
  let* file := the_native nativePtr j in
  match buffer with
  | None => let* status := h_setMetadata file None seal in ret (j, io_status status)
  | Some buf => set_metadata_range file buf offset length seal j
  end.

Definition setMetadataNative_array (pinned : bool) (nativePtr : Z) (jBuffer : option str) (offset length : Z)
    (seal : bool) j : M W X K T (Jvm * jresult unit) :=
  if nativePtr =? 0 then ret (j, null_pointer) else
  let* file := the_native nativePtr j in
  match jBuffer with
  | None => let* status := h_setMetadata file None seal in ret (j, io_status status)
  | Some buffer => if negb pinned then ret (j, no_array) else set_metadata_range file buffer offset length seal j
  end.

(** [GEDSFile::size()] is 0 when the handle has an error. *)
Definition sizeNative (nativePtr : Z) j : M W X K T (Jvm * jresult Z) :=
  if nativePtr =? 0 then ret (j, null_pointer) else
  let* file := the_native nativePtr j in
  let* r := h_size file in
  let* x := the_handle file in
  let size := match r with Value n => n | Error _ => 0 end in
  if LONG_MAX <? size then
    ret (j, JThrow RuntimeException ("Unable to represent the file size for " ++ h_bucket x ++ "/" ++ h_key x ++
                                     " as a long. File size: " ++ to_string size))
  else ret (j, JReturn size).

(** The common part of the two reads: [&buffer[offset]] is filled, and the end of
    the file is -1. *)
Definition read_into (file : nat) (position : Z) (buffer : str) (offset length : Z) j :
    M W X K T (Jvm * str * jresult Z) :=
  let* readStatus := gf_readBytes fuel file (u64 position) (u64 length) in
  match readStatus with
  | Error st => ret (j, buffer, JThrow IOException (message st))
  | Value (n, data) =>
      if (0 <=? offset) && (offset + len data <=? len buffer) then
        ret (count bytes_read n j, write_at offset data buffer,
             JReturn (if (n =? 0) && (0 <? length) then -1 else jint n))
      else fun _ => Crash
  end.

Definition readNative_array (pinned : bool) (nativePtr position : Z) (jBuffer : str) (offset length : Z) j :
    M W X K T (Jvm * str * jresult Z) :=
  if nativePtr =? 0 then ret (j, jBuffer, null_pointer) else
  let* file := the_native nativePtr j in
  if negb pinned then ret (j, jBuffer, no_array) else
  read_into file position jBuffer offset length j.

Definition readNative_direct (nativePtr position : Z) (buffer : option str) (offset length : Z) j :
    M W X K T (Jvm * str * jresult Z) :=
  if nativePtr =? 0 then ret (j, default [] buffer, null_pointer) else
  match buffer with
  | None => ret (j, [], null_buffer)
  | Some buf => let* file := the_native nativePtr j in read_into file position buf offset length j
  end.

(** The common part of the two writes. Only a local file looks at the bytes; they
    are counted whether they were written or not. *)
Definition write_from (file : nat) (position : Z) (buffer : str) (offset length : Z) j :
    M W X K T (Jvm * jresult unit) :=
  let* writeStatus :=
    match array_range buffer offset length with
    | Some bytes => h_writeBytes fuel file bytes (u64 position) (u64 length)
    | None =>
        let* w := h_isWriteable file in
        if w then fun _ => Crash else h_writeBytes fuel file [] (u64 position) (u64 length)
    end in
  ret (count bytes_written (u64 length) j, io_status writeStatus).

Definition writeNative_array (pinned : bool) (nativePtr position : Z) (jBuffer : str) (offset length : Z) j :
    M W X K T (Jvm * jresult unit) :=
  if nativePtr =? 0 then ret (j, null_pointer) else
  let* file := the_native nativePtr j in
  if negb pinned then ret (j, no_array) else
  write_from file position jBuffer offset length j.

Definition writeNative_direct (nativePtr position : Z) (buffer : option str) (offset length : Z) j :
    M W X K T (Jvm * jresult unit) :=
  if nativePtr =? 0 then ret (j, null_pointer) else
  match buffer with
  | None => ret (j, null_buffer)
  | Some buf => let* file := the_native nativePtr j in write_from file position buf offset length j
  end.

Definition sealNative (nativePtr : Z) j : M W X K T (Jvm * jresult unit) :=
  if nativePtr =? 0 then ret (j, null_pointer) else
  let* file := the_native nativePtr j in
  let* status := h_seal file in
  ret (j, io_status status).

Definition truncateNative (nativePtr targetSize : Z) j : M W X K T (Jvm * jresult unit) :=
  if nativePtr =? 0 then ret (j, null_pointer) else
  let* file := the_native nativePtr j in
  let* status := h_truncate file (u64 targetSize) in
  ret (j, io_status status).

Definition isWritableNative (nativePtr : Z) j : M W X K T (Jvm * jresult bool) :=
  if nativePtr =? 0 then ret (j, null_pointer) else
  let* file := the_native nativePtr j in
  let* result := h_isWriteable file in
  ret (j, JReturn result).
End native.

(** ** The class *)

(** A [GEDSFile] of Java; its [nativePtr] is 0 once it is closed. *)
Record GEDSFile := mkGEDSFile {
  gj_nativePtr : Z;
  gj_bucket : str;
  gj_key : str
}.

(** A [ByteBuffer]: the memory behind it and where its element 0 lies in it. Of a
    direct buffer the class sees the address of that element, of another buffer
    the whole array. *)
Record ByteBuffer := mkByteBuffer {
  bb_memory : str;
  bb_arrayOffset : Z;
  bb_position : Z;
  bb_limit : Z;
  bb_direct : bool
}.

Definition bb_remaining (b : ByteBuffer) : Z := bb_limit b - bb_position b.
Definition bb_at_address (b : ByteBuffer) : str := drop (Z.to_nat (bb_arrayOffset b)) (bb_memory b).
Definition bb_set_memory (m : str) (b : ByteBuffer) : ByteBuffer :=
  mkByteBuffer m (bb_arrayOffset b) (bb_position b) (bb_limit b) (bb_direct b).
Definition bb_set_at_address (m : str) (b : ByteBuffer) : ByteBuffer :=
  bb_set_memory (take (Z.to_nat (bb_arrayOffset b)) (bb_memory b) ++ m) b.
Definition bb_set_position (p : Z) (b : ByteBuffer) : ByteBuffer :=
  mkByteBuffer (bb_memory b) (bb_arrayOffset b) p (bb_limit b) (bb_direct b).

Definition closed_file {A} : jresult A := JThrow IOException "The file is already closed!".
Definition illegal {A} (m : str) : jresult A := JThrow IllegalArgumentException m.

(** [checkBuffer]: the argument it complains about. *)
Definition checkBuffer (buffer : str) (offset length : Z) : option str :=
  if length <? 0 then Some ("Invalid length!" : str)
  else if offset <? 0 then Some ("Invalid offset!" : str)
  else if len buffer <? offset + length then Some ("The buffer is too small!" : str)
  else None.

Definition checkPosition (position : Z) : option str :=
  if position <? 0 then Some ("Invalid position!" : str) else None.

Section class.
Context {W X K T : Type} `{MDStub W} `{S3Client X} `{Kernel K} `{Transfers T}.
Context (fuel : nat) (pinned : bool).
Implicit Types (j : Jvm) (f : GEDSFile).

Definition isClosed f : bool := gj_nativePtr f =? 0.

Definition jf_close f j : M W X K T (GEDSFile * Jvm * jresult unit) :=
  if negb (isClosed f) then
    let* r := closeNative (gj_nativePtr f) j in
    ret (mkGEDSFile 0 (gj_bucket f) (gj_key f), fst r, snd r)
  else ret (f, j, JReturn tt).

Definition jf_read f (position : Z) (buffer : str) (offset length : Z) j : M W X K T (Jvm * str * jresult Z) :=
  if isClosed f then ret (j, buffer, closed_file) else
  match checkPosition position with
  | Some m => ret (j, buffer, illegal m)
  | None =>
      match checkBuffer buffer offset length with
      | Some m => ret (j, buffer, illegal m)
      | None => readNative_array fuel pinned (gj_nativePtr f) position buffer offset length j
      end
  end.

Definition jf_write f (position : Z) (buffer : str) (offset length : Z) j : M W X K T (Jvm * jresult unit) :=
  if isClosed f then ret (j, closed_file) else
  match checkPosition position with
  | Some m => ret (j, illegal m)
  | None =>
      match checkBuffer buffer offset length with
      | Some m => ret (j, illegal m)
      | None => writeNative_array fuel pinned (gj_nativePtr f) position buffer offset length j
      end
  end.

Definition jf_read_buffer f (position : Z) (b : ByteBuffer) j : M W X K T (Jvm * ByteBuffer * jresult Z) :=
  if isClosed f then ret (j, b, closed_file) else
  let offset := bb_position b in
  let length := bb_remaining b in
  if length =? 0 then ret (j, b, JReturn 0) else
  let* r :=
    if bb_direct b then
      let* r := readNative_direct fuel (gj_nativePtr f) position (Some (bb_at_address b)) offset length j in
      let '(j, m, numBytes) := r in ret (j, bb_set_at_address m b, numBytes)
    else
      let* r := jf_read f position (bb_memory b) offset length j in
      let '(j, m, numBytes) := r in ret (j, bb_set_memory m b, numBytes) in
  let '(j, b, numBytes) := r in
  ret (j, match numBytes with
          | JReturn n => if 0 <? n then bb_set_position (offset + n) b else b
          | JThrow _ _ => b
          end, numBytes).

Definition jf_write_buffer f (position : Z) (b : ByteBuffer) j : M W X K T (Jvm * ByteBuffer * jresult Z) :=
  if isClosed f then ret (j, b, closed_file) else
  let offset := bb_position b in
  let length := bb_remaining b in
  if length =? 0 then ret (j, b, JReturn 0) else
  let* r :=
    if bb_direct b
    then writeNative_direct fuel (gj_nativePtr f) position (Some (bb_at_address b)) offset length j
    else jf_write f position (bb_memory b) offset length j in
  match snd r with
  | JThrow e m => ret (fst r, b, JThrow e m)
  | JReturn _ => ret (fst r, bb_set_position (offset + length) b, JReturn length)
  end.

Definition jf_metadata f j : M W X K T (Jvm * jresult (option str)) :=
  if isClosed f then ret (j, closed_file) else metadataNative (gj_nativePtr f) j.

Definition jf_setMetadata f (buffer : option str) (offset length : Z) (seal : bool) j :
    M W X K T (Jvm * jresult unit) :=
  if isClosed f then ret (j, closed_file) else
  match buffer with
  | None => setMetadataNative_array pinned (gj_nativePtr f) None 0 0 seal j
  | Some b =>
      match checkBuffer b offset length with
      | Some m => ret (j, illegal m)
      | None => setMetadataNative_array pinned (gj_nativePtr f) (Some b) offset length seal j
      end
  end.

Definition jf_size f j : M W X K T (Jvm * jresult Z) :=
  if isClosed f then ret (j, closed_file) else sizeNative (gj_nativePtr f) j.

Definition jf_seal f j : M W X K T (Jvm * jresult unit) :=
  if isClosed f then ret (j, closed_file) else sealNative (gj_nativePtr f) j.

Definition jf_truncate f (targetSize : Z) j : M W X K T (Jvm * jresult unit) :=
  if isClosed f then ret (j, closed_file) else
  if targetSize <? 0 then ret (j, illegal "Invalid target size!") else truncateNative (gj_nativePtr f) targetSize j.

Definition jf_isWriteable f j : M W X K T (Jvm * jresult bool) :=
  if isClosed f then ret (j, closed_file) else isWritableNative (gj_nativePtr f) j.
End class.

(** ** Lemmas *)

Lemma array_range_inside buffer offset length :
  0 <= offset -> 0 <= length -> offset + length <= len buffer -> len buffer < 2 ^ 63 ->
  array_range buffer offset length = Some (slice offset length buffer).
Proof.
  intros Ho Hl Hb Hm. unfold array_range. rewrite u64_small by (unfold is_u64, two64; lia).
  by rewrite !(proj2 (Z.leb_le _ _)) by lia.
Qed.

Lemma checkBuffer_inside buffer offset length :
  checkBuffer buffer offset length = None <-> 0 <= offset /\ 0 <= length /\ offset + length <= len buffer.
Proof.
  unfold checkBuffer. destruct (Z.ltb_spec length 0); [split; [done|lia]|].
  destruct (Z.ltb_spec offset 0); [split; [done|lia]|].
  destruct (Z.ltb_spec (len buffer) (offset + length)); [split; [done|lia]|]. split; [lia|done].
Qed.

Lemma jint_small x : 0 <= x < 2 ^ 31 -> jint x = x.
Proof. intros. unfold jint. rewrite Z.mod_small; lia. Qed.

(** Java arrays and positions. *)
Definition java_array (buffer : str) : Prop := len buffer < 2 ^ 31.

Section reads.
Context {W X K T : Type} `{MDStub W} `{S3Client X} `{KernelFair K} `{Transfers T}.
Context (fuel : nat).
Implicit Types (j : Jvm) (f : GEDSFile) (n : Node W X K T).

(** The open Java file [f] on a local file with the contents [d]. *)
Record java_open f h i (d : str) j n : Prop := {
  jo_pointer : gj_nativePtr f <> 0;
  jo_native : jv_files j !! gj_nativePtr f = Some h;
  jo_file : file_at h i d n
}.

(** The end of the file is -1. *)
Definition jread_result (position length : Z) (d : str) : Z :=
  let m := Z.max 0 (Z.min length (len d - position)) in if (m =? 0) && (0 <? length) then -1 else m.

(** Writing any number of bytes. *)
Definition written (position : Z) (bytes d : str) : str :=
  if decide (bytes = []) then d else write_at position bytes d.

Lemma file_write_any h i d bytes pos n :
  file_at h i d n -> 0 <= pos -> pos + len bytes < INT64_MAX ->
  (interrupts (n_kernel n) + List.length bytes <= fuel)%nat ->
  exists n', h_writeBytes fuel h bytes pos (len bytes) n = Done OkStatus n' /\
    framed n n' /\ file_at h i (written pos bytes d) n' /\ touches h i n n'.
Proof.
  intros (x & f & s & Hx & Hk & Hwf & Hd) Hp Hm Hf.
  destruct (lf_writeBytes_spec fuel (with_data d f) bytes pos (n_kernel n)) as (f' & kern & E & Hwf' & _ & _ & Hdata & Hkern);
    [done..|]. cbn [lf_data with_data] in Hdata.
  eexists. split; [|apply (file_step h i d (written pos bytes d) f x s kern n Hx Hk Hkern f'); done].
  unfold h_writeBytes. unfold bind at 1. rewrite (resolve_local h n x f i s) by done. cbn [fst snd]. rewrite Hk.
  unfold local_writeBytes. erewrite (local_update_step h _ n x f i s f' kern); [|done..|by rewrite Hd].
  unfold written. by rewrite Hdata.
Qed.

Lemma read_into_local f h i d position buffer offset length j n :
  java_open f h i d j n -> java_array buffer -> 0 <= position < INT64_MAX ->
  0 <= offset -> 0 <= length -> offset + length <= len buffer ->
  Z.of_nat (interrupts (n_kernel n)) + len d <= Z.of_nat fuel ->
  exists n', read_into fuel h position buffer offset length j n =
      Done (count bytes_read (Z.max 0 (Z.min length (len d - position))) j,
            write_at offset (slice position length d) buffer, JReturn (jread_result position length d)) n' /\
    framed n n' /\ file_at h i d n' /\ touches h i n n'.
Proof.
  intros [Hp Hj Hf] Ha Hpos Ho Hl Hb Hfuel. unfold java_array, INT64_MAX in *.
  destruct (file_read fuel h i d position length n Hf Hpos Hl) as (n' & E & Hfr & Hfa & Ht); [unfold len in *; lia|].
  exists n'. split; [|done]. unfold read_into, bind. rewrite !u64_small by (unfold is_u64, two64; lia). rewrite E.
  rewrite (proj2 (Z.leb_le 0 offset)) by lia.
  pose proof (slice_length_le position length d (proj1 Hpos) Hl).
  rewrite (proj2 (Z.leb_le _ _)) by lia. cbn [andb]. unfold ret, jread_result.
  do 2 f_equal. f_equal. case_match; [done|]. apply jint_small. lia.
Qed.

Lemma write_from_local f h i d position buffer offset length j n :
  java_open f h i d j n -> java_array buffer -> 0 <= position -> position + length < INT64_MAX ->
  0 <= offset -> 0 <= length -> offset + length <= len buffer ->
  Z.of_nat (interrupts (n_kernel n)) + length <= Z.of_nat fuel ->
  exists n', write_from fuel h position buffer offset length j n =
      Done (count bytes_written length j, JReturn tt) n' /\
    framed n n' /\ file_at h i (written position (slice offset length buffer) d) n' /\ touches h i n n'.
Proof.
  intros [Hp Hj Hf] Ha Hpos Hmax Ho Hl Hb Hfuel. unfold java_array, INT64_MAX in *.
  assert (Hs : len (slice offset length buffer) = length) by (by apply slice_length).
  destruct (file_write_any h i d (slice offset length buffer) position n Hf Hpos) as (n' & E & Hfr & Hfa & Ht);
    rewrite ?Hs; try (unfold INT64_MAX; lia); [unfold len in Hs; lia|].
  exists n'. split; [|done]. unfold write_from, bind. rewrite array_range_inside by lia.
  rewrite !u64_small by (unfold is_u64, two64; lia). rewrite Hs in E. by rewrite E.
Qed.
End reads.

(** ** Programs *)

(** Reads and writes of a Java program, with the arrays it passes. *)
Inductive jcall :=
| JRead (position : Z) (buffer : str) (offset length : Z)
| JWrite (position : Z) (buffer : str) (offset length : Z).

Inductive janswer :=
| ARead (buffer : str) (r : jresult Z)
| AWrite (r : jresult unit).

(** The calls on an array of bytes. *)
Definition jarray_step (c : jcall) (d : str) : str * janswer :=
  match c with
  | JRead position buffer offset length =>
      match checkPosition position, checkBuffer buffer offset length with
      | Some m, _ | None, Some m => (d, ARead buffer (illegal m))
      | None, None =>
          (d, ARead (write_at offset (slice position length d) buffer) (JReturn (jread_result position length d)))
      end
  | JWrite position buffer offset length =>
      match checkPosition position, checkBuffer buffer offset length with
      | Some m, _ | None, Some m => (d, AWrite (illegal m))
      | None, None => (written position (slice offset length buffer) d, AWrite (JReturn tt))
      end
  end.

Fixpoint jarray_run (cs : list jcall) (d : str) : str * list janswer :=
  match cs with
  | [] => (d, [])
  | c :: cs => let '(d, a) := jarray_step c d in
               let '(d, rest) := jarray_run cs d in (d, a :: rest)
  end.

(** Positions below the largest offset of a file, and enough steps for calls that
    are interrupted [k] times and move a byte at a time. *)
Definition jcall_fits (fuel k : nat) (c : jcall) (d : str) : Prop :=
  match c with
  | JRead position buffer offset length =>
      java_array buffer /\ position < INT64_MAX /\ Z.of_nat k + len d <= Z.of_nat fuel
  | JWrite position buffer offset length =>
      java_array buffer /\ position + length < INT64_MAX /\ Z.of_nat k + length <= Z.of_nat fuel
  end.

Fixpoint jcalls_fit (fuel k : nat) (cs : list jcall) (d : str) : Prop :=
  match cs with
  | [] => True
  | c :: cs => jcall_fits fuel k c d /\ jcalls_fit fuel k cs (fst (jarray_step c d))
  end.

Section programs.
Context {W X K T : Type} `{MDStub W} `{S3Client X} `{Kernel K} `{Transfers T}.
Context (fuel : nat).

Definition jcall_run (f : GEDSFile) (c : jcall) (j : Jvm) : M W X K T (Jvm * janswer) :=
  match c with
  | JRead position buffer offset length =>
      let* r := jf_read fuel true f position buffer offset length j in
      let '(j, buffer, r) := r in ret (j, ARead buffer r)
  | JWrite position buffer offset length =>
      let* r := jf_write fuel true f position buffer offset length j in
      ret (fst r, AWrite (snd r))
  end.

Fixpoint jcalls_run (f : GEDSFile) (cs : list jcall) (j : Jvm) : M W X K T (Jvm * list janswer) :=
  match cs with
  | [] => ret (j, [])
  | c :: cs => let* r := jcall_run f c j in
               let* rs := jcalls_run f cs (fst r) in
               ret (fst rs, snd r :: snd rs)
  end.
End programs.

Section refinement.
Context {W X K T : Type} `{MDStub W} `{S3Client X} `{KernelFair K} `{Transfers T}.
Context (fuel : nat).
Implicit Types (j : Jvm) (f : GEDSFile) (n : Node W X K T).

Lemma jcall_fits_mono k k' c d : (k' <= k)%nat -> jcall_fits fuel k c d -> jcall_fits fuel k' c d.
Proof. intros Hk. destruct c; simpl; intuition lia. Qed.

Lemma jcalls_fit_mono k k' cs d : (k' <= k)%nat -> jcalls_fit fuel k cs d -> jcalls_fit fuel k' cs d.
Proof.
  intros Hk. revert d. induction cs as [|c cs IH]; intros d; [done|]. intros [Hc Hcs].
  split; [by eapply jcall_fits_mono|by apply IH].
Qed.

Lemma java_open_step f h i d d' j j' n n' :
  java_open f h i d j n -> jv_files j' = jv_files j -> file_at h i d' n' -> java_open f h i d' j' n'.
Proof. intros [Hp Hj _] E Hf. constructor; [done|by rewrite E|done]. Qed.

Lemma checkPosition_inside p : checkPosition p = None <-> 0 <= p.
Proof. unfold checkPosition. destruct (Z.ltb_spec p 0); split; (done || lia). Qed.

(** One call. *)
Lemma jcall_exact f h i d c j n :
  java_open f h i d j n -> jcall_fits fuel (interrupts (n_kernel n)) c d ->
  exists j' n', jcall_run fuel f c j n = Done (j', snd (jarray_step c d)) n' /\
    java_open f h i (fst (jarray_step c d)) j' n' /\ framed n n'.
Proof.
  intros Ho Hfit. pose proof Ho as [Hp Hj Hf]. apply Z.eqb_neq in Hp.
  destruct c as [p b o l|p b o l]; cbn [jcall_run jarray_step]; unfold jf_read, jf_write, isClosed; rewrite Hp;
    (destruct (checkPosition p) as [m|] eqn:Ep;
       [exists j, n; split; [done|split; [done|apply framed_refl]]|apply checkPosition_inside in Ep]);
    (destruct (checkBuffer b o l) as [m|] eqn:Eb;
       [exists j, n; split; [done|split; [done|apply framed_refl]]|apply checkBuffer_inside in Eb as (Eo & El & Eb)]);
    cbn [jcall_fits] in Hfit; destruct Hfit as (Ha & Hpos & Hk).
  - destruct (read_into_local fuel f h i d p b o l j n Ho Ha (conj Ep Hpos) Eo El Eb Hk) as (n' & E & Hfr & Hfa & _).
    eexists (count bytes_read _ j), n'. split; [|split; [by apply (java_open_step f h i d d j _ n)|done]].
    unfold readNative_array, the_native, bind. rewrite Hp, Hj. cbn [negb]. rewrite E. done.
  - destruct (write_from_local fuel f h i d p b o l j n Ho Ha Ep Hpos Eo El Eb Hk) as (n' & E & Hfr & Hfa & _).
    eexists (count bytes_written _ j), n'. split; [|split; [by apply (java_open_step f h i d _ j _ n)|done]].
    unfold writeNative_array, the_native, bind. rewrite Hp, Hj. cbn [negb]. rewrite E. done.
Qed.

Lemma jcalls_exact f h i d cs j n :
  java_open f h i d j n -> jcalls_fit fuel (interrupts (n_kernel n)) cs d ->
  exists j' n', jcalls_run fuel f cs j n = Done (j', snd (jarray_run cs d)) n' /\
    java_open f h i (fst (jarray_run cs d)) j' n' /\ framed n n'.
Proof.
  revert d j n. induction cs as [|c cs IH]; intros d j n Ho Hfit; cbn [jcalls_run jarray_run].
  { exists j, n. split; [done|]. split; [done|apply framed_refl]. }
  destruct Hfit as [Hc Hcs]. destruct (jcall_exact f h i d c j n Ho Hc) as (j1 & n1 & E1 & Ho1 & Hfr1).
  destruct (jarray_step c d) as [d1 a]. cbn [fst snd] in *.
  destruct (IH d1 j1 n1 Ho1) as (j2 & n2 & E2 & Ho2 & Hfr2);
    [by eapply jcalls_fit_mono; [apply (fr_kernel _ _ Hfr1)|]|].
  destruct (jarray_run cs d1) as [d2 rest]. cbn [fst snd] in *.
  exists j2, n2. split; [|split; [done|by eapply framed_trans]].
  unfold bind at 1. rewrite E1. cbn [fst snd]. unfold bind at 1. rewrite E2. done.
Qed.
End refinement.

(** ** Properties *)

(** A Java program sees a local file as an array of bytes. Every sequence of
    reads and writes through an open Java file gives the answers of the array:
    negative positions, offsets and lengths and ranges outside the Java array are
    refused with an [IllegalArgumentException] and change nothing; a read fills
    exactly the requested part of the Java array as far as the file goes and
    returns the number of bytes, or -1 at the end of the file when bytes were
    asked for; and no call accesses memory outside the array, although the native
    functions themselves do not check the range. *)
Theorem java_file_exact (W X K T : Type) `{MDStub W} `{S3Client X} `{KernelFair K} `{Transfers T}
    fuel (f : GEDSFile) h i d calls j (n : Node W X K T) :
  java_open f h i d j n -> jcalls_fit fuel (interrupts (n_kernel n)) calls d ->
  exists j' n', jcalls_run fuel f calls j n = Done (j', snd (jarray_run calls d)) n' /\
    java_open f h i (fst (jarray_run calls d)) j' n'.
Proof.
  intros Ho Hfit. destruct (jcalls_exact fuel f h i d calls j n Ho Hfit) as (j' & n' & E & Ho' & _).
  by exists j', n'.
Qed.

(** Asking an object without metadata for its metadata is undefined: the emptiness
    of the string is tested, not that of the optional. *)
Theorem java_metadata_undefined (W X K T : Type) `{MDStub W} `{S3Client X} `{KernelFair K} `{Transfers T}
    (f : GEDSFile) h x j (n : Node W X K T) :
  gj_nativePtr f <> 0 -> jv_files j !! gj_nativePtr f = Some h -> n_heap n !! h = Some x ->
  h_metadata x = None -> match h_kind x with KReloc _ => False | _ => True end ->
  jf_metadata f j n = Crash.
Proof.
  intros Hp Hj Hx Hm Hk. apply Z.eqb_neq in Hp. unfold jf_metadata, isClosed, metadataNative. rewrite Hp.
  unfold the_native, h_metadata_of, resolve, the_handle, bind. rewrite Hj, Hx.
  destruct (h_kind x); done || (unfold ret; cbn [snd]; by rewrite Hm).
Qed.

(** A buffer that is not direct and does not begin at element 0 of its array, as
    [slice()] makes, is read into from the wrong place: into the array at the
    buffer's position, not at its offset in the array plus the position. *)
Theorem java_slice_misplaced (W X K T : Type) `{MDStub W} `{S3Client X} `{KernelFair K} `{Transfers T}
    fuel (f : GEDSFile) h i d b position j (n : Node W X K T) :
  java_open f h i d j n -> java_array (bb_memory b) -> bb_direct b = false -> 0 <= position < len d ->
  0 <= bb_position b -> bb_position b < bb_limit b <= len (bb_memory b) ->
  Z.of_nat (interrupts (n_kernel n)) + len d <= Z.of_nat fuel ->
  exists j' n' b' m, jf_read_buffer fuel true f position b j n = Done (j', b', JReturn m) n' /\ 0 < m /\
    bb_memory b' = write_at (bb_position b) (slice position (bb_remaining b) d) (bb_memory b).
Proof.
  intros Ho Ha Hd Hpos Hbp Hlim Hfuel. pose proof Ho as [Hp Hj Hf]. pose proof (file_small h i d n Hf) as Hsm.
  apply Z.eqb_neq in Hp. unfold jf_read_buffer, isClosed. rewrite Hp, Hd. unfold bb_remaining in *.
  rewrite (proj2 (Z.eqb_neq (bb_limit b - bb_position b) 0)) by lia.
  destruct (read_into_local fuel f h i d position (bb_memory b) (bb_position b) (bb_limit b - bb_position b) j n Ho Ha)
    as (n' & E & _); try lia.
  unfold jf_read, isClosed. rewrite Hp. rewrite (proj2 (checkPosition_inside position)) by lia.
  rewrite (proj2 (checkBuffer_inside _ _ _)) by lia.
  unfold readNative_array, the_native, bind. rewrite Hp, Hj. cbn [negb]. rewrite E. unfold ret. cbn [fst snd].
  assert (Hm : 0 < jread_result position (bb_limit b - bb_position b) d).
  { unfold jread_result. rewrite (proj2 (Z.eqb_neq (Z.max 0 _) 0)) by lia. simpl. lia. }
  rewrite (proj2 (Z.ltb_lt _ _)) by done. by eexists _, n', _, _.
Qed.

(** ** Witnesses *)

#[local] Existing Instance the_stub.
#[local] Existing Instance the_service.

Definition demo_jvm : Jvm := mkJvm {[16 := 0%nat]} 32 [].
Definition demo_jfile : GEDSFile := mkGEDSFile 16 "bkt" "dir/key".

Lemma demo_java_open : java_open demo_jfile 0 0 "hello" demo_jvm full_node.
Proof.
  constructor; [discriminate|reflexivity|]. eexists _, (mkLocalFile "/tmp/geds/bkt/0" 0 5 []), false.
  split; [apply lookup_singleton_eq|]. split; [reflexivity|]. split; [|reflexivity].
  constructor; [simpl; lia|reflexivity|vm_compute; reflexivity].
Qed.

Definition demo_calls : list jcall :=
  [JRead 1 "......" 2 3; JWrite 4 "abcde" 1 2; JRead 3 "......" 0 6; JRead 6 "...." 0 4; JRead 0 "...." 2 3; JWrite (-1) "x" 0 1].

Lemma java_file_exact_witness :
  exists j' n', jcalls_run 30 demo_jfile demo_calls demo_jvm full_node =
    Done (j', [ARead "..ell." (JReturn 3); AWrite (JReturn tt); ARead "lbc..." (JReturn 3);
               ARead "...." (JReturn (-1)); ARead "...." (illegal "The buffer is too small!");
               AWrite (illegal "Invalid position!")]) n' /\
    java_open demo_jfile 0 0 "hellbc" j' n'.
Proof.
  destruct (java_file_exact Server MemS3.world nat unit 30 demo_jfile 0 0 "hello" demo_calls demo_jvm full_node
              demo_java_open ltac:(repeat split; vm_compute; congruence)) as (j' & n' & E & Ho).
  exists j', n'. split; [exact E|exact Ho].
Defined.

Lemma java_metadata_undefined_witness : jf_metadata demo_jfile demo_jvm full_node = Crash.
Proof.
  exact (java_metadata_undefined Server MemS3.world nat unit demo_jfile 0 _ demo_jvm full_node
           ltac:(discriminate) eq_refl (lookup_singleton_eq _ _) eq_refl I).
Defined.

(** The second half of an array of eight bytes. *)
Lemma java_slice_misplaced_witness :
  exists j' n' b' m, jf_read_buffer 30 true demo_jfile 0 (mkByteBuffer "........" 4 0 4 false) demo_jvm full_node =
      Done (j', b', JReturn m) n' /\ bb_memory b' = ("hell...." : str).
Proof.
  destruct (java_slice_misplaced Server MemS3.world nat unit 30 demo_jfile 0 0 "hello"
              (mkByteBuffer "........" 4 0 4 false) 0 demo_jvm full_node demo_java_open
              ltac:(reflexivity) eq_refl ltac:(split; [lia|reflexivity]) ltac:(cbn; lia)
              ltac:(split; [reflexivity|vm_compute; congruence]) ltac:(vm_compute; congruence))
    as (j' & n' & b' & m & E & _ & Hb).
  exists j', n', b', m. split; [exact E|exact Hb].
Defined.
