(* ===== verification/JavaGEDS.v ===== *)
(** * The Java binding of the service

    The classes [GEDS] and [GEDSConfig] of the Java binding (GEDS.java,
    GEDSConfig.java under src/src/java/com/ibm/geds) and the native functions they
    call (src/src/java/com_ibm_geds_GEDS.cpp, com_ibm_geds_GEDSConfig.cpp), on the
    operations of GEDS.v: which answers become values, which become Java
    exceptions, and what a Java program that creates, writes, seals, closes and
    opens an object finds in it. *)

From Stdlib Require Import Ascii ZArith Lia.
From stdpp Require Import base gmap sets list strings numbers.
From S2P Require Import Prelude Bytes Decimal Status StdMap Path Object FileSet MDSKVSBucket MDSKVS S3Endpoint Rpc.
From S2P Require Import MetadataServer MetadataService LocalFile ConcurrentMap GedsNames FileHandle.
From S2P Require Import Node Handles HandleIO GEDS GEDSCreate GEDSObjects TcpConnection GEDSCopy JavaFile.
From S2P Require GEDSConfig.

Open Scope Z_scope.
Open Scope list_scope.

#[local] Opaque to_string.

(** ** The native functions *)

Definition invalid_ptr {A} : jresult A := JThrow NullPointerException "Invalid nativePtr.".

Definition throw_io {A} (st : Status) : jresult A := JThrow IOException (message st).

(** An object that does not exist has an exception of its own. *)
Definition throw_missing {A} (st : Status) : jresult A :=
  if code_is kNotFound st then JThrow FileNotFoundException (message st) else throw_io st.

Definition INT_MAX : Z := 2 ^ 31 - 1.

(** [jchar] to [char] *)
Definition char_of_jchar (c : Z) : ascii := ascii_of_N (Z.to_N (c mod 256)).

(** The Java object of an entry: its name is made from a C string. *)
Definition java_status (s : GEDSFileStatus) : GEDSFileStatus :=
  mkFileStatus (c_str (fs_key s)) (i64 (fs_size s)) (fs_isDirectory s).

Section native.
Context {W X K T : Type} `{MDStub W} `{S3Client X} `{Kernel K} `{Transfers T}.
Context (fuel : nat).
Implicit Types (j : Jvm).

(** [new GEDSContainer]: every container refers to the one process. *)
Definition initGEDS (nativePtrConfig : Z) (b : Boot) j : M W X K T (Jvm * jresult Z) :=
  if nativePtrConfig =? 0 then ret (j, invalid_ptr) else
  let* status := geds_start b in
  ret (if negb (ok status) then (j, JThrow RuntimeException (message status))
       else (mkJvm (jv_files j) (jv_next j + 1) (jv_counted j), JReturn (jv_next j))).

Definition nativeStopGEDS (nativePtr : Z) (relocate : bool) (server : Status) j : M W X K T (Jvm * jresult unit) :=
  if nativePtr =? 0 then ret (j, invalid_ptr) else
  let* _ := geds_stop fuel relocate server in ret (j, JReturn tt).

(** A [GEDSFile] returned to Java. *)
Definition give_file (h : nat) j : Jvm * jresult Z :=
  let '(p, j) := new_native h j in (j, JReturn p).

Definition nativeCreate (nativePtr : Z) (bucket key : str) (overwrite : bool) j : M W X K T (Jvm * jresult Z) :=
  if nativePtr =? 0 then ret (j, invalid_ptr) else
  let* createStatus := geds_create bucket key overwrite in
  ret (match createStatus with Value h => give_file h j | Error st => (j, throw_io st) end).

Definition nativeOpen (nativePtr : Z) (bucket key : str) j : M W X K T (Jvm * jresult Z) :=
  if nativePtr =? 0 then ret (j, invalid_ptr) else
  let* status := geds_open bucket key true in
  ret (match status with Value h => give_file h j | Error st => (j, throw_missing st) end).

(** An operation whose result is [true] or an exception. *)
Definition native_bool (nativePtr : Z) (operation : M W X K T Status) (answer : Status -> jresult bool) :
    M W X K T (jresult bool) :=
  if nativePtr =? 0 then ret invalid_ptr else let* status := operation in ret (answer status).

Definition true_or_missing (st : Status) : jresult bool := if ok st then JReturn true else throw_missing st.
Definition true_or_io (st : Status) : jresult bool := if ok st then JReturn true else throw_io st.

Definition nativeRename (nativePtr : Z) (srcBucket srcKey destBucket destKey : str) : M W X K T (jresult bool) :=
  native_bool nativePtr (geds_rename fuel srcBucket srcKey destBucket destKey) true_or_missing.

Definition nativeRenamePrefix (nativePtr : Z) (srcBucket srcKey destBucket destKey : str) : M W X K T (jresult bool) :=
  native_bool nativePtr (renamePrefix fuel srcBucket srcKey destBucket destKey) true_or_missing.

Definition nativeCopy (nativePtr : Z) (srcBucket srcKey destBucket destKey : str) : M W X K T (jresult bool) :=
  native_bool nativePtr (geds_copy fuel srcBucket srcKey destBucket destKey) true_or_missing.

Definition nativeCopyPrefix (nativePtr : Z) (srcBucket srcKey destBucket destKey : str) : M W X K T (jresult bool) :=
  native_bool nativePtr (copyPrefix fuel srcBucket srcKey destBucket destKey) true_or_missing.

Definition nativeCreateBucket (nativePtr : Z) (bucket : str) : M W X K T (jresult bool) :=
  native_bool nativePtr (geds_createBucket bucket)
    (fun st => if ok st || code_is kAlreadyExists st then JReturn true else throw_io st).

Definition nativeMkdirs (nativePtr : Z) (bucket key : str) : M W X K T (jresult bool) :=
  native_bool nativePtr (mkdirs fuel bucket key Default_GEDSFolderDelimiter) true_or_io.

Definition nativeDelete (nativePtr : Z) (bucket key : str) : M W X K T (jresult bool) :=
  native_bool nativePtr (geds_deleteObject bucket key) true_or_missing.

Definition nativeDeletePrefix (nativePtr : Z) (bucket key : str) : M W X K T (jresult bool) :=
  native_bool nativePtr (geds_deleteObjectPrefix fuel bucket key) true_or_io.

(** A result of more than [INT_MAX] entries has no Java array; that is logged, and
    the array is undefined. *)
Definition nativeList (nativePtr : Z) (bucket key : str) (delimiter : Z) :
    M W X K T (jresult (list GEDSFileStatus)) :=
  if nativePtr =? 0 then ret invalid_ptr else
  let* listStatus := geds_list bucket key (char_of_jchar delimiter) in
  match listStatus with
  | Error st => ret (throw_io st)
  | Value resultVec =>
      if INT_MAX <? Z.of_nat (length resultVec) then fun _ => Crash
      else ret (JReturn (map java_status resultVec))
  end.

Definition nativeStatus (nativePtr : Z) (bucket key : str) (delimiter : Z) : M W X K T (jresult GEDSFileStatus) :=
  if nativePtr =? 0 then ret invalid_ptr else
  let* status := geds_status bucket key (char_of_jchar delimiter) in
  ret (match status with Value s => JReturn (java_status s) | Error st => throw_missing st end).

Definition runtime_unit (st : Status) : jresult unit :=
  if negb (ok st) then JThrow RuntimeException (message st) else JReturn tt.

Definition nativeRegisterObjectStoreConfig (nativePtr : Z) (bucket endpointUrl accessKey secretKey : str) :
    M W X K T (jresult unit) :=
  if nativePtr =? 0 then ret invalid_ptr else
  let* status := geds_registerObjectStoreConfig bucket endpointUrl accessKey secretKey in
  ret (runtime_unit status).

Definition nativeSyncObjectStoreConfigs (nativePtr : Z) : M W X K T (jresult unit) :=
  if nativePtr =? 0 then ret invalid_ptr else
  let* status := syncObjectStoreConfigs in ret (runtime_unit status).

(** The number of the subscription type is one of the enumeration. *)
Definition nativeSubscribe (nativePtr : Z) (bucket key : str) (t : SubscriptionType) : M W X K T (jresult bool) :=
  native_bool nativePtr (geds_subscribe (mkSubscription [] bucket key t)) true_or_io.

Definition nativeUnsubscribe (nativePtr : Z) (bucket key : str) (t : SubscriptionType) : M W X K T (jresult bool) :=
  native_bool nativePtr (geds_unsubscribe (mkSubscription [] bucket key t)) true_or_io.

Definition nativeRelocate (nativePtr : Z) (force : bool) : M W X K T (jresult unit) :=
  if nativePtr =? 0 then ret invalid_ptr else
  geds_relocate fuel force ;; ret (JReturn tt).
End native.

(** ** The class [GEDS] *)

Section class.
Context {W X K T : Type} `{MDStub W} `{S3Client X} `{Kernel K} `{Transfers T}.
Context (fuel : nat) (nativePtr : Z).
Implicit Types (j : Jvm).

(** [checkGEDS] *)
Definition checked {A} (m : M W X K T (jresult A)) : M W X K T (jresult A) :=
  if nativePtr =? 0 then ret (JThrow NullPointerException "GEDS is not properly initialized!") else m.

(** A pointer becomes a [GEDSFile] of Java. *)
Definition wrap_file (bucket key : str) (what : str) (r : jresult Z) : jresult GEDSFile :=
  match r with
  | JThrow e m => JThrow e m
  | JReturn ptr =>
      if ptr =? 0 then JThrow RuntimeException (what ++ bucket ++ "/" ++ key)
      else JReturn (mkGEDSFile ptr bucket key)
  end.

Definition jg_create (bucket key : str) (overwrite : bool) j : M W X K T (Jvm * jresult GEDSFile) :=
  if nativePtr =? 0 then ret (j, JThrow NullPointerException "GEDS is not properly initialized!") else
  let* r := nativeCreate nativePtr bucket key overwrite j in
  ret (fst r, wrap_file bucket key "Unable to create file at " (snd r)).

Definition jg_open (bucket key : str) j : M W X K T (Jvm * jresult GEDSFile) :=
  if nativePtr =? 0 then ret (j, JThrow RuntimeException "GEDS is not initialized!") else
  let* r := nativeOpen nativePtr bucket key j in
  ret (fst r, wrap_file bucket key "Unable to open file " (snd r)).

Definition jg_rename (srcBucket srcKey destBucket destKey : str) : M W X K T (jresult bool) :=
  checked (nativeRename fuel nativePtr srcBucket srcKey destBucket destKey).
Definition jg_rename3 (bucket srcKey destKey : str) : M W X K T (jresult bool) := jg_rename bucket srcKey bucket destKey.

Definition jg_renamePrefix (srcBucket srcKey destBucket destKey : str) : M W X K T (jresult bool) :=
  checked (nativeRenamePrefix fuel nativePtr srcBucket srcKey destBucket destKey).
Definition jg_renamePrefix3 (bucket srcKey destKey : str) : M W X K T (jresult bool) :=
  jg_renamePrefix bucket srcKey bucket destKey.

Definition jg_copy (srcBucket srcKey destBucket destKey : str) : M W X K T (jresult bool) :=
  checked (nativeCopy fuel nativePtr srcBucket srcKey destBucket destKey).
Definition jg_copy3 (bucket srcKey destKey : str) : M W X K T (jresult bool) := jg_copy bucket srcKey bucket destKey.

Definition jg_copyPrefix (srcBucket srcPrefix destBucket destPrefix : str) : M W X K T (jresult bool) :=
  checked (nativeCopyPrefix fuel nativePtr srcBucket srcPrefix destBucket destPrefix).

(** [copyPrefix(bucket, srcPrefix, destPrefix)] calls [copy]. *)
Definition jg_copyPrefix3 (bucket srcPrefix destPrefix : str) : M W X K T (jresult bool) :=
  jg_copy bucket srcPrefix bucket destPrefix.

Definition jg_list (bucket key : str) : M W X K T (jresult (list GEDSFileStatus)) :=
  checked (nativeList nativePtr bucket key 0).
Definition jg_listAsFolder (bucket key : str) : M W X K T (jresult (list GEDSFileStatus)) :=
  checked (nativeList nativePtr bucket key 47).
Definition jg_status (bucket key : str) : M W X K T (jresult GEDSFileStatus) :=
  checked (nativeStatus nativePtr bucket key 47).

Definition jg_createBucket (bucket : str) : M W X K T (jresult bool) := checked (nativeCreateBucket nativePtr bucket).
Definition jg_mkdirs (bucket path : str) : M W X K T (jresult bool) := checked (nativeMkdirs fuel nativePtr bucket path).
Definition jg_delete (bucket key : str) : M W X K T (jresult bool) := checked (nativeDelete nativePtr bucket key).
Definition jg_deletePrefix (bucket prefix : str) : M W X K T (jresult bool) :=
  checked (nativeDeletePrefix fuel nativePtr bucket prefix).
End class.

(** ** The class [GEDSConfig] *)

Section config.
Implicit Types (c : GEDSConfig.GEDSConfig).

(** An error of [set] is only logged. *)
Definition nativeSetString (nativePtr : Z) (key value : str) c : GEDSConfig.GEDSConfig * jresult unit :=
  if nativePtr =? 0 then (c, invalid_ptr) else (fst (GEDSConfig.set_string key value c), JReturn tt).

Definition nativeSetInt (nativePtr : Z) (key : str) (value : Z) c : GEDSConfig.GEDSConfig * jresult unit :=
  if nativePtr =? 0 then (c, invalid_ptr) else (fst (GEDSConfig.set_signed key value c), JReturn tt).

Definition nativeSetLong (nativePtr : Z) (key : str) (value : Z) c : GEDSConfig.GEDSConfig * jresult unit :=
  if nativePtr =? 0 then (c, invalid_ptr) else (fst (GEDSConfig.set_signed key value c), JReturn tt).

Definition nativeGetString (nativePtr : Z) (key : str) c : jresult str :=
  if nativePtr =? 0 then invalid_ptr else
  match GEDSConfig.getString key c with Error st => throw_io st | Value s => JReturn (c_str s) end.

Definition nativeGetInt (nativePtr : Z) (key : str) c : jresult Z :=
  if nativePtr =? 0 then invalid_ptr else
  match GEDSConfig.getSignedInt key c with Error st => throw_io st | Value v => JReturn (jint v) end.

Definition nativeGetLong (nativePtr : Z) (key : str) c : jresult Z :=
  if nativePtr =? 0 then invalid_ptr else
  match GEDSConfig.getSignedInt key c with Error st => throw_io st | Value v => JReturn v end.
End config.

(** ** A program that writes an object *)

Section program.
Context {W X K T : Type} `{MDStub W} `{S3Client X} `{Kernel K} `{Transfers T}.
Context (fuel : nat) (nativePtr : Z).

(** Create an object, read and write it, seal it, close the file and open the
    object again: the answers of the calls and the file opened last. *)
Definition jprogram (bucket key : str) (calls : list jcall) (j : Jvm) :
    M W X K T (Jvm * jresult (list janswer * GEDSFile)) :=
  let* r := jg_create nativePtr bucket key false j in
  match snd r with
  | JThrow e m => ret (fst r, JThrow e m)
  | JReturn f =>
      let* a := jcalls_run fuel f calls (fst r) in
      let* s := jf_seal f (fst a) in
      match snd s with
      | JThrow e m => ret (fst s, JThrow e m)
      | JReturn _ =>
          let* c := jf_close f (fst s) in
          let* o := jg_open nativePtr bucket key (snd (fst c)) in
          ret (fst o, match snd o with JReturn g => JReturn (snd a, g) | JThrow e m => JThrow e m end)
      end
  end.
End program.

Section exact.
Context {W X K T : Type} `{MDService W} `{S3Client X} `{KernelFair K} `{Transfers T}.
Context (fuel : nat).
Implicit Types (j : Jvm) (n : Node W X K T).

(** The first half: up to the seal. *)
Lemma jcreate_step p b k j n m mb :
  can_create b k m mb n -> p <> 0 -> jv_next j <> 0 ->
  exists j' n1, jg_create p b k false j n = Done (j', JReturn (mkGEDSFile (jv_next j) b k)) n1 /\
    creates b k n n1 /\ jv_next j' = jv_next j + 1 /\
    java_open (mkGEDSFile (jv_next j) b k) (n_next n) (fs_next (n_fs n)) [] j' n1.
Proof.
  intros [Hw Hr Hv Hb Hk Hf Hu _ _ _ _] Hp Hj.
  destruct (geds_create_step b k n Hw Hr Hv Hb Hk Hf Hu) as (n1 & E & C).
  apply Z.eqb_neq in Hp. pose proof (proj2 (Z.eqb_neq _ _) Hj) as Hj'.
  exists (snd (new_native (n_next n) j)), n1. split; [|split; [done|split; [done|constructor]]].
  - unfold jg_create, nativeCreate, bind. rewrite Hp, E. unfold ret. cbn [give_file new_native fst snd wrap_file].
    by rewrite Hj'.
  - exact Hj.
  - apply lookup_insert_eq.
  - apply C.
Qed.

(** The file while the program runs: unsealed, and registered under its name. *)
Lemma jseal_step f h i d b k j n n1 n2 m mb :
  creates b k n n1 -> framed n1 n2 -> h = n_next n -> java_open f h i d j n2 ->
  n_state n = Running -> is_connected (n_md n) = true -> svc_abs (n_mdw n) m -> m !! b = Some mb ->
  exists n3 x, jf_seal f j n2 = Done (j, JReturn tt) n3 /\ settles n2 n3 /\ n_heap n3 !! h = Some x /\
    h_isValid x = true /\ file_at h i d n3 /\
    svc_abs (n_mdw n3) (<[b := <[k := mkInfo (n_hostURI n) (len d) (len d) None]> mb]> m).
Proof.
  intros C F -> [Hp Hj Hfa] Hr Hc Ha Hm. apply Z.eqb_neq in Hp.
  pose proof C as [(_ & Es & Emd & Ew & Eu & _) _ _ _ [f0 Hnew] _ _].
  destruct (framed_fields _ _ F) as (_ & Fs & Fmd & Fw & Fu & _).
  destruct (fr_heap _ _ F _ _ Hnew) as (kd & Hd2 & Hsd).
  destruct (seal_step (n_next n) i d b k n2 m mb _ Hfa Hd2) as (n3 & E3 & S3 & A3); try congruence; try done.
  { destruct Hfa as (y & g & s & Hy & Hyk & _). rewrite Hd2 in Hy. injection Hy as <-. cbn [h_kind with_kind] in *.
    subst kd. exists g, i. f_equal. exact Hsd. }
  destruct (se_heap _ _ S3 _ _ Hd2) as (x & Hx & _ & Hv & _).
  exists n3, x. split; [|split; [done|split; [done|split; [by rewrite Hv|split; [by eapply file_at_settles|]]]]].
  - unfold jf_seal, isClosed, sealNative, the_native, bind. rewrite Hp, Hj, E3. done.
  - by rewrite Fu, Eu in A3.
Qed.

(** The second half: closing and opening. *)
Lemma jreopen_step f h i d b k p j n x :
  file_at h i d n -> n_heap n !! h = Some x -> h_isValid x = true -> n_state n = Running ->
  ok (isValid b k) = true -> sorted (n_fileHandles n) -> mfind (getPath b k) (n_fileHandles n) = Some h ->
  (interrupts (n_kernel n) + length d < fuel)%nat -> gj_nativePtr f <> 0 -> jv_files j !! gj_nativePtr f = Some h ->
  p <> 0 -> jv_next j <> 0 ->
  exists f' j1 n1 j2 n2, jf_close f j n = Done (f', j1, JReturn tt) n1 /\ isClosed f' = true /\
    jg_open p b k j1 n1 = Done (j2, JReturn (mkGEDSFile (jv_next j) b k)) n2 /\
    java_open (mkGEDSFile (jv_next j) b k) h i d j2 n2 /\ n_mdw n2 = n_mdw n.
Proof.
  intros Hfa Hx Hval Hr Hv Hs Hm Hfu Hp Hj Hg Hnx.
  destruct (close_registered (getPath b k) h n) as (n1 & E1 & S1 & W1); [done..|by rewrite Hx|].
  destruct (se_heap _ _ S1 _ _ Hx) as (x1 & Hx1 & _ & Hval1 & _).
  assert (Hserved : served fuel b k d n1 h).
  { apply (served_of_file fuel b k d n1 h i x1); rewrite ?(se_state _ _ S1), ?(se_handles _ _ S1),
      ?(se_kernel _ _ S1); try done; [by apply (file_at_settles h i d n)|by rewrite Hval1]. }
  apply Z.eqb_neq in Hp, Hg. pose proof (proj2 (Z.eqb_neq _ _) Hnx) as Hnx'.
  exists (mkGEDSFile 0 (gj_bucket f) (gj_key f)), (delete_native (gj_nativePtr f) j), n1,
    (snd (new_native h (delete_native (gj_nativePtr f) j))), (opened h n1).
  split; [|split; [done|split; [|split; [constructor|exact W1]]]].
  - unfold jf_close, isClosed, closeNative, the_native, bind. rewrite Hp. cbn [negb]. rewrite Hj, E1. done.
  - unfold jg_open, nativeOpen, bind. rewrite Hg. rewrite (served_opens fuel b k d n1 h Hserved). unfold ret.
    cbn [give_file new_native fst snd wrap_file delete_native jv_next]. by rewrite Hnx'.
  - exact Hnx.
  - apply lookup_insert_eq.
  - apply file_at_opened. by apply (file_at_settles h i d n).
Qed.

(** The calls leave the table of the native files alone. *)
Lemma jcall_table f c j n j' r n' :
  jcall_run fuel f c j n = Done (j', r) n' -> jv_files j' = jv_files j /\ jv_next j' = jv_next j.
Proof.
  destruct c as [q buf o l|q buf o l]; cbn [jcall_run]; unfold jf_read, jf_write, readNative_array, writeNative_array, read_into, write_from,
    the_native, bind, ret; intros E; repeat (case_match; simplify_eq/=); done.
Qed.

Lemma jcalls_table f cs j n j' r n' :
  jcalls_run fuel f cs j n = Done (j', r) n' -> jv_files j' = jv_files j /\ jv_next j' = jv_next j.
Proof.
  revert j n j' r n'. induction cs as [|c cs IH]; intros j n j' r n'; cbn [jcalls_run]; [by intros [= <- <- <-]|].
  unfold bind at 1. destruct (jcall_run fuel f c j n) as [[j1 a] n1| |] eqn:E1; try done. cbn [fst snd].
  unfold bind at 1. destruct (jcalls_run fuel f cs j1 n1) as [[j2 rs] n2| |] eqn:E2; try done. intros [= <- <- <-].
  destruct (jcall_table f c j n j1 a n1 E1) as [T1 T2]. destruct (IH _ _ _ _ _ E2) as [U1 U2]. split; congruence.
Qed.
End exact.

(** ** Properties *)

(** C11: what a Java program writes is what everyone finds. In a process that can
    create the object, the Java program that creates it, reads and writes it,
    seals it, closes the file and opens the object again gets for every call the
    answer of an array of bytes that is empty at first; the object is announced to
    the metadata service with the final number of bytes; and the file opened last
    holds exactly the final bytes. *)
Theorem java_program_exact (W X K T : Type) `{MDService W} `{S3Client X} `{KernelFair K} `{Transfers T}
    fuel p b k calls j (n : Node W X K T) m mb :
  can_create b k m mb n -> jcalls_fit fuel 0 calls [] -> p <> 0 -> 0 < jv_next j ->
  let d := fst (jarray_run calls []) in
  (length d < fuel)%nat ->
  exists j' n' f h i, jprogram fuel p b k calls j n = Done (j', JReturn (snd (jarray_run calls []), f)) n' /\
    java_open f h i d j' n' /\
    svc_abs (n_mdw n') (<[b := <[k := mkInfo (n_hostURI n) (len d) (len d) None]> mb]> m).
Proof.
  intros Hcc Hfit Hp Hj d Hd. pose proof Hcc as [Hw Hr Hv _ _ _ _ Hc Ha Hm _].
  destruct (jcreate_step p b k j n m mb Hcc Hp ltac:(lia)) as (j1 & n1 & E1 & C & Hj1 & Ho1).
  set (f := mkGEDSFile _ b k) in *. set (h := n_next n) in *.
  destruct (jcalls_exact fuel f h _ [] calls j1 n1 Ho1) as (j2 & n2 & E2 & Ho2 & F); [by rewrite (cr_kernel _ _ _ _ C)|].
  fold d in Ho2. destruct (jcalls_table fuel f calls j1 n1 j2 _ n2 E2) as [_ Hj2].
  destruct (jseal_step f h _ d b k j2 n n1 n2 m mb C F eq_refl Ho2 Hr Hc Ha Hm)
    as (n3 & x & E3 & S3 & Hx & Hval & Hf3 & A3).
  destruct (framed_fields _ _ F) as (_ & Fs & _ & _ & _ & Fh & _). pose proof (cr_rest _ _ _ _ C) as (_ & Es & _).
  destruct (jreopen_step fuel f h _ d b k p j2 n3 x Hf3 Hx Hval) as (f' & j4 & n4 & j5 & n5 & E4 & _ & E5 & Ho5 & W5);
    rewrite ?(se_state _ _ S3), ?(se_handles _ _ S3), ?(se_kernel _ _ S3), ?Fs, ?Fh, ?Es, ?(cr_handles _ _ _ _ C);
    try done; [apply massign_sorted, Hw|apply mfind_massign_eq| |apply Ho1|apply Ho2|lia|].
  { pose proof (fr_kernel _ _ F). rewrite (cr_kernel _ _ _ _ C) in *. lia. }
  exists j5, n5. eexists _, h, _. split; [|split; [exact Ho5|by rewrite W5]].
  unfold jprogram. unfold bind at 1. rewrite E1. cbn [fst snd]. unfold bind at 1. rewrite E2. cbn [fst snd].
  unfold bind at 1. rewrite E3. cbn [fst snd]. unfold bind at 1. rewrite E4. cbn [fst snd]. unfold bind at 1.
  rewrite E5. done.
Qed.

(** What a Java call threw. *)
Definition thrown {W X K T A} (r : run W X K T (jresult A)) : option jexception :=
  match r with Done (JThrow e _) _ => Some e | _ => None end.

(** ** Witnesses *)

#[local] Existing Instance the_stub.
#[local] Existing Instance the_service.

(** [copyPrefix] within one bucket copies one object: with the object "dir/key" in
    the store, copying the prefix "dir/" within the bucket is refused, since no
    object can have that name, while naming the bucket twice copies the object. *)
Theorem java_copyPrefix_copies_one :
  thrown (jg_copyPrefix3 30 1 "bkt" "dir/" "new/" full_node) = Some IOException /\
  thrown (jg_copyPrefix 30 1 "bkt" "dir/" "bkt" "new/" full_node) = None.
Proof. split; vm_compute; reflexivity. Qed.

Definition demo_program : list jcall := [JWrite 0 "hello world" 0 11; JRead 6 "........" 1 5; JWrite 5 ", all" 0 5].

Lemma java_program_exact_witness :
  exists j' n' f h i, jprogram 30 1 "bkt" "copy" demo_program demo_jvm full_node =
      Done (j', JReturn ([AWrite (JReturn tt); ARead ".world.." (JReturn 5); AWrite (JReturn tt)], f)) n' /\
    java_open f h i "hello, alld" j' n'.
Proof.
  destruct (java_program_exact Server MemS3.world nat unit 30 1 "bkt" "copy" demo_program demo_jvm full_node
              demo_state demo_bucket full_can_create ltac:(repeat split; vm_compute; congruence) ltac:(lia)
              ltac:(reflexivity) ltac:(vm_compute; lia)) as (j' & n' & f & h & i & E & Ho & _).
  exists j', n', f, h, i. split; [exact E|exact Ho].
Defined.
