(* ===== verification/GEDSOverwrite.v ===== *)
(** * Creating an object over an existing one

    [GEDS::create] with [overwrite] (src/src/libgeds/GEDS.cpp) on an object that
    the process has in a local file: the new file is opened under the name of the
    old one, and the old handle removes that name when it is destroyed. What
    this means for reading and for relocating the new object. *)

From Stdlib Require Import Ascii ZArith Lia.
From stdpp Require Import base gmap sets list strings numbers.
From S2P Require Import Prelude Bytes Decimal Status StdMap Path Object FileSet MDSKVSBucket MDSKVS S3Endpoint Rpc.
From S2P Require Import MetadataServer MetadataService LocalFile ConcurrentMap GedsNames FileHandle.
From S2P Require Import Node Handles HandleIO GEDS GEDSCreate GEDSObjects GEDSRelocate TcpConnection GEDSCopy.

Open Scope Z_scope.
Open Scope list_scope.

#[local] Opaque to_string.

Section overwrite.
Context {W X K T : Type} `{MDService W} `{S3Client X} `{KernelFair K} `{Transfers T}.
Implicit Types n : Node W X K T.

(** The handle [h] is held by the map of handles only, and there once. *)
Definition held_once (q : Path) (h : nat) n : Prop :=
  mfind q (n_fileHandles n) = Some h /\
  (forall q', mfind q' (n_fileHandles n) = Some h -> q' = q) /\
  (forall h' x, n_heap n !! h' = Some x -> h ∉ children x).

Lemma replaced_unreferenced q h h' x y n :
  sorted (n_fileHandles n) -> held_once q h n -> n_heap n !! h = Some x -> h_openCount x = 0 ->
  (h < n_next n)%nat -> h' = n_next n -> children y = [] ->
  forall n', n_fileHandles n' = massign q h' (n_fileHandles n) -> n_heap n' = <[h' := y]> (n_heap n) ->
  referenced h n' = false.
Proof.
  intros Hs (Hq & Honce & Hch) Hx Ho Hlt -> Hy n' Hf Hh. unfold referenced. rewrite Hf, Hh.
  rewrite lookup_insert_ne, Hx, Ho by lia. rewrite !orb_false_iff. split_and!; [|done|].
  - apply not_true_iff_false. rewrite existsb_exists. intros ([q' v] & Hin & Hv).
    apply bool_decide_eq_true in Hv. cbn [snd] in Hv. subst v. apply list_elem_of_In in Hin.
    pose proof (massign_sorted q (n_next n) _ Hs) as Hs'. apply mfind_Some in Hin; [|done].
    destruct (decide (q' = q)) as [->|Hne].
    + rewrite mfind_massign_eq in Hin. simplify_eq. lia.
    + rewrite mfind_massign_ne in Hin by congruence. by apply Honce in Hin.
  - apply not_true_iff_false. rewrite existsb_exists. intros ([h1 x1] & Hin & Hc).
    apply bool_decide_eq_true in Hc. apply list_elem_of_In, elem_of_map_to_list in Hin. cbn [snd] in Hc.
    destruct (decide (h1 = n_next n)) as [->|Hne].
    + rewrite lookup_insert_eq in Hin. simplify_eq. rewrite Hy in Hc. by apply elem_of_nil in Hc.
    + rewrite lookup_insert_ne in Hin by done. by apply (Hch h1 x1).
Qed.

(** Creating over a closed local object. *)
Lemma create_over b k h x f i s n :
  node_wf n -> n_state n = Running -> ok (isValid b k) = true ->
  cs_exists b (n_knownBuckets n) = true -> interrupts (n_kernel n) = 0%nat ->
  held_once (getPath b k) h n -> n_heap n !! h = Some x -> h_kind x = KLocal f i s -> h_openCount x = 0 ->
  0 <= lf_fd f -> snd (getLocalPath (n_pathPrefix n) b k (n_names n)) = lf_path f ->
  fs_names (n_fs n) !! lf_path f = Some i ->
  exists kern fs names, interrupts kern = 0%nat /\
    fs_inodes fs = <[i := []]> (fs_inodes (n_fs n)) /\ fs_names fs = delete (lf_path f) (fs_names (n_fs n)) /\
    createAsFileHandle b k true n =
      Done (Value (n_next n))
        (set_fs fs kern
           (set_heap (delete h (<[n_next n := newHandle b k None (KLocal (mkLocalFile (lf_path f) 0 0 []) i false)]> (n_heap n)))
              (S (n_next n))
              (set_fileHandles (massign (getPath b k) (n_next n) (n_fileHandles n)) (set_names names n)))).
Proof.
  intros Hw Hr Hv Hb Hk Honce Hx Hkind Ho Hfd Hp Hn. pose proof (local_factory_quiet b k n Hk) as HF.
  destruct (getLocalPath (n_pathPrefix n) b k (n_names n)) as [names p]. cbn [snd] in Hp. subst p.
  destruct HF as (k1 & fs & Hk1 & E & Hns & Hi & _). rewrite Hn in *. cbn [default] in *.
  destruct (call_quiet _ Hk1) as (k2 & E2 & Hk2). exists k2, (unlink_name (lf_path f) fs), names.
  split; [done|]. split; [by cbn [fs_inodes unlink_name]|].
  split; [cbn [fs_names unlink_name]; by rewrite Hns, delete_insert_eq|].
  unfold createAsFileHandle, running. rewrite Hr, Hv. cbn [negb].
  unfold bind at 1. rewrite createBucket_known by (done || apply (isValid_parts b k Hv)).
  change (ok OkStatus) with true. cbn [negb]. unfold bind at 1. rewrite E. cbn iota.
  unfold bind at 1, gets, cm_get. cbn [n_fileHandles created set_heap set_fs set_names].
  rewrite (proj1 Honce). unfold bind at 1, modify, insertOrReplace. cbn [n_fileHandles created set_heap set_fs set_names].
  set (n2 := set_fileHandles _ _). pose proof (nw_heap n Hw h x Hx) as [Hlt _].
  assert (Hun : referenced h n2 = false).
  { eapply (replaced_unreferenced (getPath b k) h (n_next n) x _ n); [apply Hw|done..| |reflexivity|reflexivity]. done. }
  unfold bind at 1, drop_ref. cbn [release].
  assert (Hx2 : n_heap n2 !! h = Some x) by (cbn [n2 n_heap set_fileHandles created set_heap]; rewrite lookup_insert_ne by lia; done).
  rewrite Hx2, Hun. unfold bind at 1, modify. rewrite Hkind. rewrite (proj2 (Z.leb_le 0 (lf_fd f))) by done.
  unfold removeFile. cbn [n_kernel n2 set_heap set_fileHandles created set_fs]. rewrite E2. reflexivity.
Qed.
End overwrite.

(** ** Properties *)

(** Creating over an object that exists locally and that nobody has open succeeds,
    and what is written to the new object is read back; but the name of its file,
    through which a relocation reads, has been removed together with the old
    handle. *)
Theorem overwrite_unlinks (W X K T : Type) `{MDService W} `{S3Client X} `{KernelFair K} `{Transfers T}
    fuel b k h x f i s bytes (n : Node W X K T) :
  node_wf n -> n_state n = Running -> ok (isValid b k) = true ->
  cs_exists b (n_knownBuckets n) = true -> interrupts (n_kernel n) = 0%nat ->
  held_once (getPath b k) h n -> n_heap n !! h = Some x -> h_kind x = KLocal f i s -> h_openCount x = 0 ->
  0 <= lf_fd f -> snd (getLocalPath (n_pathPrefix n) b k (n_names n)) = lf_path f ->
  fs_names (n_fs n) !! lf_path f = Some i ->
  0 < len bytes < INT64_MAX -> (length bytes <= fuel)%nat ->
  exists n1 n2 n3 y g, geds_create b k true n = Done (Value (n_next n)) n1 /\
    h_writeBytes fuel (n_next n) bytes 0 (len bytes) n1 = Done OkStatus n2 /\
    gf_readBytes fuel (n_next n) 0 (len bytes) n2 = Done (Value (len bytes, bytes)) n3 /\
    n_heap n2 !! n_next n = Some y /\ h_kind y = KLocal g i false /\ lf_path g = lf_path f /\
    fs_names (n_fs n2) !! lf_path g = None.
Proof.
  intros Hw Hr Hv Hb Hk Honce Hx Hkind Ho Hfd Hp Hn Hl Hfuel. pose proof (nw_heap n Hw h x Hx) as [Hlt _].
  destruct (create_over b k h x f i s n Hw Hr Hv Hb Hk Honce Hx Hkind Ho Hfd Hp Hn) as (k1 & fs & names & Hk1 & Hi & Hns & E).
  set (n0 := set_fs fs k1 _) in E. set (x1 := with_count 1 (newHandle b k None (KLocal (mkLocalFile (lf_path f) 0 0 []) i false))).
  set (n1 := set_heap (alter (fun x => with_count (h_openCount x + 1) x) (n_next n) (n_heap n0)) (n_next n0)
               (set_filesCreated (u64 (n_filesCreated n0 + 1)) n0)).
  assert (E1 : geds_create b k true n = Done (Value (n_next n)) n1) by (unfold geds_create, bind; by rewrite E).
  assert (Hx1 : n_heap n1 !! n_next n = Some x1).
  { cbn [n1 n0 n_heap set_heap set_filesCreated set_fs]. rewrite lookup_alter_eq, lookup_delete_ne, lookup_insert_eq by lia. done. }
  assert (Hd1 : inode_data i (n_fs n1) = []).
  { unfold inode_data. cbn [n1 n0 n_fs set_heap set_filesCreated set_fs]. by rewrite Hi, lookup_insert_eq. }
  destruct (lf_writeBytes_spec fuel (mkLocalFile (lf_path f) 0 0 []) bytes 0 k1) as (g & k2 & Ew & Hwf & Hpg & _ & Hdg & Hk2);
    [constructor; simpl; unfold INT64_MAX; lia || done|lia|lia|lia|].
  rewrite decide_False in Hdg by (intros ->; unfold len in Hl; simpl in Hl; lia). cbn [lf_data] in Hdg. rewrite write_at_empty in Hdg.
  set (n2 := set_fs (set_inode i (lf_data g) (n_fs n1)) k2
               (set_heap (<[n_next n := with_kind (KLocal (with_data [] g) i false) x1]> (n_heap n1)) (n_next n1) n1)).
  assert (E2 : h_writeBytes fuel (n_next n) bytes 0 (len bytes) n1 = Done OkStatus n2).
  { unfold h_writeBytes. unfold bind at 1. rewrite (resolve_local _ n1 x1 (mkLocalFile (lf_path f) 0 0 []) i false Hx1 eq_refl).
    cbn [fst snd h_kind x1 with_count newHandle]. unfold local_writeBytes.
    apply (local_update_step _ _ n1 x1 (mkLocalFile (lf_path f) 0 0 []) i false); [done|done|]. by rewrite Hd1. }
  assert (Hx2 : n_heap n2 !! n_next n = Some (with_kind (KLocal (with_data [] g) i false) x1)) by apply lookup_insert_eq.
  assert (Hfa : file_at (n_next n) i bytes n2).
  { eexists _, (with_data [] g), false. split; [exact Hx2|]. split; [done|]. unfold inode_data. cbn [n2 n_fs set_fs fs_inodes set_inode].
    rewrite lookup_insert_eq. split; [|by rewrite Hdg]. rewrite <- Hdg. destruct Hwf. by constructor. }
  destruct (file_read fuel (n_next n) i bytes 0 (len bytes) n2 Hfa) as (n3 & E3 & _); [lia|lia|cbn [n2 n_kernel set_fs]; lia|].
  rewrite slice_all in E3. replace (Z.max 0 _) with (len bytes) in E3 by lia.
  exists n1, n2, n3. eexists _, (with_data [] g). split_and!; [exact E1|exact E2|exact E3|exact Hx2|done|exact Hpg|].
  change (lf_path (with_data [] g)) with (lf_path g). rewrite Hpg.
  cbn [n2 n_fs set_fs fs_names set_inode n1 set_heap set_filesCreated n0]. rewrite Hns. apply lookup_delete_eq.
Qed.

(** A file whose name is gone cannot be relocated to a store that refuses bodies
    shorter than announced: the empty body is refused. *)
Theorem unlinked_never_relocates (W X K T : Type) `{MDService W} `{S3Client X} `{KernelFair K} `{Transfers T}
    fuel h x f i s e d (n : Node W X K T) :
  file_at h i d n -> n_heap n !! h = Some x -> h_kind x = KLocal f i s -> h_isValid x = true -> h_openCount x = 0 ->
  fs_names (n_fs n) !! lf_path f = None -> mfind (h_bucket x) (n_objectStores n) = Some e ->
  interrupts (n_kernel n) = 0%nat -> (1 <= fuel)%nat ->
  (forall w, exists w' error, PutObject (h_bucket x) (h_key x) [] (Some (len d)) w = (w', PutReturned (Failure error))) ->
  exists st n', local_relocate fuel h n = Done (Error st) n' /\ file_at h i d n'.
Proof.
  intros Hfile Hx Hkind Hv Ho Hnm He Hk Hf Hput. pose proof Hfile as (x' & f' & s' & Hx' & Hk' & [Hfd Hsz Hsm] & Hd).
  rewrite Hx in Hx'. injection Hx' as <-. rewrite Hkind in Hk'. injection Hk' as <- <-. subst d.
  cbn [lf_fd lf_size lf_data with_data] in *. unfold local_relocate. unfold bind at 1, the_handle. rewrite Hx, Hkind, Hv, Ho. cbn [negb Z.ltb Z.compare].
  unfold bind at 1, getS3Endpoint, gets, stores_get. rewrite He. cbn [is_ok negb].
  destruct (fsync_step fuel h n x f i s Hx Hkind Hfd Hk Hf) as (k1 & Hk1 & E1).
  unfold bind at 1. rewrite E1. change (ok OkStatus) with true. cbn [negb]. set (n1 := set_fs _ _ _).
  assert (Hfile1 : file_at h i (inode_data i (n_fs n)) n1).
  { apply (file_step h i (inode_data i (n_fs n)) _ f x s k1 n Hx Hkind ltac:(lia) (with_data (inode_data i (n_fs n)) f)); done. }
  unfold bind at 1, gets. cbn [n1 n_fs set_fs fs_names set_inode]. rewrite Hnm.
  unfold bind at 1, s3_call, s3_putObject. cbn [count_request s3_world]. rewrite Hsz.
  destruct (Hput (s3_world (n_s3 n1 (h_bucket x)))) as (w' & error & ->).
  assert (Hok : ok (convertS3Error error "put" (h_key x)) = false).
  { unfold convertS3Error, NotFoundError, PermissionDeniedError, UnknownError. by repeat case_match; rewrite ok_error. }
  rewrite Hok. cbn [negb]. unfold ret. by eexists _, _.
Qed.

(** ** Witnesses *)

#[local] Existing Instance the_stub.
#[local] Existing Instance the_service.

Lemma full_held_once : held_once (getPath "bkt" "dir/key") 0 full_node.
Proof.
  split; [reflexivity|]. split.
  - intros q Hq. apply mfind_Some in Hq; [|apply stored_node_wf]. by apply list_elem_of_singleton in Hq as [= ->].
  - intros h' x Hx. cbn [full_node n_heap set_md stored_node] in Hx. apply lookup_singleton_Some in Hx as [<- <-].
    by intros Hin%elem_of_nil.
Qed.

Lemma overwrite_unlinks_witness :
  exists n1 n2 n3 y g, geds_create "bkt" "dir/key" true full_node = Done (Value 1%nat) n1 /\
    h_writeBytes 20 1 "hello world" 0 11 n1 = Done OkStatus n2 /\
    gf_readBytes 20 1 0 11 n2 = Done (Value (11, "hello world" : str)) n3 /\
    n_heap n2 !! 1%nat = Some y /\ h_kind y = KLocal g 0 false /\ fs_names (n_fs n2) !! lf_path g = None.
Proof.
  destruct (overwrite_unlinks Server MemS3.world nat unit 20 "bkt" "dir/key" 0
              (newHandle "bkt" "dir/key" None (KLocal (mkLocalFile "/tmp/geds/bkt/0" 0 5 []) 0 false))
              (mkLocalFile "/tmp/geds/bkt/0" 0 5 []) 0 false "hello world" full_node
              (cc_wf _ _ _ _ _ full_can_create) eq_refl eq_refl eq_refl (cc_kernel _ _ _ _ _ full_can_create) full_held_once eq_refl eq_refl eq_refl
              ltac:(simpl; lia) eq_refl eq_refl ltac:(vm_compute; split; congruence) ltac:(simpl; lia))
    as (n1 & n2 & n3 & y & g & E1 & E2 & E3 & Hy & Hk & _ & Hn).
  exists n1, n2, n3, y, g. split; [exact E1|]. split; [exact E2|]. split; [exact E3|].
  split; [exact Hy|]. split; [exact Hk|exact Hn].
Defined.

(** With a store that takes the empty body for the object, the bytes are lost:
    the object is created over an existing one, written, sealed, closed and
    relocated. *)
Definition overwrite_run : M Server MemS3.world nat unit Status :=
  let* f := geds_create "bkt" "dir/key" true in
  match f with
  | Error st => ret st
  | Value h =>
      let* _ := h_writeBytes 20 h "hello world" 0 11 in
      let* st := h_seal h in
      close h ;; geds_relocate 20 false ;; ret st
  end.

Theorem overwrite_then_relocate_loses :
  match overwrite_run (set_objectStores [("bkt" : str, newEndpoint "http://s3" "ak" "sk")] full_node) with
  | Done st n' => ok st = true /\ object_at n' "bkt" "bkt" "dir/key" = Some []
  | _ => False
  end.
Proof. vm_compute. split; reflexivity. Qed.
