(* ===== verification/Startup.v ===== *)
(** * Creating and destroying a process

    The functions of src/src/libgeds/Filesystem.cpp that make names, the factory,
    the constructor and the destructor of [GEDS] (src/src/libgeds/GEDS.cpp), and
    who holds the object: the program, its file handles and the server
    (src/src/libgeds/Server.cpp). *)

From Stdlib Require Import Ascii ZArith Lia.
From stdpp Require Import base gmap sets list strings numbers.
From S2P Require Import Prelude Bytes Decimal Status StdMap Path Object FileSet MDSKVS S3Endpoint Rpc GEDSConfig.
From S2P Require Import MetadataServer MetadataService LocalFile ConcurrentMap GedsNames FileHandle.
From S2P Require Import Node Handles HandleIO GEDS GEDSCreate GEDSObjects.

Open Scope Z_scope.
Open Scope list_scope.

#[local] Opaque to_string.

(** ** File names *)

Definition EEXIST : Z := 17.
Definition ENOTDIR : Z := 20.
Definition XXXXXX : str := "XXXXXX".

(** Nothing has the name [p]. *)
Definition free (p : str) (fs : FileSystem) : Prop := fs_names fs !! p = None /\ p ∉ fs_dirs fs.

#[global] Instance free_dec p fs : Decision (free p fs).
Proof. unfold free. apply _. Defined.

Section filesystem.
Context {K : Type} `{Kernel K}.

(** What [mkdtemp] and [mkstemp] put in the place of the six letters X after
    [stem], with the error if they do not succeed. *)
Context (pick : str -> FileSystem -> str * option Z).

Implicit Types (fs : FileSystem) (k : K).

(** [createFile]; a file that exists gives the descriptor -1, which is returned
    as a value. *)
Definition createFile (path : str) fs k : FileSystem * K * StatusOr Z :=
  let failed (fs : FileSystem) (k : K) (e : Z) : FileSystem * K * StatusOr Z :=
    (fs, k, if negb (e =? EEXIST) then Error (UnknownError ("Unable to create file " ++ path ++ ": " ++ strerror e))
            else Value (-1)) in
  if negb (bool_decide (free path fs)) then failed fs k EEXIST else
  match call k with
  | (k, Sys fd) => (snd (open_inode path fs), k, Value fd)
  | (k, SysError e) => failed fs k e
  end.

(** [touchFile] *)
Definition touchFile (path : str) fs k : FileSystem * K * Status :=
  match createFile path fs k with
  | (fs, k, Error st) => (fs, k, st)
  | (fs, k, Value _) => (fs, fst (call k), OkStatus)
  end.

(** [mktempdir] *)
Definition mktempdir (name : str) fs : FileSystem * outcome str :=
  let path := if negb (ends_with XXXXXX name) then name ++ XXXXXX else name in
  let stem := take (length path - 6) path in
  match pick stem fs with
  | (s, None) => (add_dir (stem ++ s) fs, Ret (stem ++ s))
  | (s, Some err) =>
      (fs, Throw (runtime_error ("mkdtemp returned an error while trying to create a tempdir with pattern " ++
                                 stem ++ s ++ ": " ++ strerror err)))
  end.

(** [tempFile(folder, prefix)]: the letters are appended twice. *)
Definition tempFile (folder prefix : str) fs : FileSystem * outcome str :=
  let path := folder ++ "/" ++ prefix ++ XXXXXX in
  let tmp := path ++ XXXXXX in
  let stem := take (length tmp - 6) tmp in
  match pick stem fs with
  | (s, None) => (snd (open_inode (stem ++ s) fs), Ret (stem ++ s))
  | (_, Some error) =>
      (fs, Throw (runtime_error ("mkstemp returned an invalid file descriptor for " ++ prefix ++ ": " ++ strerror error)))
  end.

(** [tempFile(prefix)] and [tempFile()], in the directory for temporary files. *)
Definition tempFile_prefix (temp_directory_path prefix : str) fs := tempFile temp_directory_path prefix fs.
Definition tempFile_default (temp_directory_path : str) fs := tempFile_prefix temp_directory_path "GEDS_tempfile" fs.

(** [std::filesystem::create_directories]: the directories above [path], from the
    outside, and [path] itself. *)
Fixpoint chain (above rest : str) : list str :=
  match rest with
  | [] => [above]
  | c :: rest => (if bool_decide (c = "/"%char) then [above] else []) ++ chain (above ++ [c]) rest
  end.

Definition dir_chain (path : str) : list str :=
  List.filter (fun p => bool_decide (p <> []) && negb (ends_with "/" p)) (chain [] path).

Fixpoint make_dirs (ps : list str) fs k : FileSystem * K * option Z :=
  match ps with
  | [] => (fs, k, None)
  | p :: ps =>
      if bool_decide (p ∈ fs_dirs fs) then make_dirs ps fs k
      else if negb (bool_decide (free p fs)) then (fs, k, Some ENOTDIR)
      else match call k with
           | (k, Sys _) => make_dirs ps (add_dir p fs) k
           | (k, SysError e) => (fs, k, Some e)
           end
  end.

Definition create_directories (path : str) fs k : FileSystem * K * option Z := make_dirs (dir_chain path) fs k.
End filesystem.

(** ** The constructor *)

Section startup.
Context {W X K T : Type} `{MDStub W} `{S3Client X} `{Kernel K} `{Transfers T}.
Context (pick : str -> FileSystem -> str * option Z).

(** What a process finds around it: the metadata service, the stores, the file
    system, the kernel, the other hosts, a new identifier and the time. *)
Record World := mkWorld {
  w_mds : W;
  w_default_bucket : option str;
  w_s3 : str -> s3_state X;
  w_fs : FileSystem;
  w_kernel : K;
  w_transfers : T;
  w_uuid : str;
  w_now : Z
}.

(** The members after the list of initialisers. *)
Definition new_members (cfg : GEDSConfig) (w : World) : Node W X K T :=
  mkNode (mkNodeConfig (GEDSConfig.cacheBlockSize cfg) (GEDSConfig.cache_objects_from_s3 cfg) (GEDSConfig.pubSubEnabled cfg))
    Stopped (newMetadataService (w_uuid w) (metadataServiceAddress cfg) (w_default_bucket w)) (w_mds w)
    (localStoragePath cfg) newFileNames [] [] [] [] [] 0 0 ∅ 0 (w_now w) (w_s3 w) (w_fs w) (w_kernel w) (w_transfers w).

(** [GEDS::GEDS] *)
Definition new_GEDS (cfg : GEDSConfig) (w : World) : outcome (Node W X K T) :=
  let n := new_members cfg w in
  match create_directories (n_pathPrefix n) (n_fs n) (n_kernel n) with
  | (fs, k, None) => Ret (set_fs fs k n)
  | (_, _, Some e) =>
      Throw (runtime_error ("Unable to create prefix " ++ n_pathPrefix n ++ ". Reason " ++ strerror e))
  end.

Definition computeLocalStoragePath (path : str) (fs : FileSystem) : FileSystem * outcome str :=
  if ends_with XXXXXX path then mktempdir pick path fs else (fs, Ret path).

Definition with_fs (fs : FileSystem) (w : World) : World :=
  mkWorld (w_mds w) (w_default_bucket w) (w_s3 w) fs (w_kernel w) (w_transfers w) (w_uuid w) (w_now w).

(** [GEDS::factory] *)
Definition geds_factory (cfg : GEDSConfig) (w : World) : outcome (Node W X K T) :=
  let '(fs, path) := computeLocalStoragePath (localStoragePath cfg) (w_fs w) in
  let! path := path in
  new_GEDS (set_path path cfg) (with_fs fs w).
End startup.
Arguments World W X K T : clear implicits.

(** ** Who holds a process *)

Section lifetime.
Context {W X K T : Type} `{MDStub W} `{S3Client X} `{Kernel K} `{Transfers T}.
Context (fuel : nat).
Implicit Types n : Node W X K T.

(** The [shared_ptr]s to a [GEDS]: those of the program, the one of every file
    handle, and [Server::_geds]. *)
Record Instance := mkInstance {
  in_node : Node W X K T;
  in_pointers : nat;
  in_server : bool;
  in_destroyed : bool
}.

Definition holders (i : Instance) : nat :=
  in_pointers i + (if in_server i then 1 else 0) + size (n_heap (in_node i)).

(** [factory] returns the first pointer. *)
Definition newInstance n : Instance := mkInstance n 1 false false.

(** Whether [start] calls [Server::start], which keeps a pointer and never
    releases it. *)
Definition reaches_server (b : Boot) n : bool :=
  match n_state n with
  | Stopped =>
      match connect (bt_assertions b) (bt_channel b) (n_md n) with
      | Ret (_, result) => ok result
      | _ => false
      end
  | _ => false
  end.

(** [GEDS::~GEDS] *)
Definition geds_destroy (relocate : bool) (server : Status) : M W X K T unit :=
  fun n => match n_state n with
           | Running => (geds_stop fuel relocate server ;; ret tt) n
           | _ => Done tt n
           end.

(** What can happen to an instance: the program copies or drops a pointer,
    starts or stops the service, or makes any other call; when nothing holds the
    object it is destroyed. *)
Inductive istep : Instance -> Instance -> Prop :=
| i_share n p s :
    istep (mkInstance n (S p) s false) (mkInstance n (S (S p)) s false)
| i_drop n p s :
    istep (mkInstance n (S p) s false) (mkInstance n p s false)
| i_start b n p s st n' :
    geds_start b n = Done st n' ->
    istep (mkInstance n (S p) s false) (mkInstance n' (S p) (s || reaches_server b n) false)
| i_stop relocate server n p s st n' :
    geds_stop fuel relocate server n = Done st n' ->
    istep (mkInstance n (S p) s false) (mkInstance n' (S p) s false)
| i_call A (m : M W X K T A) a n p s n' :
    m n = Done a n' -> n_state n' = n_state n -> 
    istep (mkInstance n p s false) (mkInstance n' p s false)
| i_destroy relocate server n p s n' :
    holders (mkInstance n p s false) = 0%nat -> geds_destroy relocate server n = Done tt n' ->
    istep (mkInstance n p s false) (mkInstance n' p s true).

Lemma start_reaches b n st n' :
  geds_start b n = Done st n' -> n_state n' = Running -> n_state n = Running \/ reaches_server b n = true.
Proof.
  unfold geds_start, reaches_server. destruct (n_state n) eqn:E; [|by left|by intros [= <- <-] ?; congruence].
  intros Hs Hr. right. cbn [n_md set_state] in Hs.
  destruct (connect (bt_assertions b) (bt_channel b) (n_md n)) as [[c result]| |]; [|done..].
  destruct (ok result); [done|]. cbn [negb] in Hs. by injection Hs as <- <-.
Qed.

(** A service that runs was started with a server. *)
Definition backed (i : Instance) : Prop :=
  (n_state (in_node i) = Running -> in_server i = true) /\
  (in_destroyed i = true -> n_state (in_node i) <> Running /\ in_server i = false).

Lemma stop_not_running relocate server n st n' :
  geds_stop fuel relocate server n = Done st n' -> n_state n' <> Running.
Proof.
  unfold geds_stop, running_status, bind. destruct (n_state n) eqn:E; [by intros [= <- <-]; congruence| |by intros [= <- <-]; congruence].
  destruct ((if relocate then geds_relocate fuel true else ret tt) n) as [[] n1| |]; [|done..].
  destruct (disconnect (n_md n1)) as [c st1]. unfold gets, modify. 
  destruct (drop_refs _ _) as [[] n2| |]; [|done..]. by intros [= <- <-].
Qed.

Lemma istep_backed i j : istep i j -> backed i -> backed j.
Proof.
  intros Hs [Hr _]. destruct Hs as [n p s|n p s|b n p s st n' E|r sv n p s st n' E|A m a n p s n' E Hn|r sv n p s n' Hh E];
    cbn [in_node in_server in_destroyed] in *.
  1-2: by split.
  - split; [|done]. intros Hn'. cbn [in_node in_server in_destroyed] in *.
    apply orb_true_iff. destruct (start_reaches b n st n' E Hn') as [Hn|Hn]; [by left; apply Hr|by right].
  - split; [|done]. intros Hn'. by apply stop_not_running in E.
  - split; [|done]. cbn [in_node in_server in_destroyed]. rewrite Hn. exact Hr.
  - unfold holders in Hh. cbn [in_pointers in_server in_node] in Hh. destruct s; [lia|].
    unfold geds_destroy in E. destruct (n_state n) eqn:En; [|by discriminate Hr|];
      injection E as <-; split; cbn [in_node in_server in_destroyed]; try (split; congruence); congruence.
Qed.

Lemma istep_server i j : istep i j -> in_server i = true -> in_server j = true.
Proof. by destruct 1; cbn [in_server]; try done; intros ->. Qed.
End lifetime.
Arguments Instance W X K T : clear implicits.

(** ** Lemmas: names and prefixes *)

Section lemmas.
Context {W X K T : Type} `{MDStub W} `{S3Client X} `{Kernel K} `{Transfers T}.
Implicit Types (fs : FileSystem) (k : K).

Lemma make_dirs_spec ps fs k fs' k' r :
  make_dirs ps fs k = (fs', k', r) ->
  fs_names fs' = fs_names fs /\ fs_inodes fs' = fs_inodes fs /\ fs_next fs' = fs_next fs /\
  fs_dirs fs ⊆ fs_dirs fs' /\ (r = None -> Forall (fun p => p ∈ fs_dirs fs') ps).
Proof.
  revert fs k. induction ps as [|p ps IH]; intros fs k; cbn [make_dirs].
  { intros [= <- <- <-]. by split_and!. }
  case_bool_decide as Hp; [|case_bool_decide as Hf; cbn [negb]].
  - intros E. destruct (IH _ _ E) as (? & ? & ? & Hsub & Hr). split_and!; try done.
    intros Hn. constructor; [by apply Hsub|by apply Hr].
  - destruct (call k) as [k1 [v|e]].
    + intros E. destruct (IH _ _ E) as (? & ? & ? & Hsub & Hr). cbn [add_dir fs_names fs_inodes fs_next fs_dirs] in *.
      split_and!; try done; [set_solver|]. intros Hn. constructor; [set_solver|by apply Hr].
    + intros [= <- <- <-]. by split_and!.
  - intros [= <- <- <-]. by split_and!.
Qed.

Lemma chain_last above rest : (above ++ rest) ∈ chain above rest.
Proof.
  revert above. induction rest as [|c rest IH]; intros above; cbn [chain].
  - rewrite app_nil_r. by apply list_elem_of_singleton.
  - apply elem_of_app. right. specialize (IH (above ++ [c])). by rewrite <- app_assoc in IH.
Qed.

Lemma dir_chain_self path : path <> [] -> ends_with "/" path = false -> path ∈ dir_chain path.
Proof.
  intros Hne He. unfold dir_chain. apply list_elem_of_In, filter_In. split.
  - apply list_elem_of_In. exact (chain_last [] path).
  - rewrite He, bool_decide_true by done. done.
Qed.

Context (pick : str -> FileSystem -> str * option Z).

(** What [mkdtemp] and [mkstemp] promise: six characters that make an unused
    name. *)
Definition picks_free : Prop :=
  forall stem fs s, pick stem fs = (s, None) -> length s = 6%nat /\ free (stem ++ s) fs.

(** A directory made from a template. *)
Lemma mktempdir_spec name fs fs' p :
  picks_free -> ends_with XXXXXX name = true -> mktempdir pick name fs = (fs', Ret p) ->
  exists s, length s = 6%nat /\ p = take (length name - 6) name ++ s /\ free p fs /\ fs' = add_dir p fs.
Proof.
  intros Hp He. unfold mktempdir. rewrite He. cbn [negb].
  destruct (pick _ fs) as [s [e|]] eqn:E; [done|]. intros [= <- <-].
  destruct (Hp _ _ _ E) as [Hl Hf]. by exists s.
Qed.

(** The first parts of two strings of the same length. *)
Lemma app_parts (a b c d : str) : length a = length b -> a ++ c = b ++ d -> a = b.
Proof. intros Hl E. by apply app_inj_1 in E as [-> _]. Qed.

Lemma getLocalPath_prefix prefix b key names :
  exists rest, snd (getLocalPath prefix b key names) = prefix ++ rest.
Proof.
  unfold getLocalPath. destruct (cm_get _ _); [by eexists|].
  destruct (insertOrExists _ _ _) as [names' v]. by eexists.
Qed.

(** The state the factory leaves. *)
Lemma factory_node cfg (w : World W X K T) n :
  geds_factory pick cfg w = Ret n ->
  exists fs path fs1 (kern : K),
    computeLocalStoragePath (K := K) pick (localStoragePath cfg) (w_fs w) = (fs, Ret path) /\
    create_directories path fs (w_kernel w) = (fs1, kern, None) /\
    n = set_fs fs1 kern (new_members (set_path path cfg) (with_fs fs w)).
Proof.
  unfold geds_factory. destruct (computeLocalStoragePath _ _ _) as [fs [path| |]]; cbn [obind]; [|done..].
  unfold new_GEDS. cbn [new_members n_pathPrefix n_fs n_kernel localStoragePath set_path with_fs w_fs w_kernel].
  destruct (create_directories _ _ _) as [[fs1 k] [e|]] eqn:E; [done|]. intros [= <-].
  by exists fs, path, fs1, k.
Qed.
End lemmas.

(** An existing file is left alone, and a file that does not exist is there
    afterwards when the call succeeds. *)
Lemma touchFile_spec {K} `{KernelFair K} path fs (k : K) :
  let '(fs', _, st) := touchFile path fs k in
  fs_dirs fs' = fs_dirs fs /\ (forall q, q <> path -> fs_names fs' !! q = fs_names fs !! q) /\
  (~ free path fs -> fs' = fs /\ st = OkStatus) /\ (ok st = true -> ~ free path fs').
Proof.
  unfold touchFile, createFile. case_bool_decide as Hf; cbn [negb].
  - pose proof (call_fair k) as Hc. destruct (call k) as [k1 [v|e]] eqn:Ek.
    + unfold open_inode. destruct Hf as [Hn Hd]. rewrite Hn. cbn [snd fs_dirs fs_names].
      split_and!; [done| |by intros []|].
      * intros q Hq. by rewrite lookup_insert_ne.
      * intros _ [Hx _]. cbn [fs_names] in Hx. by rewrite lookup_insert_eq in Hx.
    + destruct Hc as [-> _]. split_and!; [done|done|done|]. cbn [negb].
      change (EINTR =? EEXIST) with false. cbn iota. unfold UnknownError. by rewrite ok_error by done.
  - change (EEXIST =? EEXIST) with true. by split_and!.
Qed.

(** A temporary file is new and empty. *)
Lemma tempFile_spec {K} `{Kernel K} pick folder prefix fs fs' p :
  picks_free pick -> tempFile pick folder prefix fs = (fs', Ret p) ->
  free p fs /\ (folder ++ "/" ++ prefix) `prefix_of` p /\
  fs_names fs' = <[p := fs_next fs]> (fs_names fs) /\ fs_inodes fs' = <[fs_next fs := []]> (fs_inodes fs).
Proof.
  intros Hp. unfold tempFile. set (stem := take _ _). destruct (pick stem fs) as [s [e|]] eqn:E; [done|].
  intros Ei. injection Ei as Efs Ep. destruct (Hp _ _ _ E) as [_ Hf]. rewrite Ep in *. split; [exact Hf|].
  split; [|subst fs'; unfold open_inode; by rewrite (proj1 Hf)].
  assert (Es : stem = (folder ++ "/" ++ prefix) ++ XXXXXX).
  { unfold stem. rewrite !length_app. rewrite !app_assoc, take_app_le by (rewrite !length_app; simpl; lia).
    apply take_ge. rewrite !length_app. simpl. lia. }
  rewrite <- Ep, Es, <- app_assoc. by eexists.
Qed.

(** ** Properties *)

(** Processes that are started on one machine with the same settings do not share
    files when the storage path is a template, as it is by default: the
    directory of the later one is new, so no local path of one is a local path of
    the other, whatever objects they have. With a path that is not a template
    both use the same directory and give their first objects of a bucket the
    same file. *)
Theorem factory_local_paths (W X K T : Type) `{MDStub W} `{S3Client X} `{Kernel K} `{Transfers T}
    pick cfg (w1 w2 : World W X K T) n1 n2 :
  picks_free pick -> geds_factory pick cfg w1 = Ret n1 -> geds_factory pick cfg w2 = Ret n2 ->
  fs_dirs (n_fs n1) ⊆ fs_dirs (w_fs w2) ->
  (node_wf n1 /\ n_state n1 = Stopped) /\
  if ends_with XXXXXX (localStoragePath cfg)
  then free (n_pathPrefix n2) (w_fs w2) /\
       forall names1 names2 b1 k1 b2 k2,
         snd (getLocalPath (n_pathPrefix n1) b1 k1 names1) <> snd (getLocalPath (n_pathPrefix n2) b2 k2 names2)
  else forall b k1 k2,
         snd (getLocalPath (n_pathPrefix n1) b k1 (n_names n1)) = snd (getLocalPath (n_pathPrefix n2) b k2 (n_names n2)).
Proof.
  intros Hp E1 E2 Hsub.
  destruct (factory_node pick cfg w1 n1 E1) as (fs1 & p1 & fs1' & k1' & C1 & D1 & ->).
  destruct (factory_node pick cfg w2 n2 E2) as (fs2 & p2 & fs2' & k2' & C2 & D2 & ->).
  cbn [n_pathPrefix n_names n_state n_fs set_fs new_members localStoragePath set_path] in *.
  split; [split; [constructor; by try constructor|done]|]. unfold computeLocalStoragePath in C1, C2.
  destruct (ends_with XXXXXX (localStoragePath cfg)) eqn:He.
  - destruct (mktempdir_spec pick _ _ _ _ Hp He C1) as (s1 & Hl1 & Ep1 & _ & ->).
    destruct (mktempdir_spec pick _ _ _ _ Hp He C2) as (s2 & Hl2 & Ep2 & Hf2 & ->).
    split; [exact Hf2|]. intros names1 names2 b1 k1 b2 k2 Heq.
    destruct (getLocalPath_prefix p1 b1 k1 names1) as [r1 R1]. destruct (getLocalPath_prefix p2 b2 k2 names2) as [r2 R2].
    rewrite R1, R2 in Heq. apply app_parts in Heq; [|rewrite Ep1, Ep2, !length_app; lia].
    apply (make_dirs_spec (dir_chain p1)) in D1 as (_ & _ & _ & Hd & _). destruct Hf2 as [_ Hf2]. apply Hf2, Hsub, Hd.
    rewrite Heq. cbn [add_dir fs_dirs]. set_solver.
  - injection C1 as <- <-. injection C2 as <- <-. intros b k1 k2. unfold getLocalPath, cm_get, insertOrExists. done.
Qed.

(** C36: a service that was started is never destroyed. However the program copies and
    drops its pointers, starts, stops and calls the service: once [start] has
    come to the server, which keeps a pointer that nothing resets, the object
    stays for ever, stopped or not; and the object is destroyed only when it is not
    running, so the branch of [~GEDS] that stops the service is never taken. *)
Theorem started_never_destroyed (W X K T : Type) `{MDStub W} `{S3Client X} `{Kernel K} `{Transfers T}
    fuel (n : Node W X K T) i :
  n_state n = Stopped -> rtc (istep fuel) (newInstance n) i ->
  (in_destroyed i = true -> n_state (in_node i) <> Running /\ in_server i = false) /\
  (n_state (in_node i) = Running \/ in_server i = true ->
   forall j, rtc (istep fuel) i j -> (0 < holders j)%nat /\ in_destroyed j = false).
Proof.
  intros Hn Hr.
  assert (Hkeep : forall a b : Instance W X K T, rtc (istep fuel) a b -> backed a ->
    backed b /\ (in_server a = true -> in_server b = true)).
  { induction 1 as [|a b c Hab _ IH]; intros Ha; [done|].
    destruct (IH (istep_backed fuel a b Hab Ha)) as [Hc Hbc]. split; [exact Hc|].
    intros Hs. by apply Hbc, (istep_server fuel a b). }
  assert (Hnew : backed (newInstance n)) by (split; cbn [newInstance in_node in_server in_destroyed]; congruence).
  destruct (Hkeep _ _ Hr Hnew) as [[Hi1 Hi2] _]. split; [exact Hi2|].
  intros Hor j Hj. assert (Hs : in_server i = true) by (by destruct Hor; auto).
  destruct (Hkeep i j Hj (conj Hi1 Hi2)) as [[_ Hd] Hsj]. specialize (Hsj Hs).
  split; [unfold holders; rewrite Hsj; lia|].
  destruct (in_destroyed j) eqn:E; [|done]. destruct (Hd eq_refl). congruence.
Qed.

(** ** Witnesses *)

#[local] Existing Instance the_stub.
#[local] Existing Instance the_service.

(** A choice among two endings. *)
Definition demo_pick (stem : str) (fs : FileSystem) : str * option Z :=
  match List.find (fun s => bool_decide (free (stem ++ s) fs)) ["aaaaaa" : str; "bbbbbb" : str] with
  | Some s => (s, None)
  | None => (XXXXXX, Some EEXIST)
  end.

Lemma demo_picks_free : picks_free demo_pick.
Proof.
  intros stem fs s. unfold demo_pick. destruct (List.find _ _) as [t|] eqn:E; [|done]. intros [= <-].
  apply find_some in E as [Hin Hf]. apply bool_decide_eq_true in Hf. split; [|exact Hf].
  by repeat (destruct Hin as [<-|Hin]; [done|]).
Qed.

Definition demo_world (dirs : list str) : World Server MemS3.world nat unit :=
  mkWorld demo_server None (fun _ => mem_state) (mkFS ∅ ∅ 0 (list_to_set dirs)) 0%nat tt "uuid" 0.

Definition demo_process (dirs : list str) : outcome (Node Server MemS3.world nat unit) :=
  geds_factory demo_pick (newConfig 8 "host:4381") (demo_world dirs).

(** A call whose result was tested returns. *)
Lemma returns_with {A} (o : outcome A) (test : A -> bool) :
  match o with Ret a => test a | _ => false end = true -> exists a, o = Ret a /\ test a = true.
Proof. destruct o as [a| |]; [by exists a|done..]. Qed.

Lemma done_with {W X K T A} (r : run W X K T A) (test : Node W X K T -> bool) :
  match r with Done _ n => test n | _ => false end = true -> exists a n, r = Done a n /\ test n = true.
Proof. destruct r as [a n| |]; [by exists a, n|done..]. Qed.

Lemma factory_local_paths_witness :
  exists n1 n2, demo_process ["/tmp" : str] = Ret n1 /\ demo_process ["/tmp" : str; "/tmp/GEDS_aaaaaa" : str] = Ret n2 /\
    n_pathPrefix n1 = "/tmp/GEDS_aaaaaa" /\ n_pathPrefix n2 = "/tmp/GEDS_bbbbbb" /\
    snd (getLocalPath (n_pathPrefix n1) "bkt" "k" (n_names n1)) <> snd (getLocalPath (n_pathPrefix n2) "bkt" "k" (n_names n2)).
Proof.
  destruct (returns_with (demo_process ["/tmp" : str]) (fun n =>
              bool_decide (n_pathPrefix n = "/tmp/GEDS_aaaaaa") &&
              bool_decide (fs_dirs (n_fs n) ⊆ list_to_set ["/tmp" : str; "/tmp/GEDS_aaaaaa" : str])))
    as (n1 & E1 & [P1%bool_decide_eq_true D1%bool_decide_eq_true]%andb_prop); [vm_compute; reflexivity|].
  destruct (returns_with (demo_process ["/tmp" : str; "/tmp/GEDS_aaaaaa" : str])
              (fun n => bool_decide (n_pathPrefix n = "/tmp/GEDS_bbbbbb")))
    as (n2 & E2 & P2%bool_decide_eq_true); [vm_compute; reflexivity|].
  exists n1, n2. split; [exact E1|]. split; [exact E2|]. split; [exact P1|]. split; [exact P2|].
  destruct (factory_local_paths Server MemS3.world nat unit demo_pick (newConfig 8 "host:4381") (demo_world ["/tmp" : str])
              (demo_world ["/tmp" : str; "/tmp/GEDS_aaaaaa" : str]) n1 n2 demo_picks_free E1 E2 D1) as [_ [_ Hall]].
  apply Hall.
Defined.

(** A program that starts a service and drops its only pointer. *)
Lemma started_never_destroyed_witness :
  exists i, rtc (istep 3) (newInstance stopped_node) i /\ in_pointers i = 0%nat /\ n_state (in_node i) = Running /\
    forall j, rtc (istep 3) i j -> in_destroyed j = false.
Proof.
  destruct (done_with (geds_start boot_ok stopped_node)
              (fun n => match n_state n with Running => true | _ => false end)) as (st & n' & E & Hn); [vm_compute; reflexivity|].
  assert (Hn' : n_state n' = Running) by (destruct (n_state n'); [discriminate|reflexivity|discriminate]).
  pose (i := mkInstance n' 0 (false || reaches_server boot_ok stopped_node) false).
  assert (Hr : rtc (istep 3) (newInstance stopped_node) i).
  { eapply rtc_l; [exact (i_start 3 boot_ok stopped_node 0 false st n' E)|]. apply rtc_once, i_drop. }
  exists i. split; [exact Hr|]. split; [reflexivity|]. split; [exact Hn'|]. intros j Hj.
  destruct (started_never_destroyed Server MemS3.world nat unit 3 stopped_node i eq_refl Hr) as [_ H].
  apply (H (or_introl Hn') j Hj).
Defined.
