(* ===== verification/Demo.v ===== *)
(** * The programs geds and metadataservice

    src/src/geds/main.cpp: a program that starts a service, and then either writes
    a big file and a greeting and serves them, or downloads and prints an object.
    The flags are given as parsed, the name of the host and what an uninitialised
    buffer holds are arguments. src/src/metadataservice/main.cpp: the program that
    runs the metadata server. *)

From Stdlib Require Import Ascii ZArith Lia.
From stdpp Require Import base gmap sets list strings numbers.
From S2P Require Import Prelude Bytes Decimal Status StdMap Path Object FileSet MDSKVSBucket MDSKVS S3Endpoint Rpc GEDSConfig.
From S2P Require Import MetadataServer MetadataService LocalFile ConcurrentMap GedsNames FileHandle.
From S2P Require Import Node Handles HandleIO GEDS GEDSCreate GEDSObjects GEDSRelocate Endian TcpConnection RemoteRead.
From S2P Require Import FileTransferService GEDSCopy GEDSStatus Commands Startup.

Open Scope Z_scope.
Open Scope list_scope.

#[local] Opaque to_string.

(** ** Programs *)

(** How a part of the program ends: it returns, calls [exit], is still waiting, or
    reads past the end of a buffer. *)
Inductive ended (A : Type) := Returns (a : A) | Exits (code : Z) | Waits | Overruns.
Arguments Returns {A} a.
Arguments Exits {A} code.
Arguments Waits {A}.
Arguments Overruns {A}.

(** The flags after parsing. *)
Record GedsFlags := mkGedsFlags {
  gf_serverAddress : str;
  gf_serverPort : Z;
  gf_port : Z;
  gf_gedsRoot : str;
  gf_downloadFile : str
}.

Definition default_flags : GedsFlags :=
  mkGedsFlags "localhost" defaultMetdataServerPort GEDSPort "/tmp/GEDS_XXXXXX" [].

Section program.
Context {W X K T : Type} `{MDStub W} `{S3Client X} `{Kernel K} `{Transfers T}.
Context (fuel : nat).

(** A computation that prints lines. *)
Definition Prog (A : Type) : Type := M W X K T (list line * ended A).

Definition pret {A} (a : A) : Prog A := ret ([], Returns a).
Definition pexit {A} (code : Z) : Prog A := ret ([], Exits code).
Definition print (l : line) : Prog unit := ret ([l], Returns tt).
Definition run_call {A} (m : M W X K T A) : Prog A := let* a := m in ret ([], Returns a).

Definition pbind {A B} (p : Prog A) (k : A -> Prog B) : Prog B :=
  let* (l, e) := p in
  match e with
  | Returns a => let* (l', e') := k a in ret (l ++ l', e')
  | Exits code => ret (l, Exits code)
  | Waits => ret (l, Waits)
  | Overruns => ret (l, Overruns)
  end.

Notation "'do' x <- p ;; k" := (pbind p (fun x => k)) (at level 200, x pattern, p at level 99, k at level 200).

(** ** The big file *)

Definition BIG_FILE_SIZE : Z := 1024 * 1024 * 1024.
Definition BUFFER : Z := 40960.

(** [while (size > 0)]; the offset and the size are of type [int], and the buffer
    is a new one, uninitialised, in every round. *)
Fixpoint big_loop (buffer : Z -> str) (rounds : nat) (h : nat) (size off : Z) : M W X K T unit :=
  if 0 <? size then
    match rounds with
    | O => fun _ => NoFuel
    | S rounds =>
        h_writeBytes fuel h (buffer off) (u64 off) BUFFER ;;
        big_loop buffer rounds h (i32 (size - BUFFER)) (i32 (off + BUFFER))
    end
  else ret tt.

Definition created_line (bucket key path : str) : line :=
  Out ("Created file " ++ bucket ++ "/" ++ key ++ " at path '" ++ path ++ "'.").

(** [file.size()], which is 0 when the size is not known. *)
Definition gf_size (h : nat) : M W X K T Z :=
  let* s := h_size h in ret (match s with Value n => n | Error _ => 0 end).

Definition createBigFile (buffer : Z -> str) (rounds : nat) (bucket key : str) : Prog unit :=
  do bucketStatus <- run_call (geds_createBucket bucket) ;;
  if negb (ok bucketStatus)
  then do _ <- print (Err ("Unable to create bucket " ++ bucket)) ;; pexit EXIT_FAILURE
  else
    do fileStatus <- run_call (geds_create bucket key false) ;;
    match fileStatus with
    | Error st =>
        do _ <- print (Err ("Unable to create file " ++ bucket ++ "/" ++ key ++ ": " ++ message st)) ;;
        pexit EXIT_FAILURE
    | Value file =>
        do _ <- run_call (big_loop buffer rounds file BIG_FILE_SIZE 0) ;;
        do path <- run_call (node_getLocalPath bucket key) ;;
        do _ <- print (created_line bucket key path) ;;
        do sealStatus <- run_call (h_seal file) ;;
        if negb (ok sealStatus)
        then do _ <- print (Err ("Could not seal big file: " ++ message sealStatus)) ;; pexit EXIT_FAILURE
        else
          do size <- run_call (gf_size file) ;;
          do _ <- print (Out ("Created Big File, size: " ++ to_string size)) ;;
          run_call (close file)
    end.

(** ** Serving *)

(** [while (running) sleep(1)], with the seconds in which SIGINT arrives; the
    handler stops the service. *)
Fixpoint wait_for_signal (force : bool) (server : Status) (signals : list bool) : Prog unit :=
  match signals with
  | [] => ret ([], Waits)
  | false :: signals => wait_for_signal force server signals
  | true :: _ => do _ <- run_call (geds_stop fuel force server) ;; pret tt
  end.

Definition greeting (hostName : str) : str := "Hello from " ++ hostName ++ [ascii_of_N 10].

Definition serveFile (hostName : str) (force : bool) (server : Status) (signals : list bool) : Prog unit :=
  let bucket := hostName in
  let key : str := "testfile" in
  do bucketStatus <- run_call (geds_createBucket bucket) ;;
  do _ <- (if negb (ok bucketStatus) then print (Err ("Unable to create bucket " ++ bucket)) else pret tt) ;;
  do fileStatus <- run_call (geds_create bucket key false) ;;
  match fileStatus with
  | Error st =>
      do _ <- print (Err ("Unable to create file " ++ bucket ++ "/" ++ key ++ ": " ++ message st)) ;;
      pexit EXIT_FAILURE
  | Value file =>
      let text := greeting bucket in
      do _ <- run_call (h_writeBytes fuel file text 0 (len text)) ;;
      do path <- run_call (node_getLocalPath bucket key) ;;
      do _ <- print (created_line bucket key path) ;;
      do sealStatus <- run_call (h_seal file) ;;
      if negb (ok sealStatus)
      then do _ <- print (Err ("Could not seal file: " ++ message sealStatus)) ;; pexit EXIT_FAILURE
      else
        do _ <- wait_for_signal force server signals ;;
        run_call (close file)
  end.

(** ** Downloading *)

(** [file.read(buffer, offset, position, length)] of bytes. *)
Definition read_buffer (h : nat) (buffer : str) (offset position length : Z) : M W X K T (str * StatusOr Z) :=
  fun n =>
    let '(s, buffer, r) :=
      gf_read_vec (fun pos len => lift (Error gone) (gf_readBytes fuel h pos len)) 1 buffer offset position length
        (Done tt n) in
    lower (Some (s, (buffer, r))).

(** The string that starts at the first element of a buffer. *)
Definition text_at (buffer : str) : option str :=
  (fun i => take i buffer) <$> find_char zero_byte buffer.

Definition downloadFile (bucket key : str) : Prog unit :=
  do fileStatus <- run_call (geds_open bucket key true) ;;
  match fileStatus with
  | Error st =>
      do _ <- print (Err ("Unable to open file '" ++ bucket ++ "/" ++ key ++ "': " ++ message st)) ;;
      pexit EXIT_FAILURE
  | Value file =>
      do size <- run_call (gf_size file) ;;
      do (buffer, readStatus) <- run_call (read_buffer file [] 0 0 size) ;;
      match readStatus with
      | Error st =>
          do _ <- print (Err ("Unable to read from file: " ++ message st)) ;;
          run_call (close file)
      | Value count =>
          do size <- run_call (gf_size file) ;;
          do _ <- (if negb (count =? size) then print (Err "File has unexpected length!") else pret tt) ;;
          do _ <- print (Out ("Read file with length " ++ to_string count)) ;;
          if ends_with ".txt" key then
            match text_at buffer with
            | None => ret ([], Overruns)
            | Some message =>
                do x <- run_call (the_handle file) ;;
                do _ <- print (Out ("The file " ++ h_bucket x ++ "/" ++ h_key x ++ " has the following content: " ++
                                    [ascii_of_N 10] ++ message)) ;;
                run_call (close file)
            end
          else run_call (close file)
      end
  end.

(** ** The program *)

(** The parts of [downloadFile] before and after the first slash. *)
Definition split_path (path : str) : str * str :=
  match find_char "/" path with
  | Some loc => (take loc path, drop (loc + 1) path)
  | None => (path, path)
  end.

(** [main] after the service was created. *)
Definition geds_program (fl : GedsFlags) (b : Boot) (hostName : str) (buffer : Z -> str) (rounds : nat)
    (force : bool) (server : Status) (signals : list bool) : Prog unit :=
  do status <- run_call (geds_start b) ;;
  if negb (ok status)
  then do _ <- print (Out ("Unable to start GEDS: " ++ message status)) ;; pexit EXIT_FAILURE
  else
    do _ <- print (Out "GEDS is running.") ;;
    if bool_decide (gf_downloadFile fl = []) then
      do _ <- print (Out "Creating big file at nase/baer") ;;
      do _ <- createBigFile buffer rounds "nase" "baer" ;;
      do _ <- serveFile hostName force server signals ;;
      pexit EXIT_SUCCESS
    else
      let '(bucket, key) := split_path (gf_downloadFile fl) in
      do _ <- downloadFile bucket key ;;
      pexit EXIT_SUCCESS.

(** [main]: the settings that are made from the flags. *)
Definition program_config (cpus : Z) (fl : GedsFlags) : GEDSConfig :=
  set_path (gf_gedsRoot fl)
    (set_port (gf_port fl) (newConfig cpus (gf_serverAddress fl ++ ":" ++ to_string (gf_serverPort fl)))).

Definition geds_main (pick : str -> FileSystem -> str * option Z) (cpus : Z) (fl : GedsFlags) (w : World W X K T)
    (b : Boot) (hostName : str) (buffer : Z -> str) (rounds : nat) (server : Status) (signals : list bool) :
    outcome (run W X K T (list line * ended unit)) :=
  let config := program_config cpus fl in
  let! n := geds_factory pick config w in
  Ret (geds_program fl b hostName buffer rounds (force_relocation_when_stopping config) server signals n).
End program.

Notation "'do' x <- p ;; k" := (pbind p (fun x => k)) (at level 200, x pattern, p at level 99, k at level 200).

(** ** The program metadataservice *)

(** [GRPCServer::startAndWait] (src/src/metadataservice/GRPCServer.cpp): [built]
    says whether [BuildAndStart] returned a server, which it does not when the
    address cannot be had; the pointer is not tested. [shut_down] says whether
    the server stops, until then the call waits. *)
Definition startAndWait (built shut_down : bool) : outcome (ended Status) :=
  if negb built then Abort else if shut_down then Ret (Returns OkStatus) else Ret Waits.

(** [main] *)
Definition metadataservice_main (built shut_down : bool) : outcome (ended Z * list line) :=
  let! status := startAndWait built shut_down in
  match status with
  | Returns st => if negb (ok st) then Ret (Exits 1, [Err (message st)]) else Ret (Returns 0, [])
  | _ => Ret (Waits, [])
  end.

(** The program never ends with status 1: it crashes when its port is taken. *)
Lemma metadataservice_never_fails built shut_down :
  match metadataservice_main built shut_down with
  | Ret (Exits _, _) => False
  | Ret _ => built = true
  | _ => built = false
  end.
Proof. by destruct built, shut_down. Qed.

(** ** Lemmas: programs *)

Section prog.
Context {W X K T : Type}.
Implicit Types n : Node W X K T.

Lemma bind_done {A B} (m : M W X K T A) (k : A -> M W X K T B) n n1 a : m n = Done a n1 -> bind m k n = k a n1.
Proof. intros E. unfold bind. by rewrite E. Qed.

Lemma pbind_call {A B} (m : M W X K T A) (k : A -> Prog B) n n1 a r :
  m n = Done a n1 -> k a n1 = r -> pbind (run_call m) k n = r.
Proof.
  intros E <-. unfold pbind, run_call, bind. rewrite E. unfold ret. destruct (k a n1) as [[l e] n2| |]; done.
Qed.

Lemma pbind_print {B} l (k : unit -> Prog B) n l' e n' :
  k tt n = Done (l', e) n' -> pbind (print l) k n = Done (l :: l', e) n'.
Proof. intros E. unfold pbind, print, bind, ret. by rewrite E. Qed.

Lemma pbind_returns {A B} (p : Prog A) (k : A -> Prog B) n n1 l a l' e n' :
  p n = Done (l, Returns a) n1 -> k a n1 = Done (l', e) n' -> pbind p k n = Done (l ++ l', e) n'.
Proof. intros E1 E2. unfold pbind, bind, ret. by rewrite E1, E2. Qed.

Lemma run_call_done {A} (m : M W X K T A) n n1 a : m n = Done a n1 -> run_call m n = Done ([], Returns a) n1.
Proof. intros E. unfold run_call, bind, ret. by rewrite E. Qed.
End prog.

Lemma write_at_end b d : write_at (len d) b d = d ++ b.
Proof.
  pose proof (write_at_extend 0 d b [] ltac:(lia)) as E. rewrite !write_at_empty in E. exact E.
Qed.

Lemma resize_self c : resize (len c) c = c.
Proof.
  unfold resize, zeros, len. replace (_ - _) with 0 by lia. cbn [Z.to_nat replicate].
  by rewrite app_nil_r, Nat2Z.id, firstn_all.
Qed.

Lemma write_at_resized c d : write_at 0 c (resize (len c) d) = c.
Proof.
  pose proof (len_resize (len c) d (len_nonneg c)) as Hl. pose proof (len_nonneg c).
  unfold write_at. rewrite (drop_ge (resize (len c) d)) by (unfold len in *; lia).
  rewrite app_nil_r. unfold resize at 1, zeros. rewrite Hl. change (Z.to_nat 0) with 0%nat.
  by replace (Z.to_nat (0 - len c)) with 0%nat by lia.
Qed.

(** ** Lemmas: buckets *)

Section buckets.
Context {W X K T : Type} `{MDService W} `{S3Client X} `{KernelFair K} `{Transfers T}.
Implicit Types n : Node W X K T.

(** What creating a bucket changes: the client, the service and the known
    buckets. *)
Definition learns n n' : Prop := exists c w known, n' = set_knownBuckets known (set_md c w n).

Lemma learns_refl n : learns n n.
Proof. exists (n_md n), (n_mdw n), (n_knownBuckets n). by destruct n. Qed.

Lemma learns_trans n n1 n2 : learns n n1 -> learns n1 n2 -> learns n n2.
Proof. intros (c & w & l & ->) (c' & w' & l' & ->). by exists c', w', l'. Qed.

(** The store has the buckets that the process knows. *)
Definition knows (b : str) (m : KvsSpec.state) n : Prop :=
  asking m n /\ sorted_keys (n_knownBuckets n) /\ (cs_exists b (n_knownBuckets n) = true -> is_Some (m !! b)).

Definition with_bucket (b : str) (m : KvsSpec.state) : KvsSpec.state := <[b := default ∅ (m !! b)]> m.

Lemma with_bucket_present b m : is_Some (m !! b) -> with_bucket b m = m.
Proof. intros [x Hx]. unfold with_bucket. rewrite Hx. by apply insert_id. Qed.

Lemma node_createBucket_step b n m :
  ok (isValidBucketName b) = true -> knows b m n ->
  exists n', geds_createBucket b n = Done OkStatus n' /\ learns n n' /\ knows b (with_bucket b m) n' /\
    (is_Some (m !! b) -> cs_exists b (n_knownBuckets n') = true).
Proof.
  intros Hv (Ha & Hs & Hk). pose proof Ha as (Hn & Habs & Hc). unfold geds_createBucket. rewrite Hv. cbn [negb].
  unfold bind at 1, geds_lookupBucket. unfold bind at 1, gets.
  destruct (cs_exists b (n_knownBuckets n)) eqn:Ek.
  { exists n. rewrite with_bucket_present by auto. split; [done|]. split; [apply learns_refl|].
    split; [split; [done|split; [exact Hs|intros _; by apply Hk]]|intros _; exact Ek]. }
  destruct (client_exec_sim (KvsSpec.BucketStatus b) false (n_md n) (n_mdw n) m Habs Hc Hn I)
    as (c & w & m' & r & E & [-> Hr] & Ha' & Hc' & Hn').
  cbn [client_exec] in E. unfold bind at 1, md_call. destruct (lookupBucket b (n_md n) (n_mdw n)) as [[c' w'] st].
  injection E as -> -> <-. injection Hr as ->. destruct (decide (is_Some (m !! b))) as [Hi|Hi].
  - change (ok OkStatus) with true. cbn [negb]. unfold bind at 1, modify, ret. change (ok OkStatus) with true. cbn iota.
    eexists. rewrite with_bucket_present by done. split; [reflexivity|]. split; [by eexists c, w, _|].
    pose proof (cs_insert_spec b _ Hs) as [Hs' Hin]. cbn [n_knownBuckets set_md].
    split; [split; [done|]; split; [exact Hs'|auto]|]. intros _. apply (cs_exists_spec b _ Hs'), Hin. by left.
  - assert (Hbad : ok (KvsSpec.no_bucket b) = false) by (unfold KvsSpec.no_bucket, NotFoundError; by rewrite ok_error).
    rewrite Hbad. cbn [negb]. unfold ret at 1. rewrite Hbad.
    destruct (client_exec_sim (KvsSpec.CreateBucket b) false c w m Ha' Hc' Hn' I)
      as (c2 & w2 & m2 & r2 & E2 & Hst & Ha2 & Hc2 & Hn2).
    cbn [client_exec] in E2. unfold bind at 1, md_call. cbn [n_md n_mdw set_md].
    destruct (client_createBucket b c w) as [[c'' w''] st2]. injection E2 as -> -> <-.
    cbn [sent_request KvsSpec.step] in Hst. unfold with_bucket.
    destruct (m !! b) as [x|]; [by destruct Hi|]. destruct Hst as [-> [= ->]]. cbn [default].
    change (ok OkStatus) with true. cbn [orb]. eexists. split; [reflexivity|].
    split; [exists c2, w2, (n_knownBuckets n); by destruct n|]. split; [|by intros ?].
    split; [done|]. cbn [n_knownBuckets set_md]. split; [done|congruence].
Qed.
End buckets.

(** ** Lemmas: new objects *)

Section objects.
Context {W X K T : Type} `{MDService W} `{S3Client X} `{KernelFair K} `{Transfers T}.
Context (fuel : nat).
Implicit Types n : Node W X K T.

(** A running process that can create the object [b/k], in a bucket that need not
    exist. *)
Record ready (b k : str) (m : KvsSpec.state) n : Prop := {
  rd_wf : node_wf n;
  rd_running : n_state n = Running;
  rd_valid : ok (isValid b k) = true;
  rd_kernel : interrupts (n_kernel n) = 0%nat;
  rd_new : mfind (getPath b k) (n_fileHandles n) = None;
  rd_unused : unused_path b k n;
  rd_knows : knows b m n
}.

Lemma learns_ready b k m m' n n' : learns n n' -> ready b k m n -> knows b m' n' -> ready b k m' n'.
Proof.
  intros (c & w & l & ->) [[W1 W2 W3] R2 R3 R4 R5 R6 _] Hk.
  constructor; [by constructor|exact R2|exact R3|exact R4|exact R5|exact R6|exact Hk].
Qed.

(** The bucket is looked up in [create] before anything else happens. *)
Lemma create_learns b k m n n' :
  ready b k m n -> geds_createBucket b n = Done OkStatus n' -> learns n n' ->
  cs_exists b (n_knownBuckets n') = true ->
  geds_create b k false n = geds_create b k false n'.
Proof.
  intros R E (c & w & l & Hn) Hk. pose proof (isValid_parts b k (rd_valid _ _ _ _ R)) as [Hv _].
  assert (Hr' : n_state n' = Running) by (rewrite Hn; apply R).
  assert (Eh : createAsFileHandle b k false n = createAsFileHandle b k false n').
  { unfold createAsFileHandle, running. rewrite (rd_running _ _ _ _ R), Hr', (rd_valid _ _ _ _ R). cbn [negb].
    rewrite (bind_done _ _ _ _ _ E), (bind_done _ _ _ _ _ (createBucket_known b n' Hv Hk)). done. }
  unfold geds_create, bind. by rewrite Eh.
Qed.

(** Creating the bucket and then the object. *)
Lemma new_object_step b k m n :
  ready b k m n ->
  exists n1 n0 n2, geds_createBucket b n = Done OkStatus n1 /\ learns n n0 /\ asking (with_bucket b m) n0 /\
    node_wf n0 /\ geds_create b k false n1 = Done (Value (n_next n)) n2 /\ creates b k n0 n2.
Proof.
  intros R. pose proof (isValid_parts b k (rd_valid _ _ _ _ R)) as [Hv _].
  destruct (node_createBucket_step b n m Hv (rd_knows _ _ _ _ R)) as (n1 & E1 & L1 & K1 & _).
  destruct (node_createBucket_step b n1 (with_bucket b m) Hv K1) as (n0 & E0 & L0 & K0 & Hknown).
  assert (Hin : is_Some (with_bucket b m !! b)) by (unfold with_bucket; by rewrite lookup_insert_eq).
  rewrite with_bucket_present in K0 by done. specialize (Hknown Hin).
  pose proof (learns_ready b k m _ n n1 L1 R K1) as R1.
  pose proof (learns_ready b k _ _ n1 n0 L0 R1 K0) as R0.
  destruct (geds_create_step b k n0) as (n2 & E2 & C); try apply R0; [done|].
  exists n1, n0, n2. split; [done|]. split; [by apply (learns_trans n n1)|]. split; [apply K0|]. split; [apply R0|].
  split; [|done]. rewrite (create_learns b k _ n1 n0 R1 E0 L0 Hknown), E2.
  destruct L1 as (? & ? & ? & ->), L0 as (? & ? & ? & ->). done.
Qed.

(** The object [b/k] has the contents [c] in a local file and is announced at
    [uri]. *)
Record announced (b k c uri : str) (h : nat) (m : KvsSpec.state) n : Prop := {
  an_state : n_state n = Running;
  an_kernel : interrupts (n_kernel n) = 0%nat;
  an_sorted : sorted (n_fileHandles n);
  an_registered : mfind (getPath b k) (n_fileHandles n) = Some h;
  an_file : exists i x, file_at h i c n /\ n_heap n !! h = Some x /\ h_isValid x = true;
  an_store : svc_abs (n_mdw n) (<[b := <[k := mkInfo uri (len c) (len c) None]> (default ∅ (m !! b))]> m)
}.

Lemma announced_settles b k c uri h m n n' :
  settles n n' -> n_mdw n' = n_mdw n -> announced b k c uri h m n -> announced b k c uri h m n'.
Proof.
  intros S Ew [A1 A2 A3 A4 (i & x & Hf & Hx & Hv) A6].
  destruct (se_heap _ _ S h x Hx) as (x' & Hx' & _ & Hv' & _).
  constructor; rewrite ?(se_state _ _ S), ?(se_kernel _ _ S), ?(se_handles _ _ S), ?Ew; try done.
  exists i, x'. split; [by apply (file_at_settles h i c n)|]. split; [done|congruence].
Qed.

Lemma announced_served b k c uri h m n fuel' :
  ok (isValid b k) = true -> announced b k c uri h m n -> (length c < fuel')%nat -> served fuel' b k c n h.
Proof.
  intros Hv [A1 A2 A3 A4 (i & x & Hf & Hx & Hval) _] Hfu. apply (served_of_file fuel' b k c n h i x); try done. lia.
Qed.

Lemma announced_close b k c uri h m n :
  announced b k c uri h m n -> exists n', close h n = Done tt n' /\ announced b k c uri h m n'.
Proof.
  intros A. pose proof A as [_ _ A3 A4 (i & x & Hf & Hx & Hval) _].
  destruct (close_registered (getPath b k) h n A3 A4) as (n' & E & S & Ew); [by rewrite Hx|].
  exists n'. split; [exact E|]. by apply (announced_settles b k c uri h m n n' S Ew).
Qed.

Lemma settles_names names n : settles n (set_names names n).
Proof. constructor; try done. intros h x Hx. by exists x. Qed.

Lemma learns_same n n0 :
  learns n n0 -> n_next n0 = n_next n /\ n_hostURI n0 = n_hostURI n /\ n_state n0 = n_state n /\
  n_kernel n0 = n_kernel n.
Proof. by intros (c & w & l & ->). Qed.

(** Sealing what was written to a new object. *)
Lemma announce_step b k c m n0 n2 n3 :
  node_wf n0 -> n_state n0 = Running -> asking (with_bucket b m) n0 ->
  creates b k n0 n2 -> framed n2 n3 -> file_at (n_next n0) (fs_next (n_fs n0)) c n3 ->
  exists path n4 n5, node_getLocalPath b k n3 = Done path n4 /\ h_seal (n_next n0) n4 = Done OkStatus n5 /\
    announced b k c (n_hostURI n0) (n_next n0) m n5.
Proof.
  intros Hw Hr (Hc & Ha & _) C F Hfile. set (h := n_next n0) in *. set (j := fs_next (n_fs n0)) in *.
  pose proof C as [(_ & Es & Emd & Ew & Eu & _) Ek Eh _ [f0 Hnew] _ _].
  destruct (framed_fields _ _ F) as (_ & Fs & Fmd & Fw & Fu & Fh & _).
  destruct (fr_heap _ _ F h _ Hnew) as (kd & Hd & Hsd).
  unfold node_getLocalPath. destruct (getLocalPath (n_pathPrefix n3) b k (n_names n3)) as [names path].
  set (n4 := set_names names n3). pose proof (settles_names names n3 : settles n3 n4) as S4.
  assert (Hm : with_bucket b m !! b = Some (default ∅ (m !! b))) by (unfold with_bucket; by rewrite lookup_insert_eq).
  destruct (seal_step h j c b k n4 (with_bucket b m) (default ∅ (m !! b)) _ (file_at_settles h j c n3 n4 S4 Hfile) Hd)
    as (n5 & E5 & S5 & A5); try exact Hm; try (cbn [n4 n_state n_md n_mdw set_names]; congruence); try done.
  { destruct Hfile as (y & f & s & Hy & Hyk & _). rewrite Hd in Hy. injection Hy as <-. cbn [h_kind with_kind] in *.
    subst kd. exists f, j. f_equal. exact Hsd. }
  exists path, n4, n5. split; [done|]. split; [exact E5|].
  destruct (se_heap _ _ S5 h _ Hd) as (x5 & Hx5 & _ & Hv5 & _).
  assert (Hh5 : n_fileHandles n5 = massign (getPath b k) h (n_fileHandles n0)).
  { rewrite (se_handles _ _ S5). cbn [n4 n_fileHandles set_names]. by rewrite Fh. }
  constructor.
  - rewrite (se_state _ _ S5). cbn [n4 n_state set_names]. congruence.
  - rewrite (se_kernel _ _ S5). cbn [n4 n_kernel set_names]. pose proof (fr_kernel _ _ F). lia.
  - rewrite Hh5. apply massign_sorted, Hw.
  - rewrite Hh5. apply mfind_massign_eq.
  - exists j, x5. split; [|done].
    by apply (file_at_settles h j c n4 n5 S5), (file_at_settles h j c n3 n4 S4).
  - cbn [n4 n_hostURI set_names] in A5. rewrite Fu, Eu in A5. unfold with_bucket in A5.
    by rewrite insert_insert_eq in A5.
Qed.

(** The contents of the big file after [r] rounds from the offset [off]. *)
Fixpoint big_contents (buffer : Z -> str) (r : nat) (off : Z) : str :=
  match r with
  | O => []
  | S r => buffer off ++ big_contents buffer r (off + BUFFER)
  end.

Lemma len_big_contents buffer r off :
  (forall o, len (buffer o) = BUFFER) -> len (big_contents buffer r off) = BUFFER * Z.of_nat r.
Proof.
  intros Hb. revert off. induction r as [|r IH]; intros off; cbn [big_contents]; [reflexivity|].
  rewrite len_app, Hb, IH. unfold BUFFER. lia.
Qed.

(** The last round begins with less than a buffer to write. *)
Definition SLACK : Z := 24576.

Lemma big_loop_step buffer h i r rounds d n :
  (forall o, len (buffer o) = BUFFER) -> BUFFER <= Z.of_nat fuel -> interrupts (n_kernel n) = 0%nat ->
  file_at h i d n -> len d + BUFFER * Z.of_nat r < 2 ^ 31 -> (r <= rounds)%nat ->
  exists n', big_loop fuel buffer rounds h (BUFFER * Z.of_nat r - SLACK) (len d) n = Done tt n' /\
    framed n n' /\ file_at h i (d ++ big_contents buffer r (len d)) n'.
Proof.
  intros Hb Hfu. revert rounds d n. induction r as [|r IH]; intros rounds d n Hk Hf Hl Hr.
  { exists n. rewrite app_nil_r. split; [by destruct rounds|]. split; [apply framed_refl|done]. }
  destruct rounds as [|rounds]; [lia|]. pose proof (len_nonneg d) as Hd. unfold BUFFER, SLACK in Hl, Hfu.
  cbn [big_loop]. rewrite (proj2 (Z.ltb_lt 0 _)) by (unfold BUFFER, SLACK; lia).
  destruct (file_write fuel h i d (buffer (len d)) (len d) n Hf) as (n1 & E1 & F1 & Hf1 & _);
    rewrite ?Hb; try (unfold BUFFER, INT64_MAX; lia).
  { rewrite Hk. pose proof (Hb (len d)) as Hbl. unfold len at 1, BUFFER in Hbl. lia. }
  rewrite Hb, write_at_end in *. rewrite (u64_small (len d)) by (unfold is_u64, two64; lia).
  rewrite (bind_done _ _ _ _ _ E1).
  assert (Elen : len (d ++ buffer (len d)) = len d + BUFFER) by (by rewrite len_app, Hb).
  assert (Hk1 : interrupts (n_kernel n1) = 0%nat) by (pose proof (fr_kernel _ _ F1); lia).
  destruct (IH rounds (d ++ buffer (len d)) n1 Hk1 Hf1) as (n' & E & F & Hf'); [rewrite Elen; unfold BUFFER; lia|lia|].
  exists n'. split; [|split; [by apply (framed_trans n n1)|]].
  - rewrite Elen in E. rewrite <- E. unfold BUFFER, SLACK.
    destruct r as [|r]; [by destruct rounds|]. f_equal; rewrite i32_small; lia.
  - cbn [big_contents]. rewrite <- Elen. by rewrite app_assoc.
Qed.
End objects.

(** ** Lemmas: waiting *)

Section waiting.
Context {W X K T : Type} `{MDService W} `{S3Client X} `{Kernel K} `{Transfers T}.
Context (fuel : nat).
Implicit Types n : Node W X K T.

Lemma stop_step server n :
  n_state n = Running ->
  exists n', geds_stop fuel false server n = Done server n' /\ n_state n' = Stopped /\ n_fileHandles n' = [].
Proof.
  intros Hr. unfold geds_stop, running_status. rewrite Hr. unfold bind at 1, ret at 1.
  unfold bind at 1. destruct (disconnect (n_md n)) as [c st].
  unfold bind at 1, gets. unfold bind at 1, modify. unfold bind at 1.
  match goal with |- context [drop_refs ?l ?n1] => destruct (keeps_drop_refs l n1) as (n2 & -> & S2) end.
  eexists. split; [reflexivity|]. split; [done|]. cbn. rewrite (sm_handles _ _ S2). done.
Qed.

Lemma keeps_close h : keeps (X := X) (T := T) (close h : M W X K T unit).
Proof. apply keeps_bind; [apply keeps_decrease|apply keeps_drop_ref]. Qed.

(** Waiting ends in the second of the first signal. *)
Lemma wait_step server signals h n :
  n_state n = Running ->
  (existsb (fun s => s) signals = false /\
   (do _ <- wait_for_signal fuel false server signals ;; run_call (close h)) n = Done ([], Waits) n) \/
  (existsb (fun s => s) signals = true /\
   exists n', (do _ <- wait_for_signal fuel false server signals ;; run_call (close h)) n = Done ([], Returns tt) n' /\
     n_state n' = Stopped /\ n_fileHandles n' = []).
Proof.
  intros Hr. induction signals as [|[] signals IH]; [by left| |exact IH].
  right. split; [done|]. destruct (stop_step server n Hr) as (n1 & E1 & Hst & Hh).
  destruct (keeps_close h n1) as (n2 & E2 & S2).
  exists n2. split; [|by rewrite (sm_state _ _ S2), (sm_handles _ _ S2)].
  apply (pbind_returns _ _ n n1 [] tt); [|by apply run_call_done].
  cbn [wait_for_signal]. by rewrite (pbind_call _ _ _ _ _ _ E1 eq_refl).
Qed.
End waiting.

(** ** Lemmas: downloading *)

Section download.
Context {W X K T : Type} `{MDStub W} `{S3Client X} `{Kernel K} `{Transfers T}.
Context (fuel : nat).
Implicit Types n : Node W X K T.

(** The characters before the first zero byte, if there is one. *)
Fixpoint until_zero (s : str) : option str :=
  match s with
  | [] => None
  | c :: s => if bool_decide (c = zero_byte) then Some [] else cons c <$> until_zero s
  end.

Lemma text_at_until c : text_at c = until_zero c.
Proof.
  induction c as [|x c IH]; [done|]. unfold text_at in *. cbn [find_char until_zero].
  case_bool_decide; [done|]. rewrite <- IH. by destruct (find_char zero_byte c).
Qed.

(** What is printed for an object, and whether the text ends in the buffer. *)
Definition download_result (b k c : str) : list line * ended unit :=
  let read := Out ("Read file with length " ++ to_string (len c)) in
  if ends_with ".txt" k then
    match until_zero c with
    | None => ([read], Overruns)
    | Some text =>
        ([read; Out ("The file " ++ b ++ "/" ++ k ++ " has the following content: " ++ [ascii_of_N 10] ++ text)], Returns tt)
    end
  else ([read], Returns tt).

Lemma read_buffer_all h c n n' :
  is_u64 (len c) -> gf_readBytes fuel h 0 (len c) n = Done (Value (len c, c)) n' ->
  read_buffer fuel h [] 0 0 (len c) n = Done (c, Value (len c)) n'.
Proof.
  intros Hl E. unfold read_buffer, gf_read_vec, gf_read, vec_size, vec_resize.
  change (u64 (0 * 1)) with 0. change (0 * 1) with 0. change (len [] / 1) with 0.
  rewrite !Z.add_0_l, !Z.mul_1_r, !u64_small by done. unfold lift. rewrite E.
  rewrite Z.div_1_r, !Z.mul_1_r, !Z.add_0_l, !u64_small by done. cbn [lower]. f_equal. f_equal.
  pose proof (len_nonneg c) as Hn. destruct (Z.ltb_spec 0 (len c)) as [Hlt|Hge].
  - by rewrite write_at_resized, resize_self.
  - assert (c = []) as -> by (apply len_0; lia). done.
Qed.

Lemma download_core b k c h x n n1 n2 n3 :
  geds_open b k true n = Done (Value h) n1 -> h_size h n1 = Done (Value (len c)) n1 -> is_u64 (len c) ->
  gf_readBytes fuel h 0 (len c) n1 = Done (Value (len c, c)) n2 -> h_size h n2 = Done (Value (len c)) n2 ->
  n_heap n2 !! h = Some x -> h_bucket x = b -> h_key x = k -> close h n2 = Done tt n3 ->
  exists n', downloadFile fuel b k n = Done (download_result b k c) n'.
Proof.
  intros E1 Es1 Hl E2 Es2 Hx <- <- E3.
  assert (Esize : forall n', h_size h n' = Done (Value (len c)) n' -> gf_size h n' = Done (len c) n').
  { intros n' E. unfold gf_size. by rewrite (bind_done _ _ _ _ _ E). }
  unfold downloadFile. rewrite (pbind_call _ _ _ _ _ _ E1 eq_refl), (pbind_call _ _ _ _ _ _ (Esize _ Es1) eq_refl).
  rewrite (pbind_call _ _ _ _ _ _ (read_buffer_all h c n1 n2 Hl E2) eq_refl).
  rewrite (pbind_call _ _ _ _ _ _ (Esize _ Es2) eq_refl), Z.eqb_refl. cbn [negb].
  set (rest := fun _ : unit => _).
  assert (Er : exists n', rest tt n2 = Done (download_result (h_bucket x) (h_key x) c) n').
  { unfold rest, download_result. rewrite text_at_until.
    destruct (ends_with ".txt" (h_key x)); [destruct (until_zero c) as [t|]|].
    - eexists. apply pbind_print. assert (Eh : the_handle h n2 = Done x n2) by (unfold the_handle; by rewrite Hx).
      rewrite (pbind_call _ _ _ _ _ _ Eh eq_refl). apply pbind_print. by apply run_call_done.
    - eexists. by apply pbind_print.
    - eexists. apply pbind_print. by apply run_call_done. }
  destruct Er as [n' Er]. exists n'.
  unfold pbind at 1, pret, bind, ret. rewrite Er. by destruct (download_result _ _ _).
Qed.
End download.

Lemma split_path_name b k : "/"%char ∉ b -> split_path (b ++ "/" ++ k) = (b, k).
Proof.
  intros Hb. unfold split_path. change (b ++ "/" ++ k) with (b ++ "/"%char :: k).
  rewrite find_char_app_cons by done. rewrite take_app_length, <- drop_drop.
  by rewrite drop_app_length.
Qed.

(** [createBigFile] in [r] rounds. *)
Lemma big_file_rounds {W X K T : Type} `{MDService W} `{S3Client X} `{KernelFair K} `{Transfers T}
    fuel rounds buffer b k r (n : Node W X K T) m :
  ready b k m n -> (forall o, len (buffer o) = BUFFER) -> BUFFER <= Z.of_nat fuel -> Z.of_nat r = 26215 -> (r <= rounds)%nat ->
  let c := big_contents buffer r 0 in
  len c = BIG_FILE_SIZE + 24576 /\
  exists path n',
    createBigFile fuel buffer rounds b k n =
      Done ([created_line b k path; Out ("Created Big File, size: " ++ to_string 1073766400)], Returns tt) n' /\
    svc_abs (n_mdw n') (<[b := <[k := mkInfo (n_hostURI n) (len c) (len c) None]> (default ∅ (m !! b))]> m) /\
    forall fuel', len c < Z.of_nat fuel' -> reads_back fuel' b k c n'.
Proof.
  intros R Hb Hfu Hrr Hr c.
  assert (Hlen : len c = 1073766400) by (unfold c; rewrite len_big_contents by done; unfold BUFFER; lia).
  split; [rewrite Hlen; reflexivity|].
  destruct (new_object_step b k m n R) as (n1 & n0 & n2 & E1 & L & A & Hw & E2 & C).
  destruct (learns_same n n0 L) as (En & Eu & Es & _). rewrite (rd_running _ _ _ _ R) in Es.
  destruct (big_loop_step fuel buffer (n_next n0) (fs_next (n_fs n0)) r rounds [] n2 Hb Hfu
              (cr_kernel _ _ _ _ C) (cr_file _ _ _ _ C)) as (n3 & E3 & F & Hfile); [unfold BUFFER; change (len []) with 0; lia|lia|].
  destruct (announce_step b k c m n0 n2 n3 Hw Es A C F Hfile) as (path & n4 & n5 & E4 & E5 & An).
  rewrite Eu, En in An. rewrite En in E3, E5.
  destruct (announced_close b k c _ _ m n5 An) as (n6 & E6 & An6).
  pose proof An as [_ _ _ _ (i & x & Hf5 & _) _].
  assert (E7 : gf_size (n_next n) n5 = Done (len c) n5).
  { unfold gf_size. by rewrite (bind_done _ _ _ _ _ (file_size _ _ _ _ Hf5)). }
  rewrite Hrr in E3. change (BUFFER * 26215 - SLACK) with BIG_FILE_SIZE in E3. change (len []) with 0 in E3.
  exists path, n6. split; [|split; [apply An6|]].
  - unfold createBigFile. rewrite (pbind_call _ _ _ _ _ _ E1 eq_refl). change (ok OkStatus) with true. cbn [negb].
    rewrite (pbind_call _ _ _ _ _ _ E2 eq_refl), (pbind_call _ _ _ _ _ _ E3 eq_refl), (pbind_call _ _ _ _ _ _ E4 eq_refl).
    apply pbind_print. rewrite (pbind_call _ _ _ _ _ _ E5 eq_refl). change (ok OkStatus) with true. cbn [negb].
    rewrite (pbind_call _ _ _ _ _ _ E7 eq_refl), Hlen. apply pbind_print. by apply run_call_done.
  - intros fuel' Hfuel. apply (served_reads_back fuel' b k c n6 (n_next n)).
    apply (announced_served b k c (n_hostURI n) _ m); [apply R|done|unfold len in *; lia].
Qed.

(** ** Properties *)

(** The big file is not as big as announced in the source. In a running process
    that can create the object, [createBigFile] creates the bucket if it has to,
    writes 26215 buffers of 40960 bytes one after the other, seals and announces the
    object, and prints its size: 1073766400 bytes, 24576 more than
    [BIG_FILE_SIZE], because the last buffer is written whole. The offset and the
    size do not overflow. Opening and reading the object gives the buffers. *)
Theorem big_file_exact (W X K T : Type) `{MDService W} `{S3Client X} `{KernelFair K} `{Transfers T}
    fuel rounds buffer b k (n : Node W X K T) m :
  ready b k m n -> (forall o, len (buffer o) = BUFFER) -> BUFFER <= Z.of_nat fuel -> 26215 <= Z.of_nat rounds ->
  let c := big_contents buffer (Z.to_nat 26215) 0 in
  len c = BIG_FILE_SIZE + 24576 /\
  exists path n',
    createBigFile fuel buffer rounds b k n =
      Done ([created_line b k path; Out ("Created Big File, size: " ++ to_string 1073766400)], Returns tt) n' /\
    svc_abs (n_mdw n') (<[b := <[k := mkInfo (n_hostURI n) (len c) (len c) None]> (default ∅ (m !! b))]> m) /\
    forall fuel', len c < Z.of_nat fuel' -> reads_back fuel' b k c n'.
Proof.
  intros R Hb Hfu Hr. apply (big_file_rounds fuel rounds buffer b k (Z.to_nat 26215) n m R Hb Hfu); [|lia].
  apply Z2Nat.id. lia.
Qed.

(** Serving: [serveFile] creates the greeting of the host, announces it, and while
    no signal arrives the object can be opened and read; after the first SIGINT
    the service is stopped and has no handles, and the function returns. *)
Theorem serve_file_exact (W X K T : Type) `{MDService W} `{S3Client X} `{KernelFair K} `{Transfers T}
    fuel hostName server signals (n : Node W X K T) m :
  ready hostName "testfile" m n -> (length (greeting hostName) <= fuel)%nat -> len (greeting hostName) < INT64_MAX ->
  let c := greeting hostName in
  exists path n1,
    svc_abs (n_mdw n1)
      (<[hostName := <[("testfile" : str) := mkInfo (n_hostURI n) (len c) (len c) None]> (default ∅ (m !! hostName))]> m) /\
    (forall fuel', (length c < fuel')%nat -> reads_back fuel' hostName "testfile" c n1) /\
    if existsb (fun s => s) signals
    then exists n2, serveFile fuel hostName false server signals n =
           Done ([created_line hostName "testfile" path], Returns tt) n2 /\
         n_state n2 = Stopped /\ n_fileHandles n2 = []
    else serveFile fuel hostName false server signals n = Done ([created_line hostName "testfile" path], Waits) n1.
Proof.
  intros R Hfu Hsm c.
  destruct (new_object_step hostName "testfile" m n R) as (n1 & n0 & n2 & E1 & L & A & Hw & E2 & C).
  destruct (learns_same n n0 L) as (En & Eu & Es & _). rewrite (rd_running _ _ _ _ R) in Es.
  assert (Hpos : 0 < len c) by (unfold c, greeting, len; simpl; lia).
  destruct (file_write fuel (n_next n0) (fs_next (n_fs n0)) [] c 0 n2 (cr_file _ _ _ _ C)) as (n3 & E3 & F & Hfile & _);
    [lia|done|unfold c in *; lia|rewrite (cr_kernel _ _ _ _ C); unfold c; lia|]. rewrite write_at_empty in Hfile.
  destruct (announce_step hostName "testfile" c m n0 n2 n3 Hw Es A C F Hfile) as (path & n4 & n5 & E4 & E5 & An).
  rewrite Eu, En in An. rewrite En in E3, E5.
  exists path, n5. split; [apply An|]. split.
  { intros fuel' Hfuel. apply (served_reads_back fuel' hostName "testfile" c n5 (n_next n)).
    apply (announced_served hostName "testfile" c (n_hostURI n) _ m); [apply R|done|done]. }
  assert (Hserve : forall l e n', (do _ <- wait_for_signal fuel false server signals ;; run_call (close (n_next n))) n5 = Done (l, e) n' ->
    serveFile fuel hostName false server signals n = Done (created_line hostName "testfile" path :: l, e) n').
  { intros l e n' E. unfold serveFile. rewrite (pbind_call _ _ _ _ _ _ E1 eq_refl). change (ok OkStatus) with true. cbn [negb].
    apply (pbind_returns _ _ n1 n1 [] tt); [done|].
    rewrite (pbind_call _ _ _ _ _ _ E2 eq_refl), (pbind_call _ _ _ _ _ _ E3 eq_refl), (pbind_call _ _ _ _ _ _ E4 eq_refl).
    apply pbind_print. rewrite (pbind_call _ _ _ _ _ _ E5 eq_refl). change (ok OkStatus) with true. cbn [negb]. exact E. }
  destruct (wait_step fuel server signals (n_next n) n5 (an_state _ _ _ _ _ _ _ An)) as [[Hno Ew]|[Hyes Ew]].
  - rewrite Hno. apply (Hserve [] Waits n5 Ew).
  - rewrite Hyes. destruct Ew as (n6 & Ew & Hst & Hh). exists n6. split; [exact (Hserve [] (Returns tt) n6 Ew)|done].
Qed.

(** C26: downloading. With a path [bucket/key] of an object that another process has and
    a service that starts, the program opens the object, connecting to the host,
    reads all of it and prints its length and, for a key that ends in .txt, the
    text up to the first zero byte; a text without a zero byte is read past its
    end. *)
Theorem geds_program_download (W X K T : Type) `{MDService W} `{S3Client X} `{KernelFair K} `{TransferHosts T}
    fuel fl bt hostName buffer rounds force server signals b k c a i (n n1 : Node W X K T) m mb st :
  geds_start bt n = Done st n1 -> ok st = true -> gf_downloadFile fl = b ++ "/" ++ k ->
  node_wf n1 -> n_state n1 = Running -> ok (isValid b k) = true ->
  mfind (getPath b k) (n_fileHandles n1) = None ->
  is_connected (n_md n1) = true -> svc_abs (n_mdw n1) m -> coherent (n_md n1) m ->
  m !! b = Some mb -> mb !! k = Some i -> location i = "geds://" ++ a -> a <> [] -> osize i = len c ->
  len c < INT64_MAX -> n_fileTransfers n1 = [] -> th_open a (n_transfers n1) -> th_has a b k c (n_transfers n1) ->
  exists n', geds_program fuel fl bt hostName buffer rounds force server signals n =
    Done (Out "GEDS is running." :: fst (download_result b k c),
          match snd (download_result b k c) with Overruns => Overruns | _ => Exits EXIT_SUCCESS end) n'.
Proof.
  intros Est Hok Hfl Hw Hr Hv Hf Hc Ha Hco Hm Hmb Hloc Hne Hsz Hsm Hft Ho Hhas. pose proof (len_nonneg c) as Hpos.
  pose proof (isValid_parts b k Hv) as [Hvb _].
  destruct (open_remote_step b k a i m mb n1 Hr Hv Hf Hc Ha Hco Hm Hmb Hloc Hne)
    as (cl & w & ft & t & E & _ & _ & Hconn & _ & Hkh); [right; by rewrite Hft|].
  set (n2 := remote_opened b k a i cl w ft t n1) in E. set (h := S (n_next n1)) in E.
  destruct (remote_opened_heap b k a i cl w ft t n1) as [Hrh Hsh]. fold n2 h in Hrh, Hsh.
  assert (Eread : exists n3, gf_readBytes fuel h 0 (len c) n2 = Done (Value (len c, c)) n3 /\
    n_heap n3 = n_heap n2 /\ n_fileHandles n3 = n_fileHandles n2).
  { destruct (Z.eq_dec (len c) 0) as [Hz|Hz].
    - apply len_0 in Hz as ->. exists n2. split; [|done].
      unfold gf_readBytes, DEPTH. cbn [h_readBytes]. unfold bind at 1, the_handle. rewrite Hsh. cbn [h_kind with_count newHandle].
      unfold reloc_readBytes. unfold bind at 1, the_handle. rewrite Hsh. cbn [h_kind with_count newHandle]. unfold bind at 1.
      unfold bind at 1, the_handle. rewrite Hrh. reflexivity.
    - destruct (remote_read_step fuel h (n_next n1) _ _ a i b k c 0 (len c) n2 Hsh eq_refl Hrh eq_refl eq_refl eq_refl Hconn (Hkh _ _ _ _ Hhas))
        as (t' & E2 & _); [unfold INT64_MAX; lia|unfold two64, INT64_MAX in *; lia|].
      rewrite slice_all in E2. replace (Z.max 0 _) with (len c) in E2 by lia. eexists. split; [exact E2|done]. }
  destruct Eread as (n3 & Er & Hh3 & Hf3).
  assert (Esize : forall n' : Node W X K T, n_heap n' = n_heap n2 -> h_size h n' = Done (Value (len c)) n').
  { intros n' Hn'. assert (Er' : resolve h n' = Done (n_next n1, newHandle b k (metadata i) (KRemote a i)) n').
    { unfold resolve, bind, the_handle. rewrite Hn', Hsh. cbn [h_kind with_count newHandle]. by rewrite Hn', Hrh. }
    unfold h_size. rewrite (bind_done _ _ _ _ _ Er'). unfold base_size. cbn [snd h_kind newHandle]. by rewrite Hsz. }
  destruct (keeps_close h n3) as (n4 & E4 & _).
  destruct (download_core fuel b k c h (with_count 1 (newHandle b k None (KReloc (n_next n1)))) n1 n2 n3 n4 E
              (Esize n2 eq_refl) ltac:(unfold is_u64, two64, INT64_MAX in *; lia) Er (Esize n3 Hh3)) as [n' Ed];
    [by rewrite Hh3|done|done|exact E4|].
  exists n'. unfold geds_program. rewrite (pbind_call _ _ _ _ _ _ Est eq_refl), Hok. cbn [negb].
  apply pbind_print. rewrite bool_decide_false by (rewrite Hfl; by destruct b). rewrite Hfl.
  rewrite split_path_name by (by apply valid_bucket_no_slash).
  unfold pbind, bind. rewrite Ed. unfold download_result. destruct (ends_with ".txt" k); [destruct (until_zero c)|];
    unfold pexit, ret; cbn [fst snd]; by rewrite ?app_nil_r.
Qed.

(** ** Witnesses *)

#[local] Existing Instance the_stub.
#[local] Existing Instance the_service.

Lemma demo_ready k :
  ok (isValid "bkt" k) = true -> unused_path "bkt" k demo_node -> ready "bkt" k {[("bkt" : str) := ∅]} demo_node.
Proof.
  intros Hv Hu. constructor; [apply demo_node_wf|reflexivity|exact Hv|reflexivity|reflexivity|exact Hu|].
  split; [split; [reflexivity|split; [apply (newKVS_abs (Some ("bkt" : str)))|apply empty_coherent]]|].
  split; [split; constructor|]. intros _. by rewrite lookup_singleton_eq.
Qed.

Lemma big_file_exact_witness :
  let c := big_contents (fun _ => zeros BUFFER) (Z.to_nat 26215) 0 in
  len c = 1073766400 /\
  exists path n', createBigFile (Z.to_nat 40960) (fun _ => zeros BUFFER) (Z.to_nat 26215) "bkt" "baer" demo_node =
      Done ([created_line "bkt" "baer" path; Out ("Created Big File, size: " ++ to_string 1073766400)], Returns tt) n' /\
    reads_back (Z.to_nat 2000000000) "bkt" "baer" c n'.
Proof.
  intros c.
  destruct (big_file_exact Server MemS3.world nat unit (Z.to_nat 40960) (Z.to_nat 26215) (fun _ => zeros BUFFER)
              "bkt" "baer" demo_node _ (demo_ready "baer" eq_refl eq_refl))
    as (Hl & path & n' & E & _ & R).
  - intros o. apply len_zeros. unfold BUFFER. lia.
  - rewrite Z2Nat.id; unfold BUFFER; lia.
  - rewrite Z2Nat.id; lia.
  - fold c in Hl, R. split; [rewrite Hl; reflexivity|]. exists path, n'. split; [exact E|]. apply R.
    rewrite Hl, Z2Nat.id; unfold BIG_FILE_SIZE; lia.
Defined.

(** A signal in the third second. *)
Lemma serve_file_exact_witness :
  exists path n1 n2,
    reads_back 40 "bkt" "testfile" (greeting "bkt") n1 /\
    serveFile 40 "bkt" false OkStatus [false; false; true] demo_node =
      Done ([created_line "bkt" "testfile" path], Returns tt) n2 /\
    n_state n2 = Stopped.
Proof.
  destruct (serve_file_exact Server MemS3.world nat unit 40 "bkt" OkStatus [false; false; true] demo_node _
              (demo_ready "testfile" eq_refl eq_refl))
    as (path & n1 & _ & Rb & n2 & E & Hs & _); [simpl; lia|vm_compute; reflexivity|].
  exists path, n1, n2. split; [apply Rb; simpl; lia|]. split; [exact E|exact Hs].
Defined.

(** A process that downloads an object of the demonstration host. *)
Definition download_flags : GedsFlags := mkGedsFlags "host" 4381 4382 "/tmp/GEDS_XXXXXX" "bkt/dir/key".

Definition started_client : Node Server MemS3.world nat (Net Server MemS3.world nat unit) :=
  set_state Running (set_hostURI (computeHostUri "node1" 4382) (set_md connected_client remote_store remote_client)).

Definition stopped_client : Node Server MemS3.world nat (Net Server MemS3.world nat unit) :=
  set_state Stopped
    (set_hostURI [] (set_md (newMetadataService (ms_uuid connected_client) (ms_serverAddress connected_client) None)
                       remote_store remote_client)).

Lemma client_starts : geds_start boot_ok stopped_client = Done OkStatus started_client.
Proof. reflexivity. Qed.

Lemma geds_program_download_witness :
  exists n', geds_program (H2 := tcp 30 "pppp" 1) 30 download_flags boot_ok "node1" (fun _ => []) 0 false OkStatus [] stopped_client =
    Done ([Out "GEDS is running."; Out "Read file with length 5"], Exits 0) n'.
Proof.
  destruct (geds_program_download Server MemS3.world nat (Net Server MemS3.world nat unit) (H5 := demo_hosts)
              30 download_flags boot_ok "node1" (fun _ => []) 0 false OkStatus [] "bkt" "dir/key" "hello" demo_address remote_info
              stopped_client started_client
              (<[("bkt" : str) := <[("dir/key" : str) := remote_info]> ∅]> {[("bkt" : str) := ∅]})
              (<[("dir/key" : str) := remote_info]> ∅) OkStatus client_starts eq_refl eq_refl)
    as (n' & E); try reflexivity.
  - destruct (cc_wf _ _ _ _ _ remote_can_create). by constructor.
  - exact remote_store_abs.
  - apply empty_coherent.
  - intros [=].
  - exact (conj demo_open (conj demo_accepting demo_socket)).
  - exact demo_tcp_has.
  - exists n'. exact E.
Defined.
