(* ===== verification/GEDSRace.v ===== *)
(** * Threads that create the same object

    [GEDS::createAsFileHandle] (src/src/libgeds/GEDS.cpp) in the steps between
    which another thread can come: opening the local file, entering the handle in
    the map, and destroying the handle of a thread that comes too late. What
    happens when any number of threads create one object at the same time. *)

From Stdlib Require Import Ascii ZArith Lia.
From stdpp Require Import base gmap sets list relations strings numbers.
From S2P Require Import Prelude Bytes Decimal Status StdMap Path Object FileSet MDSKVS S3Endpoint Rpc.
From S2P Require Import MetadataServer MetadataService LocalFile ConcurrentMap GedsNames FileHandle.
From S2P Require Import Node Handles HandleIO GEDS GEDSCreate GEDSObjects.

Open Scope Z_scope.
Open Scope list_scope.

#[local] Opaque to_string.

(** ** Steps *)

(** Where a thread is in the call: before it, with the new handle, with a handle
    that was not entered, or returned. *)
Inductive pc :=
| Begin
| Opened (h : nat)
| Lost (h : nat)
| Returned (r : StatusOr nat).

Definition exists_status (bucket key : str) : Status :=
  AlreadyExistsError ("The file " ++ name (getPath bucket key) ++ "already exists!").

Section steps.
Context {W X K T : Type} `{MDStub W} `{S3Client X} `{Kernel K} `{Transfers T}.
Context (bucket key : str).
Implicit Types n : Node W X K T.

(** Up to [GEDSLocalFileHandle::factory] *)
Definition open_part : M W X K T pc :=
  fun n =>
    match n_state n with
    | Running =>
        (let check := isValid bucket key in
         if negb (ok check) then ret (Returned (from_status check)) else
         let* bucketStatus := geds_createBucket bucket in
         if negb (ok bucketStatus) then ret (Returned (from_status bucketStatus)) else
         let* handle := local_factory bucket key None None in
         match handle with
         | Error st => ret (Returned (Error st))
         | Value h => ret (Opened h)
         end) n
    | st => Done (Returned (Error (FailedPreconditionError ("The service is " ++ state_name st ++ ".")))) n
    end.

(** [_fileHandles.insertOrExists] *)
Definition register_part (h : nat) : M W X K T pc :=
  let* r := gets (fun n => insertOrExists (getPath bucket key) h (n_fileHandles n)) in
  modify (set_fileHandles (fst r)) ;;
  ret (if bool_decide (snd r <> h) then Lost h else Returned (Value (snd r))).

(** Leaving the function destroys a handle that was not entered. *)
Definition discard_part (h : nat) : M W X K T pc :=
  drop_ref h ;; ret (Returned (Error (exists_status bucket key))).

Definition advance (c : pc) : M W X K T pc :=
  match c with
  | Begin => open_part
  | Opened h => register_part h
  | Lost h => discard_part h
  | Returned r => ret (Returned r)
  end.

(** A thread that is not disturbed makes the call of GEDS.v. *)
Definition result_of (c : pc) : StatusOr nat :=
  match c with Returned r => r | _ => Error (InternalError "not returned") end.

Lemma create_in_steps n :
  createAsFileHandle bucket key false n =
  (let* c := advance Begin in let* c := advance c in let* c := advance c in ret (result_of c)) n.
Proof.
  unfold createAsFileHandle, running, open_part, advance, open_part, register_part, discard_part, bind, gets, modify, ret.
  destruct (n_state n); try done. destruct (ok (isValid bucket key)); cbn [negb]; [|done].
  destruct (geds_createBucket bucket n) as [st n1| |]; [|done..]. destruct (ok st); cbn [negb]; [|done].
  destruct (local_factory bucket key None None n1) as [[h|e] n2| |]; [|done..].
  case_bool_decide; [|done]. destruct (drop_ref h _) as [[] n3| |]; done.
Qed.

(** Any thread makes its next step. *)
Definition System : Type := list pc * Node W X K T.

Inductive race_step : System -> System -> Prop :=
| race t ts c c' n n' :
    ts !! t = Some c -> advance c n = Done c' n' -> race_step (ts, n) (<[t := c']> ts, n').
End steps.

(** ** Lemmas: paths *)

(** Asking again for a path gives the same path. *)
Lemma getLocalPath_again prefix b k s :
  snd (getLocalPath prefix b k (fst (getLocalPath prefix b k s))) = snd (getLocalPath prefix b k s).
Proof.
  unfold getLocalPath at 2 3, cm_get, insertOrExists. destruct (mfind (b ++ "/" ++ k) (fileNames s)) as [v|] eqn:E.
  { cbn [fst snd]. unfold getLocalPath, cm_get. by rewrite E. }
  assert (Hne : k <> b ++ "/" ++ k).
  { intros Hk. apply (f_equal (@length ascii)) in Hk. rewrite !length_app in Hk. cbn [length] in Hk. simpl in Hk. lia. }
  destruct (mfind k (fileNames s)) as [v|] eqn:Ek; cbn [fst snd]; unfold getLocalPath, cm_get, insertOrExists; cbn [fileNames].
  - by rewrite E, Ek.
  - rewrite mfind_massign_ne, E by congruence. by rewrite mfind_massign_eq.
Qed.

(** ** The invariant *)

Section race.
Context {W X K T : Type} `{MDStub W} `{S3Client X} `{KernelFair K} `{Transfers T}.
Context (b k : str).
Implicit Types n : Node W X K T.

(** The handle a thread has. *)
Definition own (c : pc) : option nat :=
  match c with
  | Opened h | Lost h | Returned (Value h) => Some h
  | _ => None
  end.

Definition pending (c : pc) : Prop := match c with Opened _ | Lost _ => True | _ => False end.
Definition early (c : pc) : Prop := match c with Begin | Opened _ => True | _ => False end.
Definition late (c : pc) : Prop :=
  match c with Returned (Value _) => False | Returned (Error st) => st = exists_status b k | _ => True end.

Definition new_file (p : str) (i : Z) : Handle := newHandle b k None (KLocal (mkLocalFile p 0 0 []) i false).

(** A running process that knows the bucket, without the object. *)
Record can_race n : Prop := {
  cr_wf : node_wf n;
  cr_state : n_state n = Running;
  cr_valid : ok (isValid b k) = true;
  cr_known : cs_exists b (n_knownBuckets n) = true;
  cr_quiet : interrupts (n_kernel n) = 0%nat;
  cr_absent : mfind (getPath b k) (n_fileHandles n) = None
}.

Definition path_of n : str := snd (getLocalPath (n_pathPrefix n) b k (n_names n)).

Record race_inv n0 (ts : list pc) n : Prop := {
  ri_fields : n_state n = Running /\ n_knownBuckets n = n_knownBuckets n0 /\
    interrupts (n_kernel n) = 0%nat /\ path_of n = path_of n0;
  ri_handles :
    (n_fileHandles n = n_fileHandles n0 /\ Forall early ts) \/
    (exists t w, n_fileHandles n = massign (getPath b k) w (n_fileHandles n0) /\
       ts !! t = Some (Returned (Value w)) /\ forall t' c, ts !! t' = Some c -> t' <> t -> late c);
  ri_own t c h : ts !! t = Some c -> own c = Some h ->
    (n_next n0 <= h)%nat /\ exists i, n_heap n !! h = Some (new_file (path_of n0) i);
  ri_distinct t t' c c' h : ts !! t = Some c -> ts !! t' = Some c' -> own c = Some h -> own c' = Some h -> t = t';
  ri_heap h x : n_heap n !! h = Some x -> (h < n_next n)%nat /\ Forall (fun c => (c < n_next n0)%nat) (children x);
  ri_next : (n_next n0 <= n_next n)%nat;
  ri_name : fs_names (n_fs n) !! path_of n0 = None \/ List.Exists pending ts \/
    (forall t st, ts !! t <> Some (Returned (Error st)))
}.

Lemma race_start n0 count : can_race n0 -> race_inv n0 (replicate count Begin) n0.
Proof.
  intros [Hw Hs _ _ Hq _]. assert (Hb : forall t c, replicate count Begin !! t = Some c -> c = Begin).
  { intros t c Hc. by apply lookup_replicate_1 in Hc as [-> _]. }
  constructor.
  - done.
  - left. split; [done|]. by apply Forall_replicate.
  - intros t c h Hc. by rewrite (Hb t c Hc).
  - intros t t' c c' h Hc. by rewrite (Hb t c Hc).
  - intros h x Hx. by apply (nw_heap n0 Hw).
  - done.
  - right. right. intros t st Hc. by apply Hb in Hc.
Qed.

(** Opening *)
Lemma open_step n0 ts n :
  can_race n0 -> race_inv n0 ts n ->
  exists i kern fs names, open_part b k n =
      Done (Opened (n_next n)) (created b k i fs names (path_of n0) kern n) /\
    interrupts kern = 0%nat /\ snd (getLocalPath (n_pathPrefix n) b k names) = path_of n0.
Proof.
  intros [_ _ Hv Hk _ _] [(Hs & Hkb & Hq & Hp) _ _ _ _ _ _]. pose proof (local_factory_quiet b k n Hq) as HF.
  pose proof (getLocalPath_again (n_pathPrefix n) b k (n_names n)) as Hagain. unfold path_of in *.
  destruct (getLocalPath (n_pathPrefix n) b k (n_names n)) as [names p]. cbn [fst snd] in *.
  destruct HF as (kern & fs & Hkern & E & _). rewrite <- Hp. eexists _, kern, fs, names.
  split; [|by rewrite Hagain]. unfold open_part. rewrite Hs, Hv. cbn [negb]. unfold bind at 1.
  rewrite createBucket_known; [|by apply (isValid_parts b k)|by rewrite Hkb]. change (ok OkStatus) with true. cbn [negb].
  unfold bind. by rewrite E.
Qed.

(** Discarding a handle that only its thread has. *)
Lemma discard_step n0 ts n t h :
  can_race n0 -> race_inv n0 ts n -> ts !! t = Some (Lost h) ->
  exists kern, discard_part b k h n =
      Done (Returned (Error (exists_status b k)))
        (set_fs (unlink_name (path_of n0) (n_fs n)) kern (set_heap (delete h (n_heap n)) (n_next n) n)) /\
    interrupts kern = 0%nat.
Proof.
  intros [Hw _ _ _ _ Hab] [(_ & _ & Hq & _) Hh Ho Hd Hhp _ _] Ht.
  destruct (Ho t _ h Ht eq_refl) as (Hge & i & Hx). destruct (call_quiet _ Hq) as (kern & E & Hkern).
  exists kern. split; [|done]. unfold discard_part. unfold bind at 1, drop_ref. cbn [release]. rewrite Hx.
  assert (Hun : referenced h n = false).
  { unfold referenced. rewrite Hx. rewrite !orb_false_iff. split_and!; [|done|].
    - apply not_true_iff_false. rewrite existsb_exists. intros ([q v] & Hin & Hv). apply bool_decide_eq_true in Hv.
      cbn [snd] in Hv. subst v. apply list_elem_of_In in Hin.
      destruct Hh as [[Ehh _]|(t2 & w & Ehh & Ht2 & _)].
      + rewrite Ehh in Hin. pose proof (Forall_elem _ _ _ (nw_map n0 Hw) Hin). simpl in *. lia.
      + rewrite Ehh in Hin. apply mfind_Some in Hin; [|apply massign_sorted, Hw].
        destruct (decide (q = getPath b k)) as [->|Hne].
        * rewrite mfind_massign_eq in Hin. injection Hin as ->.
          pose proof (Hd t t2 _ _ h Ht Ht2 eq_refl eq_refl) as ->. congruence.
        * rewrite mfind_massign_ne in Hin by congruence. apply mfind_Some in Hin; [|apply Hw].
          pose proof (Forall_elem _ _ _ (nw_map n0 Hw) Hin). simpl in *. lia.
    - apply not_true_iff_false. rewrite existsb_exists. intros ([h1 x1] & Hin & Hc). apply bool_decide_eq_true in Hc.
      apply list_elem_of_In, elem_of_map_to_list in Hin. cbn [snd] in Hc. destruct (Hhp h1 x1 Hin) as [_ Hcs].
      pose proof (Forall_elem _ _ _ Hcs Hc). simpl in *. lia. }
  rewrite Hun. unfold bind, modify. cbn [h_kind new_file newHandle lf_fd Z.leb Z.compare].
  unfold removeFile. cbn [n_kernel set_heap]. rewrite E. reflexivity.
Qed.

(** The state of a thread after another one, or the same, made a step. *)
Lemma updated (ts : list pc) t c' t2 c :
  <[t := c']> ts !! t2 = Some c -> (t2 = t /\ c = c') \/ (t2 <> t /\ ts !! t2 = Some c).
Proof. rewrite list_lookup_insert_Some. intros [(-> & <- & _)|(Hne & Hc)]; [by left|by right]. Qed.

(** Threads keep their handles apart when one of them keeps its handle, gives it
    up or takes a new one. *)
Lemma distinct_step (ts : list pc) t c c' (fresh : nat) :
  ts !! t = Some c -> (own c' = None \/ own c' = own c \/ own c' = Some fresh) ->
  (forall t2 c2 h, ts !! t2 = Some c2 -> own c2 = Some h -> (h < fresh)%nat) ->
  (forall t1 t2 c1 c2 h, ts !! t1 = Some c1 -> ts !! t2 = Some c2 -> own c1 = Some h -> own c2 = Some h -> t1 = t2) ->
  forall t1 t2 c1 c2 h, <[t := c']> ts !! t1 = Some c1 -> <[t := c']> ts !! t2 = Some c2 ->
    own c1 = Some h -> own c2 = Some h -> t1 = t2.
Proof.
  intros Ht Hown Hlt Hd. assert (Hcase : forall t2 c2 h, ts !! t2 = Some c2 -> own c2 = Some h -> own c' = Some h -> t = t2).
  { intros t2 c2 h H2' O2 O'. destruct Hown as [E|[E|E]]; [congruence| |].
    - apply (Hd t t2 c c2 h); congruence.
    - pose proof (Hlt t2 c2 h H2' O2). rewrite O' in E. injection E as <-. lia. }
  intros t1 t2 c1 c2 h [[-> ->]|[N1 H1']]%updated [[-> ->]|[N2 H2']]%updated O1 O2;
    [done|by apply (Hcase t2 c2 h)|symmetry; by apply (Hcase t1 c1 h)|by apply (Hd t1 t2 c1 c2 h)].
Qed.

Lemma own_below n0 ts n t c h : race_inv n0 ts n -> ts !! t = Some c -> own c = Some h -> (h < n_next n)%nat.
Proof. intros I Ht Ow. destruct (ri_own _ _ _ I t c h Ht Ow) as (_ & j & Hx). by apply (ri_heap _ _ _ I h _ Hx). Qed.

Lemma pending_now (ts : list pc) t c c' : ts !! t = Some c -> pending c' -> List.Exists pending (<[t := c']> ts).
Proof.
  intros Ht Hp. apply Exists_exists. exists c'. split; [|done].
  apply list_elem_of_In, list_elem_of_lookup. exists t. apply list_lookup_insert_eq. by apply lookup_lt_Some in Ht.
Qed.

Lemma open_inv n0 ts n t c' n' :
  can_race n0 -> race_inv n0 ts n -> ts !! t = Some Begin -> open_part b k n = Done c' n' ->
  race_inv n0 (<[t := c']> ts) n'.
Proof.
  intros Hc I Ht E. destruct (open_step n0 ts n Hc I) as (i & kern & fs & names & E2 & Hkern & Hp).
  rewrite E2 in E. injection E as <- <-. pose proof I as [(Hs & Hkb & _ & Hp0) Hh Ho Hd Hhp Hn _].
  constructor.
  - by split_and!.
  - destruct Hh as [[Ehh Hf]|(t2 & w & Ehh & Ht2 & Hl)].
    + left. split; [done|]. by apply Forall_insert.
    + right. exists t2, w. split; [done|]. assert (t <> t2) by congruence.
      split; [by rewrite list_lookup_insert_ne|]. intros t3 c [[-> ->]|[N3 H3']]%updated Hne; [done|eauto].
  - intros t2 c h [[-> ->]|[N2 H2']]%updated Ow; cbn [n_heap created set_heap].
    + injection Ow as <-. split; [done|]. exists i. apply lookup_insert_eq.
    + destruct (Ho t2 c h H2' Ow) as (Hge & j & Hx). split; [done|]. exists j.
      pose proof (own_below n0 ts n t2 c h I H2' Ow). by rewrite lookup_insert_ne by lia.
  - apply (distinct_step ts t Begin (Opened (n_next n)) (n_next n)); auto. intros t2 c2 h. by apply own_below with n0.
  - intros h x. cbn [n_heap n_next created set_heap]. rewrite lookup_insert. case_decide as E; [|intros Hx].
    + subst h. intros [= <-]. split; [lia|]. constructor.
    + destruct (Hhp h x Hx) as [? ?]. split; [lia|done].
  - cbn [n_next created set_heap]. lia.
  - right. left. by apply (pending_now ts t Begin).
Qed.

Lemma register_inv n0 ts n t h c' n' :
  can_race n0 -> race_inv n0 ts n -> ts !! t = Some (Opened h) -> register_part b k h n = Done c' n' ->
  race_inv n0 (<[t := c']> ts) n'.
Proof.
  intros Hc I Ht. pose proof I as [Hfl Hh Ho Hd Hhp Hn Hname].
  unfold register_part, bind, gets, modify, ret, insertOrExists.
  assert (Hsame : forall c2 fh, own c2 = Some h ->
    ((fh = n_fileHandles n0 /\ Forall early (<[t := c2]> ts)) \/
     (exists t2 w, fh = massign (getPath b k) w (n_fileHandles n0) /\ <[t := c2]> ts !! t2 = Some (Returned (Value w)) /\
        forall t' c, <[t := c2]> ts !! t' = Some c -> t' <> t2 -> late c)) ->
    (fs_names (n_fs n) !! path_of n0 = None \/ List.Exists pending (<[t := c2]> ts) \/
     (forall t' st, <[t := c2]> ts !! t' <> Some (Returned (Error st)))) ->
    race_inv n0 (<[t := c2]> ts) (set_fileHandles fh n)).
  { intros c2 fh Ow Hh' Hname'. constructor; [done|done| | |done|done|done].
    - intros t2 c3 h3 [[-> ->]|[N2 H2']]%updated Ow3; [|by apply (Ho t2 c3)]. apply (Ho t (Opened h)); [done|].
      by rewrite <- Ow3, Ow.
    - apply (distinct_step ts t (Opened h) c2 (n_next n)); auto. intros t2 c3 h3. by apply own_below with n0. }
  destruct Hh as [[Ehh Hf]|(t2 & w & Ehh & Ht2 & Hl)]; rewrite Ehh.
  - rewrite (cr_absent _ Hc). cbn [fst snd]. rewrite bool_decide_false by (intros []; done). intros [= <- <-].
    assert (Hearly : forall t3 c, ts !! t3 = Some c -> early c) by (intros t3 c Hc3; by apply (Forall_lookup_1 _ _ _ _ Hf Hc3)).
    apply Hsame; [done| |].
    + right. exists t, h. split; [done|]. split; [apply list_lookup_insert_eq; by apply lookup_lt_Some in Ht|].
      intros t3 c [[-> ->]|[N3 H3']]%updated Hne; [done|].
      pose proof (Hearly t3 c H3'). by destruct c.
    + right. right. intros t3 st [[-> ?]|[N3 H3']]%updated; [done|]. exact (Hearly t3 _ H3').
  - rewrite mfind_massign_eq. cbn [fst snd].
    assert (w <> h) by (intros ->; pose proof (Hd t t2 _ _ h Ht Ht2 eq_refl eq_refl) as ->; congruence).
    rewrite bool_decide_true by done. intros [= <- <-]. apply Hsame; [done| |].
    + right. exists t2, w. split; [done|]. assert (t <> t2) by congruence.
      split; [by rewrite list_lookup_insert_ne|]. intros t3 c [[-> ->]|[N3 H3']]%updated Hne; [done|eauto].
    + right. left. by apply (pending_now ts t (Opened h)).
Qed.

Lemma discard_inv n0 ts n t h c' n' :
  can_race n0 -> race_inv n0 ts n -> ts !! t = Some (Lost h) -> discard_part b k h n = Done c' n' ->
  race_inv n0 (<[t := c']> ts) n'.
Proof.
  intros Hc I Ht. destruct (discard_step n0 ts n t h Hc I Ht) as (kern & -> & Hkern). intros [= <- <-].
  pose proof I as [(Hs & Hkb & _ & Hp) Hh Ho Hd Hhp Hn Hname]. constructor.
  - by split_and!.
  - right. destruct Hh as [[Ehh Hf]|(t2 & w & Ehh & Ht2 & Hl)].
    + by apply (Forall_lookup_1 _ _ _ _ Hf) in Ht.
    + exists t2, w. split; [done|]. assert (t <> t2) by congruence.
      split; [by rewrite list_lookup_insert_ne|]. intros t3 c [[-> ->]|[N3 H3']]%updated Hne; [done|eauto].
  - intros t2 c h2 [[-> ->]|[N2 H2']]%updated Ow; [done|]. destruct (Ho t2 c h2 H2' Ow) as (Hge & j & Hx).
    split; [done|]. exists j. cbn [n_heap set_fs set_heap]. rewrite lookup_delete_ne; [done|].
    intros ->. apply N2. by apply (Hd t2 t c (Lost h2) h2).
  - apply (distinct_step ts t (Lost h) _ (n_next n)); auto. intros t2 c2 h2. by apply own_below with n0.
  - intros h2 x. cbn [n_heap n_next set_fs set_heap]. rewrite lookup_delete_Some. intros [_ Hx]. by apply Hhp.
  - done.
  - left. cbn [n_fs set_fs unlink_name fs_names]. apply lookup_delete_eq.
Qed.

Lemma race_step_inv n0 (x y : System) :
  can_race n0 -> race_step b k x y -> race_inv n0 (fst x) (snd x) -> race_inv n0 (fst y) (snd y).
Proof.
  intros Hc [t ts c c' n n' Ht E] I. cbn [fst snd] in *. destruct c as [|h|h|r]; cbn [advance] in E.
  - by apply (open_inv n0 ts n).
  - by apply (register_inv n0 ts n t h).
  - by apply (discard_inv n0 ts n t h).
  - injection E as <- <-. by rewrite list_insert_id.
Qed.

(** A thread that has not returned can make its next step. *)
Lemma race_progress n0 ts n t c :
  can_race n0 -> race_inv n0 ts n -> ts !! t = Some c -> exists c' n', advance b k c n = Done c' n'.
Proof.
  intros Hc I Ht. destruct c as [|h|h|r]; cbn [advance].
  - destruct (open_step n0 ts n Hc I) as (i & kern & fs & names & -> & _). by eexists _, _.
  - by eexists _, _.
  - destruct (discard_step n0 ts n t h Hc I Ht) as (kern & -> & _). by eexists _, _.
  - by eexists _, _.
Qed.
Lemma race_steps_inv n0 (x y : System) :
  can_race n0 -> rtc (race_step b k) x y -> race_inv n0 (fst x) (snd x) ->
  race_inv n0 (fst y) (snd y) /\ length (fst y) = length (fst x).
Proof.
  intros Hc. induction 1 as [x|x y z Hxy _ IH]; intros I; [done|].
  destruct (IH (race_step_inv n0 x y Hc Hxy I)) as [Iz Hl]. split; [done|]. rewrite Hl. destruct Hxy. apply length_insert.
Qed.

Lemma race_reach n0 count (ts : list pc) n :
  can_race n0 -> rtc (race_step b k) (replicate count Begin, n0) (ts, n) -> race_inv n0 ts n /\ length ts = count.
Proof.
  intros Hc Hr. destruct (race_steps_inv n0 _ _ Hc Hr (race_start n0 count Hc)) as [I Hl]. cbn [fst snd] in *.
  by rewrite length_replicate in Hl.
Qed.
End race.

(** The steps a thread still has to make, at most. *)
Definition rank (c : pc) : nat :=
  match c with Begin => 3 | Opened _ => 2 | Lost _ => 1 | Returned _ => 0 end.

Definition is_returned (c : pc) : bool := match c with Returned _ => true | _ => false end.

Lemma advance_rank {W X K T : Type} `{MDStub W} `{S3Client X} `{Kernel K} `{Transfers T} b k c c' (n n' : Node W X K T) :
  advance b k c n = Done c' n' -> is_returned c = true \/ (rank c' < rank c)%nat.
Proof.
  intros E. destruct c as [|h|h|r]; cbn [advance is_returned] in *; [right|right|right|by left].
  - unfold open_part, bind, ret in E. repeat case_match; simplify_eq; simpl; lia.
  - unfold register_part, bind, gets, modify, ret in E. injection E as <- <-. case_bool_decide; simpl; lia.
  - unfold discard_part, bind, ret in E. repeat case_match; simplify_eq; simpl; lia.
Qed.

(** ** Properties *)

(** C8: of several threads that create the same object one succeeds, and its file
    loses its name. However the steps of the threads interleave, each thread
    can always go on and returns after at most three steps of its own; when all
    have returned, exactly one has a handle, which is the one in the map, and
    the others have AlreadyExists; but when there were two or more, the name of
    the file behind that handle has been removed by a thread that came too
    late, so that a relocation, which reads by name, does not find the bytes. *)
Theorem create_race (W X K T : Type) `{MDStub W} `{S3Client X} `{KernelFair K} `{Transfers T}
    b k count (n0 n : Node W X K T) ts :
  can_race b k n0 -> rtc (race_step b k) (replicate count Begin, n0) (ts, n) ->
  (forall t c, ts !! t = Some c -> exists c' n', advance b k c n = Done c' n' /\ (is_returned c = true \/ (rank c' < rank c)%nat)) /\
  ((1 <= count)%nat -> forallb is_returned ts = true ->
   exists t w x f i,
     ts !! t = Some (Returned (Value w)) /\
     (forall t' c, ts !! t' = Some c -> t' <> t -> c = Returned (Error (exists_status b k))) /\
     mfind (getPath b k) (n_fileHandles n) = Some w /\
     (forall q, q <> getPath b k -> mfind q (n_fileHandles n) = mfind q (n_fileHandles n0)) /\
     n_heap n !! w = Some x /\ h_kind x = KLocal f i false /\
     ((2 <= count)%nat -> fs_names (n_fs n) !! lf_path f = None)).
Proof.
  intros Hc Hr. destruct (race_reach b k n0 count ts n Hc Hr) as [I Hl]. split.
  { intros t c Ht. destruct (race_progress b k n0 ts n t c Hc I Ht) as (c' & n' & E). exists c', n'.
    split; [exact E|]. by apply (advance_rank b k c c' n n'). }
  intros Hcount Hdone. assert (Hret : forall t c, ts !! t = Some c -> is_returned c = true).
  { intros t c Ht. rewrite forallb_forall in Hdone. by apply Hdone, list_elem_of_In, list_elem_of_lookup_2 with t. }
  pose proof I as [_ Hh Ho _ _ _ Hname].
  destruct Hh as [[_ Hf]|(t & w & Eh & Ht & Hlate)].
  { exfalso. destruct (lookup_lt_is_Some_2 ts 0) as [c H0c]; [lia|].
    pose proof (Forall_lookup_1 _ _ _ _ Hf H0c) as He. specialize (Hret 0%nat c H0c). by destruct c. }
  assert (Hlose : forall t' c, ts !! t' = Some c -> t' <> t -> c = Returned (Error (exists_status b k))).
  { intros t' c Ht' Hne. specialize (Hlate t' c Ht' Hne). specialize (Hret t' c Ht'). destruct c as [| | |[|st]]; try done.
    cbn [late] in Hlate. by rewrite Hlate. }
  destruct (Ho t _ w Ht eq_refl) as (_ & i & Hx).
  exists t, w, (new_file b k (path_of b k n0) i), (mkLocalFile (path_of b k n0) 0 0 []), i.
  rewrite Eh. split; [exact Ht|]. split; [exact Hlose|]. split; [apply mfind_massign_eq|].
  split; [intros q Hq; by apply mfind_massign_ne|]. split; [exact Hx|]. split; [done|]. intros H2c. cbn [lf_path].
  destruct Hname as [Hname|[Hp|Hno]]; [exact Hname|exfalso..].
  - apply List.Exists_exists in Hp as (c & Hin & Hp). apply list_elem_of_In, list_elem_of_lookup in Hin as [t' Ht'].
    specialize (Hret t' c Ht'). by destruct c.
  - destruct (lookup_lt_is_Some_2 ts (if decide (t = 0%nat) then 1 else 0)%nat) as [c Hc']; [case_decide; lia|].
    assert (Hne : (if decide (t = 0%nat) then 1 else 0)%nat <> t) by (case_decide; lia).
    rewrite (Hlose _ c Hc' Hne) in Hc'. by apply Hno in Hc'.
Qed.

(** ** Witness *)

(** Running a schedule. *)
Fixpoint race_run {W X K T : Type} `{MDStub W} `{S3Client X} `{Kernel K} `{Transfers T}
    (b k : str) (schedule : list nat) (ts : list pc) (n : Node W X K T) : option (list pc * Node W X K T) :=
  match schedule with
  | [] => Some (ts, n)
  | t :: schedule =>
      match ts !! t with
      | None => None
      | Some c =>
          match advance b k c n with
          | Done c' n' => race_run b k schedule (<[t := c']> ts) n'
          | _ => None
          end
      end
  end.

Lemma race_run_steps {W X K T : Type} `{MDStub W} `{S3Client X} `{Kernel K} `{Transfers T}
    b k schedule ts (n : Node W X K T) y :
  race_run b k schedule ts n = Some y -> rtc (race_step b k) (ts, n) y.
Proof.
  revert ts n. induction schedule as [|t schedule IH]; intros ts n; cbn [race_run]; [by intros [= <-]|].
  destruct (ts !! t) as [c|] eqn:Ht; [|done]. destruct (advance b k c n) as [c' n'| |] eqn:E; [|done..].
  intros Hr. eapply rtc_l; [by eapply race|]. by apply IH.
Qed.

#[local] Existing Instance the_stub.
#[local] Existing Instance the_service.

Lemma demo_can_race : can_race "bkt" "dir/key" demo_node.
Proof. constructor; [apply demo_node_wf|reflexivity..]. Qed.

Definition first_wins (y : list pc * Node Server MemS3.world nat unit) : bool :=
  match fst y with [Returned (Value _); Returned (Error _)] => true | _ => false end.

Lemma run_with {A} (o : option A) (test : A -> bool) :
  match o with Some a => test a | None => false end = true -> exists a, o = Some a /\ test a = true.
Proof. destruct o as [a|]; [by exists a|done]. Qed.

(** Both threads have opened the file before the first one is entered. *)
Lemma create_race_witness :
  exists ts n w f i x, rtc (race_step "bkt" "dir/key") (replicate 2 Begin, demo_node) (ts, n) /\
    ts = [Returned (Value w); Returned (Error (exists_status "bkt" "dir/key"))] /\
    mfind (getPath "bkt" "dir/key") (n_fileHandles n) = Some w /\
    n_heap n !! w = Some x /\ h_kind x = KLocal f i false /\ fs_names (n_fs n) !! lf_path f = None.
Proof.
  destruct (run_with (race_run "bkt" "dir/key" [0; 1; 0; 1; 1]%nat (replicate 2 Begin) demo_node) first_wins)
    as ([ts n] & E & Hf); [vm_compute; reflexivity|].
  apply race_run_steps in E. exists ts, n.
  destruct ts as [|[| | |[v|]] [|[| | |[|st]] [|]]]; try discriminate Hf.
  destruct (create_race Server MemS3.world nat unit "bkt" "dir/key" 2 demo_node n _ demo_can_race E) as [_ H].
  destruct (H ltac:(lia) eq_refl) as (t & w & x & f & i & Ht & Ho & Hm & _ & Hx & Hk & Hn).
  destruct t as [|[|t]]; [|discriminate Ht..]. injection Ht as ->. exists w, f, i, x.
  split; [exact E|]. split.
  - pose proof (Ho 1%nat _ eq_refl ltac:(lia)) as Est. by injection Est as ->.
  - split; [exact Hm|]. split; [exact Hx|]. split; [exact Hk|]. apply Hn. lia.
Defined.
