(* ===== verification/GEDSThreads.v ===== *)
(** * The threads of a process

    The storage monitoring thread and the publish/subscribe thread of [GEDS]
    (src/src/libgeds/GEDS.cpp: [startStorageMonitoringThread],
    [startPubSubStreamThread]), how [stop] ends and joins them, and the overloads
    of its operations that only call another one. *)

From Stdlib Require Import Ascii ZArith Lia.
From stdpp Require Import base gmap sets list strings numbers relations.
From S2P Require Import Prelude Bytes Decimal Status StdMap Path Object FileSet MDSKVS S3Endpoint Rpc.
From S2P Require Import MetadataService LocalFile ConcurrentMap GedsNames FileHandle.
From S2P Require Import Node Handles HandleIO GEDS Spill.

Open Scope Z_scope.
Open Scope list_scope.

#[local] Opaque to_string.

(** ** Overloads *)

Section overloads.
Context {W X K T : Type} `{MDStub W} `{S3Client X} `{Kernel K} `{Transfers T}.
Context (fuel : nat).

(** [localOpen(objectName)] *)
Definition localOpen_name (objectName : str) : M W X K T (StatusOr nat) :=
  match parseObjectName objectName with
  | Error st => ret (Error st)
  | Value (bucket, key) => localOpen fuel bucket key
  end.

(** [getLocalPath(file)] *)
Definition getLocalPath_file (h : nat) : M W X K T str :=
  let* x := the_handle h in node_getLocalPath (h_bucket x) (h_key x).

(** [status(bucket, key)] *)
Definition geds_status_default (bucket key : str) : M W X K T (StatusOr GEDSFileStatus) :=
  geds_status bucket key Default_GEDSFolderDelimiter.

(** Within one bucket. *)
Definition renamePrefix_within (bucket srcKey destKey : str) : M W X K T Status :=
  renamePrefix fuel bucket srcKey bucket destKey.
Definition rename_within (bucket srcKey destKey : str) : M W X K T Status :=
  geds_rename fuel bucket srcKey bucket destKey.
Definition copyPrefix_within (bucket srcKey destKey : str) : M W X K T Status :=
  copyPrefix fuel bucket srcKey bucket destKey.
Definition copy_within (bucket srcKey destKey : str) : M W X K T Status :=
  geds_copy fuel bucket srcKey bucket destKey.
End overloads.

(** ** The storage monitoring thread *)

Section monitor.
Context {W X K T : Type} `{MDStub W} `{S3Client X} `{Kernel K} `{Transfers T}.
Context (fuel : nat).

(** [_storageCounters] and [_memoryCounters]; the gauges show the same values. *)
Record Counters := mkCounters { storageCounters : StorageCounter; memoryCounters : StorageCounter }.

(** One iteration before the pause. No handle of a process has its file in memory. *)
Definition monitor_pass (targetStorage : Z) (c : Counters) : M W X K T Counters :=
  let* round := gets (monitor_round targetStorage (storageCounters c)) in
  let tasks := map c_handle (snd round) in
  (if (0 <? length tasks)%nat then relocate_all fuel tasks false else ret tt) ;;
  ret (mkCounters (fst round) (updateUsed 0 (memoryCounters c))).

(** The thread; [sleep i] is what the other threads do while it pauses. *)
Fixpoint storage_monitor (rounds : nat) (targetStorage : Z) (sleep : nat -> M W X K T unit) (c : Counters) :
    M W X K T Counters :=
  let* running := gets (fun n => match n_state n with Running => true | _ => false end) in
  if negb running then ret c else
  match rounds with
  | O => fun _ => NoFuel
  | S rounds =>
      let* c := monitor_pass targetStorage c in
      sleep rounds ;;
      storage_monitor rounds targetStorage sleep c
  end.
End monitor.

(** ** Stopping *)

(** Where the storage monitoring thread is; [handles] says of each handle it
    relocates whether it is valid when its turn comes. *)
Inductive monitor_pc :=
| MLoop
| MRelocating (handles : list bool) (w : Wait)
| MSleeping
| MEnded.

(** The thread that reads the stream of publications, if it was started. *)
Inductive stream_pc := NoStream | Streaming | StreamEnded.

(** Where [stop] is: before anything else, relocating, before the assignment to
    [_state], joining the two threads, and after that. *)
Inductive stop_pc :=
| SBegin
| SRelocating (handles : list bool) (w : Wait)
| SStopping
| SJoinMonitor
| SJoinStream
| SReturned.

Record Threads := mkThreads {
  th_running : bool;
  th_monitor : monitor_pc;
  th_stream : stream_pc;
  th_stop : stop_pc
}.

(** [startStorageMonitoringThread] and [startPubSubStreamThread] at the end of
    [start]. *)
Definition started_threads (pubSubEnabled : bool) : Threads :=
  mkThreads true MLoop (if pubSubEnabled then Streaming else NoStream) SBegin.

(** [tp] is the size of the thread pool and [force] is
    [force_relocation_when_stopping]. *)
Inductive thread_step (tp : Z) (force : bool) : Threads -> Threads -> Prop :=
| t_end m p : thread_step tp force (mkThreads false MLoop m p) (mkThreads false MEnded m p)
| t_nothing m p : thread_step tp force (mkThreads true MLoop m p) (mkThreads true MSleeping m p)
| t_tasks handles m p : handles <> [] ->
    thread_step tp force (mkThreads true MLoop m p) (mkThreads true (MRelocating handles (wait_start handles)) m p)
| t_wait handles w w' r m p : wait_step tp w w' ->
    thread_step tp force (mkThreads r (MRelocating handles w) m p) (mkThreads r (MRelocating handles w') m p)
| t_relocated handles w r m p : wait_returned w ->
    thread_step tp force (mkThreads r (MRelocating handles w) m p) (mkThreads r MSleeping m p)
| t_wake r m p : thread_step tp force (mkThreads r MSleeping m p) (mkThreads r MLoop m p)
| t_stream r t p : thread_step tp force (mkThreads r t Streaming p) (mkThreads r t StreamEnded p)
| s_relocate handles r t m : force = true -> handles <> [] ->
    thread_step tp force (mkThreads r t m SBegin) (mkThreads r t m (SRelocating handles (wait_start handles)))
| s_nothing r t m : thread_step tp force (mkThreads r t m SBegin) (mkThreads r t m SStopping)
| s_wait handles w w' r t m : wait_step tp w w' ->
    thread_step tp force (mkThreads r t m (SRelocating handles w)) (mkThreads r t m (SRelocating handles w'))
| s_relocated handles w r t m : wait_returned w ->
    thread_step tp force (mkThreads r t m (SRelocating handles w)) (mkThreads r t m SStopping)
| s_stop r t m : thread_step tp force (mkThreads r t m SStopping) (mkThreads false t m SJoinMonitor)
| s_join r m : thread_step tp force (mkThreads r MEnded m SJoinMonitor) (mkThreads r MEnded m SJoinStream)
| s_join_stream r t m : m <> Streaming ->
    thread_step tp force (mkThreads r t m SJoinStream) (mkThreads r t m SReturned).

(** The lists of handles that are being relocated. *)
Definition relocating (s : Threads) : list (list bool) :=
  (match th_monitor s with MRelocating handles _ => [handles] | _ => [] end) ++
  (match th_stop s with SRelocating handles _ => [handles] | _ => [] end).

(** A handle was selected for relocation and is not valid when its turn comes. *)
Definition overtaken (s : Threads) : Prop := List.Exists (fun handles => invalid handles <> 0) (relocating s).

(** ** Lemmas *)

Section threads.
Context (tp : Z) (force : bool).
Hypothesis tp_size : 0 <= tp.

Definition past_stop (p : stop_pc) : bool :=
  match p with SJoinMonitor | SJoinStream | SReturned => true | _ => false end.

Definition monitor_inv (t : monitor_pc) : Prop :=
  match t with MRelocating handles w => wait_inv tp handles w | _ => True end.

Record threads_inv (s : Threads) : Prop := {
  ti_running : th_running s = negb (past_stop (th_stop s));
  ti_monitor : monitor_inv (th_monitor s);
  ti_stop : match th_stop s with SRelocating handles w => wait_inv tp handles w | _ => True end;
  ti_ended : th_monitor s = MEnded -> th_running s = false;
  ti_joined : (th_stop s = SJoinStream \/ th_stop s = SReturned) -> th_monitor s = MEnded;
  ti_returned : th_stop s = SReturned -> th_stream s <> Streaming
}.

Lemma wait_inv_start handles : wait_inv tp handles (wait_start handles).
Proof. constructor; simpl; [lia|lia|done]. Qed.

Lemma threads_inv_step s s' : threads_inv s -> thread_step tp force s s' -> threads_inv s'.
Proof using tp_size.
  intros [H1 H2 H3 H4 H5 H6] Hs.
  destruct Hs; cbn [th_running th_monitor th_stream th_stop monitor_inv past_stop negb] in *; constructor;
    cbn [th_running th_monitor th_stream th_stop monitor_inv past_stop negb];
    try done; try (by eauto using wait_inv_start, wait_inv_step); naive_solver.
Qed.

Lemma threads_inv_reach pubsub s :
  rtc (thread_step tp force) (started_threads pubsub) s -> threads_inv s.
Proof using tp_size.
  intros Hr. assert (H0 : threads_inv (started_threads pubsub)) by (constructor; try done; by intros []).
  revert H0. induction Hr as [s|s1 s2 s3 H12 _ IH]; [done|]. intros H1. by apply IH, (threads_inv_step s1).
Qed.

(** A relocation of valid handles returns, and one with an invalid handle does not. *)
Lemma wait_progress handles w :
  wait_inv tp handles w -> invalid handles = 0 -> wait_returned w \/ exists w', wait_step tp w w'.
Proof using tp_size.
  intros [H1 H2 H3] Hv. destruct w as [l k a]. cbn [todo nTasks activeTasks] in *.
  destruct (decide (0 < a)); [right; eexists; by constructor|]. assert (a = 0) as -> by lia.
  destruct l as [|[] l]; [|right; eexists; constructor; lia..].
  left. split; [done|]. cbn [nTasks]. change (invalid []) with 0 in H1. cbn [length] in H1. lia.
Qed.

Lemma wait_overtaken handles w : wait_inv tp handles w -> invalid handles <> 0 -> ~ wait_returned w.
Proof using Type.
  intros [H1 H2 _] Hv [Ht Hn]. rewrite Ht in H1. change (invalid []) with 0 in H1. cbn [length] in H1.
  assert (0 <= invalid handles) by (unfold invalid; lia). lia.
Qed.

Lemma wait_measure_nonneg handles w : wait_inv tp handles w -> 0 <= wait_measure w.
Proof using Type. intros [_ H2 _]. unfold wait_measure. lia. Qed.

Lemma wait_measure_step handles w w' : wait_inv tp handles w -> wait_step tp w w' -> wait_measure w' < wait_measure w.
Proof using Type. intros _ Hs. destruct Hs; unfold wait_measure; cbn [todo activeTasks length]; lia. Qed.

(** What remains to be done once the service is no longer running. *)
Definition monitor_left (t : monitor_pc) : Z :=
  match t with MEnded => 0 | MLoop => 1 | MSleeping => 2 | MRelocating _ w => 3 + wait_measure w end.

Definition threads_left (s : Threads) : Z :=
  monitor_left (th_monitor s) +
  (match th_stop s with SReturned => 0 | SJoinStream => 1 | _ => 2 end) +
  (match th_stream s with Streaming => 1 | _ => 0 end).

Lemma monitor_left_nonneg t : monitor_inv t -> 0 <= monitor_left t.
Proof using Type. destruct t; simpl; try lia. intros Hw. pose proof (wait_measure_nonneg _ _ Hw). lia. Qed.

Lemma threads_left_step s s' :
  threads_inv s -> th_running s = false -> thread_step tp force s s' ->
  th_running s' = false /\ 0 <= threads_left s' < threads_left s.
Proof using tp_size.
  intros Hi Hr Hs. pose proof (threads_inv_step s s' Hi Hs) as Hi'. destruct Hi as [H1 H2 H3 _ _ _], Hi' as [_ H2' _ _ _ _].
  apply monitor_left_nonneg in H2'. unfold threads_left.
  destruct Hs; cbn [th_running th_monitor th_stream th_stop past_stop negb monitor_left monitor_inv] in *;
    try discriminate; try congruence; (split; [done|]); try (repeat case_match; lia).
  - match goal with Hw : wait_step _ _ _ |- _ => pose proof (wait_measure_step _ _ _ H2 Hw) end. repeat case_match; lia.
  - pose proof (wait_measure_nonneg _ _ H2). repeat case_match; lia.
Qed.

(** Some thread can go on unless [stop] has returned. *)
Lemma threads_progress s :
  threads_inv s -> ~ overtaken s -> th_running s = false ->
  th_stop s = SReturned \/ th_stream s = Streaming \/ exists s', thread_step tp force s s'.
Proof using tp_size.
  destruct s as [r t m p]. intros [H1 H2 H3 H4 H5 _] Ho Hr. cbn [th_running th_monitor th_stream th_stop] in *.
  revert H1 H4 Ho. rewrite Hr. intros H1 H4 Ho.
  destruct t as [|handles w| |].
  - right. right. eexists. apply t_end.
  - right. right. cbn [monitor_inv] in H2. destruct (decide (invalid handles = 0)) as [Hv|Hv].
    + destruct (wait_progress handles w H2 Hv) as [Hw|[w' Hw]]; eexists; [by eapply t_relocated|by eapply t_wait].
    + destruct Ho. apply List.Exists_cons. by left.
  - right. right. eexists. apply t_wake.
  - destruct p; try discriminate; [|destruct m; [|by right; left|]|by left]; right; right; eexists.
    + apply s_join.
    + by apply s_join_stream.
    + by apply s_join_stream.
Qed.

(** Once overtaken, [stop] does not return. *)
Lemma overtaken_step s s' : threads_inv s -> overtaken s -> thread_step tp force s s' -> overtaken s'.
Proof using tp_size.
  unfold overtaken, relocating. intros [H1 H2 H3 H4 H5 _] Ho Hs.
  destruct Hs; cbn [th_running th_monitor th_stream th_stop app monitor_inv] in *; try done;
    repeat match goal with
    | Hx : List.Exists _ (_ :: _) |- _ => apply List.Exists_cons in Hx as [Hx|Hx]
    | Hx : List.Exists _ [] |- _ => by apply List.Exists_nil in Hx
    | Hx : List.Exists _ (_ ++ _) |- _ => apply List.Exists_app in Hx as [Hx|Hx]
    end; try (exfalso; by eapply wait_overtaken);
    rewrite ?List.Exists_app, ?List.Exists_cons; auto.
Qed.

Lemma overtaken_not_returned s : threads_inv s -> overtaken s -> th_stop s <> SReturned.
Proof using Type.
  intros [_ _ _ _ H5 _] Ho Hp. unfold overtaken, relocating in Ho. rewrite Hp in Ho.
  rewrite H5 in Ho by auto. by apply List.Exists_nil in Ho.
Qed.
End threads.

(** ** Properties *)

(** C10: stopping the service ends its threads. When [stop] has returned, the
    storage monitoring thread has ended and no stream is being read. From the
    moment the service is no longer running every step of a thread brings the end
    closer, and some thread can go on until [stop] has returned, unless it waits
    for the stream of publications to end or a relocation was overtaken: a handle
    that was selected for relocation and then found invalid, which happens when
    the monitor and [stop] both relocate, keeps [stop] from ever returning. *)
Theorem stop_joins_threads tp force pubSubEnabled s :
  0 <= tp -> rtc (thread_step tp force) (started_threads pubSubEnabled) s ->
  (th_stop s = SReturned -> th_running s = false /\ th_monitor s = MEnded /\ th_stream s <> Streaming) /\
  (th_running s = false ->
     (forall s', thread_step tp force s s' -> th_running s' = false /\ 0 <= threads_left s' < threads_left s) /\
     (~ overtaken s -> th_stop s = SReturned \/ th_stream s = Streaming \/ exists s', thread_step tp force s s')) /\
  (overtaken s -> forall s', rtc (thread_step tp force) s s' -> th_stop s' <> SReturned).
Proof.
  intros Htp Hr. pose proof (threads_inv_reach tp force Htp pubSubEnabled s Hr) as Hi. split; [|split].
  - intros Hs. pose proof Hi as [H1 _ _ _ H5 H6]. rewrite H1, Hs. auto.
  - intros Hrun. split; [intros s' Hs'; by apply (threads_left_step tp force Htp s s')|].
    intros Ho. by apply (threads_progress tp force Htp s).
  - intros Ho s' Hs'. revert Hi Ho. clear Hr. induction Hs' as [s|s1 s2 s3 H12 _ IH].
    + by apply overtaken_not_returned.
    + intros Hi Ho. apply IH; [by apply (threads_inv_step tp force Htp s1)|by apply (overtaken_step tp force Htp s1)].
Qed.

(** The thread that is not disturbed goes through the monitor's loop until the
    service is no longer running. *)
Lemma storage_monitor_stopped {W X K T} `{MDStub W} `{S3Client X} `{Kernel K} `{Transfers T}
    fuel rounds target sleep c (n : Node W X K T) :
  n_state n <> Running -> storage_monitor fuel rounds target sleep c n = Done c n.
Proof. intros Hn. destruct rounds; unfold storage_monitor, bind, gets; by destruct (n_state n). Qed.

(** ** Witnesses *)

(** The monitor and [stop] select the same handle; [stop] relocates it first. *)
Lemma stop_joins_threads_witness :
  exists s, rtc (thread_step 8 true) (started_threads false) s /\ th_stop s = SRelocating [true] (mkWait [] 1 1) /\
    forall s', rtc (thread_step 8 true) s s' -> th_stop s' <> SReturned.
Proof.
  set (s := mkThreads true (MRelocating [false] (mkWait [] 1 0)) NoStream (SRelocating [true] (mkWait [] 1 1))).
  assert (Hr : rtc (thread_step 8 true) (started_threads false) s).
  { eapply rtc_l; [apply s_relocate with (handles := [true]); [reflexivity|discriminate]|].
    eapply rtc_l; [apply t_tasks with (handles := [false]); discriminate|].
    eapply rtc_l; [apply s_wait; apply wait_post; lia|].
    eapply rtc_l; [apply t_wait; apply wait_skip; lia|]. apply rtc_refl. }
  exists s. split; [exact Hr|]. split; [reflexivity|].
  apply (stop_joins_threads 8 true false s); [lia|exact Hr|]. apply List.Exists_cons. left. discriminate.
Defined.

(** A run to the end. *)
Lemma stop_run :
  exists s, rtc (thread_step 8 false) (started_threads true) s /\ th_stop s = SReturned.
Proof.
  exists (mkThreads false MEnded StreamEnded SReturned). split; [|done].
  eapply rtc_l; [apply t_nothing|]. eapply rtc_l; [apply s_nothing|]. eapply rtc_l; [apply s_stop|].
  eapply rtc_l; [apply t_wake|]. eapply rtc_l; [apply t_end|]. eapply rtc_l; [apply s_join|].
  eapply rtc_l; [apply t_stream|]. eapply rtc_l; [by apply s_join_stream|]. apply rtc_refl.
Qed.
