(* ===== verification/GEDSSpill.v ===== *)
(** * What the storage monitor achieves

    One iteration of the storage monitoring thread (src/src/libgeds/GEDS.cpp:
    [startStorageMonitoringThread], [relocate]) on a process with local files and
    objects in a store: the handles selected in Spill.v are relocated with the
    operations of GEDS.v and HandleIO.v, the local storage in use drops to the
    target, and every object keeps its bytes. *)

From Stdlib Require Import Ascii ZArith Lia.
From stdpp Require Import base gmap sets list strings numbers sorting.
From S2P Require Import Prelude Bytes Decimal Status StdMap Path Object FileSet MDSKVSBucket MDSKVS S3Endpoint Rpc.
From S2P Require Import MetadataServer MetadataService LocalFile ConcurrentMap GedsNames FileHandle.
From S2P Require Import Node Handles HandleIO GEDS GEDSCreate GEDSObjects GEDSRelocate GEDSCopy Spill GEDSThreads.

Open Scope Z_scope.
Open Scope list_scope.

#[local] Opaque to_string.

(** ** Tiers *)

(** The entry is a closed local file in a bucket that has an object store, and is
    known to the metadata store. *)
Definition local_entry {W X K T : Type} (m : KvsSpec.state) (n : Node W X K T) (q : Path) (h : nat) : Prop :=
  exists x f i s ep mb, n_heap n !! h = Some x /\ q = getPath (h_bucket x) (h_key x) /\ h_kind x = KLocal f i s /\
    h_isValid x = true /\ h_openCount x = 0 /\ lf_wf (with_data (inode_data i (n_fs n)) f) /\
    fs_names (n_fs n) !! lf_path f = Some i /\ mfind (h_bucket x) (n_objectStores n) = Some ep /\
    starts_with CacheBlockMarker (h_key x) = false /\ m !! h_bucket x = Some mb.

(** The entry is an object of a store. *)
Definition s3_entry {W X K T : Type} (n : Node W X K T) (h : nat) : Prop :=
  exists x b k size, n_heap n !! h = Some x /\ h_kind x = KS3 b k size.

(** A running process all of whose objects are in one of the two tiers. *)
Record tiered {W X K T : Type} `{MDService W} `{KernelFair K} (m : KvsSpec.state) (n : Node W X K T) : Prop := {
  tr_wf : node_wf n;
  tr_running : n_state n = Running;
  tr_connected : is_connected (n_md n) = true;
  tr_store : svc_abs (n_mdw n) m;
  tr_kernel : interrupts (n_kernel n) = 0%nat;
  tr_entries q h : (q, h) ∈ n_fileHandles n -> local_entry m n q h \/ s3_entry n h;
  tr_handles : NoDup (map snd (n_fileHandles n));
  tr_files q1 h1 q2 h2 x1 f1 i1 s1 x2 f2 i2 s2 :
    (q1, h1) ∈ n_fileHandles n -> (q2, h2) ∈ n_fileHandles n -> h1 <> h2 ->
    n_heap n !! h1 = Some x1 -> h_kind x1 = KLocal f1 i1 s1 ->
    n_heap n !! h2 = Some x2 -> h_kind x2 = KLocal f2 i2 s2 -> lf_path f1 <> lf_path f2
}.

(** The object with the path [q] has the contents [d], in a local file or in the
    store. *)
Definition holds {W X K T : Type} `{S3Service X} (q : Path) (d : str) (n : Node W X K T) : Prop :=
  exists h x, (q, h) ∈ n_fileHandles n /\ n_heap n !! h = Some x /\ h_isValid x = true /\
    ((exists f i s, h_kind x = KLocal f i s /\ lf_wf (with_data d f) /\ inode_data i (n_fs n) = d) \/
     (exists b k, h_kind x = KS3 b k (len d) /\ getPath b k = q /\ object_at n b b k = Some d)).

(** ** Lemmas: maps *)

Lemma massign_split {K V : Type} `{StrictTotal K} (q : K) (v v' : V) (m : smap K V) :
  mfind q m = Some v -> exists m1 m2, m = m1 ++ (q, v) :: m2 /\ massign q v' m = m1 ++ (q, v') :: m2.
Proof.
  induction m as [|[x w] m IH]; simpl; [done|]. destruct (ltb x q) eqn:E1.
  - intros Hf. destruct (IH Hf) as (m1 & m2 & -> & ->). by exists ((x, w) :: m1), m2.
  - destruct (ltb q x) eqn:E2; [done|]. intros [= ->]. rewrite (ltb_total _ _ E1 E2). by exists [], m.
Qed.

(** ** Lemmas: storage *)

Section storage.
Context {W X K T : Type}.
Implicit Types n : Node W X K T.

Definition handle_storage (heap : gmap nat Handle) (h : nat) : Z :=
  match heap !! h with Some _ => h_localStorageSize heap h | None => 0 end.

Definition storage_of (heap : gmap nat Handle) (l : list (Path * nat)) : Z :=
  foldr (fun e r => handle_storage heap (snd e) + r) 0 l.

Lemma storage_of_app heap l1 l2 : storage_of heap (l1 ++ l2) = storage_of heap l1 + storage_of heap l2.
Proof. induction l1 as [|e l1 IH]; simpl; lia. Qed.

Lemma storage_of_ext heap heap' l :
  (forall h, h ∈ map snd l -> handle_storage heap' h = handle_storage heap h) -> storage_of heap' l = storage_of heap l.
Proof.
  induction l as [|e l IH]; intros Hl; [done|]. cbn [storage_of foldr]. rewrite Hl by (simpl; left).
  f_equal. apply IH. intros h Hh. apply Hl. simpl. by right.
Qed.

Lemma local_storage heap h x f i s :
  heap !! h = Some x -> h_kind x = KLocal f i s -> handle_storage heap h = lf_size f.
Proof. intros Hx Hk. unfold handle_storage, h_localStorageSize, resolved, base_localStorageSize. by rewrite Hx, Hk, Hk. Qed.

Lemma s3_storage heap h x b k size :
  heap !! h = Some x -> h_kind x = KS3 b k size -> handle_storage heap h = 0.
Proof. intros Hx Hk. unfold handle_storage, h_localStorageSize, resolved, base_localStorageSize. by rewrite Hx, Hk, Hk. Qed.

(** The sum of the monitor, when it does not wrap around. *)
Lemma storageUsed_sum n :
  Forall (fun e => 0 <= handle_storage (n_heap n) (snd e)) (n_fileHandles n) ->
  storage_of (n_heap n) (n_fileHandles n) < two64 -> storageUsed n = storage_of (n_heap n) (n_fileHandles n).
Proof.
  unfold storageUsed, all_handles. set (heap := n_heap n). intros Hf.
  assert (Hgen : forall l a, Forall (fun e => 0 <= handle_storage heap (snd e)) l -> 0 <= a -> a + storage_of heap l < two64 ->
    fold_left (fun s e => u64 (s + h_localStorageSize heap (fst e))) (omap (fun e => (fun x => (snd e, x)) <$> heap !! snd e) l) a =
    a + storage_of heap l).
  { induction l as [|e l IH]; intros a Hl Ha Hs; [simpl; lia|]. apply Forall_cons_iff in Hl as [He Hl].
    assert (0 <= storage_of heap l) by (clear -Hl; induction Hl; simpl; lia).
    cbn [storage_of foldr] in Hs |- *. fold (storage_of heap l) in *. cbn [omap list_omap]. unfold handle_storage in *.
    destruct (heap !! snd e) as [x|] eqn:Ex; cbn [fmap option_fmap option_map].
    - cbn [fold_left fst]. rewrite u64_small by (unfold is_u64; lia). rewrite IH by (done || lia). lia.
    - rewrite IH by (done || lia). lia. }
  intros Hs. rewrite Hgen by (done || lia). lia.
Qed.
End storage.

(** ** Lemmas: one relocation *)

Section steps.
Context {W X K T : Type} `{MDService W} `{S3Store X} `{KernelFair K} `{Transfers T}.
Context (fuel : nat).
Implicit Types n : Node W X K T.

(** Dropping the reference to a local file may destroy it and remove its name. *)
Lemma drop_closed_local h n y f i s :
  n_heap n !! h = Some y -> h_kind y = KLocal f i s -> interrupts (n_kernel n) = 0%nat ->
  exists n', drop_ref h n = Done tt n' /\ same_service n n' /\
    (forall h', h' <> h -> n_heap n' !! h' = n_heap n !! h') /\
    (forall y', n_heap n' !! h = Some y' -> y' = y) /\
    (forall p, p <> lf_path f -> fs_names (n_fs n') !! p = fs_names (n_fs n) !! p) /\
    (forall j, inode_data j (n_fs n') = inode_data j (n_fs n)) /\ interrupts (n_kernel n') = 0%nat.
Proof.
  intros Hy Hk Hq. unfold drop_ref. cbn [release]. rewrite Hy.
  destruct (referenced h n); [exists n; split_and!; try done; intros y' Hy'; congruence|].
  unfold bind, modify. rewrite Hk.
  assert (Hd : forall h', h' <> h -> delete h (n_heap n) !! h' = n_heap n !! h') by (intros; by apply lookup_delete_ne).
  assert (Hn : forall y', delete h (n_heap n) !! h = Some y' -> y' = y) by (intros y'; by rewrite lookup_delete_eq).
  destruct (0 <=? lf_fd f); [|by eexists].
  destruct (call_quiet _ Hq) as (k' & Ek & Hk'). unfold removeFile. cbn [n_kernel set_heap]. rewrite Ek.
  eexists. split; [reflexivity|]. split; [by constructor|]. split; [exact Hd|]. split; [exact Hn|].
  split; [|split; [done|exact Hk']]. intros p Hp. cbn [n_fs set_fs unlink_name fs_names set_heap].
  by rewrite lookup_delete_ne.
Qed.

(** What relocating the object [q] with the bytes [d] changes. *)
Record spilled (q : Path) (h : nat) (x : Handle) (f : LocalFile) (d : str) (m : KvsSpec.state) (mb : gmap str ObjectInfo) n n' : Prop := {
  sp_handles : n_fileHandles n' = massign q (n_next n) (n_fileHandles n);
  sp_new : n_heap n' !! n_next n =
    Some (newHandle (h_bucket x) (h_key x) (h_metadata x) (KS3 (h_bucket x) (h_key x) (len d)));
  sp_heap h' : h' <> h -> h' <> n_next n -> n_heap n' !! h' = n_heap n !! h';
  sp_old y : n_heap n' !! h = Some y -> children y = [];
  sp_next : n_next n' = S (n_next n);
  sp_state : n_state n' = n_state n;
  sp_md : n_md n' = n_md n;
  sp_stores : n_objectStores n' = n_objectStores n;
  sp_store : svc_abs (n_mdw n')
    (<[h_bucket x := <[h_key x := mkInfo (s3_location (h_bucket x) (h_key x)) (len d) (len d) (h_metadata x)]> mb]> m);
  sp_stored : stored (h_bucket x) (h_key x) d n n';
  sp_names p : p <> lf_path f -> fs_names (n_fs n') !! p = fs_names (n_fs n) !! p;
  sp_inodes i : inode_data i (n_fs n') = inode_data i (n_fs n);
  sp_kernel : interrupts (n_kernel n') = 0%nat
}.

Lemma relocate_handle_step m h n x f i s ep mb :
  tiered m n -> let q := getPath (h_bucket x) (h_key x) in (q, h) ∈ n_fileHandles n ->
  n_heap n !! h = Some x -> h_kind x = KLocal f i s -> h_isValid x = true -> h_openCount x = 0 ->
  lf_wf (with_data (inode_data i (n_fs n)) f) -> fs_names (n_fs n) !! lf_path f = Some i ->
  mfind (h_bucket x) (n_objectStores n) = Some ep -> starts_with CacheBlockMarker (h_key x) = false ->
  m !! h_bucket x = Some mb -> (1 <= fuel)%nat ->
  exists n', relocate_handle fuel h false n = Done tt n' /\ spilled q h x f (inode_data i (n_fs n)) m mb n n'.
Proof.
  intros R q Hin Hx Hk Hv Ho Hwf Hnm He Hck Hm Hf. destruct R as [Rw Rr Rc Rs Rk _ _ _].
  assert (Hq : mfind q (n_fileHandles n) = Some h) by (apply mfind_Some; [apply Rw|exact Hin]).
  destruct (nw_heap n Rw h x Hx) as [Hlt _].
  destruct (local_relocate_step fuel h n x f i s m mb ep Hx Hk Hv Ho Hwf Hnm He Rr Rc Rs Hm Rk Hf Hlt) as (n1 & E & R1).
  unfold relocate_handle. unfold bind at 1, the_handle. rewrite Hx. unfold bind at 1, gets, cm_exists. fold q.
  rewrite Hq, Ho, Hck. cbn [Z.ltb Z.compare andb negb orb].
  unfold bind at 1, h_relocate. unfold bind at 1, the_handle. rewrite Hx, Hk.
  unfold base_relocate. unfold bind at 1, the_handle. rewrite Hx, Hk, E. cbn iota.
  unfold bind at 1, gets, cm_get. rewrite (rl_handles _ _ _ _ _ _ _ _ R1), Hq. unfold bind at 1, modify, insertOrReplace.
  set (n2 := set_fileHandles _ n1).
  destruct (drop_closed_local h n2 _ _ i s (rl_old _ _ _ _ _ _ _ _ R1 f i s Hk) eq_refl (rl_kernel _ _ _ _ _ _ _ _ R1))
    as (n3 & E3 & S3 & Hh & Hold & Hnames & Hino & Hkern).
  unfold bind, ret. rewrite E3. exists n3. split; [done|]. destruct R1, S3. cbn [n2 n_state n_md n_mdw n_fileHandles n_heap n_next
    n_objectStores n_fs n_kernel n_s3 set_fileHandles] in *.
  constructor; [congruence| | | |congruence..| | | | |done].
  - by rewrite Hh by lia.
  - intros h' N1 N2. rewrite Hh by done. auto.
  - intros y Hy. by rewrite (Hold y Hy).
  - by rewrite sm_mdw.
  - intros l b k. unfold object_at. rewrite sm_s3. apply rl_stored.
  - intros p Hp. rewrite Hnames by done. by rewrite rl_names.
  - intros j. by rewrite Hino.
Qed.
End steps.

Section preservation.
Context {W X K T : Type} `{MDService W} `{S3Store X} `{KernelFair K} `{Transfers T}.
Implicit Types n : Node W X K T.

(** The facts of one relocation the lemmas below share. *)
Context (q : Path) (h : nat) (x : Handle) (f : LocalFile) (i : Z) (s : bool) (m : KvsSpec.state) (mb : gmap str ObjectInfo).
Context (n n' : Node W X K T).
Hypothesis Htier : tiered m n.
Hypothesis Hin : (q, h) ∈ n_fileHandles n.
Hypothesis Hx : n_heap n !! h = Some x.
Hypothesis Hq : q = getPath (h_bucket x) (h_key x).
Hypothesis Hk : h_kind x = KLocal f i s.
Hypothesis Hm : m !! h_bucket x = Some mb.
Hypothesis Hsp : spilled q h x f (inode_data i (n_fs n)) m mb n n'.

Definition spilled_store : KvsSpec.state :=
  <[h_bucket x := <[h_key x := mkInfo (s3_location (h_bucket x) (h_key x)) (len (inode_data i (n_fs n)))
                                 (len (inode_data i (n_fs n))) (h_metadata x)]> mb]> m.

Lemma spill_lists : exists l1 l2, n_fileHandles n = l1 ++ (q, h) :: l2 /\ n_fileHandles n' = l1 ++ (q, n_next n) :: l2.
Proof using Htier Hin Hsp.
  rewrite (sp_handles _ _ _ _ _ _ _ _ _ Hsp). apply massign_split. apply mfind_Some; [apply Htier|exact Hin].
Qed.

Lemma entry_old q' h' : (q', h') ∈ n_fileHandles n -> (h' < n_next n)%nat.
Proof using Htier. intros Hi. exact (Forall_elem _ _ _ (nw_map n (tr_wf _ _ Htier)) Hi). Qed.

Lemma entry_unique q' : (q', h) ∈ n_fileHandles n -> q' = q.
Proof using Htier Hin Hsp.
  intros Hi. destruct spill_lists as (l1 & l2 & E & _). pose proof (tr_handles _ _ Htier) as Hnd. rewrite E in Hi, Hnd.
  rewrite map_app in Hnd. cbn [map snd] in Hnd. apply NoDup_app in Hnd as (_ & Hl1 & Hl2). apply NoDup_cons in Hl2 as [Hl2 _].
  apply elem_of_app in Hi as [Hi|Hi].
  - destruct (Hl1 h); [apply list_elem_of_fmap; by exists (q', h)|left].
  - apply elem_of_cons in Hi as [[= ->]|Hi]; [done|]. destruct Hl2. apply list_elem_of_fmap. by exists (q', h).
Qed.

(** The other entries are the same ones. *)
Lemma entry_other q' h' :
  (q', h') ∈ n_fileHandles n' -> (q' = q /\ h' = n_next n) \/ ((q', h') ∈ n_fileHandles n /\ h' <> h /\ q' <> q).
Proof using Htier Hin Hsp.
  pose proof (tr_wf _ _ Htier) as Hw. intros Hi. apply mfind_Some in Hi.
  2: { rewrite (sp_handles _ _ _ _ _ _ _ _ _ Hsp). apply massign_sorted, Hw. }
  rewrite (sp_handles _ _ _ _ _ _ _ _ _ Hsp) in Hi. destruct (decide (q = q')) as [<-|Hne].
  - rewrite mfind_massign_eq in Hi. left. split; [done|congruence].
  - rewrite mfind_massign_ne in Hi by done. apply mfind_Some in Hi; [|apply Hw]. right. split; [done|]. split; [|done].
    intros ->. by apply Hne, eq_sym, entry_unique.
Qed.

Lemma entry_kept q' h' : (q', h') ∈ n_fileHandles n -> h' <> h -> (q', h') ∈ n_fileHandles n'.
Proof using Htier Hin Hsp.
  intros Hi Hne. destruct spill_lists as (l1 & l2 & E & ->). rewrite E in Hi.
  apply elem_of_app in Hi as [Hi|Hi]; apply elem_of_app; [by left|right].
  apply elem_of_cons in Hi as [[= -> ->]|Hi]; [done|by right].
Qed.

Lemma heap_kept q' h' : (q', h') ∈ n_fileHandles n -> h' <> h -> n_heap n' !! h' = n_heap n !! h'.
Proof using Htier Hsp.
  intros Hi Hne. apply (sp_heap _ _ _ _ _ _ _ _ _ Hsp); [done|]. pose proof (entry_old _ _ Hi). lia.
Qed.

Lemma local_entry_kept q' h' :
  (q', h') ∈ n_fileHandles n -> h' <> h -> local_entry m n q' h' -> local_entry spilled_store n' q' h'.
Proof using Htier Hin Hx Hk Hm Hsp.
  intros Hi Hne (y & g & j & t & ep & mb' & Hy & Eq & Hyk & Hv & Ho & Hwf & Hnm & He & Hck & Hmb).
  unfold local_entry. rewrite (heap_kept q' h') by done. rewrite (sp_stores _ _ _ _ _ _ _ _ _ Hsp).
  assert (Hb : is_Some (spilled_store !! h_bucket y)).
  { unfold spilled_store. destruct (decide (h_bucket x = h_bucket y)) as [->|Hb]; [by rewrite lookup_insert_eq|].
    rewrite lookup_insert_ne by done. by eexists. }
  destruct Hb as [mb2 Hb]. exists y, g, j, t, ep, mb2. rewrite (sp_inodes _ _ _ _ _ _ _ _ _ Hsp).
  split_and!; try done. rewrite (sp_names _ _ _ _ _ _ _ _ _ Hsp); [done|].
  by apply (tr_files _ _ Htier q' h' q h y g j t x f i s).
Qed.

(** The entry itself is now an object of the store. *)
Lemma tiered_kept : tiered spilled_store n'.
Proof using Htier Hin Hx Hk Hm Hsp.
  pose proof (entry_old q h Hin) as Hlt. pose proof Htier as [[W1 W2 W3] R2 R3 R4 R5 R6 R7 R8].
  constructor; rewrite ?(sp_state _ _ _ _ _ _ _ _ _ Hsp), ?(sp_md _ _ _ _ _ _ _ _ _ Hsp); try done.
  - constructor; rewrite ?(sp_next _ _ _ _ _ _ _ _ _ Hsp), ?(sp_handles _ _ _ _ _ _ _ _ _ Hsp).
    + by apply massign_sorted.
    + rewrite <- (sp_handles _ _ _ _ _ _ _ _ _ Hsp). apply Forall_forall. intros [q' h'] Hi. cbn [snd].
      apply entry_other in Hi as [[_ ->]|[Hi _]]; [lia|]. apply entry_old in Hi. lia.
    + intros h' y Hy. destruct (decide (h' = n_next n)) as [->|N1].
      { rewrite (sp_new _ _ _ _ _ _ _ _ _ Hsp) in Hy. injection Hy as <-. split; [lia|constructor]. }
      destruct (decide (h' = h)) as [->|N2].
      { rewrite (sp_old _ _ _ _ _ _ _ _ _ Hsp y Hy). split; [lia|constructor]. }
      rewrite (sp_heap _ _ _ _ _ _ _ _ _ Hsp) in Hy by done. destruct (W3 h' y Hy) as [Hl Hc]. split; [lia|].
      eapply Forall_impl; [exact Hc|]. simpl. lia.
  - apply (sp_store _ _ _ _ _ _ _ _ _ Hsp).
  - apply (sp_kernel _ _ _ _ _ _ _ _ _ Hsp).
  - intros q' h' Hi. apply entry_other in Hi as [[-> ->]|(Hi & Hne & _)].
    + right. eexists _, _, _, _. split; [apply (sp_new _ _ _ _ _ _ _ _ _ Hsp)|reflexivity].
    + destruct (R6 q' h' Hi) as [Hl|(y & b & k & size & Hy & Hyk)]; [left; by apply local_entry_kept|right].
      exists y, b, k, size. by rewrite (heap_kept q' h').
  - destruct spill_lists as (l1 & l2 & E & ->). rewrite E in R7, W2. rewrite map_app in *. cbn [map snd] in *.
    apply NoDup_app in R7 as (D1 & D2 & D3). apply NoDup_cons in D3 as [D3 D4]. apply Forall_app in W2 as [F1 F2].
    apply Forall_cons_iff in F2 as [_ F2].
    assert (Hfresh : forall l : list (Path * nat), Forall (fun e => (snd e < n_next n)%nat) l -> n_next n ∉ map snd l).
    { intros l Hl Hc. apply list_elem_of_fmap in Hc as (e & Ee & He). apply (Forall_elem _ _ _ Hl) in He. simpl in He. lia. }
    apply NoDup_app. split; [done|]. split; [|apply NoDup_cons; split; [by apply Hfresh|done]].
    intros a Ha Hc. apply elem_of_cons in Hc as [->|Hc]; [by apply (Hfresh l1)|]. apply (D2 a Ha). by right.
  - intros q1 h1 q2 h2 x1 f1 i1 s1 x2 f2 i2 s2 Hi1 Hi2 Hne Hx1 Hk1 Hx2 Hk2.
    apply entry_other in Hi1 as [[-> ->]|(Hi1 & Hn1 & _)];
      [rewrite (sp_new _ _ _ _ _ _ _ _ _ Hsp) in Hx1; injection Hx1 as <-; discriminate|].
    apply entry_other in Hi2 as [[-> ->]|(Hi2 & Hn2 & _)];
      [rewrite (sp_new _ _ _ _ _ _ _ _ _ Hsp) in Hx2; injection Hx2 as <-; discriminate|].
    rewrite (heap_kept q1 h1) in Hx1 by done. rewrite (heap_kept q2 h2) in Hx2 by done.
    by apply (R8 q1 h1 q2 h2 x1 f1 i1 s1 x2 f2 i2 s2).
Qed.

(** The storage of the file is free, and no other changed. *)
Lemma storage_kept h' q' : (q', h') ∈ n_fileHandles n -> h' <> h -> handle_storage (n_heap n') h' = handle_storage (n_heap n) h'.
Proof using Htier Hsp.
  intros Hi Hne. unfold handle_storage, h_localStorageSize, resolved. rewrite (heap_kept q' h') by done.
  destruct (tr_entries _ _ Htier q' h' Hi) as [(y & g & j & t & ? & ? & Hy & _ & Hyk & _)|(y & b & k & size & Hy & Hyk)];
    by rewrite Hy, Hyk, Hyk.
Qed.

Lemma storage_spilled :
  storage_of (n_heap n') (n_fileHandles n') = storage_of (n_heap n) (n_fileHandles n) - handle_storage (n_heap n) h.
Proof using Htier Hin Hx Hsp.
  destruct spill_lists as (l1 & l2 & E & ->). rewrite E, !storage_of_app. cbn [storage_of foldr snd].
  fold (storage_of (n_heap n') l2) (storage_of (n_heap n) l2).
  rewrite (s3_storage (n_heap n') (n_next n) _ _ _ _ (sp_new _ _ _ _ _ _ _ _ _ Hsp) eq_refl).
  assert (Hsub : forall l, (forall e, e ∈ l -> e ∈ n_fileHandles n /\ snd e <> h) -> storage_of (n_heap n') l = storage_of (n_heap n) l).
  { intros l Hl. apply storage_of_ext. intros h' Hh. apply list_elem_of_fmap in Hh as ([q' h2] & -> & He). cbn [snd].
    destruct (Hl _ He) as [Hi Hne]. cbn [snd] in Hne. by apply (storage_kept h2 q'). }
  pose proof (tr_handles _ _ Htier) as Hnd. rewrite E, map_app in Hnd. cbn [map snd] in Hnd.
  apply NoDup_app in Hnd as (_ & Hl1 & Hl2). apply NoDup_cons in Hl2 as [Hl2 _].
  rewrite !Hsub; [lia| |].
  - intros e He. rewrite E. split; [apply elem_of_app; right; by right|]. intros <-. apply Hl2, list_elem_of_fmap. by exists e.
  - intros e He. rewrite E. split; [apply elem_of_app; by left|]. intros <-.
    apply (Hl1 (snd e)); [apply list_elem_of_fmap; by exists e|left].
Qed.

(** Every object keeps its bytes. *)
Lemma holds_kept q' d : holds q' d n -> holds q' d n'.
Proof using Htier Hin Hx Hq Hk Hsp.
  intros (h' & y & Hi & Hy & Hv & Hd). destruct (decide (h' = h)) as [->|Hne].
  - rewrite Hx in Hy. injection Hy as <-. rewrite Hk in Hd.
    destruct Hd as [(g & j & t & [= <- <- <-] & _ & Hd)|(b & k & ? & _)]; [|discriminate].
    apply entry_unique in Hi as ->.
    eexists (n_next n), _. split; [|split; [apply (sp_new _ _ _ _ _ _ _ _ _ Hsp)|split; [done|right]]].
    { destruct spill_lists as (l1 & l2 & _ & ->). apply elem_of_app. right. left. }
    exists (h_bucket x), (h_key x). rewrite Hd. split; [done|]. split; [done|].
    rewrite <- Hd. exact (stored_at _ _ _ _ _ (sp_stored _ _ _ _ _ _ _ _ _ Hsp)).
  - exists h', y. split; [by apply entry_kept|]. split; [by rewrite (heap_kept q' h')|]. split; [done|].
    destruct Hd as [(g & j & t & Hyk & Hwf & Hd)|(b & k & Hyk & Hp & Ho)]; [left|right].
    + exists g, j, t. by rewrite (sp_inodes _ _ _ _ _ _ _ _ _ Hsp).
    + exists b, k. split; [done|]. split; [done|]. rewrite (sp_stored _ _ _ _ _ _ _ _ _ Hsp).
      rewrite decide_False; [done|]. intros (Hb & _ & Hky). subst.
      assert (Hs : sorted (n_fileHandles n)) by apply Htier.
      apply (mfind_Some _ _ _ Hs) in Hi. apply (mfind_Some _ _ _ Hs) in Hin. congruence.
Qed.
End preservation.

(** ** Lemmas: all of them *)

Section rounds.
Context {W X K T : Type} `{MDService W} `{S3Store X} `{KernelFair K} `{Transfers T}.
Context (fuel : nat).
Implicit Types n : Node W X K T.

Definition sum (l : list Z) : Z := foldr Z.add 0 l.

Lemma relocate_all_step hs m n :
  tiered m n -> (1 <= fuel)%nat -> NoDup hs ->
  (forall h, h ∈ hs -> exists q, (q, h) ∈ n_fileHandles n /\ local_entry m n q h) ->
  exists n' m', relocate_all fuel hs false n = Done tt n' /\ tiered m' n' /\
    storage_of (n_heap n') (n_fileHandles n') =
      storage_of (n_heap n) (n_fileHandles n) - sum (map (handle_storage (n_heap n)) hs) /\
    forall q d, holds q d n -> holds q d n'.
Proof.
  revert m n. induction hs as [|h hs IH]; intros m n R Hf Hnd Hall.
  { exists n, m. split; [done|]. split; [done|]. split; [simpl; lia|done]. }
  apply NoDup_cons in Hnd as [Hh Hnd].
  destruct (Hall h) as (q & Hin & x & f & i & s & ep & mb & Hx & -> & Hk & Hv & Ho & Hwf & Hnm & He & Hck & Hm); [left|].
  destruct (relocate_handle_step fuel m h n x f i s ep mb R Hin Hx Hk Hv Ho Hwf Hnm He Hck Hm Hf) as (n1 & E1 & Hsp).
  pose proof (tiered_kept _ h x f i s m mb n n1 R Hin Hx Hk Hm Hsp) as R1.
  destruct (IH _ n1 R1 Hf Hnd) as (n' & m' & E & R' & Hst & Hho).
  { intros h' Hh'. destruct (Hall h') as (q' & Hin' & Hl); [by right|]. assert (h' <> h) by (by intros ->). exists q'.
    split; [by apply (entry_kept _ h x f i m mb n n1 R Hin Hsp)|].
    by apply (local_entry_kept _ h x f i s m mb n n1 R Hin Hx Hk Hm Hsp). }
  exists n', m'. split; [|split; [exact R'|split]].
  - cbn [relocate_all]. unfold bind at 1, the_handle. rewrite Hx, Hv. unfold bind at 1. by rewrite E1.
  - rewrite Hst, (storage_spilled _ h x f i m mb n n1 R Hin Hx Hsp). cbn [map sum foldr].
    fold (sum (map (handle_storage (n_heap n)) hs)). assert (Hmap : map (handle_storage (n_heap n1)) hs = map (handle_storage (n_heap n)) hs).
    { apply map_ext_in. intros h' Hh'%list_elem_of_In. destruct (Hall h') as (q' & Hin' & _); [by right|].
      apply (storage_kept _ h x f i m mb n n1 R Hsp h' q' Hin'). by intros ->. }
    rewrite Hmap. lia.
  - intros q' d Hd. apply Hho. by apply (holds_kept _ h x f i s m mb n n1 R Hin Hx eq_refl Hk Hsp).
Qed.

(** The candidates of a list of entries. *)
Lemma spillable_entries m n l :
  (forall q h, (q, h) ∈ l -> local_entry m n q h \/ s3_entry n h) ->
  let cs := map (fun e => candidate n (fst e) (snd e))
    (List.filter (fun e => h_isRelocatable (snd e) && (h_openCount (snd e) =? 0) && h_isValid (snd e))
       (omap (fun e => (fun x => (snd e, x)) <$> n_heap n !! snd e) l)) in
  total cs = storage_of (n_heap n) l /\ map c_handle cs `sublist_of` map snd l /\
  forall c, c ∈ cs -> 0 <= c_storage c /\ c_storage c = handle_storage (n_heap n) (c_handle c) /\
    exists q, (q, c_handle c) ∈ l /\ local_entry m n q (c_handle c).
Proof using Type.
  intros Hl. induction l as [|[q h] l IH]; [split_and!; [done|done|by intros c Hc%elem_of_nil]|].
  destruct IH as (IH1 & IH2 & IH3); [intros; apply Hl; by right|]. cbn [omap list_omap map storage_of foldr snd].
  fold (storage_of (n_heap n) l).
  destruct (Hl q h) as [Hloc|(x & b & k & size & Hx & Hk)]; [left| |].
  - pose proof Hloc as (x & f & i & s & ep & mb & Hx & _ & Hk & Hv & Ho & [Hfd Hsz _] & _). rewrite Hx. cbn [fmap option_fmap option_map].
    assert (Hrel : h_isRelocatable x = true) by (unfold h_isRelocatable; by rewrite Hk).
    cbn [List.filter snd]. rewrite Hrel, Ho, Hv. cbn [Z.eqb andb map].
    assert (Hs : c_storage (candidate n h x) = handle_storage (n_heap n) h) by (cbn [candidate c_storage]; unfold handle_storage; by rewrite Hx).
    split; [cbn [total foldr fst snd]; rewrite Hs; unfold total in IH1; lia|].
    split; [by apply sublist_skip|]. intros c Hc. apply elem_of_cons in Hc as [->|Hc].
    + cbn [fst snd]. split; [|split; [exact Hs|exists q; split; [left|done]]].
      rewrite Hs, (local_storage _ h x f i s Hx Hk). cbn [lf_size lf_data with_data] in Hsz. rewrite Hsz. apply len_nonneg.
    + destruct (IH3 c Hc) as (? & ? & q' & ? & ?). split; [done|]. split; [done|]. exists q'. split; [by right|done].
  - rewrite Hx. cbn [fmap option_fmap option_map List.filter snd]. 
    assert (Hrel : h_isRelocatable x = false) by (unfold h_isRelocatable; by rewrite Hk). rewrite Hrel. cbn [andb].
    rewrite (s3_storage _ h x b k size Hx Hk). split; [done|]. split; [by apply sublist_cons|].
    intros c Hc. destruct (IH3 c Hc) as (? & ? & q' & ? & ?). split; [done|]. split; [done|]. exists q'. split; [by right|done].
Qed.

Lemma spillable_spec m n : tiered m n ->
  total (spillable n) = storage_of (n_heap n) (n_fileHandles n) /\
  map c_handle (spillable n) `sublist_of` map snd (n_fileHandles n) /\
  forall c, c ∈ spillable n -> 0 <= c_storage c /\ c_storage c = handle_storage (n_heap n) (c_handle c) /\
    exists q, (q, c_handle c) ∈ n_fileHandles n /\ local_entry m n q (c_handle c).
Proof using Type. intros R. exact (spillable_entries m n (n_fileHandles n) (tr_entries _ _ R)). Qed.

Lemma storage_nonneg m n : tiered m n -> Forall (fun e => 0 <= handle_storage (n_heap n) (snd e)) (n_fileHandles n).
Proof using Type.
  intros R. apply Forall_forall. intros [q h] Hi. cbn [snd].
  destruct (tr_entries _ _ R q h Hi) as [(x & f & i & s & ? & ? & Hx & _ & Hk & _ & _ & [_ Hsz _] & _)|(x & b & k & size & Hx & Hk)].
  - rewrite (local_storage _ h x f i s Hx Hk). cbn [lf_size lf_data with_data] in Hsz. rewrite Hsz. apply len_nonneg.
  - by rewrite (s3_storage _ h x b k size Hx Hk).
Qed.

Lemma storage_of_nonneg (heap : gmap nat Handle) l :
  Forall (fun e : Path * nat => 0 <= handle_storage heap (snd e)) l -> 0 <= storage_of heap l.
Proof using Type. induction 1; simpl; lia. Qed.

(** An object that is held can be opened and read. *)
Lemma holds_reads b k d m n :
  tiered m n -> ok (isValid b k) = true -> holds (getPath b k) d n ->
  len d <= Z.of_nat fuel -> (chunks_left (len d) <= fuel)%nat ->
  exists h n1 n2, geds_open b k true n = Done (Value h) n1 /\ gf_readBytes fuel h 0 (len d) n1 = Done (Value (len d, d)) n2.
Proof.
  intros R Hv (h & x & Hin & Hx & Hval & Hd) Hf Hc.
  assert (Hq : mfind (getPath b k) (n_fileHandles n) = Some h) by (apply mfind_Some; [apply R|exact Hin]).
  pose proof (open_registered b k h n x (tr_running _ _ R) Hv Hq Hx Hval) as E. exists h, (opened h n).
  assert (Hx1 : n_heap (opened h n) !! h = Some (with_count (h_openCount x + 1) x))
    by (cbn [opened n_heap set_heap]; by rewrite lookup_alter_eq, Hx).
  pose proof (len_nonneg d). destruct Hd as [(f & i & s & Hk & Hwf & Hd)|(b' & k' & Hk & _ & Ho)].
  - destruct (file_read fuel h i d 0 (len d) (opened h n)) as (n2 & E2 & _).
    + by exists (with_count (h_openCount x + 1) x), f, s.
    + unfold INT64_MAX. lia.
    + lia.
    + cbn [opened n_kernel set_heap set_filesOpened]. rewrite (tr_kernel _ _ R). unfold len in Hf. lia.
    + exists n2. split; [exact E|]. rewrite slice_all in E2. by replace (Z.max 0 _) with (len d) in E2 by lia.
  - pose proof (object_size _ _ _ _ Ho).
    destruct (s3_read_step fuel 4 h (opened h n) _ b' k' (len d) d 0 (len d) Hx1 Hk Hval Ho) as (n2 & E2 & _); [lia|lia|unfold two64; lia|done|].
    exists n2. split; [exact E|]. rewrite slice_all in E2. by replace (Z.max 0 _) with (len d) in E2 by lia.
Qed.
End rounds.

(** ** Properties *)

(** C5: the storage monitor keeps the storage below its target. In a process whose
    objects are closed local files, in buckets with an object store, and objects
    of such stores, one iteration of the thread leaves at most the target in local
    files, does nothing when no more is used, and every object can still be
    opened and read with the bytes it had. *)
Theorem monitor_reaches_target (W X K T : Type) `{MDService W} `{S3Store X} `{KernelFair K} `{Transfers T}
    fuel target c m (n : Node W X K T) :
  tiered m n -> 0 <= target -> (1 <= fuel)%nat -> total (spillable n) < two64 ->
  exists c' n' m', monitor_pass fuel target c n = Done c' n' /\ tiered m' n' /\
    used (storageCounters c') = storageUsed n /\ (storageUsed n <= target -> n' = n) /\ storageUsed n' <= target /\
    forall b k d, ok (isValid b k) = true -> holds (getPath b k) d n ->
      len d <= Z.of_nat fuel -> (chunks_left (len d) <= fuel)%nat ->
      exists h n1 n2, geds_open b k true n' = Done (Value h) n1 /\ gf_readBytes fuel h 0 (len d) n1 = Done (Value (len d, d)) n2.
Proof.
  intros R Ht Hf Hsmall. destruct (spillable_spec m n R) as (Htot & Hsub & Hcs).
  assert (Hused : storageUsed n = storage_of (n_heap n) (n_fileHandles n)).
  { apply storageUsed_sum; [by apply (storage_nonneg m)|by rewrite <- Htot]. }
  destruct (monitor_round target (storageCounters c) n) as [counter sel] eqn:Er.
  destruct (monitor_selects W X K T target (storageCounters c) counter sel n) as (Hu & Hle & Hgt); [|done|done|].
  { apply Forall_forall. intros e He. by apply Hcs. }
  assert (Hsel : NoDup (map c_handle sel) /\ (forall e, e ∈ sel -> e ∈ spillable n) /\
                 storage_of (n_heap n) (n_fileHandles n) - total sel <= target).
  { destruct (Z.le_gt_cases (storageUsed n) target) as [Hl|Hg].
    { rewrite (Hle Hl). split_and!; [constructor|by intros e He%elem_of_nil|simpl; lia]. }
    destruct (Hgt Hg) as (sorted & Hp & _ & [rest Hpre] & Hor & _).
    assert (Hnd : NoDup (map c_handle sorted)).
    { rewrite Hp. eapply sublist_NoDup; [apply (tr_handles _ _ R)|exact Hsub]. }
    split; [rewrite Hpre, map_app in Hnd; by apply NoDup_app in Hnd as [? _]|].
    split; [intros e He; rewrite <- Hp, Hpre; apply elem_of_app; by left|].
    destruct Hor as [->|Hor]; [rewrite (total_perm _ _ Hp); lia|lia]. }
  destruct Hsel as (Hnd & Hin & Hbound).
  assert (Hsum : forall l, (forall e, e ∈ l -> e ∈ spillable n) -> sum (map (handle_storage (n_heap n)) (map c_handle l)) = total l).
  { induction l as [|e l IHl]; intros Hl; [done|]. cbn [map sum foldr total]. fold (sum (map (handle_storage (n_heap n)) (map c_handle l))).
    rewrite IHl by (intros; apply Hl; by right). destruct (Hcs e) as (_ & <- & _); [apply Hl; left|done]. }
  destruct (relocate_all_step fuel (map c_handle sel) m n R Hf Hnd) as (n' & m' & E & R' & Hst & Hho).
  { intros h Hh. apply list_elem_of_fmap in Hh as (e & -> & He). destruct (Hcs e (Hin e He)) as (_ & _ & q & ? & ?). by exists q. }
  rewrite Hsum in Hst by done.
  assert (Hpos : 0 <= total sel).
  { apply total_nonneg, Forall_forall. intros e He. by apply Hcs, Hin. }
  exists (mkCounters counter (updateUsed 0 (memoryCounters c))), n', m'. split; [|split; [exact R'|split; [exact Hu|split; [|split]]]].
  - unfold monitor_pass, bind, gets. rewrite Er. cbn [fst snd]. destruct sel as [|e sel]; [by injection E as <-|].
    change (0 <? length (map c_handle (e :: sel)))%nat with true. cbn iota. by rewrite E.
  - intros Hl. rewrite (Hle Hl) in E. by injection E as <-.
  - rewrite storageUsed_sum; [lia|by apply (storage_nonneg m')|lia].
  - intros b k d Hv Hd Hl Hch. by apply (holds_reads fuel b k d m' n'); [| |apply Hho| |].
Qed.

(** ** Witnesses *)

#[local] Existing Instance the_stub.
#[local] Existing Instance the_service.

(** A process with two closed files, of 5 and of 7 bytes. *)
Definition key_handle : Handle := mkHandle "bkt" "dir/key" None 0 true 9 (KLocal (mkLocalFile "/tmp/geds/bkt/0" 0 5 []) 0 true).
Definition top_handle : Handle := mkHandle "bkt" "top" None 0 true 4 (KLocal (mkLocalFile "/tmp/geds/bkt/1" 1 7 []) 1 true).

Definition two_files : Node Server MemS3.world nat unit :=
  mkNode (mkNodeConfig 4 false false) Running connected_client demo_store "/tmp/geds" newFileNames
    "geds://h:1" [(getPath "bkt" "dir/key", 0%nat); (getPath "bkt" "top", 1%nat)] [] ["bkt" : str]
    [("bkt" : str, newEndpoint "http://s3" "ak" "sk")] 0 0
    (<[0%nat := key_handle]> {[1%nat := top_handle]}) 2 0 (fun _ => mem_state)
    (mkFS (<[("/tmp/geds/bkt/0" : str) := 0]> {[("/tmp/geds/bkt/1" : str) := 1]})
          (<[0 := ("hello" : str)]> {[1 := ("goodbye" : str)]}) 2 ∅) 0%nat tt.

Lemma two_files_tiered : tiered demo_state two_files.
Proof.
  constructor; try reflexivity.
  - constructor; simpl; [repeat constructor|repeat constructor; lia|].
    intros h x Hx. apply lookup_insert_Some in Hx as [[<- <-]|[_ Hx]]; [split; [lia|constructor]|].
    apply lookup_singleton_Some in Hx as [<- <-]. split; [lia|constructor].
  - exact demo_store_abs.
  - intros q h Hi. left. apply elem_of_cons in Hi as [[= -> ->]|Hi]; [|apply list_elem_of_singleton in Hi as [= -> ->]].
    + eexists key_handle, _, 0, true, _, demo_bucket. split_and!; try reflexivity.
      constructor; [simpl; lia|reflexivity|vm_compute; reflexivity].
    + eexists top_handle, _, 1, true, _, demo_bucket. split_and!; try reflexivity.
      constructor; [simpl; lia|reflexivity|vm_compute; reflexivity].
  - vm_compute. repeat constructor; set_solver.
  - assert (Hf : forall q h x f i s, (q, h) ∈ n_fileHandles two_files -> n_heap two_files !! h = Some x -> h_kind x = KLocal f i s ->
             (h = 0%nat /\ lf_path f = "/tmp/geds/bkt/0") \/ (h = 1%nat /\ lf_path f = "/tmp/geds/bkt/1")).
    { intros q h x f i s Hi Hx Hk. apply elem_of_cons in Hi as [[= -> ->]|Hi]; [|apply list_elem_of_singleton in Hi as [= -> ->]].
      - injection Hx as <-. injection Hk as <- <- <-. by left.
      - injection Hx as <-. injection Hk as <- <- <-. by right. }
    intros q1 h1 q2 h2 x1 f1 i1 s1 x2 f2 i2 s2 Hi1 Hi2 Hne Hx1 Hk1 Hx2 Hk2.
    destruct (Hf _ _ _ _ _ _ Hi1 Hx1 Hk1) as [[-> ->]|[-> ->]], (Hf _ _ _ _ _ _ Hi2 Hx2 Hk2) as [[-> ->]|[-> ->]]; congruence || discriminate.
Qed.

(** With a target of 8 bytes, the file that was released first goes to the store. *)
Lemma monitor_reaches_target_witness :
  exists c' n' h n1 n2, monitor_pass 20 8 (mkCounters (newCounter 10) (newCounter 10)) two_files = Done c' n' /\
    used (storageCounters c') = 12 /\ storageUsed n' <= 8 /\
    geds_open "bkt" "top" true n' = Done (Value h) n1 /\ gf_readBytes 20 h 0 7 n1 = Done (Value (7, "goodbye" : str)) n2.
Proof.
  destruct (monitor_reaches_target Server MemS3.world nat unit 20 8 (mkCounters (newCounter 10) (newCounter 10)) demo_state two_files
              two_files_tiered ltac:(lia) ltac:(lia) ltac:(vm_compute; reflexivity)) as (c' & n' & m' & E & _ & Hu & _ & Hle & Hr).
  destruct (Hr "bkt" "top" "goodbye" eq_refl) as (h & n1 & n2 & E1 & E2); [|vm_compute; congruence|vm_compute; lia|].
  - exists 1%nat, top_handle. split; [right; left|]. split; [reflexivity|]. split; [reflexivity|]. left.
    eexists _, 1, true. split; [reflexivity|]. split; [|reflexivity]. constructor; [simpl; lia|reflexivity|vm_compute; reflexivity].
  - exists c', n', h, n1, n2. split; [exact E|]. split; [rewrite Hu; vm_compute; reflexivity|]. split; [exact Hle|]. split; [exact E1|exact E2].
Defined.
