(* ===== verification/PythonBinding.v ===== *)
(** * The Python binding

    The module pygeds (src/src/python/wrapper.cpp): the classes [GEDSConfig],
    [GEDS], [GEDSFile] and [GEDSFileStatus] of Python, one definition per overload
    that the module registers, on the operations of GEDS.v and the handles. Python
    buffers are the memory of an exporting object with the window that the buffer
    protocol describes. What Python does with an overloaded call is not modelled,
    neither is what is left in a buffer by a read that fails. *)

From Stdlib Require Import Ascii ZArith Lia.
From stdpp Require Import base gmap sets list strings numbers.
From S2P Require Import Prelude Bytes Decimal Status StdMap Path Object FileSet MDSKVSBucket MDSKVS S3Endpoint Rpc GEDSConfig.
From S2P Require Import MetadataServer MetadataService LocalFile ConcurrentMap GedsNames FileHandle.
From S2P Require Import Node Handles HandleIO GEDS GEDSCreate GEDSObjects TcpConnection GEDSCopy Startup.
From S2P Require Import GEDSThreads.
From S2P Require JavaFile Demo Commands.

Open Scope Z_scope.
Open Scope list_scope.

#[local] Opaque to_string.

(** ** Results *)

(** A status that is not OK is raised as an exception that carries it; the others
    are Python's own. *)
Inductive pyexception :=
| StatusNotOk (st : Status)
| BufferError
| MemoryError.

Inductive pyresult (A : Type) :=
| PyReturn (a : A)
| PyRaise (e : pyexception).
Arguments PyReturn {A} a.
Arguments PyRaise {A} e.

Definition py_status (st : Status) : pyresult unit := if ok st then PyReturn tt else PyRaise (StatusNotOk st).

Definition py_statusor {A} (r : StatusOr A) : pyresult A :=
  match r with Value a => PyReturn a | Error st => PyRaise (StatusNotOk st) end.

(** ** Settings *)

(** Assignments to the attributes of a [GEDSConfig]. *)
Inductive assignment :=
| metadata_service_address (v : str)
| listen_address (v : str)
| hostname (v : option str)
| port (v : Z)
| port_http_server (v : Z)
| local_storage_path (v : str)
| cache_block_size (v : Z)
| py_cache_objects_from_s3 (v : bool)
| py_available_local_storage (v : Z)
| py_available_local_memory (v : Z)
| py_force_relocation_when_stopping (v : bool).

Definition set_address v c := mkConfig v (listenAddress c) (cf_hostname c) (cf_port c) (portHttpServer c) (localStoragePath c) (GEDSConfig.cacheBlockSize c) (io_thread_pool_size c) (available_local_storage c) (available_local_memory c) (GEDSConfig.pubSubEnabled c) (GEDSConfig.cache_objects_from_s3 c) (force_relocation_when_stopping c) (storage_spilling_fraction c).

Definition assign (a : assignment) (c : GEDSConfig) : GEDSConfig :=
  match a with
  | metadata_service_address v => set_address v c
  | listen_address v => set_listen v c
  | hostname v => set_hostname v c
  | port v => set_port v c
  | port_http_server v => set_http v c
  | local_storage_path v => set_path v c
  | cache_block_size v => GEDSConfig.set_block v c
  | py_cache_objects_from_s3 v => set_cache_s3 v c
  | py_available_local_storage v => set_storage v c
  | py_available_local_memory v => set_memory v c
  | py_force_relocation_when_stopping v => set_force v c
  end.

(** The value has the type of the member. *)
Definition assignment_typed (a : assignment) : Prop :=
  match a with
  | port v | port_http_server v => 0 <= v < 2 ^ 16
  | cache_block_size v | py_available_local_storage v | py_available_local_memory v => is_u64 v
  | _ => True
  end.

(** [GEDSConfig(metadata_service_address)] *)
Definition py_GEDSConfig (cpus : Z) (address : str) : GEDSConfig := newConfig cpus address.

(** ** Buffers *)

(** What an object exports: its memory, where the first item is in it, the size
    of an item, the number of dimensions and of items, and the distance between
    items. *)
Record PyBuffer := mkPyBuffer {
  pb_memory : str;
  pb_ptr : Z;
  pb_itemsize : Z;
  pb_ndim : Z;
  pb_size : Z;
  pb_stride : Z;
  pb_readonly : bool
}.

Definition set_memory_of (m : str) (b : PyBuffer) : PyBuffer :=
  mkPyBuffer m (pb_ptr b) (pb_itemsize b) (pb_ndim b) (pb_size b) (pb_stride b) (pb_readonly b).

(** The bytes of item [i], and all bytes of a buffer with one dimension: what
    [memoryview(...).tobytes()] is. *)
Definition pb_item (b : PyBuffer) (i : nat) : str :=
  slice (pb_ptr b + Z.of_nat i * pb_stride b) (pb_itemsize b) (pb_memory b).

Definition pb_tobytes (b : PyBuffer) : str := concat (map (pb_item b) (seq 0 (Z.to_nat (pb_size b)))).

(** Every item is in the memory of the object. *)
Definition pb_valid (b : PyBuffer) : Prop :=
  0 <= pb_size b /\ 0 < pb_itemsize b /\ len (pb_memory b) < 2 ^ 63 /\
  forall i, 0 <= i < pb_size b ->
    0 <= pb_ptr b + i * pb_stride b /\ pb_ptr b + i * pb_stride b + pb_itemsize b <= len (pb_memory b).

(** [length] bytes from the pointer; [None] when they are not all in the memory of
    the object. *)
Definition load (b : PyBuffer) (length : Z) : option str :=
  if length =? 0 then Some []
  else if (0 <=? pb_ptr b) && (pb_ptr b + length <=? len (pb_memory b)) then Some (slice (pb_ptr b) length (pb_memory b))
  else None.

Definition store (b : PyBuffer) (bytes : str) : option PyBuffer :=
  match bytes, load b (len bytes) with
  | [], _ => Some b
  | _, Some _ => Some (set_memory_of (write_at (pb_ptr b) bytes (pb_memory b)) b)
  | _, None => None
  end.

(** The array that NumPy allocates, with what it contains, unless that fails, and
    its resizing. *)
Class NumPy := {
  np_empty : Z -> option str;
  np_resize : Z -> str -> str
}.

Class NumPyLaws `{NumPy} := {
  np_empty_length n a : np_empty n = Some a -> len a = n;
  np_resize_shrinks n a : 0 <= n <= len a -> np_resize n a = take (Z.to_nat n) a
}.

Definition wrong_dimensions : Status := FailedPreconditionError "Buffer has wrong dimensions!".
Definition buffer_too_small : Status := FailedPreconditionError "The buffer does not have sufficient space!".

(** The memory of a [const char *]: the text and a zero byte. *)
Definition chars (s : str) : PyBuffer := mkPyBuffer (s ++ [zero_byte]) 0 1 1 (len s + 1) 1 true.

(** ** [GEDSFile] *)

Section file.
Context {W X K T : Type} `{MDStub W} `{S3Client X} `{Kernel K} `{Transfers T} `{NumPy}.
Context (fuel : nat).
Implicit Types (h : nat) (b : PyBuffer).

Definition py_size h : M W X K T Z := let* s := h_size h in ret (match s with Value n => n | Error _ => 0 end).
Definition py_writeable h : M W X K T bool := h_isWriteable h.
Definition py_identifier h : M W X K T str := let* x := the_handle h in ret (identifier x).

(** The strings of [metadata] are decoded by Python. *)
Definition py_metadata h : M W X K T (option str) := h_metadata_of h.

(** [s->empty()] on an empty optional is undefined. *)
Definition py_metadata_bytes h : M W X K T (option str) :=
  let* s := h_metadata_of h in
  match s with
  | None => fun _ => Crash
  | Some [] => ret None
  | Some m => ret (Some m)
  end.

Definition py_truncate h (size : Z) : M W X K T (pyresult unit) :=
  let* status := h_truncate h size in ret (py_status status).
Definition py_raw_ptr h : M W X K T (StatusOr str) := h_rawPtr fuel h.
Definition py_seal h : M W X K T (pyresult unit) := let* status := h_seal h in ret (py_status status).

(** [set_metadata(metadata, seal)] *)
Definition py_set_metadata h (metadata : option str) (seal : option bool) : M W X K T (pyresult unit) :=
  let* status := h_setMetadata h metadata (default true seal) in ret (py_status status).

(** [setMetadata(const T *buffer, size_t length, bool seal)] for bytes: the string
    is made of what is at the pointer. *)
Definition set_metadata_at h b (length : Z) (seal : bool) : M W X K T (pyresult unit) :=
  match load b length with
  | Some m => let* status := h_setMetadata h (Some m) seal in ret (py_status status)
  | None => fun _ => Crash
  end.

(** [set_metadata(buffer, length, seal)] *)
Definition py_set_metadata_buffer h b (lengthArg : option Z) (seal : option bool) : M W X K T (pyresult unit) :=
  if negb (pb_ndim b =? 1) then ret (PyRaise (StatusNotOk wrong_dimensions)) else
  let length := pb_size b in
  let length := match lengthArg with Some l => Z.min length l | None => length end in
  set_metadata_at h b length (default true seal).

(** [set_metadata(const char *buffer, length, seal)]; [None] is the null pointer. *)
Definition py_set_metadata_chars h (buffer : option str) (lengthArg : option Z) (seal : option bool) :
    M W X K T (pyresult unit) :=
  match buffer with
  | None => fun _ => Crash
  | Some s =>
      let length := default (len (JavaFile.c_str s)) lengthArg in
      set_metadata_at h (chars s) length (default true seal)
  end.

(** [read1(position, length)] *)
Definition py_read1 h (position length : Z) : M W X K T (pyresult str) :=
  match np_empty length with
  | None => ret (PyRaise MemoryError)
  | Some result =>
      let* status := gf_readBytes fuel h position length in
      match status with
      | Error st => ret (PyRaise (StatusNotOk st))
      | Value (n, bytes) =>
          if len bytes <=? len result then ret (PyReturn (np_resize n (write_at 0 bytes result)))
          else fun _ => Crash
      end
  end.

(** [readinto1(buffer, position)], with the buffer afterwards *)
Definition py_readinto1 h b (position : Z) : M W X K T (PyBuffer * pyresult Z) :=
  if pb_readonly b then ret (b, PyRaise BufferError) else
  if negb (pb_ndim b =? 1) then ret (b, PyRaise (StatusNotOk wrong_dimensions)) else
  let* status := gf_readBytes fuel h position (pb_size b) in
  match status with
  | Error st => ret (b, PyRaise (StatusNotOk st))
  | Value (n, bytes) =>
      match store b bytes with
      | Some b => ret (b, PyReturn n)
      | None => fun _ => Crash
      end
  end.

(** [GEDSFile::write] of what is at the pointer; only a local file looks at the
    bytes. *)
Definition write_pointer h b (position length : Z) : M W X K T (pyresult unit) :=
  let* status :=
    match load b length with
    | Some bytes => h_writeBytes fuel h bytes position length
    | None =>
        let* w := h_isWriteable h in
        if w then fun _ => Crash else h_writeBytes fuel h [] position length
    end in
  ret (py_status status).

(** [write(buffer, position, length)] *)
Definition py_write h b (position length : Z) : M W X K T (pyresult unit) :=
  if negb (pb_ndim b =? 1) then ret (PyRaise (StatusNotOk wrong_dimensions)) else
  if pb_size b <? length then ret (PyRaise (StatusNotOk buffer_too_small)) else
  let length := Z.min (pb_size b) length in
  write_pointer h b position length.

(** [write(const char *array, position, length)]; nothing is at the null pointer. *)
Definition py_write_chars h (array : option str) (position length : Z) : M W X K T (pyresult unit) :=
  write_pointer h (match array with Some s => chars s | None => mkPyBuffer [] 0 1 1 0 1 true end) position length.

(** The file is destroyed. *)
Definition py_file_del h : M W X K T unit := close h.
End file.

(** ** [GEDSFileStatus] *)

Definition fst_key (s : GEDSFileStatus) : str := fs_key s.
Definition fst_name (s : GEDSFileStatus) : str := fs_key s.
Definition fst_size (s : GEDSFileStatus) : Z := fs_size s.
Definition fst_isDirectory (s : GEDSFileStatus) : bool := fs_isDirectory s.
Definition fst_str (s : GEDSFileStatus) : str := fs_key s.
Definition fst_repr (s : GEDSFileStatus) : str :=
  "{" ++ fs_key s ++ ", " ++ to_string (fs_size s) ++ " bytes, " ++
  (if fs_isDirectory s then "directory" else "file") ++ "}".

(** ** [GEDS] *)

Definition default_port : Z := GEDSConfig.GEDSPort.
Definition default_metadata_server_port : Z := Commands.defaultMetdataServerPort.

Section service.
Context {W X K T : Type} `{MDStub W} `{S3Client X} `{Kernel K} `{Transfers T}.
Context (fuel : nat).

(** [py::init<GEDSConfig>()] is the constructor, with a copy of the settings. *)
Definition py_GEDS (cfg : GEDSConfig) (w : World W X K T) : outcome (Node W X K T) := new_GEDS cfg w.

Definition raising (m : M W X K T Status) : M W X K T (pyresult unit) := let* st := m in ret (py_status st).
Definition raising_or {A} (m : M W X K T (StatusOr A)) : M W X K T (pyresult A) := let* r := m in ret (py_statusor r).

Definition py_start (b : Boot) := raising (geds_start b).
Definition py_stop (relocate : bool) (server : Status) := raising (geds_stop fuel relocate server).
Definition py_create (bucket key : str) (overwrite : option bool) :=
  raising_or (geds_create bucket key (default true overwrite)).
Definition py_create_bucket (bucket : str) := raising (geds_createBucket bucket).
Definition py_mkdirs (bucket path : str) := raising (mkdirs fuel bucket path Default_GEDSFolderDelimiter).
Definition py_list (bucket key : str) := raising_or (geds_list_all bucket key).
Definition py_list_folder (bucket prefix : str) := raising_or (geds_listAsFolder bucket prefix).
Definition py_status_of (bucket key : str) := raising_or (geds_status_default bucket key).
Definition py_open (bucket key : str) (retry : option bool) := raising_or (geds_open bucket key (default false retry)).
Definition py_delete (bucket key : str) := raising (geds_deleteObject bucket key).
Definition py_delete_prefix (bucket prefix : str) := raising (geds_deleteObjectPrefix fuel bucket prefix).
Definition py_rename (src_bucket src_key dest_bucket dest_key : str) :=
  raising (geds_rename fuel src_bucket src_key dest_bucket dest_key).
Definition py_rename_prefix (src_bucket src_prefix dest_bucket dest_prefix : str) :=
  raising (renamePrefix fuel src_bucket src_prefix dest_bucket dest_prefix).
Definition py_copy (src_bucket src_key dest_bucket dest_key : str) :=
  raising (geds_copy fuel src_bucket src_key dest_bucket dest_key).
Definition py_copy_prefix (src_bucket src_prefix dest_bucket dest_prefix : str) :=
  raising (copyPrefix fuel src_bucket src_prefix dest_bucket dest_prefix).
Definition py_local_path (h : nat) : M W X K T str := getLocalPath_file h.
Definition py_registerObjectStoreConfig (bucket endpointUrl accessKey secretKey : str) :=
  raising (geds_registerObjectStoreConfig bucket endpointUrl accessKey secretKey).
Definition py_syncObjectStoreConfigs := raising syncObjectStoreConfigs.
Definition py_relocate (force : option bool) : M W X K T unit := geds_relocate fuel (default false force).
End service.

(** ** Lemmas: buffers *)

(** A buffer of bytes, one after the other: that of a [bytes] or [bytearray]
    object, or of a slice of one without a step. *)
Record plain (b : PyBuffer) : Prop := {
  pl_valid : pb_valid b;
  pl_ndim : pb_ndim b = 1;
  pl_itemsize : pb_itemsize b = 1;
  pl_stride : pb_stride b = 1
}.

Lemma plain_window b : plain b -> 0 < pb_size b -> 0 <= pb_ptr b /\ pb_ptr b + pb_size b <= len (pb_memory b).
Proof.
  intros [(_ & _ & _ & Hv) _ Hi Hs] Hl. rewrite Hi, Hs in Hv.
  pose proof (Hv 0 ltac:(lia)). pose proof (Hv (pb_size b - 1) ltac:(lia)). lia.
Qed.

Lemma slices_join p k m : 
  0 <= p -> p + Z.of_nat k <= len m ->
  concat (map (fun i => slice (p + Z.of_nat i * 1) 1 m) (seq 0 k)) = slice p (Z.of_nat k) m.
Proof.
  intros Hp. induction k as [|k IH]; intros Hk; [by rewrite slice_0|].
  rewrite seq_S, map_app, concat_app, IH by lia. cbn [map concat]. rewrite app_nil_r, Z.mul_1_r.
  rewrite Nat2Z.inj_succ. unfold Z.succ. by rewrite slice_extend by lia.
Qed.

Lemma plain_tobytes b : plain b -> pb_tobytes b = slice (pb_ptr b) (pb_size b) (pb_memory b).
Proof.
  intros Hb. pose proof Hb as [(Hz & _) _ Hi Hs]. unfold pb_tobytes, pb_item. rewrite Hi, Hs.
  destruct (Z.eq_dec (pb_size b) 0) as [->|Hne]; [by rewrite slice_0|].
  pose proof (plain_window b Hb ltac:(lia)). rewrite slices_join by lia. by rewrite Z2Nat.id by lia.
Qed.

Lemma load_plain b l : plain b -> 0 <= l <= pb_size b -> load b l = Some (take (Z.to_nat l) (pb_tobytes b)).
Proof.
  intros Hb Hl. rewrite plain_tobytes, take_slice by done. unfold load. destruct (Z.eqb_spec l 0) as [->|Hne]; [by rewrite slice_0|].
  pose proof (plain_window b Hb ltac:(lia)). rewrite (proj2 (Z.leb_le 0 _)), (proj2 (Z.leb_le _ _)) by lia. done.
Qed.

(** What a buffer is after bytes were stored at its start. *)
Definition filled (bytes : str) (b : PyBuffer) : PyBuffer :=
  set_memory_of (JavaFile.written (pb_ptr b) bytes (pb_memory b)) b.

Lemma filled_nil b : filled [] b = b.
Proof. by destruct b. Qed.

Lemma store_plain b bytes : plain b -> len bytes <= pb_size b -> store b bytes = Some (filled bytes b).
Proof.
  intros Hb Hl. unfold store. destruct bytes as [|x bytes]; [by rewrite filled_nil|].
  rewrite load_plain by (done || (split; [apply len_nonneg|done])). done.
Qed.

(** ** Programs *)

(** The calls of a Python program on a file, with the buffers it passes. *)
Inductive pycall :=
| PRead1 (position length : Z)
| PReadinto1 (b : PyBuffer) (position : Z)
| PWrite (b : PyBuffer) (position length : Z)
| PTruncate (size : Z)
| PSize.

Inductive pyanswer :=
| ABytes (r : pyresult str)
| ABuffer (b : PyBuffer) (r : pyresult Z)
| ADone (r : pyresult unit)
| ASize (n : Z).

(** The calls on an array of bytes. *)
Definition pyarray_step (c : pycall) (d : str) : str * pyanswer :=
  match c with
  | PRead1 position length => (d, ABytes (PyReturn (slice position length d)))
  | PReadinto1 b position =>
      if pb_readonly b then (d, ABuffer b (PyRaise BufferError))
      else let bytes := slice position (pb_size b) d in (d, ABuffer (filled bytes b) (PyReturn (len bytes)))
  | PWrite b position length =>
      if pb_size b <? length then (d, ADone (PyRaise (StatusNotOk buffer_too_small)))
      else (JavaFile.written position (take (Z.to_nat length) (pb_tobytes b)) d, ADone (PyReturn tt))
  | PTruncate size => (resize size d, ADone (PyReturn tt))
  | PSize => (d, ASize (len d))
  end.

Fixpoint pyarray_run (cs : list pycall) (d : str) : str * list pyanswer :=
  match cs with
  | [] => (d, [])
  | c :: cs => let '(d, a) := pyarray_step c d in
               let '(d, rest) := pyarray_run cs d in (d, a :: rest)
  end.

(** Numbers that Python can pass, positions below the largest offset of a file,
    and enough steps for calls that move a byte at a time. *)
Definition pycall_fits `{NumPy} (fuel : nat) (c : pycall) (d : str) : Prop :=
  match c with
  | PRead1 position length =>
      0 <= position < INT64_MAX /\ 0 <= length /\ is_Some (np_empty length) /\ len d <= Z.of_nat fuel
  | PReadinto1 b position => plain b /\ 0 <= position < INT64_MAX /\ len d <= Z.of_nat fuel
  | PWrite b position length =>
      plain b /\ 0 <= position /\ 0 <= length /\ position + length < INT64_MAX /\ length <= Z.of_nat fuel
  | PTruncate size => 0 <= size < INT64_MAX
  | PSize => True
  end.

Fixpoint pycalls_fit `{NumPy} (fuel : nat) (cs : list pycall) (d : str) : Prop :=
  match cs with
  | [] => True
  | c :: cs => pycall_fits fuel c d /\ pycalls_fit fuel cs (fst (pyarray_step c d))
  end.

Section programs.
Context {W X K T : Type} `{MDStub W} `{S3Client X} `{Kernel K} `{Transfers T} `{NumPy}.
Context (fuel : nat).

Definition pycall_run (h : nat) (c : pycall) : M W X K T pyanswer :=
  match c with
  | PRead1 position length => let* r := py_read1 fuel h position length in ret (ABytes r)
  | PReadinto1 b position => let* r := py_readinto1 fuel h b position in ret (ABuffer (fst r) (snd r))
  | PWrite b position length => let* r := py_write fuel h b position length in ret (ADone r)
  | PTruncate size => let* r := py_truncate h size in ret (ADone r)
  | PSize => let* n := py_size h in ret (ASize n)
  end.

Fixpoint pycalls_run (h : nat) (cs : list pycall) : M W X K T (list pyanswer) :=
  match cs with
  | [] => ret []
  | c :: cs => let* a := pycall_run h c in let* rest := pycalls_run h cs in ret (a :: rest)
  end.
End programs.

(** ** Lemmas: files *)

Section steps.
Context {W X K T : Type} `{MDStub W} `{S3Client X} `{KernelFair K} `{Transfers T} `{NumPyLaws}.
Context (fuel : nat).
Implicit Types n : Node W X K T.

Lemma quiet_framed n n' : interrupts (n_kernel n) = 0%nat -> framed n n' -> interrupts (n_kernel n') = 0%nat.
Proof using Type. intros Hk F. pose proof (fr_kernel _ _ F). lia. Qed.

Lemma file_truncate h i d size n :
  file_at h i d n -> 0 <= size < INT64_MAX -> interrupts (n_kernel n) = 0%nat ->
  exists n', h_truncate h size n = Done OkStatus n' /\ framed n n' /\ file_at h i (resize size d) n'.
Proof using Type.
  intros (x & f & s & Hx & Hk & Hwf & Hd) Hs Hi. pose proof Hwf as [Hfd _ _]. cbn [lf_fd with_data] in Hfd.
  destruct (call_quiet _ Hi) as (k' & Ek & Hk').
  destruct (file_step h i d (resize size d) f x s k' n Hx Hk ltac:(lia) (with_data (resize size d) (with_size size f)))
    as (Hfr & Hfa & _); [|done|done|].
  { constructor; [exact Hfd|simpl; rewrite len_resize; lia|simpl; rewrite len_resize; lia]. }
  eexists. split; [|split; [exact Hfr|exact Hfa]]. rewrite (truncate_exact h n x f i s size k' Hx Hk Hfd Ek). by rewrite Hd.
Qed.

Lemma py_read1_step h i d position length n :
  file_at h i d n -> 0 <= position < INT64_MAX -> 0 <= length -> is_Some (np_empty length) ->
  interrupts (n_kernel n) = 0%nat -> len d <= Z.of_nat fuel ->
  exists n', py_read1 fuel h position length n = Done (PyReturn (slice position length d)) n' /\
    framed n n' /\ file_at h i d n'.
Proof.
  intros Hf Hp Hl [a Ha] Hi Hfu.
  destruct (file_read fuel h i d position length n Hf Hp Hl) as (n' & E & Hfr & Hfa & _); [unfold len in *; lia|].
  exists n'. split; [|done]. unfold py_read1. rewrite Ha. unfold bind. rewrite E.
  pose proof (np_empty_length _ _ Ha) as Hla. rewrite <- (len_slice position length d) by lia.
  set (bytes := slice position length d). pose proof (slice_length_le position length d ltac:(lia) Hl) as Hle.
  fold bytes in Hle. rewrite (proj2 (Z.leb_le _ _)) by lia. unfold ret. do 2 f_equal. pose proof (len_nonneg bytes).
  rewrite np_resize_shrinks by (rewrite len_write_at; lia).
  unfold write_at, resize, zeros. change (Z.to_nat 0) with 0%nat. pose proof (len_nonneg a).
  replace (Z.to_nat (0 - len a)) with 0%nat by lia. cbn [firstn replicate app].
  rewrite app_nil_r, take_0. cbn [app]. unfold len. by rewrite Nat2Z.id, take_app_length.
Qed.

Lemma py_readinto1_step h i d b position n :
  file_at h i d n -> plain b -> pb_readonly b = false -> 0 <= position < INT64_MAX ->
  interrupts (n_kernel n) = 0%nat -> len d <= Z.of_nat fuel ->
  let bytes := slice position (pb_size b) d in
  exists n', py_readinto1 fuel h b position n = Done (filled bytes b, PyReturn (len bytes)) n' /\
    framed n n' /\ file_at h i d n'.
Proof.
  intros Hf Hb Hr Hp Hi Hfu bytes. pose proof Hb as [(Hz & _) Hn _ _].
  destruct (file_read fuel h i d position (pb_size b) n Hf Hp Hz) as (n' & E & Hfr & Hfa & _); [unfold len in *; lia|].
  exists n'. split; [|done]. unfold py_readinto1. rewrite Hr, Hn. cbn [negb Z.eqb Pos.eqb]. unfold bind. rewrite E.
  fold bytes. rewrite store_plain; [|done|apply slice_length_le; lia]. unfold ret, bytes. by rewrite len_slice by lia.
Qed.

Lemma py_write_step h i d b position length n :
  file_at h i d n -> plain b -> 0 <= position -> 0 <= length <= pb_size b -> position + length < INT64_MAX ->
  interrupts (n_kernel n) = 0%nat -> length <= Z.of_nat fuel ->
  exists n', py_write fuel h b position length n = Done (PyReturn tt) n' /\ framed n n' /\
    file_at h i (JavaFile.written position (take (Z.to_nat length) (pb_tobytes b)) d) n'.
Proof.
  intros Hf Hb Hp Hl Hm Hi Hfu. pose proof Hb as [(Hz & _) Hn _ _].
  assert (Hlen : len (take (Z.to_nat length) (pb_tobytes b)) = length).
  { rewrite plain_tobytes, take_slice by done. destruct (Z.eq_dec length 0) as [->|Hne]; [by rewrite slice_0|].
    pose proof (plain_window b Hb ltac:(lia)). apply slice_length; lia. }
  destruct (JavaFile.file_write_any fuel h i d (take (Z.to_nat length) (pb_tobytes b)) position n Hf Hp)
    as (n' & E & Hfr & Hfa & _); [lia|unfold len in Hlen; lia|].
  exists n'. split; [|done]. unfold py_write, write_pointer. rewrite Hn. cbn [negb Z.eqb Pos.eqb].
  rewrite (proj2 (Z.ltb_ge _ _)), Z.min_r, load_plain by (done || lia). rewrite Hlen in E. unfold bind. by rewrite E.
Qed.

(** One call, and all of them. *)
Lemma pycall_exact h i d c n :
  file_at h i d n -> interrupts (n_kernel n) = 0%nat -> pycall_fits fuel c d ->
  exists n', pycall_run fuel h c n = Done (snd (pyarray_step c d)) n' /\ framed n n' /\
    file_at h i (fst (pyarray_step c d)) n'.
Proof.
  intros Hf Hi Hc. destruct c as [position length|b position|b position length|size|]; cbn [pycall_run pyarray_step pycall_fits] in *.
  - destruct Hc as (Hp & Hl & Ha & Hfu). destruct (py_read1_step h i d position length n) as (n' & E & Hn); [done..|].
    exists n'. split; [|done]. unfold bind. by rewrite E.
  - destruct Hc as (Hb & Hp & Hfu). destruct (pb_readonly b) eqn:Hr.
    { exists n. split; [unfold py_readinto1; by rewrite Hr|]. split; [apply framed_refl|done]. }
    destruct (py_readinto1_step h i d b position n) as (n' & E & Hn); [done..|]. exists n'. split; [|done]. unfold bind. by rewrite E.
  - destruct Hc as (Hb & Hp & Hl & Hm & Hfu). destruct (Z.ltb_spec (pb_size b) length) as [Hlt|Hge].
    { exists n. split; [|split; [apply framed_refl|done]]. unfold py_write. rewrite (pl_ndim b Hb). cbn [negb Z.eqb Pos.eqb].
      by rewrite (proj2 (Z.ltb_lt _ _)). }
    destruct (py_write_step h i d b position length n) as (n' & E & Hn); [done..|]. exists n'. split; [|done]. unfold bind. by rewrite E.
  - destruct (file_truncate h i d size n Hf Hc Hi) as (n' & E & Hn). exists n'. split; [|done].
    unfold py_truncate, bind. by rewrite E.
  - exists n. split; [|split; [apply framed_refl|done]]. unfold py_size, bind. by rewrite (file_size h i d n Hf).
Qed.

Lemma pycalls_exact h i d cs n :
  file_at h i d n -> interrupts (n_kernel n) = 0%nat -> pycalls_fit fuel cs d ->
  exists n', pycalls_run fuel h cs n = Done (snd (pyarray_run cs d)) n' /\ framed n n' /\
    file_at h i (fst (pyarray_run cs d)) n'.
Proof.
  revert d n. induction cs as [|c cs IH]; intros d n Hf Hi Hfit; cbn [pycalls_run pyarray_run].
  { exists n. split; [done|]. split; [apply framed_refl|done]. }
  destruct Hfit as [Hc Hcs]. destruct (pycall_exact h i d c n Hf Hi Hc) as (n1 & E1 & F1 & Hf1).
  destruct (pyarray_step c d) as [d1 a]. cbn [fst snd] in *.
  destruct (IH d1 n1 Hf1 (quiet_framed _ _ Hi F1) Hcs) as (n2 & E2 & F2 & Hf2).
  destruct (pyarray_run cs d1) as [d2 rest]. cbn [fst snd] in *.
  exists n2. split; [|split; [by apply (framed_trans n n1)|done]]. unfold bind. by rewrite E1, E2.
Qed.
End steps.

(** ** Lemmas: processes *)

(** A running process that can create the new object [b/k] in a bucket it knows. *)
Record can_make {W X K T} `{KernelFair K} (b k : str) (n : Node W X K T) : Prop := {
  cm_wf : node_wf n;
  cm_running : n_state n = Running;
  cm_valid : ok (isValid b k) = true;
  cm_bucket : cs_exists b (n_knownBuckets n) = true;
  cm_kernel : interrupts (n_kernel n) = 0%nat;
  cm_new : mfind (getPath b k) (n_fileHandles n) = None
}.

(** The memory of a [bytes] object. *)
Definition bytes_object (d : str) : PyBuffer := mkPyBuffer d 0 1 1 (len d) 1 true.

Lemma plain_bytes d : len d < 2 ^ 63 -> plain (bytes_object d).
Proof.
  intros Hl. constructor; try done. split; [apply len_nonneg|]. split; [done|]. split; [done|].
  intros i Hi. cbn [bytes_object pb_size pb_ptr pb_stride pb_itemsize pb_memory] in *. lia.
Qed.

Lemma tobytes_bytes d : len d < 2 ^ 63 -> pb_tobytes (bytes_object d) = d.
Proof. intros Hl. rewrite plain_tobytes by (by apply plain_bytes). apply slice_all. Qed.

Section processes.
Context {W X K T : Type} `{MDService W} `{S3Client X} `{KernelFair K} `{Transfers T} `{NumPyLaws}.
Context (fuel : nat).
Implicit Types n : Node W X K T.

(** Creating an object, with or without [overwrite], opens the file of its local
    path and empties it. *)
Lemma py_create_step b k overwrite n :
  can_make b k n ->
  let p := snd (getLocalPath (n_pathPrefix n) b k (n_names n)) in
  let i := default (fs_next (n_fs n)) (fs_names (n_fs n) !! p) in
  exists n', py_create b k overwrite n = Done (PyReturn (n_next n)) n' /\ file_at (n_next n) i [] n' /\
    interrupts (n_kernel n') = 0%nat /\ fs_names (n_fs n') = <[p := i]> (fs_names (n_fs n)).
Proof using Type.
  intros [Hw Hr Hv Hb Hk Hf]. pose proof (local_factory_quiet b k n Hk) as HF.
  destruct (getLocalPath (n_pathPrefix n) b k (n_names n)) as [names p]. cbn [snd].
  destruct HF as (kern & fs & Hk' & E & Hn & Hi & _). set (i := default _ _) in *.
  set (n1 := set_fileHandles (massign (getPath b k) (n_next n) (n_fileHandles n)) (created b k i fs names p kern n)).
  assert (Ec : createAsFileHandle b k (default true overwrite) n = Done (Value (n_next n)) n1).
  { unfold createAsFileHandle, running. rewrite Hr, Hv. cbn [negb].
    unfold bind at 1. rewrite createBucket_known by (done || apply (isValid_parts b k Hv)).
    change (ok OkStatus) with true. cbn [negb]. unfold bind at 1. rewrite E. cbn iota.
    destruct (default true overwrite); unfold bind, gets, modify, insertOrExists, cm_get;
      cbn [n_fileHandles created set_heap set_fs set_names]; rewrite Hf; cbn [fst snd]; [done|].
    rewrite bool_decide_false by (intros []; done). done. }
  eexists. split.
  { unfold py_create, raising_or, geds_create. unfold bind at 1. unfold bind at 1. rewrite Ec.
    unfold bind, modify, h_open, h_increaseOpenCount, update_handle, ret. unfold bind. reflexivity. }
  cbn [n_kernel n_fs set_heap set_filesCreated set_fileHandles created set_fs set_names n1].
  split; [|split; [done|exact Hn]].
  eexists _, _, false. cbn [n1 n_heap set_heap set_filesCreated set_fileHandles created set_fs set_names n_fs n_next].
  rewrite lookup_alter_eq, lookup_insert_eq. split; [reflexivity|]. split; [reflexivity|].
  unfold inode_data. rewrite Hi, lookup_insert_eq. split; [|done]. split; simpl; unfold INT64_MAX; lia || done.
Qed.

(** A process writes all of a [bytes] object to the file it created; the bytes are
    then those of its inode, and the names of the files are as before. *)
Lemma py_write_new h i d n :
  file_at h i [] n -> interrupts (n_kernel n) = 0%nat -> 0 < len d < INT64_MAX -> len d <= Z.of_nat fuel ->
  exists n', py_write fuel h (bytes_object d) 0 (len d) n = Done (PyReturn tt) n' /\ file_at h i d n' /\
    interrupts (n_kernel n') = 0%nat /\ fs_names (n_fs n') = fs_names (n_fs n).
Proof using Type.
  intros (x & f & s & Hx & Hk & Hwf & Hd) Hi Hl Hfu. unfold INT64_MAX in *.
  assert (Hb : plain (bytes_object d)) by (apply plain_bytes; lia).
  destruct (write_local fuel h n x f i s d 0 Hx Hk) as (f' & kern & E & Hwf' & Hdata & Hkern);
    [by rewrite Hd|lia|lia|unfold INT64_MAX; lia|unfold len in *; lia|].
  rewrite Hd, write_at_empty in Hdata. rewrite Hdata in E.
  destruct (file_step h i [] d f x s kern n Hx Hk Hkern f' Hwf' Hdata Hd) as (_ & Hfa & _).
  eexists. split; [|split; [exact Hfa|split; [cbn [n_kernel set_fs]; lia|done]]].
  unfold py_write, write_pointer. cbn [bytes_object pb_ndim pb_size negb Z.eqb Pos.eqb].
  rewrite Z.ltb_irrefl, Z.min_id. rewrite load_plain by (done || (cbn [bytes_object pb_size]; lia)).
  rewrite tobytes_bytes by lia. unfold len at 1. rewrite Nat2Z.id, firstn_all. unfold bind. by rewrite E.
Qed.

(** A file whose inode another process changed to bytes of the same length. *)
Lemma file_at_foreign h i d d' fs n :
  file_at h i d n -> inode_data i fs = d' -> len d' = len d -> file_at h i d' (set_fs fs (n_kernel n) n).
Proof using Type.
  intros (x & f & s & Hx & Hk & [F1 F2 F3] & Hd) Hd' Hl. exists x, f, s. split; [done|]. split; [done|].
  split; [|exact Hd']. constructor; cbn [lf_fd lf_size lf_data with_data] in *; congruence || lia.
Qed.
End processes.

(** ** Lemmas: settings *)

(** The call of [GEDSConfig::set] for an attribute. *)
Definition set_call_of (a : assignment) : set_call :=
  match a with
  | metadata_service_address v => SetString "metadata_service_address" v
  | listen_address v => SetString "listen_address" v
  | hostname v => SetString "hostname" (default [] v)
  | port v => SetUnsigned "port" v
  | port_http_server v => SetUnsigned "http_server_port" v
  | local_storage_path v => SetString "local_storage_path" v
  | cache_block_size v => SetUnsigned "cache_block_size" v
  | py_cache_objects_from_s3 v => SetUnsigned "cache_objects_from_s3" (if v then 1 else 0)
  | py_available_local_storage v => SetUnsigned "available_local_storage" v
  | py_available_local_memory v => SetUnsigned "available_local_memory" v
  | py_force_relocation_when_stopping v => SetUnsigned "force_relocation_when_stopping" (if v then 1 else 0)
  end.

(** What an attribute accepts and the setters do not. *)
Definition beyond_setters (a : assignment) : Prop :=
  match a with
  | metadata_service_address _ => True
  | port v | port_http_server v => v = 0 \/ INT16_MAX < v
  | cache_block_size v | py_available_local_storage v | py_available_local_memory v => v = 0
  | py_cache_objects_from_s3 v | py_force_relocation_when_stopping v => v = false
  | _ => False
  end.

(** ** Properties *)

(** C12: a Python program sees a local file as an array of bytes. Every sequence of
    [read1], [readinto1], [write], [truncate] and [size] with buffers of bytes
    gives the answers of the array: reads return or store the requested range as
    far as the file goes, exactly in the window of the buffer, a buffer that is
    read-only or shorter than announced is refused and nothing changes, and no
    call accesses memory outside the object that exports the buffer. *)
Theorem python_file_exact (W X K T : Type) `{MDStub W} `{S3Client X} `{KernelFair K} `{Transfers T} `{NumPyLaws}
    fuel h i d calls (n : Node W X K T) :
  file_at h i d n -> interrupts (n_kernel n) = 0%nat -> pycalls_fit fuel calls d ->
  exists n', pycalls_run fuel h calls n = Done (snd (pyarray_run calls d)) n' /\
    file_at h i (fst (pyarray_run calls d)) n'.
Proof.
  intros Hf Hi Hfit. destruct (pycalls_exact fuel h i d calls n Hf Hi Hfit) as (n' & E & _ & Hf'). by exists n'.
Qed.

(** C13: strides and item sizes are ignored. For every buffer with one dimension, a
    write takes its bytes from the pointer on, one after the other and as many as
    there are items asked for, and a read stores them there: for a view with a
    step these are not the bytes of its items, and when they are not in the
    memory of the object, as for a reversed view, memory outside it is accessed. *)
Theorem python_view_accesses (W X K T : Type) `{MDStub W} `{S3Client X} `{KernelFair K} `{Transfers T} `{NumPyLaws}
    fuel h i d b position length (n : Node W X K T) :
  file_at h i d n -> interrupts (n_kernel n) = 0%nat -> pb_valid b -> pb_ndim b = 1 -> pb_readonly b = false ->
  0 < length <= pb_size b -> 0 <= position -> position + length < INT64_MAX ->
  len d + length <= Z.of_nat fuel ->
  (if pb_ptr b + length <=? len (pb_memory b)
   then exists n', py_write fuel h b position length n = Done (PyReturn tt) n' /\
          file_at h i (write_at position (slice (pb_ptr b) length (pb_memory b)) d) n'
   else py_write fuel h b position length n = Crash) /\
  let bytes := slice position (pb_size b) d in
  (if (len bytes =? 0) || (pb_ptr b + len bytes <=? len (pb_memory b))
   then exists n', py_readinto1 fuel h b position n = Done (filled bytes b, PyReturn (len bytes)) n' /\ file_at h i d n'
   else py_readinto1 fuel h b position n = Crash).
Proof.
  intros Hf Hi (Hz & His & _ & Hv) Hn Hro Hl Hp Hm Hfu. destruct (Hv 0 ltac:(lia)) as [Hptr _]. rewrite Z.mul_0_l, Z.add_0_r in Hptr.
  split.
  - unfold py_write, write_pointer, load. rewrite Hn. cbn [negb Z.eqb Pos.eqb].
    rewrite (proj2 (Z.ltb_ge _ _)), Z.min_r, (proj2 (Z.eqb_neq length 0)), (proj2 (Z.leb_le 0 (pb_ptr b))) by lia. cbn [andb].
    destruct (Z.leb_spec (pb_ptr b + length) (len (pb_memory b))) as [Hin|Hout].
    + assert (Hlen : len (slice (pb_ptr b) length (pb_memory b)) = length) by (apply slice_length; lia).
      destruct (file_write fuel h i d (slice (pb_ptr b) length (pb_memory b)) position n Hf Hp) as (n' & E & _ & Hfa & _);
        [lia|lia|pose proof (len_nonneg d); unfold len in *; lia|].
      exists n'. split; [|exact Hfa]. rewrite Hlen in E. unfold bind. by rewrite E.
    + destruct Hf as (x & f & s & Hx & Hk & _). unfold bind, h_isWriteable. unfold bind.
      rewrite (resolve_local h n x f i s) by done. cbn [snd]. by rewrite Hk.
  - destruct (file_read fuel h i d position (pb_size b) n Hf ltac:(lia) Hz) as (n' & E & _ & Hfa & _);
      [pose proof (len_nonneg d); unfold len in *; lia|].
    intros bytes. unfold py_readinto1. rewrite Hro, Hn. cbn [negb Z.eqb Pos.eqb]. unfold bind. rewrite E. fold bytes.
    unfold store, load. rewrite (proj2 (Z.leb_le 0 (pb_ptr b))) by lia. cbn [andb]. rewrite <- (len_slice position (pb_size b) d) by lia.
    fold bytes. destruct bytes as [|c rest]; [exists n'; by rewrite filled_nil|].
    rewrite (proj2 (Z.eqb_neq (len (c :: rest)) 0)) by (unfold len; simpl; lia). cbn [orb].
    destruct (Z.leb_spec (pb_ptr b + len (c :: rest)) (len (pb_memory b))); [|done]. by exists n'.
Qed.

(** C14: Python processes of a machine share files. The binding calls the constructor,
    not the factory, so that the template of the storage path is used as it is:
    with the same settings, the default ones too, the first object of one process
    and the first object of the same bucket of another process have the same
    file. When the first has created and written an object and the second creates
    and writes another one of the same length, reading the first object gives the
    bytes of the second. *)
Theorem python_processes_share (W X K T : Type) `{MDService W} `{S3Client X} `{KernelFair K} `{Transfers T} `{NumPyLaws}
    fuel cfg (wA wB : World W X K T) nA0 nB0 nA b kA kB dA dB :
  py_GEDS cfg wA = Ret nA0 -> py_GEDS cfg wB = Ret nB0 ->
  n_pathPrefix nA = n_pathPrefix nA0 -> n_names nA = n_names nA0 -> can_make b kA nA ->
  0 < len dA < INT64_MAX -> len dB = len dA -> len dA <= Z.of_nat fuel -> is_Some (np_empty (len dA)) ->
  exists nA1 nA2 nA3, py_create b kA None nA = Done (PyReturn (n_next nA)) nA1 /\
    py_write fuel (n_next nA) (bytes_object dA) 0 (len dA) nA1 = Done (PyReturn tt) nA2 /\
    py_read1 fuel (n_next nA) 0 (len dA) nA2 = Done (PyReturn dA) nA3 /\
    forall nB : Node W X K T, n_pathPrefix nB = n_pathPrefix nB0 -> n_names nB = n_names nB0 -> can_make b kB nB -> n_fs nB = n_fs nA2 ->
    exists nB1 nB2 nA4, py_create b kB None nB = Done (PyReturn (n_next nB)) nB1 /\
      py_write fuel (n_next nB) (bytes_object dB) 0 (len dB) nB1 = Done (PyReturn tt) nB2 /\
      py_read1 fuel (n_next nA) 0 (len dA) (set_fs (n_fs nB2) (n_kernel nA2) nA2) = Done (PyReturn dB) nA4.
Proof.
  intros EA EB HpA HnA HmA Hl HlB Hfu Hnp.
  assert (Hsame : n_pathPrefix nA0 = localStoragePath cfg /\ n_pathPrefix nB0 = localStoragePath cfg /\
                  n_names nA0 = newFileNames /\ n_names nB0 = newFileNames).
  { unfold py_GEDS, new_GEDS in EA, EB. destruct (create_directories _ _ (n_kernel (new_members cfg wA))) as [[? ?] []]; [done|].
    destruct (create_directories _ _ (n_kernel (new_members cfg wB))) as [[? ?] []]; [done|]. injection EA as <-. by injection EB as <-. }
  destruct Hsame as (PA & PB & NA & NB). rewrite PA in HpA. rewrite NA in HnA.
  set (p := localStoragePath cfg ++ "/" ++ b ++ "/" ++ to_string 0).
  assert (Hpath : forall k, snd (getLocalPath (localStoragePath cfg) b k newFileNames) = p) by done.
  destruct (py_create_step b kA None nA HmA) as (nA1 & E1 & F1 & K1 & N1). rewrite HpA, HnA, Hpath in *.
  destruct (py_write_new fuel (n_next nA) _ dA nA1 F1 K1 Hl Hfu) as (nA2 & E2 & F2 & K2 & N2). rewrite N1 in N2.
  assert (Hread : forall d (n : Node W X K T), file_at (n_next nA) (default (fs_next (n_fs nA)) (fs_names (n_fs nA) !! p)) d n ->
            interrupts (n_kernel n) = 0%nat -> len d = len dA ->
            exists n', py_read1 fuel (n_next nA) 0 (len dA) n = Done (PyReturn d) n').
  { intros d n Hf Hk Hd. destruct (py_read1_step fuel (n_next nA) _ d 0 (len dA) n Hf) as (n' & E & _); try done; try lia.
    exists n'. rewrite <- Hd in E |- *. rewrite slice_all in E. exact E. }
  destruct (Hread dA nA2 F2 K2 eq_refl) as (nA3 & E3). exists nA1, nA2, nA3. split; [done|]. split; [done|]. split; [done|].
  intros nB HpB HnB HmB Hfs. rewrite PB in HpB. rewrite NB in HnB.
  destruct (py_create_step b kB None nB HmB) as (nB1 & G1 & H1' & L1 & _).
  rewrite HpB, HnB, Hpath, Hfs, N2, lookup_insert_eq in *. cbn [default] in *.
  destruct (py_write_new fuel (n_next nB) _ dB nB1 H1' L1) as (nB2 & G2 & (x & f & s & _ & _ & _ & Hdata) & _); [lia|lia|].
  destruct (Hread dB (set_fs (n_fs nB2) (n_kernel nA2) nA2)) as (nA4 & E4); [by apply (file_at_foreign _ _ dA)|done|done|].
  by exists nB1, nB2, nA4.
Qed.

(** Asking for the [metadata_bytes] of an object without metadata is undefined. *)
Theorem python_metadata_undefined (W X K T : Type) `{MDStub W} `{S3Client X} `{Kernel K} `{Transfers T} h x (n : Node W X K T) :
  n_heap n !! h = Some x -> h_metadata x = None -> match h_kind x with KReloc _ => False | _ => True end ->
  py_metadata_bytes h n = Crash /\ py_metadata h n = Done None n.
Proof.
  intros Hx Hm Hk. unfold py_metadata_bytes, py_metadata, h_metadata_of, resolve, the_handle, bind. rewrite Hx.
  destruct (h_kind x); done || (unfold ret; cbn [snd]; by rewrite Hm).
Qed.

(** An attribute does what the setter of its name does, except for the values that
    only the attribute accepts: the setters refuse these and change nothing. *)
Theorem attributes_and_setters a c :
  assignment_typed a -> (forall v, a = hostname (Some v) -> v <> []) ->
  let '(c', st) := GEDSConfig.call (set_call_of a) c in
  (ok st = true /\ c' = assign a c /\ ~ beyond_setters a) \/ (ok st = false /\ c' = c /\ beyond_setters a).
Proof.
  intros Ht Hh. assert (Hbad : forall x y, ok (out_of_range_for x y) = false)
    by (intros; unfold out_of_range_for, InvalidArgumentError; by rewrite ok_error).
  assert (Hmiss : forall x, ok (key_not_found x) = false) by (intros; unfold key_not_found, NotFoundError; by rewrite ok_error).
  destruct a as [v|v|[v|]|v|v|v|v|[]|v|v|[]]; cbn [set_call_of GEDSConfig.call assign beyond_setters assignment_typed default] in *;
    unfold set_string, set_unsigned, key_is; repeat rewrite (bool_decide_eq_false_2 (_ = _)) by discriminate;
    rewrite ?bool_decide_eq_true_2 by reflexivity; cbn [andb].
  all: try (left; split; [reflexivity|]; split; [reflexivity|]; intuition congruence).
  - right. by rewrite Hmiss.
  - left. rewrite bool_decide_eq_false_2 by (by apply Hh). split; [reflexivity|]. split; [reflexivity|]. intros [].
  - destruct (Z.eqb_spec v 0); [right; by auto|]. unfold u16, INT16_MAX in *.
    destruct (Z.ltb_spec 32767 v); [right; by auto|]. left. rewrite Z.mod_small by lia. split_and!; [done..|lia].
  - destruct (Z.eqb_spec v 0); [right; by auto|]. unfold u16, INT16_MAX in *.
    destruct (Z.ltb_spec 32767 v); [right; by auto|]. left. rewrite Z.mod_small by lia. split_and!; [done..|lia].
  - destruct (Z.eqb_spec v 0); [right|left]; by auto.
  - right. by auto.
  - destruct (Z.eqb_spec v 0); [right|left]; by auto.
  - destruct (Z.eqb_spec v 0); [right|left]; by auto.
  - right. by auto.
Qed.

(** ** Witnesses *)

#[local] Existing Instance the_stub.
#[local] Existing Instance the_service.

(** Arrays of up to a million bytes can be allocated. *)
#[local] Instance demo_numpy : NumPy := {|
  np_empty n := if (0 <=? n) && (n <=? 1000000) then Some (replicate (Z.to_nat n) "?"%char) else None;
  np_resize n a := take (Z.to_nat n) a
|}.

#[local] Instance demo_numpy_laws : NumPyLaws.
Proof.
  constructor.
  - intros n a. cbn [np_empty demo_numpy]. destruct (Z.leb_spec 0 n); [|done]. destruct (n <=? 1000000); [|done].
    intros [= <-]. unfold len. rewrite length_replicate. lia.
  - done.
Qed.

Lemma full_file : file_at 0 0 "hello" full_node.
Proof. exact (JavaFile.jo_file _ _ _ _ _ _ JavaFile.demo_java_open). Qed.

(** Three bytes in the middle of a [bytearray] of six. *)
Definition demo_window : PyBuffer := mkPyBuffer "......" 1 1 1 3 1 false.

Lemma plain_window_demo : plain demo_window.
Proof. constructor; [|reflexivity..]. split_and!; [done..|]. intros i Hi. unfold len. simpl in *. lia. Qed.

Definition demo_pycalls : list pycall :=
  [PRead1 1 3; PReadinto1 demo_window 2; PWrite (bytes_object "abc") 4 2; PRead1 3 10;
   PWrite (bytes_object "abc") 0 4; PReadinto1 (bytes_object "abc") 0; PTruncate 3; PSize].

Lemma python_file_exact_witness :
  exists n', pycalls_run 30 0 demo_pycalls full_node =
      Done [ABytes (PyReturn ("ell" : str)); ABuffer (mkPyBuffer ".llo.." 1 1 1 3 1 false) (PyReturn 3);
            ADone (PyReturn tt); ABytes (PyReturn ("lab" : str)); ADone (PyRaise (StatusNotOk buffer_too_small));
            ABuffer (bytes_object "abc") (PyRaise BufferError); ADone (PyReturn tt); ASize 3] n' /\
    file_at 0 0 "hel" n'.
Proof.
  assert (Hfit : pycalls_fit 30 demo_pycalls "hello").
  { assert (Habc : plain (bytes_object "abc")) by (apply plain_bytes; reflexivity).
    cbn [pycalls_fit demo_pycalls pycall_fits]. split_and!; try exact plain_window_demo; try exact Habc; try exact I;
      try (eexists; reflexivity); vm_compute; congruence. }
  destruct (python_file_exact Server MemS3.world nat unit 30 0 0 "hello" demo_pycalls full_node full_file
              (cc_kernel _ _ _ _ _ full_can_create) Hfit) as (n' & E & Hf).
  exists n'. split; [exact E|exact Hf].
Defined.

(** A reversed view of four bytes, and every second byte of four. *)
Definition reversed_view : PyBuffer := mkPyBuffer "abcd" 3 1 1 4 (-1) false.
Definition stepped_view : PyBuffer := mkPyBuffer "a.b." 0 1 1 2 2 false.

Lemma python_view_accesses_witness :
  pb_tobytes reversed_view = ("dcba" : str) /\ py_write 30 0 reversed_view 0 4 full_node = Crash /\
  py_readinto1 30 0 reversed_view 0 full_node = Crash /\
  pb_tobytes stepped_view = ("ab" : str) /\
  exists n', py_write 30 0 stepped_view 0 2 full_node = Done (PyReturn tt) n' /\ file_at 0 0 "a.llo" n'.
Proof.
  split; [reflexivity|].
  destruct (python_view_accesses Server MemS3.world nat unit 30 0 0 "hello" reversed_view 0 4 full_node full_file
              (cc_kernel _ _ _ _ _ full_can_create) ltac:(split_and!; [done..|intros i Hi; unfold len; simpl in *; lia]) eq_refl eq_refl ltac:(cbn; lia) ltac:(lia)
              ltac:(vm_compute; congruence) ltac:(vm_compute; congruence)) as [H1 H2].
  split; [exact H1|]. split; [exact H2|]. split; [reflexivity|].
  exact (proj1 (python_view_accesses Server MemS3.world nat unit 30 0 0 "hello" stepped_view 0 2 full_node full_file
              (cc_kernel _ _ _ _ _ full_can_create) ltac:(split_and!; [done..|intros i Hi; unfold len; simpl in *; lia]) eq_refl eq_refl ltac:(cbn; lia) ltac:(lia)
              ltac:(vm_compute; congruence) ltac:(vm_compute; congruence))).
Defined.

(** Two processes with the default settings. *)
Definition demo_settings : GEDSConfig := py_GEDSConfig 8 "host:4381".

(** A process that was started and knows the bucket. *)
Definition make_ready (n : Node Server MemS3.world nat unit) : Node Server MemS3.world nat unit :=
  set_knownBuckets ["bkt" : str] (set_state Running n).

Lemma ready_can_make (k : str) (fs : FileSystem) (cfg : GEDSConfig) (w : World Server MemS3.world nat unit) :
  ok (isValid "bkt" k) = true -> can_make "bkt" k (make_ready (set_fs fs 0%nat (new_members cfg w))).
Proof.
  intros Hv. constructor; [|reflexivity|exact Hv|reflexivity|reflexivity|reflexivity].
  constructor; [done|constructor|]. intros h x Hx.
  change ((∅ : gmap nat Handle) !! h = Some x) in Hx. by rewrite lookup_empty in Hx.
Qed.

Lemma new_GEDS_members (cfg : GEDSConfig) (w : World Server MemS3.world nat unit) (n : Node Server MemS3.world nat unit) :
  py_GEDS cfg w = Ret n -> n_kernel n = 0%nat -> exists fs : FileSystem, n = set_fs fs 0%nat (new_members cfg w).
Proof.
  unfold py_GEDS, new_GEDS. destruct (create_directories _ _ _) as [[fs k] [e|]]; [done|]. intros [= <-] Hk.
  exists fs. by rewrite <- Hk.
Qed.

Lemma python_processes_share_witness :
  exists nA nA1 nA2 nB nB1 nB2 nA4 : Node Server MemS3.world nat unit,
    n_pathPrefix nA = "/tmp/GEDS_XXXXXX" /\ n_pathPrefix nB = "/tmp/GEDS_XXXXXX" /\
    py_create "bkt" "first" None nA = Done (PyReturn 0%nat) nA1 /\
    py_write 30 0 (bytes_object "hello") 0 5 nA1 = Done (PyReturn tt) nA2 /\ n_fs nB = n_fs nA2 /\
    py_create "bkt" "second" None nB = Done (PyReturn 0%nat) nB1 /\
    py_write 30 0 (bytes_object "world") 0 5 nB1 = Done (PyReturn tt) nB2 /\
    py_read1 30 0 0 5 (set_fs (n_fs nB2) (n_kernel nA2) nA2) = Done (PyReturn ("world" : str)) nA4.
Proof.
  set (w := demo_world ["/tmp" : str]).
  destruct (returns_with (py_GEDS demo_settings w) (fun n => (n_kernel n =? 0)%nat)) as (n0 & E0 & K0%Nat.eqb_eq);
    [vm_compute; reflexivity|].
  destruct (new_GEDS_members _ _ _ E0 K0) as [fs0 ->].
  destruct (python_processes_share Server MemS3.world nat unit 30 demo_settings w w _ _
              (make_ready (set_fs fs0 0%nat (new_members demo_settings w))) "bkt" "first" "second" "hello" "world" E0 E0
              eq_refl eq_refl (ready_can_make "first" fs0 demo_settings w eq_refl) ltac:(split; [reflexivity|vm_compute; reflexivity])
              eq_refl ltac:(vm_compute; congruence) ltac:(eexists; reflexivity))
    as (nA1 & nA2 & nA3 & E1 & E2 & _ & Hall).
  destruct (Hall (make_ready (set_fs (n_fs nA2) 0%nat (new_members demo_settings w))) eq_refl eq_refl
              (ready_can_make "second" (n_fs nA2) demo_settings w eq_refl) eq_refl) as (nB1 & nB2 & nA4 & G1 & G2 & G3).
  eexists _, nA1, nA2, _, nB1, nB2, nA4. split; [|split; [|split; [exact E1|split; [exact E2|split; [|split; [exact G1|split; [exact G2|exact G3]]]]]]];
    reflexivity.
Defined.
