(* ===== verification/Locks.v ===== *)
(** * Locks

    The adaptor through which the containers are locked
    (src/src/utility/RWConcurrentObjectAdaptor.h), the recursive one
    (RecursiveMutexObjectAdaptor.h), and what the locks are for: the operations of
    [ConcurrentMap], [ConcurrentSet] and [ConcurrentQueue] access by access, run by
    any number of threads. Other files take each of these operations as one atomic
    step; here that is proved of them. *)

From Stdlib Require Import ZArith Lia.
From stdpp Require Import base gmap sets list strings numbers relations.
From S2P Require Import Prelude StdMap Path ConcurrentMap ConcurrentQueue.

Open Scope list_scope.

(** ** Mutexes *)

(** A [std::shared_mutex] with the threads that own it. A thread that locks it
    waits until it can. *)
Record SharedMutex := mkSharedMutex { sm_writer : option nat; sm_readers : gset nat }.

Definition newSharedMutex : SharedMutex := mkSharedMutex None ∅.

(** [getReadLock] and [getWriteLock] by thread [t]; [None] when it has to wait. *)
Definition getReadLock (t : nat) (l : SharedMutex) : option SharedMutex :=
  match sm_writer l with
  | None => Some (mkSharedMutex None ({[t]} ∪ sm_readers l))
  | Some _ => None
  end.

Definition getWriteLock (t : nat) (l : SharedMutex) : option SharedMutex :=
  match sm_writer l with
  | None => if decide (sm_readers l = ∅) then Some (mkSharedMutex (Some t) ∅) else None
  | Some _ => None
  end.

(** The destructors of the two guards. *)
Definition unlock_shared (t : nat) (l : SharedMutex) : SharedMutex := mkSharedMutex (sm_writer l) (sm_readers l ∖ {[t]}).
Definition unlock (l : SharedMutex) : SharedMutex := mkSharedMutex None (sm_readers l).

(** A [std::recursive_mutex]: its owner and how often it is locked. *)
Definition RecursiveMutex : Type := option (nat * nat).

Definition rec_lock (t : nat) (l : RecursiveMutex) : option RecursiveMutex :=
  match l with
  | None => Some (Some (t, 1%nat))
  | Some (u, n) => if decide (t = u) then Some (Some (t, S n)) else None
  end.

Definition rec_unlock (l : RecursiveMutex) : RecursiveMutex :=
  match l with
  | Some (u, S (S n)) => Some (u, S n)
  | _ => None
  end.

(** Locking it [n] times. *)
Fixpoint rec_locks (t n : nat) (l : RecursiveMutex) : option RecursiveMutex :=
  match n with O => Some l | S n => match rec_lock t l with Some l => rec_locks t n l | None => None end end.

(** ** Operations, access by access *)

(** What is left of an operation on an object: it returns, looks at the object or
    changes it. [PStuck] is the use of an iterator that points to nothing. *)
Inductive prog (S R : Type) :=
| PReturn (r : R)
| PLoad (k : S -> prog S R)
| PStore (f : S -> S) (p : prog S R)
| PStuck.
Arguments PReturn {S R} r.
Arguments PLoad {S R} k.
Arguments PStore {S R} f p.
Arguments PStuck {S R}.

(** The operation without interruption. *)
Fixpoint run {S R} (p : prog S R) (s : S) : option (S * R) :=
  match p with
  | PReturn r => Some (s, r)
  | PLoad k => run (k s) s
  | PStore f p => run p (f s)
  | PStuck => None
  end.

Fixpoint loads_only {S R} (p : prog S R) : Prop :=
  match p with
  | PReturn _ => True
  | PLoad k => forall s, loads_only (k s)
  | PStore _ _ => False
  | PStuck => True
  end.

(** A class whose operations hold the lock of the adaptor from their first to
    their last access: which of the two locks, the accesses, and what the operation
    is without interruption. *)
Class Guarded (S O R : Type) := {
  writes : O -> bool;
  body : O -> prog S R;
  atomically : O -> S -> S * R;
  body_run o s : run (body o) s = Some (atomically o s);
  body_loads o : writes o = false -> loads_only (body o)
}.

(** ** Threads *)

Section threads.
Context {S O R : Type} `{Guarded S O R}.

(** Where a thread is: between calls, waiting for the lock, holding it, returning. *)
Inductive where_in :=
| Idle
| Locking (o : O)
| Inside (o : O) (p : prog S R)
| Returning (r : R).

Record Conf := mkConf { c_object : S; c_lock : SharedMutex; c_threads : list where_in }.

(** What can be seen from outside. *)
Inductive visible := Call (t : nat) (o : O) | Result (t : nat) (r : R).

Definition lock_for (t : nat) (o : O) (l : SharedMutex) : option SharedMutex :=
  if writes o then getWriteLock t l else getReadLock t l.
Definition unlock_for (t : nat) (o : O) (l : SharedMutex) : SharedMutex :=
  if writes o then unlock l else unlock_shared t l.

Inductive lstep : Conf -> option visible -> Conf -> Prop :=
| l_call t o s l ts : ts !! t = Some Idle ->
    lstep (mkConf s l ts) (Some (Call t o)) (mkConf s l (<[t := Locking o]> ts))
| l_lock t o s l l' ts : ts !! t = Some (Locking o) -> lock_for t o l = Some l' ->
    lstep (mkConf s l ts) None (mkConf s l' (<[t := Inside o (body o)]> ts))
| l_load t o k s l ts : ts !! t = Some (Inside o (PLoad k)) ->
    lstep (mkConf s l ts) None (mkConf s l (<[t := Inside o (k s)]> ts))
| l_store t o f p s l ts : ts !! t = Some (Inside o (PStore f p)) ->
    lstep (mkConf s l ts) None (mkConf (f s) l (<[t := Inside o p]> ts))
| l_unlock t o r s l ts : ts !! t = Some (Inside o (PReturn r)) ->
    lstep (mkConf s l ts) None (mkConf s (unlock_for t o l) (<[t := Returning r]> ts))
| l_return t r s l ts : ts !! t = Some (Returning r) ->
    lstep (mkConf s l ts) (Some (Result t r)) (mkConf s l (<[t := Idle]> ts)).

Definition start_conf (s : S) (n : nat) : Conf := mkConf s newSharedMutex (replicate n Idle).

(** The same threads when an operation is one step between its call and its
    return; [a_log] is the order of these steps. *)
Inductive where_at := AIdle | ACalled (o : O) | ADone (r : R).

Record Atomic := mkAtomic { a_object : S; a_threads : list where_at; a_log : list (O * R) }.

Inductive astep : Atomic -> option visible -> Atomic -> Prop :=
| a_call t o s ts log : ts !! t = Some AIdle ->
    astep (mkAtomic s ts log) (Some (Call t o)) (mkAtomic s (<[t := ACalled o]> ts) log)
| a_exec t o s ts log : ts !! t = Some (ACalled o) ->
    astep (mkAtomic s ts log) None
      (mkAtomic (fst (atomically o s)) (<[t := ADone (snd (atomically o s))]> ts) (log ++ [(o, snd (atomically o s))]))
| a_return t r s ts log : ts !! t = Some (ADone r) ->
    astep (mkAtomic s ts log) (Some (Result t r)) (mkAtomic s (<[t := AIdle]> ts) log).

Definition start_atomic (s : S) (n : nat) : Atomic := mkAtomic s (replicate n AIdle) [].

(** Executions with the events that can be seen. *)
Inductive trace {C : Type} (step : C -> option visible -> C -> Prop) : C -> list visible -> C -> Prop :=
| tr_nil c : trace step c [] c
| tr_event c1 c2 c3 e es : step c1 (Some e) c2 -> trace step c2 es c3 -> trace step c1 (e :: es) c3
| tr_hidden c1 c2 c3 es : step c1 None c2 -> trace step c2 es c3 -> trace step c1 es c3.

(** The operations one after the other. *)
Fixpoint in_order (os : list O) (s : S) : S * list R :=
  match os with
  | [] => (s, [])
  | o :: os => let '(s, r) := atomically o s in let '(s, rs) := in_order os s in (s, r :: rs)
  end.

(** ** Lemmas: threads *)

(** How far a thread is, and what it would be without interruption. *)
Definition matches (s a : S) (w : where_in) (v : where_at) : Prop :=
  match w, v with
  | Idle, AIdle => True
  | Locking o, ACalled o' => o = o'
  | Inside o p, ACalled o' => o = o' /\ run p s = Some (atomically o a) /\ (writes o = false -> loads_only p)
  | Returning r, ADone r' => r = r'
  | _, _ => False
  end.

Definition inside (b : bool) (w : where_in) : Prop :=
  match w with Inside o _ => writes o = b | _ => False end.

Record simulates (c : Conf) (a : Atomic) : Prop := {
  si_threads t : match c_threads c !! t, a_threads a !! t with
                 | Some w, Some v => matches (c_object c) (a_object a) w v
                 | None, None => True
                 | _, _ => False
                 end;
  si_writer t : (exists w, c_threads c !! t = Some w /\ inside true w) <-> sm_writer (c_lock c) = Some t;
  si_readers t : (exists w, c_threads c !! t = Some w /\ inside false w) <-> t ∈ sm_readers (c_lock c);
  si_excl : sm_writer (c_lock c) <> None -> sm_readers (c_lock c) = ∅;
  si_object : sm_writer (c_lock c) = None -> a_object a = c_object c
}.

Lemma inside_insert (ts : list where_in) t w0 w b u :
  ts !! t = Some w0 ->
  (exists w', <[t := w]> ts !! u = Some w' /\ inside b w') <->
  (if decide (u = t) then inside b w else exists w', ts !! u = Some w' /\ inside b w').
Proof using Type.
  intros Ht. case_decide as Hu.
  - subst. rewrite list_lookup_insert_eq by (by eapply lookup_lt_Some). naive_solver.
  - by rewrite list_lookup_insert_ne by done.
Qed.

(** The lock's owners when a thread stays in or out of the lock. *)
Lemma inside_same (ts : list where_in) t w0 w b u :
  ts !! t = Some w0 -> (inside b w <-> inside b w0) ->
  (exists w', <[t := w]> ts !! u = Some w' /\ inside b w') <-> (exists w', ts !! u = Some w' /\ inside b w').
Proof using Type.
  intros Ht Hw. rewrite (inside_insert ts t w0) by done. case_decide; [subst|done].
  rewrite Hw. naive_solver.
Qed.

Lemma inside_mode b o p : inside b (Inside o p) <-> writes o = b.
Proof using Type. done. Qed.

Lemma matches_outside s s' a a' w v :
  (forall b, ~ inside b w) -> matches s a w v -> matches s' a' w v.
Proof using Type. destruct w as [|o|o p|r]; try done. intros Hi. by destruct (Hi (writes o)). Qed.

Lemma threads_insert {ts : list where_in} {vs : list where_at} {t w0 v0} (P Q : where_in -> where_at -> Prop) w v :
  ts !! t = Some w0 -> vs !! t = Some v0 -> Q w v ->
  (forall u w' v', u <> t -> ts !! u = Some w' -> vs !! u = Some v' -> P w' v' -> Q w' v') ->
  (forall u, match ts !! u, vs !! u with Some w, Some v => P w v | None, None => True | _, _ => False end) ->
  forall u, match <[t := w]> ts !! u, <[t := v]> vs !! u with
            | Some w, Some v => Q w v | None, None => True | _, _ => False end.
Proof using Type.
  intros Ht Hv Hq Hpq Hall u. destruct (decide (u = t)) as [->|Hne].
  - by rewrite !list_lookup_insert_eq by (by eapply lookup_lt_Some).
  - rewrite !list_lookup_insert_ne by done. specialize (Hall u).
    destruct (ts !! u) eqn:E1, (vs !! u) eqn:E2; try done. by eapply Hpq.
Qed.

Section step.
Context (c : Conf) (a : Atomic) (Hsim : simulates c a).

(** What the atomic thread is. *)
Lemma sim_thread t w : c_threads c !! t = Some w -> exists v, a_threads a !! t = Some v /\ matches (c_object c) (a_object a) w v.
Proof using Hsim.
  intros Ht. pose proof (si_threads _ _ Hsim t) as Hm. rewrite Ht in Hm. destruct (a_threads a !! t); [by eexists|done].
Qed.

(** While a thread holds the write lock, no other one holds a lock. *)
Lemma sim_alone t u o p w :
  c_threads c !! t = Some (Inside o p) -> writes o = true -> u <> t -> c_threads c !! u = Some w -> forall b, ~ inside b w.
Proof using Hsim.
  intros Ht Ho Hne Hu b Hb. assert (Hw : sm_writer (c_lock c) = Some t) by (apply (si_writer _ _ Hsim); by eexists).
  destruct b.
  - assert (sm_writer (c_lock c) = Some u) by (apply (si_writer _ _ Hsim); by eexists). congruence.
  - assert (Hr : u ∈ sm_readers (c_lock c)) by (apply (si_readers _ _ Hsim); by eexists).
    rewrite (si_excl _ _ Hsim) in Hr by congruence. set_solver.
Qed.

(** While a thread holds the read lock, nobody is writing. *)
Lemma sim_reading t o p :
  c_threads c !! t = Some (Inside o p) -> writes o = false -> sm_writer (c_lock c) = None /\ a_object a = c_object c.
Proof using Hsim.
  intros Ht Ho. assert (Hr : t ∈ sm_readers (c_lock c)) by (apply (si_readers _ _ Hsim); by eexists).
  destruct (sm_writer (c_lock c)) eqn:E; [|split; [done|by apply (si_object _ _ Hsim)]].
  rewrite (si_excl _ _ Hsim) in Hr by congruence. set_solver.
Qed.

(** A step that only moves a thread which stays in or out of the lock. *)
Lemma sim_move t w0 v0 w v :
  c_threads c !! t = Some w0 -> a_threads a !! t = Some v0 ->
  (forall b, inside b w <-> inside b w0) -> matches (c_object c) (a_object a) w v ->
  simulates (mkConf (c_object c) (c_lock c) (<[t := w]> (c_threads c)))
            (mkAtomic (a_object a) (<[t := v]> (a_threads a)) (a_log a)).
Proof using Hsim.
  intros Ht Hv Hw Hm. destruct Hsim as [H1 H2 H3 H4 H5].
  constructor; cbn [c_object c_lock c_threads a_object a_threads]; try done.
  - by apply (threads_insert (matches (c_object c) (a_object a)) _ w v Ht Hv Hm).
  - intros u. by rewrite (inside_same _ _ w0).
  - intros u. by rewrite (inside_same _ _ w0).
Qed.

Lemma sim_lock t o l' :
  c_threads c !! t = Some (Locking o) -> lock_for t o (c_lock c) = Some l' ->
  simulates (mkConf (c_object c) l' (<[t := Inside o (body o)]> (c_threads c))) a.
Proof using Hsim.
  intros Ht Hl. destruct (sim_thread t _ Ht) as (v & Hv & Hm). destruct v as [|o'|]; [done| |done]. cbn [matches] in Hm. subst o'.
  destruct Hsim as [H1 H2 H3 H4 H5]. unfold lock_for, getWriteLock, getReadLock in Hl.
  assert (Hw : sm_writer (c_lock c) = None) by (destruct (writes o), (sm_writer (c_lock c)); done).
  rewrite Hw in Hl. assert (Hbody : matches (c_object c) (a_object a) (Inside o (body o)) (ACalled o)).
  { cbn [matches]. split; [done|]. rewrite H5 by done. split; [apply body_run|apply body_loads]. }
  assert (Hin : forall b u, (exists w', <[t := Inside o (body o)]> (c_threads c) !! u = Some w' /\ inside b w') <->
            (if decide (u = t) then writes o = b else exists w', c_threads c !! u = Some w' /\ inside b w')).
  { intros b u. by rewrite (inside_insert _ _ (Locking o)). }
  assert (Hnone : forall u w', c_threads c !! u = Some w' -> ~ inside true w').
  { intros u w' Hu Hi. assert (sm_writer (c_lock c) = Some u) by (apply H2; by eexists). congruence. }
  constructor; cbn [c_object c_lock c_threads].
  - intros u. rewrite <- (list_insert_id (a_threads a) t (ACalled o)) by done.
    by apply (threads_insert (matches (c_object c) (a_object a)) _ _ _ Ht Hv Hbody).
  - intros u. rewrite Hin. destruct (writes o); [destruct (decide (sm_readers (c_lock c) = ∅)); [|done]|]; injection Hl as <-; cbn [sm_writer]; case_decide; naive_solver.
  - intros u. rewrite Hin. destruct (writes o).
    + destruct (decide (sm_readers (c_lock c) = ∅)) as [Hr|]; [|done]. injection Hl as <-. cbn [sm_readers]. specialize (H3 u). rewrite Hr in H3. case_decide; [set_solver|].
      by rewrite H3.
    + injection Hl as <-. cbn [sm_readers]. specialize (H3 u). case_decide; [set_solver|]. rewrite H3. set_solver.
  - destruct (writes o); [destruct (decide (sm_readers (c_lock c) = ∅)); [|done]|]; injection Hl as <-; cbn [sm_writer sm_readers]; done.
  - intros _. by apply H5.
Qed.

Lemma sim_store t o f p :
  c_threads c !! t = Some (Inside o (PStore f p)) ->
  simulates (mkConf (f (c_object c)) (c_lock c) (<[t := Inside o p]> (c_threads c))) a.
Proof using Hsim.
  intros Ht. destruct (sim_thread t _ Ht) as (v & Hv & Hm). destruct v as [|o'|]; [done| |done]. cbn [matches run] in Hm.
  destruct Hm as (<- & Hrun & Hlo). assert (Ho : writes o = true) by (destruct (writes o); [done|destruct (Hlo eq_refl)]).
  pose proof (fun u w => sim_alone t u o (PStore f p) w Ht Ho) as Hal. destruct Hsim as [H1 H2 H3 H4 H5].
  constructor; cbn [c_object c_lock c_threads]; try done.
  - intros u. rewrite <- (list_insert_id (a_threads a) t (ACalled o)) by done.
    apply (threads_insert (matches (c_object c) (a_object a)) _ _ _ Ht Hv); [|intros; eapply matches_outside; eauto|done].
    cbn [matches]. rewrite Ho. done.
  - intros u. by rewrite (inside_same _ _ (Inside o (PStore f p))).
  - intros u. by rewrite (inside_same _ _ (Inside o (PStore f p))).
  - intros Hn. assert (sm_writer (c_lock c) = Some t) by (apply H2; by eexists). congruence.
Qed.

Lemma sim_unlock t o r :
  c_threads c !! t = Some (Inside o (PReturn r)) ->
  a_threads a !! t = Some (ACalled o) /\ r = snd (atomically o (a_object a)) /\
  simulates (mkConf (c_object c) (unlock_for t o (c_lock c)) (<[t := Returning r]> (c_threads c)))
    (mkAtomic (fst (atomically o (a_object a))) (<[t := ADone r]> (a_threads a)) (a_log a ++ [(o, r)])).
Proof using Hsim.
  intros Ht. destruct (sim_thread t _ Ht) as (v & Hv & Hm). destruct v as [|o'|]; [done| |done]. cbn [matches run] in Hm.
  destruct Hm as (<- & Hrun & Hlo). injection Hrun as Hrun. split; [done|]. split; [by rewrite <- Hrun|].
  rewrite <- Hrun. cbn [fst].
  assert (Hot : forall u w' v', u <> t -> c_threads c !! u = Some w' -> a_threads a !! u = Some v' ->
                  matches (c_object c) (a_object a) w' v' -> matches (c_object c) (c_object c) w' v').
  { intros u w' v' Hne Hu Hv'. destruct (writes o) eqn:Ho.
    - apply matches_outside. by eapply sim_alone.
    - by destruct (sim_reading t o _ Ht Ho) as [_ ->]. }
  pose proof (sim_reading t o _ Ht) as Hrd. pose proof Hsim as [H1 H2 H3 H4 H5].
  assert (Hin : forall b u, (exists w', <[t := Returning r]> (c_threads c) !! u = Some w' /\ inside b w') <->
            (u <> t /\ exists w', c_threads c !! u = Some w' /\ inside b w')).
  { intros b u. rewrite (inside_insert _ _ (Inside o (PReturn r))) by done. case_decide; naive_solver. }
  assert (Hmode : writes o = true -> sm_writer (c_lock c) = Some t) by (intros Ho; apply H2; by eexists).
  constructor; cbn [c_object c_lock c_threads a_object a_threads]; unfold unlock_for.
  - by apply (threads_insert (matches (c_object c) (a_object a)) _ _ _ Ht Hv).
  - intros u. rewrite Hin, H2. destruct (writes o).
    + cbn [unlock sm_writer]. rewrite Hmode by done. naive_solver.
    + cbn [unlock_shared sm_writer]. destruct Hrd as [-> _]; [done|]. naive_solver.
  - intros u. rewrite Hin, H3. destruct (writes o).
    + cbn [unlock sm_readers]. rewrite H4 by (rewrite Hmode; done). set_solver.
    + cbn [unlock_shared sm_readers]. set_solver.
  - destruct (writes o); cbn [unlock unlock_shared sm_writer sm_readers]; [done|]. destruct Hrd as [-> _]; done.
  - done.
Qed.
End step.

Definition seen (e : option visible) : list visible := match e with Some e => [e] | None => [] end.

Lemma sim_step c a e c' :
  simulates c a -> lstep c e c' -> exists a', trace astep a (seen e) a' /\ simulates c' a'.
Proof using Type.
  intros Hsim Hs. destruct a as [s0 vs log]. 
  destruct Hs as [t o s l ts Ht|t o s l l' ts Ht Hl|t o k s l ts Ht|t o f p s l ts Ht|t o r s l ts Ht|t r s l ts Ht].
  - destruct (sim_thread _ _ Hsim t _ Ht) as (v & Hv & Hm). destruct v; [|done|done].
    eexists. split; [eapply tr_event; [by apply a_call|apply tr_nil]|]. by apply (sim_move _ _ Hsim t Idle AIdle (Locking o) (ACalled o)).
  - eexists. split; [apply tr_nil|]. by apply (sim_lock _ _ Hsim t o l').
  - destruct (sim_thread _ _ Hsim t _ Ht) as (v & Hv & Hm). destruct v as [|o'|]; [done| |done].
    eexists. split; [apply tr_nil|]. cbn [c_object a_threads] in *. rewrite <- (list_insert_id vs t (ACalled o')) by done.
    apply (sim_move _ _ Hsim t (Inside o (PLoad k)) (ACalled o') (Inside o (k s)) (ACalled o')); try done.
    cbn [matches run loads_only c_object a_object] in *. naive_solver.
  - eexists. split; [apply tr_nil|]. by apply (sim_store _ _ Hsim t o f p).
  - destruct (sim_unlock _ _ Hsim t o r Ht) as (Hv & Hr & Hsim'). cbn [a_object a_threads a_log] in *.
    eexists. split; [eapply tr_hidden; [by apply a_exec|apply tr_nil]|]. by rewrite <- Hr.
  - destruct (sim_thread _ _ Hsim t _ Ht) as (v & Hv & Hm). destruct v as [| |r']; [done|done|]. cbn [matches] in Hm. subst r'.
    eexists. split; [eapply tr_event; [by apply a_return|apply tr_nil]|]. by apply (sim_move _ _ Hsim t (Returning r) (ADone r) Idle AIdle).
Qed.

Lemma trace_app {C} (step : C -> option visible -> C -> Prop) c1 es1 c2 es2 c3 :
  trace step c1 es1 c2 -> trace step c2 es2 c3 -> trace step c1 (es1 ++ es2) c3.
Proof using Type. induction 1; cbn [app]; eauto using trace. Qed.

Lemma sim_trace c a es c' :
  simulates c a -> trace lstep c es c' -> exists a', trace astep a es a' /\ simulates c' a'.
Proof using Type.
  intros Hsim Ht. revert a Hsim. induction Ht as [c|c1 c2 c3 e es Hs _ IH|c1 c2 c3 es Hs _ IH]; intros a Hsim.
  - eexists. split; [apply tr_nil|done].
  - destruct (sim_step _ _ _ _ Hsim Hs) as (a1 & T1 & Hsim1). destruct (IH a1 Hsim1) as (a2 & T2 & Hsim2).
    exists a2. split; [|done]. exact (trace_app astep _ [e] _ es _ T1 T2).
  - destruct (sim_step _ _ _ _ Hsim Hs) as (a1 & T1 & Hsim1). destruct (IH a1 Hsim1) as (a2 & T2 & Hsim2).
    exists a2. split; [|done]. exact (trace_app astep _ [] _ es _ T1 T2).
Qed.

Lemma sim_start s n : simulates (start_conf s n) (start_atomic s n).
Proof using Type.
  assert (Hi : forall b t, ~ exists w, replicate n Idle !! t = Some w /\ inside b w).
  { intros b t (w & Hw & Hb). by apply lookup_replicate in Hw as [-> _]. }
  constructor; cbn [start_conf start_atomic c_threads a_threads c_lock newSharedMutex sm_writer sm_readers c_object a_object]; try done.
  - intros t. destruct (decide (t < n)%nat); [by rewrite !lookup_replicate_2|].
    rewrite !lookup_ge_None_2 by (rewrite length_replicate; lia). done.
  - intros t. split; [by intros ?%Hi|done].
  - intros t. split; [by intros ?%Hi|set_solver].
Qed.

(** The object is what the operations that have taken effect make of it. *)
Lemma in_order_app os1 os2 s :
  in_order (os1 ++ os2) s =
  (fst (in_order os2 (fst (in_order os1 s))), snd (in_order os1 s) ++ snd (in_order os2 (fst (in_order os1 s)))).
Proof using Type.
  revert s. induction os1 as [|o os1 IH]; intros s; cbn [app in_order fst snd]; [by destruct (in_order os2 s)|].
  destruct (atomically o s) as [s1 r]. rewrite IH. by destruct (in_order os1 s1).
Qed.

Lemma log_in_order s0 a es a' :
  in_order (map fst (a_log a)) s0 = (a_object a, map snd (a_log a)) -> trace astep a es a' ->
  in_order (map fst (a_log a')) s0 = (a_object a', map snd (a_log a')).
Proof using Type.
  intros H0 Ht. induction Ht as [c|c1 c2 c3 e es Hs _ IH|c1 c2 c3 es Hs _ IH]; [done| |]; apply IH; clear IH.
  - inversion Hs; subst; done.
  - inversion Hs; subst; cbn [a_log a_object] in *. rewrite !map_app, in_order_app, H0. cbn [map in_order fst snd].
    by destruct (atomically o s).
Qed.

(** Some thread can go on. *)
Lemma sim_progress c a t w :
  simulates c a -> c_threads c !! t = Some w -> w <> Idle -> exists e c', lstep c e c' /\ forall u o, e <> Some (Call u o).
Proof using Type.
  intros Hsim Ht Hw. assert (Hgo : forall u w, c_threads c !! u = Some w -> (exists b, inside b w) ->
    exists e c', lstep c e c' /\ forall u o, e <> Some (Call u o)).
  { intros u w' Hu [b Hb]. destruct w' as [|o|o p|r]; try done. destruct (sim_thread _ _ Hsim u _ Hu) as (v & _ & Hm).
    destruct v as [|o'|]; [done| |done]. cbn [matches] in Hm. destruct Hm as (_ & Hrun & _). destruct c as [s l ts].
    destruct p as [r|k|f p|]; [| | |done]; eexists None, _; (split; [|done]);
      [by apply l_unlock|by apply l_load|by apply l_store]. }
  destruct w as [|o|o p|r]; [done| |eapply Hgo; [done|by exists (writes o)]|].
  - destruct (lock_for t o (c_lock c)) as [l'|] eqn:El.
    { destruct c as [s l ts]. eexists None, _. split; [by eapply l_lock|done]. }
    unfold lock_for, getWriteLock, getReadLock in El. destruct (sm_writer (c_lock c)) as [u|] eqn:Ew.
    { apply (si_writer _ _ Hsim) in Ew as (w' & Hu & Hi). eapply Hgo; [done|by eexists]. }
    destruct (writes o); [|done]. destruct (decide (sm_readers (c_lock c) = ∅)) as [|Hr]; [done|]. apply set_choose_L in Hr as [u Hr].
    apply (si_readers _ _ Hsim) in Hr as (w' & Hu & Hi). eapply Hgo; [done|by eexists].
  - destruct c as [s l ts]. eexists (Some _), _. split; [by apply l_return|done].
Qed.

(** No two threads access the object at the same time unless both only read it. *)
Lemma sim_race c a t u o p o' p' :
  simulates c a -> c_threads c !! t = Some (Inside o p) -> c_threads c !! u = Some (Inside o' p') -> t <> u ->
  writes o = false /\ writes o' = false.
Proof using Type.
  intros Hsim Ht Hu Hne. split; apply not_true_iff_false; intros Hw.
  - by destruct (sim_alone _ _ Hsim t u o p _ Ht Hw (not_eq_sym Hne) Hu (writes o')).
  - by destruct (sim_alone _ _ Hsim u t o' p' _ Hu Hw Hne Ht (writes o)).
Qed.

Lemma sim_not_stuck c a t o : simulates c a -> c_threads c !! t <> Some (Inside o PStuck).
Proof using Type.
  intros Hsim Ht. destruct (sim_thread _ _ Hsim t _ Ht) as (v & _ & Hm). destruct v; try done. by destruct Hm as (_ & ? & _).
Qed.

(** What the lock gives the operations of a class: linearizability, no races, only
    valid iterators, and no deadlock. *)
Record locked (s : S) (n : nat) (es : list visible) (c : Conf) : Prop := {
  lk_linear : exists a, trace astep (start_atomic s n) es a /\
    in_order (map fst (a_log a)) s = (a_object a, map snd (a_log a)) /\
    (sm_writer (c_lock c) = None -> a_object a = c_object c);
  lk_race t u o p o' p' : c_threads c !! t = Some (Inside o p) -> c_threads c !! u = Some (Inside o' p') -> t <> u ->
    writes o = false /\ writes o' = false;
  lk_valid t o : c_threads c !! t <> Some (Inside o PStuck);
  lk_progress t w : c_threads c !! t = Some w -> w <> Idle ->
    exists e c', lstep c e c' /\ forall u o, e <> Some (Call u o)
}.

Lemma guarded_locked s n es c : trace lstep (start_conf s n) es c -> locked s n es c.
Proof using Type.
  intros Ht. destruct (sim_trace _ _ _ _ (sim_start s n) Ht) as (a & Ta & Hsim). constructor.
  - exists a. split; [done|]. split; [by apply (log_in_order s (start_atomic s n) es)|by apply (si_object _ _ Hsim)].
  - intros t u o p o' p'. by apply (sim_race c a).
  - intros t o. by apply (sim_not_stuck c a).
  - intros t w. by apply (sim_progress c a).
Qed.
End threads.

(** A thread can lock a recursive mutex as often as it likes, and the others only
    get it when it was unlocked as often. *)
Lemma rec_locks_count t u n :
  exists l, rec_locks t (S n) None = Some l /\
    (forall k, (k <= n)%nat -> t <> u -> rec_lock u (Nat.iter k rec_unlock l) = None) /\
    Nat.iter (S n) rec_unlock l = None.
Proof.
  assert (Hl : forall n m, rec_locks t n (Some (t, S m)) = Some (Some (t, (S m + n)%nat))).
  { intros j. induction j as [|j IH]; intros m; cbn [rec_locks rec_lock]; [by rewrite Nat.add_0_r|].
    rewrite decide_True by done. rewrite IH. do 3 f_equal. lia. }
  assert (Hu : forall k, (k <= n)%nat -> Nat.iter k rec_unlock (Some (t, S n)) = Some (t, (S n - k)%nat)).
  { intros k. induction k as [|k IH]; intros Hk; [done|]. rewrite Nat.iter_succ, IH by lia.
    replace (S n - k)%nat with (S (S (n - S k))) by lia. cbn [rec_unlock]. do 2 f_equal. lia. }
  exists (Some (t, S n)). split; [cbn [rec_locks rec_lock]; exact (Hl n 0%nat)|]. split.
  - intros k Hk Hne. rewrite Hu by done. cbn [rec_lock]. by rewrite decide_False.
  - rewrite Nat.iter_succ, Hu by lia. by replace (S n - n)%nat with 1%nat by lia.
Qed.


(** ** [ConcurrentMap] *)

Section cmap.
Context {K V P : Type} `{Probe K P} `{!EqDecision K}.
Notation cm_prog := (prog (smap K V) (@cm_res V)).

(** [it->second] for the iterator [find] returned, which is given by its key. *)
Definition entry_at (k : K) (ret : V -> cm_prog) : cm_prog :=
  PLoad (fun m => match mfind k m with Some v => ret v | None => PStuck end).

(** The loops over the entries; an iterator is a position. *)
Fixpoint values_loop (fuel i : nat) (acc : list V) : cm_prog :=
  match fuel with
  | O => PStuck
  | S fuel =>
      PLoad (fun m : list (K * V) => match m !! i with
                      | Some (_, v) => values_loop fuel (S i) (acc ++ [v])
                      | None => PReturn (RValues acc)
                      end)
  end.

Fixpoint remove_loop (selector : K -> V -> bool) (fuel i : nat) : cm_prog :=
  match fuel with
  | O => PStuck
  | S fuel =>
      PLoad (fun m : list (K * V) => match m !! i with
                      | Some (k, v) =>
                          if selector k v then PStore (erase_range i (S i)) (remove_loop selector fuel i)
                          else remove_loop selector fuel (S i)
                      | None => PReturn RNone
                      end)
  end.

Definition cm_body (o : cm_op K V P) : cm_prog :=
  match o with
  | Get k =>
      PLoad (fun m => if cm_exists k m then entry_at k (fun v => PReturn (ROption (Some v))) else PReturn (ROption None))
  | InsertOrExists k v =>
      PLoad (fun m => if cm_exists k m then entry_at k (fun w => PReturn (RValue w))
                      else PStore (massign k v) (entry_at k (fun w => PReturn (RValue w))))
  | InsertOrReplace k v => PStore (massign k v) (PReturn RNone)
  | Remove k =>
      PLoad (fun m => if cm_exists k m then PStore (merase k) (PReturn (RBool true)) else PReturn (RBool false))
  | Size => PLoad (fun m => PReturn (RSize (length m)))
  | Clear => PStore (fun _ => []) (PReturn RNone)
  | GetAndRemove k =>
      PLoad (fun m => if cm_exists k m then entry_at k (fun v => PStore (merase k) (PReturn (ROption (Some v))))
                      else PReturn (ROption None))
  | Exists k => PLoad (fun m => PReturn (RBool (cm_exists k m)))
  | RemoveRange p =>
      PLoad (fun m => let '(probeStart, probeEnd) := equal_range (key_lt_probe p) (probe_lt_key p) m in
                      PLoad (fun m => if (probeStart =? length m)%nat then PReturn RNone
                                      else PStore (erase_range probeStart probeEnd) (PReturn RNone)))
  | RemoveSelected selector => PLoad (fun m => remove_loop selector (S (length m)) 0)
  | RemoveIf k selector =>
      PLoad (fun m => if cm_exists k m then
                        entry_at k (fun v => if selector v then PStore (merase k) (PReturn (RBool true))
                                          else PReturn (RBool false))
                      else PReturn (RBool false))
  | Values => PLoad (fun m => values_loop (S (length m)) 0 [])
  end.

(** Which of the locks each operation takes. *)
Definition cm_writes (o : cm_op K V P) : bool :=
  match o with
  | Get _ | Size | Exists _ | Values => false
  | _ => true
  end.

Lemma values_loop_run (l r : list (K * V)) acc fuel :
  (length r < fuel)%nat -> run (values_loop fuel (length l) acc) (l ++ r) = Some (l ++ r, RValues (acc ++ map snd r)).
Proof using Type.
  revert l acc fuel. induction r as [|[k v] r IH]; intros l acc fuel Hf; destruct fuel as [|fuel]; try (simpl in Hf; lia).
  - cbn [values_loop run map]. rewrite !app_nil_r, lookup_ge_None_2 by done. done.
  - cbn [values_loop run map snd]. rewrite list_lookup_middle by done.
    specialize (IH (l ++ [(k, v)]) (acc ++ [v]) fuel). rewrite <- !app_assoc, length_app, Nat.add_1_r in IH.
    apply IH. simpl in Hf. lia.
Qed.

Lemma remove_loop_run selector (l r : list (K * V)) fuel :
  (length r < fuel)%nat ->
  run (remove_loop selector fuel (length l)) (l ++ r) = Some (l ++ cm_removeSelected selector r, RNone).
Proof using Type.
  revert l fuel. induction r as [|[k v] r IH]; intros l fuel Hf; destruct fuel as [|fuel]; try (simpl in Hf; lia).
  - cbn [remove_loop run cm_removeSelected]. rewrite app_nil_r, lookup_ge_None_2 by done. done.
  - cbn [remove_loop run cm_removeSelected]. rewrite list_lookup_middle by done. destruct (selector k v).
    + cbn [run]. unfold erase_range. rewrite take_app_length. replace (S (length l)) with (length l + 1)%nat by lia.
      rewrite drop_app_add. cbn [drop]. apply IH. simpl in Hf. lia.
    + specialize (IH (l ++ [(k, v)]) fuel). rewrite <- !app_assoc, length_app, Nat.add_1_r in IH.
      apply IH. simpl in Hf. lia.
Qed.

Lemma cm_body_run o m : run (cm_body o) m = Some (cm_exec o m).
Proof using Type.
  destruct o as [k|k v|k v|k| | |k|k|p|s|k s|]; cbn [cm_body cm_exec run];
    unfold cm_exists, cm_get, insertOrExists, cm_remove, getAndRemove, removeIf, removeRange; try done.
  - destruct (mfind k m) eqn:E; cbn [entry_at run]; by rewrite ?E.
  - destruct (mfind k m) eqn:E; cbn [entry_at run]; rewrite ?E; [done|]. by rewrite mfind_massign_eq.
  - by destruct (mfind k m).
  - destruct (mfind k m) eqn:E; cbn [entry_at run]; by rewrite ?E.
  - destruct (equal_range _ _ m). cbn [run]. by destruct (_ =? _)%nat.
  - exact (remove_loop_run s [] m (S (length m)) (Nat.lt_succ_diag_r _)).
  - destruct (mfind k m) eqn:E; cbn [entry_at run]; rewrite ?E; [|done]. by destruct (s v).
  - rewrite cm_forall_values. exact (values_loop_run [] m [] (S (length m)) (Nat.lt_succ_diag_r _)).
Qed.

Lemma values_loop_loads fuel i acc : loads_only (values_loop fuel i acc).
Proof using Type.
  revert i acc. induction fuel as [|fuel IH]; intros i acc; [done|]. intros m. destruct ((m : list (K * V)) !! i) as [[k v]|]; [apply IH|done].
Qed.

Lemma cm_body_loads o : cm_writes o = false -> loads_only (cm_body o).
Proof using Type.
  destruct o; try done; intros _; cbn [cm_body loads_only]; try done.
  - intros m. destruct (cm_exists k m); [|done]. intros m'. by destruct (mfind k m').
  - intros m. apply values_loop_loads.
Qed.

#[export] Instance cm_guarded : Guarded (smap K V) (cm_op K V P) (@cm_res V) := {|
  writes := cm_writes;
  body := cm_body;
  atomically := cm_exec;
  body_run := cm_body_run;
  body_loads := cm_body_loads
|}.
End cmap.

(** One after the other. *)
Lemma cm_run_in_order {K V P : Type} `{Probe K P} `{!EqDecision K} (os : list (cm_op K V P)) m :
  cm_run os m = in_order os m.
Proof.
  revert m. induction os as [|o os IH]; intros m; [done|]. cbn [cm_run in_order atomically cm_guarded].
  destruct (cm_exec o m) as [m' r]. by rewrite IH.
Qed.

(** ** [ConcurrentSet] *)

Section cset.
Context {K : Type} `{StrictTotal K}.

Inductive cs_op := CsExists (k : K) | CsInsert (k : K) | CsRemove (k : K).

Definition cs_body (o : cs_op) : prog (list K) (option bool) :=
  match o with
  | CsExists k => PLoad (fun s => PReturn (Some (cs_exists k s)))
  | CsInsert k => PStore (cs_insert k) (PReturn None)
  | CsRemove k => PStore (cs_remove k) (PReturn None)
  end.

#[export, refine] Instance cs_guarded : Guarded (list K) cs_op (option bool) := {|
  writes o := match o with CsExists _ => false | _ => true end;
  body := cs_body;
  atomically o s :=
    match o with
    | CsExists k => (s, Some (cs_exists k s))
    | CsInsert k => (cs_insert k s, None)
    | CsRemove k => (cs_remove k s, None)
    end
|}.
Proof. all: by intros []. Defined.
End cset.

(** ** [ConcurrentQueue] *)

Section queue.
Context {A : Type}.

Inductive q_op := QFront | QPop | QEmpty | QPush (x : A) | QEmplace (x : A).
Inductive q_res := QElement (x : option A) | QBool (b : bool) | QNone.

(** [_queue.front()] *)
Definition front (ret : A -> prog (list A) q_res) : prog (list A) q_res :=
  PLoad (fun q => match q with x :: _ => ret x | [] => PStuck end).

Definition q_body (o : q_op) : prog (list A) q_res :=
  match o with
  | QFront => PLoad (fun q => if q_empty q then PReturn (QElement None) else front (fun x => PReturn (QElement (Some x))))
  | QPop => PLoad (fun q => if q_empty q then PReturn (QElement None)
                            else front (fun x => PStore (fun q => tail q) (PReturn (QElement (Some x)))))
  | QEmpty => PLoad (fun q => PReturn (QBool (q_empty q)))
  | QPush x => PStore (q_push x) (PReturn QNone)
  | QEmplace x => PStore (q_emplace x) (PReturn QNone)
  end.

#[export, refine] Instance q_guarded : Guarded (list A) q_op q_res := {|
  writes o := match o with QFront | QEmpty => false | _ => true end;
  body := q_body;
  atomically o q :=
    match o with
    | QFront => (q, QElement (q_front q))
    | QPop => let '(q, x) := q_pop q in (q, QElement x)
    | QEmpty => (q, QBool (q_empty q))
    | QPush x => (q_push x q, QNone)
    | QEmplace x => (q_emplace x q, QNone)
    end
|}.
Proof.
  - by intros [] [].
  - intros []; try done. intros _ q. destruct (q_empty q); [done|]. by intros [].
Defined.
End queue.

(** ** Properties *)

(** C29: the operations of [ConcurrentMap] are atomic. Any number of threads call
    them, and each access to the map is a step of its own between which other
    threads run. Whatever calls and returns are seen can be seen when every
    operation happens in one step between its call and its return; these steps,
    one after the other, give the results and, when nobody holds the write lock,
    the map. Two threads are never in the map unless both only read it, no
    iterator that points to nothing is used, and while a call has not returned some
    thread can go on. *)
Theorem cmap_linearizable (K V P : Type) `{Probe K P} `{!EqDecision K} n es c :
  trace lstep (start_conf ([] : smap K V) n) es c ->
  (exists a, trace astep (start_atomic [] n) es a /\
     cm_run (map fst (a_log a)) [] = (a_object a, map snd (a_log a)) /\
     (sm_writer (c_lock c) = None -> a_object a = c_object c)) /\
  (forall t u (o o' : cm_op K V P) p p', c_threads c !! t = Some (Inside o p) -> c_threads c !! u = Some (Inside o' p') ->
     t <> u -> cm_writes o = false /\ cm_writes o' = false) /\
  (forall t o, c_threads c !! t <> Some (Inside o PStuck)) /\
  (forall t w, c_threads c !! t = Some w -> w <> Idle -> exists e c', lstep c e c' /\ forall u o, e <> Some (Call u o)).
Proof.
  intros Ht. apply guarded_locked in Ht as [(a & Ta & Hlog & Hobj) H2 H3 H4].
  split; [|split; [|split; [exact H3|exact H4]]].
  - exists a. split; [done|]. split; [|done]. etrans; [apply cm_run_in_order|exact Hlog].
  - intros t u o o' p p'. by apply H2.
Qed.

(** The same holds of the set and of the queue. *)
Theorem cset_queue_linearizable :
  (forall (K : Type) `{StrictTotal K} n es c, trace lstep (start_conf ([] : list K) n) es c -> locked [] n es c) /\
  (forall (A : Type) n es c, trace lstep (start_conf ([] : list A) n) es c -> locked (O := q_op) (R := q_res) [] n es c).
Proof. split; intros; by apply guarded_locked. Qed.

(** ** Witness *)

Definition demo_path : Path := mkPath "bkt/key".
Definition demo_op (x : nat) : cm_op Path nat PathPrefixProbe := InsertOrExists demo_path x.

(** Two threads insert under the same key; the second to call is the first to get
    the lock, and both get its value. *)
Definition demo_events : list (visible (O := cm_op Path nat PathPrefixProbe) (R := @cm_res nat)) :=
  [Call 0 (demo_op 1); Call 1 (demo_op 2); Result 0 (RValue 2%nat); Result 1 (RValue 2%nat)].

Lemma demo_trace :
  exists c, trace lstep (start_conf ([] : smap Path nat) 2) demo_events c /\
    c_object c = [(demo_path, 2%nat)] /\ sm_writer (c_lock c) = None.
Proof.
  eexists. split.
  - eapply tr_event; [by apply (l_call 0)|]. eapply tr_event; [by apply (l_call 1)|].
    eapply tr_hidden; [by eapply (l_lock 1)|]. eapply tr_hidden; [by eapply (l_load 1)|].
    eapply tr_hidden; [by eapply (l_store 1)|]. eapply tr_hidden; [by eapply (l_load 1)|].
    eapply tr_hidden; [by eapply (l_unlock 1)|]. eapply tr_hidden; [by eapply (l_lock 0)|].
    eapply tr_hidden; [by eapply (l_load 0)|]. eapply tr_hidden; [by eapply (l_load 0)|].
    eapply tr_hidden; [by eapply (l_unlock 0)|]. eapply tr_event; [by apply (l_return 0)|].
    eapply tr_event; [by apply (l_return 1)|]. apply tr_nil.
  - split; reflexivity.
Qed.

Lemma cmap_linearizable_witness :
  exists a, trace astep (start_atomic ([] : smap Path nat) 2) demo_events a /\ a_object a = [(demo_path, 2%nat)] /\
    cm_run (map fst (a_log a)) [] = ([(demo_path, 2%nat)], map snd (a_log a)).
Proof.
  destruct demo_trace as (c & Tc & Hc & Hw).
  destruct (cmap_linearizable Path nat PathPrefixProbe 2 demo_events c Tc) as [(a & Ta & Hlog & Hobj) _].
  pose proof (eq_trans (Hobj Hw) Hc) as Ho. exists a. split; [exact Ta|]. split; [exact Ho|].
  etrans; [exact Hlog|]. by rewrite Ho.
Defined.
