(* ===== verification/Utilities.v ===== *)
(** * Utilities

    Log lines and their lock (src/src/utility/Logging.h), the time stamps in them
    (FormatISO8601.h), and the name of the host (Platform.cpp). *)

From Stdlib Require Import Ascii ZArith Lia.
From stdpp Require Import base gmap sets list strings numbers relations.
From S2P Require Import Prelude Bytes Decimal Locks.
From S2P Require JavaFile.

Open Scope Z_scope.
Open Scope list_scope.

(** ** Time stamps *)

(** [struct tm], with the year and the month as they are written. *)
Record tm := mkTm { tm_year : Z; tm_mon : Z; tm_mday : Z; tm_hour : Z; tm_min : Z; tm_sec : Z }.

Definition leap (y : Z) : bool := ((y mod 4 =? 0) && negb (y mod 100 =? 0)) || (y mod 400 =? 0).
Definition year_days (y : Z) : Z := if leap y then 366 else 365.
Definition month_days (y : Z) : list Z := [31; if leap y then 29 else 28; 31; 30; 31; 30; 31; 31; 30; 31; 30; 31].

(** The year, and the day in it, that is [d] days after the first of [y]. *)
Fixpoint split_year (fuel : nat) (y d : Z) : Z * Z :=
  match fuel with
  | O => (y, d)
  | S fuel => if d <? year_days y then (y, d) else split_year fuel (y + 1) (d - year_days y)
  end.

Fixpoint split_month (ms : list Z) (m d : Z) : Z * Z :=
  match ms with
  | [] => (m, d)
  | n :: ms => if d <? n then (m, d) else split_month ms (m + 1) (d - n)
  end.

(** [std::gmtime] of a time from 1970 on. *)
Definition gmtime (t : Z) : tm :=
  let '(y, d) := split_year (S (Z.to_nat (t / 86400 / 365))) 1970 (t / 86400) in
  let '(m, d) := split_month (month_days y) 1 d in
  let s := t mod 86400 in
  mkTm y m (d + 1) (s / 3600) (s / 60 mod 60) (s mod 60).

Definition two_digits (n : Z) : str := if n <? 10 then "0"%char :: to_string n else to_string n.

(** [std::put_time] with %Y-%m-%dT%TZ. *)
Definition put_time (x : tm) : str :=
  to_string (tm_year x) ++ "-" ++ two_digits (tm_mon x) ++ "-" ++ two_digits (tm_mday x) ++ "T" ++
  two_digits (tm_hour x) ++ ":" ++ two_digits (tm_min x) ++ ":" ++ two_digits (tm_sec x) ++ "Z".

(** Times are nanoseconds of the system clock; [to_time_t] drops fractions. *)
Definition toISO8601String (time : Z) : str := put_time (gmtime (time `quot` 1000000000)).

(** ** Log lines *)

Inductive log_call :=
| LogLine (msg : list str)
| LogTimestamp (now : Z) (msg : list str).

(** What a call writes to its stream, one after the other. *)
Definition log_pieces (c : log_call) : list str :=
  match c with
  | LogLine msg => msg ++ ["010"%char :: []]
  | LogTimestamp now msg => toISO8601String now :: (" - " : str) :: msg ++ ["010"%char :: []]
  end.

Definition log_text (c : log_call) : str := concat (log_pieces c).

Definition log_body (c : log_call) : prog str unit :=
  fold_right (fun s p => PStore (fun out => out ++ s) p) (PReturn tt) (log_pieces c).

(** The macros, where they are used: [LOG_LINE] is the function, the file and the
    line. [LOG_DEBUG] is [NoLog] in a release build. *)
Record place := mkPlace { pl_function : str; pl_file : str; pl_line : Z }.

Definition LOG_LINE (p : place) : list str := [pl_function p; " (" : str; pl_file p; ": " : str; to_string (pl_line p); "): " : str].
Definition LOG_ERROR (p : place) (msg : list str) : log_call := LogLine ((("ERROR " : str) :: LOG_LINE p) ++ msg).
Definition LOG_INFO (p : place) (msg : list str) : log_call := LogLine ((("INFO " : str) :: LOG_LINE p) ++ msg).
Definition LOG_WARNING (p : place) (msg : list str) : log_call := LogLine ((("WARN  " : str) :: LOG_LINE p) ++ msg).
Definition LOG_DEBUG (ndebug : bool) (p : place) (msg : list str) : option log_call :=
  if ndebug then None else Some (LogLine ((("DEBUG " : str) :: LOG_LINE p) ++ msg)).

(** ** The name of the host *)

(** The size of the array: more than [HOST_NAME_MAX], which is 64. *)
Definition hostname_size : Z := Z.max 64 255 + 1.

(** [gethostname n] is what the system call of that name writes to an array of [n]
    bytes, and [None] when it fails. *)
Definition getHostName (gethostname : Z -> option str) : outcome str :=
  match gethostname hostname_size with
  | None => Throw (runtime_error "Unable to execute gethostname!")
  | Some written => Ret (JavaFile.c_str (written ++ repeat zero_byte (Z.to_nat (hostname_size - len written))))
  end.

(** ** Lemmas: the calendar *)

Fixpoint days_of_years (k : nat) (y : Z) : Z :=
  match k with O => 0 | S k => year_days y + days_of_years k (y + 1) end.

Definition sum (l : list Z) : Z := fold_right Z.add 0 l.

(** The seconds since 1970. *)
Definition timegm (x : tm) : Z :=
  (days_of_years (Z.to_nat (tm_year x - 1970)) 1970 +
   sum (take (Z.to_nat (tm_mon x - 1)) (month_days (tm_year x))) + (tm_mday x - 1)) * 86400 +
  tm_hour x * 3600 + tm_min x * 60 + tm_sec x.

(** Reading a time stamp. *)
Definition number_at (i n : nat) (s : str) : Z := parse_dec (take n (drop i s)).
Definition parse_time (s : str) : Z :=
  timegm (mkTm (number_at 0 4 s) (number_at 5 2 s) (number_at 8 2 s) (number_at 11 2 s) (number_at 14 2 s) (number_at 17 2 s)).

Lemma year_days_range y : 365 <= year_days y <= 366.
Proof. unfold year_days. destruct (leap y); lia. Qed.

Lemma split_year_spec fuel y d :
  0 <= d < 365 * Z.of_nat fuel ->
  exists k d', split_year fuel y d = (y + Z.of_nat k, d') /\ 0 <= d' < year_days (y + Z.of_nat k) /\ d = days_of_years k y + d'.
Proof.
  revert y d. induction fuel as [|fuel IH]; intros y d Hd; [lia|]. cbn [split_year].
  pose proof (year_days_range y). destruct (Z.ltb_spec d (year_days y)).
  - exists 0%nat, d. cbn [days_of_years]. rewrite Z.add_0_r. split_and!; done || lia.
  - destruct (IH (y + 1) (d - year_days y)) as (k & d' & E & Hd' & Hs); [lia|].
    exists (S k), d'. rewrite E. cbn [days_of_years]. replace (y + Z.of_nat (S k)) with (y + 1 + Z.of_nat k) by lia. split_and!; done || lia.
Qed.

Lemma split_month_spec ms m d :
  0 <= d < sum ms -> Forall (fun n => 0 <= n) ms ->
  exists k d', split_month ms m d = (m + Z.of_nat k, d') /\ (k < length ms)%nat /\ 0 <= d' < nth k ms 0 /\ d = sum (take k ms) + d'.
Proof.
  revert m d. induction ms as [|n ms IH]; intros m d Hd Hn; [simpl in Hd; lia|]. apply Forall_cons in Hn as [H0 Hn].
  cbn [split_month]. destruct (Z.ltb_spec d n).
  - exists 0%nat, d. rewrite Z.add_0_r. simpl. split_and!; done || lia.
  - destruct (IH (m + 1) (d - n)) as (k & d' & E & Hk & Hd' & Hs); [unfold sum in *; simpl in Hd; lia|done|].
    exists (S k), d'. rewrite E. unfold sum in *. cbn [length take nth fold_right].
    replace (m + Z.of_nat (S k)) with (m + 1 + Z.of_nat k) by lia. split_and!; lia || done.
Qed.

Lemma sum_months y : sum (month_days y) = year_days y.
Proof. unfold month_days, year_days. by destruct (leap y). Qed.

Lemma months_bounded y k : 0 <= nth k (month_days y) 0 <= 31.
Proof. unfold month_days. destruct (leap y); do 13 (destruct k as [|k]; [simpl; lia|]); destruct k; simpl; lia. Qed.

(** A broken-down time whose fields are in their ranges. *)
Record tm_valid (x : tm) : Prop := {
  tv_year : 1970 <= tm_year x;
  tv_mon : 1 <= tm_mon x <= 12;
  tv_mday : 1 <= tm_mday x <= nth (Z.to_nat (tm_mon x - 1)) (month_days (tm_year x)) 0;
  tv_hour : 0 <= tm_hour x < 24;
  tv_min : 0 <= tm_min x < 60;
  tv_sec : 0 <= tm_sec x < 60
}.

Lemma gmtime_spec t : 0 <= t -> tm_valid (gmtime t) /\ timegm (gmtime t) = t.
Proof.
  intros Ht. unfold gmtime. assert (0 <= t / 86400) by (apply Z.div_pos; lia).
  destruct (split_year_spec (S (Z.to_nat (t / 86400 / 365))) 1970 (t / 86400)) as (k & d & -> & Hd & Hs).
  { split; [done|]. rewrite Nat2Z.inj_succ, Z2Nat.id by (apply Z.div_pos; lia).
    pose proof (Z.div_mod (t / 86400) 365 ltac:(lia)). pose proof (Z.mod_pos_bound (t / 86400) 365 ltac:(lia)). lia. }
  set (y := 1970 + Z.of_nat k) in *.
  destruct (split_month_spec (month_days y) 1 d) as (j & d' & -> & Hj & Hd' & Hs').
  { by rewrite sum_months. }
  { unfold month_days. destruct (leap y); repeat constructor; lia. }
  pose proof (Z.mod_pos_bound t 86400 ltac:(lia)). pose proof (Z.div_mod t 86400 ltac:(lia)).
  set (s := t mod 86400) in *. change (length (month_days y)) with 12%nat in Hj.
  assert (Hsec : s = s / 3600 * 3600 + s / 60 mod 60 * 60 + s mod 60).
  { pose proof (Z.div_mod s 60 ltac:(lia)). pose proof (Z.div_mod (s / 60) 60 ltac:(lia)).
    rewrite Z.div_div in * by lia. change (60 * 60) with 3600 in *. lia. }
  split.
  - constructor; cbn [tm_year tm_mon tm_mday tm_hour tm_min tm_sec]; try lia.
    + replace (Z.to_nat (1 + Z.of_nat j - 1)) with j by lia. lia.
    + split; [apply Z.div_pos; lia|apply Z.div_lt_upper_bound; lia].
    + apply Z.mod_pos_bound. lia.
    + apply Z.mod_pos_bound. lia.
  - unfold timegm. cbn [tm_year tm_mon tm_mday tm_hour tm_min tm_sec].
    replace (Z.to_nat (y - 1970)) with k by lia. replace (Z.to_nat (1 + Z.of_nat j - 1)) with j by lia. lia.
Qed.

Lemma sum_take_nonneg k ms : Forall (fun n => 0 <= n) ms -> 0 <= sum (take k ms).
Proof.
  intros Hms. revert k. induction Hms as [|n ms Hn _ IH]; intros [|k]; try done. cbn [take sum fold_right].
  specialize (IH k). unfold sum in IH. lia.
Qed.

(** Years of four digits. *)
Lemma days_of_years_mono k j y : (k <= j)%nat -> days_of_years k y <= days_of_years j y.
Proof.
  revert k y. induction j as [|j IH]; intros k y Hk; [by replace k with 0%nat by lia|].
  destruct k as [|k]; cbn [days_of_years]; pose proof (year_days_range y).
  - pose proof (IH 0%nat (y + 1) ltac:(lia)). cbn [days_of_years] in *. lia.
  - pose proof (IH k (y + 1) ltac:(lia)). lia.
Qed.

Definition year_10000 : Z := 253402300800.

Lemma gmtime_year t : 0 <= t < year_10000 -> tm_year (gmtime t) <= 9999.
Proof.
  intros Ht. destruct (gmtime_spec t ltac:(lia)) as [[H1 H2 H3 H4 H5 H6] E]. destruct (Z.le_gt_cases (tm_year (gmtime t)) 9999); [done|].
  pose proof (days_of_years_mono (Z.to_nat 8030) (Z.to_nat (tm_year (gmtime t) - 1970)) 1970 ltac:(lia)) as Hm.
  assert (Hd : days_of_years (Z.to_nat 8030) 1970 = 2932897) by (vm_compute; reflexivity). rewrite Hd in Hm.
  unfold timegm in E. revert E. set (x := gmtime t) in *.
  assert (0 <= sum (take (Z.to_nat (tm_mon x - 1)) (month_days (tm_year x)))).
  { apply sum_take_nonneg. unfold month_days. destruct (leap _); repeat constructor; lia. }
  unfold year_10000 in *. lia.
Qed.

(** ** Lemmas: the text *)

Lemma two_digits_spec n : 0 <= n < 100 -> length (two_digits n) = 2%nat /\ parse_dec (two_digits n) = n.
Proof.
  intros Hn. assert (Hall : forallb (fun n => (length (two_digits n) =? 2)%nat && (parse_dec (two_digits n) =? n)) (seqZ 0 100) = true)
    by (vm_compute; reflexivity).
  rewrite forallb_forall in Hall. specialize (Hall n). rewrite andb_true_iff, Nat.eqb_eq, Z.eqb_eq in Hall.
  apply Hall, list_elem_of_In, elem_of_seqZ. lia.
Qed.

Lemma year_digits y : 1970 <= y <= 9999 -> length (to_string y) = 4%nat.
Proof.
  intros Hy. assert (Hall : forallb (fun y => (length (to_string y) =? 4)%nat) (seqZ 1970 8030) = true) by (vm_compute; reflexivity).
  rewrite forallb_forall in Hall. specialize (Hall y). rewrite Nat.eqb_eq in Hall. apply Hall, list_elem_of_In, elem_of_seqZ. lia.
Qed.

Lemma number_at_app i n (a b c : str) : length a = i -> length b = n -> number_at i n (a ++ b ++ c) = parse_dec b.
Proof. intros <- <-. unfold number_at. by rewrite drop_app_length, take_app_length. Qed.

Lemma valid_fields x : tm_valid x -> 0 <= tm_mon x < 100 /\ 0 <= tm_mday x < 100 /\ 0 <= tm_hour x < 100 /\ 0 <= tm_min x < 100 /\ 0 <= tm_sec x < 100.
Proof.
  intros [H1 H2 H3 H4 H5 H6]. pose proof (months_bounded (tm_year x) (Z.to_nat (tm_mon x - 1))). lia.
Qed.

Lemma parse_put_time x : tm_valid x -> tm_year x <= 9999 -> parse_time (put_time x) = timegm x /\ length (put_time x) = 20%nat.
Proof.
  intros Hx Hy. pose proof (valid_fields x Hx) as (Hm & Hd & Hh & Hi & Hs). destruct Hx as [H1 _ _ _ _ _].
  pose proof (year_digits (tm_year x) ltac:(lia)) as L1. pose proof (parse_to_string (tm_year x) ltac:(lia)) as P1.
  destruct (two_digits_spec _ Hm) as [L2 P2], (two_digits_spec _ Hd) as [L3 P3], (two_digits_spec _ Hh) as [L4 P4],
    (two_digits_spec _ Hi) as [L5 P5], (two_digits_spec _ Hs) as [L6 P6].
  destruct x as [ye mo da ho mi se]. cbn [tm_year tm_mon tm_mday tm_hour tm_min tm_sec] in *. unfold put_time, parse_time.
  cbn [tm_year tm_mon tm_mday tm_hour tm_min tm_sec].
  replace (mkTm ye mo da ho mi se) with
    (mkTm (parse_dec (to_string ye)) (parse_dec (two_digits mo)) (parse_dec (two_digits da)) (parse_dec (two_digits ho))
       (parse_dec (two_digits mi)) (parse_dec (two_digits se))) by (by rewrite P1, P2, P3, P4, P5, P6).
  clear P1 P2 P3 P4 P5 P6.
  revert L1 L2 L3 L4 L5 L6. generalize (to_string ye) (two_digits mo) (two_digits da) (two_digits ho) (two_digits mi) (two_digits se).
  intros a b c d e f L1 L2 L3 L4 L5 L6.
  destruct a as [|? [|? [|? [|? [|]]]]]; try done. destruct b as [|? [|? [|]]]; try done. destruct c as [|? [|? [|]]]; try done.
  destruct d as [|? [|? [|]]]; try done. destruct e as [|? [|? [|]]]; try done. destruct f as [|? [|? [|]]]; try done.
Qed.

(** ** Lemmas: log lines *)

Lemma log_body_run c out : run (log_body c) out = Some (out ++ log_text c, tt).
Proof.
  unfold log_body, log_text. revert out. induction (log_pieces c) as [|s l IH]; intros out; cbn [fold_right run concat].
  - by rewrite app_nil_r.
  - by rewrite IH, app_assoc.
Qed.

(** The mutex is exclusive. *)
#[export, refine] Instance log_guarded : Guarded str log_call unit := {|
  writes _ := true;
  body := log_body;
  atomically c out := (out ++ log_text c, tt)
|}.
Proof. { intros c out. apply log_body_run. } { done. } Defined.

Lemma log_entries_in_order cs out : fst (in_order cs out) = out ++ concat (map log_text cs).
Proof.
  revert out. induction cs as [|c cs IH]; intros out; cbn [in_order map concat]; [by rewrite app_nil_r|].
  cbn [atomically log_guarded]. specialize (IH (out ++ log_text c)). destruct (in_order cs _). cbn [fst] in *.
  by rewrite IH, app_assoc.
Qed.

(** ** Properties *)

(** A time stamp tells the second, in twenty characters, for every time between 1970
    and the year 10000. *)
Theorem timestamp_roundtrip time :
  0 <= time < year_10000 * 1000000000 ->
  parse_time (toISO8601String time) = time / 1000000000 /\ length (toISO8601String time) = 20%nat.
Proof.
  intros Ht. unfold toISO8601String. rewrite Z.quot_div_nonneg by lia.
  assert (H0 : 0 <= time / 1000000000 < year_10000).
  { split; [apply Z.div_pos; lia|apply Z.div_lt_upper_bound; lia]. }
  destruct (gmtime_spec (time / 1000000000)) as [Hv Hg]; [lia|].
  destruct (parse_put_time _ Hv) as [Hp Hl]; [by apply gmtime_year|]. by rewrite Hp.
Qed.

Lemma timestamp_roundtrip_witness :
  toISO8601String 1709208000123456789 = ("2024-02-29T12:00:00Z" : str) /\
  parse_time (toISO8601String 1709208000123456789) = 1709208000.
Proof. split; [vm_compute; reflexivity|]. apply (timestamp_roundtrip 1709208000123456789). vm_compute. split; congruence. Defined.

(** However threads of one translation unit write log lines at the same time, what
    a stream has received when nobody is writing is a sequence of whole lines. *)
Theorem log_lines_whole n es c :
  trace lstep (start_conf ([] : str) n) es c -> sm_writer (c_lock c) = None ->
  exists cs : list log_call, c_object c = concat (map log_text cs).
Proof.
  intros Ht Hw. apply guarded_locked in Ht as [(a & _ & Hlog & Hobj) _ _ _].
  exists (map fst (a_log a)). rewrite <- (Hobj Hw). pose proof (log_entries_in_order (map fst (a_log a)) []) as E.
  rewrite Hlog in E. exact E.
Qed.

(** The name is what the system call wrote before the first zero byte. *)
Theorem getHostName_spec f name rest :
  (forall c, c ∈ name -> c <> zero_byte) -> f hostname_size = Some (name ++ zero_byte :: rest) ->
  getHostName f = Ret name.
Proof.
  intros Hn E. unfold getHostName. rewrite E. f_equal. rewrite <- app_assoc. clear E.
  generalize (repeat zero_byte (Z.to_nat (hostname_size - len (name ++ zero_byte :: rest)))). intros padding.
  induction name as [|c name IH]; [done|]. cbn [app JavaFile.c_str]. rewrite bool_decide_false by (apply Hn; left).
  f_equal. apply IH. intros x Hx. apply Hn. by right.
Qed.
