(* ===== verification/GEDSOpenRace.v ===== *)
(** * Threads that open the same object

    [GEDS::open] (src/src/libgeds/GEDS.cpp) in the steps between which another
    thread can come: looking into the map of handles, asking the metadata service,
    making a handle for the location, wrapping it, entering the wrapper,
    destroying a wrapper that comes too late, and opening the file under the lock
    of the handle. What happens when any number of threads open one object of an
    object store at the same time. *)

From Stdlib Require Import Ascii ZArith Lia.
From stdpp Require Import base gmap sets list relations strings numbers.
From S2P Require Import Prelude Bytes Decimal Status StdMap Path Object FileSet MDSKVS S3Endpoint Rpc.
From S2P Require Import MetadataServer MetadataService LocalFile ConcurrentMap GedsNames FileHandle.
From S2P Require Import Node Handles HandleIO GEDS GEDSCreate GEDSObjects GEDSRelocate.
From S2P Require GEDSRace.

Open Scope Z_scope.
Open Scope list_scope.

#[local] Opaque to_string.

(** ** Steps *)

(** Where a thread is: before the call, without an entry in the map, with the
    object that was found, with a handle for it, with a wrapper of that handle, with
    a wrapper that was not entered because of another one, with the entered
    handle, and after one round of [open]. *)
Inductive opener :=
| OBegin
| OMissing
| OLooked (o : Object)
| OFetched (fh : nat)
| OWrapped (r fh : nat)
| OLost (r fh w : nat)
| OShared (w : nat)
| ODone (r : StatusOr nat + unit).

Section steps.
Context {W X K T : Type} `{MDStub W} `{S3Client X} `{Kernel K} `{Transfers T}.
Context (bucket key : str).
Implicit Types n : Node W X K T.

Definition failed (st : Status) : opener := ODone (inl (Error st)).

(** [_fileHandles.get] *)
Definition find_part : M W X K T opener :=
  fun n =>
    match n_state n with
    | Running =>
        (let check := isValid bucket key in
         if negb (ok check) then ret (ODone (inl (from_status check))) else
         let* existing := gets (fun n => cm_get (getPath bucket key) (n_fileHandles n)) in
         ret (match existing with Some h => OShared h | None => OMissing end)) n
    | st => Done (failed (FailedPreconditionError ("The service is " ++ state_name st ++ "."))) n
    end.

(** [_metadataService.lookup] *)
Definition lookup_part : M W X K T opener :=
  let* status_file := md_call (client_lookup bucket key false) in
  ret (match status_file with Error st => failed st | Value o => OLooked o end).

(** The handle for the location, with the second attempt of [reopenFileHandle]. *)
Definition handle_part (o : Object) : M W X K T opener :=
  let* fileHandle :=
    (if negb (known_location (location (info o))) then handle_for o else
     let* fileHandle := handle_for o in
     match fileHandle with
     | Error _ => reopen_invalidating bucket key
     | Value h => ret (Value h)
     end) in
  ret (match fileHandle with Error st => failed st | Value fh => OFetched fh end).

Definition wrap_part (fh : nat) : M W X K T opener :=
  let* wrapped := new_handle (newHandle bucket key None (KReloc fh)) in ret (OWrapped wrapped fh).

(** [_fileHandles.insertOrExists] *)
Definition enter_part (r fh : nat) : M W X K T opener :=
  let* e := gets (fun n => insertOrExists (getPath bucket key) r (n_fileHandles n)) in
  modify (set_fileHandles (fst e)) ;;
  ret (if bool_decide (snd e <> r) then OLost r fh (snd e) else OShared (snd e)).

(** Leaving [openAsFileHandle] destroys a wrapper that was not entered. *)
Definition leave_part (r w : nat) : M W X K T opener := drop_ref r ;; ret (OShared w).

(** The rest of [open], under the lock of the handle. *)
Definition file_part (w : nat) : M W X K T opener :=
  let* x := the_handle w in
  if h_isValid x then
    modify (fun n => set_filesOpened (u64 (n_filesOpened n + 1)) n) ;;
    let* f := h_open w in ret (ODone (inl (Value f)))
  else forget (getPath bucket key) w ;; ret (ODone (inr tt)).

Definition open_advance (c : opener) : M W X K T opener :=
  match c with
  | OBegin => find_part
  | OMissing => lookup_part
  | OLooked o => handle_part o
  | OFetched fh => wrap_part fh
  | OWrapped r fh => enter_part r fh
  | OLost r _ w => leave_part r w
  | OShared w => file_part w
  | ODone r => ret (ODone r)
  end.

Fixpoint advances (count : nat) (c : opener) : M W X K T opener :=
  match count with
  | O => ret c
  | S count => let* c := open_advance c in advances count c
  end.

Definition round_of (c : opener) : StatusOr nat + unit :=
  match c with ODone r => r | _ => inr tt end.

(** Any thread makes its next step. *)
Inductive open_step : list opener * Node W X K T -> list opener * Node W X K T -> Prop :=
| opens t ts c c' n n' :
    ts !! t = Some c -> open_advance c n = Done c' n' -> open_step (ts, n) (<[t := c']> ts, n').

(** ** Lemmas: one thread *)

(** A thread that is not disturbed, for as many steps. *)
Fixpoint alone (count : nat) (c : opener) n : run W X K T (StatusOr nat + unit) :=
  match count with
  | O => Done (round_of c) n
  | S count =>
      match open_advance c n with
      | Done c' n' => alone count c' n'
      | Crash => Crash
      | NoFuel => NoFuel
      end
  end.

(** [open] once it has a handle. *)
Definition open_handle (h : nat) : M W X K T (StatusOr nat + unit) :=
  let* x := the_handle h in
  if h_isValid x then
    modify (fun n => set_filesOpened (u64 (n_filesOpened n + 1)) n) ;;
    let* f := h_open h in ret (inl (Value f))
  else forget (getPath bucket key) h ;; ret (inr tt).

Lemma alone_done count r n : alone count (ODone r) n = Done r n.
Proof using Type. induction count as [|count IH]; [done|]. exact IH. Qed.

Lemma alone_shared count w n : alone (S count) (OShared w) n = open_handle w n.
Proof using Type.
  cbn [alone open_advance]. unfold file_part, open_handle, bind, modify, ret.
  destruct (the_handle w n) as [x n1| |]; [|done..]. destruct (h_isValid x).
  - destruct (h_open w _) as [f n2| |]; [|done..]. apply alone_done.
  - destruct (forget _ w n1) as [[] n2| |]; [|done..]. apply alone_done.
Qed.

Lemma alone_lost count r fh w n : alone (S (S count)) (OLost r fh w) n = (drop_ref r ;; open_handle w) n.
Proof using Type.
  cbn [alone]. cbn [open_advance]. unfold leave_part. unfold bind at 1 2.
  destruct (drop_ref r n) as [[] n1| |]; [|done..]. exact (alone_shared count w n1).
Qed.

Lemma alone_wrapped count r fh n :
  alone (S (S (S count))) (OWrapped r fh) n =
  (let* e := gets (fun n => insertOrExists (getPath bucket key) r (n_fileHandles n)) in
   modify (set_fileHandles (fst e)) ;;
   (if bool_decide (snd e <> r) then drop_ref r else ret tt) ;;
   open_handle (snd e)) n.
Proof using Type.
  cbn [alone]. cbn [open_advance]. unfold enter_part. unfold bind, gets, modify, ret.
  destruct (insertOrExists _ r _) as [hs w]. cbn [fst snd]. case_bool_decide.
  - exact (alone_lost count r fh w (set_fileHandles hs n)).
  - exact (alone_shared (S count) w (set_fileHandles hs n)).
Qed.

(** What [openAsFileHandle] does with a handle for the location. *)
Definition enter_handle (fh : nat) : M W X K T (StatusOr nat) :=
  let* wrapped := new_handle (newHandle bucket key None (KReloc fh)) in
  let* e := gets (fun n => insertOrExists (getPath bucket key) wrapped (n_fileHandles n)) in
  modify (set_fileHandles (fst e)) ;;
  (if bool_decide (snd e <> wrapped) then drop_ref wrapped else ret tt) ;;
  ret (Value (snd e)).

Definition open_result (r : StatusOr nat) : M W X K T (StatusOr nat + unit) :=
  match r with Error st => ret (inl (Error st)) | Value h => open_handle h end.

Lemma alone_fetched fh n : alone 4 (OFetched fh) n = (let* r := enter_handle fh in open_result r) n.
Proof using Type.
  etrans; [exact (alone_wrapped 0 (n_next n) fh _)|]. unfold enter_handle, bind, gets, modify, ret, new_handle.
  case_bool_decide; [|done]. by destruct (drop_ref _ _) as [[] n1| |].
Qed.

Lemma alone_missing n :
  alone 6 OMissing n = (let* fh := reopenFileHandle bucket key false in
                        let* r := match fh with Error st => ret (Error st) | Value fh => enter_handle fh end in
                        open_result r) n.
Proof using Type.
  change (alone 6 OMissing n) with (match lookup_part n with Done c n' => alone 5 c n' | Crash => Crash | NoFuel => NoFuel end).
  unfold lookup_part, reopenFileHandle, bind, md_call, ret.
  destruct (client_lookup bucket key false (n_md n) (n_mdw n)) as [[cl w] [o|st]]; [|apply alone_done].
  set (n1 := set_md cl w n).
  change (alone 5 (OLooked o) n1) with (match handle_part o n1 with Done c n' => alone 4 c n' | Crash => Crash | NoFuel => NoFuel end).
  unfold handle_part, bind, ret. destruct (known_location (location (info o))); cbn [negb].
  - destruct (handle_for o n1) as [[fh|st] n2| |]; [exact (alone_fetched fh n2)| |done..].
    destruct (reopen_invalidating bucket key n2) as [[fh|st'] n3| |]; [exact (alone_fetched fh n3)|apply alone_done|done..].
  - destruct (handle_for o n1) as [[fh|st] n2| |]; [exact (alone_fetched fh n2)|apply alone_done|done..].
Qed.

(** It makes the round of GEDS.v. *)
Lemma open_in_steps n : open_once bucket key n = alone 7 OBegin n.
Proof using Type.
  change (open_once bucket key n) with ((let* r := openAsFileHandle bucket key in open_result r) n).
  change (alone 7 OBegin n) with (match find_part n with Done c n' => alone 6 c n' | Crash => Crash | NoFuel => NoFuel end).
  unfold openAsFileHandle, running, find_part. unfold bind at 1. destruct (n_state n); try (symmetry; apply alone_done).
  destruct (ok (isValid bucket key)) eqn:Ev; cbn [negb].
  2: { unfold from_status. rewrite Ev. symmetry. apply alone_done. }
  unfold bind, gets, ret. destruct (cm_get (getPath bucket key) (n_fileHandles n)) as [w|].
  { symmetry. exact (alone_shared 5 w n). }
  etrans; [|symmetry; exact (alone_missing n)]. unfold bind, ret.
  destruct (reopenFileHandle bucket key false n) as [[fh|st] n1| |]; done.
Qed.
End steps.

(** ** Lemmas: handles *)

(** Nothing points to a handle that is not in the map, not open and not held by
    another one. *)
Lemma unreferenced {W X K T : Type} h (n : Node W X K T) :
  (forall e, e ∈ n_fileHandles n -> snd e <> h) ->
  (forall x, n_heap n !! h = Some x -> h_openCount x = 0) ->
  (forall h' x, n_heap n !! h' = Some x -> h ∉ children x) -> referenced h n = false.
Proof.
  intros H1 H2 H3. unfold referenced. rewrite !orb_false_iff. split_and!.
  - apply not_true_iff_false. rewrite existsb_exists. intros (e & Hin & He). apply bool_decide_eq_true in He.
    by apply (H1 e); [apply list_elem_of_In|].
  - destruct (n_heap n !! h) as [x|] eqn:E; [|done]. by rewrite (H2 x eq_refl).
  - apply not_true_iff_false. rewrite existsb_exists. intros ([h' x] & Hin & Hc). apply bool_decide_eq_true in Hc.
    apply list_elem_of_In, elem_of_map_to_list in Hin. by apply (H3 h' x).
Qed.

(** ** The invariant *)

Section race.
Context {W X K T : Type} `{MDService W} `{S3Store X} `{KernelFair K} `{Transfers T}.
Context (b k sb sk c : str) (i : ObjectInfo) (m : KvsSpec.state).
Implicit Types n : Node W X K T.

(** The object is in an object store and is not cached in blocks. *)
Record serves_open n : Prop := {
  sv_running : n_state n = Running;
  sv_valid : ok (isValid b k) = true;
  sv_conn : is_connected (n_md n) = true;
  sv_svc : svc_abs (n_mdw n) m;
  sv_coh : coherent (n_md n) m;
  sv_object : exists mb, m !! b = Some mb /\ mb !! k = Some i;
  sv_location : location i = s3_location sb sk;
  sv_slash : "/"%char ∉ sb;
  sv_uncached : cache_objects_from_s3 (n_config n) = false;
  sv_store : exists e, mfind sb (n_objectStores n) = Some e;
  sv_contents : object_at n sb sb sk = Some c
}.

(** The handle on the object, and the wrapper of a handle. *)
Definition s3_handle : Handle := newHandle b k (metadata i) (KS3 sb sk (len c)).
Definition wrapper (fh : nat) : Handle := newHandle b k None (KReloc fh).

(** The handles that only one thread has, and those that all share. *)
Definition entries (p : opener) : list (nat * Handle) :=
  match p with
  | OFetched fh => [(fh, s3_handle)]
  | OWrapped r fh | OLost r fh _ => [(r, wrapper fh); (fh, s3_handle)]
  | _ => []
  end.

Definition is_done (p : opener) : bool := match p with ODone _ => true | _ => false end.
Definition done_count (ts : list opener) : Z := Z.of_nat (length (List.filter is_done ts)).

Definition shared (count : Z) (s : option (nat * nat)) : list (nat * Handle) :=
  match s with
  | Some (w, fh) => [(w, with_count count (wrapper fh)); (fh, s3_handle)]
  | None => []
  end.

Definition all_entries (ts : list opener) (s : option (nat * nat)) : list (nat * Handle) :=
  concat (map entries ts) ++ shared (done_count ts) s.

Definition fits (s : option (nat * nat)) (p : opener) : Prop :=
  match p, s with
  | OBegin, _ | OMissing, _ | OFetched _, _ | OWrapped _ _, _ => True
  | OLooked o, _ => o = mkObject (mkID b k) i
  | OLost _ _ w, Some (w', _) => w = w'
  | OShared w, Some (w', _) => w = w'
  | ODone r, Some (w', _) => r = inl (Value w')
  | _, None => False
  end.

Record open_inv n0 (ts : list opener) (s : option (nat * nat)) n : Prop := {
  oi_serves : serves_open n;
  oi_map : n_fileHandles n =
    match s with Some (w, _) => massign (getPath b k) w (n_fileHandles n0) | None => n_fileHandles n0 end;
  oi_unique : NoDup (map fst (all_entries ts s));
  oi_range h x : (h, x) ∈ all_entries ts s -> (n_next n0 <= h < n_next n)%nat;
  oi_heap h x : n_heap n !! h = Some x <-> (h, x) ∈ all_entries ts s \/ n_heap n0 !! h = Some x;
  oi_next : (n_next n0 <= n_next n)%nat;
  oi_threads : Forall (fits s) ts
}.

(** A running process without the object. *)
Definition can_open n0 : Prop := node_wf n0 /\ serves_open n0 /\ mfind (getPath b k) (n_fileHandles n0) = None.

Lemma entries_split ts t p p' :
  ts !! t = Some p ->
  exists l r, concat (map entries ts) = l ++ entries p ++ r /\ concat (map entries (<[t := p']> ts)) = l ++ entries p' ++ r /\
    done_count (<[t := p']> ts) = done_count ts - (if is_done p then 1 else 0) + (if is_done p' then 1 else 0).
Proof using Type.
  intros Ht. destruct (list_elem_of_split_length ts t p Ht) as (l & r & -> & ->).
  exists (concat (map entries l)), (concat (map entries r)).
  rewrite insert_app_r_alt, Nat.sub_diag by done. cbn [insert list_insert]. unfold done_count.
  rewrite !map_app, !concat_app, !filter_app, !length_app. cbn [map concat List.filter].
  split; [done|]. split; [done|]. destruct (is_done p), (is_done p'); cbn [length]; lia.
Qed.

(** The entries of all threads when one of them changes its own. *)
Lemma entries_step ts t p p' s :
  ts !! t = Some p -> is_done p = is_done p' ->
  exists l, all_entries ts s ≡ₚ entries p ++ l /\ all_entries (<[t := p']> ts) s ≡ₚ entries p' ++ l.
Proof using Type.
  intros Ht Hd. destruct (entries_split ts t p p' Ht) as (l & r & E1 & E2 & E3).
  exists (l ++ r ++ shared (done_count ts) s). unfold all_entries. rewrite E1, E2, E3, Hd.
  replace (done_count ts - _ + _) with (done_count ts) by lia. split; solve_Permutation.
Qed.

Lemma fresh_entry n0 ts s n x : open_inv n0 ts s n -> (n_next n, x) ∉ all_entries ts s.
Proof using Type. intros I Hin. apply (oi_range _ _ _ _ I) in Hin. lia. Qed.

Lemma fresh_old n0 ts s n : node_wf n0 -> open_inv n0 ts s n -> n_heap n0 !! n_next n = None.
Proof using Type.
  intros Hw I. destruct (n_heap n0 !! n_next n) as [x|] eqn:E; [|done]. apply (nw_heap n0 Hw) in E as [? _].
  pose proof (oi_next _ _ _ _ I). lia.
Qed.

Lemma serves_same n n' :
  n_state n' = n_state n -> n_config n' = n_config n -> n_md n' = n_md n -> n_mdw n' = n_mdw n ->
  n_objectStores n' = n_objectStores n -> same_objects n n' -> serves_open n -> serves_open n'.
Proof using Type.
  intros E1 E2 E3 E4 E5 E6 [S1 S2 S3 S4 S5 S6 S7 S8 S9 S10 S11].
  constructor; rewrite ?E1, ?E2, ?E3, ?E4, ?E5, ?E6; done.
Qed.

Lemma open_start n0 count : can_open n0 -> open_inv n0 (replicate count OBegin) None n0.
Proof using Type.
  intros (Hw & Hs & Ha). assert (He : all_entries (replicate count OBegin) None = []).
  { unfold all_entries. cbn [shared]. rewrite app_nil_r. by induction count. }
  constructor; rewrite ?He; try done.
  - constructor.
  - by intros h x ?%elem_of_nil.
  - intros h x. rewrite elem_of_nil. naive_solver.
  - by apply Forall_replicate.
Qed.

(** A thread goes on without touching a handle. *)
Lemma move_inv n0 ts s n n' t p p' :
  open_inv n0 ts s n -> ts !! t = Some p -> entries p' = entries p -> is_done p' = is_done p -> fits s p' ->
  serves_open n' -> n_heap n' = n_heap n -> n_next n' = n_next n -> n_fileHandles n' = n_fileHandles n ->
  open_inv n0 (<[t := p']> ts) s n'.
Proof using Type.
  intros [I1 I2 I3 I4 I5 I6 I7] Ht He Hd Hf Hs E1 E2 E3.
  destruct (entries_split ts t p p' Ht) as (l & r & F1 & F2 & F3).
  assert (Ea : all_entries (<[t := p']> ts) s = all_entries ts s).
  { unfold all_entries. rewrite F1, F2, F3, He, Hd. by replace (done_count ts - _ + _) with (done_count ts) by lia. }
  constructor; rewrite ?Ea, ?E1, ?E2, ?E3; try done. by apply Forall_insert.
Qed.

(** A thread makes a new handle. *)
Lemma add_inv n0 ts s n n' t p p' x :
  node_wf n0 -> open_inv n0 ts s n -> ts !! t = Some p -> entries p' = (n_next n, x) :: entries p -> is_done p' = is_done p ->
  fits s p' -> serves_open n' -> n_heap n' = <[n_next n := x]> (n_heap n) -> n_next n' = S (n_next n) ->
  n_fileHandles n' = n_fileHandles n -> open_inv n0 (<[t := p']> ts) s n'.
Proof using Type.
  intros Hw I Ht He Hd Hf Hs E1 E2 E3. pose proof (fresh_old n0 ts s n Hw I) as Hold.
  assert (Hfresh : forall y, (n_next n, y) ∉ all_entries ts s) by (intros y; by apply (fresh_entry n0 ts s n y)).
  destruct I as [I1 I2 I3 I4 I5 I6 I7]. destruct (entries_step ts t p p' s Ht (eq_sym Hd)) as (l & P1 & P2). rewrite He in P2.
  assert (Hin : forall e, e ∈ all_entries (<[t := p']> ts) s <-> e = (n_next n, x) \/ e ∈ all_entries ts s).
  { intros e. rewrite P1, P2. cbn [app]. by rewrite elem_of_cons. }
  constructor; rewrite ?E2, ?E3; try done.
  - rewrite P2. cbn [app map fst]. rewrite <- P1. constructor; [|exact I3].
    intros ((h & y) & Eh & Hy)%list_elem_of_fmap. cbn [fst] in Eh. subst h. by apply (Hfresh y).
  - intros h y [[= -> ->]|Hy]%Hin; [lia|]. specialize (I4 h y Hy). lia.
  - intros h y. rewrite E1, Hin, lookup_insert. case_decide as Eh.
    + subst h. split; [intros [= <-]; by left; left|]. intros [[[= <-]|Hy]|Hy]; [done|by apply Hfresh in Hy|congruence].
    + rewrite I5. split; [naive_solver|]. intros [[[= -> ->]|Hy]|Hy]; [done|by left|by right].
  - lia.
  - by apply Forall_insert.
Qed.

(** *** The steps *)

Lemma find_inv n0 ts s n t :
  can_open n0 -> open_inv n0 ts s n -> ts !! t = Some OBegin ->
  exists p', open_advance b k OBegin n = Done p' n /\ open_inv n0 (<[t := p']> ts) s n /\ is_done p' = false /\ p' <> OBegin.
Proof using Type.
  intros (Hw & _ & Ha) I Ht. pose proof (oi_serves _ _ _ _ I) as Hs.
  exists (match s with Some (w, _) => OShared w | None => OMissing end).
  split; [|split; [|by destruct s as [[]|]]].
  - cbn [open_advance]. unfold find_part, bind, gets, ret, cm_get. rewrite (sv_running _ Hs), (sv_valid _ Hs). cbn [negb].
    rewrite (oi_map _ _ _ _ I). destruct s as [[w fh]|]; [by rewrite mfind_massign_eq|by rewrite Ha].
  - apply (move_inv n0 ts s n n t OBegin); try done; by destruct s as [[]|].
Qed.

Lemma lookup_inv n0 ts s n t :
  open_inv n0 ts s n -> ts !! t = Some OMissing ->
  exists o n', open_advance b k OMissing n = Done (OLooked o) n' /\ open_inv n0 (<[t := OLooked o]> ts) s n'.
Proof using Type.
  intros I Ht. pose proof (oi_serves _ _ _ _ I) as Hs. pose proof Hs as [S1 S2 S3 S4 S5 (mb & S6 & S7) S8 S9 S10 S11 S12].
  destruct (client_lookup_sim (mkID b k) false (n_md n) (n_mdw n) m S4 S5 S3) as (cl & w & o & E & Ha & Hco & Hc & Hl).
  change (client_lookup (bucket (mkID b k)) (key (mkID b k)) false (n_md n) (n_mdw n))
    with (client_lookup b k false (n_md n) (n_mdw n)) in E.
  simpl in Hl. rewrite S6, S7 in Hl. destruct Hl as [_ [= ->]].
  exists (mkObject (mkID b k) i), (set_md cl w n). split.
  - cbn [open_advance]. unfold lookup_part, bind, md_call, ret. by rewrite E.
  - apply (move_inv n0 ts s n _ t OMissing); try done. by constructor; try done; exists mb.
Qed.

Lemma handle_inv n0 ts s n t o :
  can_open n0 -> open_inv n0 ts s n -> ts !! t = Some (OLooked o) ->
  exists fh n', open_advance b k (OLooked o) n = Done (OFetched fh) n' /\ open_inv n0 (<[t := OFetched fh]> ts) s n'.
Proof using Type.
  intros (Hw & _) I Ht. pose proof (oi_serves _ _ _ _ I) as Hs. pose proof Hs as [S1 S2 S3 S4 S5 S6 S8 S9 S10 (e & S11) S12].
  pose proof (Forall_lookup_1 _ _ _ _ (oi_threads _ _ _ _ I) Ht) as Ho. cbn [fits] in Ho. subst o.
  destruct (s3_factory_step b k (metadata i) sb sk c e n S11 S12) as (n1 & E1 & O1 & C1).
  exists (n_next n), (set_heap (<[n_next n := s3_handle]> (n_heap n)) (S (n_next n)) n1). split.
  - cbn [open_advance]. unfold handle_part. cbn [info]. rewrite S8.
    assert (Ek : known_location (s3_location sb sk) = true) by reflexivity. rewrite Ek. cbn [negb].
    unfold handle_for. cbn [info]. rewrite S8. change (starts_with "geds://" (s3_location sb sk)) with false.
    change (starts_with "s3://" (s3_location sb sk)) with true. unfold s3_factory_object. cbn [info]. rewrite S8, parse_s3_location_join by done.
    cbn [id bucket key]. unfold bind, gets. rewrite S10, E1. done.
  - apply (add_inv n0 ts s n _ t (OLooked (mkObject (mkID b k) i)) _ s3_handle); try done.
    + apply (serves_same n); [by destruct O1..|exact C1|done].
    + by destruct O1.
Qed.

Lemma wrap_inv n0 ts s n t fh :
  can_open n0 -> open_inv n0 ts s n -> ts !! t = Some (OFetched fh) ->
  exists r n', open_advance b k (OFetched fh) n = Done (OWrapped r fh) n' /\ open_inv n0 (<[t := OWrapped r fh]> ts) s n'.
Proof using Type.
  intros (Hw & _) I Ht. eexists (n_next n), _. split; [reflexivity|].
  apply (add_inv n0 ts s n _ t (OFetched fh) _ (wrapper fh)); try done. apply (serves_same n); try done. apply (oi_serves _ _ _ _ I).
Qed.

Lemma done_none ts : Forall (fits None) ts -> done_count ts = 0.
Proof using Type.
  intros Hf. unfold done_count. induction Hf as [|p ts Hp _ IH]; [done|]. cbn [List.filter]. by destruct p.
Qed.

Lemma fits_shared w fh p : fits None p -> fits (Some (w, fh)) p.
Proof using Type. by destruct p. Qed.

Lemma enter_inv n0 ts s n t r fh :
  can_open n0 -> open_inv n0 ts s n -> ts !! t = Some (OWrapped r fh) ->
  exists p' s' n', open_advance b k (OWrapped r fh) n = Done p' n' /\ open_inv n0 (<[t := p']> ts) s' n' /\
    (p' = OShared r \/ exists w, p' = OLost r fh w).
Proof using Type.
  intros (Hw & _ & Ha) I Ht. cbn [open_advance]. unfold enter_part, bind, gets, modify, ret, insertOrExists.
  rewrite (oi_map _ _ _ _ I). pose proof (oi_serves _ _ _ _ I) as Hs. destruct s as [[w gh]|].
  - rewrite mfind_massign_eq. cbn [fst snd].
    assert (Hne : w <> r).
    { intros ->. pose proof (oi_unique _ _ _ _ I) as Hu.
      destruct (entries_split ts t _ (OWrapped r fh) Ht) as (l & l' & E1 & _). unfold all_entries in Hu. rewrite E1 in Hu.
      cbn [entries shared] in Hu. rewrite !map_app in Hu. cbn [map fst app] in Hu.
      apply list.NoDup_app in Hu as (_ & Hd & _). apply (Hd r); [|by left]. apply elem_of_app. right. by left. }
    rewrite bool_decide_true by done. eexists _, (Some (w, gh)), _. split; [reflexivity|]. split; [|right; by exists w].
    apply (move_inv n0 ts (Some (w, gh)) n _ t (OWrapped r fh)); try done; [by apply (serves_same n)|].
    cbn [n_fileHandles set_fileHandles]. by rewrite (oi_map _ _ _ _ I).
  - rewrite Ha. cbn [fst snd]. rewrite bool_decide_false by (intros []; done).
    eexists _, (Some (r, fh)), _. split; [reflexivity|]. split; [|by left].
    destruct I as [I1 I2 I3 I4 I5 I6 I7]. destruct (entries_split ts t _ (OShared r) Ht) as (l & l' & E1 & E2 & E3).
    assert (Hp : all_entries (<[t := OShared r]> ts) (Some (r, fh)) ≡ₚ all_entries ts None).
    { unfold all_entries. rewrite E1, E2, E3, (done_none ts I7). cbn [entries shared is_done app]. rewrite app_nil_r.
      change (with_count (0 - 0 + 0) (wrapper fh)) with (wrapper fh). solve_Permutation. }
    constructor; cbn [n_fileHandles n_heap n_next set_fileHandles]; try done.
    + by apply (serves_same n).
    + by rewrite Hp.
    + intros h x. rewrite Hp. apply I4.
    + intros h x. rewrite Hp. apply I5.
    + apply Forall_insert; [|done]. eapply Forall_impl; [|exact I7]. intros p. apply fits_shared.
Qed.

(** Handles that only one thread has are not pointed to, except by its wrapper. *)
Lemma own_unmapped n0 ts s n t p h x e :
  can_open n0 -> open_inv n0 ts s n -> ts !! t = Some p -> (h, x) ∈ entries p -> e ∈ n_fileHandles n -> snd e <> h.
Proof using Type.
  intros (Hw & _ & _) I Ht Hx He Eh. destruct (entries_split ts t p p Ht) as (l & l' & E1 & _ & _).
  assert (Hh : (n_next n0 <= h)%nat).
  { apply (oi_range _ _ _ _ I h x). unfold all_entries. rewrite E1. apply elem_of_app. left. apply elem_of_app. right.
    apply elem_of_app. by left. }
  assert (Hold : e ∈ n_fileHandles n0 -> False).
  { intros Hin. pose proof (Forall_elem _ _ _ (nw_map n0 Hw) Hin). simpl in *. lia. }
  rewrite (oi_map _ _ _ _ I) in He. destruct s as [[w fh]|]; [|by apply Hold].
  destruct e as [q v]. cbn [snd] in Eh. subst v. apply mfind_Some in He; [|apply massign_sorted, Hw].
  destruct (decide (q = getPath b k)) as [->|Hne].
  - rewrite mfind_massign_eq in He. injection He as ->. pose proof (oi_unique _ _ _ _ I) as Hu. unfold all_entries in Hu.
    rewrite E1 in Hu. rewrite map_app in Hu. apply list.NoDup_app in Hu as (_ & Hd & _). apply (Hd h).
    + rewrite !map_app. apply elem_of_app. right. apply elem_of_app. left. change h with (fst (h, x)). by apply list_elem_of_fmap_2.
    + left.
  - rewrite mfind_massign_ne in He by congruence. apply mfind_Some in He; [|apply Hw]. by apply Hold.
Qed.

(** Entries with the same handle are the same. *)
Lemma entries_agree n0 ts s n h x y :
  open_inv n0 ts s n -> (h, x) ∈ all_entries ts s -> (h, y) ∈ all_entries ts s -> x = y.
Proof using Type.
  intros I Hx Hy. pose proof (oi_unique _ _ _ _ I) as Hu. revert Hu Hx Hy. generalize (all_entries ts s). intros l Hu.
  induction l as [|[h' z] l IH]; [by intros ?%elem_of_nil|]. cbn [map fst] in Hu. apply list.NoDup_cons in Hu as [Hn Hu].
  rewrite !elem_of_cons. intros [[= -> ->]|Hx] [[= Ey]|Hy]; [done| | |by apply IH].
  - destruct Hn. change h' with (fst (h', y)). by apply list_elem_of_fmap_2.
  - subst. destruct Hn. change h' with (fst (h', x)). by apply list_elem_of_fmap_2.
Qed.

Lemma children_entry ts s (h : nat) x : (h, x) ∈ all_entries ts s -> x = s3_handle \/
  exists (fh : nat) cnt, x = with_count cnt (wrapper fh) /\ (fh, s3_handle) ∈ all_entries ts s.
Proof using Type.
  unfold all_entries. intros [Hin|Hin]%elem_of_app.
  - apply list_elem_of_In, in_concat in Hin as (es & Hes & Hin). apply in_map_iff in Hes as (p & <- & Hp).
    assert (Hsub : forall e, e ∈ entries p -> e ∈ concat (map entries ts)).
    { intros e He. apply list_elem_of_In, in_concat. exists (entries p). split; [by apply in_map|by apply list_elem_of_In]. }
    apply list_elem_of_In in Hin.
    assert (Hcase : x = s3_handle \/ exists fh, x = wrapper fh /\ (fh, s3_handle) ∈ entries p).
    { destruct p; cbn [entries] in *; rewrite ?elem_of_cons, ?elem_of_nil in Hin; try tauto.
      - destruct Hin as [[= -> ->]|[]]; by left.
      - destruct Hin as [[= -> ->]|[[= -> ->]|[]]]; [right; eexists; split; [done|right; left]|by left].
      - destruct Hin as [[= -> ->]|[[= -> ->]|[]]]; [right; eexists; split; [done|right; left]|by left]. }
    destruct Hcase as [->|(fh & -> & Hf)]; [by left|right]. exists fh, 0. split; [done|]. apply elem_of_app. left. by apply Hsub.
  - destruct s as [[w fh]|]; cbn [shared] in Hin; rewrite ?elem_of_cons, ?elem_of_nil in Hin; [|tauto].
    destruct Hin as [[= -> ->]|[[= -> ->]|[]]]; [right|by left]. eexists fh, _. split; [done|].
    apply elem_of_app. right. cbn [shared]. right. left.
Qed.

(** Nothing but its wrapper holds a handle. *)
Lemma unheld n0 ts s h h' x :
  can_open n0 -> (n_next n0 <= h)%nat -> (forall y, (h, y) ∉ all_entries ts s) ->
  ((h', x) ∈ all_entries ts s \/ n_heap n0 !! h' = Some x) -> h ∉ children x.
Proof using Type.
  intros (Hw & _) Hh Hno [Hin|Hold] Hc.
  - apply children_entry in Hin as [->|(fh & cnt & -> & Hf)]; [by apply elem_of_nil in Hc|].
    apply list_elem_of_singleton in Hc as ->. by apply (Hno s3_handle).
  - apply (nw_heap n0 Hw) in Hold as [_ Hcs]. pose proof (Forall_elem _ _ _ Hcs Hc). simpl in *. lia.
Qed.

Lemma leave_inv n0 ts s n t r fh w :
  can_open n0 -> open_inv n0 ts s n -> ts !! t = Some (OLost r fh w) ->
  exists n', open_advance b k (OLost r fh w) n = Done (OShared w) n' /\ open_inv n0 (<[t := OShared w]> ts) s n'.
Proof using Type.
  intros Hcan I Ht. destruct (entries_step ts t (OLost r fh w) (OShared w) s Ht eq_refl) as (l & P1 & P2).
  cbn [entries app] in P1, P2. pose proof (oi_unique _ _ _ _ I) as Hu. rewrite P1 in Hu. cbn [map fst] in Hu.
  apply list.NoDup_cons in Hu as [Hr Hu]. apply list.NoDup_cons in Hu as [Hfh Hu].
  rewrite not_elem_of_cons in Hr. destruct Hr as [Hne Hr].
  assert (Hnot : forall h, h ∉ map fst l -> forall y, (h, y) ∉ all_entries (<[t := OShared w]> ts) s).
  { intros h Hh y Hy. rewrite P2 in Hy. apply Hh. change h with (fst (h, y)). by apply list_elem_of_fmap_2. }
  assert (Hin : forall e, e ∈ all_entries ts s <-> e = (r, wrapper fh) \/ e = (fh, s3_handle) \/ e ∈ all_entries (<[t := OShared w]> ts) s).
  { intros e. rewrite P1, P2, !elem_of_cons. done. }
  assert (Hxr : n_heap n !! r = Some (wrapper fh)) by (apply (oi_heap _ _ _ _ I); left; apply Hin; by left).
  assert (Hxf : n_heap n !! fh = Some s3_handle) by (apply (oi_heap _ _ _ _ I); left; apply Hin; right; by left).
  assert (Rr : (n_next n0 <= r)%nat) by (apply (oi_range _ _ _ _ I r (wrapper fh)), Hin; by left).
  assert (Rf : (n_next n0 <= fh)%nat) by (apply (oi_range _ _ _ _ I fh s3_handle), Hin; right; by left).
  set (n1 := set_heap (delete r (n_heap n)) (n_next n) n).
  set (n2 := set_heap (delete fh (n_heap n1)) (n_next n1) n1).
  assert (Hrest : forall h' x, n_heap n !! h' = Some x -> h' <> r -> h' <> fh ->
            (h', x) ∈ all_entries (<[t := OShared w]> ts) s \/ n_heap n0 !! h' = Some x).
  { intros h' x Hx N1 N2. apply (oi_heap _ _ _ _ I) in Hx as [Hx|Hx]; [|by right].
    apply Hin in Hx as [[= -> ->]|[[= -> ->]|Hx]]; [done..|by left]. }
  assert (Ur : referenced r n = false).
  { apply unreferenced; [intros e; apply (own_unmapped n0 ts s n t _ r (wrapper fh) e Hcan I Ht); left|intros x; rewrite Hxr; by intros [= <-]|].
    intros h' x Hx Hc. destruct (decide (h' = r)) as [->|N1].
    { rewrite Hxr in Hx. injection Hx as <-. apply list_elem_of_singleton in Hc as ->. done. }
    destruct (decide (h' = fh)) as [->|N2]; [rewrite Hxf in Hx; injection Hx as <-; by apply elem_of_nil in Hc|].
    by apply (unheld n0 (<[t := OShared w]> ts) s r h' x Hcan Rr (Hnot r Hr) (Hrest h' x Hx N1 N2)). }
  assert (Uf : referenced fh n1 = false).
  { apply unreferenced; [intros e; apply (own_unmapped n0 ts s n t _ fh s3_handle e Hcan I Ht); right; left| |].
    - intros x. cbn [n1 n_heap set_heap]. rewrite lookup_delete_ne by done. rewrite Hxf. by intros [= <-].
    - intros h' x. cbn [n1 n_heap set_heap]. rewrite lookup_delete_Some. intros [N1 Hx] Hc.
      destruct (decide (h' = fh)) as [->|N2]; [rewrite Hxf in Hx; injection Hx as <-; by apply elem_of_nil in Hc|].
      by apply (unheld n0 (<[t := OShared w]> ts) s fh h' x Hcan Rf (Hnot fh Hfh) (Hrest h' x Hx (not_eq_sym N1) N2)). }
  exists n2. split.
  - cbn [open_advance]. unfold leave_part, drop_ref. unfold bind at 1.
    destruct (size (n_heap n)) as [|depth] eqn:Es; [by apply (map_size_ne_0_lookup_2 (n_heap n) r) in Es; [|by eexists]|].
    cbn [release]. rewrite Hxr, Ur. unfold bind, modify. cbn [wrapper newHandle h_kind]. fold n1.
    cbn [n1 n_heap set_heap]. rewrite lookup_delete_ne by done. fold n1. rewrite Hxf, Uf. reflexivity.
  - constructor; cbn [n2 n1 n_fileHandles n_heap n_next set_heap]; try apply I.
    + by apply (serves_same n), I.
    + rewrite P2. exact Hu.
    + intros h x Hx. apply (oi_range _ _ _ _ I h x), Hin. by right; right.
    + intros h x. rewrite !lookup_delete_Some. rewrite (oi_heap _ _ _ _ I), Hin. split.
      * intros (N2 & N1 & [[[= -> ->]|[[= -> ->]|Hx]]|Hx]); [done..|by left|by right].
      * intros [Hx|Hx].
        { split_and!; [intros ->; by apply (Hnot h Hfh x)|intros ->; by apply (Hnot h Hr x)|left; right; by right]. }
        apply (nw_heap n0 (proj1 Hcan)) in Hx as Hlt. destruct Hlt as [Hlt _]. split_and!; [lia|lia|by right].
    + apply Forall_insert; [apply I|]. pose proof (Forall_lookup_1 _ _ _ _ (oi_threads _ _ _ _ I) Ht) as Hf. exact Hf.
Qed.

Lemma file_inv n0 ts s n t w :
  can_open n0 -> open_inv n0 ts s n -> ts !! t = Some (OShared w) ->
  exists n', open_advance b k (OShared w) n = Done (ODone (inl (Value w))) n' /\
    open_inv n0 (<[t := ODone (inl (Value w))]> ts) s n'.
Proof using Type.
  intros (Hwf0 & _) I Ht. pose proof (Forall_lookup_1 _ _ _ _ (oi_threads _ _ _ _ I) Ht) as Hf. cbn [fits] in Hf.
  destruct s as [[w' fh]|]; [subst w'|done].
  destruct (entries_split ts t _ (ODone (inl (Value w))) Ht) as (l & l' & E1 & E2 & E3). cbn [is_done] in E3.
  set (d := done_count ts) in *. set (L := l ++ l').
  assert (A1 : all_entries ts (Some (w, fh)) = L ++ [(w, with_count d (wrapper fh)); (fh, s3_handle)]).
  { unfold all_entries. by rewrite E1. }
  assert (A2 : all_entries (<[t := ODone (inl (Value w))]> ts) (Some (w, fh)) =
               L ++ [(w, with_count (d + 1) (wrapper fh)); (fh, s3_handle)]).
  { unfold all_entries. rewrite E2, E3. replace (d - 0 + 1) with (d + 1) by lia. done. }
  assert (Hfst : map fst (all_entries (<[t := ODone (inl (Value w))]> ts) (Some (w, fh))) = map fst (all_entries ts (Some (w, fh)))).
  { by rewrite A1, A2, !map_app. }
  assert (Hx : n_heap n !! w = Some (with_count d (wrapper fh))).
  { apply (oi_heap _ _ _ _ I). left. rewrite A1. apply elem_of_app. right. left. }
  eexists. split.
  - cbn [open_advance]. unfold file_part. unfold bind at 1, the_handle. rewrite Hx. cbn [wrapper with_count newHandle h_isValid].
    unfold bind, modify, h_open, h_increaseOpenCount, update_handle, ret. unfold bind. reflexivity.
  - pose proof (oi_unique _ _ _ _ I) as Hu. rewrite A1, map_app in Hu. apply list.NoDup_app in Hu as (_ & Hd & Hu2). cbn [map fst] in Hd, Hu2.
    assert (Hwf : w <> fh) by (intros ->; apply list.NoDup_cons in Hu2 as [Hn _]; apply Hn; left).
    assert (HL : forall x, (w, x) ∉ L).
    { intros x Hin. apply (Hd w); [change w with (fst (w, x)); by apply list_elem_of_fmap_2|left]. }
    assert (Hr : (n_next n0 <= w < n_next n)%nat) by (apply (oi_range _ _ _ _ I w (with_count d (wrapper fh))); rewrite A1; apply elem_of_app; right; left).
    constructor; cbn [n_fileHandles n_heap n_next set_heap set_filesOpened]; try apply I.
    + by apply (serves_same n), I.
    + rewrite Hfst. apply I.
    + intros h x Hin. rewrite A2 in Hin. apply elem_of_app in Hin as [Hin|Hin].
      { apply (oi_range _ _ _ _ I h x). rewrite A1. apply elem_of_app. by left. }
      rewrite !elem_of_cons in Hin. destruct Hin as [[= -> _]|[[= -> ->]|Hin%elem_of_nil]]; [done| |done].
      apply (oi_range _ _ _ _ I fh s3_handle). rewrite A1. apply elem_of_app. right. right. left.
    + intros h x. rewrite A2, lookup_alter. case_decide as Eh.
      * subst h. rewrite Hx. cbn [fmap option_fmap option_map]. rewrite elem_of_app, !elem_of_cons. split.
        { intros [= <-]. left. right. by left. }
        intros [[Hin|[[= ->]|[[= E _]|Hin%elem_of_nil]]]|Hold]; [by apply HL in Hin|done|done|done|].
        apply (nw_heap n0 Hwf0) in Hold as [? _]. lia.
      * rewrite (oi_heap _ _ _ _ I), A1, !elem_of_app, !elem_of_cons. naive_solver.
    + apply Forall_insert; [apply I|done].
Qed.

(** The steps a thread still has to make, at most. *)
Definition steps_left (p : opener) : nat :=
  match p with
  | OBegin => 7 | OMissing => 6 | OLooked _ => 5 | OFetched _ => 4 | OWrapped _ _ => 3 | OLost _ _ _ => 2 | OShared _ => 1
  | ODone _ => 0
  end.

(** Every thread can make its next step, and comes closer to its return. *)
Lemma advance_inv n0 ts s n t p :
  can_open n0 -> open_inv n0 ts s n -> ts !! t = Some p ->
  exists p' s' n', open_advance b k p n = Done p' n' /\ open_inv n0 (<[t := p']> ts) s' n' /\
    (is_done p = true \/ (steps_left p' < steps_left p)%nat).
Proof using Type.
  intros Hcan I Ht. destruct p as [| |o|fh|r fh|r fh w|w|r].
  - destruct (find_inv n0 ts s n t Hcan I Ht) as (p' & E & I' & Hd & Hp). exists p', s, n. split; [done|]. split; [done|].
    right. destruct p'; done || (cbn [steps_left]; lia).
  - destruct (lookup_inv n0 ts s n t I Ht) as (o & n' & E & I'). exists (OLooked o), s, n'. split; [done|]. split; [done|]. right. cbn. lia.
  - destruct (handle_inv n0 ts s n t o Hcan I Ht) as (fh & n' & E & I'). exists (OFetched fh), s, n'. split; [done|]. split; [done|]. right. cbn. lia.
  - destruct (wrap_inv n0 ts s n t fh Hcan I Ht) as (r & n' & E & I'). exists (OWrapped r fh), s, n'. split; [done|]. split; [done|]. right. cbn. lia.
  - destruct (enter_inv n0 ts s n t r fh Hcan I Ht) as (p' & s' & n' & E & I' & Hp). exists p', s', n'. split; [done|]. split; [done|].
    right. destruct Hp as [->|[w ->]]; cbn; lia.
  - destruct (leave_inv n0 ts s n t r fh w Hcan I Ht) as (n' & E & I'). exists (OShared w), s, n'. split; [done|]. split; [done|]. right. cbn. lia.
  - destruct (file_inv n0 ts s n t w Hcan I Ht) as (n' & E & I'). exists (ODone (inl (Value w))), s, n'. split; [done|]. split; [done|]. right. cbn. lia.
  - exists (ODone r), s, n. split; [done|]. split; [by rewrite list_insert_id|by left].
Qed.

Lemma open_reach n0 count ts n :
  can_open n0 -> rtc (open_step b k) (replicate count OBegin, n0) (ts, n) ->
  (exists s, open_inv n0 ts s n) /\ length ts = count.
Proof using Type.
  intros Hcan Hr.
  assert (Hgen : forall x y, rtc (open_step b k) x y -> (exists s, open_inv n0 (fst x) s (snd x)) ->
            (exists s, open_inv n0 (fst y) s (snd y)) /\ length (fst y) = length (fst x)).
  { induction 1 as [x|x y z Hxy _ IH]; [done|]. intros [s I]. destruct Hxy as [t us p p' n1 n2 Ht E]. cbn [fst snd] in *.
    destruct (advance_inv n0 us s n1 t p Hcan I Ht) as (p2 & s' & n3 & E2 & I' & _). rewrite E2 in E. injection E as <- <-.
    destruct (IH (ex_intro _ s' I')) as [Hz Hl]. split; [done|]. by rewrite Hl, length_insert. }
  destruct (Hgen _ _ Hr) as [Hs Hl]; [by exists None; apply open_start|]. cbn [fst snd] in *. by rewrite length_replicate in Hl.
Qed.

(** What is read through the wrapper. *)
Lemma shared_read fuel w fh cnt n pos length :
  n_heap n !! w = Some (with_count cnt (wrapper fh)) -> n_heap n !! fh = Some s3_handle -> serves_open n ->
  0 <= pos -> 0 <= length -> pos + length < two64 -> (chunks_left length <= fuel)%nat ->
  exists n', gf_readBytes fuel w pos length n = Done (Value (Z.max 0 (Z.min length (len c - pos)), slice pos length c)) n'.
Proof using Type.
  intros Hw Hf [_ _ _ _ _ _ _ _ _ _ Hc] Hp Hl Hm Hfu.
  destruct (s3_read_step fuel 3 fh n s3_handle sb sk (len c) c pos length Hf eq_refl eq_refl Hc Hp Hl Hm Hfu) as (n' & E & _).
  exists n'. unfold gf_readBytes, DEPTH. erewrite readBytes_reloc by done.
  unfold reloc_readBytes. unfold bind at 1, the_handle. rewrite Hw. cbn [wrapper with_count newHandle h_kind].
  unfold bind at 1. rewrite E. done.
Qed.
End race.

(** ** Property *)

(** C9: threads that open the same object share one handle. However the steps of
    the threads interleave, each can always go on and has opened the file after at
    most seven steps of its own; when all have, they have the same handle, the one
    in the map, its open count is their number, the handles that came too late
    are gone, no other handle has changed, and reading gives the bytes of the object.
    (The opened files that are counted and the metadata cache do change.) *)
Theorem open_race (W X K T : Type) `{MDService W} `{S3Store X} `{KernelFair K} `{Transfers T}
    b k sb sk c i m count (n0 n : Node W X K T) ts :
  can_open b k sb sk c i m n0 -> rtc (open_step b k) (replicate count OBegin, n0) (ts, n) ->
  (forall t p, ts !! t = Some p -> exists p' n', open_advance b k p n = Done p' n' /\
     (is_done p = true \/ (steps_left p' < steps_left p)%nat)) /\
  ((1 <= count)%nat -> forallb is_done ts = true ->
   exists w fh,
     ts = replicate count (ODone (inl (Value w))) /\
     n_fileHandles n = massign (getPath b k) w (n_fileHandles n0) /\
     n_heap n = <[w := with_count (Z.of_nat count) (wrapper b k fh)]> (<[fh := s3_handle b k sb sk c i]> (n_heap n0)) /\
     forall fuel pos length, 0 <= pos -> 0 <= length -> pos + length < two64 -> (chunks_left length <= fuel)%nat ->
       exists n', gf_readBytes fuel w pos length n =
         Done (Value (Z.max 0 (Z.min length (len c - pos)), slice pos length c)) n').
Proof.
  intros Hcan Hr. destruct (open_reach b k sb sk c i m n0 count ts n Hcan Hr) as [[s I] Hl]. split.
  { intros t p Ht. destruct (advance_inv b k sb sk c i m n0 ts s n t p Hcan I Ht) as (p' & s' & n' & E & _ & Hd). by exists p', n'. }
  intros Hcount Hdone. assert (Hall : Forall (fun p => is_done p = true) ts).
  { apply List.Forall_forall. by apply forallb_forall. }
  pose proof (oi_threads _ _ _ _ _ _ _ _ _ _ _ I) as Hf.
  assert (Hs : exists w fh, s = Some (w, fh)).
  { destruct ts as [|p ts]; [simpl in Hl; lia|].
    pose proof (Forall_lookup_1 _ _ 0%nat p Hf eq_refl) as Hfp. pose proof (Forall_lookup_1 _ _ 0%nat p Hall eq_refl) as Hp.
    destruct s as [[w fh]|]; [by exists w, fh|]. by destruct p. }
  destruct Hs as (w & fh & ->).
  assert (Hts : ts = replicate count (ODone (inl (Value w)))).
  { symmetry. apply replicate_as_elem_of. split; [done|]. intros p (j & Hp)%list_elem_of_lookup. pose proof (Forall_lookup_1 _ _ _ _ Hf Hp) as Hfp.
    pose proof (Forall_lookup_1 _ _ _ _ Hall Hp) as Hd. destruct p; try done. cbn [fits] in Hfp. by rewrite Hfp. }
  assert (He : all_entries b k sb sk c i ts (Some (w, fh)) =
               [(w, with_count (Z.of_nat count) (wrapper b k fh)); (fh, s3_handle b k sb sk c i)]).
  { unfold all_entries, done_count. rewrite Hts. cbn [shared].
    assert (E1 : concat (map (entries b k sb sk c i) (replicate count (ODone (inl (Value w))))) = []) by (clear; induction count; done).
    assert (E2 : length (List.filter is_done (replicate count (ODone (inl (Value w))))) = count).
    { clear. induction count as [|count IH]; [done|]. cbn [replicate List.filter is_done length]. by rewrite IH. }
    by rewrite E1, E2. }
  pose proof I as [I1 I2 I3 I4 I5 I6 _]. rewrite He in I3, I4, I5. cbn [map fst] in I3.
  assert (Hne : w <> fh) by (intros ->; apply list.NoDup_cons in I3 as [Hn _]; apply Hn; left).
  assert (Hheap : n_heap n = <[w := with_count (Z.of_nat count) (wrapper b k fh)]> (<[fh := s3_handle b k sb sk c i]> (n_heap n0))).
  { apply map_eq. intros h. apply option_eq. intros x. rewrite I5, !elem_of_cons, !lookup_insert_Some. split.
    - intros [[[= -> ->]|[[= -> ->]|Hx%elem_of_nil]]|Hx]; [by left|right; by repeat split; try left|done|].
      right. destruct (nw_heap n0 (proj1 Hcan) h x Hx) as [Hlt _].
      assert (n_next n0 <= w < n_next n)%nat by (apply (I4 w (with_count (Z.of_nat count) (wrapper b k fh))); left).
      assert (n_next n0 <= fh < n_next n)%nat by (apply (I4 fh (s3_handle b k sb sk c i)); right; left).
      split; [lia|]. right. split; [lia|done].
    - intros [[<- <-]|[_ [[<- <-]|[_ Hx]]]]; [left; by left|left; right; by left|by right]. }
  exists w, fh. split; [exact Hts|]. split; [exact I2|]. split; [exact Hheap|].
  intros fuel pos length. apply (shared_read b k sb sk c i m fuel w fh (Z.of_nat count)); [|..|exact I1]; rewrite Hheap.
  - apply lookup_insert_eq.
  - by rewrite lookup_insert_ne, lookup_insert_eq.
Qed.

(** ** Witness *)

(** Running a schedule. *)
Fixpoint open_run {W X K T : Type} `{MDStub W} `{S3Client X} `{Kernel K} `{Transfers T}
    (b k : str) (schedule : list nat) (ts : list opener) (n : Node W X K T) : option (list opener * Node W X K T) :=
  match schedule with
  | [] => Some (ts, n)
  | t :: schedule =>
      match ts !! t with
      | None => None
      | Some p =>
          match open_advance b k p n with
          | Done p' n' => open_run b k schedule (<[t := p']> ts) n'
          | _ => None
          end
      end
  end.

Lemma open_run_steps {W X K T : Type} `{MDStub W} `{S3Client X} `{Kernel K} `{Transfers T}
    b k schedule ts (n : Node W X K T) y :
  open_run b k schedule ts n = Some y -> rtc (open_step b k) (ts, n) y.
Proof.
  revert ts n. induction schedule as [|t schedule IH]; intros ts n; cbn [open_run]; [by intros [= <-]|].
  destruct (ts !! t) as [p|] eqn:Ht; [|done]. destruct (open_advance b k p n) as [p' n'| |] eqn:E; [|done..].
  intros Hr. eapply rtc_l; [by eapply opens|]. by apply IH.
Qed.

#[local] Existing Instance the_stub.
#[local] Existing Instance the_service.

(** A process that has not opened the object yet. *)
Definition unopened_node : Node Server MemS3.world nat unit := set_heap ∅ 0 (set_fileHandles [] moved_node).

Lemma demo_can_open :
  can_open "bkt" "moved" "bkt" "moved" "payload" moved_info
    (<[("bkt" : str) := <[("moved" : str) := moved_info]> ∅]> {[("bkt" : str) := ∅]}) unopened_node.
Proof.
  split; [|split; [|reflexivity]].
  - constructor; [done|constructor|]. intros h x Hx. change ((∅ : gmap nat Handle) !! h = Some x) in Hx. by rewrite lookup_empty in Hx.
  - constructor; try reflexivity.
    + exact moved_store_abs.
    + apply empty_coherent.
    + by eexists.
    + by_decision.
    + by eexists.
Qed.

Definition both_opened (y : list opener * Node Server MemS3.world nat unit) : bool :=
  match fst y with [ODone _; ODone _] => true | _ => false end.

(** Both threads have a wrapper before the first one comes to enter its own, too late. *)
Lemma open_race_witness :
  exists ts n w fh n', rtc (open_step "bkt" "moved") (replicate 2 OBegin, unopened_node) (ts, n) /\
    ts = [ODone (inl (Value w)); ODone (inl (Value w))] /\
    n_heap n = <[w := with_count 2 (wrapper "bkt" "moved" fh)]> {[fh := s3_handle "bkt" "moved" "bkt" "moved" "payload" moved_info]} /\
    gf_readBytes 3 w 0 100 n = Done (Value (7, "payload" : str)) n'.
Proof.
  destruct (GEDSRace.run_with (open_run "bkt" "moved" [0; 0; 0; 0; 1; 1; 1; 1; 1; 0; 0; 1; 0]%nat (replicate 2 OBegin) unopened_node) both_opened)
    as ([ts n] & E & Hf); [vm_compute; reflexivity|].
  apply open_run_steps in E.
  destruct ts as [|[| | | | | | |r1] [|[| | | | | | |r2] [|]]]; try discriminate Hf.
  destruct (open_race Server MemS3.world nat unit "bkt" "moved" "bkt" "moved" "payload" moved_info _ 2 unopened_node n _ demo_can_open E)
    as [_ H].
  destruct (H ltac:(lia) eq_refl) as (w & fh & Ets & _ & Hheap & Hread).
  destruct (Hread 3%nat 0 100 ltac:(lia) ltac:(lia) ltac:(unfold two64; lia) ltac:(vm_compute; lia)) as (n' & En).
  eexists _, n, w, fh, n'. split; [exact E|]. split; [exact Ets|]. split; [exact Hheap|exact En].
Defined.
