(* ===== verification/Benchmarks.v ===== *)
(** * The programs that create objects for the benchmarks

    src/src/benchmarks/shuffle_serve.cpp and serve_pubsub.cpp: processes that fill a
    bucket with numbered objects, one after the other or from several threads, and
    then keep serving them. Flags are given as parsed; of the output the lines on
    the standard streams are modelled, not the log. Calls of [GEDS] from several
    threads run one at a time, in any order. *)

From Stdlib Require Import Ascii ZArith Lia.
From stdpp Require Import base gmap sets list strings numbers.
From S2P Require Import Prelude Bytes Decimal Status StdMap Path Object FileSet MDSKVSBucket MDSKVS S3Endpoint Rpc GEDSConfig.
From S2P Require Import MetadataServer MetadataService LocalFile ConcurrentMap GedsNames FileHandle.
From S2P Require Import Node Handles HandleIO GEDS GEDSCreate GEDSObjects GEDSRelocate Endian TcpConnection.
From S2P Require Import FileTransferService GEDSCopy GEDSStatus Commands Demo.

Open Scope Z_scope.
Open Scope list_scope.

#[local] Opaque to_string.

Definition KILOBYTE : Z := 1024.
Definition MEGABYTE : Z := KILOBYTE * KILOBYTE.

(** ** Settings *)

Record ShuffleServeFlags := mkShuffleServeFlags {
  sf_address : str;
  sf_localPort : Z;
  sf_gedsRoot : str;
  sf_bucket : str;
  sf_numFiles : Z;
  sf_fileSizeMB : Z
}.

Definition default_shuffle_serve : ShuffleServeFlags :=
  mkShuffleServeFlags ("localhost:" ++ to_string defaultMetdataServerPort) GEDSConfig.GEDSPort "/tmp/GEDS_XXXXXX"
    "benchmark" 75 18.

Record ServePubsubFlags := mkServePubsubFlags {
  pf_address : str;
  pf_localPort : Z;
  pf_gedsRoot : str;
  pf_bucket : str;
  pf_numFiles : Z;
  pf_fileSizeMB : Z;
  pf_numExecutors : Z;
  pf_pubSubEnabled : bool
}.

Definition default_serve_pubsub : ServePubsubFlags :=
  mkServePubsubFlags "10.40.1.4:50003" GEDSConfig.GEDSPort "/tmp/GEDS_XXXXXX" "benchmark" 1000 1 10 true.

(** The settings that every benchmark makes of its flags. *)
Definition benchmark_config (cpus : Z) (address : str) (localPort : Z) (gedsRoot : str) : GEDSConfig :=
  set_path gedsRoot (set_port localPort (newConfig cpus address)).

(** The text of a flag of type [bool], and [config.set("pub_sub_enabled", text)],
    whose status is not looked at. *)
Definition flag_text (b : bool) : str := if b then "true" else "false".
Definition pubsub_config (cpus : Z) (address : str) (localPort : Z) (gedsRoot : str) (pubSub : bool) : GEDSConfig :=
  fst (set_string "pub_sub_enabled" (flag_text pubSub) (benchmark_config cpus address localPort gedsRoot)).

(** ** Creating objects *)

Section program.
Context {W X K T : Type} `{MDStub W} `{S3Client X} `{Kernel K} `{Transfers T}.

(** [createFile]. [file->truncate] on a [StatusOr] without a value terminates the
    process. The random numbers fill a buffer that is not written to the file. *)
Definition serve_createFile (bucket : str) (fileNum sizeMB : Z) : Prog (W := W) (X := X) (K := K) (T := T) unit :=
  let fname := to_string fileNum in
  do file <- run_call (geds_create bucket fname false) ;;
  match file with
  | Error _ => fun _ => Crash
  | Value file =>
      do status <- run_call (h_truncate file (u64 (sizeMB * MEGABYTE))) ;;
      if negb (ok status) then pexit EXIT_FAILURE
      else
        do status <- run_call (h_seal file) ;;
        if negb (ok status) then pexit EXIT_FAILURE
        else run_call (close file)
  end.

(** [for (size_t i = 0; i < nFiles; i++)] *)
Fixpoint createFiles (bucket : str) (nums : list Z) (sizeMB : Z) : Prog (W := W) (X := X) (K := K) (T := T) unit :=
  match nums with
  | [] => pret tt
  | num :: nums => do _ <- serve_createFile bucket num sizeMB ;; createFiles bucket nums sizeMB
  end.

(** [sleep(10000000)]: whether the time has passed. *)
Definition sleeping (slept : bool) : Prog (W := W) (X := X) (K := K) (T := T) unit :=
  if slept then pret tt else ret ([], Waits).

Definition unable_to_start (st : Status) : line := Out ("Unable to start GEDS:" ++ message st).

(** [main] of shuffle_serve after the service was created. *)
Definition shuffle_serve (fl : ShuffleServeFlags) (b : Boot) (slept : bool) :
    Prog (W := W) (X := X) (K := K) (T := T) unit :=
  do status <- run_call (geds_start b) ;;
  if negb (ok status) then do _ <- print (unable_to_start status) ;; pexit EXIT_FAILURE
  else
    do _ <- createFiles (sf_bucket fl) (seqZ 0 (sf_numFiles fl)) (sf_fileSizeMB fl) ;;
    do _ <- sleeping slept ;;
    pexit EXIT_SUCCESS.

(** The numbers of the files that [runExecutorThread] creates. *)
Definition executor_files (filesPerExecutor executorId : Z) : list Z :=
  map (fun i => u64 (i + u64 (executorId * filesPerExecutor))) (seqZ 0 filesPerExecutor).

(** The thread that is scheduled goes on with its next file; a thread that is done
    is passed over. *)
Definition take_turn (t : nat) (threads : list (list Z)) : option (Z * list (list Z)) :=
  match threads !! t with
  | Some (num :: nums) => Some (num, <[t := nums]> threads)
  | _ => None
  end.

Definition all_done (threads : list (list Z)) : bool := forallb (fun nums => bool_decide (nums = [])) threads.

(** The executors until all have been joined. *)
Fixpoint run_executors (bucket : str) (sizeMB : Z) (schedule : list nat) (threads : list (list Z)) :
    Prog (W := W) (X := X) (K := K) (T := T) unit :=
  match schedule with
  | [] => if all_done threads then pret tt else ret ([], Waits)
  | t :: schedule =>
      match take_turn t threads with
      | None => run_executors bucket sizeMB schedule threads
      | Some (num, threads) =>
          do _ <- serve_createFile bucket num sizeMB ;; run_executors bucket sizeMB schedule threads
      end
  end.

(** [main] of serve_pubsub after the service was created; dividing by zero
    terminates the process. *)
Definition serve_pubsub (fl : ServePubsubFlags) (b : Boot) (schedule : list nat) (slept : bool) :
    Prog (W := W) (X := X) (K := K) (T := T) unit :=
  do status <- run_call (geds_start b) ;;
  if negb (ok status) then do _ <- print (unable_to_start status) ;; pexit EXIT_FAILURE
  else
    if pf_numExecutors fl =? 0 then fun _ => Crash
    else
      let filesPerExecutor := pf_numFiles fl / pf_numExecutors fl in
      do _ <- run_executors (pf_bucket fl) (pf_fileSizeMB fl) schedule
                (map (executor_files filesPerExecutor) (seqZ 0 (pf_numExecutors fl))) ;;
      do _ <- sleeping slept ;;
      pexit EXIT_SUCCESS.
End program.

(** ** Lemmas: settings *)

(** The string overload knows [pub_sub_enabled] only with the value [true]; the
    other value is refused and the setting stays as it was, which is off. *)
Lemma pubsub_config_flag cpus address localPort gedsRoot pubSub :
  GEDSConfig.pubSubEnabled (pubsub_config cpus address localPort gedsRoot pubSub) = pubSub /\
  ok (snd (set_string "pub_sub_enabled" (flag_text pubSub) (benchmark_config cpus address localPort gedsRoot))) = pubSub.
Proof. by destruct pubSub. Qed.

(** ** Lemmas: names *)

Lemma digits_no c s : is_digit c = false -> Forall is_digit s -> c ∉ s.
Proof. intros Hc Hs Hin. pose proof (Forall_elem _ _ _ Hs Hin : Is_true (is_digit c)) as Hd. by rewrite Hc in Hd. Qed.

Lemma contains_elem c p s : contains (c :: p) s = true -> c ∈ s.
Proof.
  induction s as [|x s IH]; [done|]. cbn [contains]. rewrite orb_true_iff. intros [E|E].
  - unfold starts_with in E. apply bool_decide_eq_true in E. cbn [length take] in E. injection E as -> _. by left.
  - right. by apply IH.
Qed.

Lemma number_no_slash num : 0 <= num -> "/"%char ∉ to_string num.
Proof. intros Hn. apply digits_no; [done|]. by apply to_string_digits. Qed.

Lemma number_valid b num : ok (isValidBucketName b) = true -> 0 <= num -> ok (isValid b (to_string num)) = true.
Proof.
  intros Hb Hn. destruct (valid_names b (to_string num)) as (_ & Hk & ->). rewrite Hb. apply Hk.
  pose proof (number_no_slash num Hn) as Hs. pose proof (to_string_digits num Hn) as Hd. split_and!.
  - apply to_string_nonempty.
  - intros E. apply Hs. apply last_Some in E as (l & ->). apply elem_of_app. right. by left.
  - destruct (starts_with "../" (to_string num)) eqn:E; [|done].
    apply (digits_no "." _ eq_refl) in Hd. contradict Hd.
    unfold starts_with in E. apply bool_decide_eq_true in E. rewrite <- (take_drop (length ("../" : str)) (to_string num)).
    apply elem_of_app. left. rewrite E. by left.
  - destruct (contains "/../" (to_string num)) eqn:E; [|done]. by apply contains_elem in E.
Qed.

(** ** Lemmas: one file *)

Section one_file.
Context {W X K T : Type} `{MDService W} `{S3Client X} `{KernelFair K} `{Transfers T}.
Implicit Types n : Node W X K T.

(** A process whose bucket [b] holds the local files [files] in numbered paths,
    all announced in the store [m]. *)
Record serving (b uri : str) (m : KvsSpec.state) (files : list (str * str)) n : Prop := {
  sg_wf : node_wf n;
  sg_running : n_state n = Running;
  sg_kernel : interrupts (n_kernel n) = 0%nat;
  sg_uri : n_hostURI n = uri;
  sg_knows : knows b m n;
  sg_names : names_wf (n_names n);
  sg_keys k : mfind (b ++ "/" ++ k) (fileNames (n_names n)) = None;
  sg_paths j i : 0 <= j -> fs_names (n_fs n) !! (n_pathPrefix n ++ "/" ++ b ++ "/" ++ to_string j) = Some i ->
    exists k c, (k, c) ∈ files /\ mfind k (fileNames (n_names n)) = Some j;
  sg_files k c : (k, c) ∈ files -> exists h i x, mfind (getPath b k) (n_fileHandles n) = Some h /\
    file_at h i c n /\ n_heap n !! h = Some x /\ h_isValid x = true /\ (i < fs_next (n_fs n))
}.

Lemma serving_unused b uri m files k n :
  serving b uri m files n -> k ∉ files.*1 -> fileNameCounter (n_names n) + 1 < two64 -> unused_path b k n.
Proof.
  intros S Hk Hc. unfold unused_path. pose proof (sg_names _ _ _ _ _ S) as Hw.
  destruct (fs_names (n_fs n) !! _) as [i|] eqn:E; [|done]. exfalso.
  unfold getLocalPath, cm_get in E. rewrite (sg_keys _ _ _ _ _ S) in E. unfold insertOrExists in E.
  destruct (mfind k (fileNames (n_names n))) as [j|] eqn:Ej; cbn [snd] in E.
  - destruct (sg_paths _ _ _ _ _ S j i) as (k' & c & Hin & Hj); [apply (nw_below _ Hw) in Ej; lia|exact E|].
    pose proof (nw_inj _ Hw _ _ _ Ej Hj) as <-. apply Hk. apply list_elem_of_fmap. by exists (k, c).
  - destruct (sg_paths _ _ _ _ _ S _ i (nw_counter _ Hw) E) as (k' & c & _ & Hj). apply (nw_below _ Hw) in Hj. lia.
Qed.

Lemma coherent_new cl m b k i :
  coherent cl m -> entry m b k = None -> coherent cl (<[b := <[k := i]> (default ∅ (m !! b))]> m).
Proof.
  intros (cm & Hk & Hcm) Hn. exists cm. split; [exact Hk|]. intros b' k' j Hj%Hcm. rewrite entry_insert. case_decide; [subst b'|done].
  rewrite lookup_insert_ne by (intros <-; congruence). by rewrite entry_default.
Qed.
(** Creating in a bucket that may be new. *)
Lemma resize_nil size : resize size [] = zeros size.
Proof using Type. unfold resize. change (len []) with 0. by rewrite Z.sub_0_r, take_nil. Qed.

(** What [createFile] changes after the bucket was looked up: a handle on a new
    file with the contents [c], open by nobody, sealed and announced. *)
Record file_created (b k c : str) (m : KvsSpec.state) n n' : Prop := {
  fc_same : n_state n' = n_state n /\ n_md n' = n_md n /\ n_pathPrefix n' = n_pathPrefix n /\
    n_hostURI n' = n_hostURI n /\ n_knownBuckets n' = n_knownBuckets n;
  fc_names : n_names n' = fst (getLocalPath (n_pathPrefix n) b k (n_names n));
  fc_paths : fs_names (n_fs n') =
    <[snd (getLocalPath (n_pathPrefix n) b k (n_names n)) := fs_next (n_fs n)]> (fs_names (n_fs n));
  fc_next_inode : fs_next (n_fs n') = fs_next (n_fs n) + 1;
  fc_inodes i : i <> fs_next (n_fs n) -> inode_data i (n_fs n') = inode_data i (n_fs n);
  fc_data : inode_data (fs_next (n_fs n)) (n_fs n') = c;
  fc_kernel : interrupts (n_kernel n') = 0%nat;
  fc_handles : n_fileHandles n' = massign (getPath b k) (n_next n) (n_fileHandles n);
  fc_next : n_next n' = S (n_next n);
  fc_heap : exists x f, n_heap n' = <[n_next n := x]> (n_heap n) /\ h_isValid x = true /\
    h_kind x = KLocal f (fs_next (n_fs n)) true /\ lf_wf (with_data c f);
  fc_store : svc_abs (n_mdw n') (<[b := <[k := mkInfo (n_hostURI n) (len c) (len c) None]> (default ∅ (m !! b))]> m)
}.

(** Creating when no file has the path: the whole state afterwards. *)
Lemma create_exact b k n n1 :
  geds_createBucket b n = Done OkStatus n1 -> n_state n = Running -> ok (isValid b k) = true ->
  interrupts (n_kernel n1) = 0%nat -> mfind (getPath b k) (n_fileHandles n1) = None -> unused_path b k n1 ->
  let '(names, p) := getLocalPath (n_pathPrefix n1) b k (n_names n1) in
  let i := fs_next (n_fs n1) in
  exists kern fs na, interrupts kern = 0%nat /\ geds_create b k false n = Done (Value (n_next n1)) na /\
    n_heap na = <[n_next n1 := with_count 1 (newHandle b k None (KLocal (mkLocalFile p 0 0 []) i false))]> (n_heap n1) /\
    na = set_heap (n_heap na) (S (n_next n1)) (set_filesCreated (n_filesCreated na)
      (set_fileHandles (massign (getPath b k) (n_next n1) (n_fileHandles n1)) (set_fs fs kern (set_names names n1)))) /\
    fs_names fs = <[p := i]> (fs_names (n_fs n1)) /\ fs_inodes fs = <[i := []]> (fs_inodes (n_fs n1)) /\ fs_next fs = i + 1.
Proof.
  intros E1 Hr Hv Hk Hf Hu. pose proof (create_after b k n n1 E1 Hr Hv Hk Hf) as HC. unfold unused_path in Hu.
  destruct (getLocalPath (n_pathPrefix n1) b k (n_names n1)) as [names p]. cbn [snd] in Hu. rewrite Hu in HC.
  destruct HC as (kern & fs & Hkern & E2 & Hnames & Hino & Hnext). cbn [default] in *.
  exists kern, fs. eexists. split; [done|]. split.
  { unfold geds_create. unfold bind at 1. rewrite E2. unfold bind, modify, h_open, h_increaseOpenCount, update_handle, ret.
    unfold bind. reflexivity. }
  cbn. rewrite alter_insert_eq. done.
Qed.

(** Closing a handle that is registered counts and nothing else. *)
Lemma close_exact q h n :
  sorted (n_fileHandles n) -> mfind q (n_fileHandles n) = Some h ->
  close h n = Done tt (set_heap (alter (fun x : Handle => released_at (n_now n) (with_count (h_openCount x - 1) x)) h (n_heap n)) (n_next n) n).
Proof. intros Hs Hq. unfold close, h_decreaseOpenCount, bind, gets, update_handle. by apply (drop_registered q). Qed.

Lemma createFile_step b num sizeMB m n n1 :
  let k := to_string num in let size := sizeMB * MEGABYTE in
  geds_createBucket b n = Done OkStatus n1 -> n_state n = Running -> n_state n1 = Running ->
  ok (isValid b k) = true -> interrupts (n_kernel n1) = 0%nat -> node_wf n1 ->
  mfind (getPath b k) (n_fileHandles n1) = None -> unused_path b k n1 ->
  asking (with_bucket b m) n1 -> 0 <= sizeMB -> size < INT64_MAX ->
  exists n', serve_createFile b num sizeMB n = Done ([], Returns tt) n' /\ file_created b k (zeros size) m n1 n'.
Proof.
  intros k size E1 Hr Hr1 Hv Hk Hw Hf Hu (Hc & Ha & _) Hs0 Hs.
  assert (0 <= size) as Hsize by (unfold size, MEGABYTE, KILOBYTE; lia).
  pose proof (create_exact b k n n1 E1 Hr Hv Hk Hf Hu) as HC.
  destruct (getLocalPath (n_pathPrefix n1) b k (n_names n1)) as [names p] eqn:Ep.
  set (i := fs_next (n_fs n1)) in *. set (h := n_next n1) in *. set (f := mkLocalFile p 0 0 []) in *. set (x := with_count 1 (newHandle b k None (KLocal f i false))) in HC.
  destruct HC as (kern & fs & na & Hkern & Ecr & Hha & Hna & Hnames & Hino & Hnext).
  assert (Hda : inode_data i (n_fs na) = []) by (rewrite Hna; cbn; unfold inode_data; by rewrite Hino, lookup_insert_eq).
  destruct (call_quiet kern Hkern) as (k' & Ek & Hk').
  assert (Hxa : n_heap na !! h = Some x) by (by rewrite Hha, lookup_insert_eq).
  assert (Eka : call (n_kernel na) = (k', Sys 0)) by (by rewrite Hna).
  pose proof (truncate_exact h na x f i false size k' Hxa eq_refl ltac:(done) Eka) as Etr.
  rewrite Hda, resize_nil in Etr. set (nb := set_fs _ _ _) in Etr.
  assert (Hhb : n_heap nb !! h = Some (with_kind (KLocal (with_data [] (with_size size f)) i false) x)) by (cbn; apply lookup_insert_eq).
  assert (Hm : with_bucket b m !! b = Some (default ∅ (m !! b))) by (unfold with_bucket; by rewrite lookup_insert_eq).
  destruct (seal_creates h nb _ (with_data [] (with_size size f)) i (with_bucket b m) (default ∅ (m !! b)) Hhb eq_refl)
    as (w & Hw' & Ese); [by cbn; rewrite Hna..|exact Hm|]. set (nc := set_heap _ _ (set_md _ _ _)) in Ese.
  assert (Hhc : n_fileHandles nc = massign (getPath b k) h (n_fileHandles n1)) by (cbn; by rewrite Hna).
  pose proof (close_exact (getPath b k) h nc) as Ecl. rewrite Hhc in Ecl.
  specialize (Ecl ltac:(apply massign_sorted, Hw) ltac:(apply mfind_massign_eq)). set (nd := set_heap _ _ nc) in Ecl.
  exists nd. split.
  { unfold serve_createFile. fold k. rewrite (pbind_call _ _ _ _ _ _ Ecr eq_refl). fold size.
    rewrite u64_small by (unfold is_u64, two64, INT64_MAX in *; lia).
    rewrite (pbind_call _ _ _ _ _ _ Etr eq_refl). change (ok OkStatus) with true. cbn [negb].
    rewrite (pbind_call _ _ _ _ _ _ Ese eq_refl). change (ok OkStatus) with true. cbn [negb]. by apply run_call_done. }
  clear Ecl Ese Etr. constructor; rewrite ?Ep; cbn; try (rewrite Hna; cbn; done).
  - rewrite Hna. cbn. intros j Hj. unfold inode_data. cbn. by rewrite Hino, !lookup_insert_ne.
  - unfold inode_data. cbn. by rewrite lookup_insert_eq.
  - exact Hk'.
  - rewrite Hha, insert_insert_eq, !alter_insert_eq. eexists _, _. split; [reflexivity|]. split; [done|]. split; [reflexivity|].
    constructor; cbn; [lia|by rewrite len_zeros|by rewrite len_zeros].
  - cbn in Hw'. rewrite len_zeros by done. rewrite Hna in Hw'. unfold with_bucket in Hw'. cbn in Hw'. by rewrite insert_insert_eq in Hw'.
Qed.
Lemma node_wf_created b k c m n n' : node_wf n -> file_created b k c m n n' -> node_wf n'.
Proof.
  intros [W1 W2 W3] F. destruct (fc_heap _ _ _ _ _ _ F) as (x & f & Hh & _ & Hk & _).
  constructor; rewrite ?(fc_handles _ _ _ _ _ _ F), ?(fc_next _ _ _ _ _ _ F).
  - by apply massign_sorted.
  - apply Forall_forall. intros [q h] Hin%list_elem_of_In%mfind_Some; [|by apply massign_sorted].
    rewrite mfind_massign in Hin by done. cbn [snd]. case_decide; [injection Hin as <-; lia|].
    apply mfind_Some in Hin; [|done]. pose proof (Forall_elem _ _ _ W2 Hin) as Hlt. cbn [snd] in Hlt. lia.
  - intros h y. rewrite Hh. destruct (decide (h = n_next n)) as [->|Hne].
    + rewrite lookup_insert_eq. intros [= <-]. split; [lia|]. unfold children. rewrite Hk. constructor.
    + rewrite lookup_insert_ne by done. intros Hy. destruct (W3 h y Hy) as [Hlt Hc]. split; [lia|].
      eapply Forall_impl; [|exact Hc]. cbn. intros. lia.
Qed.

Lemma getPath_key b k k' : getPath b k = getPath b k' -> k = k'.
Proof. intros E%(f_equal Path.name). cbn [getPath Path.name] in E. by apply app_inj_prefix, app_inj_prefix in E. Qed.

Lemma key_not_joined b k k' : "/"%char ∉ k -> k <> b ++ "/" ++ k'.
Proof. intros Hk ->. apply Hk. apply elem_of_app. right. by left. Qed.

Lemma getLocalPath_new prefix b k s :
  mfind (b ++ "/" ++ k) (fileNames s) = None -> names_wf s -> fileNameCounter s + 1 < two64 -> 
  exists j, snd (getLocalPath prefix b k s) = prefix ++ "/" ++ b ++ "/" ++ to_string j /\ 0 <= j /\
    mfind k (fileNames (fst (getLocalPath prefix b k s))) = Some j /\
    (forall q, q <> k -> mfind q (fileNames (fst (getLocalPath prefix b k s))) = mfind q (fileNames s)).
Proof.
  intros Hn Hw Hc. unfold getLocalPath, cm_get, insertOrExists. rewrite Hn.
  destruct (mfind k (fileNames s)) as [j|] eqn:Ej; cbn [fst snd fileNames].
  - exists j. apply (nw_below _ Hw) in Ej as Hj. split_and!; [done|lia|done|done].
  - exists (fileNameCounter s). pose proof (nw_counter _ Hw). split_and!; [done|lia|apply mfind_massign_eq|].
    intros q Hq. rewrite mfind_massign by apply Hw. by rewrite decide_False.
Qed.

Lemma serving_created b uri m files k c n n1 n' :
  serving b uri m files n -> learns n n1 -> knows b (with_bucket b m) n1 -> file_created b k c m n1 n' ->
  k ∉ files.*1 -> "/"%char ∉ k -> entry m b k = None -> fileNameCounter (n_names n) + 1 < two64 ->
  serving b uri (<[b := <[k := mkInfo uri (len c) (len c) None]> (default ∅ (m !! b))]> m) ((k, c) :: files) n'.
Proof.
  intros S (cl & w & l & Hn1) (Ha1 & Hs1 & Hk1) F Hk Hslash Hnew Hc.
  destruct (fc_same _ _ _ _ _ _ F) as (Est & Emd & Epr & Eu & Ekn).
  assert (Hn : n_hostURI n1 = uri /\ n_state n1 = Running /\ n_pathPrefix n1 = n_pathPrefix n /\ n_names n1 = n_names n /\
    n_fs n1 = n_fs n /\ n_heap n1 = n_heap n /\ n_fileHandles n1 = n_fileHandles n /\ n_next n1 = n_next n).
  { rewrite Hn1. split_and!; try done; apply S. }
  destruct Hn as (Hu & Hr & Hpr & Hnm & Hfs & Hhp & Hfh & Hnx).
  pose proof (sg_names _ _ _ _ _ S) as Hw. pose proof (sg_wf _ _ _ _ _ S) as Hwf.
  pose proof (getLocalPath_spec (n_pathPrefix n) b k (n_names n) Hw Hc) as Hsp.
  destruct (getLocalPath_new (n_pathPrefix n) b k (n_names n) (sg_keys _ _ _ _ _ S k) Hw Hc) as (j & Ep & Hj & Hkj & Hother).
  pose proof (fc_names _ _ _ _ _ _ F) as En. pose proof (fc_paths _ _ _ _ _ _ F) as Ef. rewrite Hpr, Hnm in En, Ef.
  rewrite Ep in Ef. destruct (getLocalPath (n_pathPrefix n) b k (n_names n)) as [names p]. cbn [fst snd] in *.
  destruct Hsp as (Hw' & _ & _ & _).
  constructor; rewrite ?Est, ?Epr, ?Hpr, ?Hr, ?Eu; try done.
  - apply (node_wf_created b k c m n1); [|done]. destruct Hwf as [W1 W2 W3].
    constructor; rewrite ?Hfh, ?Hnx, ?Hhp; done.
  - apply (fc_kernel _ _ _ _ _ _ F).
  - destruct Ha1 as (Hc1 & _ & Hco). split; [split; [by rewrite Emd|split]|split].
    + rewrite <- Hu. apply (fc_store _ _ _ _ _ _ F).
    + rewrite Emd. apply (coherent_new _ _ b k (mkInfo uri (len c) (len c) None)) in Hco.
      * unfold with_bucket in Hco. rewrite lookup_insert_eq, insert_insert_eq in Hco. exact Hco.
      * unfold with_bucket. rewrite entry_insert, decide_True by done. by rewrite entry_default.
    + by rewrite Ekn.
    + intros _. by rewrite lookup_insert_eq.
  - by rewrite En.
  - intros k'. rewrite En, Hother; [apply S|]. intros E. by apply (key_not_joined b k k') in Hslash.
  - intros j' i' Hj'. rewrite Ef, En. destruct (decide (j' = j)) as [->|Hne].
    { exists k, c. split; [by left|done]. }
    rewrite lookup_insert_ne.
    + intros E. rewrite Hfs in E. destruct (sg_paths _ _ _ _ _ S j' i' Hj' E) as (k' & c' & Hin & Hk').
      exists k', c'. split; [by right|]. rewrite Hother; [done|]. intros ->. apply Hk, list_elem_of_fmap. by exists (k, c').
    + intros E. do 4 apply app_inj_prefix in E. apply to_string_inj in E; [done|lia..].
  - destruct (fc_heap _ _ _ _ _ _ F) as (x & f & Hh & Hv & Hkd & Hlw). rewrite Hhp, Hnx in Hh.
    rewrite (fc_next_inode _ _ _ _ _ _ F), (fc_handles _ _ _ _ _ _ F), Hfh, Hnx, Hh. rewrite Hfs in *.
    intros k' c' [[= -> ->]|Hin]%elem_of_cons.
    + exists (n_next n), (fs_next (n_fs n)), x. split; [apply mfind_massign_eq|].
      split; [|split; [apply lookup_insert_eq|split; [done|lia]]]. exists x, f, true. rewrite Hh, lookup_insert_eq.
      split; [done|split; [done|split; [done|rewrite <- Hfs; apply (fc_data _ _ _ _ _ _ F)]]].
    + destruct (sg_files _ _ _ _ _ S k' c' Hin) as (h & i & y & Hf & (y' & g & s & Hy' & Hgk & Hgw & Hd) & Hy & Hyv & Hlt).
      assert (Hkk : k' <> k) by (intros ->; apply Hk, list_elem_of_fmap; by exists (k, c')).
      assert (Hhn : h <> n_next n) by (intros ->; apply Hwf in Hy' as [? _]; lia).
      exists h, i, y. rewrite mfind_massign, decide_False by (apply Hwf || (intros E%getPath_key; congruence)).
      rewrite lookup_insert_ne by done. split; [done|]. split; [|split; [done|split; [done|lia]]].
      exists y', g, s. rewrite Hh, lookup_insert_ne by done. split; [done|split; [done|split; [done|]]].
      rewrite (fc_inodes _ _ _ _ _ _ F), Hfs; [done|]. rewrite Hfs. lia.
Qed.
(** The object [b/num] is neither open in the process nor in the store. *)
Definition absent (b : str) (m : KvsSpec.state) (num : Z) n : Prop :=
  mfind (getPath b (to_string num)) (n_fileHandles n) = None /\ entry m b (to_string num) = None.

(** The store after announcing the objects [nums]. *)
Definition announced_at (uri : str) (size : Z) : ObjectInfo := mkInfo uri size size None.
Definition announce (b uri : str) (size : Z) (nums : list Z) (m : KvsSpec.state) : KvsSpec.state :=
  fold_left (fun m num => <[b := <[to_string num := announced_at uri size]> (default ∅ (m !! b))]> m) nums m.

(** [createFile] creates an object that is not there. *)
Lemma serving_createFile b uri m files num sizeMB n :
  serving b uri m files n -> ok (isValidBucketName b) = true -> 0 <= num -> absent b m num n ->
  to_string num ∉ files.*1 -> fileNameCounter (n_names n) + 1 < two64 ->
  0 <= sizeMB -> sizeMB * MEGABYTE < INT64_MAX ->
  exists n', serve_createFile b num sizeMB n = Done ([], Returns tt) n' /\
    serving b uri (announce b uri (sizeMB * MEGABYTE) [num] m) ((to_string num, zeros (sizeMB * MEGABYTE)) :: files) n' /\
    fileNameCounter (n_names n') <= fileNameCounter (n_names n) + 1 /\
    (forall k, k <> to_string num -> mfind (getPath b k) (n_fileHandles n') = mfind (getPath b k) (n_fileHandles n)).
Proof.
  intros S Hb Hnum [Hf He] Hnin Hc Hs0 Hs. pose proof (sg_wf _ _ _ _ _ S) as [W1 W2 W3].
  assert (0 <= sizeMB * MEGABYTE) as Hsize by (unfold MEGABYTE, KILOBYTE; lia).
  destruct (node_createBucket_step b n m Hb (sg_knows _ _ _ _ _ S)) as (n1 & E1 & L & K1 & _).
  pose proof L as (cl & w & l & Hn1).
  assert (Hu : unused_path b (to_string num) n1) by (rewrite Hn1; exact (serving_unused b uri m files _ n S Hnin Hc)).
  assert (Hw1 : node_wf n1) by (rewrite Hn1; by constructor).
  assert (Hn : n_state n1 = Running /\ interrupts (n_kernel n1) = 0%nat /\ n_fileHandles n1 = n_fileHandles n)
    by (rewrite Hn1; split_and!; try done; apply S).
  destruct Hn as (Hr1 & Hk1 & Hf1).
  destruct (createFile_step b num sizeMB m n n1 E1 (sg_running _ _ _ _ _ S) Hr1 (number_valid b num Hb Hnum) Hk1 Hw1)
    as (n' & E & F); [by rewrite Hf1|exact Hu|apply K1|done|done|].
  exists n'. split; [exact E|].
  pose proof (serving_created b uri m files _ _ n n1 n' S L K1 F Hnin (number_no_slash num Hnum) He Hc) as S'.
  rewrite len_zeros in S' by done. split; [exact S'|].
  rewrite (fc_names _ _ _ _ _ _ F), (fc_handles _ _ _ _ _ _ F), Hn1. cbn [n_pathPrefix n_names n_fileHandles set_knownBuckets set_md].
  split.
  - pose proof (getLocalPath_spec (n_pathPrefix n) b (to_string num) (n_names n) (sg_names _ _ _ _ _ S) Hc) as Hsp.
    destruct (getLocalPath _ _ _ _) as [names p]. apply Hsp.
  - intros k Hk. rewrite mfind_massign, decide_False by (done || (intros E2%getPath_key; congruence)). done.
Qed.

(** [createFiles] creates objects that are not there. *)
Lemma serving_createFiles b uri sizeMB nums m files n :
  serving b uri m files n -> ok (isValidBucketName b) = true -> 0 <= sizeMB -> sizeMB * MEGABYTE < INT64_MAX ->
  NoDup nums -> (forall num, num ∈ nums -> 0 <= num /\ absent b m num n /\ to_string num ∉ files.*1) ->
  fileNameCounter (n_names n) + Z.of_nat (length nums) < two64 ->
  exists n', createFiles b nums sizeMB n = Done ([], Returns tt) n' /\
    serving b uri (announce b uri (sizeMB * MEGABYTE) nums m)
      (rev (map (fun num => (to_string num, zeros (sizeMB * MEGABYTE))) nums) ++ files) n'.
Proof.
  intros S Hb Hs0 Hs. revert m files n S. induction nums as [|num nums IH]; intros m files n S Hd Hn Hc.
  { exists n. by split. }
  apply list.NoDup_cons in Hd as [Hnin Hd]. cbn [length] in Hc.
  destruct (Hn num ltac:(by left)) as (H0' & Hab & Hfi).
  destruct (serving_createFile b uri m files num sizeMB n S Hb H0' Hab Hfi ltac:(lia) Hs0 Hs) as (n1 & E1 & S1 & C1 & Hfh).
  destruct (IH _ _ n1 S1 Hd) as (n' & E & S'); [|lia|].
  - intros num' Hin. destruct (Hn num' ltac:(by right)) as (Hn' & [Hf' He'] & Hfi').
    assert (Hne : to_string num' <> to_string num) by (intros Es%to_string_inj; [by subst num'|done..]).
    split; [done|]. split; [split|].
    + by rewrite Hfh.
    + cbn [announce fold_left]. rewrite entry_insert, decide_True, lookup_insert_ne by done. by rewrite entry_default.
    + cbn [fmap list_fmap fst]. by apply not_elem_of_cons.
  - exists n'. split.
    + cbn [createFiles]. exact (pbind_returns _ _ _ _ [] tt [] (Returns tt) n' E1 E).
    + cbn [map rev]. rewrite <- app_assoc. exact S'.
Qed.

(** What the store says after announcing. *)
Lemma announce_entry b uri size nums m b' k :
  entry (announce b uri size nums m) b' k =
    if decide (b' = b /\ k ∈ map to_string nums) then Some (announced_at uri size) else entry m b' k.
Proof using Type.
  revert m. induction nums as [|num nums IH]; intros m.
  { rewrite decide_False; [done|]. by intros [_ ?%elem_of_nil]. }
  cbn [announce fold_left map]. fold (announce b uri size nums). unfold announce in IH. rewrite IH. clear IH.
  rewrite entry_insert. destruct (decide (b' = b /\ k ∈ map to_string nums)) as [[-> Hk]|Hn].
  - rewrite decide_True; [done|]. split; [done|by right].
  - destruct (decide (b = b')) as [<-|Hne]; [|by rewrite decide_False by naive_solver].
    rewrite lookup_insert, entry_default. destruct (decide (to_string num = k)) as [<-|Hne].
    + rewrite decide_True; [done|]. split; [done|by left].
    + rewrite decide_False; [done|]. intros [_ [->|Hk]%elem_of_cons]; [done|]. by apply Hn.
Qed.

Lemma serving_reads_back b uri m files k c n fuel :
  serving b uri m files n -> ok (isValid b k) = true -> (k, c) ∈ files -> len c < Z.of_nat fuel -> reads_back fuel b k c n.
Proof.
  intros S Hv Hin Hf. destruct (sg_files _ _ _ _ _ S k c Hin) as (h & i & x & Hh & Hfile & Hx & Hval & _).
  apply (served_reads_back fuel b k c n h). apply (served_of_file fuel b k c n h i x); try done; try apply S.
  rewrite (sg_kernel _ _ _ _ _ S). unfold len in *. lia.
Qed.
End one_file.

(** ** Lemmas: executors *)

(** The order in which the files are created, and what is left of each thread. *)
Fixpoint order (schedule : list nat) (threads : list (list Z)) : list Z * list (list Z) :=
  match schedule with
  | [] => ([], threads)
  | t :: schedule =>
      match take_turn t threads with
      | None => order schedule threads
      | Some (num, threads) => let '(nums, rest) := order schedule threads in (num :: nums, rest)
      end
  end.

Lemma take_turn_Permutation t threads num threads' :
  take_turn t threads = Some (num, threads') -> concat threads ≡ₚ num :: concat threads'.
Proof.
  unfold take_turn. intros E. destruct (threads !! t) as [[|num' nums]|] eqn:Et; [done| |done].
  injection E as <- <-. apply take_drop_middle in Et as Es. rewrite insert_take_drop by by eapply lookup_lt_Some.
  rewrite <- Es at 1. rewrite !concat_app. cbn [concat]. solve_Permutation.
Qed.

Lemma order_Permutation schedule threads :
  fst (order schedule threads) ++ concat (snd (order schedule threads)) ≡ₚ concat threads.
Proof.
  revert threads. induction schedule as [|t schedule IH]; intros threads; [done|]. cbn [order].
  destruct (take_turn t threads) as [[num threads']|] eqn:E; [|apply IH].
  rewrite (take_turn_Permutation _ _ _ _ E), <- (IH threads'). by destruct (order schedule threads').
Qed.

(** Every turn takes the next file of its thread. *)
Lemma order_rest schedule threads t :
  snd (order schedule threads) !! t = drop (count_occ Nat.eq_dec schedule t) <$> threads !! t.
Proof.
  revert threads. induction schedule as [|u schedule IH]; intros threads.
  { cbn [order snd count_occ]. by destruct (threads !! t). }
  cbn [order count_occ]. unfold take_turn.
  destruct (threads !! u) as [[|num nums]|] eqn:Eu.
  - rewrite IH. destruct (Nat.eq_dec u t) as [->|]; [|done]. rewrite Eu. cbn. by rewrite drop_nil.
  - assert (E : snd (let '(l, r) := order schedule (<[u:=nums]> threads) in (num :: l, r)) = snd (order schedule (<[u:=nums]> threads)))
      by (by destruct (order schedule _)).
    rewrite E, IH. destruct (Nat.eq_dec u t) as [->|Hne].
    + rewrite list_lookup_insert_eq by by eapply lookup_lt_Some. by rewrite Eu.
    + by rewrite list_lookup_insert_ne.
  - rewrite IH. destruct (Nat.eq_dec u t) as [->|]; [by rewrite Eu|done].
Qed.

(** Threads that have had as many turns as files are done. *)
Lemma order_complete schedule threads :
  (forall t nums, threads !! t = Some nums -> (length nums <= count_occ Nat.eq_dec schedule t)%nat) ->
  all_done (snd (order schedule threads)) = true /\ fst (order schedule threads) ≡ₚ concat threads.
Proof.
  intros Ht. assert (Hr : forall nums, nums ∈ snd (order schedule threads) -> nums = []).
  { intros nums [t Hl]%list_elem_of_lookup. rewrite order_rest in Hl. apply fmap_Some in Hl as (l & Hl & ->).
    by apply drop_ge, Ht. }
  split.
  - unfold all_done. apply forallb_forall. intros nums Hin%list_elem_of_In. apply bool_decide_eq_true. by apply Hr.
  - rewrite <- (order_Permutation schedule threads).
    assert (concat (snd (order schedule threads)) = []) as ->; [|by rewrite app_nil_r].
    revert Hr. generalize (snd (order schedule threads)). intros l Hr. induction l as [|x l IH]; [done|].
    cbn [concat]. rewrite (Hr x) by (by left). apply IH. intros y Hy. apply Hr. by right.
Qed.

(** The files of all executors are the numbers from 0. *)
Lemma executor_files_all per ex :
  0 <= per -> 0 <= ex -> ex * per < two64 -> concat (map (executor_files per) (seqZ 0 ex)) = seqZ 0 (ex * per).
Proof.
  intros Hp He. pattern ex. apply natlike_ind; [by rewrite seqZ_nil by lia| |exact He].
  intros e He' IH Hlt. replace (Z.succ e) with (e + 1) by lia. rewrite seqZ_app by lia. rewrite map_app, concat_app, IH by lia.
  rewrite Z.mul_add_distr_r, (seqZ_app 0 (e * per)), Z.mul_1_l by lia. f_equal.
  rewrite seqZ_cons, seqZ_nil by lia. cbn [map concat]. rewrite app_nil_r. unfold executor_files.
  rewrite !Z.add_0_l. replace (seqZ (e * per) per) with (Z.add (e * per) <$> seqZ 0 per)
    by (rewrite fmap_add_seqZ; f_equal; lia). apply map_ext_in. intros i Hi%list_elem_of_In%elem_of_seqZ.
  rewrite (u64_small (e * per)), u64_small by (unfold is_u64; nia). lia.
Qed.

Section executors.
Context {W X K T : Type} `{MDStub W} `{S3Client X} `{Kernel K} `{Transfers T}.
Implicit Types n : Node W X K T.

Lemma pbind_cong {A B} (p : Prog A) (k k' : A -> Prog B) n :
  (forall a n, k a n = k' a n) -> pbind p k n = pbind p k' n.
Proof using Type.
  intros E. unfold pbind, bind. destruct (p n) as [[l [a|code| |]] n1| |]; try done. by rewrite E.
Qed.

Lemma pbind_assoc {A B C} (p : Prog A) (k : A -> Prog B) (k' : B -> Prog C) n :
  pbind (pbind p k) k' n = pbind p (fun a => pbind (k a) k') n.
Proof using Type.
  unfold pbind, bind, ret. destruct (p n) as [[l [a|code| |]] n1| |]; try done.
  destruct (k a n1) as [[l' [b|code| |]] n2| |]; try done.
  destruct (k' b n2) as [[l'' e] n3| |]; [|done..]. by rewrite app_assoc.
Qed.

(** The executors create the files in that order. *)
Lemma run_executors_order b sizeMB schedule threads n :
  run_executors b sizeMB schedule threads n =
    (do _ <- createFiles b (fst (order schedule threads)) sizeMB ;;
     if all_done (snd (order schedule threads)) then pret tt else ret ([], Waits)) n.
Proof.
  revert threads n. induction schedule as [|t schedule IH]; intros threads n.
  { cbn [run_executors order fst snd createFiles]. unfold pbind, pret, bind, ret. by destruct (all_done threads). }
  cbn [run_executors order]. destruct (take_turn t threads) as [[num threads']|]; [|apply IH].
  rewrite (pbind_cong _ _ (fun _ => do _ <- createFiles b (fst (order schedule threads')) sizeMB ;;
     if all_done (snd (order schedule threads')) then pret tt else ret ([], Waits))) by (intros; apply IH).
  destruct (order schedule threads') as [nums rest]. cbn [fst snd createFiles]. by rewrite pbind_assoc.
Qed.
End executors.

(** ** Properties *)

Section properties.
Context {W X K T : Type} `{MDService W} `{S3Client X} `{KernelFair K} `{Transfers T}.
Implicit Types n : Node W X K T.

(** A running process that has created nothing yet: it has no open file and no
    local file in the directory of the bucket [b], and the store has no object
    with one of the first [count] numbers. *)
Record fresh (b : str) (count : Z) (m : KvsSpec.state) n : Prop := {
  fr_serving : serving b (n_hostURI n) m [] n;
  fr_bucket : ok (isValidBucketName b) = true;
  fr_counter : fileNameCounter (n_names n) + count < two64;
  fr_absent num : 0 <= num < count -> absent b m num n
}.

(** After creating [count] numbered objects of [size] bytes, each of them can be
    opened and read, consists of zero bytes, and is announced at this process;
    nothing else changed in the store. *)
Definition serves_numbers (b uri : str) (size count : Z) (m : KvsSpec.state) n' : Prop :=
  exists m', svc_abs (n_mdw n') m' /\
    (forall b' k, entry m' b' k = if decide (b' = b /\ k ∈ map to_string (seqZ 0 count))
                                  then Some (mkInfo uri size size None) else entry m b' k) /\
    forall num fuel, 0 <= num < count -> size < Z.of_nat fuel -> reads_back fuel b (to_string num) (zeros size) n'.

Lemma NoDup_seqZ_perm nums count : nums ≡ₚ seqZ 0 count -> NoDup nums.
Proof using Type. intros ->. apply NoDup_seqZ. Qed.

Lemma create_numbers b sizeMB nums count m n :
  fresh b count m n -> 0 <= sizeMB -> sizeMB * MEGABYTE < INT64_MAX -> 0 <= count -> nums ≡ₚ seqZ 0 count ->
  exists n', createFiles b nums sizeMB n = Done ([], Returns tt) n' /\
    serves_numbers b (n_hostURI n) (sizeMB * MEGABYTE) count m n'.
Proof.
  intros [S Hb Hc Hab] Hs0 Hs Hcount Hperm.
  assert (Hin : forall num, num ∈ nums <-> 0 <= num < count) by (intros num; rewrite Hperm, elem_of_seqZ; lia).
  assert (Hsize : 0 <= sizeMB * MEGABYTE) by (unfold MEGABYTE, KILOBYTE; lia).
  destruct (serving_createFiles b (n_hostURI n) sizeMB nums m [] n S Hb Hs0 Hs) as (n' & E & S').
  - by eapply NoDup_seqZ_perm.
  - intros num Hnum%Hin. split; [lia|]. split; [by apply Hab|]. by intros ?%elem_of_nil.
  - rewrite (Permutation_length Hperm), length_seqZ. lia.
  - exists n'. split; [exact E|]. destruct (sg_knows _ _ _ _ _ S') as ((_ & Ha & _) & _). eexists. split; [exact Ha|]. split.
    + intros b' k. rewrite announce_entry. unfold announced_at.
      apply decide_ext. by rewrite Hperm.
    + intros num fuel Hnum Hfuel. apply (serving_reads_back _ _ _ _ _ _ _ _ S').
      * apply number_valid; [done|lia].
      * rewrite app_nil_r. apply list_elem_of_In. rewrite <- in_rev. apply in_map_iff. exists num. split; [done|].
        by apply list_elem_of_In, Hin.
      * by rewrite len_zeros.
Qed.

(** What shuffle_serve leaves. A process that starts and whose bucket has none of
    the objects yet creates the objects with the numbers below [numFiles], every one
    with [fileSizeMB] megabytes that are all zero, whatever random numbers were
    drawn; they are announced at this process, nothing else changes in the store, and
    the process then waits. *)
Theorem shuffle_serve_exact fl bt m n n1 st :
  geds_start bt n = Done st n1 -> ok st = true -> fresh (sf_bucket fl) (sf_numFiles fl) m n1 ->
  0 <= sf_numFiles fl -> 0 <= sf_fileSizeMB fl -> sf_fileSizeMB fl * MEGABYTE < INT64_MAX ->
  exists n', shuffle_serve fl bt false n = Done ([], Waits) n' /\
    serves_numbers (sf_bucket fl) (n_hostURI n1) (sf_fileSizeMB fl * MEGABYTE) (sf_numFiles fl) m n'.
Proof.
  intros Est Hok Hf Hn Hs0 Hs.
  destruct (create_numbers _ _ (seqZ 0 (sf_numFiles fl)) _ m n1 Hf Hs0 Hs Hn) as (n' & E & R); [done|].
  exists n'. split; [|exact R]. unfold shuffle_serve. rewrite (pbind_call _ _ _ _ _ _ Est eq_refl), Hok. cbn [negb].
  apply (pbind_returns _ _ _ _ [] tt [] Waits n' E). done.
Qed.

(** What serve_pubsub leaves. When every executor gets at least as many turns as
    it has files, then in whatever order the turns come, the objects with the numbers
    below [numExecutors * (numFiles / numExecutors)] are created, each once, and all
    others of the [numFiles] objects are not: the remainder of the division is left
    out. Without executors the process is terminated. *)
Theorem serve_pubsub_exact fl bt schedule m n n1 st :
  let ex := pf_numExecutors fl in let per := pf_numFiles fl / ex in
  geds_start bt n = Done st n1 -> ok st = true -> fresh (pf_bucket fl) (pf_numFiles fl) m n1 ->
  0 <= ex -> 0 <= pf_numFiles fl < two64 -> 0 <= pf_fileSizeMB fl -> pf_fileSizeMB fl * MEGABYTE < INT64_MAX ->
  (forall t, (t < Z.to_nat ex)%nat -> (Z.to_nat per <= count_occ Nat.eq_dec schedule t)%nat) ->
  if ex =? 0 then serve_pubsub fl bt schedule false n = Crash
  else exists n', serve_pubsub fl bt schedule false n = Done ([], Waits) n' /\
    serves_numbers (pf_bucket fl) (n_hostURI n1) (pf_fileSizeMB fl * MEGABYTE) (ex * per) m n'.
Proof.
  intros ex per Est Hok Hf Hex Hn Hs0 Hs Hsch. unfold serve_pubsub. rewrite (pbind_call _ _ _ _ _ _ Est eq_refl), Hok. cbn [negb].
  fold ex. destruct (Z.eqb_spec ex 0) as [E0|Hne]; [done|]. fold per.
  assert (Hper : 0 <= per) by (apply Z.div_pos; lia).
  assert (Htot : ex * per <= pf_numFiles fl) by (apply Z.mul_div_le; lia).
  set (threads := map (executor_files per) (seqZ 0 ex)).
  destruct (order_complete schedule threads) as [Hdone Hperm].
  { intros t nums Ht. apply list_lookup_fmap_Some in Ht as (e & -> & He). apply lookup_lt_Some in He as Hlt.
    rewrite length_seqZ in Hlt. unfold executor_files. rewrite length_map, length_seqZ. apply Hsch. lia. }
  unfold threads in Hperm. rewrite executor_files_all in Hperm by lia. fold threads in Hperm.
  destruct Hf as [S Hb Hc Hab].
  destruct (create_numbers (pf_bucket fl) (pf_fileSizeMB fl) (fst (order schedule threads)) (ex * per) m n1) as (n' & E & R); try done; [|nia|].
  { constructor; [done..|lia|]. intros num Hnum. apply Hab. lia. }
  exists n'. split; [|exact R].
  apply (pbind_returns _ _ n1 n' [] tt [] Waits n'); [|done]. rewrite run_executors_order, Hdone.
  by apply (pbind_returns _ _ n1 n' [] tt [] (Returns tt) n').
Qed.
End properties.

(** ** Witnesses *)

#[local] Transparent to_string.
#[local] Existing Instance the_stub.
#[local] Existing Instance the_service.

Definition new_server : Node Server MemS3.world nat unit :=
  set_state Stopped
    (set_hostURI [] (set_md (newMetadataService (ms_uuid connected_client) (ms_serverAddress connected_client) None)
                       demo_server demo_node)).

Definition started_server : Node Server MemS3.world nat unit :=
  set_state Running (set_hostURI (computeHostUri "node1" 4382) (set_md connected_client demo_server demo_node)).

Lemma server_starts : geds_start boot_ok new_server = Done OkStatus started_server.
Proof. reflexivity. Qed.

Lemma started_server_fresh count : 0 <= count < two64 -> fresh "bkt" count {[("bkt" : str) := ∅]} started_server.
Proof.
  intros Hc. assert (Hentry : forall k : str, entry {[("bkt" : str) := ∅]} "bkt" k = None).
  { intros k. unfold entry. by rewrite lookup_singleton_eq. }
  constructor; [|reflexivity|cbn [started_server n_names set_state set_hostURI set_md demo_node newFileNames fileNameCounter]; lia|done].
  constructor; try reflexivity.
  - destruct demo_node_wf. by constructor.
  - split; [split; [reflexivity|split; [apply (newKVS_abs (Some ("bkt" : str)))|apply empty_coherent]]|].
    split; [split; constructor|]. intros _. by rewrite lookup_singleton_eq.
  - apply newFileNames_wf.
  - intros j i _ E. cbn [started_server n_fs set_state set_hostURI set_md demo_node fs_names] in E. by rewrite lookup_empty in E.
  - by intros k c ?%elem_of_nil.
Qed.

(** Two objects of a megabyte. *)
Lemma shuffle_serve_exact_witness :
  let fl := mkShuffleServeFlags "host:4381" 4382 "/tmp/GEDS_XXXXXX" "bkt" 2 1 in
  exists n', shuffle_serve fl boot_ok false new_server = Done ([], Waits) n' /\
    reads_back (Z.to_nat 1048577) "bkt" "1" (zeros 1048576) n'.
Proof.
  intros fl.
  destruct (shuffle_serve_exact (W := Server) (X := MemS3.world) (K := nat) (T := unit) fl boot_ok {[("bkt" : str) := ∅]}
              new_server started_server OkStatus server_starts eq_refl) as (n' & E & m' & _ & _ & R).
  - apply started_server_fresh. cbn. unfold two64. lia.
  - cbn. lia.
  - cbn. lia.
  - reflexivity.
  - exists n'. split; [exact E|]. apply (R 1); [cbn; lia|rewrite Z2Nat.id by lia; reflexivity].
Defined.

(** Seven files for two executors: the last one is missing. *)
Lemma serve_pubsub_exact_witness :
  let fl := mkServePubsubFlags "host:4381" 4382 "/tmp/GEDS_XXXXXX" "bkt" 7 1 2 true in
  exists n', serve_pubsub fl boot_ok [1; 0; 1; 1; 0; 0]%nat false new_server = Done ([], Waits) n' /\
    reads_back (Z.to_nat 1048577) "bkt" "5" (zeros 1048576) n' /\
    exists m', svc_abs (n_mdw n') m' /\ entry m' "bkt" "6" = None.
Proof.
  intros fl.
  pose proof (serve_pubsub_exact (W := Server) (X := MemS3.world) (K := nat) (T := unit) fl boot_ok [1; 0; 1; 1; 0; 0]%nat
                {[("bkt" : str) := ∅]} new_server started_server OkStatus server_starts eq_refl) as P.
  destruct P as (n' & E & m' & Ha & Hent & R).
  - apply started_server_fresh. cbn. unfold two64. lia.
  - cbn. lia.
  - cbn. unfold two64. lia.
  - cbn. lia.
  - reflexivity.
  - intros t Ht. change (t < 2)%nat in Ht. destruct t as [|[|t]]; [apply Nat.leb_le; reflexivity..|lia].
  - exists n'. split; [exact E|]. split; [apply (R 5); [split; [lia|reflexivity]|rewrite Z2Nat.id by lia; reflexivity]|]. exists m'. split; [exact Ha|].
    rewrite Hent. reflexivity.
Defined.
