(* ===== verification/BenchmarkRead.v ===== *)
(** * The programs that read objects for the benchmarks

    src/src/benchmarks/shuffle_read.cpp, read_wo_pubsub.cpp and read_with_pubsub.cpp:
    tasks that open the numbered objects of a bucket and read parts of them or all
    of them. A process that can read objects is an interface, [session], with the
    objects of the process itself and those of other processes as instances. Flags
    are given as parsed, the log is not modelled, and the executors run one after
    the other, in any order. *)

From Stdlib Require Import Ascii ZArith Lia.
From stdpp Require Import base gmap sets list strings numbers.
From S2P Require Import Prelude Bytes Decimal Status StdMap Path Object FileSet MDSKVSBucket MDSKVS S3Endpoint Rpc GEDSConfig.
From S2P Require Import MetadataServer MetadataService LocalFile ConcurrentMap GedsNames FileHandle.
From S2P Require Import Node Handles HandleIO GEDS GEDSCreate GEDSObjects GEDSRelocate TcpConnection RemoteRead.
From S2P Require Import FileTransferService GEDSCopy GEDSStatus Commands Demo Benchmarks.

Open Scope Z_scope.
Open Scope list_scope.

#[local] Opaque to_string.

(** ** Settings *)

Record ShuffleReadFlags := mkShuffleReadFlags {
  rf_address : str;
  rf_localPort : Z;
  rf_gedsRoot : str;
  rf_bucket : str;
  rf_numFiles : Z;
  rf_numExecutors : Z;
  rf_numTasksExecutor : Z;
  rf_numThreadsExecutor : Z
}.

Definition default_shuffle_read : ShuffleReadFlags :=
  mkShuffleReadFlags ("localhost:" ++ to_string defaultMetdataServerPort) GEDSConfig.GEDSPort "/tmp/GEDS_XXXXXX"
    "benchmark" 75 4 100 1.

Record ReadWoFlags := mkReadWoFlags {
  wf_address : str;
  wf_localPort : Z;
  wf_gedsRoot : str;
  wf_bucket : str;
  wf_numExecutors : Z;
  wf_numTasksExecutor : Z
}.

Definition default_read_wo : ReadWoFlags :=
  mkReadWoFlags "10.40.1.4:50003" GEDSConfig.GEDSPort "/tmp/GEDS_XXXXXX" "benchmark" 4 100.

Record ReadPubsubFlags := mkReadPubsubFlags {
  uf_address : str;
  uf_localPort : Z;
  uf_gedsRoot : str;
  uf_bucket : str;
  uf_numExecutors : Z;
  uf_numTasksExecutor : Z;
  uf_numFiles : Z;
  uf_pubSubEnabled : bool
}.

Definition default_read_pubsub : ReadPubsubFlags :=
  mkReadPubsubFlags "10.40.1.4:50003" GEDSConfig.GEDSPort "/tmp/GEDS_XXXXXX" "benchmark" 4 100 1000 true.

(** ** Tasks *)

Section program.
Context {W X K T : Type} `{MDStub W} `{S3Client X} `{Kernel K} `{Transfers T}.
Context (fuel : nat).

Notation Prog := (Prog (W := W) (X := X) (K := K) (T := T)).

(** The loops of the two functions [runTask] that read a part of every file, from
    [position] and as much as the buffer holds. The buffer is the same for all
    files. *)
Fixpoint task_files (bucket : str) (position readSize : Z) (files : list Z) (buffer : str) (total : Z) :
    Prog (StatusOr Z) :=
  match files with
  | [] => pret (Value total)
  | i :: files =>
      do file <- run_call (geds_open bucket (to_string i) true) ;;
      match file with
      | Error st => pret (Error st)
      | Value h =>
          do (buffer, st) <- run_call (read_buffer fuel h buffer 0 position readSize) ;;
          do _ <- run_call (close h) ;;
          match st with
          | Error st => pret (Error st)
          | Value n => task_files bucket position readSize files buffer (u64 (total + n))
          end
      end
  end.

(** [runTask] of shuffle_read *)
Definition shuffle_runTask (bucket : str) (taskId readSize nFiles : Z) : Prog (StatusOr Z) :=
  task_files bucket (u64 (taskId * readSize)) readSize (seqZ 0 nFiles) (zeros readSize) 0.

(** [runTask] of read_wo_pubsub *)
Definition wo_runTask (bucket : str) (nFiles readSize : Z) : Prog (StatusOr Z) :=
  task_files bucket 0 readSize (seqZ 0 nFiles) (zeros readSize) 0.

(** [runTask] of read_with_pubsub: the size is asked for before the status of
    opening is looked at, and a [StatusOr] without a value terminates the process. *)
Fixpoint pubsub_task_files (bucket : str) (files : list Z) (total : Z) : Prog (StatusOr Z) :=
  match files with
  | [] => pret (Value total)
  | i :: files =>
      do file <- run_call (geds_open bucket (to_string i) true) ;;
      match file with
      | Error _ => fun _ => Crash
      | Value h =>
          do readSize <- run_call (Demo.gf_size h) ;;
          do (_, st) <- run_call (read_buffer fuel h (zeros readSize) 0 0 readSize) ;;
          do _ <- run_call (close h) ;;
          match st with
          | Error st => pret (Error st)
          | Value n => pubsub_task_files bucket files (u64 (total + n))
          end
      end
  end.

Definition pubsub_runTask (bucket : str) (nFiles : Z) : Prog (StatusOr Z) :=
  pubsub_task_files bucket (seqZ 0 nFiles) 0.

(** The loops of [runExecutorThread], with the total that is logged at the end;
    the first task that fails ends the thread. *)
Fixpoint run_tasks (task : Z -> Prog (StatusOr Z)) (ids : list Z) (total : Z) : Prog (option Z) :=
  match ids with
  | [] => pret (Some total)
  | i :: ids =>
      do success <- task i ;;
      match success with
      | Error _ => pret None
      | Value n => run_tasks task ids (u64 (total + n))
      end
  end.

(** [runExecutorThread] of shuffle_read; [shuffle] is [std::shuffle] with the
    generator seeded by the executor. *)
Definition shuffle_executor (shuffle : Z -> list Z -> list Z) (bucket : str) (executorId nTasks nFiles sizePerRead : Z) :
    Prog (option Z) :=
  run_tasks (fun taskId => shuffle_runTask bucket taskId sizePerRead nFiles)
    (shuffle executorId (map (fun i => u64 (i + u64 (executorId * nTasks))) (seqZ 0 nTasks))) 0.

Definition wo_executor (bucket : str) (nTasks nFiles sizePerRead : Z) : Prog (option Z) :=
  run_tasks (fun _ => wo_runTask bucket nFiles sizePerRead) (seqZ 0 nTasks) 0.

Definition pubsub_executor (bucket : str) (nTasks nFiles : Z) : Prog (option Z) :=
  run_tasks (fun _ => pubsub_runTask bucket nFiles) (seqZ 0 nTasks) 0.

(** The threads, until all have been joined. *)
Fixpoint run_threads (executor : Z -> Prog (option Z)) (ids : list Z) : Prog (list (option Z)) :=
  match ids with
  | [] => pret []
  | i :: ids =>
      do r <- executor i ;;
      do rs <- run_threads executor ids ;;
      pret (r :: rs)
  end.

(** ** The programs *)

(** [std::count_if] of the files, and [std::max_element] by size: [None] is the end
    of an empty list. *)
Definition count_files (l : list GEDSFileStatus) : Z := Z.of_nat (length (List.filter (fun f => negb (fs_isDirectory f)) l)).

Definition max_size (l : list GEDSFileStatus) : option Z :=
  match l with
  | [] => None
  | f :: l => Some (fold_left (fun m f => if m <? fs_size f then fs_size f else m) l (fs_size f))
  end.

Definition field (name value : str) : line := Out (name ++ value).

Definition took_line (what elapsed : str) : line := Out (what ++ " took: " ++ elapsed ++ " ms").

(** The end of the programs: the time is printed and the service stopped. *)
Definition finish (what elapsed : str) (server : Status) : Prog unit :=
  do _ <- print (took_line what elapsed) ;;
  do _ <- run_call (geds_stop fuel false server) ;;
  pexit EXIT_SUCCESS.

(** [main] of shuffle_read after the service was created: [elapsed] is how long it
    took, as printed, and [order] the order of the executors. What follows the end
    of the list, and dividing by zero, terminate the process. *)
Definition shuffle_read (shuffle : Z -> list Z -> list Z) (fl : ShuffleReadFlags) (b : Boot) (order : list Z)
    (elapsed : str) (server : Status) : Prog unit :=
  do status <- run_call (geds_start b) ;;
  if negb (ok status) then pexit EXIT_FAILURE else
  do folderStatus <- run_call (geds_listAsFolder (rf_bucket fl) []) ;;
  match folderStatus with
  | Error _ => pexit EXIT_FAILURE
  | Value l =>
      if count_files l <? rf_numFiles fl then pexit EXIT_FAILURE else
      let tasks := u64 (rf_numExecutors fl * rf_numTasksExecutor fl) in
      match max_size l with
      | None => fun _ => Crash
      | Some maxSize =>
          if tasks =? 0 then fun _ => Crash else
          let sizePerRead := maxSize / tasks in
          do _ <- print (Out "Starting shuffle Read benchmark.") ;;
          do _ <- print (field "Bucket:             " (rf_bucket fl)) ;;
          do _ <- print (field "# files:            " (to_string (rf_numFiles fl))) ;;
          do _ <- print (field "# executors:        " (to_string (rf_numExecutors fl))) ;;
          do _ <- print (field "# tasks/executor:   " (to_string (rf_numTasksExecutor fl))) ;;
          do _ <- print (field "# threads/executor: " (to_string (rf_numThreadsExecutor fl))) ;;
          do _ <- print (field "size per read:      " (to_string sizePerRead)) ;;
          do _ <- run_threads (fun i => shuffle_executor shuffle (rf_bucket fl) i (rf_numTasksExecutor fl) (rf_numFiles fl) sizePerRead) order ;;
          finish "Shuffle read" elapsed server
      end
  end.

(** [main] of read_wo_pubsub *)
Definition read_wo_pubsub (fl : ReadWoFlags) (b : Boot) (order : list Z) (elapsed : str) (server : Status) : Prog unit :=
  do status <- run_call (geds_start b) ;;
  if negb (ok status) then pexit EXIT_FAILURE else
  do folderStatus <- run_call (geds_listAsFolder (wf_bucket fl) []) ;;
  match folderStatus with
  | Error _ => pexit EXIT_FAILURE
  | Value l =>
      match max_size l with
      | None => fun _ => Crash
      | Some sizePerRead =>
          do _ <- print (Out "Starting Without PubSub Read benchmark.") ;;
          do _ <- print (field "Bucket:             " (wf_bucket fl)) ;;
          do _ <- print (field "# files:            " (to_string (count_files l))) ;;
          do _ <- print (field "# executors:        " (to_string (wf_numExecutors fl))) ;;
          do _ <- print (field "# tasks/executor:   " (to_string (wf_numTasksExecutor fl))) ;;
          do _ <- print (field "size per read:      " (to_string sizePerRead)) ;;
          do _ <- run_threads (fun _ => wo_executor (wf_bucket fl) (wf_numTasksExecutor fl) (count_files l) sizePerRead) order ;;
          finish "Without PubSub read" elapsed server
      end
  end.

(** [runSubscriberThread] *)
Definition runSubscriberThread (bucket : str) : Prog unit :=
  do _ <- run_call (geds_subscribe (mkSubscription [] bucket [] BUCKET)) ;; pret tt.

Fixpoint run_subscribers (bucket : str) (ids : list Z) : Prog unit :=
  match ids with
  | [] => pret tt
  | _ :: ids => do _ <- runSubscriberThread bucket ;; run_subscribers bucket ids
  end.

(** [main] of read_with_pubsub; [entered] is whether the line that the program
    waits for has come. *)
Definition read_with_pubsub (fl : ReadPubsubFlags) (b : Boot) (entered : bool) (order : list Z) (elapsed : str)
    (server : Status) : Prog unit :=
  do status <- run_call (geds_start b) ;;
  if negb (ok status) then pexit EXIT_FAILURE else
  do _ <- print (Out "Starting With PubSub Read benchmark.") ;;
  do _ <- print (field "Bucket:             " (uf_bucket fl)) ;;
  do _ <- print (field "# executors:        " (to_string (uf_numExecutors fl))) ;;
  do _ <- print (field "# tasks/executor:   " (to_string (uf_numTasksExecutor fl))) ;;
  do _ <- run_subscribers (uf_bucket fl) (seqZ 0 (uf_numExecutors fl)) ;;
  if negb entered then ret ([], Waits) else
  do _ <- run_threads (fun _ => pubsub_executor (uf_bucket fl) (uf_numTasksExecutor fl) (uf_numFiles fl)) order ;;
  finish "With PubSub read" elapsed server.
End program.

(** ** Reading as an interface *)

(** How much of an object a read of [cnt] bytes at [pos] gives. *)
Definition amount (pos cnt : Z) (c : str) : Z := Z.max 0 (Z.min cnt (len c - pos)).

Section interface.
Context {W X K T : Type} `{MDStub W} `{S3Client X} `{Kernel K} `{Transfers T}.
Context (fuel : nat).
Implicit Types (n : Node W X K T) (P Q : Node W X K T -> Prop).

(** While [Q] holds the object with the contents [c] is open in [h]; closing it
    leads to [P]. *)
Record session (h : nat) (c : str) Q P : Prop := {
  ss_size n : Q n -> Demo.gf_size h n = Done (len c) n;
  ss_read pos cnt n : Q n -> 0 <= pos < INT64_MAX -> 0 <= cnt < two64 ->
    exists n', gf_readBytes fuel h pos cnt n = Done (Value (amount pos cnt c, slice pos cnt c)) n' /\ Q n';
  ss_close n : Q n -> exists n', close h n = Done tt n' /\ P n'
}.

(** In the states [P] the object [b/k] can be opened, read and closed. *)
Definition readable (b k c : str) P : Prop :=
  forall n, P n -> exists h n' Q, geds_open b k true n = Done (Value h) n' /\ Q n' /\ session h c Q P.
End interface.

(** A read that fits in the buffer. *)
Lemma read_buffer_fits {W X K T : Type} `{MDStub W} `{S3Client X} `{Kernel K} `{Transfers T} fuel h buffer pos cnt c
    (n n' : Node W X K T) :
  gf_readBytes fuel h pos cnt n = Done (Value (amount pos cnt c, slice pos cnt c)) n' ->
  is_u64 pos -> 0 <= cnt -> cnt <= len buffer -> len buffer < two64 ->
  read_buffer fuel h buffer 0 pos cnt n = Done (write_at 0 (slice pos cnt c) buffer, Value (amount pos cnt c)) n'.
Proof.
  intros E Hp Hc Hb Hs. pose proof (len_nonneg c) as Hlc.
  assert (Ha : 0 <= amount pos cnt c <= cnt) by (unfold amount; lia).
  unfold read_buffer, gf_read_vec, gf_read, vec_size, vec_resize.
  rewrite !Z.add_0_l, !Z.mul_1_r, !Z.div_1_r, !(u64_small cnt), (u64_small pos) by (unfold is_u64 in *; lia).
  rewrite (proj2 (Z.ltb_ge _ _)) by lia. unfold lift. rewrite E. rewrite !Z.div_1_r, Z.add_0_l, u64_small by (unfold is_u64; lia).
  rewrite (proj2 (Z.ltb_ge _ _)) by lia. done.
Qed.

Lemma len_write_fits bytes buffer : len bytes <= len buffer -> len (write_at 0 bytes buffer) = len buffer.
Proof. intros Hl. rewrite len_write_at by lia. pose proof (len_nonneg bytes). lia. Qed.

(** ** Lemmas: sums *)

Definition total (f : Z -> Z) (l : list Z) : Z := foldr (fun i s => f i + s) 0 l.

Lemma sum_app f l l' : total f (l ++ l') = total f l + total f l'.
Proof. induction l as [|i l IH]; cbn [total foldr app]; [done|]. unfold total in IH. rewrite IH. unfold total. lia. Qed.

Lemma sum_perm f l l' : l ≡ₚ l' -> total f l = total f l'.
Proof. induction 1; cbn [total foldr] in *; unfold total in *; lia. Qed.

Lemma sum_ext f g l : (forall i, i ∈ l -> f i = g i) -> total f l = total g l.
Proof.
  intros E. induction l as [|i l IH]; [done|]. cbn [total foldr]. f_equal; [apply E; by left|].
  apply IH. intros j Hj. apply E. by right.
Qed.

Lemma sum_swap f l l' : total (fun i => total (f i) l') l = total (fun j => total (fun i => f i j) l) l'.
Proof.
  induction l as [|i l IH]; cbn [total foldr].
  - by induction l' as [|j l' IH]; cbn [total foldr]; unfold total in *; lia.
  - fold (total (fun i => total (f i) l') l). rewrite IH. clear IH.
    induction l' as [|j l' IH]; cbn [total foldr]; [done|]. unfold total in *. lia.
Qed.

Lemma sum_const x l : total (fun _ => x) l = x * Z.of_nat (length l).
Proof. induction l as [|i l IH]; cbn [total foldr length]; [lia|]. unfold total in IH. rewrite IH. lia. Qed.

Lemma sum_concat f (g : Z -> list Z) l : total f (concat (map g l)) = total (fun i => total f (g i)) l.
Proof. induction l as [|i l IH]; [done|]. cbn [map concat]. by rewrite sum_app, IH. Qed.

(** Consecutive ranges of [r] bytes cover the first [k * r] bytes of an object, each
    byte once. *)
Lemma amount_ranges r k c : 0 <= r -> 0 <= k -> total (fun t => amount (t * r) r c) (seqZ 0 k) = Z.min (len c) (k * r).
Proof.
  intros Hr Hk. pose proof (len_nonneg c). pattern k. apply natlike_ind; [by rewrite seqZ_nil by lia; cbn; lia| |exact Hk].
  intros j Hj IH. replace (Z.succ j) with (j + 1) by lia. rewrite seqZ_app, sum_app, IH by lia.
  rewrite seqZ_cons, seqZ_nil by lia. cbn [total foldr]. unfold amount. rewrite !Z.add_0_l. nia.
Qed.

(** ** Lemmas: tasks *)

Section tasks.
Context {W X K T : Type} `{MDStub W} `{S3Client X} `{Kernel K} `{Transfers T}.
Context (fuel : nat).
Context (P : Node W X K T -> Prop) (b : str) (c : Z -> str).
Implicit Types n : Node W X K T.

Lemma u64_sum_step t x s : u64 (u64 (t + x) + s) = u64 (t + (x + s)).
Proof using Type. unfold u64. rewrite Zplus_mod_idemp_l. f_equal. lia. Qed.

Lemma task_files_exact position readSize files buffer t n :
  (forall i, i ∈ files -> readable fuel b (to_string i) (c i) P) -> P n ->
  0 <= position < INT64_MAX -> 0 <= readSize < two64 -> len buffer = readSize ->
  exists n', task_files fuel b position readSize files buffer (u64 t) n =
      Done ([], Returns (Value (u64 (t + total (fun i => amount position readSize (c i)) files)))) n' /\ P n'.
Proof.
  intros Hr HP Hp Hs. revert buffer t n HP. induction files as [|i files IH]; intros buffer t n HP Hb.
  { exists n. cbn [task_files total foldr]. by rewrite Z.add_0_r. }
  destruct (Hr i ltac:(by left) n HP) as (h & n1 & Q & E1 & HQ & Ses).
  destruct (ss_read _ _ _ _ _ Ses position readSize n1 HQ Hp Hs) as (n2 & E2 & HQ2).
  destruct (ss_close _ _ _ _ _ Ses n2 HQ2) as (n3 & E3 & HP3).
  apply (read_buffer_fits fuel h buffer) in E2; [|unfold is_u64, two64, INT64_MAX in *; lia..].
  assert (Hb' : len (write_at 0 (slice position readSize (c i)) buffer) = readSize)
    by (rewrite len_write_fits; [done|rewrite Hb; apply slice_length_le; lia]).
  destruct (IH ltac:(intros j Hj; apply Hr; by right) _ (u64 t + amount position readSize (c i)) n3 HP3 Hb') as (n' & E & HP').
  exists n'. split; [|exact HP']. cbn [task_files total foldr].
  rewrite (pbind_call _ _ _ _ _ _ E1 eq_refl), (pbind_call _ _ _ _ _ _ E2 eq_refl), (pbind_call _ _ _ _ _ _ E3 eq_refl).
  rewrite E. do 4 f_equal. unfold total. rewrite <- Z.add_assoc. unfold u64. by rewrite Zplus_mod_idemp_l.
Qed.

Lemma pubsub_task_files_exact files t n :
  (forall i, i ∈ files -> readable fuel b (to_string i) (c i) P /\ len (c i) < two64) -> P n ->
  exists n', pubsub_task_files fuel b files (u64 t) n =
      Done ([], Returns (Value (u64 (t + total (fun i => len (c i)) files)))) n' /\ P n'.
Proof.
  intros Hr HP. revert t n HP. induction files as [|i files IH]; intros t n HP.
  { exists n. cbn [pubsub_task_files total foldr]. by rewrite Z.add_0_r. }
  destruct (Hr i ltac:(by left)) as [Hri Hl]. pose proof (len_nonneg (c i)) as Hpos.
  destruct (Hri n HP) as (h & n1 & Q & E1 & HQ & Ses).
  pose proof (ss_size _ _ _ _ _ Ses n1 HQ) as Es.
  destruct (ss_read _ _ _ _ _ Ses 0 (len (c i)) n1 HQ) as (n2 & E2 & HQ2); [unfold INT64_MAX; lia|lia|].
  destruct (ss_close _ _ _ _ _ Ses n2 HQ2) as (n3 & E3 & HP3).
  apply (read_buffer_fits fuel h (zeros (len (c i)))) in E2; rewrite ?len_zeros by lia; [|unfold is_u64, two64; lia|lia..].
  destruct (IH ltac:(intros j Hj; apply Hr; by right) (u64 t + amount 0 (len (c i)) (c i)) n3 HP3) as (n' & E & HP').
  exists n'. split; [|exact HP']. cbn [pubsub_task_files total foldr].
  rewrite (pbind_call _ _ _ _ _ _ E1 eq_refl), (pbind_call _ _ _ _ _ _ Es eq_refl), (pbind_call _ _ _ _ _ _ E2 eq_refl).
  cbn [fst snd]. rewrite (pbind_call _ _ _ _ _ _ E3 eq_refl).
  rewrite E. do 4 f_equal. unfold total. rewrite <- Z.add_assoc. unfold u64. rewrite Zplus_mod_idemp_l.
  unfold amount. do 2 f_equal. lia.
Qed.

(** Executors whose tasks all succeed. *)
Lemma run_tasks_exact (task : Z -> Prog (StatusOr Z)) (f : Z -> Z) ids t n :
  (forall i n, i ∈ ids -> P n -> exists n', task i n = Done ([], Returns (Value (u64 (f i)))) n' /\ P n') -> P n ->
  exists n', run_tasks task ids (u64 t) n = Done ([], Returns (Some (u64 (t + total f ids)))) n' /\ P n'.
Proof.
  intros Ht. revert t n. induction ids as [|i ids IH]; intros t n HP.
  { exists n. cbn [run_tasks total foldr]. by rewrite Z.add_0_r. }
  destruct (Ht i n ltac:(by left) HP) as (n1 & E1 & HP1).
  destruct (IH ltac:(intros j m Hj; apply Ht; by right) (t + f i) n1 HP1) as (n' & E & HP').
  exists n'. split; [|exact HP']. cbn [run_tasks total foldr].
  apply (pbind_returns _ _ _ _ [] _ [] _ n' E1). cbn iota.
  replace (u64 (u64 t + u64 (f i))) with (u64 (t + f i)) by (unfold u64; by rewrite Zplus_mod).
  rewrite E. do 5 f_equal. unfold total. lia.
Qed.

Lemma run_threads_exact (executor : Z -> Prog (option Z)) (f : Z -> Z) ids n :
  (forall i n, i ∈ ids -> P n -> exists n', executor i n = Done ([], Returns (Some (u64 (f i)))) n' /\ P n') -> P n ->
  exists n', run_threads executor ids n = Done ([], Returns (map (fun i => Some (u64 (f i))) ids)) n' /\ P n'.
Proof.
  intros Ht. revert n. induction ids as [|i ids IH]; intros n HP; [by exists n|].
  destruct (Ht i n ltac:(by left) HP) as (n1 & E1 & HP1).
  destruct (IH ltac:(intros j m Hj; apply Ht; by right) n1 HP1) as (n' & E & HP').
  exists n'. split; [|exact HP']. cbn [run_threads map].
  apply (pbind_returns _ _ _ _ [] _ [] _ n' E1). by apply (pbind_returns _ _ _ _ [] _ [] _ n' E).
Qed.
End tasks.

(** ** Objects of the process *)

Section own.
Context {W X K T : Type} `{MDStub W} `{S3Client X} `{KernelFair K} `{Transfers T}.
Context (fuel : nat).
Implicit Types n : Node W X K T.

(** The objects [files] are in local files of the process. *)
Definition owns (b : str) (files : list (str * str)) n : Prop :=
  n_state n = Running /\ forall k c, (k, c) ∈ files -> exists h, served fuel b k c n h.

Lemma owns_like b files n n' : like n n' -> owns b files n -> owns b files n'.
Proof.
  intros L [Hr Ho]. split; [by rewrite (lk_state _ _ L)|]. intros k c Hin. destruct (Ho k c Hin) as [h Hs].
  exists h. by apply (served_like fuel b k c n).
Qed.

Lemma owns_readable b files k c : (k, c) ∈ files -> readable fuel b k c (owns b files).
Proof.
  intros Hin n HP. destruct HP as [Hr Ho]. destruct (Ho k c Hin) as [h Hs].
  destruct (served_open fuel b k c n h Hs) as (n1 & E1 & L1).
  exists h, n1, (fun n => owns b files n /\ served fuel b k c n h). split; [exact E1|].
  split; [split; [by apply (owns_like b files n)|by apply (served_like fuel b k c n)]|]. constructor.
  - intros m [_ Hm]. destruct Hm as [_ _ _ _ _ (x & f & i & s & Hx & _ & Hk & Hf & _)].
    unfold Demo.gf_size. rewrite (bind_done _ _ m m (Value (len c))); [done|].
    unfold h_size, bind. rewrite (resolve_local h m x f i s) by done. cbn [snd]. unfold base_size. rewrite Hk.
    unfold ret. by rewrite (lf_sized _ Hf : lf_size f = len c).
  - intros pos cnt m [HP Hm] Hp Hc. destruct (served_read fuel b k c m h pos cnt Hm Hp ltac:(lia)) as (m' & E & L).
    exists m'. split; [exact E|]. split; [by apply (owns_like b files m)|by apply (served_like fuel b k c m)].
  - intros m [HP Hm]. destruct (served_close fuel b k c m h Hm) as (m' & E & L). exists m'. split; [exact E|].
    by apply (owns_like b files m).
Qed.
End own.

(** ** Objects of another process *)

Section remote.
Context {W X K T : Type} `{MDService W} `{S3Client X} `{Kernel K} `{TransferHosts T}.
Context (fuel : nat).
Implicit Types n : Node W X K T.

(** The handle of an object that was opened before. *)
Record remote_handle (a b k c : str) (h : nat) n : Prop := {
  rh_handle : exists x r y i, n_heap n !! h = Some x /\ h_isValid x = true /\ h_kind x = KReloc r /\
    n_heap n !! r = Some y /\ h_kind y = KRemote a i /\ h_bucket y = b /\ h_key y = k /\ osize i = len c;
  rh_service : cm_get a (n_fileTransfers n) = Some tt;
  rh_connected : th_connected a (n_transfers n)
}.

(** The objects [files] of the bucket [b] are at the host [a]. *)
Record reaches (a b : str) (files : list (str * str)) n : Prop := {
  ra_wf : node_wf n;
  ra_running : n_state n = Running;
  ra_asking : exists m, asking m n /\ forall k c, (k, c) ∈ files ->
    exists i, entry m b k = Some i /\ location i = "geds://" ++ a /\ osize i = len c;
  ra_host : (cm_get a (n_fileTransfers n) = Some tt /\ th_connected a (n_transfers n)) \/
            (cm_get a (n_fileTransfers n) = None /\ th_open a (n_transfers n));
  ra_name : a <> [];
  ra_files k c : (k, c) ∈ files -> ok (isValid b k) = true /\ th_has a b k c (n_transfers n) /\
    (mfind (getPath b k) (n_fileHandles n) = None \/
     exists h, mfind (getPath b k) (n_fileHandles n) = Some h /\ remote_handle a b k c h n)
}.
Lemma remote_handle_like a b k c h n n' :
  (forall j x, n_heap n !! j = Some x -> exists x', n_heap n' !! j = Some x' /\ h_isValid x' = h_isValid x /\
     h_kind x' = h_kind x /\ h_bucket x' = h_bucket x /\ h_key x' = h_key x) ->
  n_fileTransfers n' = n_fileTransfers n -> th_keeps (n_transfers n) (n_transfers n') ->
  remote_handle a b k c h n -> remote_handle a b k c h n'.
Proof.
  intros Hh Ef Hk [(x & r & y & i & Hx & Hv & Hkd & Hy & Hr & Hb & Hke & Hs) Hft Hc]. constructor; [|by rewrite Ef|by apply Hk].
  destruct (Hh h x Hx) as (x' & Hx' & Ev & Ek & _). destruct (Hh r y Hy) as (y' & Hy' & _ & Ek' & Eb & Eke).
  exists x', r, y', i. split_and!; congruence.
Qed.

(** Steps that keep the names, the registered handles and the store. *)
Lemma reaches_like a b files n n' :
  node_wf n' -> n_state n' = n_state n -> n_md n' = n_md n -> n_mdw n' = n_mdw n ->
  n_fileTransfers n' = n_fileTransfers n -> n_fileHandles n' = n_fileHandles n ->
  (forall j x, n_heap n !! j = Some x -> exists x', n_heap n' !! j = Some x' /\ h_isValid x' = h_isValid x /\
     h_kind x' = h_kind x /\ h_bucket x' = h_bucket x /\ h_key x' = h_key x) ->
  th_keeps (n_transfers n) (n_transfers n') ->
  cm_get a (n_fileTransfers n) = Some tt -> th_connected a (n_transfers n) ->
  reaches a b files n -> reaches a b files n'.
Proof.
  intros Hw Es Em Emw Ef Eh Hh Hk Hcm Hco [R1 R2 R3 R4 R5 R6]. constructor; rewrite ?Es, ?Ef; try done.
  - unfold asking. by rewrite Em, Emw.
  - left. split; [done|]. by apply Hk.
  - intros k c Hin. destruct (R6 k c Hin) as (Hv & Hhas & Hor). rewrite Eh. split; [done|]. split; [by apply Hk|].
    destruct Hor as [Hn|(h & Hm & Hr)]; [by left|right]. exists h. split; [done|].
    by apply (remote_handle_like a b k c h n).
Qed.

(** Counting changes nothing else. *)
Lemma alter_like (g : Handle -> Handle) h (m : gmap nat Handle) :
  (forall x, h_isValid (g x) = h_isValid x /\ h_kind (g x) = h_kind x /\ h_bucket (g x) = h_bucket x /\ h_key (g x) = h_key x) ->
  forall j x, m !! j = Some x -> exists x', alter g h m !! j = Some x' /\ h_isValid x' = h_isValid x /\
    h_kind x' = h_kind x /\ h_bucket x' = h_bucket x /\ h_key x' = h_key x.
Proof using Type.
  intros Hg j x Hx. rewrite lookup_alter. case_decide as E; [subst; rewrite Hx|]; [exists (g x)|by exists x].
  split; [done|apply Hg].
Qed.

Lemma node_wf_alter (g : Handle -> Handle) h n :
  (forall x, h_kind (g x) = h_kind x) -> node_wf n -> node_wf (set_heap (alter g h (n_heap n)) (n_next n) n).
Proof using Type.
  intros Hg [W1 W2 W3]. constructor; [done..|]. intros j x. cbn [n_heap n_next set_heap]. rewrite lookup_alter. case_decide as E.
  - subst j. intros (y & Hy & ->)%fmap_Some. destruct (W3 h y Hy) as [Hl Hc]. split; [done|]. unfold children. by rewrite Hg.
  - apply W3.
Qed.

(** An object that is open: the handle is registered and the host connected. *)
Definition remote_open (a b : str) (files : list (str * str)) (k c : str) (h : nat) n : Prop :=
  reaches a b files n /\ mfind (getPath b k) (n_fileHandles n) = Some h /\ remote_handle a b k c h n.

Lemma remote_session a b files k c h :
  (k, c) ∈ files -> session fuel h c (remote_open a b files k c h) (reaches a b files).
Proof.
  intros Hin. constructor.
  - intros n (R & Hm & [(x & r & y & i & Hx & Hv & Hkd & Hy & Hr & Hb & Hke & Hs) _ _]).
    unfold Demo.gf_size. rewrite (bind_done _ _ n n (Value (len c))); [done|].
    unfold h_size, bind, resolve, bind, the_handle. rewrite Hx, Hkd, Hy. unfold ret. cbn [snd]. unfold base_size.
    by rewrite Hr, Hs.
  - intros pos cnt n (R & Hm & Hrh) Hp Hcnt.
    pose proof Hrh as [(x & r & y & i & Hx & Hv & Hkd & Hy & Hr & Hb & Hke & Hs) Hcm Hc].
    destruct (ra_files _ _ _ _ R k c Hin) as (_ & Hhas & _).
    assert (E : exists t, gf_readBytes fuel h pos cnt n =
        Done (Value (amount pos cnt c, slice pos cnt c)) (set_fileTransfers (n_fileTransfers n) t n) /\ th_keeps (n_transfers n) t).
    { destruct (Z.eq_dec cnt 0) as [->|Hne].
      - exists (n_transfers n). split; [|by split]. unfold gf_readBytes, DEPTH. cbn [h_readBytes].
        unfold bind at 1, the_handle. rewrite Hx, Hkd. unfold reloc_readBytes. unfold bind at 1, the_handle. rewrite Hx, Hkd.
        unfold bind at 1. unfold bind at 1, the_handle. rewrite Hy, Hr. unfold remote_readBytes. cbn [Z.eqb]. unfold ret.
        rewrite slice_0. replace (amount pos 0 c) with 0 by (unfold amount; lia). by destruct n.
      - exact (remote_read_step fuel h r x y a i b k c pos cnt n Hx Hkd Hy Hr Hb Hke Hc Hhas Hp ltac:(lia)). }
    destruct E as (t & E & Hkeep). eexists. split; [exact E|].
    assert (Hid : forall j z, n_heap n !! j = Some z -> exists z', n_heap n !! j = Some z' /\ h_isValid z' = h_isValid z /\
      h_kind z' = h_kind z /\ h_bucket z' = h_bucket z /\ h_key z' = h_key z) by (intros j z Hz; by exists z).
    split; [|split; [exact Hm|]].
    + apply (reaches_like a b files n); try done. destruct (ra_wf _ _ _ _ R). by constructor.
    + by apply (remote_handle_like a b k c h n).
  - intros n (R & Hm & Hrh).
    set (g := fun x : Handle => released_at (n_now n) (with_count (h_openCount x - 1) x)).
    exists (set_heap (alter g h (n_heap n)) (n_next n) n). split.
    + apply (close_exact (getPath b k)); [apply R|exact Hm].
    + apply (reaches_like a b files n); try done.
      * apply node_wf_alter; [done|apply R].
      * by apply alter_like.
      * apply Hrh.
      * apply Hrh.
Qed.

Lemma reaches_readable a b files k c :
  (forall k c c', (k, c) ∈ files -> (k, c') ∈ files -> c = c') -> (k, c) ∈ files ->
  readable fuel b k c (reaches a b files).
Proof.
  intros Hnd Hin n R. destruct (ra_files _ _ _ _ R k c Hin) as (Hv & Hhas & [Hn|(h & Hm & Hrh)]).
  - destruct (ra_asking _ _ _ _ R) as (m & (Hc & Ha & Hco) & Hst). destruct (Hst k c Hin) as (i & Hi & Hloc & Hsz).
    unfold entry in Hi. destruct (m !! b) as [mb|] eqn:Em; [|done].
    destruct (open_remote_full b k a i m mb n (ra_running _ _ _ _ R) Hv Hn Hc Ha Hco Em Hi Hloc (ra_name _ _ _ _ R) (ra_host _ _ _ _ R))
      as (cl & w & ft & t & E & Hco' & Hft & Ha' & Hc' & Hconn & Hkeep).
    set (n1 := remote_opened b k a i cl w ft t n) in E. exists (S (n_next n)), n1, (remote_open a b files k c (S (n_next n))).
    destruct (remote_opened_heap b k a i cl w ft t n) as [Hy Hx]. fold n1 in Hy, Hx.
    assert (Hrh1 : remote_handle a b k c (S (n_next n)) n1) by (constructor; [by eexists _, _, _, _|exact Hft|exact Hconn]).
    split; [exact E|]. split; [|by apply remote_session]. split; [|split; [apply mfind_massign_eq|exact Hrh1]].
    destruct R as [R1 R2 R3 R4 R5 R6]. constructor; [by apply node_wf_remote_opened|done| |by left|done|].
    + exists m. split; [done|]. exact Hst.
    + intros k' c' Hin'. destruct (R6 k' c' Hin') as (Hv' & Hhas' & Hor). split; [done|]. split; [by apply Hkeep|].
      change (n_fileHandles n1) with (massign (getPath b k) (S (n_next n)) (n_fileHandles n)).
      rewrite mfind_massign by apply R1. case_decide as Ek.
      * apply getPath_key in Ek. subst k'. rewrite (Hnd k c' c Hin' Hin).
        right. by exists (S (n_next n)).
      * destruct Hor as [?|(h & Hm & [(x & r & y & j & Hx' & Hv2 & Hkd & Hy' & Hr & Hb & Hke & Hs) Hft2 Hc2])]; [by left|right].
        exists h. split; [exact Hm|]. constructor; [|exact Hft|by apply Hkeep].
        destruct (nw_heap _ R1 _ _ Hx') as [Hlx _], (nw_heap _ R1 _ _ Hy') as [Hly _].
        exists x, r, y, j. unfold n1, remote_opened. cbn [n_heap set_heap set_filesOpened set_fileHandles].
        by rewrite !lookup_alter_ne, !lookup_insert_ne by lia.
  - pose proof Hrh as [(x & r & y & i & Hx & Hvx & Hkd & Hy & Hr & Hb & Hke & Hs) Hcm Hc].
    pose proof (open_registered b k h n x (ra_running _ _ _ _ R) Hv Hm Hx Hvx) as E.
    set (g := fun x : Handle => with_count (h_openCount x + 1) x).
    exists h, (opened h n), (remote_open a b files k c h). split; [exact E|]. split; [|by apply remote_session].
    split; [|split; [exact Hm|]].
    + apply (reaches_like a b files n); try done; [by apply node_wf_opened, R|by apply (alter_like g)].
    + apply (remote_handle_like a b k c h n); try done. by apply (alter_like g).
Qed.
End remote.

(** ** The programs *)

Section programs.
Context {W X K T : Type} `{MDService W} `{S3Client X} `{Kernel K} `{Transfers T}.
Context (fuel : nat).
Context (P : Node W X K T -> Prop) (b : str) (c : Z -> str).
Implicit Types n : Node W X K T.

(** The first [count] objects can be read. *)
Definition readers (count : Z) : Prop := forall i, 0 <= i < count -> readable fuel b (to_string i) (c i) P.

(** What an executor reads: for each of its tasks one range of every object. *)
Definition shuffle_total (nTasks nFiles r executorId : Z) : Z :=
  total (fun t => total (fun i => amount (t * r) r (c i)) (seqZ 0 nFiles)) (executor_files nTasks executorId).

Lemma executor_task_bound nTasks ex e t :
  0 <= nTasks -> 0 <= e < ex -> ex * nTasks < two64 -> t ∈ executor_files nTasks e -> 0 <= t < ex * nTasks.
Proof using Type.
  intros Hn He Hl Ht. assert (Hin : t ∈ concat (map (executor_files nTasks) (seqZ 0 ex))).
  { apply list_elem_of_In, in_concat. exists (executor_files nTasks e). split; [|by apply list_elem_of_In].
    apply in_map_iff. exists e. split; [done|]. apply list_elem_of_In, elem_of_seqZ. lia. }
  rewrite executor_files_all in Hin by lia. apply elem_of_seqZ in Hin. lia.
Qed.

(** The lines that shuffle_read prints before it reads. *)
Definition shuffle_header (fl : ShuffleReadFlags) (sizePerRead : Z) : list line :=
  [Out "Starting shuffle Read benchmark."; field "Bucket:             " (rf_bucket fl);
   field "# files:            " (to_string (rf_numFiles fl)); field "# executors:        " (to_string (rf_numExecutors fl));
   field "# tasks/executor:   " (to_string (rf_numTasksExecutor fl));
   field "# threads/executor: " (to_string (rf_numThreadsExecutor fl));
   field "size per read:      " (to_string sizePerRead)].

Lemma shuffle_executors_exact shuffle nTasks nFiles r ex order n :
  (forall e l, shuffle e l ≡ₚ l) -> readers nFiles -> P n -> 0 <= nTasks -> 0 <= ex -> ex * nTasks < two64 ->
  0 <= r < two64 -> ex * nTasks * r < INT64_MAX -> order ≡ₚ seqZ 0 ex ->
  exists n', run_threads (fun e => shuffle_executor fuel shuffle b e nTasks nFiles r) order n =
      Done ([], Returns (map (fun e => Some (u64 (shuffle_total nTasks nFiles r e))) order)) n' /\ P n' /\
    total (shuffle_total nTasks nFiles r) order =
      total (fun i => Z.min (len (c i)) (ex * nTasks * r)) (seqZ 0 nFiles).
Proof.
  intros Hsh Hr HP Hn Hex Hl Hrr Hm Ho.
  destruct (run_threads_exact P (fun e => shuffle_executor fuel shuffle b e nTasks nFiles r)
              (shuffle_total nTasks nFiles r) order n) as (n' & E & HP'); [|exact HP|].
  - intros e m He HPm. rewrite Ho, elem_of_seqZ in He. unfold shuffle_executor.
    change (map (fun i => u64 (i + u64 (e * nTasks))) (seqZ 0 nTasks)) with (executor_files nTasks e).
    unfold shuffle_total. rewrite <- (sum_perm _ _ _ (Hsh e (executor_files nTasks e))).
    apply (run_tasks_exact P _ _ _ 0); [|exact HPm]. intros t m' Ht HPm'. rewrite Hsh in Ht.
    apply (executor_task_bound nTasks ex) in Ht; [|lia..].
    unfold shuffle_runTask. rewrite (u64_small (t * r)) by (unfold is_u64, two64, INT64_MAX in *; nia).
    apply (task_files_exact fuel P b c (t * r) r _ _ 0); [|done|nia|done|apply len_zeros; lia].
    intros i Hi%elem_of_seqZ. apply Hr. lia.
  - exists n'. split; [exact E|]. split; [exact HP'|]. rewrite (sum_perm _ _ _ Ho). unfold shuffle_total.
    rewrite <- sum_concat, executor_files_all, sum_swap by lia. apply sum_ext. intros i _.
    apply amount_ranges; nia.
Qed.

(** Executors that read whole objects, [nTasks] times each. *)
Lemma whole_executors_exact (executor : Z -> Prog (option Z)) (task : Prog (StatusOr Z)) (s : Z) nTasks ex order n :
  (forall e, executor e = run_tasks (fun _ => task) (seqZ 0 nTasks) 0) ->
  (forall n, P n -> exists n', task n = Done ([], Returns (Value (u64 s))) n' /\ P n') ->
  P n -> 0 <= nTasks -> 0 <= ex -> order ≡ₚ seqZ 0 ex ->
  exists n', run_threads executor order n = Done ([], Returns (map (fun _ => Some (u64 (s * nTasks))) order)) n' /\ P n'.
Proof.
  intros He Ht HP Hn Hex Ho. apply (run_threads_exact P executor (fun _ => s * nTasks)); [|exact HP].
  intros e m _ HPm. rewrite He.
  destruct (run_tasks_exact P (fun _ => task) (fun _ => s) (seqZ 0 nTasks) 0 m) as (m' & E & HP'); [|exact HPm|].
  - intros _ m' _. apply Ht.
  - exists m'. split; [|exact HP']. rewrite sum_const, length_seqZ, Z2Nat.id, Z.add_0_l in E by done. exact E.
Qed.

Lemma finish_exact what elapsed server n :
  n_state n = Running ->
  exists n', finish fuel what elapsed server n = Done ([took_line what elapsed], Exits EXIT_SUCCESS) n' /\ n_state n' = Stopped.
Proof.
  intros Hr. destruct (stop_step fuel server n Hr) as (n' & E & Hs & _). exists n'. split; [|done].
  apply pbind_print. by rewrite (pbind_call _ _ _ _ _ _ E eq_refl).
Qed.

Lemma finish_threads {A} (threads : Prog A) what elapsed server a n n1 :
  threads n = Done ([], Returns a) n1 -> n_state n1 = Running ->
  exists n', (do _ <- threads ;; finish fuel what elapsed server) n = Done ([took_line what elapsed], Exits EXIT_SUCCESS) n' /\
    n_state n' = Stopped.
Proof.
  intros E Hr. destruct (finish_exact what elapsed server n1 Hr) as (n' & E2 & Hs). exists n'. split; [|done].
  exact (pbind_returns _ _ _ _ [] a _ _ n' E E2).
Qed.
(** What shuffle_read reads. In a process that starts, whose bucket lists at least
    [numFiles] files and which can read the objects with the numbers below it, every
    executor finishes all its tasks, in whatever order the executors and their tasks
    run. Together they read of every object the first [tasks * (maxSize / tasks)]
    bytes, each byte once, [maxSize] being the size of the biggest object listed and
    [tasks] the number of all tasks: the remainder of the division is not read. The
    program then stops the service and exits with success. *)
Theorem shuffle_read_exact shuffle fl bt order elapsed server n n1 n2 st l maxSize :
  let ex := rf_numExecutors fl in let nTasks := rf_numTasksExecutor fl in let nFiles := rf_numFiles fl in
  let r := maxSize / (ex * nTasks) in
  geds_start bt n = Done st n1 -> ok st = true -> geds_listAsFolder (rf_bucket fl) [] n1 = Done (Value l) n2 ->
  nFiles <= count_files l -> max_size l = Some maxSize -> 0 <= maxSize < INT64_MAX -> rf_bucket fl = b ->
  (forall e l, shuffle e l ≡ₚ l) -> order ≡ₚ seqZ 0 ex -> 0 <= ex -> 0 <= nTasks -> 0 < ex * nTasks < two64 ->
  P n2 -> (forall n, P n -> n_state n = Running) -> readers nFiles ->
  exists n3 n',
    run_threads (fun e => shuffle_executor fuel shuffle b e nTasks nFiles r) order n2 =
      Done ([], Returns (map (fun e => Some (u64 (shuffle_total nTasks nFiles r e))) order)) n3 /\
    total (shuffle_total nTasks nFiles r) order = total (fun i => Z.min (len (c i)) (ex * nTasks * r)) (seqZ 0 nFiles) /\
    shuffle_read fuel shuffle fl bt order elapsed server n =
      Done (shuffle_header fl r ++ [took_line "Shuffle read" elapsed], Exits EXIT_SUCCESS) n' /\ n_state n' = Stopped.
Proof.
  intros ex nTasks nFiles r Est Hok El Hcount Hmax Hms Hb Hsh Ho Hex Hn Ht HP Hrun Hr.
  assert (Hrr : 0 <= r) by (apply Z.div_pos; lia). assert (Hle : ex * nTasks * r <= maxSize) by (apply Z.mul_div_le; lia).
  assert (Hru : r < two64) by (unfold two64, INT64_MAX in *; nia).
  destruct (shuffle_executors_exact shuffle nTasks nFiles r ex order n2 Hsh Hr HP Hn Hex) as (n3 & E & HP3 & Hsum);
    [lia|lia|lia|done|].
  destruct (finish_threads _ "Shuffle read" elapsed server _ n2 n3 E (Hrun n3 HP3)) as (n' & E2 & Hs).
  exists n3, n'. split; [exact E|]. split; [exact Hsum|]. split; [|exact Hs].
  unfold shuffle_read. rewrite (pbind_call _ _ _ _ _ _ Est eq_refl), Hok. cbn [negb].
  rewrite (pbind_call _ _ _ _ _ _ El eq_refl), (proj2 (Z.ltb_ge _ _)) by done. rewrite Hmax.
  fold ex nTasks nFiles. rewrite u64_small by (unfold is_u64; lia). rewrite (proj2 (Z.eqb_neq _ _)) by lia. fold r.
  do 7 apply pbind_print. rewrite Hb. exact E2.
Qed.

(** The lines that the other programs print before they read. *)
Definition wo_header (fl : ReadWoFlags) (nFiles sizePerRead : Z) : list line :=
  [Out "Starting Without PubSub Read benchmark."; field "Bucket:             " (wf_bucket fl);
   field "# files:            " (to_string nFiles); field "# executors:        " (to_string (wf_numExecutors fl));
   field "# tasks/executor:   " (to_string (wf_numTasksExecutor fl)); field "size per read:      " (to_string sizePerRead)].

Definition pubsub_header (fl : ReadPubsubFlags) : list line :=
  [Out "Starting With PubSub Read benchmark."; field "Bucket:             " (uf_bucket fl);
   field "# executors:        " (to_string (uf_numExecutors fl)); field "# tasks/executor:   " (to_string (uf_numTasksExecutor fl))].

(** What read_wo_pubsub reads: every task of every executor reads the whole of
    every object that is listed as a file, if these have the numbers from 0. *)
Theorem read_wo_pubsub_exact fl bt order elapsed server n n1 n2 st l maxSize :
  let ex := wf_numExecutors fl in let nTasks := wf_numTasksExecutor fl in let nFiles := count_files l in
  let s := total (fun i => len (c i)) (seqZ 0 nFiles) in
  geds_start bt n = Done st n1 -> ok st = true -> geds_listAsFolder (wf_bucket fl) [] n1 = Done (Value l) n2 ->
  max_size l = Some maxSize -> 0 <= maxSize < two64 -> (forall i, 0 <= i < nFiles -> len (c i) <= maxSize) ->
  wf_bucket fl = b -> order ≡ₚ seqZ 0 ex -> 0 <= ex -> 0 <= nTasks ->
  P n2 -> (forall n, P n -> n_state n = Running) -> readers nFiles ->
  exists n3 n',
    run_threads (fun _ => wo_executor fuel b nTasks nFiles maxSize) order n2 =
      Done ([], Returns (map (fun _ => Some (u64 (s * nTasks))) order)) n3 /\
    read_wo_pubsub fuel fl bt order elapsed server n =
      Done (wo_header fl nFiles maxSize ++ [took_line "Without PubSub read" elapsed], Exits EXIT_SUCCESS) n' /\ n_state n' = Stopped.
Proof.
  intros ex nTasks nFiles s Est Hok El Hmax Hms Hc Hb Ho Hex Hn HP Hrun Hr.
  destruct (whole_executors_exact (fun _ => wo_executor fuel b nTasks nFiles maxSize) (wo_runTask fuel b nFiles maxSize) s
              nTasks ex order n2) as (n3 & E & HP3); try done.
  { intros m HPm. destruct (task_files_exact fuel P b c 0 maxSize (seqZ 0 nFiles) (zeros maxSize) 0 m) as (m' & E & HP'); try done.
    - intros i Hi%elem_of_seqZ. apply Hr. lia.
    - apply len_zeros. lia.
    - exists m'. split; [|exact HP']. unfold wo_runTask. rewrite Z.add_0_l in E. unfold s.
      rewrite (sum_ext (fun i => len (c i)) (fun i => amount 0 maxSize (c i))); [exact E|].
      intros i Hi%elem_of_seqZ. unfold amount. pose proof (len_nonneg (c i)). specialize (Hc i ltac:(lia)). lia. }
  destruct (finish_threads _ "Without PubSub read" elapsed server _ n2 n3 E (Hrun n3 HP3)) as (n' & E2 & Hs).
  exists n3, n'. split; [exact E|]. split; [|exact Hs].
  unfold read_wo_pubsub. rewrite (pbind_call _ _ _ _ _ _ Est eq_refl), Hok. cbn [negb].
  rewrite (pbind_call _ _ _ _ _ _ El eq_refl), Hmax. do 6 apply pbind_print. rewrite Hb. exact E2.
Qed.

(** Without an object, the task of read_with_pubsub terminates the process, while
    that of shuffle_read returns the status: the size is asked for too early. *)
Theorem pubsub_task_crashes nFiles st n n1 :
  geds_open b "0" true n = Done (Error st) n1 -> 0 < nFiles ->
  pubsub_runTask fuel b nFiles n = Crash /\
  forall readSize, shuffle_runTask fuel b 0 readSize nFiles n = Done ([], Returns (Error st)) n1.
Proof.
  intros E Hn. unfold pubsub_runTask, shuffle_runTask. rewrite seqZ_cons by lia. cbn [pubsub_task_files task_files].
  split; [|intros readSize]; by rewrite (pbind_call _ _ _ _ _ _ E eq_refl).
Qed.

(** What read_with_pubsub reads, once the line it waits for was entered: every task
    of every executor reads the whole of the objects with the numbers below
    [numFiles]. *)
Theorem read_with_pubsub_exact fl bt order elapsed server n n1 n2 st :
  let ex := uf_numExecutors fl in let nTasks := uf_numTasksExecutor fl in let nFiles := uf_numFiles fl in
  let s := total (fun i => len (c i)) (seqZ 0 nFiles) in
  geds_start bt n = Done st n1 -> ok st = true ->
  run_subscribers (uf_bucket fl) (seqZ 0 ex) n1 = Done ([], Returns tt) n2 ->
  (forall i, 0 <= i < nFiles -> len (c i) < two64) ->
  uf_bucket fl = b -> order ≡ₚ seqZ 0 ex -> 0 <= ex -> 0 <= nTasks ->
  P n2 -> (forall n, P n -> n_state n = Running) -> readers nFiles ->
  exists n3 n',
    run_threads (fun _ => pubsub_executor fuel b nTasks nFiles) order n2 =
      Done ([], Returns (map (fun _ => Some (u64 (s * nTasks))) order)) n3 /\
    read_with_pubsub fuel fl bt true order elapsed server n =
      Done (pubsub_header fl ++ [took_line "With PubSub read" elapsed], Exits EXIT_SUCCESS) n' /\ n_state n' = Stopped.
Proof.
  intros ex nTasks nFiles s Est Hok Esub Hc Hb Ho Hex Hn HP Hrun Hr.
  destruct (whole_executors_exact (fun _ => pubsub_executor fuel b nTasks nFiles) (pubsub_runTask fuel b nFiles) s
              nTasks ex order n2) as (n3 & E & HP3); try done.
  { intros m HPm. apply (pubsub_task_files_exact fuel P b c _ 0); [|exact HPm].
    intros i Hi%elem_of_seqZ. split; [apply Hr; lia|apply Hc; lia]. }
  destruct (finish_threads _ "With PubSub read" elapsed server _ n2 n3 E (Hrun n3 HP3)) as (n' & E2 & Hs).
  exists n3, n'. split; [exact E|]. split; [|exact Hs].
  unfold read_with_pubsub. rewrite (pbind_call _ _ _ _ _ _ Est eq_refl), Hok. cbn [negb].
  do 4 apply pbind_print. rewrite <- (app_nil_l [took_line "With PubSub read" elapsed]).
  apply (pbind_returns _ _ _ _ [] tt _ _ n' Esub). cbn [negb app]. rewrite Hb. exact E2.
Qed.
End programs.

(** ** Witnesses *)

#[local] Transparent to_string.
#[local] Existing Instance the_stub.
#[local] Existing Instance the_service.

(** A process that has the object [bkt/k], five bytes long, before it starts. *)
Definition own_store (k : str) : Server := put_demo k demo_server.

Definition own_node (k : str) : Node Server MemS3.world nat unit :=
  mkNode (mkNodeConfig 4 false false) Stopped
    (newMetadataService (ms_uuid connected_client) (ms_serverAddress connected_client) None) (own_store k) "/tmp/geds"
    (mkFileNames 1 [(k, 0)]) [] [(getPath "bkt" k, 0%nat)] [] ["bkt" : str] [] 0 0
    {[0%nat := newHandle "bkt" k None (KLocal (mkLocalFile "/tmp/geds/bkt/0" 0 5 []) 0 true)]} 1 0
    (fun _ => mem_state) (mkFS {[("/tmp/geds/bkt/0" : str) := 0]} {[0 := ("hello" : str)]} 1 ∅) 0%nat tt.

Definition own_started (k : str) : Node Server MemS3.world nat unit :=
  set_state Running (set_hostURI (computeHostUri "node1" 4382) (set_md connected_client (own_store k) (own_node k))).

Lemma own_starts k : geds_start boot_ok (own_node k) = Done OkStatus (own_started k).
Proof. reflexivity. Qed.

(** Listing changes only what the process knows of the store. *)
Lemma list_learns {W X K T : Type} `{MDStub W} b p d (n n' : Node W X K T) r :
  geds_list b p d n = Done r n' -> learns n n'.
Proof.
  unfold geds_list, bind, gets, md_call, modify, ret. destruct (if pubSubEnabled (n_config n) then _ else _) as [[c w] l] eqn:E.
  destruct l as [[objs cps]|lst]; [destruct (_ && negb _)|]; intros E2; injection E2 as _ <-; eexists c, w, _.
  1, 2: reflexivity.
  by instantiate (1 := n_knownBuckets n); destruct n.
Qed.

Lemma own_owns k n :
  ok (isValid "bkt" k) = true -> mfind (getPath "bkt" k) [(getPath "bkt" k, 0%nat)] = Some 0%nat ->
  learns (own_started k) n -> owns 30 "bkt" [(k, "hello" : str)] n.
Proof.
  intros Hv Hm (c & w & l & ->). split; [done|]. intros k' d Hin%list_elem_of_singleton.
  pose proof (f_equal fst Hin : k' = k) as ->. pose proof (f_equal snd Hin : d = "hello") as ->. exists 0%nat.
  constructor; [done|done|split; constructor|done|simpl; lia|].
  eexists _, (mkLocalFile "/tmp/geds/bkt/0" 0 5 []), 0, true.
  split; [apply lookup_singleton_eq|]. split; [reflexivity|]. split; [reflexivity|]. split; [|reflexivity].
  constructor; [simpl; lia|reflexivity|vm_compute; reflexivity].
Qed.

Lemma own_list :
  exists n', geds_listAsFolder "bkt" [] (own_started "0") = Done (Value [mkFileStatus "0" 5 false]) n' /\
    owns 30 "bkt" [("0" : str, "hello" : str)] n'.
Proof.
  assert (Ev : match geds_listAsFolder "bkt" [] (own_started "0") with Done r _ => Some r | _ => None end =
    Some (Value [mkFileStatus "0" 5 false])) by (vm_compute; reflexivity).
  destruct (geds_listAsFolder "bkt" [] (own_started "0")) as [r n'| |] eqn:E; [|done..]. injection Ev as ->.
  exists n'. split; [done|]. apply own_owns; [reflexivity..|]. eapply list_learns, E.
Qed.

(** Two executors with two tasks each: one byte per task, the last byte is not
    read. *)
Lemma shuffle_read_exact_witness :
  let fl := mkShuffleReadFlags "host:4381" 4382 "/tmp/GEDS_XXXXXX" "bkt" 1 2 2 1 in
  exists n2 n3 n',
    run_threads (fun e => shuffle_executor 30 (fun _ => @rev Z) "bkt" e 2 1 1) [1; 0] n2 = Done ([], Returns [Some 2; Some 2]) n3 /\
    shuffle_read 30 (fun _ => @rev Z) fl boot_ok [1; 0] "7" OkStatus (own_node "0") =
      Done (shuffle_header fl 1 ++ [took_line "Shuffle read" "7"], Exits 0) n'.
Proof.
  intros fl. destruct own_list as (n2 & El & Hown).
  destruct (shuffle_read_exact 30 (owns 30 "bkt" [("0" : str, "hello" : str)]) "bkt" (fun _ => "hello") (fun _ => @rev Z) fl boot_ok
              [1; 0] "7" OkStatus (own_node "0") (own_started "0") n2 OkStatus [mkFileStatus "0" 5 false] 5 (own_starts _) eq_refl El)
    as (n3 & n' & E & _ & E2 & _).
  - reflexivity || (vm_compute; intros [=]).
  - reflexivity.
  - unfold INT64_MAX. lia.
  - reflexivity.
  - intros _ l. symmetry. apply Permutation_rev.
  - cbn. apply Permutation_swap.
  - cbn. lia.
  - cbn. lia.
  - cbn. unfold two64. lia.
  - exact Hown.
  - by intros n [Hr _].
  - intros i Hi. cbn in Hi. replace i with 0 by lia. apply owns_readable. by left.
  - exists n2, n3, n'. split; [exact E|exact E2].
Defined.

(** The client of the previous files reaches the object of the demonstration
    host over TCP. *)
Lemma reaches_readable_witness :
  readable (H2 := tcp 30 "pppp" 1) 30 "bkt" "dir/key" "hello"
    (reaches (H3 := tcp 30 "pppp" 1) (H4 := demo_hosts) demo_address "bkt" [("dir/key" : str, "hello" : str)]) /\
  reaches (H3 := tcp 30 "pppp" 1) (H4 := demo_hosts) demo_address "bkt" [("dir/key" : str, "hello" : str)] remote_client.
Proof.
  split.
  - apply (reaches_readable (H4 := demo_hosts) 30 demo_address "bkt" [("dir/key" : str, "hello" : str)]); [|by left].
    intros k c c' Hc%list_elem_of_singleton Hc'%list_elem_of_singleton. exact (f_equal snd (eq_trans Hc (eq_sym Hc'))).
  - constructor; [|reflexivity| |right; split; [reflexivity|exact (conj demo_open (conj demo_accepting demo_socket))]|intros [=]|].
    + destruct (cc_wf _ _ _ _ _ remote_can_create). by constructor.
    + eexists. split; [split; [reflexivity|split; [exact remote_store_abs|apply empty_coherent]]|].
      intros k c Hin%list_elem_of_singleton. pose proof (f_equal fst Hin : k = "dir/key") as ->.
      pose proof (f_equal snd Hin : c = "hello") as ->. exists remote_info. split; [reflexivity|by split].
    + intros k c Hin%list_elem_of_singleton. pose proof (f_equal fst Hin : k = "dir/key") as ->.
      pose proof (f_equal snd Hin : c = "hello") as ->. split; [reflexivity|]. split; [exact demo_tcp_has|by left].
Defined.
