(* ===== verification/BenchmarkIO.v ===== *)
(** * The program that measures reads

    src/src/benchmarks/benchmark_io.cpp: threads that open an object each and read
    it, for growing sizes and numbers of threads, and the statistics of the times
    they took. The times are arguments, in microseconds; quotients are pairs of a
    numerator and a denominator, and how they are printed is an argument. The
    threads of a measurement run one after the other, in any order. *)

From Stdlib Require Import Ascii ZArith Lia.
From stdpp Require Import base gmap sets list strings numbers sorting.
From S2P Require Import Prelude Bytes Decimal Status StdMap Path Object FileSet MDSKVSBucket MDSKVS S3Endpoint Rpc GEDSConfig.
From S2P Require Import MetadataServer MetadataService LocalFile ConcurrentMap GedsNames FileHandle.
From S2P Require Import Node Handles HandleIO GEDS GEDSCreate GEDSObjects Endian TcpConnection GEDSCopy GEDSStatus.
From S2P Require Import Commands Demo Benchmarks BenchmarkRead.

Open Scope Z_scope.
Open Scope list_scope.

#[local] Opaque to_string.

(** ** Sizes *)

(** [KILOBYTE * (1 << factor)], where the shift is one of type [int]; shifting by
    its width or more is undefined. *)
Definition getPayloadSize (factor : Z) : option Z :=
  if 32 <=? factor then None else Some (u64 (KILOBYTE * u64 (i32 (Z.shiftl 1 factor)))).

(** ** Statistics *)

Record Latency := mkLatency { timeOpen : Z; timeLastByte : Z }.

Record Times := mkTimes {
  t_min : Z;
  t_max : Z;
  t_avg : Z * Z;
  t_p25 : Z;
  t_p50 : Z;
  t_p75 : Z
}.

Record BenchmarkResult := mkResult {
  br_payloadSize : Z;
  br_threads : Z;
  br_rate : Z * Z;
  br_open : Times;
  br_lastByte : Times
}.

(** [std::max(q * numThreads - 1.0, 0.0)] as an index, [q] being [quarters / 4]. *)
Definition percentile_index (quarters numThreads : Z) : Z := Z.max ((quarters * numThreads) / 4 - 1) 0.

(** [v[i]] of a sorted vector, which is not checked. *)
Definition at_index (l : list Z) (i : Z) : Z := nth (Z.to_nat i) l 0.

Definition times (l : list Z) : Times :=
  let numThreads := Z.of_nat (length l) in
  let sorted := merge_sort Z.le l in
  mkTimes (at_index sorted 0) (at_index sorted (numThreads - 1)) (foldr Z.add 0 l, numThreads)
    (at_index sorted (percentile_index 1 numThreads)) (at_index sorted (percentile_index 2 numThreads))
    (at_index sorted (percentile_index 3 numThreads)).

(** [rate]: bytes per microsecond. The time is divided by [MEGABYTE] to have
    seconds, and the rate is divided by [MEGABYTE] again. *)
Definition rate (numThreads payloadSize elapsed : Z) : Z * Z := (numThreads * payloadSize, elapsed).

(** ** Measuring *)

(** The measured times: of each thread, and of all threads together. *)
Record Clock := mkClock {
  ck_latency : Z -> Z -> Z -> Latency;
  ck_elapsed : Z -> Z -> Z
}.

Section program.
Context {W X K T : Type} `{MDStub W} `{S3Client X} `{Kernel K} `{Transfers T}.
Context (fuel : nat) (bucket : str) (sameFile : bool) (clock : Clock).

Notation Prog := (Prog (W := W) (X := X) (K := K) (T := T)).

Definition benchmark_key (numThreads threadId factor : Z) : str :=
  if sameFile then "1-" ++ to_string factor ++ "-0.data"
  else to_string numThreads ++ "-" ++ to_string factor ++ "-" ++ to_string threadId ++ ".data".

(** [runBenchmarkThread] with a buffer of [size] bytes: whether it has set the
    value of its promise. The exception after a failed read terminates the
    process. *)
Definition runBenchmarkThread (size numThreads threadId factor payloadSize : Z) : Prog bool :=
  do file <- run_call (geds_open bucket (benchmark_key numThreads threadId factor) true) ;;
  match file with
  | Error _ => pret false
  | Value h =>
      do status <- run_call (gf_readBytes fuel h 0 payloadSize) ;;
      match status with
      | Error _ => fun _ => Crash
      | Value (_, bytes) =>
          if size <? len bytes then ret ([], Overruns)
          else do _ <- run_call (close h) ;; pret true
      end
  end.

Fixpoint run_benchmark_threads (size numThreads factor payloadSize : Z) (ids : list Z) : Prog (list bool) :=
  match ids with
  | [] => pret []
  | i :: ids =>
      do set <- runBenchmarkThread size numThreads i factor payloadSize ;;
      do sets <- run_benchmark_threads size numThreads factor payloadSize ids ;;
      pret (set :: sets)
  end.

(** [benchmark]: [f.get()] of a promise that was not set terminates the process. *)
Definition benchmark (order : list Z) (size factor numThreads payloadSize : Z) : Prog BenchmarkResult :=
  do sets <- run_benchmark_threads size numThreads factor payloadSize order ;;
  if negb (forallb (fun set => set) sets) then fun _ => Crash
  else
    let latencies := map (ck_latency clock factor numThreads) (seqZ 0 numThreads) in
    pret (mkResult payloadSize numThreads (rate numThreads payloadSize (ck_elapsed clock factor numThreads))
            (times (map timeOpen latencies)) (times (map timeLastByte latencies))).

Definition result_line (show : Z * Z -> str) (r : BenchmarkResult) : line :=
  Out (to_string (br_payloadSize r) ++ ": " ++ to_string (br_threads r) ++ " " ++ show (br_rate r) ++ " MB/s").

(** The loops of [main], over the pairs of a factor and a number of threads, with
    the rows of the file. [orders] gives the order of the threads. *)
Fixpoint measure (show : Z * Z -> str) (orders : Z -> list Z) (doCachedReads : bool) (size : Z) (runs : list (Z * Z)) :
    Prog (list BenchmarkResult) :=
  match runs with
  | [] => pret []
  | (i, j) :: runs =>
      match getPayloadSize i with
      | None => fun _ => Crash
      | Some payloadSize =>
          do _ <- (if doCachedReads then do _ <- benchmark (orders j) size i j payloadSize ;; pret tt else pret tt) ;;
          do result <- benchmark (orders j) size i j payloadSize ;;
          do _ <- print (result_line show result) ;;
          do rows <- measure show orders doCachedReads size runs ;;
          pret (result :: rows)
      end
  end.

Definition benchmark_runs (factorCount threadCount : Z) : list (Z * Z) :=
  concat (map (fun i => map (fun j => (i, j)) (seqZ 1 threadCount)) (seqZ 0 (factorCount + 1))).

(** [main]: [writable] is whether the output file could be opened. *)
Definition benchmark_io (show : Z * Z -> str) (orders : Z -> list Z) (doCachedReads : bool)
    (outputFile : str) (writable : bool) (factorCount threadCount : Z) (b : Boot) (server : Status) :
    Prog (list BenchmarkResult) :=
  if negb writable
  then do _ <- print (Err ("Unable to open " ++ outputFile ++ " for writing.")) ;; pexit EXIT_FAILURE
  else
    do status <- run_call (geds_start b) ;;
    if negb (ok status) then do _ <- print (unable_to_start status) ;; pexit EXIT_FAILURE
    else
      match getPayloadSize factorCount with
      | None => fun _ => Crash
      | Some maxPayload =>
          do rows <- measure show orders doCachedReads maxPayload (benchmark_runs factorCount threadCount) ;;
          do _ <- run_call (geds_stop fuel false server) ;;
          pret rows
      end.
End program.

(** ** Lemmas: sizes *)

(** The sizes are powers of two as long as the shift stays below the sign bit. *)
Lemma payload_power factor : 0 <= factor <= 30 -> getPayloadSize factor = Some (2 ^ (factor + 10)).
Proof.
  intros Hf. unfold getPayloadSize. rewrite (proj2 (Z.leb_gt _ _)), Z.shiftl_mul_pow2, Z.mul_1_l by lia.
  assert (Hp : 0 < 2 ^ factor <= 2 ^ 30) by (split; [lia|apply Z.pow_le_mono_r; lia]).
  rewrite i32_small, (u64_small (2 ^ factor)), u64_small by (unfold is_u64, two64, KILOBYTE; lia).
  f_equal. unfold KILOBYTE. rewrite Z.pow_add_r by lia. lia.
Qed.

(** The next size is not one. *)
Lemma payload_overflow : getPayloadSize 31 = Some (2 ^ 64 - 2 ^ 41) /\ getPayloadSize 32 = None.
Proof. by vm_compute. Qed.

Lemma payload_mono i factorCount size :
  0 <= i <= factorCount -> factorCount <= 30 -> getPayloadSize factorCount = Some size ->
  exists p, getPayloadSize i = Some p /\ 0 < p <= size /\ size <= 2 ^ 40.
Proof.
  intros Hi Hf. rewrite !payload_power by lia. intros [= <-]. exists (2 ^ (i + 10)). split; [done|].
  split; [split; [lia|apply Z.pow_le_mono_r; lia]|apply Z.pow_le_mono_r; lia].
Qed.

(** ** Lemmas: statistics *)

#[local] Instance Zle_total : Total Z.le.
Proof. intros x y. lia. Qed.
#[local] Instance Zle_trans : Transitive Z.le.
Proof. intros x y z. lia. Qed.

Lemma sorted_nth l i j : Sorted Z.le l -> (i <= j < length l)%nat -> nth i l 0 <= nth j l 0.
Proof.
  intros Hs%(Sorted_StronglySorted _) [Hi Hj]. revert i j Hi Hj.
  induction Hs as [|x l Hs IH Hx]; intros i j Hi Hj; cbn [length] in Hj; [lia|].
  destruct i as [|i], j as [|j]; cbn [nth]; [lia| |lia|apply IH; lia].
  rewrite Forall_forall in Hx. apply Hx. apply list_elem_of_In, nth_In. lia.
Qed.

Lemma percentile_mono q q' n : 1 <= n -> 1 <= q <= q' -> q' <= 3 ->
  0 <= percentile_index q n <= percentile_index q' n /\ percentile_index q' n < n.
Proof.
  intros Hn Hq Hq'. unfold percentile_index. pose proof (Z.div_le_mono (q * n) (q' * n) 4 ltac:(lia) ltac:(nia)).
  assert (q' * n / 4 <= n) by (apply Z.div_le_upper_bound; nia). lia.
Qed.

(** The statistics of at least one time: no index is out of range, the times are in
    order, and the first and last are the smallest and biggest of all. *)
Lemma times_spec l :
  l <> [] ->
  let t := times l in
  t_min t <= t_p25 t /\ t_p25 t <= t_p50 t /\ t_p50 t <= t_p75 t /\ t_p75 t <= t_max t /\
  (forall x, x ∈ [t_min t; t_p25 t; t_p50 t; t_p75 t; t_max t] -> x ∈ l) /\
  forall x, x ∈ l -> t_min t <= x <= t_max t.
Proof.
  intros Hne t. set (s := merge_sort Z.le l). assert (Hp : s ≡ₚ l) by apply merge_sort_Permutation.
  assert (Hs : Sorted Z.le s) by apply Sorted_merge_sort, _.
  pose proof (Permutation_length Hp) as Hlen. assert (Hl : 1 <= Z.of_nat (length l)) by (destruct l; [done|cbn [length]; lia]).
  set (n := Z.of_nat (length l)) in *.
  assert (Hat : forall i j, 0 <= i <= j -> j < n -> at_index s i <= at_index s j).
  { intros i j Hi Hj. unfold at_index. apply sorted_nth; [done|]. lia. }
  assert (Hin : forall i, 0 <= i < n -> at_index s i ∈ l).
  { intros i Hi. rewrite <- Hp. apply list_elem_of_In, nth_In. lia. }
  pose proof (percentile_mono 1 2 n Hl) as H12. pose proof (percentile_mono 2 3 n Hl) as H23.
  unfold t, times. fold s n. cbn [t_min t_max t_p25 t_p50 t_p75]. split_and!; try (apply Hat; lia).
  - intros x Hx. rewrite !elem_of_cons, elem_of_nil in Hx. destruct Hx as [->|[->|[->|[->|[->|[]]]]]]; apply Hin; lia.
  - intros x Hx. rewrite <- Hp in Hx. apply list_elem_of_In, (In_nth _ _ 0) in Hx as (i & Hi & <-).
    assert (nth i s 0 = at_index s (Z.of_nat i)) as -> by (unfold at_index; by rewrite Nat2Z.id).
    split; apply Hat; lia.
Qed.

(** ** Lemmas: measuring *)

Section measuring.
Context {W X K T : Type} `{MDService W} `{S3Client X} `{Kernel K} `{Transfers T}.
Context (fuel : nat) (b : str) (sameFile : bool) (clock : Clock).
Context (P : Node W X K T -> Prop) (c : str -> str) (show : Z * Z -> str) (orders : Z -> list Z).
Implicit Types n : Node W X K T.

(** The object that a thread opens can be read. *)
Definition key_readable (j t i : Z) : Prop :=
  readable fuel b (benchmark_key sameFile j t i) (c (benchmark_key sameFile j t i)) P.

(** The row of a measurement. *)
Definition row (i j payload : Z) : BenchmarkResult :=
  mkResult payload j (rate j payload (ck_elapsed clock i j))
    (times (map (fun t => timeOpen (ck_latency clock i j t)) (seqZ 0 j)))
    (times (map (fun t => timeLastByte (ck_latency clock i j t)) (seqZ 0 j))).

Lemma thread_exact size j t i payload n :
  key_readable j t i -> P n -> 0 <= payload <= size -> size < two64 ->
  exists n', runBenchmarkThread fuel b sameFile size j t i payload n = Done ([], Returns true) n' /\ P n'.
Proof.
  intros Hr HP Hp Hs. destruct (Hr n HP) as (h & n1 & Q & E1 & HQ & Ses).
  destruct (ss_read _ _ _ _ _ Ses 0 payload n1 HQ) as (n2 & E2 & HQ2); [unfold INT64_MAX; lia|lia|].
  destruct (ss_close _ _ _ _ _ Ses n2 HQ2) as (n3 & E3 & HP3). exists n3. split; [|exact HP3].
  unfold runBenchmarkThread. rewrite (pbind_call _ _ _ _ _ _ E1 eq_refl), (pbind_call _ _ _ _ _ _ E2 eq_refl).
  rewrite (proj2 (Z.ltb_ge _ _)).
  - by rewrite (pbind_call _ _ _ _ _ _ E3 eq_refl).
  - etransitivity; [apply slice_length_le; lia|lia].
Qed.

Lemma threads_exact size j i payload ids n :
  (forall t, t ∈ ids -> key_readable j t i) -> P n -> 0 <= payload <= size -> size < two64 ->
  exists n', run_benchmark_threads fuel b sameFile size j i payload ids n =
      Done ([], Returns (map (fun _ => true) ids)) n' /\ P n'.
Proof.
  intros Hr HP Hp Hs. revert n HP. induction ids as [|t ids IH]; intros n HP; [by exists n|].
  destruct (thread_exact size j t i payload n (Hr t ltac:(by left)) HP Hp Hs) as (n1 & E1 & HP1).
  destruct (IH ltac:(intros u Hu; apply Hr; by right) n1 HP1) as (n' & E & HP'). exists n'. split; [|exact HP'].
  cbn [run_benchmark_threads map]. apply (pbind_returns _ _ _ _ [] _ [] _ n' E1).
  by apply (pbind_returns _ _ _ _ [] _ [] _ n' E).
Qed.

Lemma benchmark_exact size j i payload order n :
  (forall t, 0 <= t < j -> key_readable j t i) -> order ≡ₚ seqZ 0 j -> P n -> 0 <= payload <= size -> size < two64 ->
  exists n', benchmark fuel b sameFile clock order size i j payload n = Done ([], Returns (row i j payload)) n' /\ P n'.
Proof.
  intros Hr Ho HP Hp Hs. destruct (threads_exact size j i payload order n) as (n' & E & HP'); try done.
  { intros t Ht. rewrite Ho, elem_of_seqZ in Ht. apply Hr. lia. }
  exists n'. split; [|exact HP']. unfold benchmark. apply (pbind_returns _ _ _ _ [] _ [] _ n' E).
  assert (forallb (fun set => set) (map (fun _ => true) order) = true) as -> by (clear; induction order; done).
  cbn [negb]. unfold row. by rewrite !map_map.
Qed.

Lemma pbind_last {A B} (p : Prog A) (k : A -> Prog B) n n1 l a e n' :
  p n = Done (l, Returns a) n1 -> k a n1 = Done ([], e) n' -> pbind p k n = Done (l, e) n'.
Proof using Type. intros E1 E2. pose proof (pbind_returns _ _ _ _ _ _ _ _ _ E1 E2) as E. by rewrite app_nil_r in E. Qed.

(** The rows and the lines of a list of measurements. *)
Definition rows (runs : list (Z * Z)) : list BenchmarkResult := map (fun r => row (fst r) (snd r) (2 ^ (fst r + 10))) runs.

Lemma measure_exact doCached size factorCount runs n :
  0 <= factorCount <= 30 -> getPayloadSize factorCount = Some size ->
  (forall i j, (i, j) ∈ runs -> 0 <= i <= factorCount /\ orders j ≡ₚ seqZ 0 j /\ forall t, 0 <= t < j -> key_readable j t i) ->
  P n ->
  exists n', measure fuel b sameFile clock show orders doCached size runs n =
      Done (map (result_line show) (rows runs), Returns (rows runs)) n' /\ P n'.
Proof.
  intros Hf Hsz Hr HP. revert n HP. induction runs as [|[i j] runs IH]; intros n HP; [by exists n|].
  destruct (Hr i j ltac:(by left)) as (Hi & Ho & Hk).
  destruct (payload_mono i factorCount size Hi ltac:(lia) Hsz) as (p & Ep & Hp & Hs). rewrite payload_power in Ep by lia.
  injection Ep as <-. assert (Hpp : 0 <= 2 ^ (i + 10) <= size) by lia. assert (Hs' : size < two64) by (unfold two64; lia).
  assert (Ec : exists n1, (if doCached then do _ <- benchmark fuel b sameFile clock (orders j) size i j (2 ^ (i + 10)) ;; pret tt else pret tt) n =
    Done ([], Returns tt) n1 /\ P n1).
  { destruct doCached; [|by exists n]. destruct (benchmark_exact size j i (2 ^ (i + 10)) (orders j) n Hk Ho HP Hpp Hs') as (n1 & E1 & HP1).
    exists n1. split; [|done]. by apply (pbind_returns _ _ _ _ [] _ [] _ n1 E1). }
  destruct Ec as (n1 & E1 & HP1).
  destruct (benchmark_exact size j i (2 ^ (i + 10)) (orders j) n1 Hk Ho HP1 Hpp Hs') as (n2 & E2 & HP2).
  destruct (IH ltac:(intros i' j' Hin; apply Hr; by right) n2 HP2) as (n' & E & HP'). exists n'. split; [|exact HP'].
  cbn [measure]. rewrite payload_power by lia. apply (pbind_returns _ _ _ _ [] tt _ _ n' E1).
  apply (pbind_returns _ _ _ _ [] _ _ _ n' E2). set (r := row i j (2 ^ (i + 10))).
  change (rows ((i, j) :: runs)) with (r :: rows runs). apply pbind_print. by apply (pbind_last _ _ _ _ _ _ _ _ E).
Qed.

Lemma elem_of_runs i j factorCount threadCount :
  (i, j) ∈ benchmark_runs factorCount threadCount <-> 0 <= i <= factorCount /\ 1 <= j <= threadCount.
Proof using Type.
  unfold benchmark_runs. rewrite list_elem_of_In, in_concat. split.
  - intros (l & Hl & Hin). apply in_map_iff in Hl as (i' & <- & Hi). apply in_map_iff in Hin as (j' & [= -> ->] & Hj).
    apply list_elem_of_In, elem_of_seqZ in Hi. apply list_elem_of_In, elem_of_seqZ in Hj. lia.
  - intros [Hi Hj]. exists (map (fun j => (i, j)) (seqZ 1 threadCount)). split.
    + apply in_map_iff. exists i. split; [done|]. apply list_elem_of_In, elem_of_seqZ. lia.
    + apply in_map_iff. exists j. split; [done|]. apply list_elem_of_In, elem_of_seqZ. lia.
Qed.

(** ** Properties *)

(** What benchmark_io measures. In a process that starts and can read the objects
    that the threads open, with at most 30 as the biggest factor, the program measures
    every factor with every number of threads, reads at most 2^(factor + 10) bytes per
    thread, prints one line and writes one row for each measurement, stops the service
    and returns; reading everything twice with [doCachedReads] changes no row. The
    bytes fit in the buffers. *)
Theorem benchmark_io_exact doCached outputFile factorCount threadCount bt server n n1 st :
  geds_start bt n = Done st n1 -> ok st = true -> 0 <= factorCount <= 30 ->
  (forall j, 1 <= j <= threadCount -> orders j ≡ₚ seqZ 0 j) ->
  (forall i j t, 0 <= i <= factorCount -> 1 <= j <= threadCount -> 0 <= t < j -> key_readable j t i) ->
  P n1 -> (forall n, P n -> n_state n = Running) ->
  let rs := rows (benchmark_runs factorCount threadCount) in
  exists n', benchmark_io fuel b sameFile clock show orders doCached outputFile true factorCount threadCount bt server n =
      Done (map (result_line show) rs, Returns rs) n' /\ n_state n' = Stopped /\
    forall r, r ∈ rs -> br_payloadSize r <= 2 ^ (factorCount + 10) /\ 1 <= br_threads r <= threadCount.
Proof.
  intros Est Hok Hf Ho Hr HP Hrun rs. pose proof (payload_power factorCount Hf) as Hsz.
  destruct (measure_exact doCached (2 ^ (factorCount + 10)) factorCount (benchmark_runs factorCount threadCount) n1 Hf Hsz)
    as (n2 & E & HP2); [|exact HP|].
  { intros i j [Hi Hj]%elem_of_runs. split; [done|]. split; [by apply Ho|]. intros t Ht. by apply Hr. }
  destruct (stop_step fuel server n2 (Hrun n2 HP2)) as (n' & E2 & Hs & _). exists n'. split; [|split; [exact Hs|]].
  - unfold benchmark_io. cbn [negb]. rewrite (pbind_call _ _ _ _ _ _ Est eq_refl), Hok. cbn [negb]. rewrite Hsz.
    apply (pbind_last _ _ _ _ _ _ _ _ E).
    by rewrite (pbind_call _ _ _ _ _ _ E2 eq_refl).
  - intros r Hin. unfold rs, rows in Hin. apply list_elem_of_In, in_map_iff in Hin as ([i j] & <- & Hin).
    apply list_elem_of_In, elem_of_runs in Hin as [Hi Hj]. cbn [fst snd row br_payloadSize br_threads].
    split; [apply Z.pow_le_mono_r; lia|done].
Qed.

(** One object that cannot be opened terminates the process: the promise of its
    thread is destroyed without a value. *)
Theorem missing_object_crashes size i payload st n n1 :
  geds_open b (benchmark_key sameFile 1 0 i) true n = Done (Error st) n1 ->
  benchmark fuel b sameFile clock [0] size i 1 payload n = Crash.
Proof.
  intros E. unfold benchmark. cbn [run_benchmark_threads]. unfold runBenchmarkThread, pbind, run_call, bind. rewrite E. done.
Qed.
End measuring.

(** ** Witness *)

#[local] Transparent to_string.
#[local] Existing Instance the_stub.
#[local] Existing Instance the_service.

(** Two factors, one thread and then two, all on the same object. *)
Lemma benchmark_io_exact_witness :
  let clock := mkClock (fun i j t => mkLatency t (t + i)) (fun _ _ => 7) in
  let rs := rows clock [(0, 1); (0, 2)] in
  exists n', benchmark_io 30 "bkt" true clock (fun _ => []) (seqZ 0) true "output.csv" true 0 2 boot_ok OkStatus (own_node "1-0-0.data") =
    Done ([Out "1024: 1  MB/s"; Out "1024: 2  MB/s"], Returns rs) n' /\ n_state n' = Stopped.
Proof.
  intros clock rs.
  destruct (benchmark_io_exact 30 "bkt" true clock (owns 30 "bkt" [("1-0-0.data" : str, "hello" : str)]) (fun _ => "hello")
              (fun _ => []) (seqZ 0) true "output.csv" 0 2 boot_ok OkStatus (own_node "1-0-0.data") (own_started "1-0-0.data")
              OkStatus (own_starts _) eq_refl) as (n' & E & Hs & _).
  - lia.
  - done.
  - intros i j t Hi _ _. replace i with 0 by lia. apply owns_readable. by left.
  - apply own_owns; [reflexivity..|]. exists connected_client, (own_store "1-0-0.data"), ["bkt" : str]. reflexivity.
  - by intros n [Hr _].
  - exists n'. split; [exact E|exact Hs].
Defined.
